(* ===== verification/_CoqProject ===== *)
-Q . S2P
Prelude.v
Bitstr.v
Uio.v
Ringbuf.v
Cred.v
Filedesc.v
Pipe.v
Rman.v
Vmem.v
Time.v
Callout.v
Sched.v
Sleepq.v
Physmem.v
Machine.v
VmMap.v
Pmap.v
PmapHw.v
PmapKernel.v
Kmem.v
Trap.v
Turnstile.v
