(* ===== verification/Prelude.v ===== *)
(** * Mimiker kernel: a verification development

    Mimiker is a small Unix-like operating system for MIPS and AArch64, written in C.  This
    library models the machine-independent core of its kernel and the page tables of
    MIPS, and proves what the components promise to each other and to processes.  All
    paths below are under src/.

    ** How the code is translated

    Every C function is a function of the same name on an explicit state.  A [struct] is a
    [Record] (fields that no modelled code reads are left out), a pointer to one is a
    number by which it is found in a finite map, an array is a list that is accessed only
    inside its bounds, a list of queue.h is a list.  Integers are numbers in [Z]; where the
    code can leave the range of a type the wrap-around is written out ([wrap], [uwrap],
    [swrap]).  The class [Arch] has the width of a machine word, with instances for
    the two architectures.  A result is an [outcome]: [Ok], or a [Fault] for a failed
    assertion, a panic, an access outside an object, a null pointer that an allocation
    returned, or fuel that ran out.  "Does not fault" therefore means that no [assert]
    fails, no array is overrun and every loop ends.

    The kernel runs on one processor.  A section with a mutex held, with preemption or
    with interrupts disabled is one step; functions that sleep or that can be preempted
    are cut at these points, and the theorems are about all interleavings of the
    parts.  Assertions that a mutex is held are left out with the mutexes, and so is
    the assertion of [uiomove] that it is called with interrupts and preemption enabled.

    ** The parts and how they depend on each other

    Memory, from the bottom up:
    - Physmem.v: the buddy allocator of page frames, sys/kern/vm_physmem.c;
    - Pmap.v: page tables of MIPS in page frames of Physmem.v, sys/mips/pmap.c, and
      include/mips/pmap.h, tlb.h; PmapHw.v proves the operations on maps of processes,
      PmapKernel.v those on the map of the kernel;
    - Machine.v: the class [VmHw], what address spaces ask of pages and page tables;
      PmapHw.v has the instance for the code of Pmap.v and Physmem.v;
    - VmMap.v: entries, objects, pagers, page faults, mmap, munmap, sbrk, proved against
      [VmHw]: sys/kern/vm_map.c, vm_object.c, vm_pager.c, mmap.c, sbrk.c;
    - Trap.v: [tlb_exception_handler] of sys/mips/trap.c on all of these;
    - Vmem.v: the arena allocator, sys/kern/vmem.c; Kmem.v: kernel memory on an arena,
      the kernel's page table and the buddy allocator, sys/kern/kmem.c;
    - Rman.v: ranges of device resources, sys/kern/rman.c.

    Threads:
    - Sched.v: sys/kern/sched.c, runq.c and the parts of thread.c about the processor;
    - Callout.v: sys/kern/callout.c; Time.v: include/sys/time.h, sys/kern/time.c;
    - Sleepq.v: sys/kern/sleepq.c, creation and deletion of threads, on Sched.v and Callout.v;
    - Turnstile.v: sys/kern/turnstile.c and mutex.c, on Sched.v.

    Files and processes:
    - Bitstr.v: include/bitstring.h; Filedesc.v: sys/kern/file.c, filedesc.c and
      file_syscalls.c; Cred.v: sys/kern/cred.c, cred_syscalls.c, cred_checks.c;
    - Uio.v: sys/kern/uio.c, where the copying routines in assembly are the class
      [CopyRoutines]; Ringbuf.v: sys/kern/ringbuf.c on Uio.v; Pipe.v: sys/kern/pipe.c.

    This file has what they share: outcomes, machine integers, arrays, alignment, flags and
    error numbers, from include/sys/mimiker.h, param.h, errno.h and refcnt.h.

    ** What is shown

    - From the memory access of a process to the page frame: [tlb_exception_correct],
      [pmap_emulate_bits_correct], [vm_page_fault_correct], [do_mmap_correct],
      [do_munmap_correct], [vm_map_clone_correct], [vm_map_delete_correct],
      [sbrk_resize_correct] say what each operation does to the abstract translation of
      addresses and to the contents of pages; [vm_run_consistent] says that no history
      breaks the invariant; [pmap_refines] is the simulation of [VmHw] by the tables.
      These hold unless memory, address space identifiers or references run out
      ([exhausted]), which in the code is a panic or the use of a null pointer.  The
      arguments of the calls do not wrap around, and protections are at most 7: the code
      does not check this, and the findings at the ends of the files show what happens.
    - Allocators: [vm_page_alloc_correct], [vm_page_free_correct],
      [vm_pagelist_alloc_correct], [init_vm_page_correct], [vmem_alloc_correct],
      [vmem_free_correct], [kmem_alloc_correct], [kmem_alloc_free],
      [pmap_kenter_correct], [pmap_growkernel_correct], [rman_reserve_range_correct]: what
      is handed out was free, has the size and alignment asked for, is refused only
      if there is no room, and comes back when it is released.  Segments have less than
      [2 ^ 16] pages, since larger ones overrun the free lists.
    - Scheduling and waiting: [sched_consistent], [sched_switch_correct],
      [sched_no_starvation], [sleepq_consistent], [sleepq_signal_correct],
      [sleepq_wait_reason], [callouts_consistent], [callout_process_correct].  What clients
      have to keep is in [sched_event_ok], [kern_event_ok] and [event_ok].
    - Locks: [mutex_consistent], [mutex_exclusive], [mtx_release_correct],
      [priority_inheritance], for mutexes taken in the order of a rank.  A thread that
      owns two contested mutexes can stop the kernel when it releases one of them;
      the theorems say exactly when.
    - Files, pipes, identities, time: [fd_calls_refcounts], [fdtab_install_file_lowest],
      [pipe_stream], [ringbuf_refines_fifo], [uiomove_correct], [unprivileged_confined],
      [tm2sec_correct].

    Every file ends with evaluations on small states, which show that the hypotheses of
    the theorems can be met, and with lemmas on flaws of the code where there are some.

    ** Fuel

    Loops of the code that are not structural take a number of rounds, and the theorems
    show that it is enough, since they say that the call returns: the number of chunks in
    [uiomove], 3 passes in the ring buffer (an array has two contiguous parts), 64 buckets in
    [callout_process], the number of free lists in [split_down] and [find_queue], 32
    merges in [merge_loop] (sizes double below [2 ^ 16]), the number of pages in
    [insert_pages], [collect] and [find_pages], the entries of a directory in
    [grow_loop], the number of mappings of the page in [page_remove_loop], the number of
    entries in [munmap_loop], the number of threads in [propagate_loop] (a chain of
    owners in rank order has no cycle), one growth in [kva_alloc_loop] (the arena then
    has a run of the size), two exceptions in [attempt].

    ** What is not modelled

    - The translation buffer and caches, the context switch and the entry and exit of
      exceptions, which are in assembly.  [tlb_access] of PmapHw.v states what the memory
      unit lets through, given the words of the tables.
    - Device drivers, the file systems, terminals, signals, exec and fork, whose state is
      mostly outside of the components above; the pool and malloc allocators, whose
      clients here get fresh addresses; the checkers KASAN, KCSAN and lockdep;
      spin locks, which on one processor disable interrupts; AArch64's page tables;
      user programs and libraries. *)

From Stdlib Require Export ZifyNat ZifyBool.
From stdpp Require Export prelude gmap.
#[global] Set Default Goal Selector "!".

Declare Scope kern_scope.
Delimit Scope kern_scope with kern.
#[global] Open Scope kern_scope.
#[global] Open Scope Z_scope.

(** ** Outcomes

    A kernel routine either finishes with a value or hits a fault: a failed
    [assert], an explicit [panic], an access outside an object the model gives
    bounds to, the use of the null pointer an allocation gave for want of memory,
    or (a device of the model only) the exhaustion of loop fuel. *)

Inductive fault := AssertFailed | PanicCalled | BadAccess | NoMemory | OutOfFuel.

Inductive outcome (A : Type) :=
| Ok (a : A)
| Fault (f : fault).
Arguments Ok {A} a.
Arguments Fault {A} f.

#[global] Instance fault_eq_dec : EqDecision fault.
Proof. solve_decision. Defined.

#[global] Instance outcome_eq_dec {A} `{EqDecision A} : EqDecision (outcome A).
Proof. solve_decision. Defined.

#[global] Instance outcome_ret : MRet outcome := fun A a => Ok a.
#[global] Instance outcome_bind : MBind outcome := fun A B k m =>
  match m with Ok a => k a | Fault f => Fault f end.

(** C's [assert] (sys/klog.h: [klog_assert] halts the kernel). *)
Definition assert (b : bool) : outcome unit :=
  if b then Ok tt else Fault AssertFailed.

Definition panic {A} : outcome A := Fault PanicCalled.

Definition is_ok {A} (m : outcome A) : bool :=
  match m with Ok _ => true | Fault _ => false end.

Lemma bind_ok {A B} (k : A -> outcome B) (m : outcome A) (b : B) :
  m ≫= k = Ok b <-> exists a, m = Ok a /\ k a = Ok b.
Proof.
  destruct m as [a|f]; cbn; split.
  - intros H. exists a. done.
  - intros (a' & [= ->] & H). done.
  - done.
  - intros (a' & H & _). done.
Qed.

Lemma assert_ok (b : bool) : b = true -> assert b = Ok tt.
Proof. intros ->. reflexivity. Qed.

Lemma assert_ok_inv (b : bool) u : assert b = Ok u -> b = true.
Proof. destruct b; done. Qed.

(** Invert every bind of a finished computation [H : m = Ok v]. *)
Ltac outcome_inv :=
  repeat match goal with
  | H : (_ ≫= _) = Ok _ |- _ =>
      let a := fresh "v" in let E := fresh "E" in
      apply bind_ok in H as (a & E & H)
  | H : assert _ = Ok _ |- _ => apply assert_ok_inv in H
  | H : Ok _ = Ok _ |- _ => injection H as H; try subst
  | H : Fault _ = Ok _ |- _ => discriminate H
  | H : panic = Ok _ |- _ => discriminate H
  end.

(** Discharge the leading [assert] of a goal with [tac]. *)
Ltac assert_step tac :=
  match goal with
  | |- context [assert ?b] =>
      rewrite (assert_ok b) by tac; cbn [mbind outcome_bind]
  end.

(** ** Machine words

    The kernel is built for 32-bit MIPS and for AArch64; [uintptr_t], [size_t]
    and [long] have [word_bits] bits.  The address-space bounds are those of
    include/mips/vm_param.h and include/aarch64/vm_param.h. *)

Class Arch := {
  word_bits : Z;
  KERNEL_SPACE_BEGIN : Z;
  KERNEL_SPACE_END : Z;
  USER_SPACE_BEGIN : Z;
  USER_SPACE_END : Z;
  arch_word : word_bits = 32 \/ word_bits = 64;
  arch_kernel_space : 0 < KERNEL_SPACE_BEGIN < KERNEL_SPACE_END;
  arch_kernel_top : KERNEL_SPACE_END < 2 ^ word_bits;
  arch_user_space : 0 < USER_SPACE_BEGIN < USER_SPACE_END;
  arch_user_top : USER_SPACE_END <= KERNEL_SPACE_BEGIN;
  arch_aligned : USER_SPACE_BEGIN `mod` 4096 = 0 /\ USER_SPACE_END `mod` 4096 = 0 /\ KERNEL_SPACE_BEGIN `mod` 4096 = 0;
}.

Definition mips : Arch.
Proof.
  refine {| word_bits := 32;
            KERNEL_SPACE_BEGIN := 0xc0000000; KERNEL_SPACE_END := 0xffffe000;
            USER_SPACE_BEGIN := 0x00400000; USER_SPACE_END := 0x80000000 |};
    lia.
Defined.

Definition aarch64 : Arch.
Proof.
  refine {| word_bits := 64;
            KERNEL_SPACE_BEGIN := 0xffff000000000000;
            KERNEL_SPACE_END := 0xffffffffffffffff;
            USER_SPACE_BEGIN := 0x0000000000400000;
            USER_SPACE_END := 0x0000800000000000 |};
    lia.
Defined.

Definition PAGESIZE : Z := 4096.

(** Unsigned wrap-around at [w] bits and at the width of a machine word. *)
Definition uwrap (w z : Z) : Z := z `mod` 2 ^ w.
Definition wrap `{Arch} (z : Z) : Z := uwrap word_bits z.
(** Two's complement conversion to a signed [w]-bit integer. *)
Definition swrap (w z : Z) : Z := (z + 2 ^ (w - 1)) `mod` 2 ^ w - 2 ^ (w - 1).

Definition in_word `{Arch} (z : Z) : Prop := 0 <= z < 2 ^ word_bits.

Section words.
Context `{Arch}.

Lemma word_bits_pos : 0 < word_bits.
Proof. destruct arch_word; lia. Qed.

Lemma word_size_pos : 0 < 2 ^ word_bits.
Proof. pose proof word_bits_pos. lia. Qed.

Lemma word_size_u32 : 2 ^ 32 <= 2 ^ word_bits.
Proof. destruct arch_word as [-> | ->]; lia. Qed.

Lemma wrap_small z : in_word z -> wrap z = z.
Proof. intros Hz. apply Z.mod_small, Hz. Qed.

Lemma wrap_in_word z : in_word (wrap z).
Proof. apply Z.mod_pos_bound, word_size_pos. Qed.
End words.

(** Side conditions on machine words. *)
Create HintDb kern.
#[export] Hint Resolve word_bits_pos word_size_pos wrap_in_word assert_ok : kern.
#[export] Hint Extern 2 (in_word _) => unfold in_word in *; lia : kern.

Lemma uwrap_small w z : 0 <= z < 2 ^ w -> uwrap w z = z.
Proof. apply Z.mod_small. Qed.

Lemma uwrap_bound w z : 0 <= w -> 0 <= uwrap w z < 2 ^ w.
Proof. intros. apply Z.mod_pos_bound. lia. Qed.

Lemma swrap_small w z :
  0 < w -> - 2 ^ (w - 1) <= z < 2 ^ (w - 1) -> swrap w z = z.
Proof.
  intros Hw Hz. unfold swrap. rewrite Z.mod_small; [lia|].
  replace (2 ^ w) with (2 * 2 ^ (w - 1)); [lia|].
  rewrite <- Z.pow_succ_r by lia. f_equal. lia.
Qed.

(** Adding and taking back the same amount is the identity at any width. *)
Lemma swrap_add_sub w z d :
  0 < w -> - 2 ^ (w - 1) <= z < 2 ^ (w - 1) ->
  swrap w (swrap w (z + d) - d) = z.
Proof.
  intros Hw Hz. rewrite <- (swrap_small w z) at 2 by done.
  unfold swrap. f_equal.
  replace ((z + d + 2 ^ (w - 1)) `mod` 2 ^ w - 2 ^ (w - 1) - d + 2 ^ (w - 1))
    with ((z + d + 2 ^ (w - 1)) `mod` 2 ^ w - d) by lia.
  rewrite Zminus_mod_idemp_l. f_equal. lia.
Qed.

(** ** Bounded arrays

    Reads and writes of a C array by index; an index outside the array is a
    [BadAccess], where C has undefined behaviour. *)

Definition arr_get {A} (l : list A) (i : Z) : outcome A :=
  if 0 <=? i then
    match l !! Z.to_nat i with Some x => Ok x | None => Fault BadAccess end
  else Fault BadAccess.

Definition arr_set {A} (l : list A) (i : Z) (x : A) : outcome (list A) :=
  if (0 <=? i) && (i <? Z.of_nat (length l)) then Ok (<[Z.to_nat i := x]> l)
  else Fault BadAccess.

(** [memcpy] of the first [n] elements of [src] into [dst]. *)
Definition arr_copy {A} (dst src : list A) (n : Z) : outcome (list A) :=
  if (0 <=? n) && (n <=? Z.of_nat (length src)) && (n <=? Z.of_nat (length dst))
  then Ok (take (Z.to_nat n) src ++ drop (Z.to_nat n) dst)
  else Fault BadAccess.

Section arrays.
Context {A : Type}.
Implicit Types (l : list A) (x : A).

Lemma arr_get_ok l i x :
  arr_get l i = Ok x <-> 0 <= i /\ l !! Z.to_nat i = Some x.
Proof.
  unfold arr_get. destruct (Z.leb_spec 0 i); [|split; [done|lia]].
  destruct (l !! Z.to_nat i); split; intros; destruct_and?; simplify_eq; done.
Qed.

Lemma arr_get_in_range l i :
  0 <= i < Z.of_nat (length l) ->
  exists x, arr_get l i = Ok x /\ l !! Z.to_nat i = Some x.
Proof.
  intros Hi. destruct (lookup_lt_is_Some_2 l (Z.to_nat i)) as [x Hx]; [lia|].
  exists x. split; [|done]. apply arr_get_ok. split; [lia|done].
Qed.

Lemma arr_set_ok l i x :
  0 <= i < Z.of_nat (length l) ->
  arr_set l i x = Ok (<[Z.to_nat i := x]> l).
Proof.
  intros Hi. unfold arr_set.
  destruct (Z.leb_spec 0 i), (Z.ltb_spec i (Z.of_nat (length l))); done || lia.
Qed.
End arrays.

Lemma elem_of_take_le {A} (l : list A) (a b : nat) (x : A) :
  (a <= b)%nat -> x ∈ take a l -> x ∈ take b l.
Proof.
  intros Hab Hx. replace b with (a + (b - a))%nat by lia.
  rewrite <- take_take_drop. apply elem_of_app. by left.
Qed.

(** A bounded range, checked element by element. *)
Lemma Forall_range (P : Z -> Prop) n :
  Forall P (seqZ 0 n) -> forall i, 0 <= i < n -> P i.
Proof.
  intros HF i Hi. rewrite Forall_forall in HF. apply HF, elem_of_seqZ. lia.
Qed.

(** ** Linked lists

    Lists of addresses.  [TAILQ_REMOVE] of an element that is not on the list corrupts
    it. *)

Definition tailq_remove (l : list Z) (h : Z) : outcome (list Z) :=
  if decide (h ∈ l) then Ok (filter (fun x => x <> h) l) else Fault BadAccess.

Definition empty (l : list Z) : bool := match l with [] => true | _ => false end.

Lemma filter_all {A} (P : A -> Prop) `{!forall x, Decision (P x)} (l : list A) :
  (forall x, x ∈ l -> P x) -> filter P l = l.
Proof.
  induction l as [|x l IH]; intros HP; [done|].
  rewrite filter_cons_True by (apply HP; set_solver). rewrite IH; [done|]. set_solver.
Qed.

Lemma remove_perm (l : list Z) (y : Z) :
  NoDup l -> y ∈ l -> l ≡ₚ y :: filter (fun z => z <> y) l.
Proof.
  intros Hn Hy. apply NoDup_Permutation; [done| |].
  - constructor; [|by apply NoDup_filter]. rewrite list_elem_of_filter. naive_solver.
  - intros z. rewrite elem_of_cons, list_elem_of_filter. destruct (decide (z = y)); naive_solver.
Qed.

(** ** Alignment and powers of two (include/sys/mimiker.h, include/sys/param.h) *)

(** [align] of sys/mimiker.h, on an unsigned word. *)
Definition align `{Arch} (addr size : Z) : Z :=
  wrap (Z.land (addr + (size - 1)) (- size)).

Definition is_aligned (addr size : Z) : bool :=
  Z.land addr (size - 1) =? 0.

Definition page_aligned_p (addr : Z) : bool := is_aligned addr PAGESIZE.

(** [powerof2] of sys/param.h. *)
Definition powerof2 (x : Z) : bool := Z.land (x - 1) x =? 0.

(** [roundup] of sys/param.h, on unsigned words. *)
Definition roundup `{Arch} (x y : Z) : Z :=
  wrap (wrap (x + (y - 1)) / y * y).

Lemma ones_sub_1 k : 0 <= k -> 2 ^ k - 1 = Z.ones k.
Proof. intros. rewrite Z.ones_equiv. lia. Qed.

Lemma is_aligned_pow2 a k :
  0 <= k -> is_aligned a (2 ^ k) = true <-> a `mod` 2 ^ k = 0.
Proof.
  intros Hk. unfold is_aligned.
  rewrite ones_sub_1, Z.land_ones by done. lia.
Qed.

Lemma land_neg_pow2 x k : 0 <= k -> Z.land x (- 2 ^ k) = x / 2 ^ k * 2 ^ k.
Proof.
  intros Hk.
  replace (- 2 ^ k) with (Z.lnot (Z.ones k))
    by (rewrite Z.ones_equiv; unfold Z.lnot; lia).
  rewrite <- Z.ldiff_land, Z.ldiff_ones_r by done.
  rewrite Z.shiftl_mul_pow2, Z.shiftr_div_pow2 by done. reflexivity.
Qed.

Lemma powerof2_pow2 k : 0 <= k -> powerof2 (2 ^ k) = true.
Proof.
  intros Hk. unfold powerof2. rewrite ones_sub_1 by done.
  rewrite Z.land_comm, Z.land_ones by done. rewrite Z_mod_same_full. done.
Qed.

Lemma powerof2_inv x : 0 < x -> powerof2 x = true -> x = 2 ^ Z.log2 x.
Proof.
  unfold powerof2. intros Hx H. apply Z.eqb_eq in H.
  destruct (Z.log2_spec x Hx) as [Hlo Hhi].
  destruct (decide (x = 2 ^ Z.log2 x)) as [|Hne]; [done|exfalso].
  assert (Hl : Z.log2 (x - 1) = Z.log2 x).
  { apply Z.log2_unique; [apply Z.log2_nonneg|lia]. }
  assert (Z.testbit (Z.land (x - 1) x) (Z.log2 x) = true) as Hb.
  { rewrite Z.land_spec. rewrite <- Hl at 1.
    rewrite !Z.bit_log2; [done|lia|].
    pose proof (Z.pow_pos_nonneg 2 (Z.log2 x) ltac:(lia) (Z.log2_nonneg x)). lia. }
  rewrite H, Z.testbit_0_l in Hb. done.
Qed.

(** The least multiple of [y] that is not below [x]. *)
Definition ceil_to (x y : Z) : Z := (x + (y - 1)) / y * y.

Lemma ceil_to_spec x y :
  0 < y -> x <= ceil_to x y < x + y /\ ceil_to x y `mod` y = 0.
Proof.
  intros Hy. unfold ceil_to. split; [|apply Z.mod_mul; lia].
  pose proof (Z.div_mod (x + (y - 1)) y ltac:(lia)).
  pose proof (Z.mod_pos_bound (x + (y - 1)) y Hy). lia.
Qed.

Lemma ceil_to_least x y z : 0 < y -> x <= z -> z `mod` y = 0 -> ceil_to x y <= z.
Proof.
  intros Hy Hz Hm. unfold ceil_to.
  rewrite (Z.div_mod z y) by lia. rewrite Hm, Z.add_0_r, (Z.mul_comm y).
  apply Z.mul_le_mono_nonneg_r; [lia|].
  pose proof (Z.div_mod z y ltac:(lia)).
  assert (x + (y - 1) < y * (z / y + 1)) as Hlt by lia.
  apply Z.div_lt_upper_bound in Hlt; lia.
Qed.

Section alignment.
Context `{Arch}.

Lemma align_spec a k :
  0 <= k -> in_word a -> ceil_to a (2 ^ k) < 2 ^ word_bits ->
  align a (2 ^ k) = ceil_to a (2 ^ k).
Proof.
  intros Hk Ha Hlt. unfold align. rewrite land_neg_pow2 by done.
  fold (ceil_to a (2 ^ k)). apply wrap_small. unfold in_word in *.
  pose proof (ceil_to_spec a (2 ^ k)). lia.
Qed.

Lemma roundup_spec x y :
  0 < y -> in_word x -> x + (y - 1) < 2 ^ word_bits ->
  roundup x y = ceil_to x y.
Proof.
  intros Hy Hx Hlt. unfold in_word in *. unfold roundup.
  rewrite (wrap_small (x + (y - 1))) by (unfold in_word; lia).
  fold (ceil_to x y). apply wrap_small.
  pose proof (ceil_to_spec x y Hy). unfold ceil_to, in_word in *.
  pose proof (Z.mul_div_le (x + (y - 1)) y Hy). lia.
Qed.
End alignment.

(** ** Single bits *)

Lemma land_pow2_testbit m k :
  0 <= k -> negb (Z.land m (2 ^ k) =? 0) = Z.testbit m k.
Proof.
  intros Hk. destruct (Z.testbit m k) eqn:E.
  - apply negb_true_iff, Z.eqb_neq. intros H0.
    apply (f_equal (fun z => Z.testbit z k)) in H0.
    rewrite Z.land_spec, E, Z.pow2_bits_true, Z.testbit_0_l in H0 by done. done.
  - apply negb_false_iff, Z.eqb_eq, Z.bits_inj'. intros n Hn.
    rewrite Z.land_spec, Z.testbit_0_l.
    destruct (decide (n = k)) as [->|Hne]; [by rewrite E|].
    rewrite Z.pow2_bits_false by done. apply andb_false_r.
Qed.

(** ** Flag words

    [f & m], [f |= m] and [f &= ~m]. *)

Definition flag_on (f m : Z) : bool := negb (Z.land f m =? 0).
Definition flag_set (f m : Z) : Z := Z.lor f m.
Definition flag_clr (f m : Z) : Z := Z.land f (Z.lnot m).

Section flags.
Context (i j : Z).
Hypothesis Hi : 0 <= i.
Hypothesis Hj : 0 <= j.

Lemma flag_on_bit f : flag_on f (2 ^ i) = Z.testbit f i.
Proof. by apply land_pow2_testbit. Qed.

Lemma flag_set_eq f : flag_on (flag_set f (2 ^ i)) (2 ^ i) = true.
Proof.
  unfold flag_set. rewrite flag_on_bit, Z.lor_spec, Z.pow2_bits_true by done. apply orb_true_r.
Qed.

Lemma flag_clr_eq f : flag_on (flag_clr f (2 ^ i)) (2 ^ i) = false.
Proof.
  unfold flag_clr. rewrite flag_on_bit, Z.land_spec, Z.lnot_spec, Z.pow2_bits_true by done.
  apply andb_false_r.
Qed.

Hypothesis Hne : i <> j.

Lemma flag_set_ne f : flag_on (flag_set f (2 ^ j)) (2 ^ i) = flag_on f (2 ^ i).
Proof.
  unfold flag_set. rewrite !flag_on_bit, Z.lor_spec, Z.pow2_bits_false by done. apply orb_false_r.
Qed.

Lemma flag_clr_ne f : flag_on (flag_clr f (2 ^ j)) (2 ^ i) = flag_on f (2 ^ i).
Proof.
  unfold flag_clr. rewrite !flag_on_bit, Z.land_spec, Z.lnot_spec, Z.pow2_bits_false by done.
  apply andb_true_r.
Qed.
End flags.

(** Joining a high and a low part. *)
Lemma lor_low a b n : 0 <= n -> 0 <= b < 2 ^ n -> Z.lor (a * 2 ^ n) b = a * 2 ^ n + b.
Proof.
  intros Hn Hb. pose proof (Z.add_lor_land (a * 2 ^ n) b).
  enough (Z.land (a * 2 ^ n) b = 0) by lia.
  destruct (decide (b = 0)) as [->|]; [apply Z.land_0_r|]. apply Z.bits_inj'. intros k Hk. rewrite Z.land_spec, Z.testbit_0_l.
  destruct (decide (k < n)) as [Hlt|Hge].
  - by rewrite Z.mul_pow2_bits_low.
  - rewrite (Z.bits_above_log2 b k), andb_false_r; [done|lia|].
    apply Z.log2_lt_pow2; [lia|]. pose proof (Z.pow_le_mono_r 2 n k). lia.
Qed.

(** ** Error numbers (include/sys/errno.h) *)

Definition EPERM : Z := 1.
Definition ENOENT : Z := 2.
Definition EINTR : Z := 4.
Definition EBADF : Z := 9.
Definition ENOMEM : Z := 12.
Definition EACCES : Z := 13.
Definition EFAULT : Z := 14.
Definition EINVAL : Z := 22.
Definition EMFILE : Z := 24.
Definition ENOTTY : Z := 25.
Definition ESPIPE : Z := 29.
Definition EPIPE : Z := 32.
Definition EAGAIN : Z := 35.
Definition EOPNOTSUPP : Z := 45.
Definition ETIMEDOUT : Z := 60.
Definition ENOTSUP : Z := 86.
Definition EPASSTHROUGH : Z := 258.
Definition ERESTARTSYS : Z := 259.

(** ** Reference counters (include/sys/refcnt.h), by their values *)

Definition UINT_MAX : Z := 2 ^ 32 - 1.

Definition refcnt_acquire (old : Z) : outcome Z :=
  if old =? UINT_MAX then panic else Ok (uwrap 32 (old + 1)).
(** The new value, and whether it is 0. *)
Definition refcnt_release (old : Z) : outcome (Z * bool) :=
  if old =? 0 then panic else Ok (uwrap 32 (old - 1), old =? 1).
