(* ===== verification/Bitstr.v ===== *)
(** * Bit strings (include/bitstring.h)

    A bit string is an array of bytes; [bget] reads it as a sequence of bits and
    the lemmas give the operations in terms of it. *)

From S2P Require Import Prelude.

Definition bit_byte (bit : Z) : Z := Z.shiftr bit 3.
Definition bit_mask (bit : Z) : Z := Z.shiftl 1 (Z.land bit 7).
Definition bitstr_size (nbits : Z) : Z := Z.shiftr (uwrap 32 (nbits + 7)) 3.

Definition bit_test (name : list Z) (bit : Z) : outcome bool :=
  b ← arr_get name (bit_byte bit);
  Ok (negb (Z.land b (bit_mask bit) =? 0)).

(** The byte is stored as an [unsigned char]. *)
Definition bit_set (name : list Z) (bit : Z) : outcome (list Z) :=
  b ← arr_get name (bit_byte bit);
  arr_set name (bit_byte bit) (uwrap 8 (Z.lor (bit_mask bit) b)).

Definition bit_clear (name : list Z) (bit : Z) : outcome (list Z) :=
  b ← arr_get name (bit_byte bit);
  arr_set name (bit_byte bit) (Z.land b (uwrap 8 (Z.lnot (bit_mask bit)))).

(** The loop with [k] bits left to examine; -1 when all are set. *)
Fixpoint ffc_loop (k : nat) (name : list Z) (bit : Z) : outcome Z :=
  match k with
  | O => Ok (-1)
  | S k =>
      b ← bit_test name bit;
      if negb b then Ok bit else ffc_loop k name (bit + 1)
  end.

(** The index is a [size_t], so a negative start is past every bit. *)
Definition bit_ffc_from `{Arch} (name : list Z) (nbits start : Z) : outcome Z :=
  let bit := wrap start in
  ffc_loop (Z.to_nat (nbits - bit)) name bit.

Definition bit_ffc `{Arch} (name : list Z) (nbits : Z) : outcome Z :=
  bit_ffc_from name nbits 0.

(** ** Reading as bits *)

Definition bget (name : list Z) (i : Z) : bool :=
  Z.testbit (name !!! Z.to_nat (i / 8)) (i `mod` 8).

(** An array of bytes with room for [n] bits. *)
Definition wf_bits (name : list Z) (n : Z) : Prop :=
  n <= 8 * Z.of_nat (length name) /\ Forall (fun b => 0 <= b < 2 ^ 8) name.

Lemma bit_mask_pow i : bit_mask i = 2 ^ (i `mod` 8).
Proof.
  unfold bit_mask. change 7 with (Z.ones 3). rewrite Z.land_ones by lia.
  rewrite Z.shiftl_mul_pow2 by (apply Z.mod_pos_bound; lia).
  apply Z.mul_1_l.
Qed.

Lemma bit_byte_div i : bit_byte i = i / 8.
Proof. unfold bit_byte. rewrite Z.shiftr_div_pow2 by lia. done. Qed.

Lemma bits_byte name n i :
  wf_bits name n -> 0 <= i < n ->
  exists b, arr_get name (i / 8) = Ok b /\ name !! Z.to_nat (i / 8) = Some b /\
    0 <= b < 2 ^ 8 /\ (Z.to_nat (i / 8) < length name)%nat.
Proof.
  intros [Hl Hb] Hi.
  destruct (arr_get_in_range name (i / 8)) as (b & Hg & Hx).
  { split; [|apply Z.div_lt_upper_bound]; lia. }
  exists b. split_and!; try done.
  - apply (Forall_lookup_1 _ _ _ _ Hb Hx).
  - apply (Forall_lookup_1 _ _ _ _ Hb Hx).
  - by apply lookup_lt_Some in Hx.
Qed.

Lemma bit_test_spec name n i :
  wf_bits name n -> 0 <= i < n -> bit_test name i = Ok (bget name i).
Proof.
  intros Hw Hi. destruct (bits_byte name n i Hw Hi) as (b & Hg & Hx & _ & _).
  unfold bit_test, bget. rewrite bit_byte_div, Hg, bit_mask_pow.
  cbn [mbind outcome_bind].
  rewrite land_pow2_testbit by (apply Z.mod_pos_bound; lia).
  erewrite list_lookup_total_correct by done. done.
Qed.

(** Storing a byte changes the bits of that byte only. *)
Lemma bget_insert name i b j :
  (Z.to_nat (i / 8) < length name)%nat -> 0 <= i -> 0 <= j ->
  bget (<[Z.to_nat (i / 8) := b]> name) j =
    if j / 8 =? i / 8 then Z.testbit b (j `mod` 8) else bget name j.
Proof.
  intros Hl Hi Hj. unfold bget.
  pose proof (Z.div_pos i 8 Hi ltac:(lia)). pose proof (Z.div_pos j 8 Hj ltac:(lia)).
  destruct (Z.eqb_spec (j / 8) (i / 8)) as [->|Hne].
  - by rewrite list_lookup_total_insert_eq.
  - rewrite list_lookup_total_insert_ne by lia. done.
Qed.

Lemma wf_bits_insert name n k b :
  wf_bits name n -> 0 <= b < 2 ^ 8 -> wf_bits (<[k := b]> name) n.
Proof.
  intros [Hl Hf] Hb. split; [by rewrite length_insert|]. by apply Forall_insert.
Qed.

Lemma same_bit i j : i / 8 = j / 8 -> (j `mod` 8 =? i `mod` 8) = (j =? i).
Proof.
  intros E. pose proof (Z.div_mod i 8). pose proof (Z.div_mod j 8).
  destruct (Z.eqb_spec (j `mod` 8) (i `mod` 8)), (Z.eqb_spec j i); try done; lia.
Qed.

Lemma bit_set_spec name n i :
  wf_bits name n -> 0 <= i < n ->
  exists name', bit_set name i = Ok name' /\ wf_bits name' n /\
    length name' = length name /\
    forall j, 0 <= j -> bget name' j = (j =? i) || bget name j.
Proof.
  intros Hw Hi. destruct (bits_byte name n i Hw Hi) as (b & Hg & Hx & Hb & Hlt).
  unfold bit_set. rewrite bit_byte_div, Hg, bit_mask_pow. cbn [mbind outcome_bind].
  apply lookup_lt_Some in Hx as Hlt'. pose proof (Z.div_pos i 8 ltac:(lia) ltac:(lia)).
  rewrite arr_set_ok by lia. eexists. split; [done|]. split_and!.
  - apply wf_bits_insert; [done|]. apply uwrap_bound. lia.
  - apply length_insert.
  - intros j Hj. rewrite bget_insert by lia.
    pose proof (Z.mod_pos_bound j 8 ltac:(lia)). pose proof (Z.mod_pos_bound i 8 ltac:(lia)).
    destruct (Z.eqb_spec (j / 8) (i / 8)) as [E|E].
    + unfold uwrap. rewrite Z.mod_pow2_bits_low, Z.lor_spec, Z.pow2_bits_eqb by lia.
      rewrite Z.eqb_sym, same_bit by done. unfold bget. rewrite E.
      erewrite (list_lookup_total_correct name) by done. done.
    + destruct (Z.eqb_spec j i); [congruence|done].
Qed.

Lemma bit_clear_spec name n i :
  wf_bits name n -> 0 <= i < n ->
  exists name', bit_clear name i = Ok name' /\ wf_bits name' n /\
    length name' = length name /\
    forall j, 0 <= j -> bget name' j = negb (j =? i) && bget name j.
Proof.
  intros Hw Hi. destruct (bits_byte name n i Hw Hi) as (b & Hg & Hx & Hb & Hlt).
  unfold bit_clear. rewrite bit_byte_div, Hg, bit_mask_pow. cbn [mbind outcome_bind].
  pose proof (Z.div_pos i 8 ltac:(lia) ltac:(lia)).
  rewrite arr_set_ok by lia. eexists. split; [done|]. split_and!.
  - apply wf_bits_insert; [done|].
    rewrite <- (Z.mod_small b (2 ^ 8)), <- Z.land_ones by lia.
    rewrite <- Z.land_assoc, (Z.land_comm (Z.ones 8)), Z.land_assoc, Z.land_ones by lia.
    apply Z.mod_pos_bound. lia.
  - apply length_insert.
  - intros j Hj. rewrite bget_insert by lia.
    pose proof (Z.mod_pos_bound j 8 ltac:(lia)). pose proof (Z.mod_pos_bound i 8 ltac:(lia)).
    destruct (Z.eqb_spec (j / 8) (i / 8)) as [E|E].
    + unfold uwrap. rewrite Z.land_spec, Z.mod_pow2_bits_low, Z.lnot_spec, Z.pow2_bits_eqb by lia.
      rewrite Z.eqb_sym, same_bit, andb_comm by done. unfold bget. rewrite E.
      erewrite (list_lookup_total_correct name) by done. done.
    + destruct (Z.eqb_spec j i); [congruence|done].
Qed.

(** The first clear bit of [bit .. bit + k). *)
Lemma ffc_loop_spec name n k : forall bit,
  wf_bits name n -> 0 <= bit -> bit + Z.of_nat k <= n ->
  exists r, ffc_loop k name bit = Ok r /\
    ((r = -1 /\ forall j, bit <= j < bit + Z.of_nat k -> bget name j = true) \/
     (bit <= r < bit + Z.of_nat k /\ bget name r = false /\
      forall j, bit <= j < r -> bget name j = true)).
Proof.
  induction k as [|k IH]; intros bit Hw Hb Hk; cbn [ffc_loop].
  { exists (-1). split; [done|]. left. split; [done|]. lia. }
  erewrite bit_test_spec by (done || lia). cbn [mbind outcome_bind].
  destruct (bget name bit) eqn:E; cbn [negb].
  - destruct (IH (bit + 1)) as (r & Hr & H); [done|lia|lia|].
    exists r. split; [done|]. destruct H as [[-> Ha]|(Hr' & Hf & Ha)].
    + left. split; [done|]. intros j Hj.
      destruct (decide (j = bit)) as [->|]; [done|]. apply Ha. lia.
    + right. split_and!; [lia|lia|done|]. intros j Hj.
      destruct (decide (j = bit)) as [->|]; [done|]. apply Ha. lia.
  - exists bit. split; [done|]. right. split_and!; [lia|lia|done|lia].
Qed.

Lemma bit_ffc_from_spec `{Arch} name n start :
  wf_bits name n -> 0 <= start < 2 ^ 31 ->
  exists r, bit_ffc_from name n start = Ok r /\
    ((r = -1 /\ forall j, start <= j < n -> bget name j = true) \/
     (start <= r < n /\ bget name r = false /\
      forall j, start <= j < r -> bget name j = true)).
Proof.
  intros Hw Hs. pose proof word_size_u32. unfold bit_ffc_from.
  rewrite wrap_small by auto with kern.
  destruct (decide (start <= n)) as [Hle|Hgt].
  - destruct (ffc_loop_spec name n (Z.to_nat (n - start)) start) as (r & Hr & Hc);
      [done|lia|lia|].
    exists r. split; [done|]. destruct Hc as [[-> Ha]|(Hr' & Hf & Ha)].
    + left. split; [done|]. intros j Hj. apply Ha. lia.
    + right. split_and!; try done; lia.
  - replace (Z.to_nat (n - start)) with O by lia. exists (-1). split; [done|].
    left. split; [done|]. lia.
Qed.

Lemma bitstr_size_spec n : 0 <= n < 2 ^ 31 -> bitstr_size n = (n + 7) / 8.
Proof.
  intros Hn. unfold bitstr_size. rewrite uwrap_small by lia.
  rewrite Z.shiftr_div_pow2 by lia. done.
Qed.

(** A bit string of zero bytes. *)
Lemma bget_zero k i : 0 <= i < 8 * Z.of_nat k -> bget (replicate k 0) i = false.
Proof.
  intros Hi. unfold bget. rewrite lookup_total_replicate_2; [apply Z.testbit_0_l|].
  apply Nat2Z.inj_lt. rewrite Z2Nat.id by (apply Z.div_pos; lia).
  apply Z.div_lt_upper_bound; lia.
Qed.

Lemma wf_bits_zero k n : n <= 8 * Z.of_nat k -> wf_bits (replicate k 0) n.
Proof.
  intros Hn. split; [by rewrite length_replicate|].
  apply Forall_replicate. lia.
Qed.

Lemma bget_app_zero name k i :
  0 <= i < 8 * Z.of_nat (length name + k) ->
  bget (name ++ replicate k 0) i =
    if i <? 8 * Z.of_nat (length name) then bget name i else false.
Proof.
  intros Hi. unfold bget. pose proof (Z.div_pos i 8 ltac:(lia) ltac:(lia)).
  pose proof (Z.div_mod i 8 ltac:(lia)). pose proof (Z.mod_pos_bound i 8 ltac:(lia)).
  destruct (Z.ltb_spec i (8 * Z.of_nat (length name))).
  - by rewrite lookup_total_app_l by lia.
  - rewrite lookup_total_app_r, lookup_total_replicate_2 by lia. apply Z.testbit_0_l.
Qed.

Lemma wf_bits_app_zero name n n' k :
  wf_bits name n -> n' <= 8 * Z.of_nat (length name + k) ->
  wf_bits (name ++ replicate k 0) n'.
Proof.
  intros [_ Hf] Hl. split; [by rewrite length_app, length_replicate|].
  apply Forall_app. split; [done|]. apply Forall_replicate. lia.
Qed.
