(* ===== verification/Uio.v ===== *)
(** * Scatter/gather I/O descriptors (sys/kern/uio.c, include/sys/uio.h)

    A [uio] describes a transfer between a kernel buffer and a list of memory
    areas of an address space.  The kernel buffer is a list of bytes, the
    address space a total byte memory; [copyin] and [copyout] (assembly,
    sys/mips/copy.S and sys/aarch64/copy.S) are the interface
    [CopyRoutines].  The main result states that [uiomove] is the sequential
    copy along the flattened list of addresses the descriptor still covers. *)

From S2P Require Import Prelude.

Record iovec := Iovec {
  iov_base : Z; (* base address *)
  iov_len : Z;  (* length *)
}.

Inductive uio_op_t := UIO_READ | UIO_WRITE.

(** The address spaces [copyin_vmspace] and [copyout_vmspace] tell apart. *)
Inductive vmspace := VmKernel | VmUser | VmOther.

(** [uio_iov] is a pointer into the array of io vectors: here an index into
    [uio_iovs]. *)
Record uio := Uio {
  uio_iovs : list iovec;
  uio_iov : Z;
  uio_iovcnt : Z;
  uio_iovoff : Z;
  uio_offset : Z;
  uio_resid : Z;
  uio_op : uio_op_t;
  uio_vmspace : vmspace;
}.

Record uiostate := UioState {
  us_resid : Z;
  us_iovcnt : Z;
  us_iovoff : Z;
}.

(** ** Byte memories *)

Definition mem := Z -> Z.

Definition store (m : mem) (a v : Z) : mem := fun x => if x =? a then v else m x.

(** Bytes [bs] stored at the addresses [l], first to last. *)
Definition write_at (m : mem) (l bs : list Z) : mem :=
  foldl (fun m av => store m av.1 av.2) m (zip l bs).

Definition read_at (m : mem) (l : list Z) : list Z := m <$> l.

(** The addresses of [n] bytes from [a] on. *)
Definition span `{Arch} (a n : Z) : list Z := (fun i => wrap (a + i)) <$> seqZ 0 n.

(** What [uiomove] relies on of the user-memory copy routines: they return 0 or
    [EFAULT], 0 only when every byte has been copied, and a copy that faults
    half way has written to its destination only. *)
Class CopyRoutines `{Arch} := {
  copyin : mem -> Z -> list Z -> list Z * Z;
  copyout : mem -> list Z -> Z -> mem * Z;
  copyin_length m a old : length (copyin m a old).1 = length old;
  copyin_done m a old :
    (copyin m a old).2 = 0 ->
    (copyin m a old).1 = read_at m (span a (Z.of_nat (length old)));
  copyin_error m a old : (copyin m a old).2 = 0 \/ (copyin m a old).2 = EFAULT;
  copyout_done m bs a :
    (copyout m bs a).2 = 0 ->
    (copyout m bs a).1 = write_at m (span a (Z.of_nat (length bs))) bs;
  copyout_error m bs a : (copyout m bs a).2 = 0 \/ (copyout m bs a).2 = EFAULT;
  copyout_frame m bs a x :
    x ∉ span a (Z.of_nat (length bs)) -> (copyout m bs a).1 x = m x;
}.

(** ** Operations *)

Section ops.
Context `{Arch} `{!CopyRoutines}.

(** [memcpy] between kernel addresses always succeeds; maps other than the
    kernel's and the running process's are refused. *)
Definition copyin_vmspace (vm : vmspace) (m : mem) (udaddr : Z) (old : list Z)
    : outcome (list Z * Z) :=
  match vm with
  | VmKernel => Ok (read_at m (span udaddr (Z.of_nat (length old))), 0)
  | VmUser => Ok (copyin m udaddr old)
  | VmOther => panic
  end.

Definition copyout_vmspace (vm : vmspace) (m : mem) (bs : list Z) (udaddr : Z)
    : outcome (mem * Z) :=
  match vm with
  | VmKernel => Ok (write_at m (span udaddr (Z.of_nat (length bs))) bs, 0)
  | VmUser => Ok (copyout m bs udaddr)
  | VmOther => panic
  end.

(** Proceed to the next io vector. *)
Definition uio_next (u : uio) : uio :=
  Uio (uio_iovs u) (uio_iov u + 1) (uio_iovcnt u - 1) 0 (uio_offset u)
    (uio_resid u) (uio_op u) (uio_vmspace u).

(** Account for [cnt] bytes moved; [off_t] is a 32-bit signed integer. *)
Definition uio_advance (u : uio) (cnt : Z) : uio :=
  Uio (uio_iovs u) (uio_iov u) (uio_iovcnt u) (wrap (uio_iovoff u + cnt))
    (swrap 32 (uio_offset u + cnt)) (wrap (uio_resid u - cnt)) (uio_op u)
    (uio_vmspace u).

(** The bytes [off .. off + n) of a kernel buffer, and their replacement. *)
Definition buf_slice (buf : list Z) (off n : Z) : list Z :=
  take (Z.to_nat n) (drop (Z.to_nat off) buf).
Definition buf_splice (buf : list Z) (off : Z) (bs : list Z) : list Z :=
  take (Z.to_nat off) buf ++ bs ++ drop (Z.to_nat off + length bs) buf.

Definition in_buf (buf : list Z) (off n : Z) : bool :=
  (0 <=? off) && (0 <=? n) && (off + n <=? Z.of_nat (length buf)).

(** The loop of [uiomove]; [off] is [cbuf - buf].  The result is the error,
    the kernel buffer, the descriptor and the memory. *)
Fixpoint uiomove_loop (fuel : nat) (buf : list Z) (off n : Z) (u : uio) (m : mem)
    : outcome (Z * list Z * uio * mem) :=
  match fuel with
  | O => Fault OutOfFuel
  | S fuel =>
    if (0 <? n) && (0 <? uio_resid u) then
      iov ← arr_get (uio_iovs u) (uio_iov u);
      let cnt := wrap (iov_len iov - uio_iovoff u) in
      if cnt =? 0 then
        if uio_iovcnt u =? 0 then Ok (0, buf, u, m)
        else uiomove_loop fuel buf off n (uio_next u) m
      else
        let cnt := if n <? cnt then n else cnt in
        let base := wrap (iov_base iov + uio_iovoff u) in
        if negb (in_buf buf off cnt) then Fault BadAccess else
        '(buf', m', error) ←
          match uio_op u with
          | UIO_READ =>
              r ← copyout_vmspace (uio_vmspace u) m (buf_slice buf off cnt) base;
              Ok (buf, r.1, r.2)
          | UIO_WRITE =>
              r ← copyin_vmspace (uio_vmspace u) m base (buf_slice buf off cnt);
              Ok (buf_splice buf off r.1, m, r.2)
          end;
        if negb (error =? 0) then Ok (error, buf', u, m')
        else uiomove_loop fuel buf' (off + cnt) (wrap (n - cnt)) (uio_advance u cnt) m'
    else Ok (0, buf, u, m)
  end.

(** Every iteration moves a byte or leaves an io vector behind. *)
Definition uiomove_fuel (n : Z) (u : uio) : nat :=
  S (Z.to_nat n + Z.to_nat (uio_iovcnt u)).

(** [uiomove(buf + off, n, uio)].  That interrupts and preemption are enabled, which it
    asserts, is up to its callers. *)
Definition uiomove (buf : list Z) (off n : Z) (u : uio) (m : mem)
    : outcome (Z * list Z * uio * mem) :=
  uiomove_loop (uiomove_fuel n u) buf off n u m.

Definition uio_save (u : uio) : uiostate :=
  UioState (uio_resid u) (uio_iovcnt u) (uio_iovoff u).

Definition uio_restore (u : uio) (save : uiostate) : uio :=
  let nbytes := wrap (us_resid save - uio_resid u) in
  Uio (uio_iovs u) (uio_iov u - (us_iovcnt save - uio_iovcnt u))
    (us_iovcnt save) (us_iovoff save) (swrap 32 (uio_offset u - nbytes))
    (wrap (uio_resid u + nbytes)) (uio_op u) (uio_vmspace u).

Definition uiomove_frombuf (buf : list Z) (buflen : Z) (u : uio) (m : mem)
    : outcome (Z * list Z * uio * mem) :=
  let offset := wrap (uio_offset u) in
  _ ← assert (offset <=? buflen);
  _ ← assert (0 <=? uio_offset u);
  uiomove buf offset (wrap (buflen - offset)) u m.

Definition SSIZE_MAX : Z := (2 ^ word_bits - 1) / 2.

(** The result is the error and the value left in [*lengthp] on success. *)
Fixpoint iovec_length_from (len : Z) (iov : list iovec) : Z * option Z :=
  match iov with
  | [] => (0, Some len)
  | i :: iov =>
      let len := wrap (len + iov_len i) in
      if (SSIZE_MAX <? len) || (SSIZE_MAX <? iov_len i) then (EINVAL, None)
      else iovec_length_from len iov
  end.

Definition iovec_length (iov : list iovec) : Z * option Z :=
  iovec_length_from 0 iov.

(** [UIO_VECTOR] and [UIO_SINGLE] of include/sys/uio.h. *)
Definition UIO_VECTOR (op : uio_op_t) (vm : vmspace) (iov : list iovec) (len : Z)
    : uio :=
  Uio iov 0 (Z.of_nat (length iov)) 0 0 len op vm.

Definition UIO_SINGLE (op : uio_op_t) (vm : vmspace) (offset buf buflen : Z) : uio :=
  Uio [Iovec buf buflen] 0 1 0 offset buflen op vm.

(** ** Specification *)

Definition iov_span (i : iovec) : list Z := span (iov_base i) (iov_len i).

(** The addresses a descriptor still covers, in transfer order. *)
Definition uio_addrs (u : uio) : list Z :=
  drop (Z.to_nat (uio_iovoff u))
    (mjoin (iov_span <$> drop (Z.to_nat (uio_iov u)) (uio_iovs u))).

(** The offset is inside the current io vector (or there is none left), the
    count of vectors matches the array, and the residue is what is left. *)
Record wf_uio (u : uio) : Prop := {
  wf_iov : 0 <= uio_iov u;
  wf_lens : Forall (fun i => in_word (iov_len i)) (uio_iovs u);
  wf_iovcnt : uio_iov u + uio_iovcnt u = Z.of_nat (length (uio_iovs u));
  wf_iovcnt_nonneg : 0 <= uio_iovcnt u;
  wf_iovoff : 0 <= uio_iovoff u;
  wf_iovoff_le i :
    uio_iovs u !! Z.to_nat (uio_iov u) = Some i -> uio_iovoff u <= iov_len i;
  wf_resid : uio_resid u = Z.of_nat (length (uio_addrs u));
  wf_resid_word : in_word (uio_resid u);
  wf_offset : - 2 ^ 31 <= uio_offset u < 2 ^ 31;
  wf_vm : uio_vmspace u <> VmOther;
}.
End ops.

(** ** Lemmas *)

Section spans.
Context `{Arch}.

Lemma wrap_add_l a b : wrap (wrap a + b) = wrap (a + b).
Proof. unfold wrap, uwrap. apply Zplus_mod_idemp_l. Qed.

Lemma length_span a n : length (span a n) = Z.to_nat n.
Proof. unfold span. rewrite length_fmap, length_seqZ. done. Qed.

Lemma span_app a n1 n2 :
  0 <= n1 -> 0 <= n2 -> span a (n1 + n2) = span a n1 ++ span (wrap (a + n1)) n2.
Proof.
  intros H1 H2. unfold span. rewrite seqZ_app by done. rewrite fmap_app. f_equal.
  replace (0 + n1) with (n1 + 0) by lia.
  rewrite <- (fmap_add_seqZ n1 0 n2), <- list_fmap_compose.
  apply list_fmap_ext. intros j x Hx. cbn. rewrite wrap_add_l. f_equal. lia.
Qed.

Lemma drop_span a k n :
  0 <= k <= n -> drop (Z.to_nat k) (span a n) = span (wrap (a + k)) (n - k).
Proof.
  intros Hk. replace n with (k + (n - k)) at 1 by lia.
  rewrite span_app by lia. apply drop_app_length'. rewrite length_span. done.
Qed.

Lemma take_span a k n : 0 <= k <= n -> take (Z.to_nat k) (span a n) = span a k.
Proof.
  intros Hk. replace n with (k + (n - k)) at 1 by lia.
  rewrite span_app by lia. apply take_app_length'. rewrite length_span. done.
Qed.
End spans.

Lemma write_at_nil m l : write_at m l [] = m.
Proof. unfold write_at. destruct l; done. Qed.

Lemma write_at_app m l1 l2 b1 b2 :
  length l1 = length b1 ->
  write_at m (l1 ++ l2) (b1 ++ b2) = write_at (write_at m l1 b1) l2 b2.
Proof.
  intros Hl. unfold write_at. rewrite <- foldl_app. f_equal.
  revert b1 Hl. induction l1 as [|x l1 IH]; intros [|b b1] Hl; try done.
  cbn. f_equal. apply IH. cbn in Hl. lia.
Qed.

Lemma length_buf_slice buf off n :
  in_buf buf off n = true -> length (buf_slice buf off n) = Z.to_nat n.
Proof. unfold in_buf, buf_slice. intros. rewrite length_take, length_drop. lia. Qed.

Lemma length_buf_splice buf off bs :
  in_buf buf off (Z.of_nat (length bs)) = true ->
  length (buf_splice buf off bs) = length buf.
Proof.
  unfold in_buf, buf_splice. intros.
  rewrite !length_app, length_take, length_drop. lia.
Qed.

Lemma buf_slice_add buf off a b :
  0 <= off -> 0 <= a -> 0 <= b ->
  buf_slice buf off (a + b) = buf_slice buf off a ++ buf_slice buf (off + a) b.
Proof.
  intros Ho Ha Hb. unfold buf_slice.
  rewrite (Z2Nat.inj_add a b), (Z2Nat.inj_add off a), <- drop_drop by done.
  by rewrite take_take_drop.
Qed.

Lemma buf_splice_app buf off b1 b2 :
  0 <= off -> off + Z.of_nat (length b1) <= Z.of_nat (length buf) ->
  buf_splice (buf_splice buf off b1) (off + Z.of_nat (length b1)) b2 =
  buf_splice buf off (b1 ++ b2).
Proof.
  intros Ho Hle. unfold buf_splice.
  rewrite (Z2Nat.inj_add off), Nat2Z.id by lia.
  assert (length (take (Z.to_nat off) buf) = Z.to_nat off) as Hl
    by (rewrite length_take; lia).
  rewrite !(app_assoc (take (Z.to_nat off) buf) b1), <- !app_assoc.
  rewrite (app_assoc (take (Z.to_nat off) buf) b1 (drop _ _)).
  rewrite take_app_length', drop_app_ge by (rewrite length_app; lia).
  rewrite drop_drop, !length_app, <- app_assoc. do 4 f_equal. lia.
Qed.

Lemma buf_splice_self buf off n :
  in_buf buf off n = true -> buf_splice buf off (buf_slice buf off n) = buf.
Proof.
  intros Hb. unfold buf_splice. rewrite length_buf_slice by done.
  unfold buf_slice, in_buf in *. rewrite <- drop_drop. by rewrite !take_drop.
Qed.

Lemma buf_splice_nil buf off : buf_splice buf off [] = buf.
Proof. unfold buf_splice. cbn. rewrite Nat.add_0_r. apply take_drop. Qed.

Lemma lookup_total_splice (buf bs : list Z) off j :
  0 <= off -> 0 <= j -> off + Z.of_nat (length bs) <= Z.of_nat (length buf) ->
  buf_splice buf off bs !!! Z.to_nat j =
    if (off <=? j) && (j <? off + Z.of_nat (length bs))
    then bs !!! Z.to_nat (j - off) else buf !!! Z.to_nat j.
Proof.
  intros Ho Hj Hle. unfold buf_splice. rewrite !list_lookup_total_alt.
  destruct (Z.leb_spec off j); cbn.
  - rewrite lookup_app_r by (rewrite length_take; lia).
    rewrite length_take, Nat.min_l by lia.
    destruct (Z.ltb_spec j (off + Z.of_nat (length bs))).
    + rewrite lookup_app_l by lia. do 2 f_equal. lia.
    + rewrite lookup_app_r by lia. rewrite lookup_drop. do 2 f_equal. lia.
  - rewrite lookup_app_l by (rewrite length_take; lia).
    rewrite lookup_take_lt by lia. done.
Qed.

Lemma lookup_total_slice (buf : list Z) off n j :
  0 <= off -> 0 <= j < n -> off + n <= Z.of_nat (length buf) ->
  buf_slice buf off n !!! Z.to_nat j = buf !!! Z.to_nat (off + j).
Proof.
  intros Ho Hj Hle. unfold buf_slice. rewrite !list_lookup_total_alt.
  rewrite lookup_take_lt by lia. rewrite lookup_drop. do 2 f_equal. lia.
Qed.

Lemma write_at_frame m l bs x : x ∉ l -> write_at m l bs x = m x.
Proof.
  revert m bs. induction l as [|a l IH]; intros m [|b bs] Hx; try done.
  unfold write_at. cbn. fold (write_at (store m a b) l bs).
  apply not_elem_of_cons in Hx as [Hne Hx]. rewrite IH by done.
  unfold store. destruct (Z.eqb_spec x a); done.
Qed.

Lemma swrap_add_assoc w z a b : swrap w (swrap w (z + a) + b) = swrap w (z + (a + b)).
Proof.
  unfold swrap. f_equal.
  replace ((z + a + 2 ^ (w - 1)) `mod` 2 ^ w - 2 ^ (w - 1) + b + 2 ^ (w - 1))
    with ((z + a + 2 ^ (w - 1)) `mod` 2 ^ w + b) by lia.
  rewrite Zplus_mod_idemp_l. f_equal. lia.
Qed.

Lemma swrap_bound w z : 0 < w -> - 2 ^ (w - 1) <= swrap w z < 2 ^ (w - 1).
Proof.
  intros Hw. unfold swrap.
  pose proof (Z.mod_pos_bound (z + 2 ^ (w - 1)) (2 ^ w) ltac:(lia)).
  assert (2 ^ w = 2 * 2 ^ (w - 1)).
  { rewrite <- Z.pow_succ_r by lia. f_equal. lia. }
  lia.
Qed.

Section moves.
Context `{Arch} `{!CopyRoutines}.
Implicit Types u : uio.

(** [k] bytes of the descriptor have been transferred. *)
Record uio_moved (u u' : uio) (k : Z) : Prop := {
  mv_wf : wf_uio u';
  mv_count : 0 <= k <= uio_resid u;
  mv_addrs : uio_addrs u' = drop (Z.to_nat k) (uio_addrs u);
  mv_resid : uio_resid u' = uio_resid u - k;
  mv_offset : uio_offset u' = swrap 32 (uio_offset u + k);
  mv_iovs : uio_iovs u' = uio_iovs u;
  mv_op : uio_op u' = uio_op u;
  mv_vm : uio_vmspace u' = uio_vmspace u;
}.

Lemma uio_moved_refl u : wf_uio u -> uio_moved u u 0.
Proof.
  intros Hw. split; try done.
  - pose proof (wf_resid_word u Hw). unfold in_word in *. lia.
  - lia.
  - rewrite Z.add_0_r. symmetry. apply swrap_small; [lia|]. apply (wf_offset u Hw).
Qed.

Lemma uio_moved_trans u1 u2 u3 a b :
  uio_moved u1 u2 a -> uio_moved u2 u3 b -> uio_moved u1 u3 (a + b).
Proof.
  intros M1 M2. destruct M1, M2. split; try congruence || lia.
  - rewrite mv_addrs1, mv_addrs0, drop_drop. f_equal. lia.
  - rewrite mv_offset1, mv_offset0. apply swrap_add_assoc.
Qed.

Lemma uio_addrs_cur u i :
  wf_uio u -> uio_iovs u !! Z.to_nat (uio_iov u) = Some i ->
  uio_addrs u =
    span (wrap (iov_base i + uio_iovoff u)) (iov_len i - uio_iovoff u) ++
    mjoin (iov_span <$> drop (S (Z.to_nat (uio_iov u))) (uio_iovs u)).
Proof.
  intros Hw Hi. unfold uio_addrs. rewrite (drop_S _ i) by done. cbn.
  pose proof (wf_iovoff u Hw). pose proof (wf_iovoff_le u Hw i Hi).
  rewrite drop_app_le by (unfold iov_span; rewrite length_span; lia).
  unfold iov_span at 1. rewrite drop_span by lia. done.
Qed.

(** With bytes left there is a current io vector. *)
Lemma uio_cur_exists u :
  wf_uio u -> 0 < uio_resid u ->
  exists i, arr_get (uio_iovs u) (uio_iov u) = Ok i /\
    uio_iovs u !! Z.to_nat (uio_iov u) = Some i.
Proof.
  intros Hw Hr. apply arr_get_in_range.
  pose proof (wf_iov u Hw). split; [done|].
  destruct (Z.ltb_spec (uio_iov u) (Z.of_nat (length (uio_iovs u)))); [done|].
  exfalso. pose proof (wf_resid u Hw) as Hres.
  unfold uio_addrs in Hres. rewrite (drop_ge (uio_iovs u)) in Hres by lia.
  cbn in Hres. rewrite drop_nil in Hres. cbn in Hres. lia.
Qed.

Lemma uio_next_moved u i :
  wf_uio u -> uio_iovs u !! Z.to_nat (uio_iov u) = Some i ->
  iov_len i = uio_iovoff u -> uio_moved u (uio_next u) 0.
Proof.
  intros Hw Hi Hl. pose proof (wf_resid_word u Hw) as Hrw. unfold in_word in Hrw.
  assert (uio_addrs (uio_next u) = uio_addrs u) as Ha.
  { rewrite (uio_addrs_cur u i) by done. rewrite Hl, Z.sub_diag.
    unfold uio_addrs. cbn [uio_next uio_iov uio_iovs uio_iovoff].
    pose proof (wf_iov u Hw). rewrite Z.add_1_r, Z2Nat.inj_succ by done. done. }
  apply lookup_lt_Some in Hi as Hlt. destruct Hw.
  split; cbn; try done; try lia.
  - split; cbn; try done || lia.
    + intros j Hj. apply (Forall_lookup_1 _ _ _ _ wf_lens0) in Hj.
      unfold in_word in Hj. lia.
    + rewrite Ha. done.
  - rewrite Z.add_0_r. symmetry. apply swrap_small; lia.
Qed.

Lemma uio_advance_moved u i c :
  wf_uio u -> uio_iovs u !! Z.to_nat (uio_iov u) = Some i ->
  0 <= c <= iov_len i - uio_iovoff u -> uio_moved u (uio_advance u c) c.
Proof.
  intros Hw Hi Hc.
  assert (c <= uio_resid u) as Hcr.
  { rewrite (wf_resid u Hw), (uio_addrs_cur u i) by done.
    rewrite length_app, length_span. lia. }
  assert (in_word (iov_len i)) as Hil
    by (apply (Forall_lookup_1 _ _ _ _ (wf_lens u Hw) Hi)).
  unfold in_word in Hil. pose proof (wf_resid_word u Hw) as Hrw. unfold in_word in Hrw.
  pose proof (wf_iovoff u Hw). pose proof (wf_offset u Hw).
  assert (wrap (uio_iovoff u + c) = uio_iovoff u + c) as Hoff
    by (apply wrap_small; unfold in_word; lia).
  assert (wrap (uio_resid u - c) = uio_resid u - c) as Hres
    by (apply wrap_small; unfold in_word; lia).
  assert (uio_addrs (uio_advance u c) = drop (Z.to_nat c) (uio_addrs u)) as Ha.
  { unfold uio_addrs. cbn [uio_advance uio_iov uio_iovs uio_iovoff].
    rewrite Hoff, drop_drop. f_equal. lia. }
  split; try done; [|lia].
  destruct Hw. split; cbn [uio_advance uio_iov uio_iovs uio_iovoff uio_iovcnt
    uio_resid uio_offset uio_vmspace]; rewrite ?Hoff, ?Hres; try done || lia.
  - intros j Hj. simplify_eq. lia.
  - rewrite Ha, length_drop. lia.
  - unfold in_word. lia.
  - apply (swrap_bound 32). lia.
Qed.
End moves.

Section uiomove.
Context `{Arch} `{!CopyRoutines}.

(** The only source of errors: a copy routine can fault and the descriptor is of
    the running process. *)
Definition user_fault (u : uio) : Prop :=
  uio_vmspace u = VmUser /\
  ((exists m a old, (copyin m a old).2 = EFAULT) \/
   (exists m bs a, (copyout m bs a).2 = EFAULT)).
Implicit Types u : uio.

(** What a complete transfer of [k] bytes does to the buffer and the memory. *)
Definition moved_data (u : uio) (k : Z) (buf : list Z) (off : Z) (m : mem)
    (buf' : list Z) (m' : mem) : Prop :=
  match uio_op u with
  | UIO_READ =>
      buf' = buf /\
      m' = write_at m (take (Z.to_nat k) (uio_addrs u)) (buf_slice buf off k)
  | UIO_WRITE =>
      m' = m /\
      buf' = buf_splice buf off (read_at m (take (Z.to_nat k) (uio_addrs u)))
  end.

(** What a transfer of [k] bytes does that fails in a chunk of [c] more: all but the
    destination of the chunk is as if the [k] bytes had been transferred. *)
Definition moved_prefix (u : uio) (k c : Z) (buf : list Z) (off : Z) (m : mem)
    (buf' : list Z) (m' : mem) : Prop :=
  match uio_op u with
  | UIO_READ =>
      buf' = buf /\
      forall x, x ∉ take (Z.to_nat c) (drop (Z.to_nat k) (uio_addrs u)) ->
        m' x = write_at m (take (Z.to_nat k) (uio_addrs u)) (buf_slice buf off k) x
  | UIO_WRITE =>
      m' = m /\
      forall j, 0 <= j -> ~ off + k <= j < off + k + c ->
        buf' !!! Z.to_nat j = buf_splice buf off (read_at m (take (Z.to_nat k) (uio_addrs u))) !!! Z.to_nat j
  end.

(** The result of a transfer of up to [n] bytes. *)
Record move_result (n : Z) (u : uio) (buf : list Z) (off : Z) (m : mem)
    (r : Z * list Z * uio * mem) (k : Z) : Prop := {
  mr_moved : uio_moved u r.1.2 k;
  mr_count : k <= n;
  mr_length : length r.1.1.2 = length buf;
  mr_error : r.1.1.1 = 0 \/ r.1.1.1 = EFAULT /\ user_fault u;
  mr_done : r.1.1.1 = 0 ->
    k = Z.min n (uio_resid u) /\ moved_data u k buf off m r.1.1.2 r.2;
  mr_failed : r.1.1.1 = EFAULT ->
    exists c, 0 < c /\ k + c <= Z.min n (uio_resid u) /\ moved_prefix u k c buf off m r.1.1.2 r.2;
  mr_frame x : x ∉ take (Z.to_nat n) (uio_addrs u) -> r.2 x = m x;
  mr_buf_frame j : 0 <= j -> j < off \/ off + n <= j ->
    r.1.1.2 !!! Z.to_nat j = buf !!! Z.to_nat j;
  mr_read_buf : uio_op u = UIO_READ -> r.1.1.2 = buf;
  mr_write_mem : uio_op u = UIO_WRITE -> r.2 = m;
}.

Lemma moved_prefix_step u u1 c k d buf buf1 off m m1 buf' m' :
  wf_uio u -> 0 <= off -> 0 <= c -> 0 <= k -> off + c <= Z.of_nat (length buf) -> c <= uio_resid u ->
  uio_moved u u1 c -> moved_data u c buf off m buf1 m1 ->
  moved_prefix u1 k d buf1 (off + c) m1 buf' m' -> moved_prefix u (c + k) d buf off m buf' m'.
Proof.
  intros Hw Hoff Hc Hk Hin Hr M1 D1 D2. unfold moved_prefix, moved_data in *. rewrite (mv_op _ _ _ M1), (mv_addrs _ _ _ M1) in D2.
  assert (length (take (Z.to_nat c) (uio_addrs u)) = Z.to_nat c) as Hlc by (rewrite length_take; pose proof (wf_resid _ Hw); lia).
  rewrite drop_drop in D2. replace (Z.to_nat (c + k)) with (Z.to_nat c + Z.to_nat k)%nat by lia. rewrite <- take_take_drop.
  destruct (uio_op u); destruct D1 as [-> ->]; destruct D2 as [-> Hd]; split; try done.
  - intros x Hx. rewrite (Hd x Hx), buf_slice_add, write_at_app by lia || (rewrite Hlc, length_buf_slice; [done|unfold in_buf; lia]). done.
  - intros j Hj Hx. rewrite (Hd j Hj ltac:(lia)). unfold read_at. rewrite fmap_app, <- buf_splice_app; rewrite ?length_fmap, ?Hlc; try lia.
    by replace (Z.of_nat (Z.to_nat c)) with c by lia.
Qed.

(** Nothing but the destination of the first chunk has changed. *)
Lemma moved_prefix_none u c buf off m buf' m' :
  (forall x, x ∉ take (Z.to_nat c) (uio_addrs u) -> m' x = m x) ->
  (forall j, 0 <= j -> j < off \/ off + c <= j -> buf' !!! Z.to_nat j = buf !!! Z.to_nat j) ->
  (uio_op u = UIO_READ -> buf' = buf) -> (uio_op u = UIO_WRITE -> m' = m) -> moved_prefix u 0 c buf off m buf' m'.
Proof.
  intros Hm Hb H1 H2. unfold moved_prefix. destruct (uio_op u); (split; [auto|]).
  - intros x Hx. unfold buf_slice. cbn. by apply Hm.
  - intros j Hj Ho. cbn. rewrite buf_splice_nil. apply Hb; lia.
Qed.

(** One successful chunk followed by the rest of the loop. *)
Lemma move_result_step n u u1 buf buf1 off m m1 c r k :
  wf_uio u -> 0 <= off -> 0 <= c <= n -> off + c <= Z.of_nat (length buf) ->
  uio_moved u u1 c -> length buf1 = length buf ->
  moved_data u c buf off m buf1 m1 ->
  move_result (n - c) u1 buf1 (off + c) m1 r k ->
  move_result n u buf off m r (c + k).
Proof.
  intros Hw Hoff Hc Hin M1 Hl D1 R. destruct R.
  pose proof (mv_count _ _ _ mr_moved0) as Hk. pose proof (mv_count _ _ _ M1) as Hc'.
  pose proof (mv_resid _ _ _ M1) as Hr.
  assert (length (take (Z.to_nat c) (uio_addrs u)) = Z.to_nat c) as Hlc.
  { rewrite length_take. pose proof (wf_resid _ Hw). lia. }
  split.
  - by eapply uio_moved_trans.
  - lia.
  - congruence.
  - destruct mr_error0 as [|[]]; [by left|right].
    unfold user_fault. rewrite <- (mv_vm _ _ _ M1). done.
  - intros He. destruct (mr_done0 He) as [-> D2]. split; [lia|].
    unfold moved_data in *. rewrite (mv_op _ _ _ M1), (mv_addrs _ _ _ M1) in D2.
    set (k := Z.min (n - c) (uio_resid u1)) in *.
    replace (Z.to_nat (c + k)) with (Z.to_nat c + Z.to_nat k)%nat by lia.
    rewrite <- take_take_drop.
    destruct (uio_op u); destruct D1 as [-> ->]; destruct D2 as [Hb Hm].
    + split; [done|]. rewrite buf_slice_add by lia.
      rewrite write_at_app; [done|].
      rewrite Hlc, length_buf_slice; [done|]. unfold in_buf. lia.
    + split; [done|]. rewrite Hm. unfold read_at. rewrite fmap_app.
      rewrite <- buf_splice_app; rewrite ?length_fmap, ?Hlc; try lia.
      replace (Z.of_nat (Z.to_nat c)) with c by lia. done.
  - intros He. destruct (mr_failed0 He) as (d & Hd & Hle & D2). exists d. split; [done|]. split; [lia|].
    apply (moved_prefix_step u u1 c k d buf buf1 off m m1); done || lia.
  - intros x Hx. rewrite mr_frame0.
    + unfold moved_data in D1.
      destruct (uio_op u); [destruct D1 as [_ ->]|by destruct D1 as [-> _]].
      apply write_at_frame. intros Hx'. apply Hx.
      eapply elem_of_take_le; [|done]. lia.
    + rewrite (mv_addrs _ _ _ M1). intros Hx'. apply Hx.
      replace (Z.to_nat n) with (Z.to_nat c + Z.to_nat (n - c))%nat by lia.
      rewrite <- take_take_drop. apply elem_of_app. by right.
  - intros j Hj Hout. rewrite mr_buf_frame0 by lia.
    unfold moved_data in D1.
    destruct (uio_op u); [by destruct D1 as [-> _]|destruct D1 as [_ ->]].
    assert (length (read_at m (take (Z.to_nat c) (uio_addrs u))) = Z.to_nat c) as Hlr
      by (unfold read_at; rewrite length_fmap; done).
    rewrite lookup_total_splice, Hlr by lia.
    destruct (_ && _) eqn:E; [lia|done].
  - intros Ho. rewrite (mr_read_buf0 ltac:(by rewrite (mv_op _ _ _ M1))).
    unfold moved_data in D1. rewrite Ho in D1. apply D1.
  - intros Ho. rewrite (mr_write_mem0 ltac:(by rewrite (mv_op _ _ _ M1))).
    unfold moved_data in D1. rewrite Ho in D1. apply D1.
Qed.

Lemma move_result_stop n u buf off m :
  wf_uio u -> 0 <= n -> in_word n -> (n = 0 \/ uio_resid u = 0) ->
  move_result n u buf off m (0, buf, u, m) 0.
Proof.
  intros Hw Hn Hnw Hz. pose proof (wf_resid_word u Hw) as Hr. unfold in_word in Hr.
  split; cbn; try done.
  - by apply uio_moved_refl.
  - by left.
  - intros _. split; [lia|]. unfold moved_data, buf_slice.
    destruct (uio_op u); split; try done.
    by rewrite buf_splice_nil.
Qed.

(** The chunk a loop iteration copies, when the copy succeeds. *)
Lemma moved_data_chunk u i c :
  wf_uio u -> uio_iovs u !! Z.to_nat (uio_iov u) = Some i ->
  0 <= c <= iov_len i - uio_iovoff u ->
  take (Z.to_nat c) (uio_addrs u) = span (wrap (iov_base i + uio_iovoff u)) c.
Proof.
  intros Hw Hi Hc. rewrite (uio_addrs_cur u i) by done.
  rewrite take_app_le by (rewrite length_span; lia). apply take_span. lia.
Qed.

(** One chunk: what the copy of [c] bytes at the current position leaves. *)
Lemma copy_chunk u i c buf off m :
  wf_uio u -> uio_iovs u !! Z.to_nat (uio_iov u) = Some i ->
  0 <= c <= iov_len i - uio_iovoff u -> in_buf buf off c = true ->
  exists buf' m' e,
    match uio_op u with
    | UIO_READ =>
        r ← copyout_vmspace (uio_vmspace u) m (buf_slice buf off c)
              (wrap (iov_base i + uio_iovoff u));
        Ok (buf, r.1, r.2)
    | UIO_WRITE =>
        r ← copyin_vmspace (uio_vmspace u) m (wrap (iov_base i + uio_iovoff u))
              (buf_slice buf off c);
        Ok (buf_splice buf off r.1, m, r.2)
    end = Ok (buf', m', e) /\
    length buf' = length buf /\
    (e = 0 \/ e = EFAULT /\ user_fault u) /\
    (e = 0 -> moved_data u c buf off m buf' m') /\
    (forall x, x ∉ take (Z.to_nat c) (uio_addrs u) -> m' x = m x) /\
    (forall j, 0 <= j -> j < off \/ off + c <= j ->
       buf' !!! Z.to_nat j = buf !!! Z.to_nat j) /\
    (uio_op u = UIO_READ -> buf' = buf) /\
    (uio_op u = UIO_WRITE -> m' = m).
Proof.
  intros Hw Hi Hc Hb. pose proof (wf_vm u Hw) as Hvm.
  pose proof (length_buf_slice buf off c Hb) as Hl.
  pose proof (length_buf_splice buf off) as Hsp.
  assert (Z.of_nat (Z.to_nat c) = c) as Hcc by lia.
  assert (forall bs, length bs = Z.to_nat c -> forall j, 0 <= j ->
    j < off \/ off + c <= j ->
    buf_splice buf off bs !!! Z.to_nat j = buf !!! Z.to_nat j) as Hout.
  { intros bs Hbs j Hj Ho. unfold in_buf in Hb. rewrite lookup_total_splice by lia.
    rewrite (proj2 (andb_false_iff _ _)); [done|lia]. }
  unfold moved_data. rewrite (moved_data_chunk u i) by done.
  destruct (uio_op u), (uio_vmspace u) eqn:Evm; cbn; rewrite ?Hl, ?Hcc; try done;
    do 3 eexists; split_and!; eauto using write_at_frame; try done.
  - destruct (copyout_error m (buf_slice buf off c) (wrap (iov_base i + uio_iovoff u)))
      as [|E]; [by left|right]. split; [exact E|]. split; eauto.
  - intros E. split; [done|]. rewrite copyout_done, Hl, Hcc by done. done.
  - intros x Hx. apply copyout_frame. rewrite Hl, Hcc. done.
  - rewrite Hsp; [done|]. unfold read_at. rewrite length_fmap, length_span, Hcc. done.
  - apply Hout. unfold read_at. by rewrite length_fmap, length_span.
  - rewrite Hsp; [done|]. rewrite copyin_length, Hl, Hcc. done.
  - destruct (copyin_error m (wrap (iov_base i + uio_iovoff u)) (buf_slice buf off c))
      as [|E]; [by left|right]. split; [exact E|]. split; eauto.
  - intros E. split; [done|]. rewrite copyin_done, Hl, Hcc by done. done.
  - apply Hout. by rewrite copyin_length, Hl.
Qed.

Lemma uiomove_loop_spec fuel buf off n u m :
  wf_uio u -> in_word n -> in_buf buf off n = true ->
  (Z.to_nat n + Z.to_nat (uio_iovcnt u) < fuel)%nat ->
  exists r k, uiomove_loop fuel buf off n u m = Ok r /\
    move_result n u buf off m r k.
Proof.
  revert buf off n u m. induction fuel as [|fuel IH]; intros buf off n u m
    Hw Hn Hb Hf; [lia|]. cbn [uiomove_loop]. unfold in_word in Hn.
  destruct ((0 <? n) && (0 <? uio_resid u)) eqn:Hgo.
  2:{ do 2 eexists. split; [done|]. apply move_result_stop; try done; try lia.
      pose proof (wf_resid_word u Hw) as Hr. unfold in_word in Hr. lia. }
  destruct (uio_cur_exists u) as (i & Hg & Hi); [done|lia|]. rewrite Hg.
  cbn [mbind outcome_bind].
  pose proof (wf_iovoff u Hw). pose proof (wf_iovoff_le u Hw i Hi).
  pose proof (Forall_lookup_1 _ _ _ _ (wf_lens u Hw) Hi) as Hil.
  cbn beta in Hil. unfold in_word in Hil.
  rewrite (wrap_small (iov_len i - uio_iovoff u)) by (unfold in_word; lia).
  apply lookup_lt_Some in Hi as Hlt. pose proof (wf_iovcnt u Hw).
  pose proof (wf_iov u Hw).
  destruct (Z.eqb_spec (iov_len i - uio_iovoff u) 0) as [Hz|Hz].
  - destruct (Z.eqb_spec (uio_iovcnt u) 0); [lia|].
    pose proof (uio_next_moved u i Hw Hi ltac:(lia)) as M.
    destruct (IH buf off n (uio_next u) m) as (r & k & Hr & R);
      [apply M|done|done|cbn; lia|].
    exists r, k. split; [done|].
    replace k with (0 + k) by lia.
    eapply (move_result_step n u (uio_next u) buf buf off m m 0);
      try done; unfold in_buf in Hb; try lia.
    + unfold moved_data, buf_slice.
      destruct (uio_op u); split; try done. by rewrite buf_splice_nil.
    + rewrite Z.sub_0_r, Z.add_0_r. done.
  - set (c := if n <? iov_len i - uio_iovoff u then n else iov_len i - uio_iovoff u).
    assert (0 < c <= n /\ c <= iov_len i - uio_iovoff u) as Hc
      by (subst c; destruct (Z.ltb_spec n (iov_len i - uio_iovoff u)); lia).
    assert (in_buf buf off c = true) as Hbc by (unfold in_buf in *; lia).
    rewrite Hbc. cbn [negb].
    destruct (copy_chunk u i c buf off m) as (buf' & m' & e & -> & Hlen & He & Hd & Hfr & Hbf & Hrb & Hwm);
      [done|done|lia|done|]. cbn [mbind outcome_bind].
    pose proof (uio_advance_moved u i c Hw Hi ltac:(lia)) as M.
    unfold in_buf in Hb. rewrite (wrap_small (n - c)) by (unfold in_word; lia).
    destruct (Z.eqb_spec e 0) as [->|Hne]; cbn [negb].
    + destruct (IH buf' (off + c) (n - c) (uio_advance u c) m') as (r & k & Hr & R);
        [apply M|unfold in_word; lia|unfold in_buf; lia|cbn; lia|].
      exists r, (c + k). split; [done|].
      eapply move_result_step; try done || lia. by apply Hd.
    + exists (e, buf', u, m'), 0. split; [done|]. split; cbn; try done.
      * by apply uio_moved_refl.
      * lia.
      * intros _. exists c. split; [lia|]. split; [pose proof (mv_count _ _ _ M); lia|].
        by apply moved_prefix_none.
      * intros x Hx. apply Hfr. intros Hx'. apply Hx.
        eapply elem_of_take_le; [|done]. lia.
      * intros j Hj Hout. apply Hbf; lia.
Qed.

(** C23: [uiomove] terminates without fault on a well-formed descriptor of the kernel or of
    the running process.  It moves [min n resid] bytes, or fewer with [EFAULT] when a copy
    from or to user memory faults; the transfer is the sequential copy along the
    flattened address list of the io vectors, and the descriptor stays well-formed and has
    advanced by exactly the bytes moved.  On [EFAULT] these are the bytes before the chunk
    that faulted, and apart from the destination of this chunk, memory and buffer are as
    if just these had been moved. *)
Theorem uiomove_correct buf off n u m :
  wf_uio u -> in_word n -> in_buf buf off n = true ->
  exists r k, uiomove buf off n u m = Ok r /\ move_result n u buf off m r k.
Proof.
  intros Hw Hn Hb. apply uiomove_loop_spec; try done. unfold uiomove_fuel. lia.
Qed.

Lemma uiomove_inv buf off n u m r :
  wf_uio u -> in_word n -> in_buf buf off n = true ->
  uiomove buf off n u m = Ok r -> exists k, move_result n u buf off m r k.
Proof.
  intros Hw Hn Hb Hr.
  destruct (uiomove_loop_spec (uiomove_fuel n u) buf off n u m) as (r' & k & Hr' & R);
    try done; [unfold uiomove_fuel; lia|].
  unfold uiomove in Hr. rewrite Hr' in Hr. simplify_eq. by exists k.
Qed.

Lemma uio_restore_moved u u' k :
  wf_uio u -> uio_moved u u' k -> uio_restore u' (uio_save u) = u.
Proof.
  intros Hw M. destruct M. unfold uio_restore, uio_save. cbn.
  pose proof (wf_resid_word u Hw) as Hr. unfold in_word in Hr.
  rewrite mv_resid0, mv_offset0, mv_iovs0, mv_op0, mv_vm0.
  replace (uio_resid u - (uio_resid u - k)) with k by lia.
  rewrite (wrap_small k) by (unfold in_word; lia).
  replace (uio_resid u - k + k) with (uio_resid u) by lia.
  rewrite (wrap_small (uio_resid u)) by (unfold in_word; lia).
  rewrite swrap_add_sub by (pose proof (wf_offset u Hw); lia).
  pose proof (wf_iovcnt u Hw) as Hc. pose proof (wf_iovcnt u' mv_wf0) as Hc'.
  rewrite mv_iovs0 in Hc'.
  replace (uio_iov u' - (uio_iovcnt u - uio_iovcnt u')) with (uio_iov u) by lia.
  by destruct u.
Qed.

(** [uio_restore] undoes any transfer since the matching [uio_save]: the
    descriptor is again what it was, whatever [uiomove] returned. *)
Theorem uio_save_restore buf off n u m r :
  wf_uio u -> in_word n -> in_buf buf off n = true ->
  uiomove buf off n u m = Ok r -> uio_restore r.1.2 (uio_save u) = u.
Proof.
  intros Hw Hn Hb Hr. apply uiomove_inv in Hr as [k R]; try done.
  by eapply uio_restore_moved, R.
Qed.

(** Reading from an in-memory object delivers its bytes from the file offset
    on. *)
Lemma uiomove_frombuf_read buf u m :
  wf_uio u -> uio_op u = UIO_READ -> uio_vmspace u = VmKernel ->
  0 <= uio_offset u <= Z.of_nat (length buf) -> in_word (Z.of_nat (length buf)) ->
  let n := Z.of_nat (length buf) - uio_offset u in
  let k := Z.min n (uio_resid u) in
  exists u', uiomove_frombuf buf (Z.of_nat (length buf)) u m =
    Ok (0, buf, u', write_at m (take (Z.to_nat k) (uio_addrs u))
                      (buf_slice buf (uio_offset u) k)) /\
    uio_moved u u' k.
Proof.
  intros Hw Ho Hv Hoff Hlen n k. unfold in_word in Hlen. unfold uiomove_frombuf.
  rewrite (wrap_small (uio_offset u)) by (unfold in_word; lia).
  do 2 assert_step lia.
  rewrite wrap_small by (unfold in_word; lia). fold n.
  destruct (uiomove_loop_spec (uiomove_fuel n u) buf (uio_offset u) n u m)
    as ([[[e buf'] u'] m'] & k' & Hr & R);
    [done|unfold in_word; lia|unfold in_buf; lia|unfold uiomove_fuel; lia|].
  unfold uiomove. rewrite Hr. destruct R; cbn in *.
  destruct mr_error0 as [->|[_ [Hu _]]]; [|congruence].
  destruct (mr_done0 eq_refl) as [-> D]. unfold moved_data in D. rewrite Ho in D.
  destruct D as [-> ->]. exists u'. done.
Qed.

Fixpoint iov_total (iov : list iovec) : Z :=
  match iov with [] => 0 | i :: iov => iov_len i + iov_total iov end.

Lemma iov_total_nonneg iov :
  Forall (fun i => in_word (iov_len i)) iov -> 0 <= iov_total iov.
Proof. unfold in_word. induction 1; cbn in *; lia. Qed.

Lemma SSIZE_MAX_word : SSIZE_MAX + SSIZE_MAX < 2 ^ word_bits.
Proof.
  unfold SSIZE_MAX. pose proof (Z.mul_div_le (2 ^ word_bits - 1) 2 ltac:(lia)). lia.
Qed.

Lemma iovec_length_from_spec iov : forall len,
  Forall (fun i => in_word (iov_len i)) iov -> 0 <= len <= SSIZE_MAX ->
  iovec_length_from len iov =
    if len + iov_total iov <=? SSIZE_MAX then (0, Some (len + iov_total iov))
    else (EINVAL, None).
Proof.
  pose proof SSIZE_MAX_word as HS.
  induction iov as [|i iov IH]; intros len Hall Hlen; cbn.
  - rewrite Z.add_0_r. destruct (Z.leb_spec len SSIZE_MAX); [done|lia].
  - apply Forall_cons in Hall as [Hi Hall]. pose proof (iov_total_nonneg iov Hall).
    unfold in_word in Hi.
    destruct (Z.ltb_spec SSIZE_MAX (iov_len i)) as [Hbig|Hsm].
    { rewrite orb_true_r.
      destruct (Z.leb_spec (len + (iov_len i + iov_total iov)) SSIZE_MAX); [lia|done]. }
    rewrite (wrap_small (len + iov_len i)) by (unfold in_word; lia).
    destruct (Z.ltb_spec SSIZE_MAX (len + iov_len i)); cbn.
    + destruct (Z.leb_spec (len + (iov_len i + iov_total iov)) SSIZE_MAX); [lia|done].
    + rewrite IH by (done || lia). rewrite Z.add_assoc. done.
Qed.

Lemma length_iov_addrs iov :
  Forall (fun i => in_word (iov_len i)) iov ->
  Z.of_nat (length (mjoin (iov_span <$> iov))) = iov_total iov.
Proof.
  unfold in_word. induction 1 as [|i iov Hi Hall IH]; [done|].
  change (mjoin (iov_span <$> i :: iov)) with (iov_span i ++ mjoin (iov_span <$> iov)).
  rewrite length_app. unfold iov_span at 1. rewrite length_span. cbn in *. lia.
Qed.

(** [iovec_length] computes the exact total of the lengths and refuses it
    exactly when it exceeds [SSIZE_MAX], although its running sum is a wrapping
    [size_t]; and the descriptor [UIO_VECTOR] builds from an accepted vector is
    well-formed. *)
Theorem iovec_length_correct op vm iov :
  Forall (fun i => in_word (iov_len i)) iov -> vm <> VmOther ->
  iovec_length iov =
    (if iov_total iov <=? SSIZE_MAX then (0, Some (iov_total iov))
     else (EINVAL, None)) /\
  (iov_total iov <= SSIZE_MAX -> wf_uio (UIO_VECTOR op vm iov (iov_total iov))).
Proof.
  intros Hall Hvm. pose proof (iov_total_nonneg iov Hall). pose proof SSIZE_MAX_word.
  split.
  - unfold iovec_length. rewrite iovec_length_from_spec; [done|done|].
    unfold SSIZE_MAX. pose proof word_size_u32.
    split; [lia|]. apply Z.div_pos; lia.
  - intros Hle. split; cbn; try done || lia.
    + intros i Hi. apply (Forall_lookup_1 _ _ _ _ Hall) in Hi. apply Hi.
    + unfold uio_addrs. cbn. rewrite drop_0, length_iov_addrs by done. done.
    + unfold in_word. lia.
Qed.
End uiomove.

(** ** Concrete instances *)

(** Copy routines of a machine on which every user page is accessible. *)
Definition total_copy `{Arch} : CopyRoutines.
Proof.
  refine {| copyin m a old := (read_at m (span a (Z.of_nat (length old))), 0);
            copyout m bs a := (write_at m (span a (Z.of_nat (length bs))) bs, 0) |};
    intros; cbn; auto using write_at_frame.
  unfold read_at. rewrite length_fmap, length_span. lia.
Defined.

(** A read into three areas, the middle one empty. *)
Definition sample_uio : uio :=
  UIO_VECTOR UIO_READ VmUser [Iovec 4096 2; Iovec 8192 0; Iovec 12288 3] 5.

Lemma sample_uio_wf : wf_uio (H := mips) sample_uio.
Proof.
  split; cbn; try done || lia.
  - repeat constructor; unfold in_word; cbn; lia.
  - intros i [= <-]. cbn. lia.
Qed.

Lemma uiomove_correct_witness : exists r k,
  uiomove (H := mips) (H0 := total_copy (H := mips)) [1; 2; 3; 4] 0 4 sample_uio (fun _ => 0) = Ok r /\
  move_result (H := mips) (H0 := total_copy (H := mips)) 4 sample_uio [1; 2; 3; 4] 0 (fun _ => 0) r k.
Proof.
  apply uiomove_correct; [apply sample_uio_wf| |reflexivity].
  unfold in_word. cbn. lia.
Defined.

Lemma uio_save_restore_witness : exists r,
  uiomove (H := mips) (H0 := total_copy (H := mips)) [1; 2; 3; 4] 0 4 sample_uio (fun _ => 0) = Ok r /\
  uio_restore (H := mips) r.1.2 (uio_save sample_uio) = sample_uio.
Proof.
  eexists. split; [reflexivity|].
  apply (uio_save_restore (H := mips) (H0 := total_copy (H := mips)) [1; 2; 3; 4] 0 4 sample_uio (fun _ => 0));
    [apply sample_uio_wf| |reflexivity|reflexivity].
  unfold in_word. cbn. lia.
Defined.

Lemma iovec_length_correct_witness :
  iovec_length (H := mips) [Iovec 4096 (2 ^ 31 - 2); Iovec 8192 2] = (EINVAL, None).
Proof.
  refine (proj1 (iovec_length_correct (H := mips) UIO_READ VmUser
    [Iovec 4096 (2 ^ 31 - 2); Iovec 8192 2] _ _)); [|done].
  repeat constructor; unfold in_word; cbn; lia.
Defined.
