(* ===== verification/Ringbuf.v ===== *)
(** * Ring buffers (sys/kern/ringbuf.c, include/sys/ringbuf.h)

    A byte queue in a fixed array.  [wf_rb] is the representation invariant and
    [contents] the abstraction function; the byte operations refine a bounded
    FIFO queue of bytes, and the descriptor operations [ringbuf_read] and
    [ringbuf_write] move the longest possible prefix in at most two copies. *)

From S2P Require Import Prelude Uio.

Record ringbuf := Ringbuf {
  rb_head : Z;       (* producing data moves head forward *)
  rb_tail : Z;       (* consuming data moves tail forward *)
  rb_count : Z;      (* number of bytes currently stored in the buffer *)
  rb_size : Z;       (* total size of the buffer *)
  rb_data : list Z;  (* buffer that stores data *)
}.

Section ops.
Context `{Arch}.

Definition ringbuf_empty (buf : ringbuf) : bool := rb_count buf =? 0.
Definition ringbuf_full (buf : ringbuf) : bool := rb_count buf =? rb_size buf.

Definition ringbuf_init (data : list Z) (size : Z) : ringbuf :=
  Ringbuf 0 0 0 size data.

Definition set_data (buf : ringbuf) (data : list Z) : ringbuf :=
  Ringbuf (rb_head buf) (rb_tail buf) (rb_count buf) (rb_size buf) data.

(** The argument is an [unsigned]: a longer [size_t] is cut to 32 bits. *)
Definition produce (buf : ringbuf) (bytes : Z) : outcome ringbuf :=
  let bytes := uwrap 32 bytes in
  _ ← assert (wrap (rb_count buf + bytes) <=? rb_size buf);
  _ ← assert (wrap (rb_head buf + bytes) <=? rb_size buf);
  let count := wrap (rb_count buf + bytes) in
  let head := wrap (rb_head buf + bytes) in
  let head := if head =? rb_size buf then 0 else head in
  Ok (Ringbuf head (rb_tail buf) count (rb_size buf) (rb_data buf)).

Definition consume (buf : ringbuf) (bytes : Z) : outcome ringbuf :=
  let bytes := uwrap 32 bytes in
  _ ← assert (bytes <=? rb_count buf);
  _ ← assert (wrap (rb_tail buf + bytes) <=? rb_size buf);
  let count := wrap (rb_count buf - bytes) in
  let tail := wrap (rb_tail buf + bytes) in
  let tail := if tail =? rb_size buf then 0 else tail in
  Ok (Ringbuf (rb_head buf) tail count (rb_size buf) (rb_data buf)).

Definition ringbuf_putb (buf : ringbuf) (byte : Z) : outcome (bool * ringbuf) :=
  if rb_count buf =? rb_size buf then Ok (false, buf)
  else
    data ← arr_set (rb_data buf) (rb_head buf) byte;
    buf ← produce (set_data buf data) 1;
    Ok (true, buf).

(** [for (i = 0; i < n; i++) ringbuf_putb(buf, data[i])] with [k = n - i]. *)
Fixpoint putnb_loop (k : nat) (i : Z) (buf : ringbuf) (data : list Z)
    : outcome ringbuf :=
  match k with
  | O => Ok buf
  | S k =>
      b ← arr_get data i;
      r ← ringbuf_putb buf b;
      putnb_loop k (i + 1) r.2 data
  end.

Definition ringbuf_putnb (buf : ringbuf) (data : list Z) (n : Z)
    : outcome (bool * ringbuf) :=
  if rb_size buf <? wrap (rb_count buf + n) then Ok (false, buf)
  else
    buf ← putnb_loop (Z.to_nat n) 0 buf data;
    Ok (true, buf).

(** [None] is the result [false], [Some b] the result [true] with [*byte_p = b]. *)
Definition ringbuf_getb (buf : ringbuf) : outcome (option Z * ringbuf) :=
  if rb_count buf =? 0 then Ok (None, buf)
  else
    b ← arr_get (rb_data buf) (rb_tail buf);
    buf ← consume buf 1;
    Ok (Some b, buf).

(** The bytes stored through [data] are collected in order; a call that fails
    leaves its byte of [data] alone. *)
Fixpoint getnb_loop (k : nat) (buf : ringbuf) (acc : list (option Z))
    : outcome (list (option Z) * ringbuf) :=
  match k with
  | O => Ok (acc, buf)
  | S k =>
      r ← ringbuf_getb buf;
      getnb_loop k r.2 (acc ++ [r.1])
  end.

Definition ringbuf_getnb (buf : ringbuf) (n : Z)
    : outcome (bool * list (option Z) * ringbuf) :=
  if rb_count buf <? n then Ok (false, [], buf)
  else
    r ← getnb_loop (Z.to_nat n) buf [];
    Ok (true, r.1, r.2).

(** [byte] is uninitialised unless [ringbuf_getb] succeeds, which the guard
    ensures. *)
Definition ringbuf_moveb (src dst : ringbuf) : outcome (bool * ringbuf * ringbuf) :=
  if (rb_count src =? 0) || (rb_count dst =? rb_size dst) then Ok (false, src, dst)
  else
    r ← ringbuf_getb src;
    b ← match r.1 with Some b => Ok b | None => Fault BadAccess end;
    r' ← ringbuf_putb dst b;
    Ok (true, r.2, r'.2).

Fixpoint movenb_loop (k : nat) (src dst : ringbuf) : outcome (ringbuf * ringbuf) :=
  match k with
  | O => Ok (src, dst)
  | S k =>
      r ← ringbuf_moveb src dst;
      movenb_loop k r.1.2 r.2
  end.

Definition ringbuf_movenb (src dst : ringbuf) (n : Z)
    : outcome (bool * ringbuf * ringbuf) :=
  if (rb_count src <? n) || (rb_size dst <? wrap (rb_count dst + n))
  then Ok (false, src, dst)
  else
    r ← movenb_loop (Z.to_nat n) src dst;
    Ok (true, r.1, r.2).

Definition ringbuf_reset (buf : ringbuf) : ringbuf :=
  ringbuf_init (rb_data buf) (rb_size buf).
End ops.

Section uio_ops.
Context `{Arch} `{!CopyRoutines}.

(** Used space is split into at most two parts, so the loop body runs at most
    twice; the third unit of fuel is the final test. *)
Definition ringbuf_fuel : nat := 3.

Fixpoint ringbuf_read_loop (fuel : nat) (buf : ringbuf) (u : uio) (m : mem)
    : outcome (Z * ringbuf * uio * mem) :=
  match fuel with
  | O => Fault OutOfFuel
  | S fuel =>
    if (0 <? uio_resid u) && negb (ringbuf_empty buf) then
      (* used space is either [tail, head) or [tail, size) *)
      let size := if rb_tail buf <? rb_head buf then wrap (rb_head buf - rb_tail buf)
                  else wrap (rb_size buf - rb_tail buf) in
      let size := if uio_resid u <? size then uio_resid u else size in
      '(res, data, u', m') ← uiomove (rb_data buf) (rb_tail buf) size u m;
      if negb (res =? 0) then Ok (res, set_data buf data, u', m')
      else
        buf' ← consume (set_data buf data) size;
        ringbuf_read_loop fuel buf' u' m'
    else Ok (0, buf, u, m)
  end.

Definition ringbuf_read (buf : ringbuf) (u : uio) (m : mem)
    : outcome (Z * ringbuf * uio * mem) :=
  _ ← assert (match uio_op u with UIO_READ => true | UIO_WRITE => false end);
  ringbuf_read_loop ringbuf_fuel buf u m.

Fixpoint ringbuf_write_loop (fuel : nat) (buf : ringbuf) (u : uio) (m : mem)
    : outcome (Z * ringbuf * uio * mem) :=
  match fuel with
  | O => Fault OutOfFuel
  | S fuel =>
    if (0 <? uio_resid u) && negb (ringbuf_full buf) then
      (* free space is either [head, tail) or [head, size) *)
      let size := if rb_head buf <? rb_tail buf then wrap (rb_tail buf - rb_head buf)
                  else wrap (rb_size buf - rb_head buf) in
      let size := if uio_resid u <? size then uio_resid u else size in
      '(res, data, u', m') ← uiomove (rb_data buf) (rb_head buf) size u m;
      if negb (res =? 0) then Ok (res, set_data buf data, u', m')
      else
        buf' ← produce (set_data buf data) size;
        ringbuf_write_loop fuel buf' u' m'
    else Ok (0, buf, u, m)
  end.

Definition ringbuf_write (buf : ringbuf) (u : uio) (m : mem)
    : outcome (Z * ringbuf * uio * mem) :=
  _ ← assert (match uio_op u with UIO_READ => false | UIO_WRITE => true end);
  ringbuf_write_loop ringbuf_fuel buf u m.
End uio_ops.

(** ** Representation *)

Record wf_rb (rb : ringbuf) : Prop := {
  wf_size : 0 < rb_size rb < 2 ^ 32;
  wf_data : Z.of_nat (length (rb_data rb)) = rb_size rb;
  wf_tail : 0 <= rb_tail rb < rb_size rb;
  wf_head_eq : rb_head rb =
    if rb_tail rb + rb_count rb <? rb_size rb then rb_tail rb + rb_count rb
    else rb_tail rb + rb_count rb - rb_size rb;
  wf_count : 0 <= rb_count rb <= rb_size rb;
}.

(** Position in the array of the [i]-th stored byte. *)
Definition rb_index (rb : ringbuf) (i : Z) : Z :=
  if rb_tail rb + i <? rb_size rb then rb_tail rb + i
  else rb_tail rb + i - rb_size rb.

(** The stored bytes, oldest first. *)
Definition contents (rb : ringbuf) : list Z :=
  (fun i => rb_data rb !!! Z.to_nat (rb_index rb i)) <$> seqZ 0 (rb_count rb).

(** ** Lemmas on the representation *)

(** A list given by its elements. *)
Lemma list_as_fmap_seqZ (l : list Z) :
  l = (fun i => l !!! Z.to_nat i) <$> seqZ 0 (Z.of_nat (length l)).
Proof.
  apply list_eq_same_length with (n := length l); [|done|].
  - rewrite length_fmap, length_seqZ. lia.
  - intros i x y Hi Hx Hy. apply list_lookup_fmap_Some in Hy as (z & -> & Hz).
    apply lookup_seqZ in Hz as [-> Hz]. rewrite Z.add_0_l, Nat2Z.id.
    symmetry. by apply list_lookup_total_correct.
Qed.

Lemma fmap_seqZ_shift (f : Z -> Z) a n :
  f <$> seqZ a n = (fun i => f (a + i)) <$> seqZ 0 n.
Proof.
  replace a with (a + 0) at 1 by lia. rewrite <- fmap_add_seqZ, <- list_fmap_compose.
  done.
Qed.

Lemma length_contents rb : length (contents rb) = Z.to_nat (rb_count rb).
Proof. unfold contents. rewrite length_fmap, length_seqZ. done. Qed.

(** The buffer after [bs] has been stored from [head] on. *)
Definition rb_push (rb : ringbuf) (bs : list Z) : ringbuf :=
  let k := Z.of_nat (length bs) in
  Ringbuf (if rb_head rb + k =? rb_size rb then 0 else rb_head rb + k)
    (rb_tail rb) (rb_count rb + k) (rb_size rb)
    (buf_splice (rb_data rb) (rb_head rb) bs).

Definition rb_pop (rb : ringbuf) (k : Z) : ringbuf :=
  Ringbuf (rb_head rb)
    (if rb_tail rb + k =? rb_size rb then 0 else rb_tail rb + k)
    (rb_count rb - k) (rb_size rb) (rb_data rb).

(** There is contiguous free space for [k] bytes at [head]. *)
Definition can_push (rb : ringbuf) (k : Z) : Prop :=
  0 <= k /\ rb_count rb + k <= rb_size rb /\ rb_head rb + k <= rb_size rb.

Definition can_pop (rb : ringbuf) (k : Z) : Prop :=
  0 <= k <= rb_count rb /\ rb_tail rb + k <= rb_size rb.

(** Replace the tests in the definitions of [head], [rb_index] by cases. *)
Ltac rb_cases :=
  repeat match goal with
  | |- context [if ?a <? ?b then _ else _] => destruct (Z.ltb_spec a b)
  | |- context [if ?a =? ?b then _ else _] => destruct (Z.eqb_spec a b)
  | H : context [if ?a <? ?b then _ else _] |- _ => destruct (Z.ltb_spec a b)
  end.

Lemma rb_push_wf rb bs :
  wf_rb rb -> can_push rb (Z.of_nat (length bs)) -> wf_rb (rb_push rb bs).
Proof.
  intros [Hs Hd Ht Hh Hc] (Hk & Hck & Hhk).
  assert (0 <= rb_head rb) as Hh0 by (rewrite Hh; rb_cases; lia).
  split; cbn; try lia.
  - rewrite length_buf_splice; [done|]. unfold in_buf. lia.
  - rb_cases; lia.
Qed.

Lemma rb_push_contents rb bs :
  wf_rb rb -> can_push rb (Z.of_nat (length bs)) ->
  contents (rb_push rb bs) = contents rb ++ bs.
Proof.
  intros [Hs Hd Ht Hh Hc] (Hk & Hck & Hhk).
  assert (0 <= rb_head rb) as Hh0 by (rewrite Hh; rb_cases; lia).
  unfold contents. cbn [rb_push rb_count rb_data].
  rewrite seqZ_app by lia. rewrite fmap_app. f_equal.
  - apply list_fmap_ext. intros i x Hx. apply lookup_seqZ in Hx as [-> Hi].
    unfold rb_index; cbn. rewrite lookup_total_splice; rb_cases; try lia;
      (rewrite (proj2 (andb_false_iff _ _)); [done|lia]).
  - rewrite fmap_seqZ_shift. etrans; [|symmetry; apply list_as_fmap_seqZ].
    apply list_fmap_ext. intros i x Hx. apply lookup_seqZ in Hx as [-> Hi].
    unfold rb_index; cbn. rewrite lookup_total_splice; rb_cases; try lia;
      (rewrite (proj2 (andb_true_iff _ _)) by lia; do 2 f_equal; lia).
Qed.

Lemma rb_pop_wf rb k : wf_rb rb -> can_pop rb k -> wf_rb (rb_pop rb k).
Proof. intros [Hs Hd Ht Hh Hc] (Hk & Htk). split; cbn; rb_cases; lia. Qed.

Lemma rb_pop_contents rb k :
  wf_rb rb -> can_pop rb k ->
  contents (rb_pop rb k) = drop (Z.to_nat k) (contents rb) /\
  buf_slice (rb_data rb) (rb_tail rb) k = take (Z.to_nat k) (contents rb).
Proof.
  intros [Hs Hd Ht Hh Hc] (Hk & Htk).
  assert (contents rb = buf_slice (rb_data rb) (rb_tail rb) k ++ contents (rb_pop rb k))
    as Hsplit.
  { unfold contents. cbn [rb_pop rb_count rb_data].
    replace (rb_count rb) with (k + (rb_count rb - k)) at 1 by lia.
    rewrite seqZ_app by lia. rewrite fmap_app. f_equal.
    - assert (length (buf_slice (rb_data rb) (rb_tail rb) k) = Z.to_nat k) as Hl
        by (apply length_buf_slice; unfold in_buf; lia).
      rewrite (list_as_fmap_seqZ (buf_slice _ _ _)), Hl, Z2Nat.id by lia.
      apply list_fmap_ext. intros i x Hx. apply lookup_seqZ in Hx as [-> Hi].
      rewrite lookup_total_slice by lia. unfold rb_index. do 2 f_equal. rb_cases; lia.
    - rewrite fmap_seqZ_shift. apply list_fmap_ext. intros i x Hx.
      apply lookup_seqZ in Hx as [-> Hi]. unfold rb_index. cbn.
      do 2 f_equal. rb_cases; lia. }
  assert (length (buf_slice (rb_data rb) (rb_tail rb) k) = Z.to_nat k) as Hl
    by (apply length_buf_slice; unfold in_buf; lia).
  rewrite Hsplit, <- Hl. rewrite drop_app_length, take_app_length. done.
Qed.

Section op_lemmas.
Context `{Arch}.
Implicit Types rb : ringbuf.

Lemma wf_head rb : wf_rb rb -> 0 <= rb_head rb <= rb_size rb.
Proof. intros [Hs Hd Ht Hh Hc]. rewrite Hh. rb_cases; lia. Qed.

(** A buffer that is not full has its head inside the array. *)
Lemma wf_head_lt rb : wf_rb rb -> rb_head rb < rb_size rb.
Proof. intros [Hs Hd Ht Hh Hc]. rewrite Hh. rb_cases; lia. Qed.

Lemma produce_push rb bs :
  wf_rb rb -> can_push rb (Z.of_nat (length bs)) ->
  produce (set_data rb (buf_splice (rb_data rb) (rb_head rb) bs))
    (Z.of_nat (length bs)) = Ok (rb_push rb bs).
Proof.
  intros Hw (Hk & Hck & Hhk). pose proof (wf_head rb Hw).
  destruct Hw as [Hs Hd Ht Hh Hc]. pose proof word_size_u32.
  unfold produce. cbn. rewrite uwrap_small by lia.
  rewrite !wrap_small by auto with kern.
  do 2 assert_step lia. done.
Qed.

Lemma consume_pop rb k : wf_rb rb -> can_pop rb k -> consume rb k = Ok (rb_pop rb k).
Proof.
  intros [Hs Hd Ht Hh Hc] (Hk & Htk). pose proof word_size_u32.
  unfold consume. rewrite uwrap_small by lia.
  rewrite !wrap_small by auto with kern.
  do 2 assert_step lia. done.
Qed.

Lemma arr_set_splice (l : list Z) i x :
  0 <= i < Z.of_nat (length l) -> arr_set l i x = Ok (buf_splice l i [x]).
Proof.
  intros Hi. rewrite arr_set_ok by done. unfold buf_splice. cbn.
  rewrite insert_take_drop by lia. do 4 f_equal. lia.
Qed.

Lemma putb_spec rb b :
  wf_rb rb ->
  ringbuf_putb rb b =
    if ringbuf_full rb then Ok (false, rb) else Ok (true, rb_push rb [b]).
Proof.
  intros Hw. unfold ringbuf_putb, ringbuf_full.
  destruct (Z.eqb_spec (rb_count rb) (rb_size rb)); [done|].
  pose proof (wf_head_lt rb Hw). pose proof (wf_head rb Hw).
  pose proof (wf_count rb Hw). pose proof (wf_data rb Hw).
  rewrite arr_set_splice by lia. cbn [mbind outcome_bind].
  change (produce ?x 1) with (produce x (Z.of_nat (length [b]))).
  rewrite produce_push; [done|done|]. unfold can_push. cbn. lia.
Qed.

Lemma putb_can_push rb : wf_rb rb -> rb_count rb < rb_size rb -> can_push rb 1.
Proof. intros Hw Hlt. pose proof (wf_head_lt rb Hw). unfold can_push. lia. Qed.

Lemma getb_spec rb :
  wf_rb rb -> 0 < rb_count rb ->
  ringbuf_getb rb = Ok (head (contents rb), rb_pop rb 1) /\ can_pop rb 1.
Proof.
  intros Hw Hc. pose proof (wf_tail rb Hw). pose proof (wf_data rb Hw).
  assert (can_pop rb 1) as Hp by (unfold can_pop; lia).
  split; [|done]. unfold ringbuf_getb.
  destruct (Z.eqb_spec (rb_count rb) 0); [lia|].
  destruct (arr_get_in_range (rb_data rb) (rb_tail rb)) as (x & -> & Hx); [lia|].
  cbn [mbind outcome_bind]. rewrite consume_pop by done.
  pose proof (proj2 (rb_pop_contents rb 1 Hw Hp)) as Hsl.
  unfold buf_slice in Hsl. rewrite (drop_S _ x) in Hsl by done.
  change (Z.to_nat 1) with 1%nat in Hsl. cbn in Hsl. rewrite take_0 in Hsl.
  destruct (contents rb); [done|]. cbn in Hsl. rewrite take_0 in Hsl. by simplify_eq/=.
Qed.

(** A run of [ringbuf_putb] calls that fit. *)
Lemma putnb_loop_spec data : forall k i rb,
  wf_rb rb -> 0 <= i -> Z.of_nat k + i <= Z.of_nat (length data) ->
  rb_count rb + Z.of_nat k <= rb_size rb ->
  exists rb', putnb_loop k i rb data = Ok rb' /\ wf_rb rb' /\
    rb_size rb' = rb_size rb /\ contents rb' = contents rb ++ buf_slice data i (Z.of_nat k).
Proof.
  induction k as [|k IH]; intros i rb Hw Hi Hlen Hfit.
  - exists rb. split_and!; try done. unfold buf_slice. cbn. by rewrite app_nil_r.
  - cbn [putnb_loop]. destruct (arr_get_in_range data i) as (b & -> & Hb); [lia|].
    cbn [mbind outcome_bind]. rewrite putb_spec by done. unfold ringbuf_full.
    destruct (Z.eqb_spec (rb_count rb) (rb_size rb)); [lia|]. cbn.
    pose proof (putb_can_push rb Hw ltac:(lia)) as Hp.
    destruct (IH (i + 1) (rb_push rb [b])) as (rb' & Hr & Hw' & Hs' & Hc');
      [by apply rb_push_wf|lia|lia|cbn; lia|].
    exists rb'. split_and!; try done.
    rewrite Hc', rb_push_contents, <- app_assoc by done. f_equal.
    unfold buf_slice. rewrite !Nat2Z.id, (drop_S data b (Z.to_nat i)) by done.
    replace (Z.to_nat (i + 1)) with (S (Z.to_nat i)) by lia. done.
Qed.

Lemma getnb_loop_spec : forall k rb acc,
  wf_rb rb -> Z.of_nat k <= rb_count rb ->
  exists rb', getnb_loop k rb acc = Ok (acc ++ (Some <$> take k (contents rb)), rb') /\
    wf_rb rb' /\ rb_size rb' = rb_size rb /\ contents rb' = drop k (contents rb).
Proof.
  induction k as [|k IH]; intros rb acc Hw Hk.
  - exists rb. cbn. by rewrite app_nil_r, drop_0.
  - cbn [getnb_loop]. destruct (getb_spec rb Hw ltac:(lia)) as [-> Hp].
    cbn [mbind outcome_bind fst snd].
    destruct (IH (rb_pop rb 1) (acc ++ [head (contents rb)])) as (rb' & -> & Hw' & Hs' & Hc');
      [by apply rb_pop_wf|cbn; lia|].
    exists rb'. destruct (rb_pop_contents rb 1 Hw Hp) as [Hd _].
    rewrite Hd in *. split_and!; try done.
    + assert (contents rb <> []) as Hne
        by (intros E; apply (f_equal length) in E; rewrite length_contents in E; cbn in E; lia).
      destruct (contents rb) as [|c l]; [done|]. cbn. by rewrite <- app_assoc.
    + rewrite Hc', drop_drop. done.
Qed.
End op_lemmas.

(** ** The abstract queue *)

Module Fifo.

Inductive op :=
| Putb (b : Z)
| Putnb (bs : list Z)
| Getb
| Getnb (n : Z)
| Reset.

Inductive reply :=
| Done (ok : bool)
| Byte (b : option Z)
| Bytes (bs : option (list Z)).

(** A queue of at most [cap] bytes; operations that do not fit change nothing. *)
Definition step (cap : Z) (q : list Z) (o : op) : reply * list Z :=
  match o with
  | Putb b =>
      if Z.of_nat (length q) =? cap then (Done false, q) else (Done true, q ++ [b])
  | Putnb bs =>
      if cap <? Z.of_nat (length q) + Z.of_nat (length bs) then (Done false, q)
      else (Done true, q ++ bs)
  | Getb =>
      match q with [] => (Byte None, []) | b :: q => (Byte (Some b), q) end
  | Getnb n =>
      if Z.of_nat (length q) <? n then (Bytes None, q)
      else (Bytes (Some (take (Z.to_nat n) q)), drop (Z.to_nat n) q)
  | Reset => (Done true, [])
  end.

Fixpoint run (cap : Z) (q : list Z) (os : list op) : list reply * list Z :=
  match os with
  | [] => ([], q)
  | o :: os =>
      let '(r, q) := step cap q o in
      let '(rs, q) := run cap q os in (r :: rs, q)
  end.
End Fifo.

Section refinement.
Context `{Arch}.

(** The same requests served by the ring buffer. *)
Definition rb_step (rb : ringbuf) (o : Fifo.op) : outcome (Fifo.reply * ringbuf) :=
  match o with
  | Fifo.Putb b => r ← ringbuf_putb rb b; Ok (Fifo.Done r.1, r.2)
  | Fifo.Putnb bs =>
      r ← ringbuf_putnb rb bs (Z.of_nat (length bs)); Ok (Fifo.Done r.1, r.2)
  | Fifo.Getb => r ← ringbuf_getb rb; Ok (Fifo.Byte r.1, r.2)
  | Fifo.Getnb n =>
      '(ok, bs, rb) ← ringbuf_getnb rb n;
      Ok (Fifo.Bytes (if (ok : bool) then mapM id bs else None), rb)
  | Fifo.Reset => Ok (Fifo.Done true, ringbuf_reset rb)
  end.

Fixpoint rb_run (rb : ringbuf) (os : list Fifo.op)
    : outcome (list Fifo.reply * ringbuf) :=
  match os with
  | [] => Ok ([], rb)
  | o :: os =>
      r ← rb_step rb o;
      rs ← rb_run r.2 os;
      Ok (r.1 :: rs.1, rs.2)
  end.

(** Lengths the C interface can express: [n] is a [size_t], and the sum of the
    [size_t]s [count] and [n] does not wrap. *)
Definition op_ok (cap : Z) (o : Fifo.op) : Prop :=
  match o with
  | Fifo.Putnb bs => in_word (cap + Z.of_nat (length bs))
  | Fifo.Getnb n => in_word n
  | _ => True
  end.

Lemma mapM_Some (l : list Z) : mapM id (Some <$> l) = Some l.
Proof. apply mapM_Some_2, Forall2_fmap_l, Forall_Forall2_diag, Forall_true. done. Qed.

Lemma putnb_spec rb bs :
  wf_rb rb -> in_word (rb_size rb + Z.of_nat (length bs)) ->
  exists rb', ringbuf_putnb rb bs (Z.of_nat (length bs)) =
      Ok (negb (rb_size rb <? rb_count rb + Z.of_nat (length bs)), rb') /\
    wf_rb rb' /\ rb_size rb' = rb_size rb /\
    contents rb' = if rb_size rb <? rb_count rb + Z.of_nat (length bs)
                   then contents rb else contents rb ++ bs.
Proof.
  intros Hw Ho. unfold in_word in Ho. pose proof (wf_count rb Hw).
  unfold ringbuf_putnb. rewrite wrap_small by auto with kern.
  destruct (Z.ltb_spec (rb_size rb) (rb_count rb + Z.of_nat (length bs))).
  { by exists rb. }
  destruct (putnb_loop_spec bs (length bs) 0 rb) as (rb' & Hr & Hw' & Hs & Hc);
    [done|lia|lia|lia|].
  exists rb'. rewrite Nat2Z.id, Hr. split_and!; try done.
  rewrite Hc. unfold buf_slice. by rewrite Nat2Z.id, drop_0, firstn_all.
Qed.

Lemma rb_step_spec rb o :
  wf_rb rb -> op_ok (rb_size rb) o ->
  exists rb', rb_step rb o = Ok ((Fifo.step (rb_size rb) (contents rb) o).1, rb') /\
    wf_rb rb' /\ rb_size rb' = rb_size rb /\
    contents rb' = (Fifo.step (rb_size rb) (contents rb) o).2.
Proof.
  intros Hw Ho. pose proof (wf_count rb Hw) as Hcnt.
  assert (Z.of_nat (length (contents rb)) = rb_count rb) as Hlen
    by (rewrite length_contents; lia).
  destruct o as [b|bs| |n|]; cbn [rb_step Fifo.step op_ok] in *; rewrite ?Hlen.
  - rewrite putb_spec by done. unfold ringbuf_full.
    destruct (Z.eqb_spec (rb_count rb) (rb_size rb)); cbn.
    { by exists rb. }
    pose proof (putb_can_push rb Hw ltac:(lia)) as Hp.
    exists (rb_push rb [b]). split_and!; try done;
      [by apply rb_push_wf|by apply rb_push_contents].
  - destruct (putnb_spec rb bs Hw Ho) as (rb' & -> & Hw' & Hs & Hc).
    exists rb'. rewrite Hc. cbn [mbind outcome_bind].
    destruct (Z.ltb_spec (rb_size rb) (rb_count rb + Z.of_nat (length bs))); done.
  - destruct (decide (rb_count rb = 0)) as [Hz|Hz].
    + exists rb. unfold ringbuf_getb. rewrite Hz. cbn.
      destruct (contents rb); [done|cbn in Hlen; lia].
    + destruct (getb_spec rb Hw ltac:(lia)) as [-> Hp].
      exists (rb_pop rb 1). cbn [mbind outcome_bind].
      pose proof (proj1 (rb_pop_contents rb 1 Hw Hp)) as Hd. cbn in Hd.
      destruct (contents rb); [cbn in Hlen; lia|]. cbn.
      split_and!; try done. by apply rb_pop_wf.
  - unfold in_word in Ho. unfold ringbuf_getnb.
    destruct (Z.ltb_spec (rb_count rb) n); cbn.
    { by exists rb. }
    destruct (getnb_loop_spec (Z.to_nat n) rb []) as (rb' & -> & Hw' & Hs & Hc);
      [done|lia|].
    exists rb'. cbn. rewrite mapM_Some. done.
  - exists (ringbuf_reset rb). split; [done|]. destruct Hw.
    split; [|done]. split; cbn; rb_cases; lia.
Qed.

(** C22: The ring buffer refines a bounded FIFO queue: any sequence of byte
    operations, from any reachable representation, runs without fault, gives
    the replies of the abstract queue and leaves a representation of its final
    contents. *)
Theorem ringbuf_refines_fifo os : forall rb,
  wf_rb rb -> Forall (op_ok (rb_size rb)) os ->
  exists rb', rb_run rb os = Ok ((Fifo.run (rb_size rb) (contents rb) os).1, rb') /\
    wf_rb rb' /\ rb_size rb' = rb_size rb /\
    contents rb' = (Fifo.run (rb_size rb) (contents rb) os).2.
Proof.
  induction os as [|o os IH]; intros rb Hw Hall; cbn.
  { by exists rb. }
  apply Forall_cons in Hall as [Ho Hall].
  destruct (rb_step_spec rb o Hw Ho) as (rb1 & -> & Hw1 & Hs1 & Hc1). cbn.
  destruct (IH rb1) as (rb' & -> & Hw' & Hs' & Hc'); [done|by rewrite Hs1|].
  exists rb'. rewrite Hs1, Hc1 in *.
  destruct (Fifo.step (rb_size rb) (contents rb) o) as [r q]. cbn in *.
  destruct (Fifo.run (rb_size rb) q os) as [rs q']. cbn in *.
  split_and!; done || congruence.
Qed.

Lemma movenb_loop_spec : forall k src dst,
  wf_rb src -> wf_rb dst -> Z.of_nat k <= rb_count src ->
  rb_count dst + Z.of_nat k <= rb_size dst ->
  exists src' dst', movenb_loop k src dst = Ok (src', dst') /\
    wf_rb src' /\ wf_rb dst' /\
    contents src' = drop k (contents src) /\
    contents dst' = contents dst ++ take k (contents src).
Proof.
  induction k as [|k IH]; intros src dst Hs Hd Hk Hfit.
  { exists src, dst. cbn. rewrite take_0, app_nil_r, drop_0. done. }
  cbn [movenb_loop]. unfold ringbuf_moveb.
  destruct (Z.eqb_spec (rb_count src) 0); [lia|].
  destruct (Z.eqb_spec (rb_count dst) (rb_size dst)); [lia|]. cbn [orb].
  destruct (getb_spec src Hs ltac:(lia)) as [-> Hp]. cbn [mbind outcome_bind fst snd].
  pose proof (proj1 (rb_pop_contents src 1 Hs Hp)) as Hdrop. cbn in Hdrop.
  pose proof (length_contents src) as Hl.
  destruct (contents src) as [|b q] eqn:Hq; [cbn in Hl; lia|]. cbn [head mbind outcome_bind].
  rewrite putb_spec by done. unfold ringbuf_full.
  destruct (Z.eqb_spec (rb_count dst) (rb_size dst)); [lia|]. cbn [mbind outcome_bind fst snd].
  pose proof (putb_can_push dst Hd ltac:(lia)) as Hp'.
  destruct (IH (rb_pop src 1) (rb_push dst [b])) as (s' & d' & -> & Hs' & Hd' & Hcs & Hcd);
    [by apply rb_pop_wf|by apply rb_push_wf|cbn; lia|cbn; lia|].
  exists s', d'. rewrite Hcs, Hcd, Hdrop, rb_push_contents, <- app_assoc by done.
  split_and!; done.
Qed.

(** [ringbuf_movenb] moves exactly [n] bytes in order from one buffer to
    another when the source holds them and the destination has room for them,
    and otherwise moves nothing. *)
Theorem ringbuf_movenb_correct src dst n :
  wf_rb src -> wf_rb dst -> 0 <= n -> in_word (rb_size dst + n) ->
  let fits := (n <=? rb_count src) && (rb_count dst + n <=? rb_size dst) in
  exists src' dst', ringbuf_movenb src dst n = Ok (fits, src', dst') /\
    wf_rb src' /\ wf_rb dst' /\
    contents src' = (if fits then drop (Z.to_nat n) (contents src) else contents src) /\
    contents dst' =
      (if fits then contents dst ++ take (Z.to_nat n) (contents src)
       else contents dst).
Proof.
  intros Hs Hd Hn Hw fits. unfold in_word in Hw. pose proof (wf_count dst Hd).
  unfold ringbuf_movenb. rewrite wrap_small by auto with kern.
  destruct fits eqn:Hf; subst fits.
  - destruct (_ || _) eqn:E; [lia|].
    destruct (movenb_loop_spec (Z.to_nat n) src dst) as (s' & d' & -> & HH);
      [done|done|lia|lia|].
    exists s', d'. done.
  - destruct (_ || _) eqn:E; [|lia]. exists src, dst. done.
Qed.
End refinement.

Section transfers.
Context `{Arch} `{!CopyRoutines}.
Implicit Types (rb : ringbuf) (u : uio).

(** What a transfer out of the buffer has done: [k] bytes have left the queue;
    without error they are the longest prefix that fits the request, and they
    are now at the addresses of the descriptor. *)
Record read_result (rb : ringbuf) (u : uio) (m : mem)
    (r : Z * ringbuf * uio * mem) (k : Z) : Prop := {
  rr_wf : wf_rb r.1.1.2;
  rr_size : rb_size r.1.1.2 = rb_size rb;
  rr_count : 0 <= k <= rb_count rb;
  rr_contents : contents r.1.1.2 = drop (Z.to_nat k) (contents rb);
  rr_error : r.1.1.1 = 0 \/ r.1.1.1 = EFAULT /\ user_fault u;
  rr_uio : exists j, k <= j /\ uio_moved u r.1.2 j;
  rr_done : r.1.1.1 = 0 ->
    k = Z.min (rb_count rb) (uio_resid u) /\ uio_moved u r.1.2 k /\
    r.2 = write_at m (take (Z.to_nat k) (uio_addrs u)) (take (Z.to_nat k) (contents rb));
}.

Lemma read_result_step rb u m c u1 r k :
  wf_rb rb -> can_pop rb c -> uio_moved u u1 c -> wf_uio u ->
  read_result (rb_pop rb c) u1
    (write_at m (take (Z.to_nat c) (uio_addrs u)) (take (Z.to_nat c) (contents rb))) r k ->
  read_result rb u m r (c + k).
Proof.
  intros Hw Hp M Hwu R. destruct R. destruct Hp as (Hc & Htc).
  destruct (rb_pop_contents rb c Hw ltac:(done)) as [Hd _]. cbn in *.
  pose proof (mv_count _ _ _ M) as Hmc. pose proof (mv_resid _ _ _ M) as Hmr.
  assert (length (contents rb) = Z.to_nat (rb_count rb)) as Hlc
    by apply length_contents.
  assert (Z.to_nat (c + k) = Z.to_nat c + Z.to_nat k)%nat as Hck by lia.
  split; try done || lia.
  - rewrite rr_contents0, Hd, drop_drop. f_equal. lia.
  - destruct rr_error0 as [|[]]; [by left|right]. unfold user_fault. by rewrite <- (mv_vm _ _ _ M).
  - destruct rr_uio0 as (j & Hj & M'). exists (c + j). split; [lia|].
    by eapply uio_moved_trans.
  - intros He. destruct (rr_done0 He) as (Hk & M' & Hm). split_and!.
    + lia.
    + by eapply uio_moved_trans.
    + rewrite Hm, Hd, (mv_addrs _ _ _ M), Hck, <- !take_take_drop, write_at_app; [done|].
      rewrite !length_take. pose proof (wf_resid u Hwu). lia.
Qed.

Lemma read_result_stop rb u m :
  wf_rb rb -> wf_uio u -> (uio_resid u = 0 \/ rb_count rb = 0) ->
  read_result rb u m (0, rb, u, m) 0.
Proof.
  intros Hw Hwu Hz. pose proof (wf_count rb Hw).
  pose proof (wf_resid_word u Hwu) as Hr. unfold in_word in Hr.
  pose proof (uio_moved_refl u Hwu) as M.
  split; cbn; try done || lia.
  - by exists 0.
  - intros _. split; [lia|done].
Qed.

(** How many times the loop test is evaluated. *)
Definition read_passes rb u : nat :=
  if (uio_resid u =? 0) || (rb_count rb =? 0) then 1
  else if rb_tail rb <? rb_head rb then 2 else 3.

Lemma set_data_same rb : set_data rb (rb_data rb) = rb.
Proof. by destruct rb. Qed.

Lemma ringbuf_read_loop_spec fuel : forall rb u m,
  wf_rb rb -> wf_uio u -> uio_op u = UIO_READ -> (read_passes rb u <= fuel)%nat ->
  exists r k, ringbuf_read_loop fuel rb u m = Ok r /\ read_result rb u m r k.
Proof.
  induction fuel as [|fuel IH]; intros rb u m Hw Hwu Hop Hf.
  { exfalso. unfold read_passes in Hf. repeat case_match; lia. }
  cbn [ringbuf_read_loop]. pose proof (wf_count rb Hw) as Hc.
  pose proof (wf_resid_word u Hwu) as Hr. unfold in_word in Hr.
  destruct ((0 <? uio_resid u) && negb (ringbuf_empty rb)) eqn:Hgo;
    unfold ringbuf_empty in Hgo.
  2:{ exists (0, rb, u, m), 0. split; [done|]. apply read_result_stop; [done..|lia]. }
  pose proof (wf_tail rb Hw) as Ht. pose proof (wf_head rb Hw) as Hh.
  pose proof (wf_head_eq rb Hw) as Hhe. pose proof (wf_size rb Hw) as Hs.
  pose proof (wf_data rb Hw) as Hd. pose proof word_size_u32.
  set (a := if rb_tail rb <? rb_head rb then _ else _).
  set (c := if uio_resid u <? a then _ else _).
  assert (a = if rb_tail rb <? rb_head rb then rb_head rb - rb_tail rb
              else rb_size rb - rb_tail rb) as Ha.
  { subst a. destruct (Z.ltb_spec (rb_tail rb) (rb_head rb));
      apply wrap_small; unfold in_word; lia. }
  assert (can_pop rb c /\ 0 < c <= uio_resid u /\
    (c = uio_resid u \/ c = a)) as (Hp & Hcr & Hca).
  { unfold can_pop. subst c. rewrite Ha. rb_cases; lia. }
  destruct (uiomove_loop_spec (uiomove_fuel c u) (rb_data rb) (rb_tail rb) c u m)
    as ([[[res data] u1] m1] & k1 & Hmv & R);
    [done|unfold in_word; lia|unfold in_buf, can_pop in *; lia|unfold uiomove_fuel; lia|].
  unfold uiomove. rewrite Hmv. cbn [mbind outcome_bind]. destruct R as [M Hk1 Hl1 Herr Hdone _ Hfr Hbf Hrb Hwm]; cbn in *.
  destruct Herr as [->|[-> Hvm]]; cbn [Z.eqb negb].
  - destruct (Hdone eq_refl) as [Hk D]. assert (k1 = c) as -> by lia.
    unfold moved_data in D. rewrite Hop in D. destruct D as [-> ->].
    rewrite set_data_same, consume_pop by done. cbn [mbind outcome_bind].
    destruct (rb_pop_contents rb c Hw Hp) as [_ Hsl]. rewrite Hsl.
    destruct (IH (rb_pop rb c) u1 (write_at m (take (Z.to_nat c) (uio_addrs u))
      (take (Z.to_nat c) (contents rb)))) as (r & k & Hrun & R').
    + by apply rb_pop_wf.
    + apply M.
    + by rewrite (mv_op _ _ _ M).
    + pose proof (mv_resid _ _ _ M) as Hres. cbn in Hres.
      unfold read_passes in *. rewrite Hres. cbn.
      destruct Hp. rb_cases; repeat case_match; lia.
    + exists r, (c + k). split; [done|]. by eapply read_result_step.
  - rewrite (Hrb Hop), set_data_same.
    exists (EFAULT, rb, u1, m1), 0. split; [done|].
    split; cbn; try done || lia.
    + by right.
    + exists k1. split; [|done]. apply (mv_count _ _ _ M).
Qed.

Record write_result (rb : ringbuf) (u : uio) (m : mem)
    (r : Z * ringbuf * uio * mem) (k : Z) : Prop := {
  wr_wf : wf_rb r.1.1.2;
  wr_size : rb_size r.1.1.2 = rb_size rb;
  wr_count : 0 <= k <= rb_size rb - rb_count rb;
  wr_moved : k <= uio_resid u;
  wr_contents : contents r.1.1.2 =
    contents rb ++ read_at m (take (Z.to_nat k) (uio_addrs u));
  wr_mem : r.2 = m;
  wr_error : r.1.1.1 = 0 \/ r.1.1.1 = EFAULT /\ user_fault u;
  wr_uio : exists j, k <= j /\ uio_moved u r.1.2 j;
  wr_done : r.1.1.1 = 0 ->
    k = Z.min (rb_size rb - rb_count rb) (uio_resid u) /\ uio_moved u r.1.2 k;
}.

Lemma write_result_step rb u m c u1 r k :
  wf_rb rb -> can_push rb c -> uio_moved u u1 c -> wf_uio u ->
  write_result (rb_push rb (read_at m (take (Z.to_nat c) (uio_addrs u)))) u1 m r k ->
  write_result rb u m r (c + k).
Proof.
  intros Hw (Hc & Hp & Hph) M Hwu R.
  pose proof (mv_count _ _ _ M) as Hmc. pose proof (mv_resid _ _ _ M) as Hmr.
  assert (Z.of_nat (length (read_at m (take (Z.to_nat c) (uio_addrs u)))) = c) as Hlen.
  { unfold read_at. rewrite length_fmap, length_take. pose proof (wf_resid u Hwu). lia. }
  destruct R as [Hw' Hs' Hk' Hkr Hcon Hm He Hu Hd]. cbn in *. rewrite Hlen in *.
  split; try done || lia.
  - rewrite Hcon, rb_push_contents, <- app_assoc by (done || by rewrite Hlen).
    f_equal. rewrite (mv_addrs _ _ _ M). unfold read_at. rewrite <- fmap_app.
    rewrite take_take_drop. do 2 f_equal. lia.
  - destruct He as [|[]]; [by left|right]. unfold user_fault. by rewrite <- (mv_vm _ _ _ M).
  - destruct Hu as (j & Hj & M'). exists (c + j). split; [lia|].
    by eapply uio_moved_trans.
  - intros E. destruct (Hd E) as [Hk M']. split; [lia|]. by eapply uio_moved_trans.
Qed.

Lemma write_result_stop rb u m :
  wf_rb rb -> wf_uio u -> (uio_resid u = 0 \/ rb_count rb = rb_size rb) ->
  write_result rb u m (0, rb, u, m) 0.
Proof.
  intros Hw Hwu Hz. pose proof (wf_count rb Hw).
  pose proof (wf_resid_word u Hwu) as Hr. unfold in_word in Hr.
  pose proof (uio_moved_refl u Hwu) as M.
  split; cbn; try done || lia.
  - by rewrite app_nil_r.
  - by exists 0.
  - intros _. split; [lia|done].
Qed.

(** Bytes written into free space, without moving the head, are not visible. *)
Lemma set_data_contents rb data c :
  wf_rb rb -> can_push rb c -> length data = length (rb_data rb) ->
  (forall j, 0 <= j -> j < rb_head rb \/ rb_head rb + c <= j ->
     data !!! Z.to_nat j = rb_data rb !!! Z.to_nat j) ->
  wf_rb (set_data rb data) /\ contents (set_data rb data) = contents rb.
Proof.
  intros [Hs Hd Ht Hh Hc] (Hc0 & Hck & Hhk) Hl Hsame.
  split; [split; cbn; try done; lia|].
  unfold contents. apply list_fmap_ext. intros i x Hx.
  apply lookup_seqZ in Hx as [-> Hi]. cbn [set_data rb_count rb_data] in *.
  apply Hsame; unfold rb_index; cbn; rb_cases; lia.
Qed.

Definition write_passes rb u : nat :=
  if (uio_resid u =? 0) || (rb_count rb =? rb_size rb) then 1
  else if rb_head rb <? rb_tail rb then 2 else 3.

Lemma ringbuf_write_loop_spec fuel : forall rb u m,
  wf_rb rb -> wf_uio u -> uio_op u = UIO_WRITE -> (write_passes rb u <= fuel)%nat ->
  exists r k, ringbuf_write_loop fuel rb u m = Ok r /\ write_result rb u m r k.
Proof.
  induction fuel as [|fuel IH]; intros rb u m Hw Hwu Hop Hf.
  { exfalso. unfold write_passes in Hf. repeat case_match; lia. }
  cbn [ringbuf_write_loop]. pose proof (wf_count rb Hw) as Hc.
  pose proof (wf_resid_word u Hwu) as Hr. unfold in_word in Hr.
  destruct ((0 <? uio_resid u) && negb (ringbuf_full rb)) eqn:Hgo;
    unfold ringbuf_full in Hgo.
  2:{ exists (0, rb, u, m), 0. split; [done|]. apply write_result_stop; [done..|lia]. }
  pose proof (wf_tail rb Hw) as Ht. pose proof (wf_head rb Hw) as Hh.
  pose proof (wf_head_eq rb Hw) as Hhe. pose proof (wf_size rb Hw) as Hs.
  pose proof (wf_data rb Hw) as Hd. pose proof word_size_u32.
  set (a := if rb_head rb <? rb_tail rb then _ else _).
  set (c := if uio_resid u <? a then _ else _).
  assert (a = if rb_head rb <? rb_tail rb then rb_tail rb - rb_head rb
              else rb_size rb - rb_head rb) as Ha.
  { subst a. destruct (Z.ltb_spec (rb_head rb) (rb_tail rb));
      apply wrap_small; unfold in_word; lia. }
  assert (can_push rb c /\ 0 < c <= uio_resid u /\
    (c = uio_resid u \/ c = a)) as (Hp & Hcr & Hca).
  { unfold can_push. subst c. rewrite Ha. rb_cases; lia. }
  destruct (uiomove_loop_spec (uiomove_fuel c u) (rb_data rb) (rb_head rb) c u m)
    as ([[[res data] u1] m1] & k1 & Hmv & R);
    [done|unfold in_word; lia|unfold in_buf, can_push in *; lia|unfold uiomove_fuel; lia|].
  unfold uiomove. rewrite Hmv. cbn [mbind outcome_bind].
  destruct R as [M Hk1 Hl1 Herr Hdone _ Hfr Hbf Hrb Hwm]; cbn in *.
  specialize (Hwm Hop) as ->.
  destruct Herr as [->|[-> Hvm]]; cbn [Z.eqb negb].
  - destruct (Hdone eq_refl) as [Hk D]. assert (k1 = c) as -> by lia.
    unfold moved_data in D. rewrite Hop in D. destruct D as [_ ->].
    set (bs := read_at m (take (Z.to_nat c) (uio_addrs u))).
    assert (Z.of_nat (length bs) = c) as Hlen.
    { unfold bs, read_at. rewrite length_fmap, length_take.
      pose proof (wf_resid u Hwu). lia. }
    pose proof (produce_push rb bs Hw ltac:(by rewrite Hlen)) as Hpp.
    rewrite Hlen in Hpp. rewrite Hpp. cbn [mbind outcome_bind].
    destruct (IH (rb_push rb bs) u1 m) as (r & k & Hrun & R').
    + apply rb_push_wf; [done|by rewrite Hlen].
    + apply M.
    + by rewrite (mv_op _ _ _ M).
    + pose proof (mv_resid _ _ _ M) as Hres. cbn in Hres.
      unfold write_passes in *. rewrite Hres. cbn. rewrite Hlen.
      destruct Hp. rb_cases; repeat case_match; lia.
    + exists r, (c + k). split; [done|]. by eapply write_result_step.
  - destruct (set_data_contents rb data c) as [Hw1 Hc1]; [done..|].
    exists (EFAULT, set_data rb data, u1, m), 0. split; [done|].
    pose proof (mv_count _ _ _ M).
    split; cbn; try done || lia.
    + by rewrite app_nil_r.
    + by right.
    + exists k1. split; [lia|done].
Qed.

Lemma read_passes_bound rb u : (read_passes rb u <= ringbuf_fuel)%nat.
Proof. unfold read_passes, ringbuf_fuel. repeat case_match; lia. Qed.

Lemma write_passes_bound rb u : (write_passes rb u <= ringbuf_fuel)%nat.
Proof. unfold write_passes, ringbuf_fuel. repeat case_match; lia. Qed.

Lemma ringbuf_read_spec rb u m :
  wf_rb rb -> wf_uio u -> uio_op u = UIO_READ ->
  exists r k, ringbuf_read rb u m = Ok r /\ read_result rb u m r k.
Proof.
  intros Hw Hwu Hop. unfold ringbuf_read. rewrite Hop. cbn [assert mbind outcome_bind].
  apply ringbuf_read_loop_spec; try done. apply read_passes_bound.
Qed.

Lemma ringbuf_write_spec rb u m :
  wf_rb rb -> wf_uio u -> uio_op u = UIO_WRITE ->
  exists r k, ringbuf_write rb u m = Ok r /\ write_result rb u m r k.
Proof.
  intros Hw Hwu Hop. unfold ringbuf_write. rewrite Hop. cbn [assert mbind outcome_bind].
  apply ringbuf_write_loop_spec; try done. apply write_passes_bound.
Qed.

(** [ringbuf_read] returns after at most two copies and takes
    [min count resid] bytes off the front of the queue, delivering them in order
    at the addresses of the descriptor; on [EFAULT] it has removed only bytes it
    had delivered. *)
Theorem ringbuf_read_correct rb u m :
  wf_rb rb -> wf_uio u -> uio_op u = UIO_READ ->
  exists r k, ringbuf_read rb u m = Ok r /\ read_result rb u m r k.
Proof.
  apply ringbuf_read_spec.
Qed.

(** [ringbuf_write] returns after at most two copies and appends to the
    queue the first [min (size - count) resid] bytes the descriptor points to;
    on [EFAULT] bytes copied but not accounted for are invisible to readers. *)
Theorem ringbuf_write_correct rb u m :
  wf_rb rb -> wf_uio u -> uio_op u = UIO_WRITE ->
  exists r k, ringbuf_write rb u m = Ok r /\ write_result rb u m r k.
Proof.
  apply ringbuf_write_spec.
Qed.
End transfers.

(** ** Concrete instances *)

(** Four bytes in an array of five, wrapped around its end. *)
Definition sample_rb : ringbuf := Ringbuf 2 3 4 5 [13; 14; 0; 11; 12].

Lemma sample_rb_wf : wf_rb sample_rb.
Proof. split; try (vm_compute; done); cbn; lia. Qed.

Lemma ringbuf_refines_fifo_witness :
  exists rb', rb_run (H := mips) sample_rb [Fifo.Putb 15; Fifo.Putb 16; Fifo.Getnb 3]
    = Ok ([Fifo.Done true; Fifo.Done false; Fifo.Bytes (Some [11; 12; 13])], rb') /\
    contents rb' = [14; 15].
Proof.
  destruct (ringbuf_refines_fifo (H := mips)
    [Fifo.Putb 15; Fifo.Putb 16; Fifo.Getnb 3] sample_rb) as (rb' & Hr & _ & _ & Hc).
  - apply sample_rb_wf.
  - repeat constructor; unfold in_word; cbn; lia.
  - exists rb'. split; [exact Hr|exact Hc].
Defined.

Lemma ringbuf_movenb_correct_witness :
  exists src' dst', ringbuf_movenb (H := mips) sample_rb (ringbuf_init [0; 0; 0] 3) 2
      = Ok (true, src', dst') /\
    contents src' = [13; 14] /\ contents dst' = [11; 12].
Proof.
  destruct (ringbuf_movenb_correct (H := mips) sample_rb (ringbuf_init [0; 0; 0] 3) 2)
    as (src' & dst' & Hr & _ & _ & Hs & Hd).
  - apply sample_rb_wf.
  - split; try (vm_compute; done); cbn; lia.
  - lia.
  - unfold in_word. cbn. lia.
  - exists src', dst'. split; [exact Hr|split; [exact Hs|exact Hd]].
Defined.

Lemma ringbuf_read_correct_witness : exists r k,
  ringbuf_read (H := mips) (H0 := total_copy (H := mips)) sample_rb sample_uio (fun _ => 0) = Ok r /\
  read_result (H := mips) (H0 := total_copy (H := mips)) sample_rb sample_uio (fun _ => 0) r k.
Proof.
  apply ringbuf_read_correct; [apply sample_rb_wf|apply sample_uio_wf|reflexivity].
Defined.

(** A write of three bytes found at address 4096. *)
Definition sample_write_uio : uio := UIO_SINGLE UIO_WRITE VmUser 0 4096 3.

Lemma sample_write_uio_wf : wf_uio (H := mips) sample_write_uio.
Proof.
  split; cbn; try done || lia.
  - repeat constructor; unfold in_word; cbn; lia.
  - intros i [= <-]. cbn. lia.
Qed.

Lemma ringbuf_write_correct_witness : exists r k,
  ringbuf_write (H := mips) (H0 := total_copy (H := mips)) sample_rb sample_write_uio (fun a => a) = Ok r /\
  write_result (H := mips) (H0 := total_copy (H := mips)) sample_rb sample_write_uio (fun a => a) r k.
Proof.
  apply ringbuf_write_correct; [apply sample_rb_wf|apply sample_write_uio_wf|reflexivity].
Defined.
