(* ===== verification/Cred.v ===== *)
(** * Credentials and access checks

    sys/kern/cred.c, sys/kern/cred_syscalls.c, sys/kern/cred_checks.c and
    include/sys/cred.h: user and group identities of a process, the system
    calls that change them, and the permission checks of the file system and of
    signal delivery.  [p_lock] is not modelled: each routine runs under it. *)

From S2P Require Import Prelude.

(** [(uid_t)-1] and [(gid_t)-1]: leave the identity as it is. *)
Definition NO_ID : Z := 2 ^ 32 - 1.

Record cred := Cred {
  cr_euid : Z;         (* effective user id *)
  cr_ruid : Z;         (* real user id *)
  cr_suid : Z;         (* saved user id *)
  cr_egid : Z;         (* effective group id *)
  cr_rgid : Z;         (* real group id *)
  cr_sgid : Z;         (* saved group id *)
  cr_ngroups : Z;      (* number of groups *)
  cr_groups : list Z;  (* groups, an array of NGROUPS_MAX *)
}.

Definition NGROUPS_MAX : Z := 16.

(** The part of [proc_t] these routines use; [p_session] identifies
    [p_pgrp->pg_session]. *)
Record proc := Proc {
  p_pid : Z;
  p_cred : cred;
  p_session : Z;
}.

Definition set_cred (p : proc) (c : cred) : proc := Proc (p_pid p) c (p_session p).

Definition set_uids (c : cred) (ruid euid suid : Z) : cred :=
  Cred euid ruid suid (cr_egid c) (cr_rgid c) (cr_sgid c) (cr_ngroups c) (cr_groups c).

Definition set_gids (c : cred) (rgid egid sgid : Z) : cred :=
  Cred (cr_euid c) (cr_ruid c) (cr_suid c) egid rgid sgid (cr_ngroups c) (cr_groups c).

(** ** sys/kern/cred.c *)

Definition cred_fork (to from : proc) : proc := set_cred to (p_cred from).

Definition cred_exec_setid (p : proc) (uid gid : Z) : proc :=
  let c := p_cred p in
  let c := if negb (uid =? NO_ID) then set_uids c (cr_ruid c) uid (cr_euid c) else c in
  let c := if negb (gid =? NO_ID) then set_gids c (cr_rgid c) gid (cr_egid c) else c in
  set_cred p c.

Definition cred_groupmember (gid : Z) (c : cred) : bool :=
  existsb (Z.eqb gid) (take (Z.to_nat (cr_ngroups c)) (cr_groups c)).

(** ** sys/kern/cred_syscalls.c *)

(** The flags say which result pointers are not [NULL]. *)
Definition do_getresuid (p : proc) (r e s : bool) : option Z * option Z * option Z :=
  let cr := p_cred p in
  (if r then Some (cr_ruid cr) else None,
   if e then Some (cr_euid cr) else None,
   if s then Some (cr_suid cr) else None).

Definition do_getresgid (p : proc) (r e s : bool) : option Z * option Z * option Z :=
  let cr := p_cred p in
  (if r then Some (cr_rgid cr) else None,
   if e then Some (cr_egid cr) else None,
   if s then Some (cr_sgid cr) else None).

(** The result is the error and the value left in [*uidp]. *)
Definition try_change_uid (c : cred) (cur uid : Z) : Z * Z :=
  if uid =? NO_ID then (0, cur)
  else if negb (cr_euid c =? 0) &&
          (negb (uid =? cr_ruid c) && negb (uid =? cr_euid c) && negb (uid =? cr_suid c))
  then (EPERM, cur)
  else (0, uid).

Definition change_resuid (c : cred) (ruid euid suid : Z) : Z * cred :=
  let '(error, new_ruid) := try_change_uid c (cr_ruid c) ruid in
  if negb (error =? 0) then (error, c) else
  let '(error, new_euid) := try_change_uid c (cr_euid c) euid in
  if negb (error =? 0) then (error, c) else
  let '(error, new_suid) := try_change_uid c (cr_suid c) suid in
  if negb (error =? 0) then (error, c) else
  (error, set_uids c new_ruid new_euid new_suid).

Definition do_setresuid (p : proc) (ruid euid suid : Z) : Z * proc :=
  let '(error, c) := change_resuid (p_cred p) ruid euid suid in
  (error, set_cred p c).

Definition try_change_gid (c : cred) (cur gid : Z) : Z * Z :=
  if gid =? NO_ID then (0, cur)
  else if negb (cr_euid c =? 0) &&
          (negb (gid =? cr_rgid c) && negb (gid =? cr_egid c) && negb (gid =? cr_sgid c))
  then (EPERM, cur)
  else (0, gid).

Definition change_resgid (c : cred) (rgid egid sgid : Z) : Z * cred :=
  let '(error, new_rgid) := try_change_gid c (cr_rgid c) rgid in
  if negb (error =? 0) then (error, c) else
  let '(error, new_egid) := try_change_gid c (cr_egid c) egid in
  if negb (error =? 0) then (error, c) else
  let '(error, new_sgid) := try_change_gid c (cr_sgid c) sgid in
  if negb (error =? 0) then (error, c) else
  (error, set_gids c new_rgid new_egid new_sgid).

Definition do_setresgid (p : proc) (rgid egid sgid : Z) : Z * proc :=
  let '(error, c) := change_resgid (p_cred p) rgid egid sgid in
  (error, set_cred p c).

(** The caller ([sys_setgroups]) has checked [0 <= ngroups <= NGROUPS_MAX];
    [cr_ngroups] is an [uint8_t], and [memcpy] stays in the array only then. *)
Definition do_setgroups (p : proc) (ngroups : Z) (gidset : list Z) : outcome (Z * proc) :=
  let c := p_cred p in
  if negb (cr_euid c =? 0) then Ok (EPERM, p)
  else if (ngroups <? 0) || (Z.of_nat (length (cr_groups c)) <? ngroups) ||
          (Z.of_nat (length gidset) <? ngroups) then Fault BadAccess
  else
    let n := Z.to_nat ngroups in
    Ok (0, set_cred p (Cred (cr_euid c) (cr_ruid c) (cr_suid c) (cr_egid c)
             (cr_rgid c) (cr_sgid c) (uwrap 8 ngroups)
             (take n gidset ++ drop n (cr_groups c)))).

Definition do_setuid (p : proc) (uid : Z) : Z * proc :=
  let '(ruid, suid) :=
    if negb (cr_euid (p_cred p) =? 0) then (NO_ID, NO_ID) else (uid, uid) in
  let '(error, c) := change_resuid (p_cred p) ruid uid suid in
  (error, set_cred p c).

Definition do_seteuid (p : proc) (euid : Z) : Z * proc :=
  let '(error, c) := change_resuid (p_cred p) NO_ID euid NO_ID in
  (error, set_cred p c).

Definition do_setreuid (p : proc) (ruid euid : Z) : Z * proc :=
  let cur_euid := cr_euid (p_cred p) in
  let cur_ruid := cr_ruid (p_cred p) in
  let cur_suid := cr_suid (p_cred p) in
  if negb (cur_euid =? 0) && negb (ruid =? NO_ID) && negb (ruid =? cur_euid)
  then (EPERM, p)
  else
    let new_suid := if euid =? NO_ID then cur_euid else euid in
    let new_suid :=
      if (ruid =? NO_ID) && ((euid =? cur_ruid) || (euid =? cur_euid) ||
                             (euid =? cur_suid) || (euid =? NO_ID))
      then NO_ID else new_suid in
    let '(error, c) := change_resuid (p_cred p) ruid euid new_suid in
    (error, set_cred p c).

Definition do_setgid (p : proc) (gid : Z) : Z * proc :=
  let '(rgid, sgid) :=
    if negb (cr_euid (p_cred p) =? 0) then (NO_ID, NO_ID) else (gid, gid) in
  let '(error, c) := change_resgid (p_cred p) rgid gid sgid in
  (error, set_cred p c).

Definition do_setegid (p : proc) (egid : Z) : Z * proc :=
  let '(error, c) := change_resgid (p_cred p) NO_ID egid NO_ID in
  (error, set_cred p c).

Definition do_setregid (p : proc) (rgid egid : Z) : Z * proc :=
  let cur_euid := cr_euid (p_cred p) in
  let cur_egid := cr_egid (p_cred p) in
  let cur_rgid := cr_rgid (p_cred p) in
  let cur_sgid := cr_sgid (p_cred p) in
  if negb (cur_euid =? 0) && negb (rgid =? NO_ID) && negb (rgid =? cur_egid)
  then (EPERM, p)
  else
    let new_sgid := if egid =? NO_ID then cur_egid else egid in
    let new_sgid :=
      if (rgid =? NO_ID) && ((egid =? cur_rgid) || (egid =? cur_egid) ||
                             (egid =? cur_sgid) || (egid =? NO_ID))
      then NO_ID else new_sgid in
    let '(error, c) := change_resgid (p_cred p) rgid egid new_sgid in
    (error, set_cred p c).

(** ** sys/kern/cred_checks.c *)

Definition cred_cansignal (target : proc) (c : cred) : Z :=
  if cr_euid c =? 0 then 0
  else if negb (cr_ruid c =? cr_ruid (p_cred target)) &&
          negb (cr_ruid c =? cr_suid (p_cred target)) &&
          negb (cr_euid c =? cr_ruid (p_cred target)) &&
          negb (cr_euid c =? cr_suid (p_cred target))
  then EPERM else 0.

Definition SIGCONT : Z := 19.

Definition proc_cansignal (self target : proc) (sig : Z) : Z :=
  if p_pid target =? p_pid self then 0
  else if (sig =? SIGCONT) && (p_session self =? p_session target) then 0
  else cred_cansignal target (p_cred self).

(** include/sys/stat.h *)
Definition S_ISGID : Z := 0x400.
Definition S_IRUSR : Z := 0x100.
Definition S_IWUSR : Z := 0x80.
Definition S_IXUSR : Z := 0x40.
Definition S_IRGRP : Z := 0x20.
Definition S_IWGRP : Z := 0x10.
Definition S_IXGRP : Z := 0x8.
Definition S_IROTH : Z := 0x4.
Definition S_IWOTH : Z := 0x2.
Definition S_IXOTH : Z := 0x1.
Definition S_IFMT : Z := 0xf000.
Definition S_IFDIR : Z := 0x4000.
Definition S_ISDIR (m : Z) : bool := Z.land m S_IFMT =? S_IFDIR.

Definition cred_can_chmod (f_owner f_group : Z) (c : cred) (mode : Z) : bool :=
  if cr_euid c =? 0 then true
  else if negb (f_owner =? cr_euid c) then false
  else if negb (Z.land mode S_ISGID =? 0) && negb (f_group =? cr_egid c) &&
          negb (cred_groupmember f_group c)
  then false
  else true.

Definition cred_can_chown (f_owner : Z) (c : cred) (new_uid new_gid : Z) : bool :=
  if cr_euid c =? 0 then true
  else if negb (new_uid =? NO_ID) then false
  else if negb (f_owner =? cr_euid c) then false
  else cred_groupmember new_gid c.

Definition cred_can_setlogin (c : cred) : bool := cr_euid c =? 0.

(** include/sys/vnode.h: [accmode_t] *)
Definition VEXEC : Z := 1.
Definition VWRITE : Z := 2.
Definition VREAD : Z := 4.
Definition VADMIN : Z := 8.

(** The fields of [vattr_t] the check reads. *)
Record vattr := Vattr {
  va_mode : Z;
  va_uid : Z;
  va_gid : Z;
}.

Definition has (m b : Z) : bool := negb (Z.land m b =? 0).

(** [granted |= bit] under a condition. *)
Definition grant (granted : Z) (cond : bool) (bit : Z) : Z :=
  if cond then Z.lor granted bit else granted.

Definition cred_can_access (va : vattr) (c : cred) (mode : Z) : Z :=
  let m := va_mode va in
  let granted :=
    if cr_euid c =? 0 then
      let granted := Z.lor (Z.lor (Z.lor 0 VREAD) VWRITE) VADMIN in
      grant granted
        (S_ISDIR m || has m (Z.lor (Z.lor S_IXUSR S_IXGRP) S_IXOTH)) VEXEC
    else if cr_euid c =? va_uid va then
      let granted := Z.lor 0 VADMIN in
      let granted := grant granted (has m S_IRUSR) VREAD in
      let granted := grant granted (has m S_IWUSR) VWRITE in
      grant granted (has m S_IXUSR) VEXEC
    else if cred_groupmember (va_gid va) c then
      let granted := grant 0 (has m S_IRGRP) VREAD in
      let granted := grant granted (has m S_IWGRP) VWRITE in
      grant granted (has m S_IXGRP) VEXEC
    else
      let granted := grant 0 (has m S_IROTH) VREAD in
      let granted := grant granted (has m S_IWOTH) VWRITE in
      grant granted (has m S_IXOTH) VEXEC in
  if Z.land mode granted =? mode then 0 else EACCES.

Definition VA_UTIMES_NULL : Z := 1.

(** [VOP_ACCESS] of the vnode is a parameter. *)
Definition cred_can_utime (VOP_ACCESS : Z -> cred -> Z) (f_owner : Z) (c : cred)
    (vaflags : Z) : bool :=
  if (f_owner =? cr_euid c) || (cr_euid c =? 0) then true
  else if Z.land vaflags VA_UTIMES_NULL =? 0 then false
  else VOP_ACCESS VWRITE c =? 0.

(** ** Changing identities *)

Definition uids (c : cred) : list Z := [cr_ruid c; cr_euid c; cr_suid c].
Definition gids (c : cred) : list Z := [cr_rgid c; cr_egid c; cr_sgid c].

(** An id a call may set: none, anything for root, or one of the process's own. *)
Definition id_allowed (c : cred) (ids : list Z) (id : Z) : bool :=
  (id =? NO_ID) || (cr_euid c =? 0) || existsb (Z.eqb id) ids.

(** The id after a permitted call. *)
Definition id_or (id cur : Z) : Z := if id =? NO_ID then cur else id.

Lemma try_change_uid_spec c cur uid :
  try_change_uid c cur uid =
    if id_allowed c (uids c) uid then (0, id_or uid cur) else (EPERM, cur).
Proof.
  unfold try_change_uid, id_allowed, id_or, uids; cbn [existsb].
  destruct (uid =? NO_ID), (cr_euid c =? 0), (uid =? cr_ruid c),
    (uid =? cr_euid c), (uid =? cr_suid c); reflexivity.
Qed.

Lemma try_change_gid_spec c cur gid :
  try_change_gid c cur gid =
    if id_allowed c (gids c) gid then (0, id_or gid cur) else (EPERM, cur).
Proof.
  unfold try_change_gid, id_allowed, id_or, gids; cbn [existsb].
  destruct (gid =? NO_ID), (cr_euid c =? 0), (gid =? cr_rgid c),
    (gid =? cr_egid c), (gid =? cr_sgid c); reflexivity.
Qed.

Lemma change_resuid_spec c ruid euid suid :
  change_resuid c ruid euid suid =
    if id_allowed c (uids c) ruid && id_allowed c (uids c) euid &&
       id_allowed c (uids c) suid
    then (0, set_uids c (id_or ruid (cr_ruid c)) (id_or euid (cr_euid c))
               (id_or suid (cr_suid c)))
    else (EPERM, c).
Proof.
  unfold change_resuid. rewrite !try_change_uid_spec.
  destruct (id_allowed c (uids c) ruid), (id_allowed c (uids c) euid),
    (id_allowed c (uids c) suid); reflexivity.
Qed.

Lemma change_resgid_spec c rgid egid sgid :
  change_resgid c rgid egid sgid =
    if id_allowed c (gids c) rgid && id_allowed c (gids c) egid &&
       id_allowed c (gids c) sgid
    then (0, set_gids c (id_or rgid (cr_rgid c)) (id_or egid (cr_egid c))
               (id_or sgid (cr_sgid c)))
    else (EPERM, c).
Proof.
  unfold change_resgid. rewrite !try_change_gid_spec.
  destruct (id_allowed c (gids c) rgid), (id_allowed c (gids c) egid),
    (id_allowed c (gids c) sgid); reflexivity.
Qed.

(** The identity-changing system calls. *)
Inductive id_call :=
| SetResUid (ruid euid suid : Z)
| SetUid (uid : Z)
| SetEUid (euid : Z)
| SetReUid (ruid euid : Z)
| SetResGid (rgid egid sgid : Z)
| SetGid (gid : Z)
| SetEGid (egid : Z)
| SetReGid (rgid egid : Z)
| SetGroups (ngroups : Z) (gidset : list Z).

Definition do_call (p : proc) (call : id_call) : outcome (Z * proc) :=
  match call with
  | SetResUid r e s => Ok (do_setresuid p r e s)
  | SetUid u => Ok (do_setuid p u)
  | SetEUid e => Ok (do_seteuid p e)
  | SetReUid r e => Ok (do_setreuid p r e)
  | SetResGid r e s => Ok (do_setresgid p r e s)
  | SetGid g => Ok (do_setgid p g)
  | SetEGid e => Ok (do_setegid p e)
  | SetReGid r e => Ok (do_setregid p r e)
  | SetGroups n l => do_setgroups p n l
  end.

Fixpoint do_calls (p : proc) (calls : list id_call) : outcome proc :=
  match calls with
  | [] => Ok p
  | call :: calls => r ← do_call p call; do_calls r.2 calls
  end.

(** [c'] has no identity that [c] lacks. *)
Definition confined (c c' : cred) : Prop :=
  uids c' ⊆ uids c /\ gids c' ⊆ gids c /\
  cr_ngroups c' = cr_ngroups c /\ cr_groups c' = cr_groups c.

#[export] Instance confined_preorder : PreOrder confined.
Proof.
  split.
  - intros c. done.
  - intros c1 c2 c3 (? & ? & ? & ?) (? & ? & ? & ?). unfold confined.
    split_and!; [by etrans|by etrans|congruence|congruence].
Qed.

Lemma id_or_subset c ids id cur :
  cr_euid c <> 0 -> id_allowed c ids id = true -> cur ∈ ids -> id_or id cur ∈ ids.
Proof.
  intros Hroot Hal Hcur. unfold id_allowed, id_or in *.
  destruct (id =? NO_ID); [done|].
  destruct (Z.eqb_spec (cr_euid c) 0); [done|]. cbn in Hal.
  apply existsb_exists in Hal as (x & Hx & E). apply Z.eqb_eq in E as ->.
  by apply list_elem_of_In.
Qed.

Lemma uids_subset c r e s :
  r ∈ uids c -> e ∈ uids c -> s ∈ uids c -> confined c (set_uids c r e s).
Proof. intros Hr He Hs. unfold confined; split_and!; try done. set_solver. Qed.

Lemma gids_subset c r e s :
  r ∈ gids c -> e ∈ gids c -> s ∈ gids c -> confined c (set_gids c r e s).
Proof. intros Hr He Hs. unfold confined; split_and!; try done. set_solver. Qed.

Lemma change_resuid_confined c r e s :
  cr_euid c <> 0 -> confined c (change_resuid c r e s).2.
Proof.
  intros Hroot. rewrite change_resuid_spec. destruct (_ && _ && _) eqn:E; [|reflexivity].
  apply andb_true_iff in E as [E Hs]. apply andb_true_iff in E as [Hr He].
  apply uids_subset; eapply id_or_subset; try done; unfold uids; set_solver.
Qed.

Lemma change_resgid_confined c r e s :
  cr_euid c <> 0 -> confined c (change_resgid c r e s).2.
Proof.
  intros Hroot. rewrite change_resgid_spec. destruct (_ && _ && _) eqn:E; [|reflexivity].
  apply andb_true_iff in E as [E Hs]. apply andb_true_iff in E as [Hr He].
  apply gids_subset; eapply id_or_subset; try done; unfold gids; set_solver.
Qed.

(** Every call is a permission check in front of [change_resuid] or
    [change_resgid], or is refused to an unprivileged process. *)
Lemma do_call_confined p call :
  cr_euid (p_cred p) <> 0 ->
  exists r, do_call p call = Ok r /\ confined (p_cred p) (p_cred r.2).
Proof.
  intros Hroot. destruct call; cbn [do_call];
    unfold do_setresuid, do_setuid, do_seteuid, do_setreuid, do_setresgid, do_setgid,
      do_setegid, do_setregid, do_setgroups;
    (destruct (Z.eqb_spec (cr_euid (p_cred p)) 0); [done|]); cbn [negb andb];
    repeat match goal with
    | |- context [change_resuid ?c ?r ?e ?s] =>
        pose proof (change_resuid_confined c r e s Hroot); destruct (change_resuid c r e s)
    | |- context [change_resgid ?c ?r ?e ?s] =>
        pose proof (change_resgid_confined c r e s Hroot); destruct (change_resgid c r e s)
    | |- context [if ?b then (EPERM, p) else _] => destruct b
    end; eexists; (split; [reflexivity|]); cbn in *; done || reflexivity.
Qed.

(** C21: An unprivileged process cannot gain an identity: whatever sequence of
    identity-changing calls it makes, when 0 is none of its user ids then all its
    user ids, group ids and supplementary groups stay among those it started
    with (so it never becomes root), and no call faults. *)
Theorem unprivileged_confined calls : forall p,
  0 ∉ uids (p_cred p) ->
  exists p', do_calls p calls = Ok p' /\ confined (p_cred p) (p_cred p').
Proof.
  induction calls as [|call calls IH]; intros p H0; cbn.
  { exists p. done. }
  destruct (do_call_confined p call) as ([e p1] & -> & Hc).
  { intros E. apply H0. unfold uids. rewrite E. set_solver. }
  cbn. destruct (IH p1) as (p' & -> & Hc').
  { destruct Hc as (Hu & _). cbn in Hu. set_solver. }
  exists p'. split; [done|]. by etrans.
Qed.

(** The exact contract of [setreuid]: it succeeds when the caller is root
    or sets its real id only to its effective id and its effective id to one of
    its own ids; the saved id follows the new effective id exactly when the real
    id is set or the effective id changes to a foreign value; a refused call
    changes nothing. *)
Theorem do_setreuid_correct p ruid euid :
  let c := p_cred p in
  let euid' := id_or euid (cr_euid c) in
  NO_ID ∉ uids c ->
  do_setreuid p ruid euid =
    if (cr_euid c =? 0) ||
       (((ruid =? NO_ID) || (ruid =? cr_euid c)) && id_allowed c (uids c) euid)
    then (0, set_cred p (set_uids c (id_or ruid (cr_ruid c)) euid'
               (if negb (ruid =? NO_ID) ||
                   negb ((euid =? NO_ID) || existsb (Z.eqb euid) (uids c))
                then euid' else cr_suid c)))
    else (EPERM, p).
Proof.
  destruct p as [pid c ses]. cbn [p_cred]. intros Hno.
  assert (NO_ID <> cr_ruid c /\ NO_ID <> cr_euid c /\ NO_ID <> cr_suid c)
    as (Hnr & Hne & Hns) by (unfold uids in Hno; rewrite !not_elem_of_cons in Hno; tauto).
  unfold do_setreuid. cbn [p_cred]. rewrite change_resuid_spec.
  unfold id_allowed, id_or, uids. cbn [existsb].
  destruct (Z.eqb_spec (cr_euid c) 0) as [Hroot|Hroot];
  destruct (Z.eqb_spec ruid NO_ID) as [->|Hr];
  destruct (Z.eqb_spec euid NO_ID) as [->|He]; cbn [negb andb orb].
  all: rewrite ?Z.eqb_refl; cbn [negb andb orb].
  all: repeat match goal with
       | |- context [?a =? ?b] =>
           lazymatch a with
           | context [if _ then _ else _] => fail
           | _ => destruct (Z.eqb_spec a b); cbn [negb andb orb]
           end
       end; try (congruence || reflexivity).
Qed.

(** ** File access *)

(** The permission class of the caller, as the position of its [rwx] bits in the
    mode: the owner's class if it owns the file, else the group's if it is a
    member, else the class of others. *)
Definition perm_shift (va : vattr) (c : cred) : Z :=
  if cr_euid c =? va_uid va then 6
  else if cred_groupmember (va_gid va) c then 3 else 0.

(** What the caller may do: root may read, write and administer anything and
    execute directories and files somebody may execute; anybody else has exactly
    the three bits of its class, and the owner may administer. *)
Definition permitted (va : vattr) (c : cred) : Z :=
  if cr_euid c =? 0 then
    Z.lor (Z.lor VREAD (Z.lor VWRITE VADMIN))
      (if S_ISDIR (va_mode va) || negb (Z.land (va_mode va) 0x49 =? 0) then VEXEC else 0)
  else
    Z.lor (Z.land (Z.shiftr (va_mode va) (perm_shift va c)) 7)
      (if cr_euid c =? va_uid va then VADMIN else 0).

Definition bit (b : bool) (v : Z) : Z := if b then v else 0.

Lemma rwx_bits m s :
  0 <= s ->
  Z.land (Z.shiftr m s) 7 =
    bit (Z.testbit m (s + 2)) 4 + bit (Z.testbit m (s + 1)) 2 + bit (Z.testbit m s) 1.
Proof.
  intros Hs.
  assert (forall i, 0 <= i -> Z.testbit m (s + i) = Z.testbit (Z.shiftr m s) i) as Hb
    by (intros i Hi; rewrite Z.shiftr_spec by done; f_equal; lia).
  rewrite !Hb by lia. replace s with (s + 0) at 4 by lia. rewrite Hb by lia.
  generalize (Z.shiftr m s) as x. intros x. clear.
  replace (Z.land x 7) with (x `mod` 2 ^ 3) by (rewrite <- Z.land_ones by lia; done).
  unfold bit.
  pose proof (Z.testbit_spec' x 0 ltac:(lia)) as H0.
  pose proof (Z.testbit_spec' x 1 ltac:(lia)) as H1.
  pose proof (Z.testbit_spec' x 2 ltac:(lia)) as H2.
  change (2 ^ 0) with 1 in H0. change (2 ^ 1) with 2 in H1. change (2 ^ 2) with 4 in H2.
  rewrite Z.div_1_r in H0. change (2 ^ 3) with 8.
  destruct (Z.testbit x 0), (Z.testbit x 1), (Z.testbit x 2); cbn in *; lia.
Qed.

Lemma grant_class m s g :
  0 <= s -> (g = 0 \/ g = VADMIN) ->
  grant (grant (grant g (has m (2 ^ (s + 2))) VREAD) (has m (2 ^ (s + 1))) VWRITE)
    (has m (2 ^ s)) VEXEC = Z.lor (Z.land (Z.shiftr m s) 7) g.
Proof.
  intros Hs Hg. unfold has. rewrite !land_pow2_testbit, rwx_bits by lia.
  destruct (Z.testbit m (s + 2)), (Z.testbit m (s + 1)), (Z.testbit m s), Hg as [-> | ->];
    reflexivity.
Qed.

(** The access check decides exactly the documented policy: a request is
    granted when every bit of it is permitted to the caller's most specific
    permission class, and refused with [EACCES] otherwise. *)
Theorem cred_can_access_correct va c mode :
  cred_can_access va c mode =
    if Z.land mode (permitted va c) =? mode then 0 else EACCES.
Proof.
  unfold cred_can_access, permitted, perm_shift.
  destruct (cr_euid c =? 0).
  { unfold grant, has. destruct (_ || _) eqn:E1; destruct (_ || _) eqn:E2; try done;
      cbn in E1, E2; rewrite E1 in E2; done. }
  destruct (cr_euid c =? va_uid va).
  { rewrite <- (grant_class _ 6 VADMIN) by (lia || by right). done. }
  destruct (cred_groupmember (va_gid va) c).
  - rewrite <- (grant_class _ 3 0) by (lia || by left). done.
  - rewrite <- (grant_class _ 0 0) by (lia || by left). done.
Qed.

(** ** Concrete instances *)

(** A set-user-id process of user 1000 owned by user 7. *)
Definition sample_proc : proc :=
  Proc 12 (Cred 7 1000 7 20 20 20 1 (20 :: replicate 15 0)) 3.

Lemma unprivileged_confined_witness : exists p',
  do_calls sample_proc [SetUid 0; SetEUid 1000; SetResUid 7 7 1000; SetGroups 1 [0]]
    = Ok p' /\ confined (p_cred sample_proc) (p_cred p').
Proof.
  apply unprivileged_confined. vm_compute. intros H.
  repeat (apply elem_of_cons in H as [H|H]; [discriminate H|]).
  by apply not_elem_of_nil in H.
Defined.

Lemma do_setreuid_correct_witness :
  do_setreuid sample_proc 7 1000 =
    (0, set_cred sample_proc (set_uids (p_cred sample_proc) 7 1000 1000)).
Proof.
  refine (do_setreuid_correct sample_proc 7 1000 _). vm_compute. intros H.
  repeat (apply elem_of_cons in H as [H|H]; [discriminate H|]).
  by apply not_elem_of_nil in H.
Defined.
