(* ===== verification/Filedesc.v ===== *)
(** * Open files and descriptor tables
    (sys/kern/file.c, sys/kern/filedesc.c, sys/kern/file_syscalls.c,
    include/sys/refcnt.h)

    Open files live in a heap with a reference count each; a descriptor table is
    an array of entries with a bitmap of the entries in use, as in the code.
    The results: the lowest free descriptor is allocated; reference counts equal
    the references there are, over any sequence of system calls on descriptors;
    a table copied at fork or dropped at exit keeps the counts exact. *)

From S2P Require Import Prelude Bitstr.

(** ** Files *)

Inductive filetype := FT_VNODE | FT_PIPE | FT_PTY | FT_KQUEUE.
#[global] Instance filetype_eq_dec : EqDecision filetype.
Proof. solve_decision. Defined.

Definition FF_READ : Z := 1.
Definition FF_WRITE : Z := 2.
Definition IO_APPEND : Z := 4.
Definition IO_NONBLOCK : Z := 8.
Definition IO_MASK : Z := Z.lor IO_APPEND IO_NONBLOCK.

(** [f_opened] tells that [f_ops] is not [badfileops]. *)
Record file := File {
  f_opened : bool;
  f_type : filetype;
  f_count : Z;
  f_flags : Z;
}.

(** The files in memory by address, and those whose [fo_close] has been called,
    the latest first. *)
Record kfiles := Kfiles {
  files : gmap Z file;
  closed : list Z;
}.

Definition get_obj (k : kfiles) (f : Z) : outcome file :=
  match files k !! f with Some x => Ok x | None => Fault BadAccess end.

Definition set_obj (k : kfiles) (f : Z) (x : file) : kfiles :=
  Kfiles (<[f := x]> (files k)) (closed k).

Definition set_count (x : file) (n : Z) : file :=
  File (f_opened x) (f_type x) n (f_flags x).
Definition set_flags (x : file) (fl : Z) : file :=
  File (f_opened x) (f_type x) (f_count x) fl.

(** [f] is the address the pool hands out: one that is not in use.  The pool
    zeroes the object; [FT_VNODE] stands for the zero type. *)
Definition file_alloc (k : kfiles) (f : Z) : outcome kfiles :=
  match files k !! f with
  | Some _ => Fault BadAccess
  | None => Ok (set_obj k f (File false FT_VNODE 0 0))
  end.

Definition file_destroy (k : kfiles) (f : Z) : outcome kfiles :=
  x ← get_obj k f;
  _ ← assert (f_count x =? 0);
  Ok (Kfiles (delete f (files k)) (if f_opened x then f :: closed k else closed k)).

Definition file_hold (k : kfiles) (f : Z) : outcome kfiles :=
  x ← get_obj k f;
  c ← refcnt_acquire (f_count x);
  Ok (set_obj k f (set_count x c)).

Definition file_drop (k : kfiles) (f : Z) : outcome kfiles :=
  x ← get_obj k f;
  '(c, last) ← refcnt_release (f_count x);
  let k := set_obj k f (set_count x c) in
  if (last : bool) then file_destroy k f else Ok k.

(** ** Descriptor tables *)

Definition NDFILE : Z := 20.
Definition MAXFILES : Z := 1024.

Record fdent := Fdent {
  fde_file : option Z;
  fde_cloexec : bool;
}.

(** An entry of zero bytes. *)
Definition fdent0 : fdent := Fdent None false.
#[global] Instance fdent_inhabited : Inhabited fdent := populate fdent0.

Record fdtab := Fdtab {
  fdt_entries : list fdent;
  fdt_map : list Z;
  fdt_nfiles : Z;
  fdt_count : Z;
}.

Section ops.
Context `{Arch}.
Implicit Types (fdt : fdtab) (k : kfiles).

Definition set_entries fdt (es : list fdent) : fdtab :=
  Fdtab es (fdt_map fdt) (fdt_nfiles fdt) (fdt_count fdt).
Definition set_map fdt (m : list Z) : fdtab :=
  Fdtab (fdt_entries fdt) m (fdt_nfiles fdt) (fdt_count fdt).

Definition fd_is_used fdt (fd : Z) : outcome bool := bit_test (fdt_map fdt) fd.

Definition fd_mark_used fdt (fd : Z) : outcome fdtab :=
  u ← fd_is_used fdt fd;
  _ ← assert (negb u);
  m ← bit_set (fdt_map fdt) fd;
  Ok (set_map fdt m).

Definition fd_mark_unused fdt (fd : Z) : outcome fdtab :=
  u ← fd_is_used fdt fd;
  _ ← assert u;
  m ← bit_clear (fdt_map fdt) fd;
  Ok (set_map fdt m).

Definition is_bad_fd fdt (fd : Z) : bool := (fd <? 0) || (fdt_nfiles fdt <? fd).

Definition fdtab_hold fdt : outcome fdtab :=
  c ← refcnt_acquire (fdt_count fdt);
  Ok (Fdtab (fdt_entries fdt) (fdt_map fdt) (fdt_nfiles fdt) c).

Definition fd_growtable fdt (new_size : Z) : outcome fdtab :=
  _ ← assert ((fdt_nfiles fdt <? new_size) && (new_size <=? MAXFILES));
  let entries := replicate (Z.to_nat new_size) fdent0 in
  let map := replicate (Z.to_nat (bitstr_size new_size)) 0 in
  entries ← arr_copy entries (fdt_entries fdt) (fdt_nfiles fdt);
  map ← arr_copy map (fdt_map fdt) (bitstr_size (fdt_nfiles fdt));
  Ok (Fdtab entries map new_size (fdt_count fdt)).

(** The error, the descriptor left in [*fdp] on success, the table. *)
Definition fd_alloc fdt (minfd : Z) : outcome (Z * Z * fdtab) :=
  if MAXFILES <=? minfd then Ok (EMFILE, -1, fdt) else
  first_free ← bit_ffc_from (fdt_map fdt) (fdt_nfiles fdt) minfd;
  if first_free <? 0 then
    if fdt_nfiles fdt =? MAXFILES then Ok (EMFILE, -1, fdt)
    else
      let new_size := Z.min (Z.max (minfd + 1) (fdt_nfiles fdt * 2)) MAXFILES in
      let first_free := Z.max minfd (fdt_nfiles fdt) in
      fdt ← fd_growtable fdt new_size;
      fdt ← fd_mark_used fdt first_free;
      Ok (0, first_free, fdt)
  else
    fdt ← fd_mark_used fdt first_free;
    Ok (0, first_free, fdt).

Definition fd_free fdt k (fd : Z) : outcome (fdtab * kfiles) :=
  e ← arr_get (fdt_entries fdt) fd;
  match fde_file e with
  | None => Fault AssertFailed
  | Some f =>
      k ← file_drop k f;
      es ← arr_set (fdt_entries fdt) fd fdent0;
      fdt ← fd_mark_unused (set_entries fdt es) fd;
      Ok (fdt, k)
  end.

Definition fdtab_create : fdtab :=
  Fdtab (replicate (Z.to_nat NDFILE) fdent0)
    (replicate (Z.to_nat (bitstr_size NDFILE)) 0) NDFILE 1.

(** The copying loop with [n] descriptors left. *)
Fixpoint copy_loop (n : nat) (i : Z) fdt (newfdt : fdtab) k
    : outcome (fdtab * kfiles) :=
  match n with
  | O => Ok (newfdt, k)
  | S n =>
      u ← fd_is_used fdt i;
      if (u : bool) then
        e ← arr_get (fdt_entries fdt) i;
        es ← arr_set (fdt_entries newfdt) i e;
        match fde_file e with
        | None => Fault BadAccess
        | Some f =>
            k ← file_hold k f;
            copy_loop n (i + 1) fdt (set_entries newfdt es) k
        end
      else copy_loop n (i + 1) fdt newfdt k
  end.

Definition fdtab_copy (ofdt : option fdtab) k : outcome (fdtab * kfiles) :=
  let newfdt := fdtab_create in
  match ofdt with
  | None => Ok (newfdt, k)
  | Some fdt =>
      newfdt ← (if fdt_nfiles newfdt <? fdt_nfiles fdt
                then fd_growtable newfdt (fdt_nfiles fdt) else Ok newfdt);
      '(newfdt, k) ← copy_loop (Z.to_nat (fdt_nfiles fdt)) 0 fdt newfdt k;
      m ← arr_copy (fdt_map newfdt) (fdt_map fdt) (bitstr_size (fdt_nfiles fdt));
      Ok (set_map newfdt m, k)
  end.

Fixpoint drop_loop (n : nat) (i : Z) fdt k : outcome (fdtab * kfiles) :=
  match n with
  | O => Ok (fdt, k)
  | S n =>
      u ← fd_is_used fdt i;
      if (u : bool) then
        '(fdt, k) ← fd_free fdt k i;
        drop_loop n (i + 1) fdt k
      else drop_loop n (i + 1) fdt k
  end.

(** The table is gone ([None]) when the last reference is dropped. *)
Definition fdtab_drop fdt k : outcome (option fdtab * kfiles) :=
  '(c, last) ← refcnt_release (fdt_count fdt);
  let fdt := Fdtab (fdt_entries fdt) (fdt_map fdt) (fdt_nfiles fdt) c in
  if negb (last : bool) then Ok (Some fdt, k)
  else
    _ ← assert (fdt_count fdt <=? 0);
    '(_, k) ← drop_loop (Z.to_nat (fdt_nfiles fdt)) 0 fdt k;
    Ok (None, k).

(** [None] is the [NULL] file pointer. *)
Definition fdtab_install_file fdt k (fp : option Z) (minfd : Z)
    : outcome (Z * Z * fdtab * kfiles) :=
  match fp with
  | None => Fault AssertFailed
  | Some f =>
      '(error, fd, fdt) ← fd_alloc fdt minfd;
      if negb (error =? 0) then Ok (error, fd, fdt, k)
      else
        es ← arr_set (fdt_entries fdt) fd (Fdent (Some f) false);
        k ← file_hold k f;
        Ok (0, fd, set_entries fdt es, k)
  end.

Definition fdtab_install_file_at fdt k (fp : option Z) (fd : Z)
    : outcome (Z * fdtab * kfiles) :=
  match fp with
  | None => Fault AssertFailed
  | Some f =>
      if is_bad_fd fdt fd then Ok (EBADF, fdt, k)
      else
        u ← fd_is_used fdt fd;
        '(same, fdt, k) ←
          (if (u : bool) then
             e ← arr_get (fdt_entries fdt) fd;
             if decide (fde_file e = Some f) then Ok (true, fdt, k)
             else '(fdt, k) ← fd_free fdt k fd; Ok (false, fdt, k)
           else Ok (false, fdt, k));
        fdt ←
          (if (same : bool) then Ok fdt
           else
             es ← arr_set (fdt_entries fdt) fd (Fdent (Some f) false);
             fd_mark_used (set_entries fdt es) fd);
        k ← file_hold k f;
        Ok (0, fdt, k)
  end.

(** The bits of [flags] the file lacks make the call fail. *)
Definition lacks (flags fl bit : Z) : bool :=
  negb (Z.land flags bit =? 0) && (Z.land fl bit =? 0).

Definition fdtab_get_file (ofdt : option fdtab) k (fd flags : Z)
    : outcome (Z * Z * kfiles) :=
  match ofdt with
  | None => Ok (EBADF, 0, k)
  | Some fdt =>
      if is_bad_fd fdt fd then Ok (EBADF, 0, k)
      else
        u ← fd_is_used fdt fd;
        if negb u then Ok (EBADF, 0, k)
        else
          e ← arr_get (fdt_entries fdt) fd;
          match fde_file e with
          | None => Fault BadAccess
          | Some f =>
              k ← file_hold k f;
              x ← get_obj k f;
              if lacks flags (f_flags x) FF_READ || lacks flags (f_flags x) FF_WRITE
              then k ← file_drop k f; Ok (EBADF, 0, k)
              else Ok (0, f, k)
          end
  end.

Definition fdtab_close_fd fdt k (fd : Z) : outcome (Z * fdtab * kfiles) :=
  if is_bad_fd fdt fd then Ok (EBADF, fdt, k)
  else
    u ← fd_is_used fdt fd;
    if negb u then Ok (EBADF, fdt, k)
    else '(fdt, k) ← fd_free fdt k fd; Ok (0, fdt, k).

Definition fd_set_cloexec fdt (fd : Z) (cloexec : bool) : outcome (Z * fdtab) :=
  if is_bad_fd fdt fd then Ok (EBADF, fdt)
  else
    u ← fd_is_used fdt fd;
    if negb u then Ok (EBADF, fdt)
    else
      e ← arr_get (fdt_entries fdt) fd;
      es ← arr_set (fdt_entries fdt) fd (Fdent (fde_file e) cloexec);
      Ok (0, set_entries fdt es).

Definition fd_get_cloexec fdt (fd : Z) : outcome (Z * bool) :=
  if is_bad_fd fdt fd then Ok (EBADF, false)
  else
    u ← fd_is_used fdt fd;
    if negb u then Ok (EBADF, false)
    else e ← arr_get (fdt_entries fdt) fd; Ok (0, fde_cloexec e).

Fixpoint onexec_loop (n : nat) (fd : Z) fdt k : outcome (Z * fdtab * kfiles) :=
  match n with
  | O => Ok (0, fdt, k)
  | S n =>
      u ← fd_is_used fdt fd;
      b ← (if (u : bool) then e ← arr_get (fdt_entries fdt) fd; Ok (fde_cloexec e)
           else Ok false);
      if (b : bool) then
        '(error, fdt, k) ← fdtab_close_fd fdt k fd;
        if negb (error =? 0) then Ok (error, fdt, k)
        else onexec_loop n (fd + 1) fdt k
      else onexec_loop n (fd + 1) fdt k
  end.

Definition fdtab_onexec fdt k : outcome (Z * fdtab * kfiles) :=
  onexec_loop (Z.to_nat (fdt_nfiles fdt)) 0 fdt k.

Fixpoint onfork_loop (n : nat) (fd : Z) fdt k : outcome (Z * fdtab * kfiles) :=
  match n with
  | O => Ok (0, fdt, k)
  | S n =>
      u ← fd_is_used fdt fd;
      b ← (if (u : bool) then
             e ← arr_get (fdt_entries fdt) fd;
             match fde_file e with
             | None => Fault BadAccess
             | Some f => x ← get_obj k f; Ok (bool_decide (f_type x = FT_KQUEUE))
             end
           else Ok false);
      if (b : bool) then
        '(error, fdt, k) ← fdtab_close_fd fdt k fd;
        if negb (error =? 0) then Ok (error, fdt, k)
        else onfork_loop n (fd + 1) fdt k
      else onfork_loop n (fd + 1) fdt k
  end.

Definition fdtab_onfork fdt k : outcome (Z * fdtab * kfiles) :=
  onfork_loop (Z.to_nat (fdt_nfiles fdt)) 0 fdt k.

(** ** System calls on descriptors (sys/kern/file_syscalls.c) *)

Definition F_DUPFD : Z := 0.
Definition F_GETFD : Z := 1.
Definition F_SETFD : Z := 2.
Definition F_GETFL : Z := 3.
Definition F_SETFL : Z := 4.
Definition F_DUPFD_CLOEXEC : Z := 12.
Definition FD_CLOEXEC : Z := 1.
Definition O_RDONLY : Z := 0.
Definition O_WRONLY : Z := 1.
Definition O_RDWR : Z := 2.
Definition O_NONBLOCK : Z := 4.
Definition O_APPEND : Z := 8.

Definition do_close fdt k (fd : Z) : outcome (Z * fdtab * kfiles) :=
  fdtab_close_fd fdt k fd.

(** The methods of a file are parameters: [fo] gives the error the method
    returns for the file.  The second component is the set of [IO_*] flags added to
    the request. *)
Definition do_read (fo_read : Z -> Z -> Z) fdt k (fd : Z) : outcome (Z * Z * kfiles) :=
  '(error, f, k) ← fdtab_get_file (Some fdt) k fd FF_READ;
  if negb (error =? 0) then Ok (error, 0, k)
  else
    x ← get_obj k f;
    let ioflags := Z.land (f_flags x) IO_MASK in
    let error := fo_read f ioflags in
    k ← file_drop k f;
    Ok (error, ioflags, k).

(** The third component tells whether [SIGPIPE] is sent to the caller. *)
Definition do_write (fo_write : Z -> Z -> Z) fdt k (fd : Z)
    : outcome (Z * Z * bool * kfiles) :=
  '(error, f, k) ← fdtab_get_file (Some fdt) k fd FF_WRITE;
  if negb (error =? 0) then Ok (error, 0, false, k)
  else
    x ← get_obj k f;
    let ioflags := Z.land (f_flags x) IO_MASK in
    let error := fo_write f ioflags in
    k ← file_drop k f;
    Ok (error, ioflags, error =? EPIPE, k).

(** [do_lseek] and [do_fstat]: call a method of the file whatever its mode. *)
Definition do_method (fo : Z -> Z) fdt k (fd : Z) : outcome (Z * kfiles) :=
  '(error, f, k) ← fdtab_get_file (Some fdt) k fd 0;
  if negb (error =? 0) then Ok (error, k)
  else
    let error := fo f in
    k ← file_drop k f;
    Ok (error, k).

Definition do_ioctl (fo_ioctl : Z -> Z) fdt k (fd : Z) : outcome (Z * kfiles) :=
  '(error, k) ← do_method fo_ioctl fdt k fd;
  Ok (if error =? EPASSTHROUGH then ENOTTY else error, k).

Definition do_dup fdt k (oldfd : Z) : outcome (Z * Z * fdtab * kfiles) :=
  '(error, f, k) ← fdtab_get_file (Some fdt) k oldfd 0;
  if negb (error =? 0) then Ok (error, -1, fdt, k)
  else
    '(error, newfd, fdt, k) ← fdtab_install_file fdt k (Some f) 0;
    k ← file_drop k f;
    Ok (error, newfd, fdt, k).

Definition do_dup2 fdt k (oldfd newfd : Z) : outcome (Z * fdtab * kfiles) :=
  if oldfd =? newfd then Ok (0, fdt, k)
  else
    '(error, f, k) ← fdtab_get_file (Some fdt) k oldfd 0;
    if negb (error =? 0) then Ok (error, fdt, k)
    else
      '(error, fdt, k) ← fdtab_install_file_at fdt k (Some f) newfd;
      k ← file_drop k f;
      Ok (error, fdt, k).

Definition has_flag (fl bit : Z) : bool := negb (Z.land fl bit =? 0).

(** The flags [F_GETFL] reports for the flags of a file. *)
Definition getfl (fl : Z) : Z :=
  let flags :=
    if has_flag fl FF_READ && has_flag fl FF_WRITE then O_RDWR
    else Z.lor (if has_flag fl FF_READ then O_RDONLY else 0)
           (if has_flag fl FF_WRITE then O_WRONLY else 0) in
  let flags := if has_flag fl IO_APPEND then Z.lor flags O_APPEND else flags in
  if has_flag fl IO_NONBLOCK then Z.lor flags O_NONBLOCK else flags.

(** The flags of a file after [F_SETFL]. *)
Definition setfl (arg : Z) : Z :=
  let flags := if has_flag arg O_APPEND then Z.lor 0 IO_APPEND else 0 in
  if has_flag arg O_NONBLOCK then Z.lor flags IO_NONBLOCK else flags.

(** The error, the value left in [*resp], the table and the files. *)
Definition do_fcntl fdt k (fd cmd arg : Z) : outcome (Z * Z * fdtab * kfiles) :=
  '(error, f, k) ← fdtab_get_file (Some fdt) k fd 0;
  if negb (error =? 0) then Ok (error, 0, fdt, k)
  else
    '(error, res, fdt, k) ←
      (if (cmd =? F_DUPFD_CLOEXEC) || (cmd =? F_DUPFD) then
         '(error, res, fdt, k) ← fdtab_install_file fdt k (Some f) arg;
         if negb (error =? 0) then Ok (error, res, fdt, k)
         else
           '(error, fdt) ← fd_set_cloexec fdt fd (cmd =? F_DUPFD_CLOEXEC);
           Ok (error, res, fdt, k)
       else if cmd =? F_SETFD then
         '(error, fdt) ← fd_set_cloexec fdt fd (arg =? FD_CLOEXEC);
         Ok (error, 0, fdt, k)
       else if cmd =? F_GETFD then
         '(error, b) ← fd_get_cloexec fdt fd;
         Ok (error, Z.b2z b, fdt, k)
       else if cmd =? F_GETFL then
         x ← get_obj k f;
         Ok (0, getfl (f_flags x), fdt, k)
       else if cmd =? F_SETFL then
         x ← get_obj k f;
         Ok (0, 0, fdt, set_obj k f (set_flags x (setfl arg)))
       else Ok (EINVAL, 0, fdt, k));
    k ← file_drop k f;
    Ok (error, res, fdt, k).

(** [newmask & ALLPERMS]; the result is the old mask and the new one. *)
Definition do_umask (p_cmask newmask : Z) : Z * Z :=
  (p_cmask, Z.land newmask 0xfff).
End ops.

(** ** Reference counts *)

Definition refcount (k : kfiles) (f : Z) : Z :=
  match files k !! f with Some x => f_count x | None => 0 end.

(** The number of entries that refer to [f]. *)
Fixpoint occ (f : Z) (es : list fdent) : Z :=
  match es with
  | [] => 0
  | e :: es => (if decide (fde_file e = Some f) then 1 else 0) + occ f es
  end.

Definition refs_to (f : Z) (e : fdent) : Z :=
  if decide (fde_file e = Some f) then 1 else 0.

Definition ext_add (f d : Z) (ext : Z -> Z) : Z -> Z :=
  fun g => if g =? f then ext g + d else ext g.

Lemma occ_bound f es : 0 <= occ f es <= Z.of_nat (length es).
Proof. induction es as [|e es IH]; cbn; [lia|]. destruct (decide _); lia. Qed.

Lemma occ_insert f es i e e' :
  es !! i = Some e' -> occ f (<[i := e]> es) = occ f es - refs_to f e' + refs_to f e.
Proof.
  revert i. induction es as [|x es IH]; intros [|i] Hi; simplify_eq/=.
  - unfold refs_to. lia.
  - rewrite (IH i) by done. lia.
Qed.

Lemma occ_app f es1 es2 : occ f (es1 ++ es2) = occ f es1 + occ f es2.
Proof. induction es1 as [|e es1 IH]; cbn; lia. Qed.

Lemma occ_fdent0 f n : occ f (replicate n fdent0) = 0.
Proof. induction n as [|n IH]; cbn; [done|]. destruct (decide _); [done|lia]. Qed.

Lemma occ_pos f es : 0 < occ f es <-> exists i e, es !! i = Some e /\ fde_file e = Some f.
Proof.
  split.
  - induction es as [|e es IH]; cbn; [lia|]. destruct (decide _) as [E|E].
    + intros _. by exists O, e.
    + intros Hp. destruct IH as (i & x & Hi & Hx); [lia|]. by exists (S i), x.
  - intros (i & e & Hi & He). revert i Hi.
    induction es as [|x es IH]; intros [|i] Hi; simplify_eq/=.
    + rewrite decide_True by done. pose proof (occ_bound f es). lia.
    + pose proof (IH i Hi). destruct (decide _); lia.
Qed.

(** ** The invariant *)

Record wf_fdt (fdt : fdtab) : Prop := {
  wf_n : NDFILE <= fdt_nfiles fdt <= MAXFILES;
  wf_len : Z.of_nat (length (fdt_entries fdt)) = fdt_nfiles fdt;
  wf_maplen : Z.of_nat (length (fdt_map fdt)) = (fdt_nfiles fdt + 7) / 8;
  wf_map : wf_bits (fdt_map fdt) (fdt_nfiles fdt);
  wf_used i : 0 <= i < fdt_nfiles fdt ->
    bget (fdt_map fdt) i = bool_decide (is_Some (fde_file (fdt_entries fdt !!! Z.to_nat i)));
  wf_tail i : fdt_nfiles fdt <= i < 8 * Z.of_nat (length (fdt_map fdt)) ->
    bget (fdt_map fdt) i = false;
}.

(** The reference count of every file is the number of its descriptors in the
    table plus the references held elsewhere, [ext], at most [B] for each file. *)
Record fd_inv (B : Z) (fdt : fdtab) (k : kfiles) (ext : Z -> Z) : Prop := {
  inv_wf : wf_fdt fdt;
  inv_refs f : refcount k f = occ f (fdt_entries fdt) + ext f;
  inv_ext f : 0 <= ext f <= B;
  inv_bound : B + MAXFILES < UINT_MAX;
}.

(** What descriptor [fd] refers to, with its close-on-exec flag. *)
Definition view (fdt : fdtab) (fd : Z) : option (Z * bool) :=
  if (0 <=? fd) && (fd <? fdt_nfiles fdt) then
    e ← fdt_entries fdt !! Z.to_nat fd;
    f ← fde_file e;
    Some (f, fde_cloexec e)
  else None.

(** Only the count and life of [f] may have changed. *)
Record dropped (k : kfiles) (f : Z) (k' : kfiles) : Prop := {
  dr_other g : g <> f -> files k' !! g = files k !! g;
  dr_last x : files k !! f = Some x -> f_count x = 1 ->
    files k' !! f = None /\ closed k' = if f_opened x then f :: closed k else closed k;
  dr_more x : files k !! f = Some x -> f_count x <> 1 ->
    files k' !! f = Some (set_count x (f_count x - 1)) /\ closed k' = closed k;
}.

Section refcounts.
Implicit Types (fdt : fdtab) (k : kfiles).

Lemma refcount_set_obj k f x g :
  refcount (set_obj k f x) g = if g =? f then f_count x else refcount k g.
Proof.
  unfold refcount. cbn. destruct (Z.eqb_spec g f) as [->|].
  - by rewrite lookup_insert_eq.
  - by rewrite lookup_insert_ne by done.
Qed.

Lemma inv_count B fdt k ext f :
  fd_inv B fdt k ext -> 0 <= refcount k f < UINT_MAX.
Proof.
  intros [W R E Bd]. rewrite R. pose proof (occ_bound f (fdt_entries fdt)).
  pose proof (E f). pose proof (wf_len _ W). pose proof (wf_n _ W). lia.
Qed.

Lemma refcount_lookup k f :
  0 < refcount k f -> exists x, files k !! f = Some x /\ f_count x = refcount k f.
Proof. unfold refcount. destruct (files k !! f) as [x|]; [by exists x|lia]. Qed.

Lemma hold_spec B fdt k ext f x :
  fd_inv B fdt k ext -> files k !! f = Some x -> B + 1 + MAXFILES < UINT_MAX ->
  let k' := set_obj k f (set_count x (f_count x + 1)) in
  file_hold k f = Ok k' /\ fd_inv (B + 1) fdt k' (ext_add f 1 ext).
Proof.
  intros I Hx Hb k'. pose proof (inv_count _ _ _ _ f I) as Hc.
  unfold refcount in Hc. rewrite Hx in Hc. unfold UINT_MAX in *. split.
  - unfold file_hold, get_obj. rewrite Hx. cbn [mbind outcome_bind].
    unfold refcnt_acquire. rewrite (proj2 (Z.eqb_neq _ _)) by (unfold UINT_MAX; lia).
    cbn [mbind outcome_bind]. rewrite uwrap_small by lia. done.
  - destruct I as [W R E Bd]. split; [done| |..].
    + intros g. subst k'. rewrite refcount_set_obj. unfold ext_add. cbn.
      destruct (Z.eqb_spec g f) as [->|]; [|apply R].
      pose proof (R f) as Rf. unfold refcount in Rf. rewrite Hx in Rf. lia.
    + intros g. unfold ext_add. pose proof (E g). destruct (g =? f); lia.
    + done.
Qed.

Lemma drop_spec B fdt k ext f :
  fd_inv B fdt k ext -> 0 < ext f ->
  exists k', file_drop k f = Ok k' /\ fd_inv B fdt k' (ext_add f (-1) ext) /\
    dropped k f k'.
Proof.
  intros I Hf. pose proof (inv_count _ _ _ _ f I) as Hc.
  pose proof (inv_refs _ _ _ _ I f) as Rf. pose proof (occ_bound f (fdt_entries fdt)).
  destruct (refcount_lookup k f) as (x & Hx & Hxc); [lia|]. unfold UINT_MAX in Hc.
  unfold file_drop, get_obj. rewrite Hx. cbn [mbind outcome_bind].
  unfold refcnt_release. rewrite (proj2 (Z.eqb_neq _ _)) by lia. cbn [mbind outcome_bind].
  rewrite uwrap_small by lia.
  assert (forall g, ext g + (if g =? f then -1 else 0) = ext_add f (-1) ext g) as Hea
    by (intros g; unfold ext_add; destruct (g =? f); lia).
  assert (forall k', (forall g, refcount k' g = refcount k g + (if g =? f then -1 else 0)) ->
    fd_inv B fdt k' (ext_add f (-1) ext)) as Hinv.
  { intros k' Hk'. destruct I as [W R E Bd]. split; try done.
    - intros g. rewrite <- Hea, Hk', R. lia.
    - intros g. rewrite <- Hea. pose proof (E g). destruct (Z.eqb_spec g f) as [->|]; lia. }
  destruct (Z.eqb_spec (f_count x) 1) as [H1|H1].
  - unfold file_destroy, get_obj. cbn. rewrite lookup_insert_eq. cbn.
    assert_step ltac:(cbn; lia). eexists. split; [done|]. split.
    + apply Hinv. intros g. unfold refcount. cbn. rewrite delete_insert_eq.
      destruct (Z.eqb_spec g f) as [->|].
      * rewrite lookup_delete_eq, Hx. lia.
      * rewrite lookup_delete_ne by done. lia.
    + split; cbn; intros; simplify_eq.
      * rewrite lookup_delete_ne, lookup_insert_ne by done. done.
      * by rewrite lookup_delete_eq.
  - eexists. split; [done|]. split.
    + apply Hinv. intros g. rewrite refcount_set_obj. cbn.
      destruct (Z.eqb_spec g f) as [->|]; lia.
    + split; cbn; intros; simplify_eq.
      * by rewrite lookup_insert_ne.
      * by rewrite lookup_insert_eq.
Qed.

(** Holding and dropping a reference leaves no trace. *)
Lemma drop_hold B fdt k ext f x :
  fd_inv B fdt k ext -> files k !! f = Some x -> 0 < f_count x ->
  file_drop (set_obj k f (set_count x (f_count x + 1))) f = Ok k.
Proof.
  intros I Hx Hp. pose proof (inv_count _ _ _ _ f I) as Hc.
  unfold refcount in Hc. rewrite Hx in Hc. unfold UINT_MAX in Hc.
  unfold file_drop, get_obj. cbn. rewrite lookup_insert_eq. cbn.
  unfold refcnt_release. rewrite (proj2 (Z.eqb_neq _ _)) by lia. cbn [mbind outcome_bind].
  rewrite (proj2 (Z.eqb_neq (f_count x + 1) 1)) by lia. rewrite uwrap_small by lia.
  f_equal. destruct k as [fs cl]. unfold set_obj. cbn in *. f_equal.
  rewrite insert_insert_eq. apply insert_id. rewrite Hx. destruct x. unfold set_count; cbn.
  do 2 f_equal. lia.
Qed.
End refcounts.

(** ** Entries *)

Definition ent_view (e : fdent) : option (Z * bool) :=
  f ← fde_file e; Some (f, fde_cloexec e).

Section tables.
Context `{Arch}.
Implicit Types (fdt : fdtab) (k : kfiles).

Lemma entry_at fdt i :
  wf_fdt fdt -> 0 <= i < fdt_nfiles fdt ->
  exists e, fdt_entries fdt !! Z.to_nat i = Some e /\
    arr_get (fdt_entries fdt) i = Ok e /\ view fdt i = ent_view e /\
    fd_is_used fdt i = Ok (bool_decide (is_Some (fde_file e))).
Proof.
  intros W Hi. pose proof (wf_len _ W).
  destruct (arr_get_in_range (fdt_entries fdt) i) as (e & Hg & He); [lia|].
  exists e. split_and!; try done.
  - unfold view. destruct (_ && _) eqn:E; [|lia]. by rewrite He.
  - unfold fd_is_used. erewrite bit_test_spec by (apply W || lia).
    rewrite wf_used by done. erewrite list_lookup_total_correct by done. done.
Qed.

Definition put_entry fdt (i : Z) (e : fdent) (map' : list Z) : fdtab :=
  Fdtab (<[Z.to_nat i := e]> (fdt_entries fdt)) map' (fdt_nfiles fdt) (fdt_count fdt).

(** [map'] is the bitmap of the table after entry [i] has become [e]. *)
Definition map_for fdt (i : Z) (e : fdent) (map' : list Z) : Prop :=
  wf_bits map' (fdt_nfiles fdt) /\ length map' = length (fdt_map fdt) /\
  forall j, 0 <= j -> bget map' j =
    if j =? i then bool_decide (is_Some (fde_file e)) else bget (fdt_map fdt) j.

Lemma put_entry_wf fdt i e map' :
  wf_fdt fdt -> 0 <= i < fdt_nfiles fdt -> map_for fdt i e map' ->
  wf_fdt (put_entry fdt i e map').
Proof.
  intros W Hi (Hb & Hl & Hg). pose proof (wf_len _ W).
  split; cbn; rewrite ?length_insert, ?Hl; try apply W; try done.
  - intros j Hj. rewrite Hg by lia. destruct (Z.eqb_spec j i) as [->|].
    + by rewrite list_lookup_total_insert_eq by lia.
    + rewrite list_lookup_total_insert_ne by lia. by apply W.
  - intros j Hj. rewrite Hg by (pose proof (wf_n _ W); unfold NDFILE in *; lia).
    destruct (Z.eqb_spec j i); [lia|]. apply W. lia.
Qed.

Lemma put_entry_view fdt i e map' j :
  wf_fdt fdt -> 0 <= i < fdt_nfiles fdt ->
  view (put_entry fdt i e map') j = if j =? i then ent_view e else view fdt j.
Proof.
  intros W Hi. pose proof (wf_len _ W). unfold view. cbn.
  destruct (Z.eqb_spec j i) as [->|].
  - destruct (_ && _) eqn:E; [|lia]. rewrite list_lookup_insert_eq by lia. done.
  - destruct (_ && _) eqn:E; [|done]. rewrite list_lookup_insert_ne by lia. done.
Qed.

Lemma put_entry_inv B B' fdt k ext ext' i e e0 map' :
  fd_inv B fdt k ext -> 0 <= i < fdt_nfiles fdt -> map_for fdt i e map' ->
  fdt_entries fdt !! Z.to_nat i = Some e0 ->
  (forall f, ext' f = ext f + refs_to f e0 - refs_to f e) ->
  (forall f, 0 <= ext' f <= B') -> B' + MAXFILES < UINT_MAX ->
  fd_inv B' (put_entry fdt i e map') k ext'.
Proof.
  intros [W R E Bd] Hi Hm He0 Hext He' Hb'. split; try done.
  - by apply put_entry_wf.
  - intros f. cbn. erewrite occ_insert by done. rewrite R, Hext. lia.
Qed.

Lemma mark_unused_spec fdt i e0 :
  wf_fdt fdt -> 0 <= i < fdt_nfiles fdt ->
  fdt_entries fdt !! Z.to_nat i = Some e0 -> is_Some (fde_file e0) ->
  exists map', fd_mark_unused (set_entries fdt (<[Z.to_nat i := fdent0]> (fdt_entries fdt))) i
      = Ok (put_entry fdt i fdent0 map') /\ map_for fdt i fdent0 map'.
Proof.
  intros W Hi He Hs. destruct (entry_at fdt i W Hi) as (e & He' & _ & _ & Hu).
  simplify_eq. unfold fd_mark_unused, fd_is_used in *. cbn. rewrite Hu.
  cbn [mbind outcome_bind]. assert_step ltac:(by apply bool_decide_eq_true).
  destruct (bit_clear_spec (fdt_map fdt) (fdt_nfiles fdt) i) as (m & -> & Hw & Hl & Hg);
    [apply W|done|].
  exists m. split; [done|]. split_and!; try done. intros j Hj. rewrite Hg by done.
  destruct (j =? i); done.
Qed.

Lemma mark_used_spec fdt i e0 e :
  wf_fdt fdt -> 0 <= i < fdt_nfiles fdt ->
  fdt_entries fdt !! Z.to_nat i = Some e0 -> fde_file e0 = None -> is_Some (fde_file e) ->
  exists map', fd_mark_used fdt i = Ok (set_map fdt map') /\
    fd_mark_used (set_entries fdt (<[Z.to_nat i := e]> (fdt_entries fdt))) i
      = Ok (put_entry fdt i e map') /\ map_for fdt i e map'.
Proof.
  intros W Hi He Hn Hs. destruct (entry_at fdt i W Hi) as (e' & He' & _ & _ & Hu).
  simplify_eq. unfold fd_mark_used, fd_is_used in *. cbn. rewrite Hu, Hn.
  cbn [mbind outcome_bind]. assert_step ltac:(done).
  destruct (bit_set_spec (fdt_map fdt) (fdt_nfiles fdt) i) as (m & -> & Hw & Hl & Hg);
    [apply W|done|].
  exists m. unfold map_for. split_and!; try done. intros j Hj. rewrite Hg by done.
  destruct (j =? i); [|done]. rewrite bool_decide_eq_true_2; done.
Qed.

Lemma view_Some fdt fd f b :
  wf_fdt fdt -> view fdt fd = Some (f, b) ->
  0 <= fd < fdt_nfiles fdt /\ fdt_entries fdt !! Z.to_nat fd = Some (Fdent (Some f) b).
Proof.
  intros W. unfold view. destruct (_ && _) eqn:E; [|done]. intros Hv.
  split; [lia|]. destruct (fdt_entries fdt !! Z.to_nat fd) as [[[g|] c]|]; simplify_eq/=; done.
Qed.

(** [fd_free] of a descriptor in use. *)
Lemma fd_free_spec B fdt k ext fd f b :
  fd_inv B fdt k ext -> view fdt fd = Some (f, b) -> B + 1 + MAXFILES < UINT_MAX ->
  exists map' k', fd_free fdt k fd = Ok (put_entry fdt fd fdent0 map', k') /\
    fd_inv B (put_entry fdt fd fdent0 map') k' ext /\ dropped k f k'.
Proof.
  intros I Hv Hb. pose proof (inv_wf _ _ _ _ I) as W.
  destruct (view_Some _ _ _ _ W Hv) as [Hfd He].
  destruct (mark_unused_spec fdt fd _ W Hfd He) as (m & Hm & Hfor); [done|].
  assert (fd_inv (B + 1) (put_entry fdt fd fdent0 m) k (ext_add f 1 ext)) as I1.
  { eapply put_entry_inv; try done.
    - intros g. unfold ext_add, refs_to. cbn.
      destruct (Z.eqb_spec g f) as [->|]; repeat destruct (decide _); simplify_eq; lia.
    - intros g. unfold ext_add. pose proof (inv_ext _ _ _ _ I g). destruct (g =? f); lia. }
  destruct (drop_spec _ _ _ _ f I1) as (k' & Hd & I2 & D).
  { unfold ext_add. rewrite Z.eqb_refl. pose proof (inv_ext _ _ _ _ I f). lia. }
  exists m, k'. unfold fd_free.
  rewrite (proj2 (arr_get_ok _ _ _)) by (split; [lia|done]). cbn [mbind outcome_bind fde_file].
  rewrite Hd. cbn [mbind outcome_bind]. pose proof (wf_len _ W).
  rewrite arr_set_ok by lia. cbn [mbind outcome_bind]. rewrite Hm. split; [done|].
  split; [|done]. destruct I2 as [W2 R2 E2 B2]. split; try done.
  - intros g. rewrite R2. unfold ext_add. destruct (g =? f); lia.
  - apply I.
  - apply I.
Qed.

(** A descriptor accepted by [is_bad_fd] although it is one past the end is the
    exception every specification below sets aside. *)
Lemma used_or_bad fdt fd :
  wf_fdt fdt -> fd <> fdt_nfiles fdt ->
  (view fdt fd = None /\ (is_bad_fd fdt fd = true \/
     is_bad_fd fdt fd = false /\ fd_is_used fdt fd = Ok false)) \/
  (exists f b, view fdt fd = Some (f, b) /\ is_bad_fd fdt fd = false /\
     fd_is_used fdt fd = Ok true /\
     arr_get (fdt_entries fdt) fd = Ok (Fdent (Some f) b)).
Proof.
  intros W Hne. unfold is_bad_fd.
  destruct ((fd <? 0) || (fdt_nfiles fdt <? fd)) eqn:E.
  - left. split; [|by left]. unfold view. destruct (_ && _) eqn:E'; [lia|done].
  - destruct (entry_at fdt fd W) as (e & He & Hg & -> & ->); [lia|].
    destruct e as [[f|] b]; cbn.
    + right. by exists f, b.
    + left. split; [done|]. by right.
Qed.

Lemma close_spec B fdt k ext fd :
  fd_inv B fdt k ext -> fd <> fdt_nfiles fdt -> B + 1 + MAXFILES < UINT_MAX ->
  match view fdt fd with
  | None => fdtab_close_fd fdt k fd = Ok (EBADF, fdt, k)
  | Some (f, _) => exists fdt' k', fdtab_close_fd fdt k fd = Ok (0, fdt', k') /\
      fd_inv B fdt' k' ext /\ dropped k f k' /\ fdt_nfiles fdt' = fdt_nfiles fdt /\
      forall j, view fdt' j = if j =? fd then None else view fdt j
  end.
Proof.
  intros I Hne Hb. pose proof (inv_wf _ _ _ _ I) as W. unfold fdtab_close_fd.
  destruct (used_or_bad fdt fd W Hne) as [[-> [->|[-> ->]]]|(f & b & Hv & -> & -> & Hg)];
    [done|done|].
  rewrite Hv. cbn [mbind outcome_bind negb].
  destruct (fd_free_spec _ _ _ _ _ _ _ I Hv Hb) as (m & k' & -> & I' & D).
  do 2 eexists. split; [done|]. split_and!; try done.
  intros j. destruct (view_Some _ _ _ _ W Hv). by apply put_entry_view.
Qed.
End tables.

Section allocation.
Context `{Arch}.
Implicit Types (fdt : fdtab) (k : kfiles).

(** The copy of a full source array into a zeroed larger one. *)
Lemma arr_copy_grow {A} (x : A) (src : list A) (n : nat) :
  (length src <= n)%nat ->
  arr_copy (replicate n x) src (Z.of_nat (length src)) =
    Ok (src ++ replicate (n - length src) x).
Proof.
  intros Hn. unfold arr_copy. rewrite length_replicate.
  destruct (_ && _) eqn:E; [|lia]. rewrite Nat2Z.id, firstn_all, drop_replicate. done.
Qed.

Lemma bytes_for n : n <= 8 * ((n + 7) / 8) <= n + 7.
Proof.
  pose proof (Z.div_mod (n + 7) 8 ltac:(lia)).
  pose proof (Z.mod_pos_bound (n + 7) 8 ltac:(lia)). lia.
Qed.

Lemma grow_spec fdt new :
  wf_fdt fdt -> fdt_nfiles fdt < new <= MAXFILES ->
  exists fdt', fd_growtable fdt new = Ok fdt' /\ wf_fdt fdt' /\ fdt_nfiles fdt' = new /\
    fdt_count fdt' = fdt_count fdt /\
    fdt_entries fdt' = fdt_entries fdt ++
      replicate (Z.to_nat new - length (fdt_entries fdt)) fdent0.
Proof.
  intros W Hnew. destruct W as [Hn Hl Hml Hm Hu Ht]. unfold NDFILE, MAXFILES in *.
  unfold fd_growtable. assert_step ltac:(unfold MAXFILES; lia).
  rewrite !bitstr_size_spec by lia.
  pose proof (bytes_for (fdt_nfiles fdt)). pose proof (bytes_for new).
  pose proof (arr_copy_grow fdent0 (fdt_entries fdt) (Z.to_nat new) ltac:(lia)) as He.
  pose proof (arr_copy_grow 0 (fdt_map fdt) (Z.to_nat ((new + 7) / 8)) ltac:(lia)) as Hc.
  rewrite Hl in He. rewrite Hml in Hc. rewrite He. cbn [mbind outcome_bind].
  rewrite Hc. cbn [mbind outcome_bind].
  eexists. split; [done|]. split_and!; try done.
  split; cbn; rewrite ?length_app, ?length_replicate; unfold NDFILE, MAXFILES; try lia.
  - eapply wf_bits_app_zero; [done|]. lia.
  - intros i Hi. rewrite bget_app_zero by lia. destruct (Z.ltb_spec i (fdt_nfiles fdt)).
    + rewrite lookup_total_app_l, <- Hu by lia. destruct (Z.ltb_spec i (8 * Z.of_nat (length (fdt_map fdt)))); [done|lia].
    + rewrite lookup_total_app_r, lookup_total_replicate_2 by lia.
      rewrite bool_decide_eq_false_2 by (cbn; by intros []).
      destruct (Z.ltb_spec i (8 * Z.of_nat (length (fdt_map fdt)))); [|done]. apply Ht. lia.
  - intros i Hi. rewrite bget_app_zero by lia.
    destruct (Z.ltb_spec i (8 * Z.of_nat (length (fdt_map fdt)))); [|done]. apply Ht. lia.
Qed.

Lemma grow_view fdt fdt' n j :
  wf_fdt fdt -> wf_fdt fdt' -> fdt_nfiles fdt <= fdt_nfiles fdt' ->
  fdt_entries fdt' = fdt_entries fdt ++ replicate n fdent0 ->
  view fdt' j = view fdt j.
Proof.
  intros W W' Hn He. pose proof (wf_len _ W). pose proof (wf_len _ W') as Hl'.
  rewrite He, length_app, length_replicate in Hl'.
  unfold view. rewrite He. destruct (Z.ltb_spec j (fdt_nfiles fdt)).
  - destruct (Z.leb_spec 0 j); [|done]. rewrite (proj2 (Z.ltb_lt _ _)) by lia. cbn.
    rewrite lookup_app_l by lia. done.
  - rewrite andb_false_r. destruct (_ && _) eqn:E; [|done].
    rewrite lookup_app_r, lookup_replicate_2 by lia. done.
Qed.

Lemma grow_inv B fdt fdt' k ext n :
  fd_inv B fdt k ext -> wf_fdt fdt' ->
  fdt_entries fdt' = fdt_entries fdt ++ replicate n fdent0 -> fd_inv B fdt' k ext.
Proof.
  intros [W R E Bd] W' He. split; try done. intros f.
  rewrite He, occ_app, occ_fdent0, R. lia.
Qed.

(** The table [fd_alloc] returns has room for the entry at [fd], whose bit is
    set already. *)
Definition alloc_result fdt fd (fdt1 fdt2 : fdtab) : Prop :=
  wf_fdt fdt1 /\ fdt_nfiles fdt <= fdt_nfiles fdt1 /\
  (exists n, fdt_entries fdt1 = fdt_entries fdt ++ replicate n fdent0) /\
  0 <= fd < fdt_nfiles fdt1 /\ view fdt fd = None /\
  exists map', fdt2 = set_map fdt1 map' /\
    forall e, is_Some (fde_file e) -> map_for fdt1 fd e map'.

Lemma free_entry fdt fd :
  wf_fdt fdt -> 0 <= fd < fdt_nfiles fdt -> view fdt fd = None ->
  exists e, fdt_entries fdt !! Z.to_nat fd = Some e /\ fde_file e = None.
Proof.
  intros W Hfd Hv. destruct (entry_at fdt fd W Hfd) as (e & He & _ & Hve & _).
  exists e. split; [done|]. rewrite Hv in Hve. by destruct e as [[]].
Qed.

Lemma mark_used_result fdt fdt1 fd n :
  wf_fdt fdt -> wf_fdt fdt1 -> fdt_nfiles fdt <= fdt_nfiles fdt1 ->
  fdt_entries fdt1 = fdt_entries fdt ++ replicate n fdent0 ->
  0 <= fd < fdt_nfiles fdt1 -> view fdt fd = None ->
  exists fdt2, fd_mark_used fdt1 fd = Ok fdt2 /\ alloc_result fdt fd fdt1 fdt2.
Proof.
  intros W W1 Hn He Hfd Hv.
  destruct (free_entry fdt1 fd W1 Hfd) as (e & Hx & Hf).
  { by rewrite (grow_view fdt fdt1 n). }
  destruct (mark_used_spec fdt1 fd e (Fdent (Some 0) false) W1 Hfd Hx Hf)
    as (m & Hm & _ & Hfor); [done|].
  exists (set_map fdt1 m). split; [done|]. unfold alloc_result. split_and!; try done || lia.
  - by exists n.
  - exists m. split; [done|]. intros e' He'. destruct Hfor as (Hb & Hl & Hg).
    split_and!; try done. intros j Hj. rewrite Hg by done.
    destruct (j =? fd); [|done]. symmetry. by apply bool_decide_eq_true.
Qed.

Lemma view_None_iff fdt i :
  wf_fdt fdt -> 0 <= i < fdt_nfiles fdt ->
  view fdt i = None <-> bget (fdt_map fdt) i = false.
Proof.
  intros W Hi. rewrite wf_used by done.
  destruct (entry_at fdt i W Hi) as ([f b] & He & _ & -> & _).
  erewrite list_lookup_total_correct by done. by destruct f.
Qed.

(** [fd_alloc] finds the lowest free descriptor not below [minfd]. *)
Lemma fd_alloc_spec fdt minfd :
  wf_fdt fdt -> 0 <= minfd ->
  (fd_alloc fdt minfd = Ok (EMFILE, -1, fdt) /\
     forall j, minfd <= j < MAXFILES -> view fdt j <> None) \/
  (exists fd fdt1 fdt2, fd_alloc fdt minfd = Ok (0, fd, fdt2) /\
     alloc_result fdt fd fdt1 fdt2 /\ minfd <= fd < MAXFILES /\
     forall j, minfd <= j < fd -> view fdt j <> None).
Proof.
  intros W Hmin. unfold fd_alloc. pose proof (wf_n _ W) as Hn. unfold NDFILE in Hn.
  destruct (Z.leb_spec MAXFILES minfd) as [|Hlt]; [left; split; [done|lia]|].
  assert (MAXFILES = 1024) as HM by done.
  destruct (bit_ffc_from_spec (fdt_map fdt) (fdt_nfiles fdt) minfd)
    as (r & Hr & Hcase); [apply W|lia|]. rewrite Hr. cbn [mbind outcome_bind].
  destruct Hcase as [[-> Hall]|(Hrange & Hfree & Hbelow)].
  - assert (forall j, minfd <= j < fdt_nfiles fdt -> view fdt j <> None) as Hused.
    { intros j Hj. rewrite view_None_iff by (done || lia). by rewrite Hall. }
    cbn [Z.ltb Z.compare]. destruct (Z.eqb_spec (fdt_nfiles fdt) MAXFILES) as [E|E].
    { left. split; [done|]. rewrite <- E. done. }
    right.
    set (new := Z.min (Z.max (minfd + 1) (fdt_nfiles fdt * 2)) MAXFILES).
    destruct (grow_spec fdt new W) as (fdt1 & -> & W1 & Hn1 & Hc1 & He1); [lia|].
    cbn [mbind outcome_bind].
    destruct (mark_used_result fdt fdt1 (Z.max minfd (fdt_nfiles fdt)) _ W W1 ltac:(lia) He1)
      as (fdt2 & -> & Ha); [lia| |].
    { unfold view. destruct (_ && _) eqn:E'; [lia|done]. }
    exists (Z.max minfd (fdt_nfiles fdt)), fdt1, fdt2. split_and!; try done || lia.
    intros j Hj. apply Hused. lia.
  - right. rewrite (proj2 (Z.ltb_ge r 0)) by lia.
    destruct (mark_used_result fdt fdt r 0 W W ltac:(lia)) as (fdt2 & -> & Ha).
    + by rewrite app_nil_r.
    + lia.
    + apply view_None_iff; [done|lia|done].
    + exists r, fdt, fdt2. split_and!; try done || lia.
      intros j Hj. rewrite view_None_iff by (done || lia). by rewrite Hbelow.
Qed.

(** Installing a file the caller holds a reference to. *)
Lemma install_spec B fdt k ext f minfd x :
  fd_inv B fdt k ext -> files k !! f = Some x -> 0 <= minfd ->
  B + 1 + MAXFILES < UINT_MAX ->
  (fdtab_install_file fdt k (Some f) minfd = Ok (EMFILE, -1, fdt, k) /\
     forall j, minfd <= j < MAXFILES -> view fdt j <> None) \/
  (exists fd fdt',
     fdtab_install_file fdt k (Some f) minfd =
       Ok (0, fd, fdt', set_obj k f (set_count x (f_count x + 1))) /\
     fd_inv B fdt' (set_obj k f (set_count x (f_count x + 1))) ext /\
     fdt_nfiles fdt <= fdt_nfiles fdt' /\ fd < fdt_nfiles fdt' /\
     minfd <= fd < MAXFILES /\ view fdt fd = None /\
     (forall j, minfd <= j < fd -> view fdt j <> None) /\
     forall j, view fdt' j = if j =? fd then Some (f, false) else view fdt j).
Proof.
  intros I Hx Hmin Hb. pose proof (inv_wf _ _ _ _ I) as W.
  unfold fdtab_install_file.
  destruct (fd_alloc_spec fdt minfd W Hmin)
    as [[-> Hall]|(fd & fdt1 & fdt2 & -> & Ha & Hfd & Hlow)]; [by left|right].
  cbn [mbind outcome_bind Z.eqb negb].
  destruct Ha as (W1 & Hn & (n & He) & Hfd1 & Hv & m & -> & Hfor).
  pose proof (wf_len _ W1) as Hl1. cbn [set_map fdt_entries].
  rewrite arr_set_ok by lia. cbn [mbind outcome_bind].
  destruct (hold_spec _ _ _ _ f x I Hx Hb) as [-> I1]. cbn [mbind outcome_bind].
  exists fd, (put_entry fdt1 fd (Fdent (Some f) false) m). split_and!; try done; cbn; try lia.
  - destruct (free_entry fdt1 fd W1 Hfd1) as (e0 & He0 & Hf0).
    { by rewrite (grow_view fdt fdt1 n). }
    eapply put_entry_inv; [eapply grow_inv; [exact I1|done|done]|done|by apply Hfor|done| | |].
    + intros g. unfold ext_add, refs_to. cbn. rewrite Hf0.
      destruct (Z.eqb_spec g f) as [->|]; repeat destruct (decide _); simplify_eq; lia.
    + apply I.
    + apply I.
  - intros j. rewrite put_entry_view by done. by rewrite (grow_view fdt fdt1 n).
Qed.
End allocation.

(** ** System calls keep the counts exact *)

Section calls.
Context `{Arch}.
Implicit Types (fdt : fdtab) (k : kfiles).

Lemma get_file_spec B fdt k ext fd flags :
  fd_inv B fdt k ext -> fd <> fdt_nfiles fdt -> B + 1 + MAXFILES < UINT_MAX ->
  fdtab_get_file (Some fdt) k fd flags = Ok (EBADF, 0, k) \/
  (exists f b x, view fdt fd = Some (f, b) /\ files k !! f = Some x /\ 0 < f_count x /\
     let k' := set_obj k f (set_count x (f_count x + 1)) in
     fdtab_get_file (Some fdt) k fd flags = Ok (0, f, k') /\
     fd_inv (B + 1) fdt k' (ext_add f 1 ext)).
Proof.
  intros I Hne Hb. pose proof (inv_wf _ _ _ _ I) as W. unfold fdtab_get_file.
  destruct (used_or_bad fdt fd W Hne) as [[_ [->|[-> ->]]]|(f & b & Hv & -> & -> & ->)];
    [by left|by left|].
  cbn [mbind outcome_bind negb fde_file].
  destruct (view_Some _ _ _ _ W Hv) as [_ He].
  assert (0 < refcount k f) as Hp.
  { rewrite (inv_refs _ _ _ _ I). pose proof (inv_ext _ _ _ _ I f).
    assert (0 < occ f (fdt_entries fdt)) by (apply occ_pos; eauto). lia. }
  destruct (refcount_lookup k f Hp) as (x & Hx & Hc).
  destruct (hold_spec _ _ _ _ f x I Hx Hb) as [-> I1]. cbn [mbind outcome_bind].
  unfold get_obj. cbn. rewrite lookup_insert_eq. cbn [mbind outcome_bind].
  destruct (_ || _).
  - left. erewrite drop_hold by (done || lia). done.
  - right. exists f, b, x. split_and!; try done. lia.
Qed.

(** Giving back the reference [fdtab_get_file] took. *)
Lemma release_spec B fdt k ext f :
  fd_inv (B + 1) fdt k (ext_add f 1 ext) -> (forall g, 0 <= ext g <= B) ->
  exists k', file_drop k f = Ok k' /\ fd_inv B fdt k' ext.
Proof.
  intros I He. destruct (drop_spec _ _ _ _ f I) as (k' & -> & I' & _).
  { unfold ext_add. rewrite Z.eqb_refl. pose proof (He f). lia. }
  exists k'. split; [done|]. destruct I' as [W R E Bd]. split; try done.
  - intros g. rewrite R. unfold ext_add. destruct (g =? f); lia.
  - lia.
Qed.

Lemma set_cloexec_spec B fdt k ext fd f b c :
  fd_inv B fdt k ext -> view fdt fd = Some (f, b) ->
  let fdt' := put_entry fdt fd (Fdent (Some f) c) (fdt_map fdt) in
  fd_set_cloexec fdt fd c = Ok (0, fdt') /\ fd_inv B fdt' k ext /\
  forall j, view fdt' j = if j =? fd then Some (f, c) else view fdt j.
Proof.
  intros I Hv fdt'. pose proof (inv_wf _ _ _ _ I) as W.
  destruct (view_Some _ _ _ _ W Hv) as [Hfd He].
  assert (map_for fdt fd (Fdent (Some f) c) (fdt_map fdt)) as Hfor.
  { split_and!; [apply W|done|]. intros j Hj. destruct (Z.eqb_spec j fd) as [->|]; [|done].
    rewrite (wf_used _ W) by done. by erewrite list_lookup_total_correct by done. }
  unfold fd_set_cloexec.
  destruct (used_or_bad fdt fd W) as [[E _]|(f' & b' & Hv' & -> & -> & ->)]; [lia|congruence|].
  cbn [mbind outcome_bind negb]. rewrite Hv in Hv'. simplify_eq.
  pose proof (wf_len _ W). rewrite arr_set_ok by lia. split_and!; [done| |].
  - eapply put_entry_inv; try done; try apply I.
    intros g. unfold refs_to. cbn. lia.
  - intros j. by apply put_entry_view.
Qed.

(** [fdtab_install_file_at] of a file that is not already there. *)
Lemma install_at_spec B fdt k ext f fd x :
  fd_inv B fdt k ext -> files k !! f = Some x -> 0 < ext f -> fd <> fdt_nfiles fdt ->
  (forall b, view fdt fd <> Some (f, b)) -> B + 1 + MAXFILES < UINT_MAX ->
  fdtab_install_file_at fdt k (Some f) fd = Ok (EBADF, fdt, k) \/
  (exists fdt' k', fdtab_install_file_at fdt k (Some f) fd = Ok (0, fdt', k') /\
     fd_inv B fdt' k' ext /\
     forall j, view fdt' j = if j =? fd then Some (f, false) else view fdt j).
Proof.
  intros I Hx Hf Hne Hns Hb. pose proof (inv_wf _ _ _ _ I) as W.
  unfold fdtab_install_file_at.
  destruct (is_bad_fd fdt fd) eqn:Hbad; [by left|right].
  assert (0 <= fd < fdt_nfiles fdt) as Hfd by (unfold is_bad_fd in Hbad; lia).
  (* once the slot is free *)
  assert (forall fdt1 k1, fd_inv B fdt1 k1 ext -> 0 <= fd < fdt_nfiles fdt1 ->
    view fdt1 fd = None -> is_Some (files k1 !! f) ->
    exists fdt' k', (fdt2 ← (es ← arr_set (fdt_entries fdt1) fd (Fdent (Some f) false);
        fd_mark_used (set_entries fdt1 es) fd);
      k2 ← file_hold k1 f; Ok (0, fdt2, k2)) = Ok (0, fdt', k') /\
      fd_inv B fdt' k' ext /\
      forall j, view fdt' j = if j =? fd then Some (f, false) else view fdt1 j) as Hput.
  { intros fdt1 k1 I1 Hfd1 Hv1 [x1 Hx1]. pose proof (inv_wf _ _ _ _ I1) as W1.
    destruct (free_entry _ _ W1 Hfd1 Hv1) as (e0 & He0 & Hn0). pose proof (wf_len _ W1).
    rewrite arr_set_ok by lia. cbn [mbind outcome_bind].
    destruct (mark_used_spec fdt1 fd e0 (Fdent (Some f) false) W1 Hfd1 He0 Hn0)
      as (m & _ & -> & Hfor); [done|]. cbn [mbind outcome_bind].
    destruct (hold_spec _ _ _ _ f x1 I1 Hx1 Hb) as [-> I2].
    do 2 eexists. split; [done|]. split; [|intros j; by apply put_entry_view].
    eapply put_entry_inv; [exact I2|done|done|done| |apply I|apply I].
    intros g. unfold ext_add, refs_to. cbn. rewrite Hn0.
    destruct (Z.eqb_spec g f) as [->|]; repeat destruct (decide _); simplify_eq; lia. }
  destruct (used_or_bad fdt fd W Hne) as [[Hv [Hb'|[_ ->]]]|(g & b & Hv & _ & -> & ->)];
    [congruence| |]; cbn [mbind outcome_bind fde_file].
  - destruct (Hput fdt k) as (fdt' & k' & -> & HH); try done; eauto.
  - destruct (decide (Some g = Some f)) as [E|E]; [simplify_eq; by destruct (Hns b)|].
    destruct (fd_free_spec _ _ _ _ _ _ _ I Hv Hb) as (m & k1 & -> & I1 & D).
    cbn [mbind outcome_bind].
    destruct (Hput (put_entry fdt fd fdent0 m) k1) as (fdt' & k' & -> & I' & Hview);
      [done|done| | |].
    + rewrite put_entry_view by done. by rewrite Z.eqb_refl.
    + rewrite (dr_other _ _ _ D) by congruence. eauto.
    + exists fdt', k'. split_and!; try done. intros j. rewrite Hview, put_entry_view by done.
      by destruct (j =? fd).
Qed.
End calls.

Section loops.
Context `{Arch}.
Implicit Types (fdt : fdtab) (k : kfiles).

(** The descriptors [fd .. fd + n) that satisfy [p] are closed. *)
Definition close_range (p : Z * bool -> bool) (fd : Z) (n : nat) fdt (fdt' : fdtab) : Prop :=
  fdt_nfiles fdt' = fdt_nfiles fdt /\
  forall j, view fdt' j =
    match view fdt j with
    | Some e => if (fd <=? j) && (j <? fd + Z.of_nat n) && p e then None else Some e
    | None => None
    end.

Lemma close_range_nil p fd fdt : close_range p fd 0 fdt fdt.
Proof.
  split; [done|]. intros j. destruct (view fdt j); [|done].
  destruct (_ && _ && _) eqn:E; [lia|done].
Qed.

Lemma close_range_keep p fd n fdt fdt' :
  close_range p (fd + 1) n fdt fdt' ->
  (forall e, view fdt fd = Some e -> p e = false) -> close_range p fd (S n) fdt fdt'.
Proof.
  intros [Hn Hv] Hp. split; [done|]. intros j. rewrite Hv.
  destruct (view fdt j) as [e|] eqn:E; [|done].
  destruct (decide (j = fd)) as [->|Hne].
  - rewrite (Hp e E), !andb_false_r. done.
  - destruct (_ && _ && _) eqn:E1; destruct (_ && _ && _) eqn:E2 in |- *; try done; lia.
Qed.

Lemma close_range_close p fd n fdt fdt1 fdt' e :
  view fdt fd = Some e -> p e = true -> fdt_nfiles fdt1 = fdt_nfiles fdt ->
  (forall j, view fdt1 j = if j =? fd then None else view fdt j) ->
  close_range p (fd + 1) n fdt1 fdt' -> close_range p fd (S n) fdt fdt'.
Proof.
  intros He Hp Hn1 Hv1 [Hn Hv]. split; [congruence|]. intros j. rewrite Hv, Hv1.
  destruct (Z.eqb_spec j fd) as [->|Hne].
  - rewrite He, Hp, andb_true_r. destruct (_ && _) eqn:E; [done|lia].
  - destruct (view fdt j); [|done].
    destruct (_ && _ && _) eqn:E1; destruct (_ && _ && _) eqn:E2 in |- *; try done; lia.
Qed.

Lemma close_used B fdt k ext fd f b :
  fd_inv B fdt k ext -> view fdt fd = Some (f, b) -> B + 1 + MAXFILES < UINT_MAX ->
  exists fdt' k', fdtab_close_fd fdt k fd = Ok (0, fdt', k') /\ fd_inv B fdt' k' ext /\
    fdt_nfiles fdt' = fdt_nfiles fdt /\
    forall j, view fdt' j = if j =? fd then None else view fdt j.
Proof.
  intros I Hv Hb. destruct (view_Some _ _ _ _ (inv_wf _ _ _ _ I) Hv).
  pose proof (close_spec B fdt k ext fd I ltac:(lia) Hb) as Hc. rewrite Hv in Hc.
  naive_solver.
Qed.

Lemma onexec_loop_spec B ext n : forall fd fdt k,
  fd_inv B fdt k ext -> 0 <= fd -> fd + Z.of_nat n <= fdt_nfiles fdt ->
  B + 1 + MAXFILES < UINT_MAX ->
  exists fdt' k', onexec_loop n fd fdt k = Ok (0, fdt', k') /\ fd_inv B fdt' k' ext /\
    close_range snd fd n fdt fdt'.
Proof.
  induction n as [|n IH]; intros fd fdt k I Hfd Hn Hb; cbn [onexec_loop].
  { exists fdt, k. split_and!; try done. apply close_range_nil. }
  pose proof (inv_wf _ _ _ _ I) as W.
  destruct (used_or_bad fdt fd W ltac:(lia)) as [[Hv [Hbad|[_ ->]]]|(f & b & Hv & _ & -> & ->)];
    cbn [mbind outcome_bind fde_cloexec].
  - unfold is_bad_fd in Hbad. lia.
  - destruct (IH (fd + 1) fdt k) as (fdt' & k' & -> & I' & R); [done|lia..|done|].
    exists fdt', k'. split_and!; try done. apply close_range_keep; [done|congruence].
  - destruct b.
    + destruct (close_used _ _ _ _ _ _ _ I Hv Hb) as (fdt1 & k1 & -> & I1 & Hn1 & Hv1).
      cbn [mbind outcome_bind Z.eqb negb].
      destruct (IH (fd + 1) fdt1 k1) as (fdt' & k' & -> & I' & R); [done|lia..|done|].
      exists fdt', k'. split_and!; try done. by eapply close_range_close.
    + destruct (IH (fd + 1) fdt k) as (fdt' & k' & -> & I' & R); [done|lia..|done|].
      exists fdt', k'. split_and!; try done. apply close_range_keep; [done|].
      intros e He. by simplify_eq.
Qed.

(** Files do not change their type while they are in memory. *)
Lemma onfork_loop_inv B ext n : forall fd fdt k,
  fd_inv B fdt k ext -> 0 <= fd -> fd + Z.of_nat n <= fdt_nfiles fdt ->
  B + 1 + MAXFILES < UINT_MAX ->
  exists fdt' k', onfork_loop n fd fdt k = Ok (0, fdt', k') /\ fd_inv B fdt' k' ext /\
    fdt_nfiles fdt' = fdt_nfiles fdt.
Proof.
  induction n as [|n IH]; intros fd fdt k I Hfd Hn Hb; cbn [onfork_loop].
  { exists fdt, k. done. }
  pose proof (inv_wf _ _ _ _ I) as W.
  destruct (used_or_bad fdt fd W ltac:(lia)) as [[Hv [Hbad|[_ ->]]]|(f & b & Hv & _ & -> & ->)];
    cbn [mbind outcome_bind fde_file].
  - unfold is_bad_fd in Hbad. lia.
  - apply IH; [done|lia..|done].
  - destruct (view_Some _ _ _ _ W Hv) as [_ He].
    assert (0 < refcount k f) as Hp.
    { rewrite (inv_refs _ _ _ _ I). pose proof (inv_ext _ _ _ _ I f).
      assert (0 < occ f (fdt_entries fdt)) by (apply occ_pos; eauto). lia. }
    destruct (refcount_lookup k f Hp) as (x & Hx & _).
    unfold get_obj. rewrite Hx. cbn [mbind outcome_bind].
    case_bool_decide.
    + destruct (close_used _ _ _ _ _ _ _ I Hv Hb) as (fdt1 & k1 & -> & I1 & Hn1 & Hv1).
      cbn [mbind outcome_bind Z.eqb negb].
      destruct (IH (fd + 1) fdt1 k1) as (fdt' & k' & -> & I' & R); [done|lia..|done|].
      exists fdt', k'. split_and!; try done. congruence.
    + apply IH; [done|lia..|done].
Qed.

Lemma drop_loop_spec B ext n : forall fd fdt k,
  fd_inv B fdt k ext -> 0 <= fd -> fd + Z.of_nat n <= fdt_nfiles fdt ->
  B + 1 + MAXFILES < UINT_MAX ->
  exists fdt' k', drop_loop n fd fdt k = Ok (fdt', k') /\ fd_inv B fdt' k' ext /\
    close_range (fun _ => true) fd n fdt fdt'.
Proof.
  induction n as [|n IH]; intros fd fdt k I Hfd Hn Hb; cbn [drop_loop].
  { exists fdt, k. split_and!; try done. apply close_range_nil. }
  pose proof (inv_wf _ _ _ _ I) as W.
  destruct (used_or_bad fdt fd W ltac:(lia)) as [[Hv [Hbad|[_ ->]]]|(f & b & Hv & _ & -> & _)];
    cbn [mbind outcome_bind].
  - unfold is_bad_fd in Hbad. lia.
  - destruct (IH (fd + 1) fdt k) as (fdt' & k' & -> & I' & R); [done|lia..|done|].
    exists fdt', k'. split_and!; try done. apply close_range_keep; [done|congruence].
  - destruct (fd_free_spec _ _ _ _ _ _ _ I Hv Hb) as (m & k1 & -> & I1 & _).
    cbn [mbind outcome_bind].
    destruct (IH (fd + 1) (put_entry fdt fd fdent0 m) k1) as (fdt' & k' & -> & I' & R);
      [done|lia|cbn; lia|done|].
    exists fdt', k'. split_and!; try done. eapply (close_range_close _ _ _ _ (put_entry fdt fd fdent0 m)); [done..| |done].
    intros j. apply put_entry_view; [done|lia].
Qed.

Lemma occ_all_free fdt f :
  wf_fdt fdt -> (forall j, view fdt j = None) -> occ f (fdt_entries fdt) = 0.
Proof.
  intros W Hv. pose proof (occ_bound f (fdt_entries fdt)).
  destruct (decide (0 < occ f (fdt_entries fdt))) as [Hp|]; [|lia].
  apply occ_pos in Hp as (i & e & Hi & He).
  apply lookup_lt_Some in Hi as Hlt. pose proof (wf_len _ W).
  pose proof (Hv (Z.of_nat i)) as Hvi. unfold view in Hvi.
  destruct (_ && _) eqn:E in Hvi; [|lia]. rewrite Nat2Z.id, Hi in Hvi. cbn in Hvi.
  rewrite He in Hvi. done.
Qed.

(** Entries copied to a new table: those in use. *)
Definition used_entry (e : fdent) : fdent :=
  match fde_file e with Some _ => e | None => fdent0 end.

Lemma copy_loop_spec fdt ext0 n : forall B i newfdt k ext pre,
  fd_inv B fdt k ext -> fdt_nfiles newfdt = fdt_nfiles fdt ->
  fdt_entries newfdt = pre ++ replicate n fdent0 ->
  i = Z.of_nat (length pre) -> i + Z.of_nat n = fdt_nfiles fdt ->
  pre = used_entry <$> take (length pre) (fdt_entries fdt) ->
  (forall f, ext f = ext0 f + occ f pre) -> (forall f, 0 <= ext0 f) ->
  B + Z.of_nat n + MAXFILES < UINT_MAX ->
  exists newfdt' k', copy_loop n i fdt newfdt k = Ok (newfdt', k') /\
    fdt_entries newfdt' = used_entry <$> fdt_entries fdt /\
    fdt_nfiles newfdt' = fdt_nfiles fdt /\ fdt_map newfdt' = fdt_map newfdt /\
    fdt_count newfdt' = fdt_count newfdt /\ closed k' = closed k /\
    fd_inv (B + Z.of_nat n) fdt k'
      (fun f => ext0 f + occ f (used_entry <$> fdt_entries fdt)).
Proof.
  induction n as [|n IH]; intros B i newfdt k ext pre I Hn He Hi Hin Hpre Hext Hext0 Hb;
    cbn [copy_loop]; pose proof (inv_wf _ _ _ _ I) as W; pose proof (wf_len _ W) as Hl.
  { exists newfdt, k.
    assert (pre = used_entry <$> fdt_entries fdt) as Hp
      by (rewrite Hpre at 1; rewrite take_ge by lia; done).
    rewrite He, app_nil_r. split_and!; try done.
    rewrite Z.add_0_r, <- Hp. destruct I as [W' R E Bd]. split; try done.
    - intros f. rewrite <- Hext. apply R.
    - intros f. rewrite <- Hext. apply E. }
  destruct (lookup_lt_is_Some_2 (fdt_entries fdt) (length pre)) as [e Hx]; [lia|].
  assert (pre ++ [used_entry e] =
    used_entry <$> take (length (pre ++ [used_entry e])) (fdt_entries fdt)) as Hpre'.
  { rewrite length_app. cbn. rewrite Nat.add_1_r, (take_S_r _ _ e), fmap_app by done.
    by rewrite <- Hpre. }
  destruct (entry_at fdt i W ltac:(lia)) as (e' & He' & Hg & Hv & Hu).
  subst i. rewrite Nat2Z.id in He'. simplify_eq. rewrite Hu. cbn [mbind outcome_bind].
  unfold used_entry in Hpre' at 1 2. destruct e as [[f|] c]; cbn [fde_file] in *.
  - rewrite bool_decide_eq_true_2 by done. rewrite Hg. cbn [mbind outcome_bind].
    rewrite arr_set_ok by (rewrite He, length_app, length_replicate; lia).
    cbn [mbind outcome_bind fde_file].
    assert (0 < refcount k f) as Hp.
    { rewrite (inv_refs _ _ _ _ I). pose proof (inv_ext _ _ _ _ I f).
      assert (0 < occ f (fdt_entries fdt)) by (apply occ_pos; eauto). lia. }
    destruct (refcount_lookup k f Hp) as (x & Hxf & _).
    destruct (hold_spec _ _ _ _ f x I Hxf ltac:(lia)) as [-> I1]. cbn [mbind outcome_bind].
    edestruct (IH (B + 1) (Z.of_nat (length pre) + 1)
      (set_entries newfdt (<[Z.to_nat (Z.of_nat (length pre)) := Fdent (Some f) c]>
         (fdt_entries newfdt))) _ _ (pre ++ [Fdent (Some f) c]) I1)
      as (new' & k' & Hr & Hes & Hnf & Hm & Hc & Hcl & I'); try done || lia.
    + cbn. rewrite He, Nat2Z.id, <- app_assoc.
      rewrite insert_app_r_alt by lia. by rewrite Nat.sub_diag.
    + rewrite length_app. cbn. lia.
    + intros g. rewrite occ_app. cbn. unfold ext_add. rewrite Hext.
      destruct (Z.eqb_spec g f) as [->|]; destruct (decide _); simplify_eq; lia.
    + exists new', k'. split_and!; try done.
      replace (B + Z.of_nat (S n)) with (B + 1 + Z.of_nat n) by lia. done.
  - cbn [fde_file]. rewrite bool_decide_eq_false_2 by (by intros []).
    edestruct (IH B (Z.of_nat (length pre) + 1) newfdt k ext (pre ++ [fdent0]) I)
      as (new' & k' & Hr & Hes & Hnf & Hm & Hc & Hcl & I'); try done || lia.
    + rewrite He, <- app_assoc. done.
    + rewrite length_app. cbn. lia.
    + intros g. rewrite occ_app. cbn. rewrite Hext. destruct (decide _); [done|lia].
    + exists new', k'. split_and!; try done. destruct I' as [W' R E Bd].
      split; try done; try lia. intros g. pose proof (E g). lia.
Qed.
End loops.

(** ** Sequences of calls *)

(** The methods of files are arbitrary functions of the call. *)
Inductive fd_call :=
| Close (fd : Z)
| Dup (fd : Z)
| Dup2 (oldfd newfd : Z)
| Fcntl (fd cmd arg : Z)
| Read (fo_read : Z -> Z -> Z) (fd : Z)
| Write (fo_write : Z -> Z -> Z) (fd : Z)
| Method (fo : Z -> Z) (fd : Z)
| Ioctl (fo : Z -> Z) (fd : Z)
| OnExec
| OnFork.

Section sequences.
Context `{Arch}.
Implicit Types (fdt : fdtab) (k : kfiles).

Definition do_fd_call fdt k (c : fd_call) : outcome (Z * fdtab * kfiles) :=
  match c with
  | Close fd => do_close fdt k fd
  | Dup fd => '(error, _, fdt, k) ← do_dup fdt k fd; Ok (error, fdt, k)
  | Dup2 oldfd newfd => do_dup2 fdt k oldfd newfd
  | Fcntl fd cmd arg => '(error, _, fdt, k) ← do_fcntl fdt k fd cmd arg; Ok (error, fdt, k)
  | Read fo fd => '(error, _, k) ← do_read fo fdt k fd; Ok (error, fdt, k)
  | Write fo fd => '(error, _, _, k) ← do_write fo fdt k fd; Ok (error, fdt, k)
  | Method fo fd => '(error, k) ← do_method fo fdt k fd; Ok (error, fdt, k)
  | Ioctl fo fd => '(error, k) ← do_ioctl fo fdt k fd; Ok (error, fdt, k)
  | OnExec => fdtab_onexec fdt k
  | OnFork => fdtab_onfork fdt k
  end.

Fixpoint do_fd_calls fdt k (cs : list fd_call) : outcome (fdtab * kfiles) :=
  match cs with
  | [] => Ok (fdt, k)
  | c :: cs => '(_, fdt, k) ← do_fd_call fdt k c; do_fd_calls fdt k cs
  end.

(** The descriptor one past the table is not used, [dup2] does not target a
    descriptor of the same file, a duplicate's lower bound is not negative. *)
Definition call_ok fdt (c : fd_call) : bool :=
  match c with
  | Close fd | Dup fd | Read _ fd | Write _ fd | Method _ fd | Ioctl _ fd =>
      negb (fd =? fdt_nfiles fdt)
  | Dup2 oldfd newfd =>
      negb (oldfd =? fdt_nfiles fdt) && negb (newfd =? fdt_nfiles fdt) &&
      ((oldfd =? newfd) ||
       match view fdt oldfd, view fdt newfd with
       | Some (f, _), Some (g, _) => negb (f =? g)
       | _, _ => true
       end)
  | Fcntl fd _ arg => negb (fd =? fdt_nfiles fdt) && (0 <=? arg)
  | OnExec | OnFork => true
  end.

Fixpoint calls_ok fdt k (cs : list fd_call) : bool :=
  match cs with
  | [] => true
  | c :: cs =>
      call_ok fdt c &&
      match do_fd_call fdt k c with
      | Ok (_, fdt', k') => calls_ok fdt' k' cs
      | Fault _ => true
      end
  end.

Definition inv_after B ext (r : outcome (Z * fdtab * kfiles)) : Prop :=
  exists e fdt k, r = Ok (e, fdt, k) /\ fd_inv B fdt k ext.

(** The calls that borrow a reference: [fdtab_get_file], an operation that keeps
    the invariant, [file_drop]. *)
Lemma borrow_inv {X} B fdt k ext fd flags (stop : Z -> kfiles -> X)
    (body : Z -> kfiles -> outcome X) (ok : X -> Prop) :
  fd_inv B fdt k ext -> fd <> fdt_nfiles fdt -> B + 1 + MAXFILES < UINT_MAX ->
  (forall e, ok (stop e k)) ->
  (forall f b x, view fdt fd = Some (f, b) -> files k !! f = Some x ->
     let k' := set_obj k f (set_count x (f_count x + 1)) in
     fd_inv (B + 1) fdt k' (ext_add f 1 ext) ->
     exists r, body f k' = Ok r /\ ok r) ->
  exists r, ('(error, f, k) ← fdtab_get_file (Some fdt) k fd flags;
     if negb (error =? 0) then Ok (stop error k) else body f k) = Ok r /\ ok r.
Proof.
  intros I Hne Hb Hs Hbody.
  destruct (get_file_spec B fdt k ext fd flags I Hne Hb)
    as [->|(f & b & x & Hv & Hx & Hc & -> & I1)]; cbn [mbind outcome_bind Z.eqb negb].
  - eexists. split; [done|]. apply Hs.
  - by eapply Hbody.
Qed.

Lemma install_borrowed B fdt k ext f b x minfd fd :
  view fdt fd = Some (f, b) -> 0 <= minfd -> files k !! f = Some x ->
  fd_inv (B + 1) fdt k (ext_add f 1 ext) -> B + 2 + MAXFILES < UINT_MAX ->
  exists e r fdt' k', fdtab_install_file fdt k (Some f) minfd = Ok (e, r, fdt', k') /\
    fd_inv (B + 1) fdt' k' (ext_add f 1 ext) /\ (e = 0 \/ e = EMFILE) /\
    exists b', view fdt' fd = Some (f, b').
Proof.
  intros Hv Hm Hx I Hb.
  destruct (install_spec (B + 1) fdt k (ext_add f 1 ext) f minfd x I Hx Hm ltac:(lia))
    as [[-> _]|(r & fdt' & -> & I' & _ & _ & _ & Hn & _ & Hvw)].
  - exists EMFILE, (-1), fdt, k. eauto 10.
  - exists 0, r, fdt'. eexists. split; [done|]. split_and!; [done|by left|].
    exists b. rewrite Hvw. destruct (Z.eqb_spec fd r); [congruence|done].
Qed.

(** Changing the flags of a file. *)
Lemma set_flags_inv B fdt k ext f x fl :
  fd_inv B fdt k ext -> files k !! f = Some x ->
  fd_inv B fdt (set_obj k f (set_flags x fl)) ext.
Proof.
  intros [W R E Bd] Hx. split; try done. intros g. rewrite refcount_set_obj. cbn.
  destruct (Z.eqb_spec g f) as [->|]; [|apply R].
  rewrite <- R. unfold refcount. by rewrite Hx.
Qed.

Lemma do_fcntl_inv B fdt k ext fd cmd arg :
  fd_inv B fdt k ext -> fd <> fdt_nfiles fdt -> 0 <= arg -> B + 2 + MAXFILES < UINT_MAX ->
  exists r, do_fcntl fdt k fd cmd arg = Ok r /\ fd_inv B r.1.2 r.2 ext.
Proof.
  intros I Hne Ha Hb. unfold do_fcntl.
  apply (borrow_inv B fdt k ext fd 0 (fun e k => (e, 0, fdt, k)) _
    (fun r => fd_inv B r.1.2 r.2 ext)); [done|done|lia|done|].
  intros f b x Hv Hx k' I1.
  assert (files k' !! f = Some (set_count x (f_count x + 1))) as Hx'
    by (unfold k'; cbn; by rewrite lookup_insert_eq).
  clearbody k'.
  match goal with |- exists r, (?m ≫= ?g) = Ok r /\ _ =>
    assert (exists e res fdt2 k2, m = Ok (e, res, fdt2, k2) /\
      fd_inv (B + 1) fdt2 k2 (ext_add f 1 ext)) as (e & res & fdt2 & k2 & -> & I2) end.
  2:{ cbn [mbind outcome_bind].
      destruct (release_spec _ _ _ _ _ I2 (inv_ext _ _ _ _ I)) as (k3 & -> & I3).
      eexists. split; [done|]. done. }
  repeat match goal with |- context [if ?c then _ else _] => destruct c end;
    try (destruct (set_cloexec_spec _ _ _ _ _ _ _ (arg =? FD_CLOEXEC) I1 Hv) as (-> & I2 & _));
    unfold get_obj; rewrite ?Hx'; cbn [mbind outcome_bind];
    try (do 4 eexists; split; [done|done || by apply set_flags_inv]).
  - destruct (install_borrowed _ _ _ _ _ _ _ arg fd Hv Ha Hx' I1 Hb)
      as (e & r & fdt2 & k2 & -> & I2 & [->| ->] & b' & Hv'); cbn [mbind outcome_bind Z.eqb negb EMFILE].
    + destruct (set_cloexec_spec _ _ _ _ _ _ _ (cmd =? F_DUPFD_CLOEXEC) I2 Hv') as (-> & I3 & _).
      cbn [mbind outcome_bind]. eauto 10.
    + eauto 10.
  - unfold fd_get_cloexec.
    destruct (used_or_bad fdt fd (inv_wf _ _ _ _ I) Hne)
      as [[_ [->|[-> ->]]]|(f' & b' & _ & -> & -> & ->)]; cbn [mbind outcome_bind negb];
      eauto 10.
Qed.

Lemma do_dup2_inv B fdt k ext oldfd newfd :
  fd_inv B fdt k ext -> call_ok fdt (Dup2 oldfd newfd) = true ->
  B + 2 + MAXFILES < UINT_MAX -> inv_after B ext (do_dup2 fdt k oldfd newfd).
Proof.
  intros I Hok Hb. cbn in Hok. unfold do_dup2.
  destruct (Z.eqb_spec oldfd newfd) as [->|Hne]; [by exists 0, fdt, k|].
  edestruct (borrow_inv B fdt k ext oldfd 0 (fun e k => (e, fdt, k)))
    with (ok := fun r : Z * fdtab * kfiles => fd_inv B r.1.2 r.2 ext)
    as ([[e fdt'] k'] & -> & I'); [done|lia|lia|done| |by exists e, fdt', k'].
  intros f b x Hv Hx k' I1.
  assert (files k' !! f = Some (set_count x (f_count x + 1))) as Hx'
    by (unfold k'; cbn; by rewrite lookup_insert_eq).
  clearbody k'.
  destruct (install_at_spec (B + 1) fdt k' (ext_add f 1 ext) f newfd _ I1 Hx')
    as [->|(fdt2 & k2 & -> & I2 & _)]; cbn [mbind outcome_bind].
  - unfold ext_add. rewrite Z.eqb_refl. pose proof (inv_ext _ _ _ _ I f). lia.
  - lia.
  - intros c Hc. rewrite Hv, Hc in Hok. lia.
  - lia.
  - destruct (release_spec _ _ _ _ _ I1 (inv_ext _ _ _ _ I)) as (k3 & -> & I3).
    by eexists.
  - destruct (release_spec _ _ _ _ _ I2 (inv_ext _ _ _ _ I)) as (k3 & -> & I3).
    by eexists.
Qed.

Lemma do_dup_inv B fdt k ext fd :
  fd_inv B fdt k ext -> fd <> fdt_nfiles fdt -> B + 2 + MAXFILES < UINT_MAX ->
  exists r, do_dup fdt k fd = Ok r /\ fd_inv B r.1.2 r.2 ext.
Proof.
  intros I Hne Hb. unfold do_dup.
  apply (borrow_inv B fdt k ext fd 0 (fun e k => (e, -1, fdt, k)) _
    (fun r => fd_inv B r.1.2 r.2 ext)); [done|done|lia|done|].
  intros f b x Hv Hx k' I1.
  destruct (install_borrowed B fdt k' ext f b (set_count x (f_count x + 1)) 0 fd Hv)
    as (e & r & fdt2 & k2 & -> & I2 & _); [lia| |done|lia|].
  { unfold k'; cbn; by rewrite lookup_insert_eq. }
  cbn [mbind outcome_bind].
  destruct (release_spec _ _ _ _ _ I2 (inv_ext _ _ _ _ I)) as (k3 & -> & I3).
  eexists. split; [done|]. done.
Qed.

(** The calls that run a method of the file between taking and giving back the
    reference. *)
Lemma method_inv {X} B fdt k ext fd flags (stop : Z -> X) (res : file -> Z -> X)
    (body : Z -> kfiles -> outcome (X * kfiles)) :
  (forall f k x, files k !! f = Some x ->
     body f k = (k ← file_drop k f; Ok (res x f, k))) ->
  fd_inv B fdt k ext -> fd <> fdt_nfiles fdt -> B + 1 + MAXFILES < UINT_MAX ->
  exists r k', ('(error, f, k) ← fdtab_get_file (Some fdt) k fd flags;
     if negb (error =? 0) then Ok (stop error, k) else body f k) = Ok (r, k') /\
    fd_inv B fdt k' ext.
Proof.
  intros Hbody I Hne Hb.
  destruct (borrow_inv B fdt k ext fd flags (fun e k => (stop e, k)) body
    (fun r => fd_inv B fdt r.2 ext)) as ([r k'] & -> & I'); try done; [|by exists r, k'].
  intros f b x Hv Hx k' I1.
  destruct (release_spec _ _ _ _ _ I1 (inv_ext _ _ _ _ I)) as (k3 & E & I3).
  rewrite (Hbody f k' (set_count x (f_count x + 1))), E; [by eexists|].
  unfold k'. cbn. by rewrite lookup_insert_eq.
Qed.

Lemma do_fd_call_inv B fdt k ext c :
  fd_inv B fdt k ext -> call_ok fdt c = true -> B + 2 + MAXFILES < UINT_MAX ->
  inv_after B ext (do_fd_call fdt k c).
Proof.
  intros I Hok Hb. assert (B + 1 + MAXFILES < UINT_MAX) as Hb1 by lia.
  destruct c as [fd|fd|oldfd newfd|fd cmd arg|fo fd|fo fd|fo fd|fo fd| |];
    cbn [do_fd_call call_ok] in *.
  - pose proof (close_spec B fdt k ext fd I ltac:(lia) Hb1) as Hc.
    unfold inv_after, do_close. destruct (view fdt fd) as [[f b]|]; [|by eauto 10].
    naive_solver.
  - destruct (do_dup_inv B fdt k ext fd I) as ([[[e r] fdt'] k'] & -> & I'); [lia..|].
    by exists e, fdt', k'.
  - by apply do_dup2_inv.
  - destruct (do_fcntl_inv B fdt k ext fd cmd arg I) as ([[[e r] fdt'] k'] & -> & I'); [lia..|].
    by exists e, fdt', k'.
  - edestruct (method_inv B fdt k ext fd FF_READ (fun e => (e, 0))) as ([e fl] & k' & Hr & I');
      [|done|lia|done|unfold do_read; rewrite Hr; by exists e, fdt, k'].
    intros f k' x Hx. unfold get_obj. rewrite Hx. cbn [mbind outcome_bind]. done.
  - edestruct (method_inv B fdt k ext fd FF_WRITE (fun e => (e, 0, false)))
      as ([[e fl] b] & k' & Hr & I');
      [|done|lia|done|unfold do_write; rewrite Hr; by exists e, fdt, k'].
    intros f k' x Hx. unfold get_obj. rewrite Hx. cbn [mbind outcome_bind]. done.
  - edestruct (method_inv B fdt k ext fd 0 (fun e => e)) as (e & k' & Hr & I');
      [|done|lia|done|unfold do_method; rewrite Hr; by exists e, fdt, k'].
    intros f k' x Hx. done.
  - edestruct (method_inv B fdt k ext fd 0 (fun e => e)) as (e & k' & Hr & I');
      [|done|lia|done|unfold do_ioctl, do_method; rewrite Hr; by do 3 eexists].
    intros f k' x Hx. done.
  - destruct (onexec_loop_spec B ext (Z.to_nat (fdt_nfiles fdt)) 0 fdt k)
      as (fdt' & k' & Hr & I' & _); [done|lia| |lia|by exists 0, fdt', k'].
    pose proof (wf_n _ (inv_wf _ _ _ _ I)). unfold NDFILE in *. lia.
  - destruct (onfork_loop_inv B ext (Z.to_nat (fdt_nfiles fdt)) 0 fdt k)
      as (fdt' & k' & Hr & I' & _); [done|lia| |lia|by exists 0, fdt', k'].
    pose proof (wf_n _ (inv_wf _ _ _ _ I)). unfold NDFILE in *. lia.
Qed.

Lemma fdtab_create_wf : wf_fdt fdtab_create.
Proof.
  split; cbn [fdtab_create fdt_nfiles fdt_map fdt_entries].
  - unfold NDFILE, MAXFILES. lia.
  - done.
  - done.
  - apply (wf_bits_zero 3). unfold NDFILE. lia.
  - intros i Hi. unfold NDFILE in Hi. change (Z.to_nat (bitstr_size NDFILE)) with 3%nat.
    rewrite bget_zero, lookup_total_replicate_2 by (unfold NDFILE; lia). done.
  - intros i Hi. rewrite length_replicate in Hi. apply bget_zero. unfold NDFILE in *. lia.
Qed.

(** C16: Over any sequence of descriptor system calls ([close], [dup], [dup2],
    [fcntl], [read], [write], [lseek], [fstat], [ioctl], and the closing at exec
    and fork) no assertion fails, no reference count overflows or drops below zero
    and no array is overrun; the bitmap stays in step with the entries, and the
    count of every file stays the number of its descriptors plus the references
    held elsewhere, of which there are at most [B].  The calls excluded by [call_ok] are
    those that use the descriptor one past the table, [dup2] onto a descriptor of the same
    file, and [fcntl] with a negative argument. *)
Theorem fd_calls_refcounts B ext cs : forall fdt k,
  fd_inv B fdt k ext -> calls_ok fdt k cs = true -> B + 2 + MAXFILES < UINT_MAX ->
  exists fdt' k', do_fd_calls fdt k cs = Ok (fdt', k') /\ fd_inv B fdt' k' ext.
Proof.
  induction cs as [|c cs IH]; intros fdt k I Hok Hb; cbn in *; [by exists fdt, k|].
  apply andb_true_iff in Hok as [Hc Hcs].
  destruct (do_fd_call_inv B fdt k ext c I Hc Hb) as (e & fdt1 & k1 & E & I1).
  rewrite E in *. cbn [mbind outcome_bind]. by apply IH.
Qed.

(** C33: On a consistent table, for [minfd] not negative and room in the reference counter,
    [fdtab_install_file] gives a file the lowest-numbered descriptor not below
    [minfd] that is free, growing the table when needed, takes exactly one
    reference and changes no other descriptor; it fails with [EMFILE], changing
    nothing, exactly when every descriptor from [minfd] to the limit is taken. *)
Theorem fdtab_install_file_lowest B fdt k ext f minfd x :
  fd_inv B fdt k ext -> files k !! f = Some x -> 0 <= minfd ->
  B + 1 + MAXFILES < UINT_MAX ->
  (fdtab_install_file fdt k (Some f) minfd = Ok (EMFILE, -1, fdt, k) /\
     forall j, minfd <= j < MAXFILES -> view fdt j <> None) \/
  (exists fd fdt' k', fdtab_install_file fdt k (Some f) minfd = Ok (0, fd, fdt', k') /\
     fd_inv B fdt' k' ext /\ minfd <= fd < MAXFILES /\
     view fdt fd = None /\ (forall j, minfd <= j < fd -> view fdt j <> None) /\
     (forall j, view fdt' j = if j =? fd then Some (f, false) else view fdt j) /\
     forall g, refcount k' g = refcount k g + if g =? f then 1 else 0).
Proof.
  intros I Hx Hm Hb. destruct (install_spec B fdt k ext f minfd x I Hx Hm Hb)
    as [H1|(fd & fdt' & Hr & I' & _ & _ & Hfd & Hv & Hlow & Hvw)]; [by left|right].
  do 3 eexists. split; [done|]. split_and!; try done; try lia.
  intros g. rewrite refcount_set_obj. cbn. destruct (Z.eqb_spec g f) as [->|]; [|lia].
  unfold refcount. by rewrite Hx.
Qed.

(** [fdtab_copy], the copy of a table at fork, makes a well-formed table with
    exactly the descriptors and close-on-exec flags of the original, and takes one
    reference for each of them. *)
Theorem fdtab_copy_correct B fdt k ext :
  fd_inv B fdt k ext -> B + 2 * MAXFILES < UINT_MAX ->
  exists fdt' k', fdtab_copy (Some fdt) k = Ok (fdt', k') /\ wf_fdt fdt' /\
    fdt_count fdt' = 1 /\ closed k' = closed k /\ (forall j, view fdt' j = view fdt j) /\
    fd_inv (B + MAXFILES) fdt k' (fun f => ext f + occ f (fdt_entries fdt')).
Proof.
  intros I Hb. pose proof (inv_wf _ _ _ _ I) as W. pose proof (wf_n _ W) as Hn.
  pose proof (wf_len _ W) as Hl. unfold NDFILE in Hn. unfold fdtab_copy. cbn [fdtab_create fdt_nfiles].
  pose proof fdtab_create_wf as W0.
  assert (exists new, (if NDFILE <? fdt_nfiles fdt then fd_growtable fdtab_create (fdt_nfiles fdt)
      else Ok fdtab_create) = Ok new /\ wf_fdt new /\ fdt_nfiles new = fdt_nfiles fdt /\
      fdt_count new = 1 /\ fdt_entries new = replicate (length (fdt_entries fdt)) fdent0)
    as (new & -> & Wn & Hnn & Hcn & Hen).
  { destruct (Z.ltb_spec NDFILE (fdt_nfiles fdt)) as [Hlt|Hge].
    - destruct (grow_spec fdtab_create (fdt_nfiles fdt) W0) as (new & -> & Wn & Hnn & Hcn & Hen);
        [cbn; lia|]. exists new. split_and!; try done. rewrite Hen. cbn [fdtab_create fdt_entries].
      rewrite length_replicate, <- replicate_add. f_equal. unfold NDFILE in *. lia.
    - assert (fdt_nfiles fdt = 20) as E by (unfold NDFILE in *; lia).
      exists fdtab_create. split_and!; try done. cbn [fdtab_create fdt_entries].
      f_equal. unfold NDFILE. lia. }
  cbn [mbind outcome_bind].
  destruct (copy_loop_spec fdt ext (length (fdt_entries fdt)) B 0 new k ext [])
    as (new' & k' & Hr & He & Hn' & Hm & Hc & Hcl & I'); try done || lia.
  { intros f. cbn. lia. }
  { apply I. }
  replace (Z.to_nat (fdt_nfiles fdt)) with (length (fdt_entries fdt)) by lia.
  rewrite Hr. cbn [mbind outcome_bind]. rewrite bitstr_size_spec by (unfold MAXFILES in *; lia).
  rewrite <- (wf_maplen _ W). rewrite Hm.
  assert (length (fdt_map new) = length (fdt_map fdt)) as Hlm
    by (pose proof (wf_maplen _ W); pose proof (wf_maplen _ Wn); rewrite Hnn in *; lia).
  unfold arr_copy. destruct (_ && _) eqn:E; [|lia].
  rewrite Nat2Z.id, firstn_all, <- Hlm, drop_all, app_nil_r. cbn [mbind outcome_bind].
  do 2 eexists. split; [done|].
  split_and!; cbn; try congruence.
  - split; cbn; rewrite ?Hn', ?He, ?length_fmap; try apply W.
    intros i Hi. rewrite (wf_used _ W) by done.
    destruct (lookup_lt_is_Some_2 (fdt_entries fdt) (Z.to_nat i)) as [e Hx]; [lia|].
    erewrite !list_lookup_total_correct; [|rewrite list_lookup_fmap, Hx; done|done].
    destruct e as [[f|] c]; done.
  - intros j. unfold view. cbn. rewrite Hn', He, list_lookup_fmap.
    destruct (_ && _); [|done]. destruct (fdt_entries fdt !! Z.to_nat j) as [[[f|] c]|]; done.
  - rewrite He. destruct I' as [W' R Ee Bd]. split; try done; [|lia].
    intros f. pose proof (Ee f) as Hf. cbn beta in Hf. lia.
Qed.

(** Dropping the last reference to a table closes every descriptor: afterwards
    each file has exactly the references held elsewhere, so files without any are
    gone from memory. *)
Theorem fdtab_drop_correct B fdt k ext :
  fd_inv B fdt k ext -> fdt_count fdt = 1 -> B + 1 + MAXFILES < UINT_MAX ->
  exists k', fdtab_drop fdt k = Ok (None, k') /\ (forall f, refcount k' f = ext f).
Proof.
  intros I Hc Hb. unfold fdtab_drop. rewrite Hc. cbn [refcnt_release Z.eqb mbind outcome_bind negb].
  set (fdt0 := Fdtab _ _ _ _).
  assert (fd_inv B fdt0 k ext) as I0.
  { destruct I as [[] R E Bd]. split; try done. }
  assert_step ltac:(done).
  pose proof (wf_n _ (inv_wf _ _ _ _ I0)) as Hn. cbn in Hn. unfold NDFILE in Hn.
  destruct (drop_loop_spec B ext (Z.to_nat (fdt_nfiles fdt0)) 0 fdt0 k)
    as (fdt' & k' & -> & I' & Hn' & Hv); [done|lia|cbn; lia|done|].
  exists k'. split; [done|]. intros f. rewrite (inv_refs _ _ _ _ I').
  rewrite (occ_all_free fdt'); [lia|apply I'|]. intros j. rewrite Hv.
  destruct (view fdt0 j) as [e|] eqn:E; [|done].
  destruct e as [g b]. destruct (view_Some _ _ _ _ (inv_wf _ _ _ _ I0) E) as [Hj _].
  destruct (_ && _) eqn:E'; [done|lia].
Qed.
End sequences.

(** ** Concrete instances *)

(** Descriptor 0 is open for reading and writing, descriptor 1 is read-only and
    closed on exec. *)
Definition sample_fdt : fdtab :=
  Fdtab (Fdent (Some 100) false :: Fdent (Some 200) true :: replicate 18 fdent0)
    [3; 0; 0] NDFILE 1.

Definition sample_files : kfiles :=
  Kfiles (<[100 := File true FT_VNODE 1 3]> (<[200 := File true FT_PIPE 1 1]> ∅)) [].

Lemma sample_fd_inv : fd_inv 0 sample_fdt sample_files (fun _ => 0).
Proof.
  split.
  - split; cbn [sample_fdt fdt_nfiles fdt_map fdt_entries].
    + unfold NDFILE, MAXFILES. lia.
    + done.
    + done.
    + split; [cbn; unfold NDFILE; lia|]. repeat constructor; lia.
    + apply (Forall_range (fun i => bget [3; 0; 0] i = _)). vm_compute. repeat constructor.
    + intros i Hi. unfold NDFILE in Hi. cbn in Hi. assert (0 <= i - 20 < 4) as Hr by lia.
      replace i with (20 + (i - 20)) by lia. revert Hr. generalize (i - 20). clear.
      apply (Forall_range (fun j => bget [3; 0; 0] (20 + j) = _)). vm_compute. repeat constructor.
  - intros f. unfold refcount. cbn [sample_files files].
    destruct (decide (f = 100)) as [->|H1]; [done|].
    destruct (decide (f = 200)) as [->|H2]; [done|].
    rewrite !lookup_insert_ne, lookup_empty by congruence.
    cbn. repeat destruct (decide _); simplify_eq; done.
  - lia.
  - unfold MAXFILES, UINT_MAX. lia.
Qed.

Lemma fd_calls_refcounts_witness : exists fdt' k',
  do_fd_calls (H := mips) sample_fdt sample_files
    [Dup 0; Dup2 1 0; Fcntl 0 F_DUPFD 50; OnExec; Close 2] = Ok (fdt', k') /\
  fd_inv 0 fdt' k' (fun _ => 0).
Proof.
  apply (fd_calls_refcounts (H := mips)).
  - apply sample_fd_inv.
  - vm_compute. reflexivity.
  - unfold MAXFILES, UINT_MAX. lia.
Defined.

Lemma fdtab_install_file_lowest_witness : exists fdt' k',
  fdtab_install_file (H := mips) sample_fdt sample_files (Some 200) 1 = Ok (0, 2, fdt', k').
Proof.
  destruct (fdtab_install_file_lowest (H := mips) 0 sample_fdt sample_files (fun _ => 0) 200 1
    (File true FT_PIPE 1 1)) as [[E _]|(fd & fdt' & k' & E & _ & Hfd & Hv & _)].
  - apply sample_fd_inv.
  - reflexivity.
  - lia.
  - unfold MAXFILES, UINT_MAX. lia.
  - vm_compute in E. discriminate E.
  - exists fdt', k'. rewrite E. vm_compute in E. injection E as <- _ _. reflexivity.
Defined.

Lemma fdtab_copy_correct_witness : exists fdt' k',
  fdtab_copy (Some sample_fdt) sample_files = Ok (fdt', k') /\
  view fdt' 1 = Some (200, true).
Proof.
  destruct (fdtab_copy_correct 0 sample_fdt sample_files (fun _ => 0))
    as (fdt' & k' & E & _ & _ & _ & Hv & _).
  - apply sample_fd_inv.
  - unfold MAXFILES, UINT_MAX. lia.
  - exists fdt', k'. split; [exact E|]. rewrite Hv. reflexivity.
Defined.

Lemma fdtab_drop_correct_witness : exists k',
  fdtab_drop sample_fdt sample_files = Ok (None, k') /\ forall f, refcount k' f = 0.
Proof.
  apply (fdtab_drop_correct 0 sample_fdt sample_files (fun _ => 0)).
  - apply sample_fd_inv.
  - reflexivity.
  - unfold MAXFILES, UINT_MAX. lia.
Defined.

(** The exceptions of [call_ok] are real: [dup2] to the descriptor one past the
    table writes outside its array, *)
Lemma dup2_past_end : do_dup2 sample_fdt sample_files 0 NDFILE = Fault BadAccess.
Proof. vm_compute. reflexivity. Qed.

(** and [dup2] to a descriptor of the same file leaks a reference: two
    descriptors, three references. *)
Lemma dup2_same_file_leaks :
  match '(_, _, fdt, k) ← do_dup (H := mips) sample_fdt sample_files 0; do_dup2 fdt k 0 2 with
  | Ok (0, fdt, k) => occ 100 (fdt_entries fdt) = 2 /\ refcount k 100 = 3
  | _ => False
  end.
Proof. vm_compute. done. Qed.

(** [F_DUPFD_CLOEXEC] marks the descriptor it duplicates, not the duplicate. *)
Lemma dupfd_cloexec_marks_original :
  match do_fcntl (H := mips) sample_fdt sample_files 0 F_DUPFD_CLOEXEC 0 with
  | Ok (0, 2, fdt, _) => view fdt 0 = Some (100, true) /\ view fdt 2 = Some (100, false)
  | _ => False
  end.
Proof. vm_compute. done. Qed.

(** [F_SETFL] clears the access mode, so that a readable file refuses reads. *)
Lemma setfl_loses_access_mode :
  match do_fcntl (H := mips) sample_fdt sample_files 0 F_SETFL O_NONBLOCK with
  | Ok (0, _, fdt, k) => forall fo, do_read fo fdt k 0 = Ok (EBADF, 0, k)
  | _ => False
  end.
Proof. vm_compute. done. Qed.

(** A negative lower bound of [F_DUPFD] is not refused: as a [size_t] it is past every bit,
    so that the table grows while descriptors are free. *)
Lemma dupfd_negative :
  match do_fcntl (H := mips) sample_fdt sample_files 0 F_DUPFD (-1) with
  | Ok (0, fd, fdt, _) => fd = NDFILE /\ view sample_fdt 2 = None /\ fdt_nfiles fdt = 2 * NDFILE
  | _ => False
  end.
Proof. vm_compute. done. Qed.
