(* ===== verification/Pipe.v ===== *)
(** * Pipes (sys/kern/pipe.c)

    A pipe is a ring buffer with two condition variables.  A thread inside
    [pipe_read] or [pipe_write] runs with the pipe's mutex held until it returns or
    sleeps in [cv_wait_intr], so the code between those points is one step; threads
    interleave at the steps.  The results: the bytes readers get are the bytes
    writers put, in order, without loss or duplication; no wake-up is lost; the
    pipe is not used after it has been freed.  [do_pipe2] leaks nothing when it
    fails. *)

From S2P Require Import Prelude Uio Ringbuf Filedesc.

Definition PIPE_SIZE : Z := PAGESIZE.

Record pipe := Pipe {
  writer_closed : bool; (* write end closed *)
  reader_closed : bool; (* read end closed *)
  p_buf : ringbuf;      (* buffer with pipe data *)
}.

(** The condition variables of a pipe. *)
Inductive cv := Nonempty | Nonfull.

(** How a thread leaves a critical section. *)
Inductive pass := Return (error : Z) | Wait (c : cv).

Definition pipe_alloc : pipe :=
  Pipe false false (Ringbuf 0 0 0 PIPE_SIZE (replicate (Z.to_nat PIPE_SIZE) 0)).

Definition set_buf (p : pipe) (buf : ringbuf) : pipe :=
  Pipe (writer_closed p) (reader_closed p) buf.

Section ops.
Context `{Arch} `{!CopyRoutines}.

(** [pipe_read] up to the lock: [Some error] when it returns at once. *)
Definition pipe_read_enter (p : pipe) (u : uio) : outcome (option Z) :=
  _ ← assert (negb (reader_closed p));
  Ok (if uio_resid u =? 0 then Some 0 else None).

(** From the acquisition of the lock, or the return of [cv_wait_intr], to the
    next wait or return.  The last component lists the condition variables the
    code broadcasts. *)
Definition pipe_read_pass (p : pipe) (u : uio) (m : mem)
    : outcome (pass * pipe * uio * mem * list cv) :=
  if ringbuf_empty (p_buf p) then
    (* pipe empty & no writers => return end-of-file *)
    if writer_closed p then Ok (Return 0, p, u, m, [])
    else Ok (Wait Nonempty, p, u, m, [])
  else
    '(error, buf, u, m) ← ringbuf_read (p_buf p) u m;
    if negb (error =? 0) then Ok (Return error, set_buf p buf, u, m, [])
    else Ok (Return 0, set_buf p buf, u, m, [Nonfull]).

Definition pipe_write_enter (p : pipe) (u : uio) : outcome (option Z) :=
  _ ← assert (negb (writer_closed p));
  Ok (if uio_resid u =? 0 then Some 0 else None).

(** Errors are not reported on partial writes. *)
Definition write_error (error : Z) (u : uio) (old_resid : Z) : Z :=
  if uio_resid u <? old_resid then 0 else error.

Definition pipe_write_pass (p : pipe) (u : uio) (old_resid : Z) (m : mem)
    : outcome (pass * pipe * uio * mem * list cv) :=
  if reader_closed p then Ok (Return (write_error EPIPE u old_resid), p, u, m, [])
  else
    '(error, buf, u, m) ← ringbuf_write (p_buf p) u m;
    if negb (error =? 0)
    then Ok (Return (write_error error u old_resid), set_buf p buf, u, m, [])
    else
      if uio_resid u =? 0 then Ok (Return 0, set_buf p buf, u, m, [Nonempty])
      else Ok (Wait Nonfull, set_buf p buf, u, m, [Nonempty]).

(** [None] when both ends are closed and the pipe has been freed. *)
Definition pipe_close (p : pipe) (f_flags : Z) : outcome (option pipe * list cv) :=
  '(p, wakes) ←
    (if negb (Z.land f_flags FF_READ =? 0) then
       _ ← assert (negb (reader_closed p));
       Ok (Pipe (writer_closed p) true (p_buf p), [Nonfull])
     else
       _ ← assert (negb (writer_closed p));
       Ok (Pipe true (reader_closed p) (p_buf p), [Nonempty]));
  let closed := reader_closed p && writer_closed p in
  Ok (if closed then None else Some p, wakes).

Definition pipe_stat : Z := EOPNOTSUPP.
Definition pipe_ioctl : Z := EOPNOTSUPP.
Definition pipe_seek : Z := EOPNOTSUPP.

(** ** Threads *)

(** A thread in a call on the pipe, each with the memory of its process: about to
    run (it has called, or has been woken), asleep, or back with an error. *)
Inductive thread :=
| Reading (u : uio) (m : mem)
| ReadSleep (u : uio) (m : mem)
| Writing (u : uio) (old_resid : Z) (m : mem)
| WriteSleep (u : uio) (old_resid : Z) (m : mem)
| Returned (error : Z) (u : uio) (m : mem).

(** The effect of [cv_broadcast] on a thread. *)
Definition wake (c : cv) (th : thread) : thread :=
  match c, th with
  | Nonempty, ReadSleep u m => Reading u m
  | Nonfull, WriteSleep u old m => Writing u old m
  | _, _ => th
  end.

Definition broadcast (wakes : list cv) (thr : gmap nat thread) : gmap nat thread :=
  (fun th => foldr wake th wakes) <$> thr.

(** [ps_put] and [ps_got] are what the callers see: the bytes that writers'
    descriptors have advanced over, and the bytes found in the memory readers'
    descriptors have advanced over, in the order of the steps. *)
Record psys := Psys {
  ps_pipe : option pipe;
  ps_thr : gmap nat thread;
  ps_put : list Z;
  ps_got : list Z;
}.

Definition psys0 : psys := Psys (Some pipe_alloc) ∅ [] [].

Inductive event :=
| EvRead (t : nat) (u : uio) (m : mem)
| EvWrite (t : nat) (u : uio) (m : mem)
| EvRun (t : nat)
| EvIntr (t : nat)
| EvReap (t : nat)
| EvClose (f_flags : Z).

(** The addresses a descriptor has advanced over. *)
Definition advanced (u u' : uio) : list Z :=
  take (Z.to_nat (uio_resid u - uio_resid u')) (uio_addrs u).

Definition get_pipe (s : psys) : outcome pipe :=
  match ps_pipe s with Some p => Ok p | None => Fault BadAccess end.

Definition set_thr (s : psys) (t : nat) (th : thread) : psys :=
  Psys (ps_pipe s) (<[t := th]> (ps_thr s)) (ps_put s) (ps_got s).

Definition handle (s : psys) (ev : event) : outcome psys :=
  match ev with
  | EvRead t u m =>
      p ← get_pipe s;
      r ← pipe_read_enter p u;
      Ok (set_thr s t (match r with Some e => Returned e u m | None => Reading u m end))
  | EvWrite t u m =>
      p ← get_pipe s;
      r ← pipe_write_enter p u;
      Ok (set_thr s t (match r with Some e => Returned e u m
                                  | None => Writing u (uio_resid u) m end))
  | EvRun t =>
      p ← get_pipe s;
      match ps_thr s !! t with
      | Some (Reading u m) =>
          '(r, p, u', m', wakes) ← pipe_read_pass p u m;
          Ok (Psys (Some p)
            (<[t := match r with Return e => Returned e u' m' | Wait _ => ReadSleep u' m' end]>
               (broadcast wakes (ps_thr s)))
            (ps_put s) (ps_got s ++ read_at m' (advanced u u')))
      | Some (Writing u old m) =>
          '(r, p, u', m', wakes) ← pipe_write_pass p u old m;
          Ok (Psys (Some p)
            (<[t := match r with Return e => Returned e u' m' | Wait _ => WriteSleep u' old m' end]>
               (broadcast wakes (ps_thr s)))
            (ps_put s ++ read_at m (advanced u u')) (ps_got s))
      | _ => Ok s
      end
  | EvIntr t =>
      match ps_thr s !! t with
      | Some (ReadSleep u m) => Ok (set_thr s t (Returned ERESTARTSYS u m))
      | Some (WriteSleep u old m) =>
          Ok (set_thr s t (Returned (write_error ERESTARTSYS u old) u m))
      | _ => Ok s
      end
  | EvReap t => Ok (Psys (ps_pipe s) (delete t (ps_thr s)) (ps_put s) (ps_got s))
  | EvClose f_flags =>
      p ← get_pipe s;
      '(op, wakes) ← pipe_close p f_flags;
      Ok (Psys op (broadcast wakes (ps_thr s)) (ps_put s) (ps_got s))
  end.

Fixpoint run (s : psys) (evs : list event) : outcome psys :=
  match evs with
  | [] => Ok s
  | ev :: evs => s ← handle s ev; run s evs
  end.

Definition is_reader (th : thread) : bool :=
  match th with Reading _ _ | ReadSleep _ _ => true | _ => false end.
Definition is_writer (th : thread) : bool :=
  match th with Writing _ _ _ | WriteSleep _ _ _ => true | _ => false end.

(** When the kernel lets an event happen: a call needs the file of its end, which
    is open until its last reference is dropped, and a call in progress holds a
    reference; a request's memory areas do not overlap. *)
Definition enabled (s : psys) (ev : event) : Prop :=
  match ev with
  | EvRead t u _ =>
      ps_thr s !! t = None /\ (exists p, ps_pipe s = Some p /\ reader_closed p = false) /\
      wf_uio u /\ uio_op u = UIO_READ /\ NoDup (uio_addrs u)
  | EvWrite t u _ =>
      ps_thr s !! t = None /\ (exists p, ps_pipe s = Some p /\ writer_closed p = false) /\
      wf_uio u /\ uio_op u = UIO_WRITE
  | EvRun t => exists th, ps_thr s !! t = Some th /\ (is_reader th || is_writer th) = true
  | EvIntr t => True
  | EvReap t => exists e u m, ps_thr s !! t = Some (Returned e u m)
  | EvClose f_flags =>
      (f_flags = FF_READ /\
       (exists p, ps_pipe s = Some p /\ reader_closed p = false) /\
       forall t th, ps_thr s !! t = Some th -> is_reader th = false) \/
      (f_flags = FF_WRITE /\
       (exists p, ps_pipe s = Some p /\ writer_closed p = false) /\
       forall t th, ps_thr s !! t = Some th -> is_writer th = false)
  end.

Fixpoint all_enabled (s : psys) (evs : list event) : Prop :=
  match evs with
  | [] => True
  | ev :: evs => enabled s ev /\ forall s', handle s ev = Ok s' -> all_enabled s' evs
  end.
End ops.

(** ** The invariant *)

Section invariant.
Context `{Arch} `{!CopyRoutines}.

(** A sleeping reader means that the pipe is empty and has writers; a sleeping
    writer that it is full and has readers: no wake-up has been lost. *)
Definition thread_ok (op : option pipe) (th : thread) : Prop :=
  match th with
  | Reading u m =>
      exists p, op = Some p /\ reader_closed p = false /\
        wf_uio u /\ uio_op u = UIO_READ /\ NoDup (uio_addrs u)
  | ReadSleep u m =>
      exists p, op = Some p /\ reader_closed p = false /\
        wf_uio u /\ uio_op u = UIO_READ /\ NoDup (uio_addrs u) /\
        contents (p_buf p) = [] /\ writer_closed p = false
  | Writing u old m =>
      exists p, op = Some p /\ writer_closed p = false /\
        wf_uio u /\ uio_op u = UIO_WRITE
  | WriteSleep u old m =>
      exists p, op = Some p /\ writer_closed p = false /\
        wf_uio u /\ uio_op u = UIO_WRITE /\
        ringbuf_full (p_buf p) = true /\ reader_closed p = false
  | Returned _ _ _ => True
  end.

(** What writers have put is what readers have got followed by what is in the
    buffer; the pipe exists while an end is open. *)
Record pipe_inv (s : psys) : Prop := {
  pi_stream p : ps_pipe s = Some p ->
    wf_rb (p_buf p) /\ ps_put s = ps_got s ++ contents (p_buf p) /\
    reader_closed p && writer_closed p = false;
  pi_got : ps_got s `prefix_of` ps_put s;
  pi_threads t th : ps_thr s !! t = Some th -> thread_ok (ps_pipe s) th;
}.

Hypothesis copyin_total : forall m a old, (copyin m a old).2 = 0.
Hypothesis copyout_total : forall m bs a, (copyout m bs a).2 = 0.

Lemma no_user_fault u : ~ user_fault u.
Proof.
  intros [_ [(m & a & old & E)|(m & bs & a & E)]].
  - by rewrite copyin_total in E.
  - by rewrite copyout_total in E.
Qed.

Lemma read_write_at l : forall bs m,
  NoDup l -> length l = length bs -> read_at (write_at m l bs) l = bs.
Proof.
  induction l as [|a l IH]; intros [|b bs] m Hnd Hl; try done.
  apply NoDup_cons in Hnd as [Ha Hnd].
  change (write_at m (a :: l) (b :: bs)) with (write_at (store m a b) l bs).
  cbn. rewrite (write_at_frame _ _ _ a Ha). unfold store at 1. rewrite Z.eqb_refl.
  f_equal. apply IH; [done|]. cbn in Hl. lia.
Qed.

Lemma contents_nil_iff rb : wf_rb rb -> contents rb = [] <-> ringbuf_empty rb = true.
Proof.
  intros W. pose proof (length_contents rb) as Hl. pose proof (wf_count rb W).
  unfold ringbuf_empty. rewrite <- length_zero_iff_nil, Hl. lia.
Qed.

(** Delivering from a buffer that is not empty. *)
Lemma read_delivers rb u m :
  wf_rb rb -> wf_uio u -> uio_op u = UIO_READ -> NoDup (uio_addrs u) ->
  exists rb' u' m', ringbuf_read rb u m = Ok (0, rb', u', m') /\ wf_rb rb' /\
    wf_uio u' /\ uio_op u' = UIO_READ /\
    read_at m' (advanced u u') ++ contents rb' = contents rb.
Proof.
  intros W Wu Ho Hnd.
  destruct (ringbuf_read_spec rb u m W Wu Ho) as ([[[e rb'] u'] m'] & k & Hr & R).
  destruct R as [R1 R2 R3 R4 R5 R6 R7]; cbn in *.
  destruct R5 as [->|[_ Hf]]; [|by destruct (no_user_fault u)].
  destruct (R7 eq_refl) as (Hk & M & ->). pose proof (mv_resid _ _ _ M) as Hres.
  exists rb', u', (write_at m (take (Z.to_nat k) (uio_addrs u)) (take (Z.to_nat k) (contents rb))).
  split_and!; try done.
  - apply M.
  - by rewrite (mv_op _ _ _ M).
  - unfold advanced. replace (uio_resid u - uio_resid u') with k by lia.
    rewrite <- (take_drop (Z.to_nat k) (uio_addrs u)) in Hnd.
    apply NoDup_app in Hnd as [Hnd _].
    rewrite read_write_at, R4; [apply take_drop|done|].
    rewrite !length_take, length_contents. pose proof (wf_resid u Wu). lia.
Qed.

Lemma write_accepts rb u m :
  wf_rb rb -> wf_uio u -> uio_op u = UIO_WRITE ->
  exists rb' u', ringbuf_write rb u m = Ok (0, rb', u', m) /\ wf_rb rb' /\
    wf_uio u' /\ uio_op u' = UIO_WRITE /\
    contents rb' = contents rb ++ read_at m (advanced u u') /\
    (ringbuf_full rb = true -> ringbuf_full rb' = true) /\
    (uio_resid u' <> 0 -> ringbuf_full rb' = true).
Proof.
  intros W Wu Ho.
  destruct (ringbuf_write_spec rb u m W Wu Ho) as ([[[e rb'] u'] m'] & k & Hr & R).
  destruct R as [R1 R2 R3 R4 R5 R6 R7 R8 R9]; cbn in *. subst m'.
  destruct R7 as [->|[_ Hf]]; [|by destruct (no_user_fault u)].
  destruct (R9 eq_refl) as (Hk & M). pose proof (mv_resid _ _ _ M) as Hres.
  pose proof (wf_resid u Wu) as Hru.
  assert (rb_count rb' = rb_count rb + k) as Hc.
  { pose proof (length_contents rb') as Hl. rewrite R5, length_app, length_contents in Hl.
    unfold read_at in Hl. rewrite length_fmap, length_take in Hl.
    pose proof (wf_count rb W). pose proof (wf_count rb' R1). lia. }
  exists rb', u'. split_and!; try done.
  - apply M.
  - by rewrite (mv_op _ _ _ M).
  - unfold advanced. replace (uio_resid u - uio_resid u') with k by lia. done.
  - unfold ringbuf_full. lia.
  - unfold ringbuf_full. lia.
Qed.

(** Threads of the other steps, after a broadcast. *)
Lemma broadcast_ok op op' wakes (thr : gmap nat thread) t th :
  (forall t th, thr !! t = Some th -> thread_ok op th) ->
  (forall th, thread_ok op th -> thread_ok op' (foldr wake th wakes)) ->
  broadcast wakes thr !! t = Some th -> thread_ok op' th.
Proof.
  intros Hok Hstep Ht. unfold broadcast in Ht.
  apply lookup_fmap_Some in Ht as (th0 & <- & Ht). eauto.
Qed.

Lemma insert_ok op t th (thr : gmap nat thread) :
  thread_ok op th -> (forall t th, thr !! t = Some th -> thread_ok op th) ->
  forall t' th', <[t := th]> thr !! t' = Some th' -> thread_ok op th'.
Proof.
  intros Hth Hall t' th' Hl. apply lookup_insert_Some in Hl as [[_ <-]|[_ Hl]]; eauto.
Qed.

Lemma read_pass_inv s p t u m :
  pipe_inv s -> ps_pipe s = Some p -> ps_thr s !! t = Some (Reading u m) ->
  exists s', handle s (EvRun t) = Ok s' /\ pipe_inv s'.
Proof.
  intros [Hst Hg Hthr] Hp Ht. destruct (Hst p Hp) as (W & Hput & Hends).
  destruct (Hthr t _ Ht) as (p' & Hp' & Hrc & Wu & Ho & Hnd).
  assert (p' = p) as -> by congruence.
  cbn [handle]. unfold get_pipe. rewrite Hp, Ht. cbn [mbind outcome_bind].
  unfold pipe_read_pass.
  assert (forall x y, ps_got s ++ read_at x (take (Z.to_nat (y - y)) (uio_addrs u)) = ps_got s)
    as Hsame by (intros x y; rewrite Z.sub_diag; apply app_nil_r).
  destruct (ringbuf_empty (p_buf p)) eqn:He.
  - assert (forall th, thread_ok (ps_pipe s) th ->
      exists s', Ok (Psys (Some p) (<[t:=th]> (broadcast [] (ps_thr s))) (ps_put s)
        (ps_got s ++ read_at m (advanced u u))) = Ok s' /\ pipe_inv s') as Hk.
    { intros th Hth. eexists. split; [done|]. rewrite Hp in *.
      unfold advanced. rewrite Hsame. split; cbn; try done.
      apply insert_ok; [done|]. intros t' th'. by apply (broadcast_ok (Some p)). }
    destruct (writer_closed p) eqn:Hw; cbn [mbind outcome_bind]; apply Hk; [done|].
    cbn. exists p. rewrite contents_nil_iff by done. done.
  - destruct (read_delivers (p_buf p) u m W Wu Ho Hnd)
      as (rb' & u' & m' & -> & W' & Wu' & Ho' & Hc).
    cbn [mbind outcome_bind Z.eqb negb]. eexists. split; [done|]. split; cbn.
    + intros p0 [= <-]. cbn. split_and!; try done. by rewrite <- app_assoc, Hc.
    + rewrite Hput. apply prefix_app. rewrite <- Hc. by apply prefix_app_r.
    + apply insert_ok; [done|]. intros t' th'.
      apply (broadcast_ok (ps_pipe s)); [done|]. rewrite Hp. intros th Hth.
      destruct th; cbn in Hth |- *; try done;
        destruct Hth as (q & [= <-] & HH); eexists; (split; [done|]); cbn;
        try (destruct_and!; split_and!; done).
      destruct HH as (_ & _ & _ & _ & Hnil & _).
      apply contents_nil_iff in Hnil; [congruence|done].
Qed.

Lemma write_pass_inv s p t u old m :
  pipe_inv s -> ps_pipe s = Some p -> ps_thr s !! t = Some (Writing u old m) ->
  exists s', handle s (EvRun t) = Ok s' /\ pipe_inv s'.
Proof.
  intros [Hst Hg Hthr] Hp Ht. destruct (Hst p Hp) as (W & Hput & Hends).
  destruct (Hthr t _ Ht) as (p' & Hp' & Hwc & Wu & Ho).
  assert (p' = p) as -> by congruence.
  cbn [handle]. unfold get_pipe. rewrite Hp, Ht. cbn [mbind outcome_bind].
  unfold pipe_write_pass. destruct (reader_closed p) eqn:Hrc.
  - cbn [mbind outcome_bind]. eexists. split; [done|].
    unfold advanced. rewrite Z.sub_diag. cbn. rewrite app_nil_r.
    split; cbn; try done.
    + intros p0 [= <-]. rewrite Hrc. done.
    + apply insert_ok; [done|]. intros t' th'.
      by apply (broadcast_ok (Some p)); [rewrite <- Hp|].
  - destruct (write_accepts (p_buf p) u m W Wu Ho)
      as (rb' & u' & -> & W' & Wu' & Ho' & Hc & Hfull & Hfull').
    cbn [mbind outcome_bind Z.eqb negb].
    assert (forall th, thread_ok (Some (set_buf p rb')) th ->
      pipe_inv (Psys (Some (set_buf p rb')) (<[t:=th]> (broadcast [Nonempty] (ps_thr s)))
        (ps_put s ++ read_at m (advanced u u')) (ps_got s))) as Hinv.
    { intros th Hth. split; cbn.
      - intros p0 [= <-]. cbn. rewrite Hrc. split_and!; try done.
        by rewrite Hput, Hc, app_assoc.
      - by apply prefix_app_r.
      - apply insert_ok; [done|]. intros t' th'.
        apply (broadcast_ok (ps_pipe s)); [done|]. rewrite Hp. intros th0 Hth0.
        destruct th0; cbn in Hth0 |- *; try done;
          destruct Hth0 as (q & [= <-] & HH); eexists; (split; [done|]); cbn;
          destruct_and!; split_and!; auto. }
    destruct (Z.eqb_spec (uio_resid u') 0) as [Hz|Hz]; cbn [mbind outcome_bind];
      (eexists; split; [done|]); apply Hinv; cbn; [done|].
    eexists. split; [done|]. cbn. split_and!; try done. by apply Hfull'.
Qed.

(** A step that changes one thread only. *)
Lemma set_thr_inv s t th :
  pipe_inv s -> thread_ok (ps_pipe s) th -> pipe_inv (set_thr s t th).
Proof. intros [Hst Hg Hthr] Hth. split; try done. cbn. by apply insert_ok. Qed.

Lemma close_inv s f_flags :
  pipe_inv s -> enabled s (EvClose f_flags) ->
  exists s', handle s (EvClose f_flags) = Ok s' /\ pipe_inv s'.
Proof.
  intros [Hst Hg Hthr] [(-> & (p & Hp & Hc) & Hno)|(-> & (p & Hp & Hc) & Hno)];
    destruct (Hst p Hp) as (W & Hput & Hends);
    cbn [handle]; unfold get_pipe; rewrite Hp; cbn [mbind outcome_bind];
    unfold pipe_close; cbn [FF_READ FF_WRITE Z.land Z.eqb negb Pos.land]; rewrite Hc; cbn;
    (eexists; split; [done|]); split; cbn; try done.
  - intros p0 Hp0. destruct (writer_closed p) eqn:Hw; [done|]. simplify_eq/=. done.
  - intros t th Ht. apply lookup_fmap_Some in Ht as (th0 & <- & Ht).
    pose proof (Hthr _ _ Ht) as Hok. pose proof (Hno _ _ Ht) as Hnr. rewrite Hp in Hok.
    destruct th0; cbn in Hok, Hnr |- *; try done;
      destruct Hok as (q & [= <-] & Hw & HH); rewrite Hw; cbn; naive_solver.
  - intros p0 Hp0. destruct (reader_closed p) eqn:Hr; [done|]. simplify_eq/=. done.
  - intros t th Ht. apply lookup_fmap_Some in Ht as (th0 & <- & Ht).
    pose proof (Hthr _ _ Ht) as Hok. pose proof (Hno _ _ Ht) as Hnw. rewrite Hp in Hok.
    destruct th0; cbn in Hok, Hnw |- *; try done;
      destruct Hok as (q & [= <-] & Hr & HH); rewrite Hr; cbn; naive_solver.
Qed.

Lemma handle_inv s ev :
  pipe_inv s -> enabled s ev -> exists s', handle s ev = Ok s' /\ pipe_inv s'.
Proof.
  intros I Hen. destruct ev as [t u m|t u m|t|t|t|f_flags]; cbn [enabled] in Hen.
  - destruct Hen as (_ & (p & Hp & Hc) & Wu & Ho & Hnd).
    cbn [handle]. unfold get_pipe, pipe_read_enter. rewrite Hp. cbn. rewrite Hc. cbn.
    eexists. split; [done|]. apply set_thr_inv; [done|].
    destruct (_ =? _); cbn; [done|]. rewrite Hp. eauto 10.
  - destruct Hen as (_ & (p & Hp & Hc) & Wu & Ho).
    cbn [handle]. unfold get_pipe, pipe_write_enter. rewrite Hp. cbn. rewrite Hc. cbn.
    eexists. split; [done|]. apply set_thr_inv; [done|].
    destruct (_ =? _); cbn; [done|]. rewrite Hp. eauto 10.
  - destruct Hen as (th & Ht & Hrun). pose proof (pi_threads _ I _ _ Ht) as Hok.
    destruct th; try done; cbn in Hok; destruct Hok as (p & Hp & Hok).
    + by eapply read_pass_inv.
    + exists s. cbn. unfold get_pipe. rewrite Hp, Ht. done.
    + by eapply write_pass_inv.
    + exists s. cbn. unfold get_pipe. rewrite Hp, Ht. done.
  - cbn [handle]. destruct (ps_thr s !! t) as [[]|] eqn:Ht; (eexists; split; [done|]);
      try done; by apply set_thr_inv.
  - eexists. split; [done|]. destruct I as [Hst Hg Hthr]. split; try done. cbn.
    intros t' th' Hl. apply lookup_delete_Some in Hl as [_ Hl]. eauto.
  - by apply close_inv.
Qed.

Lemma psys0_inv : pipe_inv psys0.
Proof. split; cbn; try done. intros p [= <-]. split_and!; done. Qed.

(** C19: However readers, writers, signals and closes of the two ends interleave on a
    new pipe, as long as all copies from and to user memory succeed, an end is open during
    the calls on it, no read gives an address twice, and an end is closed when no thread is in a
    call on it, no step faults (in particular the pipe is not touched after it has been
    freed), the bytes readers have got are, in order, the bytes writers have put
    except those still in the buffer, and no thread sleeps while it could go on:
    sleeping readers imply an empty pipe with an open write end, sleeping writers a
    full pipe with an open read end. *)
Theorem pipe_stream evs :
  all_enabled psys0 evs -> exists s, run psys0 evs = Ok s /\ pipe_inv s.
Proof.
  pose proof psys0_inv as I. revert I. generalize psys0 as s.
  induction evs as [|ev evs IH]; intros s I Hen; cbn; [by exists s|].
  destruct Hen as [Hev Hrest]. destruct (handle_inv s ev I Hev) as (s' & E & I').
  rewrite E. cbn. apply IH; [done|]. by apply Hrest.
Qed.
End invariant.

(** ** Creating a pipe *)

Section pipe2.
Context `{Arch}.
Implicit Types (fdt : fdtab) (k : kfiles).

Definition O_CLOEXEC : Z := 0x2000.

(** [f] is the address the file pool hands out. *)
Definition make_pipe_file k (f flags : Z) : outcome kfiles :=
  k ← file_alloc k f;
  x ← get_obj k f;
  Ok (set_obj k f (File true FT_PIPE (f_count x) flags)).

(** The error, the two descriptors, the table and the files. *)
Definition do_pipe2 fdt k (reader writer flags : Z)
    : outcome (Z * (Z * Z) * fdtab * kfiles) :=
  k ← make_pipe_file k reader FF_READ;
  k ← make_pipe_file k writer FF_WRITE;
  k ← file_hold k reader;
  k ← file_hold k writer;
  let cloexec := negb (Z.land flags O_CLOEXEC =? 0) in
  '(error, fd0, fdt, k) ← fdtab_install_file fdt k (Some reader) 0;
  '(error, fd1, fdt, k) ←
    (if error =? 0 then
       '(error, fd1, fdt, k) ← fdtab_install_file fdt k (Some writer) 0;
       '(error, done, fdt, k) ←
         (if error =? 0 then
            '(error, fdt) ← fd_set_cloexec fdt fd0 cloexec;
            '(error, fdt) ← (if error =? 0 then fd_set_cloexec fdt fd1 cloexec
                             else Ok (error, fdt));
            if error =? 0 then Ok (error, true, fdt, k)
            else '(_, fdt, k) ← fdtab_close_fd fdt k fd1; Ok (error, false, fdt, k)
          else Ok (error, false, fdt, k));
       if (done : bool) then Ok (error, fd1, fdt, k)
       else '(_, fdt, k) ← fdtab_close_fd fdt k fd0; Ok (error, fd1, fdt, k)
     else Ok (error, -1, fdt, k));
  k ← file_drop k reader;
  k ← file_drop k writer;
  Ok (error, (fd0, fd1), fdt, k).

(** A file that has been allocated but not yet referenced. *)
Lemma make_pipe_file_spec B fdt k ext f flags :
  fd_inv B fdt k ext -> files k !! f = None ->
  let k' := set_obj k f (File true FT_PIPE 0 flags) in
  make_pipe_file k f flags = Ok k' /\ fd_inv B fdt k' ext.
Proof.
  intros I Hf k'. split.
  - unfold make_pipe_file, file_alloc. rewrite Hf. cbn.
    unfold get_obj. cbn. rewrite lookup_insert_eq. cbn. unfold set_obj. cbn.
    by rewrite insert_insert_eq.
  - destruct I as [W R E Bd]. split; try done. intros g. unfold k'.
    rewrite refcount_set_obj. destruct (Z.eqb_spec g f) as [->|]; [|apply R].
    rewrite <- R. unfold refcount. by rewrite Hf.
Qed.

(** Dropping the two references [do_pipe2] works with. *)
Lemma drop_both B fdt k ext r w xr xw :
  r <> w -> files k !! r = Some xr -> files k !! w = Some xw ->
  fd_inv (B + 2) fdt k (ext_add w 1 (ext_add r 1 ext)) -> (forall g, 0 <= ext g <= B) ->
  exists k1 k2, file_drop k r = Ok k1 /\ file_drop k1 w = Ok k2 /\
    fd_inv B fdt k2 ext /\
    (f_count xr = 1 -> f_count xw = 1 -> f_opened xr = true -> f_opened xw = true ->
     files k2 !! r = None /\ files k2 !! w = None /\ closed k2 = w :: r :: closed k) /\
    (f_count xr = 2 -> f_count xw = 2 ->
     files k2 !! r = Some (set_count xr 1) /\ files k2 !! w = Some (set_count xw 1) /\
     closed k2 = closed k).
Proof.
  intros Hne Hr Hw I Hext. pose proof (Hext r). pose proof (Hext w).
  destruct (drop_spec _ _ _ _ r I) as (k1 & Hd1 & I1 & D1).
  { unfold ext_add. destruct (Z.eqb_spec r w), (Z.eqb_spec r r); lia. }
  destruct (drop_spec _ _ _ _ w I1) as (k2 & Hd2 & I2 & D2).
  { unfold ext_add. destruct (Z.eqb_spec w r), (Z.eqb_spec w w); lia. }
  exists k1, k2. split_and!; try done.
  - destruct I2 as [W R E Bd]. split; try done; [|lia]. intros g. rewrite R.
    unfold ext_add. destruct (g =? r), (g =? w); lia.
  - intros C1 C2 O1 O2. destruct (dr_last _ _ _ D1 _ Hr C1) as [N1 L1].
    rewrite <- (dr_other _ _ _ D1 w) in Hw by done.
    destruct (dr_last _ _ _ D2 _ Hw C2) as [N2 L2].
    rewrite (dr_other _ _ _ D2 r), L2, L1, O1, O2 by done. done.
  - intros C1 C2. destruct (dr_more _ _ _ D1 _ Hr ltac:(lia)) as [N1 L1].
    rewrite <- (dr_other _ _ _ D1 w) in Hw by done.
    destruct (dr_more _ _ _ D2 _ Hw ltac:(lia)) as [N2 L2].
    rewrite (dr_other _ _ _ D2 r), N1, N2, C1, C2, L2, L1 by done. done.
Qed.

(** The outcomes of [do_pipe2]. *)
Definition pipe2_done fdt k (r w : Z) (cloexec : bool) fd0 fd1 (fdt' : fdtab) (k' : kfiles) :=
  0 <= fd0 < fd1 /\ fd1 < MAXFILES /\ view fdt fd0 = None /\ view fdt fd1 = None /\
  (forall j, 0 <= j < fd1 -> j <> fd0 -> view fdt j <> None) /\
  (forall j, view fdt' j = if j =? fd1 then Some (w, cloexec)
     else if j =? fd0 then Some (r, cloexec) else view fdt j) /\
  files k' !! r = Some (File true FT_PIPE 1 FF_READ) /\
  files k' !! w = Some (File true FT_PIPE 1 FF_WRITE) /\ closed k' = closed k.

Definition pipe2_failed fdt k (r w : Z) (fdt' : fdtab) (k' : kfiles) :=
  (forall j, view fdt' j = view fdt j) /\
  files k' !! r = None /\ files k' !! w = None /\ closed k' = w :: r :: closed k.

(** Both files exist with one reference each, held by [do_pipe2]. *)
Definition pipe_files k (r w n m : Z) (k' : kfiles) : Prop :=
  files k' !! r = Some (File true FT_PIPE n FF_READ) /\
  files k' !! w = Some (File true FT_PIPE m FF_WRITE) /\ closed k' = closed k.

Lemma pipe_files_setup B fdt k ext r w :
  fd_inv B fdt k ext -> r <> w -> files k !! r = None -> files k !! w = None ->
  B + 2 + MAXFILES < UINT_MAX ->
  exists k', (k ← make_pipe_file k r FF_READ; k ← make_pipe_file k w FF_WRITE;
      k ← file_hold k r; file_hold k w) = Ok k' /\
    pipe_files k r w 1 1 k' /\ fd_inv (B + 2) fdt k' (ext_add w 1 (ext_add r 1 ext)).
Proof.
  intros I Hne Hr Hw Hb.
  destruct (make_pipe_file_spec B fdt k ext r FF_READ I Hr) as [-> I1].
  cbn [mbind outcome_bind]. set (k1 := set_obj k r _) in *.
  assert (files k1 !! w = None) as Hw1 by (cbn; by rewrite lookup_insert_ne).
  destruct (make_pipe_file_spec B fdt k1 ext w FF_WRITE I1 Hw1) as [-> I2].
  cbn [mbind outcome_bind]. set (k2 := set_obj k1 w _) in *.
  assert (files k2 !! r = Some (File true FT_PIPE 0 FF_READ)) as Hr2
    by (cbn; by rewrite lookup_insert_ne, lookup_insert_eq).
  destruct (hold_spec _ _ _ _ r _ I2 Hr2 ltac:(lia)) as [-> I3].
  cbn [mbind outcome_bind]. set (k3 := set_obj k2 r _) in *.
  assert (files k3 !! w = Some (File true FT_PIPE 0 FF_WRITE)) as Hw3
    by (cbn; by rewrite lookup_insert_ne, lookup_insert_eq by done).
  destruct (hold_spec _ _ _ _ w _ I3 Hw3 ltac:(lia)) as [-> I4].
  replace (B + 1 + 1) with (B + 2) in I4 by lia.
  eexists. split; [done|]. split; [|done]. unfold pipe_files. cbn. split_and!; try done.
  - by rewrite lookup_insert_ne, lookup_insert_eq by done.
  - by rewrite lookup_insert_eq.
Qed.

Lemma drop_failed B fdt fdt' k k' ext r w :
  r <> w -> pipe_files k r w 1 1 k' -> (forall j, view fdt' j = view fdt j) ->
  fd_inv (B + 2) fdt' k' (ext_add w 1 (ext_add r 1 ext)) -> (forall g, 0 <= ext g <= B) ->
  exists k1 k2, file_drop k' r = Ok k1 /\ file_drop k1 w = Ok k2 /\
    fd_inv B fdt' k2 ext /\ pipe2_failed fdt k r w fdt' k2.
Proof.
  intros Hne (Hr & Hw & Hc) Hv I He.
  destruct (drop_both _ _ _ _ r w _ _ Hne Hr Hw I He) as (k1 & k2 & Hd1 & Hd2 & I2 & Hone & _).
  exists k1, k2. split_and!; try done. unfold pipe2_failed. rewrite <- Hc.
  destruct Hone as (? & ? & ?); done.
Qed.

Lemma drop_done B fdt k k' ext r w :
  r <> w -> pipe_files k r w 2 2 k' ->
  fd_inv (B + 2) fdt k' (ext_add w 1 (ext_add r 1 ext)) -> (forall g, 0 <= ext g <= B) ->
  exists k1 k2, file_drop k' r = Ok k1 /\ file_drop k1 w = Ok k2 /\
    fd_inv B fdt k2 ext /\ pipe_files k r w 1 1 k2.
Proof.
  intros Hne (Hr & Hw & Hc) I He.
  destruct (drop_both _ _ _ _ r w _ _ Hne Hr Hw I He) as (k1 & k2 & Hd1 & Hd2 & I2 & _ & Htwo).
  exists k1, k2. split_and!; try done. unfold pipe_files. rewrite <- Hc.
  destruct Htwo as (? & ? & ?); done.
Qed.

Lemma set_cloexec_both B fdt k ext fd0 fd1 r w c :
  fd_inv B fdt k ext -> fd0 <> fd1 ->
  view fdt fd0 = Some (r, false) -> view fdt fd1 = Some (w, false) ->
  exists fdt1 fdt', fd_set_cloexec fdt fd0 c = Ok (0, fdt1) /\
    fd_set_cloexec fdt1 fd1 c = Ok (0, fdt') /\ fd_inv B fdt' k ext /\
    forall j, view fdt' j = if j =? fd1 then Some (w, c)
      else if j =? fd0 then Some (r, c) else view fdt j.
Proof.
  intros I Hne H0' H1'. destruct (set_cloexec_spec _ _ _ _ _ _ _ c I H0') as (E1 & I1 & Hv1).
  set (fdt1 := put_entry fdt _ _ _) in *.
  assert (view fdt1 fd1 = Some (w, false)) as Hw by (rewrite Hv1; by destruct (Z.eqb_spec fd1 fd0)).
  destruct (set_cloexec_spec _ _ _ _ _ _ _ c I1 Hw) as (E2 & I2 & Hv2).
  do 2 eexists. split_and!; try done. intros j. rewrite Hv2, Hv1. done.
Qed.

Lemma pipe2_done_intro fdt fdt1 fdt2 fdt4 k k' r w c fd0 fd1 :
  0 <= fd0 < MAXFILES -> view fdt fd0 = None ->
  (forall j, 0 <= j < fd0 -> view fdt j <> None) ->
  (forall j, view fdt1 j = if j =? fd0 then Some (r, false) else view fdt j) ->
  0 <= fd1 < MAXFILES -> view fdt fd1 = None -> fd1 <> fd0 ->
  (forall j, 0 <= j < fd1 -> view fdt1 j <> None) ->
  (forall j, view fdt2 j = if j =? fd1 then Some (w, false) else view fdt1 j) ->
  (forall j, view fdt4 j = if j =? fd1 then Some (w, c)
     else if j =? fd0 then Some (r, c) else view fdt2 j) ->
  pipe_files k r w 1 1 k' -> pipe2_done fdt k r w c fd0 fd1 fdt4 k'.
Proof.
  intros Hfd0 Hv0 Hlow0 Hvw1 Hfd1 Hv1 Hne Hlow1 Hvw2 Hvw4 (Hr & Hw & Hc).
  assert (fd0 < fd1) as Hlt.
  { destruct (decide (fd0 < fd1)); [done|]. destruct (Hlow0 fd1); [lia|done]. }
  unfold pipe2_done. split_and!; try done || lia.
  - intros j Hj Hj0 Hvj. apply (Hlow1 j); [lia|]. rewrite Hvw1.
    destruct (Z.eqb_spec j fd0); done.
  - intros j. rewrite Hvw4, Hvw2, Hvw1. by destruct (Z.eqb_spec j fd1), (Z.eqb_spec j fd0).
Qed.

(** [do_pipe2] either installs the two ends at the two lowest free descriptors,
    each with one reference and the requested close-on-exec flag, or fails with
    [EMFILE] having released everything it acquired: both files are destroyed and
    closed once, which frees the pipe, and the descriptors are as before. *)
Theorem do_pipe2_correct B fdt k ext r w flags :
  fd_inv B fdt k ext -> r <> w -> files k !! r = None -> files k !! w = None ->
  B + 3 + MAXFILES < UINT_MAX ->
  let cloexec := negb (Z.land flags O_CLOEXEC =? 0) in
  exists e fd0 fd1 fdt' k', do_pipe2 fdt k r w flags = Ok (e, (fd0, fd1), fdt', k') /\
    fd_inv B fdt' k' ext /\
    (e = 0 /\ pipe2_done fdt k r w cloexec fd0 fd1 fdt' k' \/
     e = EMFILE /\ pipe2_failed fdt k r w fdt' k').
Proof.
  intros I Hne Hr Hw Hb cloexec.
  destruct (pipe_files_setup B fdt k ext r w I Hne Hr Hw ltac:(lia)) as (k4 & Hk4 & (Hr4 & Hw4 & Hc4) & I4).
  unfold do_pipe2. fold cloexec.
  apply bind_ok in Hk4 as (k1 & -> & Hk4). cbn [mbind outcome_bind].
  apply bind_ok in Hk4 as (k2 & -> & Hk4). cbn [mbind outcome_bind].
  apply bind_ok in Hk4 as (k3 & -> & Hk4). cbn [mbind outcome_bind].
  rewrite Hk4. cbn [mbind outcome_bind].
  destruct (install_spec _ _ _ _ r 0 _ I4 Hr4 ltac:(lia) ltac:(lia))
    as [[-> _]|(fd0 & fdt1 & -> & I5 & _ & _ & Hfd0 & Hv0 & Hlow0 & Hvw1)];
    cbn [mbind outcome_bind Z.eqb EMFILE].
  { destruct (drop_failed B fdt fdt k k4 ext r w) as (k5 & k6 & -> & Hd & HH); try done.
    { apply I. }
    cbn [mbind outcome_bind]. rewrite Hd. do 5 eexists. split; [done|]. naive_solver. }
  set (k5 := set_obj k4 r _) in *.
  assert (pipe_files k r w 2 1 k5) as Hpf.
  { unfold pipe_files. cbn. by rewrite lookup_insert_eq, lookup_insert_ne. }
  assert (view fdt1 fd0 = Some (r, false)) as Hvr by (rewrite Hvw1, Z.eqb_refl; done).
  destruct Hpf as (Hr5 & Hw5 & Hc5).
  destruct (install_spec _ _ _ _ w 0 _ I5 Hw5 ltac:(lia) ltac:(lia))
    as [[-> _]|(fd1 & fdt2 & -> & I6 & _ & _ & Hfd1 & Hv1 & Hlow1 & Hvw2)];
    cbn [mbind outcome_bind Z.eqb EMFILE].
  - destruct (view_Some _ _ _ _ (inv_wf _ _ _ _ I5) Hvr).
    pose proof (close_spec _ fdt1 k5 _ fd0 I5 ltac:(lia) ltac:(lia)) as Hcl. rewrite Hvr in Hcl.
    destruct Hcl as (fdt2 & k6 & -> & I6 & D6 & _ & Hvw2). cbn [mbind outcome_bind].
    destruct (dr_more _ _ _ D6 _ Hr5 ltac:(done)) as [Hr6 Hc6].
    rewrite <- (dr_other _ _ _ D6 w) in Hw5 by done.
    destruct (drop_failed B fdt fdt2 k k6 ext r w) as (k7 & k8 & -> & Hd & HH); try done.
    + split_and!; try done. congruence.
    + intros j. rewrite Hvw2, Hvw1. destruct (Z.eqb_spec j fd0) as [->|]; done.
    + apply I.
    + cbn [mbind outcome_bind]. rewrite Hd. do 5 eexists. split; [done|]. naive_solver.
  - rewrite Hvw1 in Hv1. destruct (Z.eqb_spec fd1 fd0) as [|Hne01] in Hv1; [done|].
    destruct (set_cloexec_both _ _ _ _ fd0 fd1 r w cloexec I6) as (fdt3 & fdt4 & -> & Hs & I8 & Hvw4).
    { done. }
    { rewrite Hvw2. by destruct (Z.eqb_spec fd0 fd1). }
    { by rewrite Hvw2, Z.eqb_refl. }
    cbn [mbind outcome_bind Z.eqb]. rewrite Hs. cbn [mbind outcome_bind Z.eqb].
    set (k6 := set_obj k5 w _) in *. assert (pipe_files k r w 2 2 k6) as Hpf6.
    { unfold pipe_files. cbn. by rewrite lookup_insert_eq, lookup_insert_ne, lookup_insert_eq. }
    destruct (drop_done B fdt4 k k6 ext r w Hne Hpf6 I8 (inv_ext _ _ _ _ I))
      as (k7 & k8 & -> & Hd & I9 & Hpf).
    cbn [mbind outcome_bind]. rewrite Hd. do 5 eexists. split; [done|]. split; [done|].
    left. split; [done|]. by eapply pipe2_done_intro.
Qed.
End pipe2.

(** ** Concrete instances *)

Lemma all_enabled_cons `{Arch} `{!CopyRoutines} s s' ev evs :
  enabled s ev -> handle s ev = Ok s' -> all_enabled s' evs -> all_enabled s (ev :: evs).
Proof. intros He Hh Ha. split; [done|]. intros s2 E. rewrite Hh in E. by injection E as <-. Qed.

Lemma pipe_stream_witness : exists s,
  run (H := mips) (H0 := total_copy (H := mips)) psys0
    [EvRead 1 sample_uio (fun _ => 0); EvRun 1; EvIntr 1;
     EvWrite 2 sample_write_uio (fun _ => 7); EvClose FF_READ; EvRun 2] = Ok s /\
  pipe_inv (H := mips) s.
Proof.
  set (r e := Returned e sample_uio (fun _ => 0)).
  set (w := Writing sample_write_uio 3 (fun _ => 7)).
  set (st p thr := Psys (Some p) thr [] []).
  apply (pipe_stream (H := mips) (H0 := total_copy (H := mips))); [reflexivity|reflexivity|].
  apply (all_enabled_cons _ (st pipe_alloc {[1%nat := Reading sample_uio (fun _ => 0)]}));
    [|reflexivity|].
  { split_and!; [reflexivity|by eexists|apply sample_uio_wf|reflexivity|].
    apply (bool_decide_unpack _). vm_compute. exact I. }
  apply (all_enabled_cons _ (st pipe_alloc {[1%nat := ReadSleep sample_uio (fun _ => 0)]}));
    [by eexists|reflexivity|].
  apply (all_enabled_cons _ (st pipe_alloc {[1%nat := r ERESTARTSYS]})); [exact I|reflexivity|].
  apply (all_enabled_cons _ (st pipe_alloc (<[2%nat := w]> {[1%nat := r ERESTARTSYS]})));
    [|reflexivity|].
  { split_and!; [reflexivity|by eexists|apply sample_write_uio_wf|reflexivity]. }
  apply (all_enabled_cons _ (st (Pipe false true (p_buf pipe_alloc))
    (<[2%nat := w]> {[1%nat := r ERESTARTSYS]}))); [|reflexivity|].
  { left. split_and!; [reflexivity|by eexists|]. intros t th Ht. unfold st in Ht. cbn [ps_thr] in Ht.
    apply lookup_insert_Some in Ht as [[_ <-]|[_ Ht]]; [reflexivity|].
    apply lookup_singleton_Some in Ht as [_ <-]. reflexivity. }
  split; [by eexists|]. intros s' _. exact I.
Defined.

Lemma do_pipe2_correct_witness : exists fdt' k',
  do_pipe2 (H := mips) sample_fdt sample_files 300 400 O_CLOEXEC = Ok (0, (2, 3), fdt', k') /\
  fd_inv 0 fdt' k' (fun _ => 0).
Proof.
  destruct (do_pipe2_correct (H := mips) 0 sample_fdt sample_files (fun _ => 0) 300 400 O_CLOEXEC)
    as (e & fd0 & fd1 & fdt' & k' & E & I & _).
  - apply sample_fd_inv.
  - lia.
  - reflexivity.
  - reflexivity.
  - unfold MAXFILES, UINT_MAX. lia.
  - exists fdt', k'. rewrite E. vm_compute in E. injection E as <- <- <- _ _.
    split; [reflexivity|exact I].
Defined.

(** A copy routine that faults from address 8192 on. *)
Definition faulting_copy `{Arch} : CopyRoutines.
Proof.
  refine {| copyin m a old := if a <? 8192 then (read_at m (span a (Z.of_nat (length old))), 0)
                              else (old, EFAULT);
            copyout m bs a := if a <? 8192 then (write_at m (span a (Z.of_nat (length bs))) bs, 0)
                              else (m, EFAULT) |};
    intros; case_match; cbn; auto using write_at_frame; try done.
  unfold read_at. rewrite length_fmap, length_span. lia.
Defined.

(** A write from two areas of which the second is not accessible reports success
    for two bytes (the residue drops from 4 to 2), although nothing has entered the
    pipe. *)
Lemma pipe_write_overreports :
  match pipe_write_pass (H := mips) (H0 := faulting_copy (H := mips)) (Pipe false false (Ringbuf 0 0 0 8 (replicate 8 0)))
    (UIO_VECTOR UIO_WRITE VmUser [Iovec 4096 2; Iovec 8192 2] 4) 4 (fun _ => 7) with
  | Ok (Return 0, p, u, _, _) => uio_resid u = 2 /\ contents (p_buf p) = []
  | _ => False
  end.
Proof. vm_compute. done. Qed.

(** A read whose second copy faults returns [EFAULT] after bytes have left the pipe,
    without waking the writers that wait for space. *)
Lemma pipe_read_loses_bytes :
  match pipe_read_pass (H := mips) (H0 := faulting_copy (H := mips)) (Pipe false false (Ringbuf 3 3 4 4 [3; 4; 5; 2]))
    (UIO_VECTOR UIO_READ VmUser [Iovec 4096 1; Iovec 8192 2] 3) (fun _ => 0) with
  | Ok (Return e, p, _, _, wakes) =>
      e = EFAULT /\ contents (p_buf p) = [3; 4; 5] /\ wakes = []
  | _ => False
  end.
Proof. vm_compute. done. Qed.
