(* ===== verification/Rman.v ===== *)
(** * Range manager for device resources (sys/kern/rman.c, include/sys/rman.h)

    The manager keeps a list of address ranges, free or reserved.  The results: the
    list stays sorted and free of overlaps; a reservation gets the lowest aligned
    block inside the requested window that a free range can hold, and the free space
    shrinks by exactly that block; a release gives the block back. *)

From S2P Require Import Prelude.

Definition RF_RESERVED : Z := 1.
Definition RF_ACTIVE : Z := 2.
Definition RF_PREFETCHABLE : Z := 4.
Definition RF_SHAREABLE : Z := 8.

(** [r_id] is the address of the structure. *)
Record range := Range {
  r_id : Z;
  r_start : Z;      (* first physical address of the range *)
  r_end : Z;        (* last (inclusive) physical address *)
  r_flags : Z;      (* or'ed RF_* values *)
  r_refcnt : Z;     (* number of sharers *)
  r_active_cnt : Z; (* number of activations performed on the range *)
}.

(** [rm_fresh] is the address the next allocation returns. *)
Record rman := Rman {
  rm_ranges : list range;
  rm_fresh : Z;
}.

Inductive res_type := RT_IOPORTS | RT_MEMORY | RT_IRQ.

Record resource := Resource {
  res_range : Z;
  res_type_of : res_type;
  res_rid : Z;
}.

Section ops.
Context `{Arch}.
Implicit Types (r : range) (l : list range).

Definition rman_init (fresh : Z) : rman := Rman [] fresh.

Definition range_alloc (id start end_ flags : Z) : range := Range id start end_ flags 0 0.

Definition r_active r : bool := negb (Z.land (r_flags r) RF_ACTIVE =? 0).
Definition r_reserved r : bool := negb (Z.land (r_flags r) RF_RESERVED =? 0).
Definition r_shareable r : bool := negb (Z.land (r_flags r) RF_SHAREABLE =? 0).
Definition r_size r : Z := wrap (r_end r - r_start r + 1).

Definition r_canmerge r (next : range) : bool :=
  (wrap (r_end r + 1) =? r_start next) && negb (r_reserved next).

Definition r_canshare r (start count flags : Z) : bool :=
  r_shareable r && negb (Z.land flags RF_SHAREABLE =? 0) && (r_size r =? count) &&
  (start <=? r_start r).

Definition set_start r (s : Z) : range :=
  Range (r_id r) s (r_end r) (r_flags r) (r_refcnt r) (r_active_cnt r).
Definition set_end r (e : Z) : range :=
  Range (r_id r) (r_start r) e (r_flags r) (r_refcnt r) (r_active_cnt r).
Definition set_rflags r (fl : Z) : range :=
  Range (r_id r) (r_start r) (r_end r) fl (r_refcnt r) (r_active_cnt r).
Definition set_refcnt r (n : Z) : range :=
  Range (r_id r) (r_start r) (r_end r) (r_flags r) n (r_active_cnt r).
Definition set_active r (n : Z) : range :=
  Range (r_id r) (r_start r) (r_end r) (r_flags r) (r_refcnt r) n.

(** The list around the range with the given address. *)
Fixpoint split_at (id : Z) l : option (list range * range * list range) :=
  match l with
  | [] => None
  | r :: l =>
      if r_id r =? id then Some ([], r, l)
      else '(pre, x, post) ← split_at id l; Some (r :: pre, x, post)
  end.

(** The result is the code's (0 if the range structure must be released) and the
    list. *)
Definition release_list l (id : Z) : outcome (Z * list range) :=
  match split_at id l with
  | None => Fault BadAccess
  | Some (pre, r, post) =>
      _ ← assert (r_reserved r);
      let r := if r_shareable r then set_refcnt r (swrap 32 (r_refcnt r - 1)) else r in
      if r_shareable r && negb (r_refcnt r =? 0) then Ok (1, pre ++ r :: post)
      else
        _ ← assert (negb (r_active r));
        _ ← assert (r_active_cnt r =? 0);
        let '(pre, r) :=
          match last pre with
          | Some prev =>
              if r_canmerge prev r
              then (removelast pre, set_end prev (r_end r)) else (pre, r)
          | None => (pre, r)
          end in
        let '(r, post) :=
          match post with
          | next :: post' =>
              if r_canmerge r next then (set_end r (r_end next), post') else (r, post)
          | [] => (r, post)
          end in
        Ok (0, pre ++ set_rflags r 0 :: post)
  end.

Definition rman_release_range (rm : rman) (id : Z) : outcome (Z * rman) :=
  '(res, l) ← release_list (rm_ranges rm) id;
  Ok (res, Rman l (rm_fresh rm)).

(** The search for a gap, from the element [r] on, [l] being what follows it; the
    last range is not a candidate. *)
Fixpoint manage_loop (r : range) l (reg : range) : option (list range) :=
  match l with
  | [] => None
  | next :: l' =>
      if (r_end r <? r_start reg) && (r_end reg <? r_start next)
      then Some (r :: reg :: l)
      else l'' ← manage_loop next l' reg; Some (r :: l'')
  end.

Definition rman_manage_region (rm : rman) (start size : Z) : outcome rman :=
  let end_ := wrap (start + size - 1) in
  let reg := range_alloc (rm_fresh rm) start end_ RF_RESERVED in
  l ← match rm_ranges rm with
      | [] => Ok [reg]
      | first :: rest =>
          if end_ <? r_start first then Ok (reg :: first :: rest)
          else
            let last_ := default first (last rest) in
            if r_end last_ <? start then Ok ((first :: rest) ++ [reg])
            else match manage_loop first rest reg with
                 | Some l => Ok l
                 | None => panic
                 end
      end;
  '(_, rm) ← rman_release_range (Rman l (rm_fresh rm + 1)) (r_id reg);
  Ok rm.

Definition rman_init_from_resource (fresh start size : Z) : outcome rman :=
  rman_manage_region (rman_init fresh) start size.

Fixpoint fini_loop l : outcome (list range) :=
  match l with
  | [] => Ok []
  | r :: l => _ ← assert (negb (r_reserved r)); fini_loop l
  end.

Definition rman_fini (rm : rman) : outcome rman :=
  l ← fini_loop (rm_ranges rm);
  Ok (Rman l (rm_fresh rm)).

(** The free range [r] cut down to [new_start .. new_end] and reserved, with what is
    left of it on both sides; [id] is the next address to allocate at. *)
Definition carve r (id new_start new_end flags : Z) : list range * range * list range * Z :=
  let '(before, r, id) :=
    if r_start r <? new_start
    then ([range_alloc id (r_start r) (wrap (new_start - 1)) (r_flags r)],
          set_start r new_start, id + 1)
    else ([], r, id) in
  let '(r, after, id) :=
    if new_end <? r_end r
    then (set_end r new_end,
          [range_alloc id (wrap (new_end + 1)) (r_end r) (r_flags r)], id + 1)
    else (r, [], id) in
  let r := set_rflags r (Z.lor (r_flags r) RF_RESERVED) in
  let r := set_rflags r (Z.lor (r_flags r) (Z.land flags (Z.lnot RF_ACTIVE))) in
  (before, r, after, id).

(** The result is the range chosen, the list, and the next address. *)
Fixpoint reserve_loop l (fresh start end_ count alignment flags : Z)
    : option Z * list range * Z :=
  match l with
  | [] => (None, [], fresh)
  | r :: l =>
      let continue :=
        let '(res, l, fresh) := reserve_loop l fresh start end_ count alignment flags in
        (res, r :: l, fresh) in
      if r_reserved r then
        if r_canshare r start count flags
        then (Some (r_id r), set_refcnt r (swrap 32 (r_refcnt r + 1)) :: l, fresh)
        else continue
      else
        let new_start := roundup (Z.max (r_start r) start) alignment in
        let new_end := wrap (new_start + count - 1) in
        if r_end r <? new_end then continue
        else if end_ <? new_end then (None, r :: l, fresh)
        else
          let '(before, r, after, fresh) := carve r fresh new_start new_end flags in
          (Some (r_id r), before ++ r :: after ++ l, fresh)
  end.

Definition rman_reserve_range (rm : rman) (start end_ count alignment flags : Z)
    : outcome (option Z * rman) :=
  _ ← assert (wrap (start + count - 1) <=? end_);
  _ ← assert (0 <? count);
  let alignment := Z.max alignment 1 in
  _ ← assert (powerof2 alignment);
  let '(res, l, fresh) :=
    reserve_loop (rm_ranges rm) (rm_fresh rm) start end_ count alignment flags in
  Ok (res, Rman l fresh).

Definition rman_reserve_resource (rm : rman) (type : res_type)
    (rid start end_ size alignment flags : Z) : outcome (option resource * rman) :=
  '(range, rm) ← rman_reserve_range rm start end_ size alignment flags;
  Ok (match range with
      | None => None
      | Some id => Some (Resource id type rid)
      end, rm).

(** Reading and updating the range of a resource. *)
Definition get_range (rm : rman) (res : resource) : outcome range :=
  match split_at (res_range res) (rm_ranges rm) with
  | Some (_, r, _) => Ok r
  | None => Fault BadAccess
  end.

Definition update_range (rm : rman) (res : resource) (f : range -> range) : outcome rman :=
  match split_at (res_range res) (rm_ranges rm) with
  | Some (pre, r, post) => Ok (Rman (pre ++ f r :: post) (rm_fresh rm))
  | None => Fault BadAccess
  end.

Definition resource_size (rm : rman) (res : resource) : outcome Z :=
  r ← get_range rm res; Ok (r_size r).
Definition resource_start (rm : rman) (res : resource) : outcome Z :=
  r ← get_range rm res; Ok (r_start r).
Definition resource_active (rm : rman) (res : resource) : outcome bool :=
  r ← get_range rm res; Ok (r_active r).

Definition resource_activate (rm : rman) (res : resource) : outcome rman :=
  update_range rm res (fun r =>
    set_active (set_rflags r (Z.lor (r_flags r) RF_ACTIVE)) (swrap 32 (r_active_cnt r + 1))).

Definition resource_deactivate (rm : rman) (res : resource) : outcome rman :=
  update_range rm res (fun r =>
    let r := set_active r (swrap 32 (r_active_cnt r - 1)) in
    if r_active_cnt r =? 0
    then set_rflags r (Z.land (r_flags r) (Z.lnot RF_ACTIVE)) else r).

(** Whether the resource structure is freed, and the manager. *)
Definition resource_release (rm : rman) (res : resource) : outcome (bool * rman) :=
  '(v, rm) ← rman_release_range rm (res_range res);
  Ok (v =? 0, rm).
End ops.

(** ** Well-formed lists of ranges *)

(** Sorted, not empty, not overlapping, from [lo] on. *)
Fixpoint ranges_ok `{Arch} (lo : Z) (l : list range) : Prop :=
  match l with
  | [] => True
  | r :: l => lo <= r_start r <= r_end r /\ r_end r < 2 ^ word_bits /\ ranges_ok (r_end r + 1) l
  end.

(** One past the last address of the list. *)
Fixpoint top (lo : Z) (l : list range) : Z :=
  match l with [] => lo | r :: l => top (r_end r + 1) l end.

Record wf_rman `{Arch} (rm : rman) : Prop := {
  wf_order : ranges_ok 0 (rm_ranges rm);
  wf_ids : NoDup (r_id <$> rm_ranges rm);
  wf_fresh : Forall (fun r => r_id r < rm_fresh rm) (rm_ranges rm);
  wf_free : Forall (fun r => r_reserved r = false -> r_flags r = 0 /\ r_active_cnt r = 0)
    (rm_ranges rm);
}.

(** Address [a] is free; a block of [count] addresses at [a] fits in a free range. *)
Definition free_at (l : list range) (a : Z) : Prop :=
  exists r, r ∈ l /\ r_reserved r = false /\ r_start r <= a <= r_end r.
Definition fits (l : list range) (a count : Z) : Prop :=
  exists r, r ∈ l /\ r_reserved r = false /\ r_start r <= a /\ a + count - 1 <= r_end r.

Section lists.
Context `{Arch}.
Implicit Types (r : range) (l : list range).

Lemma ranges_ok_app lo l1 l2 :
  ranges_ok lo (l1 ++ l2) <-> ranges_ok lo l1 /\ ranges_ok (top lo l1) l2.
Proof.
  revert lo. induction l1 as [|r l1 IH]; intros lo; cbn; [tauto|]. rewrite IH. tauto.
Qed.

Lemma ranges_ok_le lo lo' l : ranges_ok lo l -> lo' <= lo -> ranges_ok lo' l.
Proof. destruct l as [|r l]; cbn; [done|]. intros (H1 & H2 & H3) Hle. split_and!; try done; lia. Qed.

Lemma top_le lo l : ranges_ok lo l -> lo <= top lo l.
Proof.
  revert lo. induction l as [|r l IH]; intros lo; cbn; [lia|].
  intros (H1 & H2 & H3). pose proof (IH _ H3). lia.
Qed.

Lemma top_app lo l1 l2 : top lo (l1 ++ l2) = top (top lo l1) l2.
Proof. revert lo. induction l1 as [|r l1 IH]; intros lo; cbn; [done|]. apply IH. Qed.

Lemma ranges_ok_elem lo l r :
  ranges_ok lo l -> r ∈ l -> lo <= r_start r <= r_end r /\ r_end r < 2 ^ word_bits.
Proof.
  revert lo. induction l as [|x l IH]; intros lo Hok Hr; [by apply not_elem_of_nil in Hr|].
  cbn in Hok. destruct Hok as (H1 & H2 & H3).
  apply elem_of_cons in Hr as [->|Hr]; [done|]. pose proof (IH _ H3 Hr). lia.
Qed.

Lemma ranges_ok_split lo pre r post r2 :
  ranges_ok lo (pre ++ r :: post) -> r2 ∈ post -> r_end r < r_start r2.
Proof.
  rewrite ranges_ok_app. intros (_ & _ & _ & Hp) Hr2.
  pose proof (ranges_ok_elem _ _ _ Hp Hr2). lia.
Qed.

Lemma ranges_disjoint lo l r1 r2 :
  ranges_ok lo l -> r1 ∈ l -> r2 ∈ l -> r1 = r2 \/ r_end r1 < r_start r2 \/ r_end r2 < r_start r1.
Proof.
  revert lo. induction l as [|x l IH]; intros lo Hok H1 H2; [by apply not_elem_of_nil in H1|].
  destruct Hok as (Hx & _ & Hok).
  apply elem_of_cons in H1 as [->|H1]; apply elem_of_cons in H2 as [->|H2].
  - by left.
  - pose proof (ranges_ok_elem _ _ _ Hok H2). lia.
  - pose proof (ranges_ok_elem _ _ _ Hok H1). lia.
  - by eapply IH.
Qed.

Lemma split_at_spec id l pre r post :
  split_at id l = Some (pre, r, post) -> l = pre ++ r :: post /\ r_id r = id.
Proof.
  revert pre. induction l as [|x l IH]; intros pre; cbn; [done|].
  destruct (Z.eqb_spec (r_id x) id) as [E|E]; [by intros [= <- <- <-]|].
  destruct (split_at id l) as [[[pre' r'] post']|] eqn:Es; cbn; [|done].
  intros [= <- <- <-]. destruct (IH pre' eq_refl) as [-> ->]. done.
Qed.

Lemma split_at_elem r l : NoDup (r_id <$> l) -> r ∈ l ->
  exists pre post, split_at (r_id r) l = Some (pre, r, post).
Proof.
  induction l as [|x l IH]; intros Hnd Hr; [by apply not_elem_of_nil in Hr|].
  cbn in *. apply NoDup_cons in Hnd as [Hx Hnd]. apply elem_of_cons in Hr as [->|Hr].
  - rewrite Z.eqb_refl. eauto.
  - destruct (Z.eqb_spec (r_id x) (r_id r)) as [E|E].
    { exfalso. apply Hx. rewrite E. by apply list_elem_of_fmap_2. }
    destruct (IH Hnd Hr) as (pre & post & ->). cbn. eauto.
Qed.
End lists.

(** ** Reservation *)

Section reserve.
Context `{Arch}.
Implicit Types (r : range) (l : list range).

Variables start end_ count alignment flags : Z.
Hypothesis Hstart : 0 <= start.
Hypothesis Hcount : 0 < count.
Hypothesis Halign : 0 < alignment.

(** Where a block would start in [r]. *)
Definition place r : Z := ceil_to (Z.max (r_start r) start) alignment.

Definition room r : Prop := place r + count - 1 <= r_end r.

(** Rounding up and adding the size does not wrap around. *)
Definition no_wrap l : Prop :=
  start + count + alignment <= 2 ^ word_bits /\
  Forall (fun r => r_start r + count + alignment <= 2 ^ word_bits) l.

Lemma place_spec r :
  Z.max (r_start r) start <= place r < Z.max (r_start r) start + alignment /\
  place r `mod` alignment = 0.
Proof. apply ceil_to_spec. done. Qed.

Lemma place_least r a :
  r_start r <= a -> start <= a -> a `mod` alignment = 0 -> place r <= a.
Proof. intros. apply ceil_to_least; lia. Qed.

Lemma place_code r :
  0 <= r_start r -> r_start r + count + alignment <= 2 ^ word_bits ->
  start + count + alignment <= 2 ^ word_bits ->
  roundup (Z.max (r_start r) start) alignment = place r /\
  wrap (place r + count - 1) = place r + count - 1.
Proof.
  intros H1 H2 H3. pose proof (place_spec r). split.
  - apply roundup_spec; unfold in_word; lia.
  - apply wrap_small. unfold in_word. lia.
Qed.

(** The chosen range and what is left of it on both sides. *)
Definition chosen r : range :=
  Range (r_id r) (place r) (place r + count - 1)
    (Z.lor (Z.lor (r_flags r) RF_RESERVED) (Z.land flags (Z.lnot RF_ACTIVE)))
    (r_refcnt r) (r_active_cnt r).
Definition left_part r (id : Z) : list range :=
  if r_start r <? place r then [range_alloc id (r_start r) (place r - 1) (r_flags r)] else [].
Definition right_part r (id : Z) : list range :=
  let id := if r_start r <? place r then id + 1 else id in
  if place r + count - 1 <? r_end r
  then [range_alloc id (place r + count) (r_end r) (r_flags r)] else [].

Lemma carve_spec r id :
  0 <= r_start r -> room r -> r_end r < 2 ^ word_bits ->
  exists id', carve r id (place r) (place r + count - 1) flags =
    (left_part r id, chosen r, right_part r id, id') /\
    id' = id + Z.of_nat (length (left_part r id ++ right_part r id)).
Proof.
  intros H1 Hroom H2. unfold room in Hroom. pose proof (place_spec r) as [Hp _].
  unfold carve, left_part, right_part, chosen.
  replace (place r + count - 1 + 1) with (place r + count) by lia.
  unfold set_rflags, set_start, set_end.
  destruct (Z.ltb_spec (r_start r) (place r)); cbn;
    destruct (Z.ltb_spec (place r + count - 1) (r_end r)); cbn;
    eexists; (split; [|reflexivity]); rewrite ?wrap_small by auto with kern;
    repeat match goal with
    | |- (_, _) = (_, _) => apply f_equal2
    | |- Range _ _ _ _ _ _ = _ => f_equal
    | |- _ => done || lia
    end.
Qed.

(** A range that the loop passes over *)
Definition passed r : Prop := if r_reserved r then r_canshare r start count flags = false else ~ room r.

Lemma passed_full r : passed r -> r_reserved r = true \/ ~ room r.
Proof. unfold passed. destruct (r_reserved r); auto. Qed.

(** What the loop has done. *)
Inductive reserved_as l fresh : option Z -> list range -> Z -> Prop :=
| res_none :
    Forall (fun r => r_reserved r = true \/ ~ room r \/ end_ < place r + count - 1) l ->
    reserved_as l fresh None l fresh
| res_shared pre r post :
    l = pre ++ r :: post -> r_reserved r = true -> r_canshare r start count flags = true ->
    Forall passed pre ->
    reserved_as l fresh (Some (r_id r))
      (pre ++ set_refcnt r (swrap 32 (r_refcnt r + 1)) :: post) fresh
| res_new pre r post :
    l = pre ++ r :: post -> r_reserved r = false -> room r ->
    place r + count - 1 <= end_ ->
    Forall passed pre ->
    reserved_as l fresh (Some (r_id r))
      (pre ++ left_part r fresh ++ chosen r :: right_part r fresh ++ post)
      (fresh + Z.of_nat (length (left_part r fresh ++ right_part r fresh))).

Lemma reserved_as_cons l r fresh res l' fresh' :
  reserved_as l fresh res l' fresh' -> passed r ->
  reserved_as (r :: l) fresh res (r :: l') fresh'.
Proof.
  intros HR Hr. destruct HR as [HF|pre x post -> Hx Hs HF|pre x post -> Hx Hroom He HF].
  - constructor. constructor; [apply passed_full in Hr; tauto|done].
  - apply (res_shared _ _ (r :: pre)); try done. by constructor.
  - apply (res_new _ _ (r :: pre)); try done. by constructor.
Qed.

Lemma reserve_loop_spec l : forall lo fresh,
  0 <= lo -> ranges_ok lo l -> no_wrap l ->
  let '(res, l', fresh') := reserve_loop l fresh start end_ count alignment flags in
  reserved_as l fresh res l' fresh'.
Proof.
  induction l as [|r l IH]; intros lo fresh Hlo Hok [Hnw HF]; cbn [reserve_loop].
  { by constructor. }
  apply Forall_cons in HF as [Hr HF]. destruct Hok as (H1 & H2 & H3).
  specialize (IH (r_end r + 1) fresh ltac:(lia) H3 (conj Hnw HF)).
  destruct (reserve_loop l fresh start end_ count alignment flags) as [[res l'] fresh'].
  destruct (r_reserved r) eqn:Hres.
  - destruct (r_canshare r start count flags) eqn:Hs.
    + by apply (res_shared _ _ []).
    + apply reserved_as_cons; [done|]. unfold passed. by rewrite Hres.
  - destruct (place_code r) as [-> ->]; [lia..|].
    destruct (Z.ltb_spec (r_end r) (place r + count - 1)) as [Hfar|Hroom].
    { apply reserved_as_cons; [done|]. unfold passed, room. rewrite Hres. lia. }
    destruct (Z.ltb_spec end_ (place r + count - 1)) as [Hbeyond|Hin].
    + constructor. constructor; [by right; right|].
      apply Forall_forall. intros r2 Hr2. right. right.
      pose proof (ranges_ok_elem _ _ _ H3 Hr2). pose proof (place_spec r2). lia.
    + destruct (carve_spec r fresh) as (id' & -> & ->); [lia|done|done|].
      change (r_id (chosen r)) with (r_id r). by apply (res_new _ _ []).
Qed.

(** No block that fits is missed. *)
Lemma reserved_none l fresh l' fresh' a :
  reserved_as l fresh None l' fresh' ->
  start <= a -> a + count - 1 <= end_ -> a `mod` alignment = 0 -> ~ fits l a count.
Proof.
  intros HR Ha Hend Hmod (r & Hr & Hf & Hs & He). inversion HR as [HF| |]; subst.
  rewrite Forall_forall in HF. pose proof (place_least r a Hs Ha Hmod).
  destruct (HF r Hr) as [E|[E|E]]; [congruence|unfold room in E; lia|lia].
Qed.

Lemma place_lowest lo pre r post a :
  ranges_ok lo (pre ++ r :: post) -> Forall (fun r => r_reserved r = true \/ ~ room r) pre ->
  r_reserved r = false -> room r ->
  start <= a -> a `mod` alignment = 0 -> fits (pre ++ r :: post) a count -> place r <= a.
Proof.
  intros Hok HF Hf Hroom Ha Hmod (r2 & Hr2 & Hf2 & Hs2 & He2).
  apply elem_of_app in Hr2 as [Hr2|Hr2].
  - rewrite Forall_forall in HF. pose proof (place_least r2 a Hs2 Ha Hmod).
    destruct (HF r2 Hr2) as [E|E]; [congruence|]. exfalso. apply E. unfold room. lia.
  - apply elem_of_cons in Hr2 as [->|Hr2]; [by apply place_least|].
    pose proof (ranges_ok_split _ _ _ _ _ Hok Hr2). unfold room in Hroom. lia.
Qed.

(** The parts of a carved range tile it. *)
Lemma carved_ok lo r post id :
  0 <= lo -> room r -> ranges_ok lo (r :: post) ->
  ranges_ok lo (left_part r id ++ chosen r :: right_part r id ++ post).
Proof.
  intros Hlo Hroom (H1 & H2 & H3). unfold room in Hroom. pose proof (place_spec r) as [Hp _].
  unfold left_part, right_part.
  destruct (Z.ltb_spec (r_start r) (place r)), (Z.ltb_spec (place r + count - 1) (r_end r));
    cbn; split_and!; try lia; (done || (eapply ranges_ok_le; [exact H3|lia])).
Qed.

Lemma chosen_reserved r : r_reserved (chosen r) = true.
Proof.
  unfold r_reserved, chosen, RF_RESERVED. cbn.
  change 1 with (2 ^ 0) at 2. rewrite land_pow2_testbit, !Z.lor_spec by lia.
  by rewrite orb_true_r.
Qed.

Lemma parts_flags r id :
  Forall (fun x => r_reserved x = r_reserved r) (left_part r id ++ right_part r id).
Proof.
  unfold left_part, right_part. destruct (_ <? _), (_ <? _); repeat constructor.
Qed.

Lemma parts_idle r id :
  r_flags r = 0 ->
  Forall (fun x => r_reserved x = false -> r_flags x = 0 /\ r_active_cnt x = 0)
    (left_part r id ++ right_part r id).
Proof.
  intros Hf. unfold left_part, right_part. destruct (_ <? _), (_ <? _); repeat constructor; done.
Qed.

Lemma free_at_app l1 l2 a : free_at (l1 ++ l2) a <-> free_at l1 a \/ free_at l2 a.
Proof. unfold free_at. setoid_rewrite elem_of_app. naive_solver. Qed.

Lemma free_at_cons r l a :
  free_at (r :: l) a <-> (r_reserved r = false /\ r_start r <= a <= r_end r) \/ free_at l a.
Proof. unfold free_at. setoid_rewrite elem_of_cons. naive_solver. Qed.

Lemma free_at_nil a : ~ free_at [] a.
Proof. intros (r & Hr & _). by apply not_elem_of_nil in Hr. Qed.

Lemma parts_free r id a :
  room r -> r_reserved r = false ->
  free_at (left_part r id ++ right_part r id) a <->
    r_start r <= a <= r_end r /\ ~ (place r <= a <= place r + count - 1).
Proof.
  intros Hroom Hf. unfold room in Hroom. pose proof (place_spec r) as [Hp _].
  unfold left_part, right_part.
  destruct (Z.ltb_spec (r_start r) (place r)), (Z.ltb_spec (place r + count - 1) (r_end r));
    cbn [app]; rewrite ?free_at_cons; unfold r_reserved, range_alloc in *; cbn;
    rewrite ?Hf; pose proof (free_at_nil a); intuition lia.
Qed.

(** Reserved ranges before and after. *)
Lemma reserved_parts r id x :
  r_reserved r = false -> r_reserved x = true ->
  x ∉ left_part r id /\ x ∉ right_part r id.
Proof.
  intros Hf Hx. pose proof (parts_flags r id) as HF. rewrite Forall_app, !Forall_forall in HF.
  destruct HF as [H1 H2]. split; intros Hin.
  - apply H1 in Hin. congruence.
  - apply H2 in Hin. congruence.
Qed.

Lemma parts_ids pre r post id :
  NoDup (r_id <$> pre ++ r :: post) -> Forall (fun r => r_id r < id) (pre ++ r :: post) ->
  let l' := pre ++ left_part r id ++ chosen r :: right_part r id ++ post in
  let id' := id + Z.of_nat (length (left_part r id ++ right_part r id)) in
  NoDup (r_id <$> l') /\ Forall (fun r => r_id r < id') l'.
Proof.
  intros Hnd HF l' id'.
  assert (r_id <$> l' ≡ₚ (r_id <$> left_part r id ++ right_part r id) ++
    (r_id <$> pre ++ r :: post)) as HP.
  { subst l'. rewrite !fmap_app, !fmap_cons, !fmap_app. cbn [chosen r_id].
    solve_Permutation. }
  assert (forall x, x ∈ r_id <$> pre ++ r :: post -> x < id) as Hold.
  { intros x Hx. apply list_elem_of_fmap in Hx as (y & -> & Hy).
    rewrite Forall_forall in HF. by apply HF. }
  assert (r_id <$> left_part r id ++ right_part r id =
    seqZ id (Z.of_nat (length (left_part r id ++ right_part r id)))) as Hnew.
  { unfold left_part, right_part. destruct (_ <? _), (_ <? _); cbn;
    rewrite ?(seqZ_cons _ 2), ?(seqZ_cons _ 1) by lia; cbn; rewrite ?Z.add_0_r;
    repeat f_equal; lia. }
  split.
  - rewrite HP, Hnew. apply NoDup_app. split_and!; [apply NoDup_seqZ| |done].
    intros x Hx Hx'. apply elem_of_seqZ in Hx. pose proof (Hold x Hx'). lia.
  - apply Forall_forall. intros x Hx.
    assert (r_id x ∈ r_id <$> l') as Hin by (by apply list_elem_of_fmap_2).
    rewrite HP, Hnew in Hin. apply elem_of_app in Hin as [Hin|Hin].
    + apply elem_of_seqZ in Hin. lia.
    + pose proof (Hold _ Hin). lia.
Qed.
End reserve.

(** ** Correctness *)

Section correct.
Context `{Arch}.
Implicit Types (r : range) (l : list range).

(** The range reserved for a request and its effect on the list. *)
Record new_range (start end_ count alignment flags : Z) l l' (r' : range) : Prop := {
  nr_flags : r_flags r' = Z.lor RF_RESERVED (Z.land flags (Z.lnot RF_ACTIVE));
  nr_idle : r_active_cnt r' = 0;
  nr_elem : r' ∈ l';
  nr_reserved : r_reserved r' = true;
  nr_size : r_end r' = r_start r' + count - 1;
  nr_window : start <= r_start r' /\ r_end r' <= end_;
  nr_aligned : r_start r' `mod` alignment = 0;
  nr_lowest a : start <= a -> a `mod` alignment = 0 -> fits l a count -> r_start r' <= a;
  nr_was_free a : r_start r' <= a <= r_end r' -> free_at l a;
  nr_free a : free_at l' a <-> free_at l a /\ ~ (r_start r' <= a <= r_end r');
  nr_others x : r_reserved x = true -> x ∈ l' <-> x ∈ l \/ x = r';
}.

Lemma reserved_as_new start end_ count alignment flags pre r post fresh :
  0 <= start -> 0 < count -> 0 < alignment ->
  ranges_ok 0 (pre ++ r :: post) -> r_reserved r = false ->
  r_flags r = 0 -> r_active_cnt r = 0 -> room start count alignment r -> place start alignment r + count - 1 <= end_ ->
  Forall (fun r => r_reserved r = true \/ ~ room start count alignment r) pre ->
  new_range start end_ count alignment flags (pre ++ r :: post)
    (pre ++ left_part start alignment r fresh ++ chosen start count alignment flags r ::
      right_part start count alignment r fresh ++ post)
    (chosen start count alignment flags r).
Proof.
  intros Hs Hc Ha Hok Hf Hfl Hcnt Hroom Hend Hpre.
  destruct (place_spec start alignment Ha r) as [Hp Hmod].
  assert (forall a, free_at (left_part start alignment r fresh) a \/
      free_at (right_part start count alignment r fresh) a <->
      r_start r <= a <= r_end r /\ ~ (place start alignment r <= a <= place start alignment r + count - 1))
    as Hparts by (intros a; rewrite <- free_at_app; by apply parts_free).
  assert (forall a, place start alignment r <= a <= place start alignment r + count - 1 ->
    forall x, x ∈ pre ++ post -> ~ (r_start x <= a <= r_end x)) as Hdisj.
  { intros a Hin x Hx Hax. unfold room in Hroom. apply elem_of_app in Hx as [Hx|Hx].
    - apply list_elem_of_split in Hx as (p1 & p2 & ->). rewrite <- app_assoc in Hok. cbn in Hok.
      assert (r ∈ p2 ++ r :: post) as Hr by set_solver.
      pose proof (ranges_ok_split _ _ _ _ _ Hok Hr). lia.
    - pose proof (ranges_ok_split _ _ _ _ _ Hok Hx). lia. }
  split; cbn [chosen r_start r_end r_flags r_active_cnt].
  - by rewrite Hfl.
  - done.
  - rewrite !elem_of_app, elem_of_cons. tauto.
  - apply chosen_reserved.
  - lia.
  - lia.
  - done.
  - intros a H1 H2 H3. by eapply (place_lowest start count alignment Hs Hc Ha 0 pre r post).
  - intros a Hin. unfold room in Hroom. rewrite free_at_app, free_at_cons. right. left. lia.
  - intros a. rewrite !free_at_app, !free_at_cons, !free_at_app, chosen_reserved.
    pose proof (Hparts a). rewrite Hf.
    assert (free_at pre a \/ free_at post a ->
      ~ (place start alignment r <= a <= place start alignment r + count - 1)) as Hd.
    { intros HH Hin. rewrite <- free_at_app in HH. destruct HH as (x & Hx & _ & Hax).
      by eapply Hdisj. }
    intuition (try done; try lia).
  - intros x Hx. destruct (reserved_parts start count alignment r fresh x Hf Hx) as [N1 N2].
    rewrite !elem_of_app, !elem_of_cons, !elem_of_app.
    assert (x <> r) by congruence. tauto.
Qed.

Lemma reserve_spec rm start end_ count alignment flags :
  let al := Z.max alignment 1 in
  wf_rman rm -> 0 <= start -> 0 < count -> start + count - 1 <= end_ ->
  powerof2 al = true -> no_wrap start count al (rm_ranges rm) ->
  exists res rm', rman_reserve_range rm start end_ count alignment flags = Ok (res, rm') /\
    wf_rman rm' /\
    match res with
    | None => rm' = rm /\ forall a, start <= a -> a + count - 1 <= end_ ->
        a `mod` al = 0 -> ~ fits (rm_ranges rm) a count
    | Some id =>
        (exists pre r post, rm_ranges rm = pre ++ r :: post /\ r_id r = id /\ r_reserved r = true /\
           r_canshare r start count flags = true /\ Forall (passed start count al flags) pre /\
           rm' = Rman (pre ++ set_refcnt r (swrap 32 (r_refcnt r + 1)) :: post) (rm_fresh rm)) \/
        (exists r', r_id r' = id /\
           new_range start end_ count al flags (rm_ranges rm) (rm_ranges rm') r')
    end.
Proof.
  intros al [Hok Hnd Hfr Hfree] Hs Hc Hend Hp2 Hnw.
  assert (0 < al) as Ha by lia. pose proof Hnw as [Hnw1 _].
  unfold rman_reserve_range. rewrite (wrap_small (start + count - 1)) by (unfold in_word; lia).
  assert_step lia. assert_step lia. assert_step ltac:(done). fold al.
  pose proof (reserve_loop_spec start end_ count al flags Hs Hc Ha (rm_ranges rm) 0
    (rm_fresh rm) ltac:(lia) Hok Hnw) as HR.
  destruct (reserve_loop (rm_ranges rm) (rm_fresh rm) start end_ count al flags) as [[res l'] fresh'].
  exists res, (Rman l' fresh'). split; [done|].
  destruct HR as [HF|pre r post E Hr Hsh Hpre|pre r post E Hf Hroom Hin Hpre]; cbn [rm_ranges].
  - assert (Rman (rm_ranges rm) (rm_fresh rm) = rm) as -> by (by destruct rm).
    split_and!; try done. intros a. eapply reserved_none with (fresh := rm_fresh rm) (flags := flags); [done..|].
    by apply res_none.
  - rewrite E in *. split.
    + apply ranges_ok_app in Hok as [Ho1 Ho2]. rewrite fmap_app, fmap_cons in Hnd.
      rewrite !Forall_app, !Forall_cons in *.
      split; cbn [rm_ranges rm_fresh]; rewrite ?fmap_app, ?fmap_cons, ?Forall_app, ?Forall_cons; try done.
      by apply ranges_ok_app.
    + left. by exists pre, r, post.
  - rewrite E in *.
    destruct (parts_ids start count al flags pre r post (rm_fresh rm)) as [Hnd' Hfr']; [done..|].
    split.
    + split; cbn [rm_ranges rm_fresh]; try done.
      * apply ranges_ok_app in Hok as [Ho1 Ho2]. apply ranges_ok_app. split; [done|].
        apply carved_ok; try done. by apply top_le.
      * rewrite !Forall_app, !Forall_cons, !Forall_app in *. destruct Hfree as (F1 & F2 & F3).
        destruct (F2 Hf) as [Z1 _].
        pose proof (parts_idle start count al r (rm_fresh rm) Z1) as HP.
        apply Forall_app in HP as [HP1 HP2]. split_and!; try done. by rewrite chosen_reserved.
    + right. rewrite !Forall_app, !Forall_cons in Hfree. destruct Hfree as (_ & F2 & _).
      destruct (F2 Hf). eexists. split; [|apply reserved_as_new; try done]; [done|]. eapply Forall_impl; [exact Hpre|apply passed_full].
Qed.


(** ** Release *)

(** A range that may be given back: idle, with at most this user. *)
Definition releasable r : Prop :=
  r_reserved r = true /\ (r_shareable r = true -> r_refcnt r = 1) /\
  r_active r = false /\ r_active_cnt r = 0.

(** The range that results, and the list after it: the next range is merged when it
    is free and adjacent. *)
Definition freed r (e n : Z) : range := Range (r_id r) (r_start r) e 0 n 0.

Lemma release_list_spec lo pre r post :
  ranges_ok lo (pre ++ r :: post) -> 0 <= lo -> releasable r ->
  split_at (r_id r) (pre ++ r :: post) = Some (pre, r, post) ->
  exists e n post', release_list (pre ++ r :: post) (r_id r) = Ok (0, pre ++ freed r e n :: post') /\
    (e = r_end r /\ post' = post \/
     exists next, post = next :: post' /\ r_reserved next = false /\
       r_start next = r_end r + 1 /\ e = r_end next).
Proof.
  intros Hok Hlo (Hres & Href & Hact & Hcnt) Hsp. unfold release_list. rewrite Hsp.
  assert_step ltac:(done).
  apply ranges_ok_app in Hok as [Ho (H1 & H2 & H3)]. pose proof (top_le _ _ Ho).
  set (r1 := if r_shareable r then _ else r).
  assert (r_shareable r1 && negb (r_refcnt r1 =? 0) = false /\ r_flags r1 = r_flags r /\
    r_start r1 = r_start r /\ r_end r1 = r_end r /\ r_id r1 = r_id r /\
    r_active_cnt r1 = r_active_cnt r) as (-> & Hfl & Hs & He & Hid & Hc).
  { subst r1. destruct (r_shareable r) eqn:E; [|by rewrite E].
    rewrite Href by done. by rewrite andb_false_r. }
  unfold r_active. rewrite Hfl. fold (r_active r). rewrite Hact. assert_step ltac:(done).
  rewrite Hc, Hcnt. assert_step ltac:(done).
  assert (forall prev, r_canmerge prev r1 = false) as Hnm.
  { intros prev. unfold r_canmerge, r_reserved. rewrite Hfl.
    fold (r_reserved r). rewrite Hres. apply andb_false_r. }
  assert ((match last pre with
    | Some prev => if r_canmerge prev r1 then (removelast pre, set_end prev (r_end r1)) else (pre, r1)
    | None => (pre, r1) end) = (pre, r1)) as ->.
  { destruct (last pre) as [prev|]; [by rewrite Hnm|done]. }
  assert (forall e, set_rflags (set_end r1 e) 0 = freed r e (r_refcnt r1)) as Hfreed.
  { intros e. unfold set_rflags, set_end, freed. cbn. congruence. }
  assert (set_rflags r1 0 = freed r (r_end r) (r_refcnt r1)) as Hfreed'.
  { unfold set_rflags, freed. congruence. }
  destruct post as [|next post]; cbn.
  - exists (r_end r), (r_refcnt r1), []. rewrite Hfreed'. eauto.
  - destruct (r_canmerge r1 next) eqn:Hm; cbn.
    + exists (r_end next), (r_refcnt r1), post. rewrite Hfreed. split; [done|]. right.
      unfold r_canmerge in Hm. cbn in H3. destruct H3 as (H4 & H5 & _). rewrite He, wrap_small in Hm by (unfold in_word; lia).
      exists next. split_and!; try done; [|lia]. destruct (r_reserved next); [|done]. lia.
    + exists (r_end r), (r_refcnt r1), (next :: post). rewrite Hfreed'. eauto.
Qed.

Lemma rman_release_spec rm r :
  wf_rman rm -> r ∈ rm_ranges rm -> releasable r ->
  exists rm', rman_release_range rm (r_id r) = Ok (0, rm') /\ wf_rman rm' /\
    (forall a, free_at (rm_ranges rm') a <->
       free_at (rm_ranges rm) a \/ r_start r <= a <= r_end r) /\
    (forall x, r_reserved x = true -> x ∈ rm_ranges rm' <-> x ∈ rm_ranges rm /\ x <> r).
Proof.
  intros [Hok Hnd Hfr Hfree] Hr Hrel.
  destruct (split_at_elem r (rm_ranges rm) Hnd Hr) as (pre & post & Hsp).
  destruct (split_at_spec _ _ _ _ _ Hsp) as [E _].
  unfold rman_release_range. rewrite E in *.
  destruct (release_list_spec 0 pre r post Hok ltac:(lia) Hrel Hsp)
    as (e & n & post' & -> & Hpost). cbn [mbind outcome_bind].
  exists (Rman (pre ++ freed r e n :: post') (rm_fresh rm)). split; [done|].
  destruct Hrel as (Hres & _). pose proof Hok as Hok'.
  apply ranges_ok_app in Hok' as [Ho1 (H1 & H2 & H3)].
  assert (r_reserved (freed r e n) = false) as Hff by done.
  rewrite fmap_app, fmap_cons in Hnd. rewrite !Forall_app, !Forall_cons in *.
  assert (r ∉ pre /\ r ∉ post) as [Np Nq].
  { apply NoDup_app in Hnd as (_ & Hd & Hnd). apply NoDup_cons in Hnd as [Hn _]. split; intros Hin.
    - apply (Hd (r_id r)); [by apply list_elem_of_fmap_2|set_solver].
    - apply Hn. by apply list_elem_of_fmap_2. }
  assert (forall x, x ∈ pre -> x <> r) as Np' by (intros x Hx ->; done).
  assert (forall x, x ∈ post -> x <> r) as Nq' by (intros x Hx ->; done).
  destruct Hfr as (Fa & Fb & Fc), Hfree as (Ga & Gb & Gc).
  destruct Hpost as [[-> ->]|(next & -> & Hnf & Hadj & ->)].
  - split_and!.
    + split; cbn [rm_ranges rm_fresh]; rewrite ?fmap_app, ?fmap_cons, ?Forall_app, ?Forall_cons;
        try done. apply ranges_ok_app; cbn; done.
    + intros a. cbn [rm_ranges]. rewrite !free_at_app, !free_at_cons, Hff, Hres. cbn. intuition done.
    + intros x Hx. cbn [rm_ranges]. rewrite !elem_of_app, !elem_of_cons.
      assert (x <> freed r (r_end r) n) by congruence.
      pose proof (Np' x). pose proof (Nq' x). tauto.
  - destruct H3 as (H4 & H5 & H6). rewrite Forall_cons in *. split_and!.
    + split; cbn [rm_ranges rm_fresh]; rewrite ?fmap_app, ?fmap_cons, ?Forall_app, ?Forall_cons.
      * apply ranges_ok_app. cbn. split_and!; try done; lia.
      * eapply sublist_NoDup; [exact Hnd|]. cbn. apply sublist_app; [done|].
        by apply sublist_skip, sublist_cons.
      * tauto.
      * tauto.
    + intros a. cbn [rm_ranges]. rewrite !free_at_app, !free_at_cons, Hff, Hres, Hnf. cbn.
      intuition (try done; try lia).
    + intros x Hx. cbn [rm_ranges]. rewrite !elem_of_app, !elem_of_cons.
      assert (x <> freed r (r_end next) n) by congruence.
      assert (x <> next) by congruence. pose proof (Np' x). pose proof (Nq' x).
      rewrite elem_of_cons in *. tauto.
Qed.

(** Releasing a freshly reserved (not shareable) range undoes the reservation:
    the free addresses and the other reservations are as before, and the list is well
    formed. *)
Theorem rman_reserve_release rm start end_ count alignment flags id rm' :
  let al := Z.max alignment 1 in
  wf_rman rm -> 0 <= start -> 0 < count -> start + count - 1 <= end_ ->
  powerof2 al = true -> no_wrap start count al (rm_ranges rm) ->
  Z.land flags RF_SHAREABLE = 0 ->
  rman_reserve_range rm start end_ count alignment flags = Ok (Some id, rm') ->
  exists rm'', rman_release_range rm' id = Ok (0, rm'') /\ wf_rman rm'' /\
    (forall a, free_at (rm_ranges rm'') a <-> free_at (rm_ranges rm) a) /\
    (forall x, r_reserved x = true -> x ∈ rm_ranges rm'' <-> x ∈ rm_ranges rm).
Proof.
  intros al Hw Hs Hc He Hp Hnw Hfl Hr.
  destruct (reserve_spec rm start end_ count alignment flags Hw Hs Hc He Hp Hnw)
    as (res & rm1 & E & Hw1 & HH). rewrite E in Hr. simplify_eq.
  destruct HH as [(pre & r & post & _ & _ & _ & Hsh & _)|(r & <- & N)].
  { unfold r_canshare in Hsh. rewrite Hfl in Hsh. cbn in Hsh. by rewrite andb_false_r in Hsh. }
  destruct (rman_release_spec rm' r Hw1) as (rm2 & E2 & Hw2 & Hfree & Hoth).
  - apply N.
  - split_and!.
    + apply N.
    + unfold r_shareable. rewrite (nr_flags _ _ _ _ _ _ _ _ N), Z.land_lor_distr_l.
      rewrite <- Z.land_assoc, (Z.land_comm (Z.lnot _)), Z.land_assoc, Hfl. done.
    + unfold r_active. rewrite (nr_flags _ _ _ _ _ _ _ _ N), Z.land_lor_distr_l, <- Z.land_assoc.
      rewrite (Z.land_comm (Z.lnot _)), Z.land_lnot_diag.
      by rewrite Z.land_0_r.
    + apply N.
  - exists rm2. split_and!; try done.
    + intros a. rewrite Hfree, (nr_free _ _ _ _ _ _ _ _ N). pose proof (nr_was_free _ _ _ _ _ _ _ _ N a).
      destruct (decide (r_start r <= a <= r_end r)); tauto.
    + intros x Hx. rewrite Hoth, (nr_others _ _ _ _ _ _ _ _ N) by done.
      assert (x ∈ rm_ranges rm -> x <> r).
      { intros Hx' ->. pose proof (nr_was_free _ _ _ _ _ _ _ _ N (r_start r)) as (y & Hy & Hyf & Hya).
        { pose proof (nr_size _ _ _ _ _ _ _ _ N). lia. }
        pose proof (wf_order _ Hw) as Hok.
        assert (y <> r) as Hne by congruence.
        destruct (ranges_disjoint _ _ _ _ Hok Hx' Hy) as [|[|]]; try done.
        - pose proof (nr_size _ _ _ _ _ _ _ _ N). lia.
        - lia. }
      tauto.
Qed.

(** ** Adding regions *)

Definition disjoint_from l (s e : Z) : Prop :=
  Forall (fun r => r_end r < s \/ e < r_start r) l.

#[export] Instance disjoint_from_dec l s e : Decision (disjoint_from l s e).
Proof. unfold disjoint_from. apply _. Defined.

Lemma disjoint_before lo l s e : ranges_ok lo l -> e < lo -> disjoint_from l s e.
Proof.
  intros Hok He. apply Forall_forall. intros x Hx.
  pose proof (ranges_ok_elem _ _ _ Hok Hx). lia.
Qed.

Lemma ranges_ok_below lo l r : ranges_ok lo l -> r ∈ l -> r_end r < top lo l.
Proof.
  revert lo. induction l as [|x l IH]; intros lo Hok Hr; [by apply not_elem_of_nil in Hr|].
  destruct Hok as (_ & _ & Hok). cbn. apply elem_of_cons in Hr as [->|Hr].
  - pose proof (top_le _ _ Hok). lia.
  - by apply IH.
Qed.

(** A region placed between two parts of the list. *)
Lemma insert_region lo pre reg post :
  ranges_ok lo (pre ++ post) -> 0 <= lo -> top lo pre <= r_start reg <= r_end reg ->
  r_end reg < 2 ^ word_bits -> ranges_ok (r_end reg + 1) post ->
  ranges_ok lo (pre ++ reg :: post) /\ disjoint_from (pre ++ post) (r_start reg) (r_end reg).
Proof.
  rewrite ranges_ok_app. intros [Ho1 _] Hlo Hs He Hp. split.
  - apply ranges_ok_app. done.
  - apply Forall_app. split; apply Forall_forall; intros x Hx.
    + pose proof (ranges_ok_below _ _ _ Ho1 Hx). lia.
    + pose proof (ranges_ok_elem _ _ _ Hp Hx). lia.
Qed.

(** A gap found by the loop lies after the range it starts from. *)
Lemma manage_loop_after reg l : forall r l' lo,
  ranges_ok lo (r :: l) -> manage_loop r l reg = Some l' -> r_end r < r_start reg.
Proof.
  induction l as [|next l IH]; intros r l' lo (H1 & _ & Hok) Hm; cbn in Hm; [done|].
  destruct ((r_end r <? r_start reg) && (r_end reg <? r_start next)) eqn:E; [lia|].
  destruct (manage_loop next l reg) as [l2|] eqn:Em; [|done].
  pose proof (IH _ _ _ Hok Em). destruct Hok as (H2 & _). lia.
Qed.

Lemma manage_loop_spec reg l : forall lo r,
  ranges_ok lo (r :: l) -> 0 <= lo -> r_start reg <= r_end reg < 2 ^ word_bits ->
  r_start r <= r_end reg -> r_start reg <= r_end (default r (last l)) ->
  match manage_loop r l reg with
  | Some l' => exists pre post, r :: l = pre ++ post /\ l' = pre ++ reg :: post /\
      top lo pre <= r_start reg /\ ranges_ok (r_end reg + 1) post
  | None => ~ disjoint_from (r :: l) (r_start reg) (r_end reg)
  end.
Proof.
  induction l as [|next l IH]; intros lo r Hok Hlo Hreg Hfirst Hlast; cbn [manage_loop].
  { cbn in Hlast. intros Hd. apply Forall_cons in Hd as [Hd _]. lia. }
  destruct Hok as (H1 & H2 & Hok). pose proof Hok as (H3 & H4 & H5).
  destruct ((r_end r <? r_start reg) && (r_end reg <? r_start next)) eqn:E.
  - exists [r], (next :: l). cbn. split_and!; try done || lia.
  - destruct (decide (r_start next <= r_end reg)) as [Hle|Hgt].
    + assert (r_start reg <= r_end (default next (last l))) as Hlast'
        by (rewrite last_cons in Hlast; by destruct (last l)).
      specialize (IH (r_end r + 1) next Hok ltac:(lia) Hreg Hle Hlast').
      destruct (manage_loop next l reg) as [l'|]; cbn.
      * destruct IH as (pre & post & E1 & -> & Ht & Hp). exists (r :: pre), post.
        cbn. rewrite E1. done.
      * intros Hd. apply Forall_cons in Hd as [_ Hd]. done.
    + (* the region starts inside [r] *)
      assert (r_start reg <= r_end r) as Hov by lia.
      destruct (manage_loop next l reg) as [l'|] eqn:Em; cbn.
      * exfalso. apply (manage_loop_after reg l next l' (r_end r + 1) Hok) in Em; lia.
      * intros Hd. apply Forall_cons in Hd as [Hd _]. lia.
Qed.

Lemma last_top lo r l :
  ranges_ok lo (r :: l) -> top lo (r :: l) = r_end (default r (last l)) + 1.
Proof.
  revert lo r. induction l as [|x l IH]; intros lo r Hok; [done|].
  destruct Hok as (_ & _ & Hok). change (top lo (r :: x :: l)) with (top (r_end r + 1) (x :: l)).
  rewrite IH by done. rewrite last_cons. by destruct (last l).
Qed.

(** Where [rman_manage_region] puts the region, or that it panics. *)
Lemma manage_insert rm reg :
  ranges_ok 0 (rm_ranges rm) -> 0 <= r_start reg <= r_end reg -> r_end reg < 2 ^ word_bits ->
  let res := match rm_ranges rm with
      | [] => Ok [reg]
      | first :: rest =>
          if r_end reg <? r_start first then Ok (reg :: first :: rest)
          else
            let last_ := default first (last rest) in
            if r_end last_ <? r_start reg then Ok ((first :: rest) ++ [reg])
            else match manage_loop first rest reg with
                 | Some l => Ok l
                 | None => panic
                 end
      end in
  (res = Fault PanicCalled /\
     ~ disjoint_from (rm_ranges rm) (r_start reg) (r_end reg)) \/
  (exists pre post, rm_ranges rm = pre ++ post /\ res = Ok (pre ++ reg :: post) /\
     ranges_ok 0 (pre ++ reg :: post) /\
     disjoint_from (rm_ranges rm) (r_start reg) (r_end reg)).
Proof.
  intros Hok Hr He. destruct (rm_ranges rm) as [|first rest].
  { right. exists [], []. cbn. split_and!; try done || lia. by constructor. }
  assert (forall pre post, first :: rest = pre ++ post -> top 0 pre <= r_start reg ->
    ranges_ok (r_end reg + 1) post -> ranges_ok 0 (pre ++ reg :: post) /\
    disjoint_from (first :: rest) (r_start reg) (r_end reg)) as Hput.
  { intros pre post E Ht Hp. rewrite E in Hok |- *.
    apply insert_region; try done; lia. }
  cbn zeta. destruct (Z.ltb_spec (r_end reg) (r_start first)) as [Hlt|Hge].
  { right. exists [], (first :: rest). destruct (Hput [] (first :: rest)) as [H1 H2]; try done.
    - cbn. lia.
    - destruct Hok as (? & ? & ?). cbn. split_and!; try done; lia. }
  destruct (Z.ltb_spec (r_end (default first (last rest))) (r_start reg)) as [Hlt|Hge'].
  { right. exists (first :: rest), []. rewrite app_nil_r.
    destruct (Hput (first :: rest) []) as [H1 H2]; try done.
    - by rewrite app_nil_r.
    - rewrite last_top by done. lia. }
  pose proof (manage_loop_spec reg rest 0 first Hok ltac:(lia) ltac:(lia) Hge Hge') as Hm.
  destruct (manage_loop first rest reg) as [l'|]; [|by left].
  destruct Hm as (pre & post & E & -> & Ht & Hp). right. exists pre, post.
  destruct (Hput pre post E Ht Hp). done.
Qed.

(** [rman_manage_region] panics exactly when the new region overlaps one that is
    already managed; otherwise the list stays well formed, the addresses of the region
    become free and nothing else changes. *)
Theorem rman_manage_region_correct rm start size :
  wf_rman rm -> 0 <= start -> 0 < size -> start + size <= 2 ^ word_bits ->
  if decide (disjoint_from (rm_ranges rm) start (start + size - 1)) then
    exists rm', rman_manage_region rm start size = Ok rm' /\ wf_rman rm' /\
      (forall a, free_at (rm_ranges rm') a <->
         free_at (rm_ranges rm) a \/ start <= a <= start + size - 1) /\
      (forall x, r_reserved x = true -> x ∈ rm_ranges rm' <-> x ∈ rm_ranges rm)
  else rman_manage_region rm start size = Fault PanicCalled.
Proof.
  intros [Hok Hnd Hfr Hfree] Hs Hsz Htop. unfold rman_manage_region.
  rewrite wrap_small by auto with kern.
  set (reg := range_alloc _ _ _ _).
  destruct (manage_insert rm reg Hok) as [[E Hno]|(pre & post & E & Er & Ho & Hd)];
    [cbn; lia|cbn; lia| |]; cbn [reg range_alloc r_start r_end r_id] in *.
  { rewrite decide_False by done. fold reg. rewrite E. done. }
  rewrite decide_True by done. fold reg. rewrite Er. cbn [mbind outcome_bind].
  set (rm1 := Rman (pre ++ reg :: post) (rm_fresh rm + 1)).
  rewrite E in *. rewrite !Forall_app in *.
  assert (wf_rman rm1) as Hw1.
  { split; cbn [rm1 rm_ranges rm_fresh]; rewrite ?Forall_app, ?Forall_cons; try done.
    - assert (r_id <$> pre ++ reg :: post ≡ₚ rm_fresh rm :: (r_id <$> pre ++ post)) as ->.
      { rewrite !fmap_app, fmap_cons. cbn. solve_Permutation. }
      apply NoDup_cons. split; [|done]. intros Hin.
      apply list_elem_of_fmap in Hin as (x & Ex & Hx).
      destruct Hfr as [F1 F2]. rewrite Forall_forall in F1, F2.
      apply elem_of_app in Hx as [Hx|Hx]; [apply F1 in Hx|apply F2 in Hx]; lia.
    - destruct Hfr as [F1 F2]. split_and!; [|cbn; lia|];
        (eapply Forall_impl; [done|]); cbn; lia.
    - destruct Hfree. split_and!; done. }
  destruct (rman_release_spec rm1 reg Hw1) as (rm' & Erel & Hw' & Hf & Hx).
  - cbn. apply elem_of_app. right. by left.
  - done.
  - change (r_id reg) with (rm_fresh rm) in Erel. rewrite Erel. cbn [mbind outcome_bind].
    exists rm'. split_and!; try done.
    + intros a. rewrite Hf. cbn [rm1 rm_ranges]. rewrite !free_at_app, free_at_cons.
      assert (r_reserved reg = true) as -> by done. cbn [reg range_alloc r_start r_end]. intuition done.
    + intros x Hxr. rewrite Hx by done. cbn [rm1 rm_ranges].
      rewrite !elem_of_app, elem_of_cons.
      assert (x ∈ pre ++ post -> x <> reg) as Hne.
      { intros Hin ->. destruct Hfr as [F1 F2]. rewrite Forall_forall in F1, F2.
        apply elem_of_app in Hin as [Hin|Hin]; [apply F1 in Hin|apply F2 in Hin]; cbn in Hin; lia. }
      rewrite elem_of_app in Hne. tauto.
Qed.
End correct.

(** ** Concrete instances *)

Definition sample_rman : rman :=
  Rman [Range 1 0x1000 0x1fff 0 0 0; Range 2 0x2000 0x2fff RF_RESERVED 0 0;
        Range 3 0x3000 0x8fff 0 0 0] 4.

Lemma sample_rman_wf : wf_rman (H := mips) sample_rman.
Proof.
  split; cbn [sample_rman rm_ranges rm_fresh].
  - vm_compute. intuition discriminate.
  - apply (bool_decide_unpack _). vm_compute. exact I.
  - repeat constructor.
  - repeat (apply Forall_cons; split; [vm_compute; first [done|discriminate]|]). constructor.
Qed.


Lemma rman_reserve_release_witness : exists rm' rm'',
  rman_reserve_range (H := mips) sample_rman 0x1800 0x7fff 0x1000 0x1000 0 = Ok (Some 3, rm') /\
  rman_release_range (H := mips) rm' 3 = Ok (0, rm'') /\
  forall a, free_at (rm_ranges rm'') a <-> free_at (rm_ranges sample_rman) a.
Proof.
  eexists.
  edestruct (rman_reserve_release (H := mips) sample_rman 0x1800 0x7fff 0x1000 0x1000 0 3)
    as (rm'' & E & _ & Hf & _); [| | | | | | | |].
  - apply sample_rman_wf.
  - lia.
  - lia.
  - lia.
  - reflexivity.
  - split; [cbn; lia|]. repeat constructor; cbn; lia.
  - reflexivity.
  - reflexivity.
  - exists rm''. split; [reflexivity|]. split; [exact E|exact Hf].
Defined.

Lemma rman_manage_region_correct_witness : exists rm',
  rman_manage_region (H := mips) sample_rman 0x9000 0x1000 = Ok rm' /\ wf_rman (H := mips) rm'.
Proof.
  destruct (decide (disjoint_from (rm_ranges sample_rman) 0x9000 (0x9000 + 0x1000 - 1))) as [Hd|Hd].
  - pose proof (rman_manage_region_correct (H := mips) sample_rman 0x9000 0x1000
      sample_rman_wf ltac:(lia) ltac:(lia) ltac:(cbn; lia)) as T.
    rewrite decide_True in T by exact Hd. destruct T as (rm' & E & W & _).
    exists rm'. split; [exact E|exact W].
  - exfalso. apply Hd. repeat constructor; cbn; lia.
Defined.

(** A released range is not merged with the free range before it: a request that
    needs both fails although all its addresses are free. *)
Lemma release_does_not_merge_previous :
  match rman_release_range (H := mips) sample_rman 2 with
  | Ok (0, rm) =>
      rman_reserve_range (H := mips) rm 0x1000 0x8fff 0x8000 1 0 = Ok (None, rm)
  | _ => False
  end.
Proof. vm_compute. done. Qed.

(** Two users share a range; the release by one of them frees it. *)
Lemma shared_range_freed_early :
  match '(id1, rm) ← rman_reserve_range (H := mips) sample_rman 0x3000 0x8fff 0x6000 1 RF_SHAREABLE;
        '(id2, rm) ← rman_reserve_range (H := mips) rm 0x3000 0x8fff 0x6000 1 RF_SHAREABLE;
        '(v, rm) ← rman_release_range (H := mips) rm 3;
        Ok (id1, id2, v, rm) with
  | Ok (Some 3, Some 3, 0, rm) =>
      exists r, r ∈ rm_ranges rm /\ r_id r = 3 /\ r_reserved r = false
  | _ => False
  end.
Proof. vm_compute. eexists. split; [right; right; left|]; done. Qed.

(** The only user of a shareable range cannot free it. *)
Lemma sole_user_never_frees :
  match '(id1, rm) ← rman_reserve_range (H := mips) sample_rman 0x3000 0x8fff 0x6000 1 RF_SHAREABLE;
        '(v, rm) ← rman_release_range (H := mips) rm 3;
        Ok (id1, v, rm) with
  | Ok (Some 3, 1, rm) =>
      exists r, r ∈ rm_ranges rm /\ r_id r = 3 /\ r_reserved r = true /\ r_refcnt r = -1
  | _ => False
  end.
Proof. vm_compute. eexists. split; [right; right; left|]; done. Qed.

(** A range can be shared that ends after the window of the request. *)
Lemma shared_past_end :
  match '(id1, rm) ← rman_reserve_range (H := mips) sample_rman 0x3000 0x8fff 0x1000 1 RF_SHAREABLE;
        '(id2, rm) ← rman_reserve_range (H := mips) rm 0x1800 0x27ff 0x1000 1 RF_SHAREABLE;
        Ok (id1, id2, rm) with
  | Ok (Some 3, Some 3, rm) =>
      exists r, r ∈ rm_ranges rm /\ r_id r = 3 /\ 0x27ff < r_end r
  | _ => False
  end.
Proof. vm_compute. eexists. split; [right; right; left|]; done. Qed.
