(* ===== verification/Vmem.v ===== *)
(** * The resource arena allocator (sys/kern/vmem.c, include/sys/vmem.h,
    [hash32_buf] of include/sys/hash.h)

    An arena is a list of boundary tags: every span is followed by the segments that
    tile it, free or busy; free segments are also on one of the free lists, by the
    logarithm of their size, and busy ones on a hash table by their address.  The
    results: the invariant of the three data structures is preserved; allocation
    returns a block of free addresses inside a span, and reports failure only when no
    run of free addresses of the size exists in any span; freeing gives exactly the
    block back. *)

From S2P Require Import Prelude.

Inductive bt_type_t := BT_TYPE_FREE | BT_TYPE_BUSY | BT_TYPE_SPAN.
#[export] Instance bt_type_eq_dec : EqDecision bt_type_t.
Proof. solve_decision. Defined.

(** [bt_id] is the address of the tag. *)
Record bt := Bt {
  bt_id : Z;
  bt_start : Z;
  bt_size : Z;
  bt_type : bt_type_t;
}.
#[export] Instance bt_eq_dec : EqDecision bt.
Proof. solve_decision. Defined.

(** The lists of free and busy tags hold addresses of tags; [vm_fresh] is the address
    the pool hands out next. *)
Record vmem := Vmem {
  vm_size : Z;
  vm_inuse : Z;
  vm_quantum : Z;
  vm_quantum_shift : Z;
  vm_seglist : list bt;
  vm_freelist : list (list Z);
  vm_hashlist : list (list Z);
  vm_fresh : Z;
}.

(** ** Hashing *)

(** The bytes of an unsigned integer in memory, least significant first: both
    architectures are little-endian. *)
Fixpoint bytes_of (n : nat) (z : Z) : list Z :=
  match n with
  | O => []
  | S n => z `mod` 256 :: bytes_of n (z / 256)
  end.

Definition HASH32_BUF_INIT : Z := 5381.

Definition hash32_buf (bf : list Z) (hash : Z) : Z :=
  uwrap 32 (foldl (fun hash b => uwrap 32 (hash * 257 + b)) hash bf * 257).

Section ops.
Context `{Arch}.
Implicit Types (vm : vmem) (b : bt).

Definition VMEM_MAXORDER : Z := word_bits.
Definition VMEM_MAXHASH : Z := 512.

Definition ORDER2SIZE (order : Z) : Z := Z.shiftl 1 order.
Definition SIZE2ORDER (size : Z) : Z := Z.log2 size.

Definition set_lists vm (segs : list bt) (free hash : list (list Z)) (inuse : Z) : vmem :=
  Vmem (vm_size vm) inuse (vm_quantum vm) (vm_quantum_shift vm) segs free hash (vm_fresh vm).

(** The index of the free list for segments of the given size. *)
Definition bt_freehead vm (size : Z) : outcome Z :=
  let qsize := Z.shiftr size (vm_quantum_shift vm) in
  _ ← assert (negb (size =? 0) && negb (qsize =? 0));
  let idx := SIZE2ORDER qsize in
  _ ← assert ((0 <=? idx) && (idx <? VMEM_MAXORDER));
  Ok idx.

Definition bt_end b : Z := wrap (bt_start b + bt_size b - 1).

(** The index of the hash list for an address. *)
Definition bt_hashhead (addr : Z) : Z :=
  hash32_buf (bytes_of (Z.to_nat (word_bits / 8)) addr) HASH32_BUF_INIT `mod` VMEM_MAXHASH.

Definition bt_insfree vm b : outcome vmem :=
  _ ← assert (bool_decide (bt_type b = BT_TYPE_FREE));
  idx ← bt_freehead vm (bt_size b);
  l ← arr_get (vm_freelist vm) idx;
  free ← arr_set (vm_freelist vm) idx (bt_id b :: l);
  Ok (set_lists vm (vm_seglist vm) free (vm_hashlist vm) (vm_inuse vm)).

(** The tag is on one of the lists. *)
Definition linked (id : Z) (lists : list (list Z)) : Prop := Exists (fun l => id ∈ l) lists.

(** [LIST_REMOVE]: the tag is unlinked from the list it is on, and it is an error if there is
    none. *)
Definition on_list (id : Z) (lists : list (list Z)) : outcome unit :=
  if bool_decide (linked id lists) then Ok tt else Fault BadAccess.

Definition unlink (id : Z) (lists : list (list Z)) : list (list Z) :=
  filter (fun x => x <> id) <$> lists.

Definition bt_remfree vm b : outcome vmem :=
  _ ← assert (bool_decide (bt_type b = BT_TYPE_FREE));
  _ ← on_list (bt_id b) (vm_freelist vm);
  Ok (set_lists vm (vm_seglist vm) (unlink (bt_id b) (vm_freelist vm)) (vm_hashlist vm)
        (vm_inuse vm)).

Definition bt_insseg_tail vm b : vmem :=
  set_lists vm (vm_seglist vm ++ [b]) (vm_freelist vm) (vm_hashlist vm) (vm_inuse vm).

Fixpoint insert_after (b : bt) (prev : Z) (l : list bt) : list bt :=
  match l with
  | [] => []
  | x :: l => if bt_id x =? prev then x :: b :: l else x :: insert_after b prev l
  end.

Definition bt_insseg_after vm b (prev : Z) : vmem :=
  set_lists vm (insert_after b prev (vm_seglist vm)) (vm_freelist vm) (vm_hashlist vm)
    (vm_inuse vm).

Definition bt_remseg vm (id : Z) : vmem :=
  set_lists vm (filter (fun x => bt_id x <> id) (vm_seglist vm)) (vm_freelist vm)
    (vm_hashlist vm) (vm_inuse vm).

Definition bt_insbusy vm b : outcome vmem :=
  _ ← assert (bool_decide (bt_type b = BT_TYPE_BUSY));
  let idx := bt_hashhead (bt_start b) in
  l ← arr_get (vm_hashlist vm) idx;
  hash ← arr_set (vm_hashlist vm) idx (bt_id b :: l);
  Ok (set_lists vm (vm_seglist vm) (vm_freelist vm) hash (wrap (vm_inuse vm + bt_size b))).

Definition bt_rembusy vm b : outcome vmem :=
  _ ← assert (bool_decide (bt_type b = BT_TYPE_BUSY));
  _ ← on_list (bt_id b) (vm_hashlist vm);
  Ok (set_lists vm (vm_seglist vm) (vm_freelist vm) (unlink (bt_id b) (vm_hashlist vm))
        (wrap (vm_inuse vm - bt_size b))).

(** The tag at an address, and the update of the tag at an address. *)
Definition find_tag vm (id : Z) : outcome bt :=
  match list_find (fun b => bt_id b = id) (vm_seglist vm) with
  | Some (_, b) => Ok b
  | None => Fault BadAccess
  end.

Definition put_tag vm b : vmem :=
  set_lists vm ((fun x => if bt_id x =? bt_id b then b else x) <$> vm_seglist vm)
    (vm_freelist vm) (vm_hashlist vm) (vm_inuse vm).

Fixpoint lookup_loop vm (addr : Z) (l : list Z) : outcome (option bt) :=
  match l with
  | [] => Ok None
  | id :: l =>
      b ← find_tag vm id;
      _ ← assert (bool_decide (bt_type b = BT_TYPE_BUSY));
      if bt_start b =? addr then Ok (Some b) else lookup_loop vm addr l
  end.

Definition bt_lookupbusy vm (addr : Z) : outcome (option bt) :=
  l ← arr_get (vm_hashlist vm) (bt_hashhead addr);
  lookup_loop vm addr l.

(** One free list, then the lists from an index on. *)
Fixpoint scan_list vm (size : Z) (l : list Z) : outcome (option bt) :=
  match l with
  | [] => Ok None
  | id :: l =>
      b ← find_tag vm id;
      if size <=? bt_size b then Ok (Some b) else scan_list vm size l
  end.

Fixpoint scan_lists vm (size : Z) (lists : list (list Z)) : outcome (option bt) :=
  match lists with
  | [] => Ok None
  | l :: lists =>
      r ← scan_list vm size l;
      match r with Some b => Ok (Some b) | None => scan_lists vm size lists end
  end.

Definition bt_find_freeseg vm (size : Z) : outcome (option bt) :=
  first ← bt_freehead vm size;
  scan_lists vm size (drop (Z.to_nat first) (vm_freelist vm)).

(** The checks of [VMEM_DEBUG]. *)
Definition bt_isspan b : bool := bool_decide (bt_type b = BT_TYPE_SPAN).

Definition vmem_check_sanity vm : bool :=
  forallb (fun b1 =>
    (bt_start b1 <=? bt_end b1) && (vm_quantum vm <=? bt_size b1) &&
    is_aligned (bt_start b1) (vm_quantum vm)) (vm_seglist vm) &&
  forallb (fun b1 => forallb (fun b2 =>
    bool_decide (bt_id b1 = bt_id b2) || negb (eqb (bt_isspan b1) (bt_isspan b2)) ||
    (bt_end b2 <? bt_start b1) || (bt_end b1 <? bt_start b2))
    (vm_seglist vm)) (vm_seglist vm).

Definition vmem_create (quantum fresh : Z) : outcome vmem :=
  _ ← assert (0 <? quantum);
  let shift := SIZE2ORDER quantum in
  _ ← assert (ORDER2SIZE shift =? quantum);
  Ok (Vmem 0 0 quantum shift [] (replicate (Z.to_nat VMEM_MAXORDER) [])
        (replicate (Z.to_nat VMEM_MAXHASH) []) fresh).

(** The pool hands out [n] tags. *)
Definition take_tags vm (n : Z) : vmem :=
  Vmem (vm_size vm) (vm_inuse vm) (vm_quantum vm) (vm_quantum_shift vm) (vm_seglist vm)
    (vm_freelist vm) (vm_hashlist vm) (vm_fresh vm + n).

Definition vmem_add vm (addr size : Z) : outcome vmem :=
  let btspan := Bt (vm_fresh vm) addr size BT_TYPE_SPAN in
  let btfree := Bt (vm_fresh vm + 1) addr size BT_TYPE_FREE in
  let vm := take_tags vm 2 in
  let vm := bt_insseg_tail vm btspan in
  let vm := bt_insseg_after vm btfree (bt_id btspan) in
  vm ← bt_insfree vm btfree;
  Ok (Vmem (wrap (vm_size vm + size)) (vm_inuse vm) (vm_quantum vm) (vm_quantum_shift vm)
        (vm_seglist vm) (vm_freelist vm) (vm_hashlist vm) (vm_fresh vm)).

(** [have_tag] tells whether the pool has a tag for the caller's flags.  The result
    is the error, the address on success, and the arena. *)
Definition vmem_alloc vm (size : Z) (have_tag : bool) : outcome (Z * Z * vmem) :=
  let size := align size (vm_quantum vm) in
  _ ← assert (0 <? size);
  if negb have_tag then Ok (ENOMEM, 0, vm)
  else
    let btnew := vm_fresh vm in
    r ← bt_find_freeseg vm size;
    match r with
    | None => Ok (ENOMEM, 0, vm)
    | Some b =>
        vm ← bt_remfree vm b;
        '(b, vm) ←
          (if (size <? bt_size b) && (vm_quantum vm <=? wrap (bt_size b - size)) then
             let new := Bt btnew (wrap (bt_start b + size)) (wrap (bt_size b - size))
                          BT_TYPE_FREE in
             let vm := take_tags vm 1 in
             let b := Bt (bt_id b) (bt_start b) size BT_TYPE_BUSY in
             let vm := put_tag vm b in
             vm ← bt_insfree vm new;
             let vm := bt_insseg_after vm new (bt_id b) in
             vm ← bt_insbusy vm b;
             Ok (b, vm)
           else
             let b := Bt (bt_id b) (bt_start b) (bt_size b) BT_TYPE_BUSY in
             let vm := put_tag vm b in
             vm ← bt_insbusy vm b;
             Ok (b, vm));
        _ ← assert (size <=? bt_size b);
        _ ← assert (bool_decide (bt_type b = BT_TYPE_BUSY));
        Ok (0, bt_start b, vm)
    end.

(** The tags before and after a tag on the segment list. *)
Fixpoint seg_prev (id : Z) (prev : option bt) (l : list bt) : option bt :=
  match l with
  | [] => None
  | x :: l => if bt_id x =? id then prev else seg_prev id (Some x) l
  end.

Fixpoint seg_next (id : Z) (l : list bt) : option bt :=
  match l with
  | [] => None
  | x :: l => if bt_id x =? id then head l else seg_next id l
  end.

(** Merging a segment that has just become free with a free segment before it. *)
Definition coalesce_prev vm b : outcome (bt * vmem) :=
  match seg_prev (bt_id b) None (vm_seglist vm) with
  | Some prev =>
      if bool_decide (bt_type prev = BT_TYPE_FREE) then
        _ ← assert (wrap (bt_end prev + 1) =? bt_start b);
        vm ← bt_remfree vm prev;
        let vm := bt_remseg vm (bt_id prev) in
        let b := Bt (bt_id b) (bt_start prev) (wrap (bt_size b + bt_size prev)) (bt_type b) in
        Ok (b, put_tag vm b)
      else Ok (b, vm)
  | None => Ok (b, vm)
  end.

(** The same with a free segment after it. *)
Definition coalesce_next vm b : outcome (bt * vmem) :=
  match seg_next (bt_id b) (vm_seglist vm) with
  | Some next =>
      if bool_decide (bt_type next = BT_TYPE_FREE) then
        _ ← assert (wrap (bt_end b + 1) =? bt_start next);
        vm ← bt_remfree vm next;
        let vm := bt_remseg vm (bt_id next) in
        let b := Bt (bt_id b) (bt_start b) (wrap (bt_size b + bt_size next)) (bt_type b) in
        Ok (b, put_tag vm b)
      else Ok (b, vm)
  | None => Ok (b, vm)
  end.

Definition vmem_free vm (addr size : Z) : outcome vmem :=
  r ← bt_lookupbusy vm addr;
  match r with
  | None => Fault AssertFailed
  | Some b =>
      _ ← assert (bt_size b =? align size (vm_quantum vm));
      vm ← bt_rembusy vm b;
      let b := Bt (bt_id b) (bt_start b) (bt_size b) BT_TYPE_FREE in
      '(b, vm) ← coalesce_prev (put_tag vm b) b;
      '(b, vm) ← coalesce_next vm b;
      bt_insfree vm b
  end.

(** The sanity checks of [vmem_destroy]; the tags and the arena are then freed. *)
Fixpoint destroy_check (prev : option bt) (l : list bt) : outcome unit :=
  match l with
  | [] => Ok tt
  | b :: l =>
      _ ← match prev with
          | None => assert (bool_decide (bt_type b = BT_TYPE_SPAN))
          | Some p =>
              match bt_type b with
              | BT_TYPE_FREE =>
                  _ ← assert (bool_decide (bt_type p = BT_TYPE_SPAN));
                  _ ← assert (bt_size p =? bt_size b);
                  assert (bt_start p =? bt_start b)
              | BT_TYPE_SPAN => assert (bool_decide (bt_type p = BT_TYPE_FREE))
              | BT_TYPE_BUSY => Ok tt
              end
          end;
      destroy_check (Some b) l
  end.

Fixpoint span_sum (l : list bt) (sum : Z) : outcome Z :=
  match l with
  | [] => Ok sum
  | b :: l =>
      _ ← assert (bool_decide (bt_type b = BT_TYPE_SPAN) || bool_decide (bt_type b = BT_TYPE_FREE));
      span_sum l (if bt_isspan b then wrap (sum + bt_size b) else sum)
  end.

Definition vmem_destroy vm : outcome unit :=
  _ ← assert (match vm_seglist vm with [] => false | _ => true end);
  sum ← span_sum (vm_seglist vm) 0;
  _ ← assert (vm_size vm =? sum);
  _ ← assert (vm_inuse vm =? 0);
  destroy_check None (vm_seglist vm).
End ops.

(** ** Lists of tags by an index *)

Definition ids (l : list bt) : list Z := bt_id <$> l.

(** [lists !! i] holds the addresses of the tags of [l] that satisfy [P] and have
    index [i]. *)
Definition listed (P : bt -> Prop) (idx : bt -> nat) (lists : list (list Z)) (l : list bt) : Prop :=
  forall i xs id, lists !! i = Some xs ->
    id ∈ xs <-> exists b, b ∈ l /\ bt_id b = id /\ P b /\ idx b = i.

Lemma ids_split l1 b l2 :
  NoDup (ids (l1 ++ b :: l2)) -> NoDup (ids (l1 ++ l2)) /\ bt_id b ∉ ids (l1 ++ l2).
Proof.
  unfold ids. rewrite !fmap_app, fmap_cons.
  rewrite <- Permutation_middle. intros Hnd. apply NoDup_cons in Hnd as [H1 H2]. done.
Qed.

Lemma ids_ne l b x : bt_id b ∉ ids l -> x ∈ l -> bt_id x <> bt_id b.
Proof. intros Hn Hx E. apply Hn. rewrite <- E. by apply list_elem_of_fmap_2. Qed.

Section listed.
Context (P : bt -> Prop) (idx : bt -> nat).

Lemma listed_perm lists l l' : l ≡ₚ l' -> listed P idx lists l -> listed P idx lists l'.
Proof. intros Hp Hl i xs id Hi. rewrite (Hl i xs id Hi). by setoid_rewrite Hp. Qed.

Lemma listed_remove lists b l :
  bt_id b ∉ ids l -> listed P idx lists (b :: l) -> listed P idx (unlink (bt_id b) lists) l.
Proof.
  intros Hn Hl i xs id Hi. unfold unlink in Hi.
  apply list_lookup_fmap_Some in Hi as (xs0 & -> & Hi).
  rewrite list_elem_of_filter, (Hl i xs0 id Hi). split.
  - intros (Hne & x & Hx & <- & Hp & Hidx). apply elem_of_cons in Hx as [->|Hx]; [done|]. eauto.
  - intros (x & Hx & <- & Hp & Hidx). split; [by eapply ids_ne|]. exists x. set_solver.
Qed.

Lemma listed_skip lists b l : ~ P b -> listed P idx lists (b :: l) <-> listed P idx lists l.
Proof.
  intros Hb. unfold listed. setoid_rewrite elem_of_cons. split; intros Hl i xs id Hi;
    rewrite (Hl i xs id Hi); split; intros (x & Hx & HH); exists x; naive_solver.
Qed.

Lemma listed_add lists b xs l :
  P b -> lists !! idx b = Some xs -> listed P idx lists l ->
  listed P idx (<[idx b := bt_id b :: xs]> lists) (b :: l).
Proof.
  intros Hb Hxs Hl i ys id Hi. apply lookup_lt_Some in Hxs as Hlt.
  destruct (decide (i = idx b)) as [->|Hne].
  - rewrite list_lookup_insert_eq in Hi by done. simplify_eq.
    rewrite elem_of_cons, (Hl _ _ id Hxs). setoid_rewrite elem_of_cons. naive_solver.
  - rewrite list_lookup_insert_ne in Hi by done. rewrite (Hl _ _ id Hi).
    setoid_rewrite elem_of_cons. naive_solver.
Qed.
End listed.

(** ** Operations on the segment list around a tag *)

Section seglist.
Context `{Arch}.

Lemma find_tag_spec vm l1 b l2 :
  vm_seglist vm = l1 ++ b :: l2 -> NoDup (ids (vm_seglist vm)) ->
  find_tag vm (bt_id b) = Ok b.
Proof.
  intros E Hnd. unfold find_tag.
  destruct (list_find (fun x => bt_id x = bt_id b) (vm_seglist vm)) as [[i x]|] eqn:Hf.
  - apply list_find_Some in Hf as (Hi & Hid & _).
    rewrite E in *. destruct (ids_split _ _ _ Hnd) as [_ Hn].
    apply list_elem_of_lookup_2, elem_of_app in Hi as [Hi|Hi].
    + exfalso. apply Hn. rewrite <- Hid. apply list_elem_of_fmap_2. set_solver.
    + apply elem_of_cons in Hi as [->|Hi]; [done|].
      exfalso. apply Hn. rewrite <- Hid. apply list_elem_of_fmap_2. set_solver.
  - apply list_find_None in Hf. rewrite E, Forall_app, Forall_cons in Hf. naive_solver.
Qed.

Lemma put_tag_list l1 b b' l2 :
  bt_id b ∉ ids (l1 ++ l2) -> bt_id b' = bt_id b ->
  (fun x => if bt_id x =? bt_id b' then b' else x) <$> l1 ++ b :: l2 = l1 ++ b' :: l2.
Proof.
  intros Hn Hid. rewrite fmap_app, fmap_cons, Hid, Z.eqb_refl.
  assert (forall l : list bt, (forall x, x ∈ l -> bt_id x <> bt_id b) ->
    (fun x => if bt_id x =? bt_id b then b' else x) <$> l = l) as Hk.
  { intros l Hl. etrans; [|apply list_fmap_id]. apply list_fmap_ext. intros i x Hx.
    apply list_elem_of_lookup_2, Hl in Hx. destruct (Z.eqb_spec (bt_id x) (bt_id b)); done. }
  rewrite !Hk; [done| |]; intros x Hx; (eapply ids_ne; [exact Hn|set_solver]).
Qed.

Lemma insert_after_list l1 b n l2 :
  bt_id b ∉ ids l1 -> insert_after n (bt_id b) (l1 ++ b :: l2) = l1 ++ b :: n :: l2.
Proof.
  induction l1 as [|x l1 IH]; intros Hn; cbn.
  - by rewrite Z.eqb_refl.
  - cbn in Hn. apply not_elem_of_cons in Hn as [H1 H2].
    destruct (Z.eqb_spec (bt_id x) (bt_id b)); [done|]. by rewrite IH.
Qed.

Lemma remseg_list l1 b l2 :
  bt_id b ∉ ids (l1 ++ l2) -> filter (fun x => bt_id x <> bt_id b) (l1 ++ b :: l2) = l1 ++ l2.
Proof.
  intros Hn. rewrite filter_app, filter_cons_False by naive_solver.
  rewrite <- filter_app.
  assert (forall l : list bt, (forall x, x ∈ l -> bt_id x <> bt_id b) ->
    filter (fun x => bt_id x <> bt_id b) l = l) as Hk.
  { induction l as [|x l IH]; intros Hl; [done|].
    rewrite filter_cons_True by (apply Hl; set_solver). rewrite IH; [done|]. set_solver. }
  apply Hk. intros x Hx. by eapply ids_ne.
Qed.

Lemma seg_prev_list l1 b l2 : forall p,
  bt_id b ∉ ids l1 ->
  seg_prev (bt_id b) p (l1 ++ b :: l2) = match last l1 with Some x => Some x | None => p end.
Proof.
  induction l1 as [|x l1 IH]; intros p Hn; cbn.
  - by rewrite Z.eqb_refl.
  - cbn in Hn. apply not_elem_of_cons in Hn as [H1 H2].
    destruct (Z.eqb_spec (bt_id x) (bt_id b)); [done|]. rewrite IH by done.
    rewrite last_cons. by destruct (last l1).
Qed.

Lemma seg_next_list l1 b l2 :
  bt_id b ∉ ids l1 -> seg_next (bt_id b) (l1 ++ b :: l2) = head l2.
Proof.
  induction l1 as [|x l1 IH]; intros Hn; cbn.
  - by rewrite Z.eqb_refl.
  - cbn in Hn. apply not_elem_of_cons in Hn as [H1 H2].
    destruct (Z.eqb_spec (bt_id x) (bt_id b)); [done|]. by apply IH.
Qed.
End seglist.

(** ** Tiling *)

(** The position while walking along the segment list: the end of the last segment,
    the end of the current span, whether the last segment is free. *)
Record wst := Wst { w_pos : Z; w_fin : Z; w_free : bool }.

Definition wnext (b : bt) (s : wst) : wst :=
  match bt_type b with
  | BT_TYPE_SPAN => Wst (bt_start b) (bt_start b + bt_size b) false
  | BT_TYPE_FREE => Wst (w_pos s + bt_size b) (w_fin s) true
  | BT_TYPE_BUSY => Wst (w_pos s + bt_size b) (w_fin s) false
  end.

Definition seg_ok `{Arch} (q : Z) (b : bt) : Prop :=
  0 < bt_size b /\ bt_size b `mod` q = 0 /\ bt_start b `mod` q = 0 /\
  0 <= bt_start b /\ bt_start b + bt_size b < 2 ^ word_bits.

(** A span starts where the previous one is complete; a segment starts where the
    previous one ends, stays inside its span, and no two free segments are adjacent. *)
Definition wok `{Arch} (q : Z) (s : wst) (b : bt) : Prop :=
  seg_ok q b /\
  match bt_type b with
  | BT_TYPE_SPAN => w_pos s = w_fin s
  | t => bt_start b = w_pos s /\ w_pos s + bt_size b <= w_fin s /\
         ~ (w_free s = true /\ t = BT_TYPE_FREE)
  end.

Fixpoint walked `{Arch} (q : Z) (s : wst) (l : list bt) : Prop :=
  match l with [] => True | b :: l => wok q s b /\ walked q (wnext b s) l end.

Fixpoint after (s : wst) (l : list bt) : wst :=
  match l with [] => s | b :: l => after (wnext b s) l end.

Definition w0 : wst := Wst 0 0 false.

Definition tiled `{Arch} (q : Z) (l : list bt) : Prop :=
  walked q w0 l /\ w_pos (after w0 l) = w_fin (after w0 l).

(** Spans do not overlap, nor do segments. *)
Definition apart (b1 b2 : bt) : Prop :=
  bt_isspan b1 = bt_isspan b2 ->
  bt_start b1 + bt_size b1 <= bt_start b2 \/ bt_start b2 + bt_size b2 <= bt_start b1.

Fixpoint pairwise (R : bt -> bt -> Prop) (l : list bt) : Prop :=
  match l with [] => True | b :: l => Forall (R b) l /\ pairwise R l end.

Definition sum_of (t : bt_type_t) (l : list bt) : Z :=
  foldr (fun b n => (if decide (bt_type b = t) then bt_size b else 0) + n) 0 l.

Definition order (shift : Z) (b : bt) : nat := Z.to_nat (Z.log2 (Z.shiftr (bt_size b) shift)).

Definition is_free (b : bt) : Prop := bt_type b = BT_TYPE_FREE.
Definition is_busy (b : bt) : Prop := bt_type b = BT_TYPE_BUSY.
#[export] Instance is_busy_dec b : Decision (is_busy b).
Proof. unfold is_busy. apply _. Defined.

Record vmem_inv `{Arch} (vm : vmem) : Prop := {
  vi_shift : 0 <= vm_quantum_shift vm < word_bits;
  vi_quantum : vm_quantum vm = 2 ^ vm_quantum_shift vm;
  vi_tiled : tiled (vm_quantum vm) (vm_seglist vm);
  vi_apart : pairwise apart (vm_seglist vm);
  vi_ids : NoDup (ids (vm_seglist vm));
  vi_fresh : Forall (fun b => bt_id b < vm_fresh vm) (vm_seglist vm);
  vi_nfree : length (vm_freelist vm) = Z.to_nat VMEM_MAXORDER;
  vi_nhash : length (vm_hashlist vm) = Z.to_nat VMEM_MAXHASH;
  vi_freelist : listed is_free (order (vm_quantum_shift vm)) (vm_freelist vm) (vm_seglist vm);
  vi_hashlist : listed is_busy (fun b => Z.to_nat (bt_hashhead (bt_start b)))
    (vm_hashlist vm) (vm_seglist vm);
  vi_size : vm_size vm = wrap (sum_of BT_TYPE_SPAN (vm_seglist vm));
  vi_inuse : vm_inuse vm = wrap (sum_of BT_TYPE_BUSY (vm_seglist vm));
}.

Section tiling.
Context `{Arch}.
Implicit Types (l : list bt) (b : bt) (s : wst).

Lemma walked_app q s l1 l2 : walked q s (l1 ++ l2) <-> walked q s l1 /\ walked q (after s l1) l2.
Proof. revert s. induction l1 as [|b l1 IH]; intros s; cbn; [tauto|]. rewrite IH. tauto. Qed.

Lemma after_app s l1 l2 : after s (l1 ++ l2) = after (after s l1) l2.
Proof. revert s. induction l1 as [|b l1 IH]; intros s; cbn; [done|]. apply IH. Qed.

Lemma walked_seg_ok q s l b : walked q s l -> b ∈ l -> seg_ok q b.
Proof.
  revert s. induction l as [|x l IH]; intros s Hw Hb; [by apply not_elem_of_nil in Hb|].
  destruct Hw as [[Hok _] Hw]. apply elem_of_cons in Hb as [->|Hb]; [done|by eapply IH].
Qed.

Lemma sum_of_app t l1 l2 : sum_of t (l1 ++ l2) = sum_of t l1 + sum_of t l2.
Proof. unfold sum_of. induction l1 as [|b l1 IH]; cbn; [done|]. rewrite IH. lia. Qed.

Lemma sum_of_cons t b l :
  sum_of t (b :: l) = (if decide (bt_type b = t) then bt_size b else 0) + sum_of t l.
Proof. done. Qed.

Lemma pairwise_app R l1 l2 :
  pairwise R (l1 ++ l2) <->
  pairwise R l1 /\ pairwise R l2 /\ Forall (fun x => Forall (R x) l2) l1.
Proof.
  induction l1 as [|b l1 IH]; cbn; rewrite ?Forall_nil, ?Forall_cons; [tauto|].
  rewrite Forall_app, IH. tauto.
Qed.

Lemma pairwise_elem R l b1 b2 :
  (forall x y, R x y -> R y x) -> pairwise R l -> b1 ∈ l -> b2 ∈ l -> b1 = b2 \/ R b1 b2.
Proof.
  intros Hsym. induction l as [|x l IH]; intros Hp H1 H2; [by apply not_elem_of_nil in H1|].
  destruct Hp as [HF Hp]. rewrite Forall_forall in HF.
  apply elem_of_cons in H1 as [->|H1]; apply elem_of_cons in H2 as [->|H2]; auto.
Qed.

Lemma apart_sym b1 b2 : apart b1 b2 -> apart b2 b1.
Proof. unfold apart. intros Ha E. symmetry in E. apply Ha in E. lia. Qed.

(** Replacing the middle of a list by tags that cover the same addresses. *)
Lemma pairwise_replace l1 mid mid' l2 :
  pairwise apart (l1 ++ mid ++ l2) -> pairwise apart mid' ->
  (forall x, Forall (apart x) mid -> 0 < bt_size x -> Forall (apart x) mid') ->
  Forall (fun x => 0 < bt_size x) (l1 ++ l2) ->
  pairwise apart (l1 ++ mid' ++ l2).
Proof.
  rewrite !pairwise_app, !Forall_app. intros (P1 & (Pm & P2 & Pm2) & P1m) Pm' Himp [S1 S2].
  split_and!; try done.
  - rewrite Forall_forall. intros y Hy. rewrite Forall_forall. intros x Hx.
    assert (Forall (apart x) mid') as Hx'.
    { apply Himp; [|by rewrite Forall_forall in S2; apply S2].
      rewrite Forall_forall in Pm2 |- *. intros z Hz. apply apart_sym.
      specialize (Pm2 z Hz). rewrite Forall_forall in Pm2. by apply Pm2. }
    rewrite Forall_forall in Hx'. by apply apart_sym, Hx'.
  - rewrite Forall_forall in P1m |- *. intros x Hx. specialize (P1m x Hx).
    rewrite Forall_app in P1m |- *. destruct P1m as [Hm H2]. split; [|done].
    apply Himp; [done|]. rewrite Forall_forall in S1. by apply S1.
Qed.

(** A run of addresses that no busy segment covers lies in one free segment. *)
Lemma run_in_free q l : forall s a n,
  walked q s l -> w_pos (after s l) = w_fin (after s l) ->
  w_pos s <= a -> 0 < n -> a + n <= w_fin s ->
  (forall b x, b ∈ l -> is_busy b -> a <= x < a + n ->
     ~ (bt_start b <= x < bt_start b + bt_size b)) ->
  exists b, b ∈ l /\ is_free b /\ bt_start b <= a /\ a + n <= bt_start b + bt_size b.
Proof.
  induction l as [|b l IH]; intros s a n Hw Hfin Ha Hn Hend Hbusy.
  { cbn in Hfin. lia. }
  destruct Hw as [[(Hsz & _) Hok] Hw]. cbn in Hfin.
  assert (forall x, a <= x < a + n -> is_busy b -> ~ (bt_start b <= x < bt_start b + bt_size b))
    as Hb by (intros; apply (Hbusy b); [set_solver|done|done]).
  assert (bt_type b <> BT_TYPE_SPAN -> bt_start b = w_pos s /\ w_pos s + bt_size b <= w_fin s /\
    w_pos (wnext b s) = w_pos s + bt_size b /\ w_fin (wnext b s) = w_fin s) as Hseg.
  { intros Hne. unfold wnext. destruct (bt_type b); try done; tauto. }
  destruct (decide (bt_type b = BT_TYPE_SPAN)) as [E|Hne].
  { rewrite E in Hok. lia. }
  destruct (Hseg Hne) as (Hst & Hle & Hpos & Hfin').
  destruct (decide (w_pos s + bt_size b <= a)) as [Hpast|Hin].
  - destruct (IH (wnext b s) a n) as (x & Hx & HH); try done; try lia.
    { intros y x Hy. apply Hbusy. set_solver. }
    exists x. split; [set_solver|done].
  - assert (is_free b) as Hfree.
    { destruct (bt_type b) eqn:E; try done. exfalso. apply (Hb a); [lia|done|lia]. }
    exists b. split; [set_solver|]. split; [done|]. split; [lia|].
    destruct (decide (a + n <= bt_start b + bt_size b)) as [|Hmore]; [done|exfalso].
    assert (w_free (wnext b s) = true) as Hwf by (unfold wnext; by rewrite Hfree).
    destruct l as [|c l]; [cbn in Hfin; lia|].
    destruct Hw as [[(Hcs & _) Hc] _].
    destruct (bt_type c) eqn:Ec; [| |lia].
    + destruct Hc as (_ & _ & Hnf). by apply Hnf.
    + apply (Hbusy c (bt_start b + bt_size b)); [set_solver|done|lia|lia].
Qed.
End tiling.

(** ** Searching *)

Section search.
Context `{Arch}.
Implicit Types (vm : vmem) (b : bt).

Lemma quantum_pos vm : vmem_inv vm -> 0 < vm_quantum vm < 2 ^ word_bits.
Proof.
  intros I. rewrite (vi_quantum _ I). pose proof (vi_shift _ I).
  split; [lia|]. apply Z.pow_lt_mono_r; lia.
Qed.

(** Sizes the free lists can hold. *)
Definition size_ok vm (size : Z) : Prop :=
  0 < size < 2 ^ word_bits /\ size `mod` vm_quantum vm = 0.

Lemma size_quanta vm size :
  vmem_inv vm -> size_ok vm size ->
  Z.shiftr size (vm_quantum_shift vm) = size / vm_quantum vm /\ 1 <= size / vm_quantum vm /\
  vm_quantum vm <= size.
Proof.
  intros I [Hs Hm]. destruct (quantum_pos vm I) as [Hq _]. pose proof (vi_shift _ I).
  rewrite Z.shiftr_div_pow2, <- (vi_quantum _ I) by lia. split; [done|].
  assert (vm_quantum vm <> 0) as Hnz by lia.
  pose proof (Z.div_mod size (vm_quantum vm) Hnz) as E. rewrite Hm, Z.add_0_r in E.
  revert E. generalize (size / vm_quantum vm). intros d E.
  assert (0 < d) by (apply (Z.mul_pos_cancel_l (vm_quantum vm)); lia).
  clear Hs Hm. split; [lia|]. rewrite E. nia.
Qed.

Lemma freehead_spec vm size :
  vmem_inv vm -> size_ok vm size ->
  bt_freehead vm size = Ok (Z.log2 (Z.shiftr size (vm_quantum_shift vm))) /\
  0 <= Z.log2 (Z.shiftr size (vm_quantum_shift vm)) < VMEM_MAXORDER.
Proof.
  intros I Hs. destruct (size_quanta vm size I Hs) as (E & Hq & _).
  pose proof (quantum_pos vm I). destruct Hs as [Hs _].
  assert (0 <= Z.log2 (size / vm_quantum vm) < VMEM_MAXORDER) as Hr.
  { split; [apply Z.log2_nonneg|]. unfold VMEM_MAXORDER.
    apply Z.log2_lt_pow2; [lia|]. pose proof (Z.div_le_upper_bound size (vm_quantum vm) size).
    nia. }
  unfold bt_freehead, SIZE2ORDER. rewrite E in *. split; [|done].
  do 2 assert_step lia. done.
Qed.

Lemma seg_size_ok vm b : vmem_inv vm -> b ∈ vm_seglist vm -> size_ok vm (bt_size b).
Proof.
  intros I Hb. destruct (vi_tiled _ I) as [Hw _].
  destruct (walked_seg_ok _ _ _ _ Hw Hb) as (H1 & H2 & _ & H3 & H4). split; [lia|done].
Qed.

Lemma find_tag_elem vm b :
  NoDup (ids (vm_seglist vm)) -> b ∈ vm_seglist vm -> find_tag vm (bt_id b) = Ok b.
Proof.
  intros Hnd Hb. apply list_elem_of_split in Hb as (l1 & l2 & E). by eapply find_tag_spec.
Qed.

(** A list of free tags. *)
Definition free_ids vm (xs : list Z) : Prop :=
  Forall (fun id => exists b, b ∈ vm_seglist vm /\ bt_id b = id /\ is_free b) xs.

Lemma scan_list_spec vm size xs :
  NoDup (ids (vm_seglist vm)) -> free_ids vm xs ->
  exists r, scan_list vm size xs = Ok r /\
    match r with
    | Some b => b ∈ vm_seglist vm /\ is_free b /\ size <= bt_size b
    | None => forall b, b ∈ vm_seglist vm -> bt_id b ∈ xs -> bt_size b < size
    end.
Proof.
  intros Hnd. induction xs as [|id xs IH]; intros Hxs; cbn [scan_list].
  { exists None. split; [done|]. intros b _ Hb. by apply not_elem_of_nil in Hb. }
  apply Forall_cons in Hxs as [(b & Hb & <- & Hf) Hxs].
  rewrite find_tag_elem by done. cbn [mbind outcome_bind].
  destruct (Z.leb_spec size (bt_size b)) as [Hle|Hlt]; [by exists (Some b)|].
  destruct (IH Hxs) as (r & -> & Hr). exists r. split; [done|].
  destruct r as [x|]; [done|]. intros x Hx Hin. apply elem_of_cons in Hin as [E|Hin].
  - assert (find_tag vm (bt_id x) = Ok x) as Ex by (by apply find_tag_elem).
    rewrite E, find_tag_elem in Ex by done. by simplify_eq.
  - by apply Hr.
Qed.

Lemma scan_lists_spec vm size lists :
  NoDup (ids (vm_seglist vm)) -> Forall (free_ids vm) lists ->
  exists r, scan_lists vm size lists = Ok r /\
    match r with
    | Some b => b ∈ vm_seglist vm /\ is_free b /\ size <= bt_size b
    | None => forall b xs, b ∈ vm_seglist vm -> xs ∈ lists -> bt_id b ∈ xs -> bt_size b < size
    end.
Proof.
  intros Hnd. induction lists as [|xs lists IH]; intros Hl; cbn [scan_lists].
  { exists None. split; [done|]. intros b xs _ Hb. by apply not_elem_of_nil in Hb. }
  apply Forall_cons in Hl as [Hxs Hl].
  destruct (scan_list_spec vm size xs Hnd Hxs) as (r & -> & Hr). cbn [mbind outcome_bind].
  destruct r as [b|]; [by exists (Some b)|].
  destruct (IH Hl) as (r' & -> & Hr'). exists r'. split; [done|].
  destruct r' as [x|]; [done|]. intros b ys Hb Hys Hin.
  apply elem_of_cons in Hys as [->|Hys]; [by apply Hr|by eapply Hr'].
Qed.

Lemma find_freeseg_spec vm size :
  vmem_inv vm -> size_ok vm size ->
  exists r, bt_find_freeseg vm size = Ok r /\
    match r with
    | Some b => b ∈ vm_seglist vm /\ is_free b /\ size <= bt_size b
    | None => forall b, b ∈ vm_seglist vm -> is_free b -> bt_size b < size
    end.
Proof.
  intros I Hs. unfold bt_find_freeseg.
  destruct (freehead_spec vm size I Hs) as [-> Hidx]. cbn [mbind outcome_bind].
  pose proof (vi_freelist _ I) as Hfl. pose proof (vi_ids _ I) as Hnd.
  destruct (scan_lists_spec vm size
    (drop (Z.to_nat (Z.log2 (Z.shiftr size (vm_quantum_shift vm)))) (vm_freelist vm)) Hnd)
    as (r & -> & Hr).
  { apply Forall_drop, Forall_lookup. intros i xs Hi. apply Forall_forall. intros id Hid.
    apply (Hfl i xs id Hi) in Hid as (b & Hb & He & Hf & _). eauto. }
  exists r. split; [done|]. destruct r as [x|]; [done|]. intros b Hb Hf.
  destruct (decide (bt_size b < size)) as [|Hge]; [done|].
  pose proof (seg_size_ok vm b I Hb) as Hsb.
  destruct (freehead_spec vm (bt_size b) I Hsb) as [_ Hidx'].
  assert (order (vm_quantum_shift vm) b < length (vm_freelist vm))%nat as Hlt
    by (rewrite (vi_nfree _ I); unfold order; lia).
  destruct (lookup_lt_is_Some_2 _ _ Hlt) as [xs Hxs].
  apply (Hr b xs Hb).
  - assert (Z.to_nat (Z.log2 (Z.shiftr size (vm_quantum_shift vm))) <=
      order (vm_quantum_shift vm) b)%nat as Hle.
    { unfold order. apply Z2Nat.inj_le; [lia|lia|]. apply Z.log2_le_mono.
      destruct (size_quanta vm size I Hs) as (-> & _).
      destruct (size_quanta vm (bt_size b) I Hsb) as (-> & _).
      pose proof (quantum_pos vm I). apply Z.div_le_mono; lia. }
    apply list_elem_of_lookup. exists (order (vm_quantum_shift vm) b -
      Z.to_nat (Z.log2 (Z.shiftr size (vm_quantum_shift vm))))%nat.
    rewrite lookup_drop. rewrite <- Hxs. f_equal. lia.
  - apply (Hfl _ _ _ Hxs). eauto.
Qed.

Lemma hashhead_range addr : (Z.to_nat (bt_hashhead addr) < Z.to_nat VMEM_MAXHASH)%nat /\
  0 <= bt_hashhead addr < VMEM_MAXHASH.
Proof.
  unfold bt_hashhead, VMEM_MAXHASH.
  pose proof (Z.mod_pos_bound (hash32_buf (bytes_of (Z.to_nat (word_bits / 8)) addr) HASH32_BUF_INIT) 512).
  lia.
Qed.

Lemma segs_same_start vm b1 b2 :
  vmem_inv vm -> b1 ∈ vm_seglist vm -> b2 ∈ vm_seglist vm -> is_busy b1 -> is_busy b2 ->
  bt_start b1 = bt_start b2 -> b1 = b2.
Proof.
  intros I H1 H2 B1 B2 E.
  destruct (pairwise_elem _ _ _ _ apart_sym (vi_apart _ I) H1 H2) as [|Ha]; [done|].
  destruct (seg_size_ok vm b1 I H1), (seg_size_ok vm b2 I H2).
  unfold apart, bt_isspan in Ha. rewrite B1, B2 in Ha. specialize (Ha eq_refl). lia.
Qed.

Lemma lookup_loop_spec vm addr xs :
  NoDup (ids (vm_seglist vm)) ->
  Forall (fun id => exists b, b ∈ vm_seglist vm /\ bt_id b = id /\ is_busy b) xs ->
  exists r, lookup_loop vm addr xs = Ok r /\
    match r with
    | Some b => b ∈ vm_seglist vm /\ is_busy b /\ bt_start b = addr
    | None => forall b, b ∈ vm_seglist vm -> bt_id b ∈ xs -> bt_start b <> addr
    end.
Proof.
  intros Hnd. induction xs as [|id xs IH]; intros Hxs; cbn [lookup_loop].
  { exists None. split; [done|]. intros b _ Hb. by apply not_elem_of_nil in Hb. }
  apply Forall_cons in Hxs as [(b & Hb & <- & Hf) Hxs].
  rewrite find_tag_elem by done. cbn [mbind outcome_bind].
  assert_step ltac:(by apply bool_decide_eq_true).
  destruct (Z.eqb_spec (bt_start b) addr) as [E|E]; [by exists (Some b)|].
  destruct (IH Hxs) as (r & -> & Hr). exists r. split; [done|].
  destruct r as [x|]; [done|]. intros x Hx Hin. apply elem_of_cons in Hin as [Ei|Hin].
  - assert (find_tag vm (bt_id x) = Ok x) as Ex by (by apply find_tag_elem).
    rewrite Ei, find_tag_elem in Ex by done. by simplify_eq.
  - by apply Hr.
Qed.

Lemma lookupbusy_spec vm b :
  vmem_inv vm -> b ∈ vm_seglist vm -> is_busy b -> bt_lookupbusy vm (bt_start b) = Ok (Some b).
Proof.
  intros I Hb Hbusy. unfold bt_lookupbusy. destruct (hashhead_range (bt_start b)) as [Hlt Hr].
  pose proof (vi_nhash _ I) as Hn. pose proof (vi_hashlist _ I) as Hh.
  destruct (arr_get_in_range (vm_hashlist vm) (bt_hashhead (bt_start b))) as (xs & -> & Hxs).
  { rewrite Hn. lia. }
  cbn [mbind outcome_bind].
  destruct (lookup_loop_spec vm (bt_start b) xs (vi_ids _ I)) as (r & -> & Hres).
  { apply Forall_forall. intros id Hid. apply (Hh _ _ _ Hxs) in Hid as (x & Hx & He & Hf & _). eauto. }
  destruct r as [x|].
  - destruct Hres as (Hx & Hxb & E). do 2 f_equal. by eapply segs_same_start.
  - exfalso. apply (Hres b Hb); [|done]. apply (Hh _ _ _ Hxs). eauto.
Qed.
End search.

(** ** Steps of the operations *)

Section steps.
Context `{Arch}.
Implicit Types (vm : vmem) (b : bt) (l : list bt).

Definition set_free (s : wst) (f : bool) : wst := Wst (w_pos s) (w_fin s) f.

(** Only the start of a list depends on whether a free segment precedes it. *)
Lemma walked_after_busy q s l :
  walked q s l -> walked q (set_free s false) l /\
  w_pos (after (set_free s false) l) = w_pos (after s l) /\
  w_fin (after (set_free s false) l) = w_fin (after s l).
Proof.
  destruct l as [|b l]; [done|]. intros [[Hok Hb] Hw]. cbn.
  assert (wnext b (set_free s false) = wnext b s) as -> by (unfold wnext; by destruct (bt_type b)).
  split; [|done]. split; [|done]. split; [done|]. destruct (bt_type b); cbn in *; naive_solver.
Qed.

Lemma walked_after_free q s l :
  walked q s l -> (forall b, head l = Some b -> ~ is_free b) ->
  walked q (set_free s true) l /\
  w_pos (after (set_free s true) l) = w_pos (after s l) /\
  w_fin (after (set_free s true) l) = w_fin (after s l).
Proof.
  destruct l as [|b l]; [done|]. intros [[Hok Hb] Hw] Hh. cbn.
  assert (wnext b (set_free s true) = wnext b s) as -> by (unfold wnext; by destruct (bt_type b)).
  split; [|done]. split; [|done]. split; [done|]. specialize (Hh b eq_refl).
  unfold is_free in Hh. destruct (bt_type b); cbn in *; naive_solver.
Qed.

Lemma after_free_last s l :
  w_free (after s l) = true -> l <> [] -> exists p, last l = Some p /\ is_free p.
Proof.
  revert s. induction l as [|b l IH]; intros s Hf Hne; [done|]. cbn in Hf.
  destruct l as [|c l].
  - exists b. split; [done|]. unfold wnext in Hf. unfold is_free. cbn in Hf.
    by destruct (bt_type b).
  - destruct (IH (wnext b s) Hf) as (p & Hp & HF); [done|]. exists p. done.
Qed.

Lemma insfree_spec vm b :
  is_free b ->
  (bt_freehead vm (bt_size b) = Ok (Z.log2 (Z.shiftr (bt_size b) (vm_quantum_shift vm)))) ->
  0 <= Z.log2 (Z.shiftr (bt_size b) (vm_quantum_shift vm)) < Z.of_nat (length (vm_freelist vm)) ->
  exists xs, vm_freelist vm !! order (vm_quantum_shift vm) b = Some xs /\
    bt_insfree vm b = Ok (set_lists vm (vm_seglist vm)
      (<[order (vm_quantum_shift vm) b := bt_id b :: xs]> (vm_freelist vm))
      (vm_hashlist vm) (vm_inuse vm)).
Proof.
  intros Hf Hh Hr. unfold bt_insfree. assert_step ltac:(by apply bool_decide_eq_true).
  rewrite Hh. cbn [mbind outcome_bind].
  destruct (arr_get_in_range (vm_freelist vm)
    (Z.log2 (Z.shiftr (bt_size b) (vm_quantum_shift vm)))) as (xs & -> & Hxs); [lia|].
  cbn [mbind outcome_bind]. rewrite arr_set_ok by lia. exists xs. done.
Qed.

Lemma insbusy_spec vm b :
  is_busy b -> length (vm_hashlist vm) = Z.to_nat VMEM_MAXHASH ->
  exists xs, vm_hashlist vm !! Z.to_nat (bt_hashhead (bt_start b)) = Some xs /\
    bt_insbusy vm b = Ok (set_lists vm (vm_seglist vm) (vm_freelist vm)
      (<[Z.to_nat (bt_hashhead (bt_start b)) := bt_id b :: xs]> (vm_hashlist vm))
      (wrap (vm_inuse vm + bt_size b))).
Proof.
  intros Hb Hl. unfold bt_insbusy. assert_step ltac:(by apply bool_decide_eq_true).
  destruct (hashhead_range (bt_start b)) as [Hlt Hr].
  destruct (arr_get_in_range (vm_hashlist vm) (bt_hashhead (bt_start b))) as (xs & -> & Hxs); [lia|].
  cbn [mbind outcome_bind]. rewrite arr_set_ok by lia. by exists xs.
Qed.

(** The same arena with other lists is as good for [bt_freehead]. *)
Lemma freehead_same vm vm' size :
  vm_quantum_shift vm' = vm_quantum_shift vm -> bt_freehead vm' size = bt_freehead vm size.
Proof. intros E. unfold bt_freehead. by rewrite E. Qed.

Lemma length_unlink id lists : length (unlink id lists) = length lists.
Proof. apply length_fmap. Qed.

Definition unlinks (bs : list bt) (lists : list (list Z)) : list (list Z) :=
  foldr (fun b lists => unlink (bt_id b) lists) lists bs.

Lemma length_unlinks bs lists : length (unlinks bs lists) = length lists.
Proof. induction bs as [|b bs IH]; cbn; [done|]. by rewrite length_unlink. Qed.

Lemma linked_unlinks bs lists id : linked id lists -> id ∉ ids bs -> linked id (unlinks bs lists).
Proof.
  intros Hl. induction bs as [|b bs IH]; cbn; [done|]. intros [Hne Hn]%not_elem_of_cons. specialize (IH Hn). apply Exists_exists in IH as (xs & Hxs & Hi). apply Exists_exists.
  exists (filter (fun x => x <> bt_id b) xs). split; [by apply list_elem_of_fmap_2|]. by apply list_elem_of_filter.
Qed.

Lemma ids_app l1 l2 : ids (l1 ++ l2) = ids l1 ++ ids l2.
Proof. apply fmap_app. Qed.

Lemma listed_removes P idx bs lists l :
  NoDup (ids (bs ++ l)) -> listed P idx lists (bs ++ l) -> listed P idx (unlinks bs lists) l.
Proof.
  revert l. induction bs as [|b bs IH]; intros l Hnd Hl; [done|]. cbn.
  cbn in Hnd. apply NoDup_cons in Hnd as [Hn Hnd].
  assert (NoDup (ids (bs ++ b :: l))) as Hnd'.
  { unfold ids in *. rewrite fmap_app, fmap_cons in *. rewrite <- Permutation_middle.
    by apply NoDup_cons. }
  apply listed_remove.
  - rewrite ids_app in Hn. set_solver.
  - apply IH; [done|]. eapply listed_perm; [|exact Hl]. cbn. by rewrite Permutation_middle.
Qed.

Lemma listed_skips P idx bs lists l :
  Forall (fun b => ~ P b) bs -> listed P idx lists (bs ++ l) <-> listed P idx lists l.
Proof.
  induction 1 as [|b bs Hb _ IH]; [done|]. cbn. rewrite listed_skip by done. done.
Qed.

(** A block of addresses in use. *)
Definition block vm (a n : Z) : Prop :=
  exists b, b ∈ vm_seglist vm /\ is_busy b /\ bt_start b = a /\ bt_size b = n.

Definition in_span vm (a n : Z) : Prop :=
  exists b, b ∈ vm_seglist vm /\ bt_type b = BT_TYPE_SPAN /\
    bt_start b <= a /\ a + n <= bt_start b + bt_size b.
End steps.

(** ** Allocation *)

Section alloc.
Context `{Arch}.
Implicit Types (vm : vmem) (b : bt) (l : list bt).

Lemma wok_seg q s b :
  bt_type b <> BT_TYPE_SPAN ->
  wok q s b <-> seg_ok q b /\ bt_start b = w_pos s /\ w_pos s + bt_size b <= w_fin s /\
    ~ (w_free s = true /\ is_free b).
Proof. intros Hb. unfold wok, is_free. destruct (bt_type b); done. Qed.

(** Splitting a free segment into a busy and a free one. *)
Lemma split_tiled q l1 b l2 sz id :
  tiled q (l1 ++ b :: l2) -> is_free b -> 0 < q -> 0 < sz < bt_size b -> sz `mod` q = 0 ->
  tiled q (l1 ++ Bt (bt_id b) (bt_start b) sz BT_TYPE_BUSY ::
    Bt id (bt_start b + sz) (bt_size b - sz) BT_TYPE_FREE :: l2).
Proof.
  intros [Hw Hend] Hf Hq Hsz Hmod. unfold tiled. rewrite walked_app in Hw.
  rewrite after_app in Hend |- *. destruct Hw as (Hw1 & Hb & Hw2). cbn [after] in *.
  set (s := after w0 l1) in *. apply wok_seg in Hb as ((O1 & O2 & O3 & O4 & O5) & Hst & Hle & Hnf);
    [|by rewrite Hf].
  assert (wnext b s = wnext (Bt id (bt_start b + sz) (bt_size b - sz) BT_TYPE_FREE)
    (wnext (Bt (bt_id b) (bt_start b) sz BT_TYPE_BUSY) s)) as Hnext.
  { unfold wnext. rewrite Hf. cbn. f_equal. lia. }
  split; [|rewrite <- Hnext; done].
  apply walked_app. split; [done|]. cbn [walked]. fold s. rewrite <- Hnext. split_and!; [| |done].
  - apply wok_seg; [done|]. unfold seg_ok; cbn. split_and!; try done; try lia. by intros [_ ?].
  - apply wok_seg; [done|]. unfold seg_ok; cbn. split_and!; try done; try lia.
    + rewrite Zminus_mod, O2, Hmod. apply Z.mod_0_l. lia.
    + rewrite Zplus_mod, O3, Hmod. apply Z.mod_0_l. lia.
Qed.

(** Turning a free segment busy as a whole. *)
Lemma busy_tiled q l1 b l2 :
  tiled q (l1 ++ b :: l2) -> is_free b ->
  tiled q (l1 ++ Bt (bt_id b) (bt_start b) (bt_size b) BT_TYPE_BUSY :: l2).
Proof.
  intros [Hw Hend] Hf. unfold tiled. rewrite walked_app in Hw |- *.
  rewrite after_app in Hend |- *.
  destruct Hw as (Hw1 & Hb & Hw2). cbn [after walked] in *.
  set (s := after w0 l1) in *.
  apply wok_seg in Hb as (Hok & Hst & Hle & Hnf); [|by rewrite Hf].
  destruct (walked_after_busy q _ _ Hw2) as (Hw3 & Hp & Hfin).
  assert (wnext (Bt (bt_id b) (bt_start b) (bt_size b) BT_TYPE_BUSY) s =
    set_free (wnext b s) false) as -> by (unfold wnext; by rewrite Hf).
  rewrite Hp, Hfin. split_and!; try done. apply wok_seg; [done|].
  split_and!; try done; try apply Hok. by intros [_ ?].
Qed.

Lemma sizes_pos vm : vmem_inv vm -> Forall (fun x => 0 < bt_size x) (vm_seglist vm).
Proof.
  intros I. apply Forall_forall. intros x Hx. pose proof (seg_size_ok vm x I Hx) as [? _]. lia.
Qed.

Lemma alloc_split_inv vm l1 b l2 sz xs ys :
  vmem_inv vm -> vm_seglist vm = l1 ++ b :: l2 -> is_free b ->
  0 < sz < bt_size b -> sz `mod` vm_quantum vm = 0 ->
  let b' := Bt (bt_id b) (bt_start b) sz BT_TYPE_BUSY in
  let n := Bt (vm_fresh vm) (bt_start b + sz) (bt_size b - sz) BT_TYPE_FREE in
  let free := unlink (bt_id b) (vm_freelist vm) in
  let i := order (vm_quantum_shift vm) n in
  let h := Z.to_nat (bt_hashhead (bt_start b)) in
  free !! i = Some xs -> vm_hashlist vm !! h = Some ys ->
  vmem_inv (Vmem (vm_size vm) (wrap (vm_inuse vm + sz)) (vm_quantum vm) (vm_quantum_shift vm)
    (l1 ++ b' :: n :: l2) (<[i := vm_fresh vm :: xs]> free) (<[h := bt_id b :: ys]> (vm_hashlist vm))
    (vm_fresh vm + 1)).
Proof.
  intros I E Hf Hsz Hmod b' n free i h Hxs Hys. pose proof (quantum_pos vm I) as [Hq _].
  pose proof (sizes_pos vm I) as Hpos.
  destruct I as [I1 I2 I3 I4 I5 I6 I7 I8 I9 I10 I11 I12]. rewrite E in *.
  destruct (ids_split _ _ _ I5) as [Hnd Hnb].
  assert (forall x, x ∈ l1 ++ b :: l2 -> bt_id x < vm_fresh vm) as Hfr
    by (rewrite Forall_forall in I6; done).
  assert (l1 ++ b' :: n :: l2 ≡ₚ n :: b' :: (l1 ++ l2)) as HP by (solve_Permutation).
  assert (l1 ++ b :: l2 ≡ₚ b :: (l1 ++ l2)) as HP0 by (solve_Permutation).
  split; cbn [vm_size vm_inuse vm_quantum vm_quantum_shift vm_seglist vm_freelist vm_hashlist vm_fresh];
    try done.
  - by apply split_tiled.
  - apply (pairwise_replace l1 [b] [b'; n] l2 I4).
    + cbn. repeat constructor. unfold apart. cbn. lia.
    + intros x Hx Hxs'. apply Forall_cons in Hx as [Hx _]. unfold apart in Hx.
      assert (bt_isspan b = false) as Hbs by (unfold bt_isspan; by rewrite Hf).
      rewrite Hbs in Hx. rewrite !Forall_cons. split_and!; [..|constructor];
        intros Hsp; destruct (Hx Hsp); cbn; lia.
    + rewrite Forall_app in Hpos |- *. destruct Hpos as [? Hp2]. apply Forall_cons in Hp2. tauto.
  - unfold ids. rewrite HP. cbn. rewrite !NoDup_cons, not_elem_of_cons. split_and!; try done.
    + assert (bt_id b < vm_fresh vm) by (apply Hfr; set_solver). lia.
    + intros Hin. apply list_elem_of_fmap in Hin as (x & Ex & Hx).
      assert (bt_id x < vm_fresh vm) by (apply Hfr; set_solver). lia.
  - rewrite HP. rewrite HP0 in I6. apply Forall_cons in I6 as [Hb6 I6].
    repeat constructor; cbn; try lia. eapply Forall_impl; [exact I6|]. cbn. lia.
  - rewrite length_insert. unfold free. by rewrite length_unlink.
  - by rewrite length_insert.
  - eapply listed_perm; [symmetry; exact HP|]. apply (listed_add _ _ _ n); [done|done|].
    apply listed_skip; [done|]. apply listed_remove; [done|].
    eapply listed_perm; [exact HP0|exact I9].
  - eapply listed_perm; [symmetry; exact HP|]. apply listed_skip; [done|].
    apply (listed_add is_busy (fun b => Z.to_nat (bt_hashhead (bt_start b))) _ b'); [done|done|].
    apply (listed_skip _ _ _ b); [unfold is_busy; by rewrite Hf|].
    eapply listed_perm; [exact HP0|exact I10].
  - rewrite I11, !sum_of_app, !sum_of_cons. cbn. rewrite Hf. done.
  - rewrite I12, !sum_of_app, !sum_of_cons, Hf.
    unfold b', wrap, uwrap. cbn [bt_type bt_size]. rewrite Zplus_mod_idemp_l.
    repeat case_decide; try done. f_equal. lia.
Qed.

Lemma alloc_whole_inv vm l1 b l2 ys :
  vmem_inv vm -> vm_seglist vm = l1 ++ b :: l2 -> is_free b ->
  let b' := Bt (bt_id b) (bt_start b) (bt_size b) BT_TYPE_BUSY in
  let h := Z.to_nat (bt_hashhead (bt_start b)) in
  vm_hashlist vm !! h = Some ys ->
  vmem_inv (Vmem (vm_size vm) (wrap (vm_inuse vm + bt_size b)) (vm_quantum vm) (vm_quantum_shift vm)
    (l1 ++ b' :: l2) (unlink (bt_id b) (vm_freelist vm)) (<[h := bt_id b :: ys]> (vm_hashlist vm))
    (vm_fresh vm)).
Proof.
  intros I E Hf b' h Hys. pose proof (sizes_pos vm I) as Hpos.
  destruct I as [I1 I2 I3 I4 I5 I6 I7 I8 I9 I10 I11 I12]. rewrite E in *.
  destruct (ids_split _ _ _ I5) as [Hnd Hnb].
  assert (l1 ++ b' :: l2 ≡ₚ b' :: (l1 ++ l2)) as HP by (solve_Permutation).
  assert (l1 ++ b :: l2 ≡ₚ b :: (l1 ++ l2)) as HP0 by (solve_Permutation).
  split; cbn [vm_size vm_inuse vm_quantum vm_quantum_shift vm_seglist vm_freelist vm_hashlist vm_fresh];
    try done.
  - by apply busy_tiled.
  - apply (pairwise_replace l1 [b] [b'] l2 I4).
    + cbn. repeat constructor.
    + intros x Hx Hxs'. apply Forall_cons in Hx as [Hx _]. unfold apart in Hx.
      assert (bt_isspan b = false) as Hbs by (unfold bt_isspan; by rewrite Hf).
      rewrite Hbs in Hx. apply Forall_cons. split; [exact Hx|constructor].
    + rewrite Forall_app in Hpos |- *. destruct Hpos as [? Hp2]. apply Forall_cons in Hp2. tauto.
  - unfold ids in *. rewrite HP. rewrite HP0 in I5. done.
  - rewrite HP. rewrite HP0 in I6. apply Forall_cons in I6 as [Hb6 I6]. by constructor.
  - by rewrite length_unlink.
  - by rewrite length_insert.
  - eapply listed_perm; [symmetry; exact HP|]. apply listed_skip; [done|].
    apply listed_remove; [done|]. eapply listed_perm; [exact HP0|exact I9].
  - eapply listed_perm; [symmetry; exact HP|].
    apply (listed_add is_busy (fun b => Z.to_nat (bt_hashhead (bt_start b))) _ b'); [done|done|].
    apply (listed_skip _ _ _ b); [unfold is_busy; by rewrite Hf|].
    eapply listed_perm; [exact HP0|exact I10].
  - rewrite I11, !sum_of_app, !sum_of_cons. cbn. rewrite Hf. done.
  - rewrite I12, !sum_of_app, !sum_of_cons, Hf.
    unfold b', wrap, uwrap. cbn [bt_type bt_size]. rewrite Zplus_mod_idemp_l.
    repeat case_decide; try done. f_equal. lia.
Qed.
End alloc.

Section alloc_correct.
Context `{Arch}.
Implicit Types (vm : vmem) (b : bt) (l : list bt).

Lemma walked_in_span q l b : forall s st,
  st <= w_pos s -> walked q s l -> b ∈ l -> bt_type b <> BT_TYPE_SPAN ->
  (st <= bt_start b /\ bt_start b + bt_size b <= w_fin s) \/
  exists sp, sp ∈ l /\ bt_type sp = BT_TYPE_SPAN /\ bt_start sp <= bt_start b /\
    bt_start b + bt_size b <= bt_start sp + bt_size sp.
Proof.
  induction l as [|x l IH]; intros s st Hst Hw Hb Hne; [by apply not_elem_of_nil in Hb|].
  destruct Hw as [Hx Hw]. apply elem_of_cons in Hb as [->|Hb].
  - apply wok_seg in Hx as (_ & -> & Hle & _); [|done]. left. lia.
  - destruct (decide (bt_type x = BT_TYPE_SPAN)) as [E|E].
    + destruct (IH (wnext x s) (bt_start x)) as [[H1 H2]|(sp & Hsp & HH)]; try done.
      * unfold wnext. rewrite E. cbn. lia.
      * right. exists x. split; [set_solver|]. unfold wnext in H2. rewrite E in H2. done.
      * right. exists sp. split; [set_solver|done].
    + apply wok_seg in Hx as ((Hsz & _) & _ & Hle & _); [|done].
      assert (w_pos (wnext x s) = w_pos s + bt_size x /\ w_fin (wnext x s) = w_fin s) as [E1 E2]
        by (unfold wnext; by destruct (bt_type x)).
      destruct (IH (wnext x s) st) as [HH|(sp & Hsp & HH)]; try done.
      * lia.
      * left. by rewrite E2 in HH.
      * right. exists sp. split; [set_solver|done].
Qed.

Lemma seg_in_span vm b :
  vmem_inv vm -> b ∈ vm_seglist vm -> bt_type b <> BT_TYPE_SPAN ->
  in_span vm (bt_start b) (bt_size b).
Proof.
  intros I Hb Hne. destruct (vi_tiled _ I) as [Hw _].
  destruct (walked_in_span _ _ b w0 0 ltac:(done) Hw Hb Hne) as [[_ H2]|HH]; [|done].
  destruct (walked_seg_ok _ _ _ _ Hw Hb) as (H3 & _ & _ & H4 & _). cbn in H2. lia.
Qed.

(** Every address of a span belongs to a segment, so a span without a free segment of
    the size has no free run of the size. *)
Lemma no_free_run vm a n :
  vmem_inv vm -> 0 < n -> in_span vm a n ->
  (forall b, b ∈ vm_seglist vm -> is_free b -> bt_size b < n) ->
  exists x s m, a <= x < a + n /\ block vm s m /\ s <= x < s + m.
Proof.
  intros I Hn (sp & Hsp & Htype & H1 & H2) Hsmall.
  destruct (decide (Exists (fun b => is_busy b /\ a < bt_start b + bt_size b /\ bt_start b < a + n)
    (vm_seglist vm))) as [HE|HE].
  - apply Exists_exists in HE as (b & Hb & Hbusy & Hb1 & Hb2).
    destruct (seg_size_ok vm b I Hb) as [Hs _].
    exists (Z.max a (bt_start b)), (bt_start b), (bt_size b). split_and!; try lia.
    exists b. done.
  - exfalso. apply list_elem_of_split in Hsp as (l1 & l2 & E).
    destruct (vi_tiled _ I) as [Hw Hend]. rewrite E in Hw, Hend.
    rewrite walked_app in Hw. rewrite after_app in Hend. destruct Hw as (_ & _ & Hw2).
    cbn [after] in Hend.
    assert (wnext sp (after w0 l1) = Wst (bt_start sp) (bt_start sp + bt_size sp) false) as En
      by (unfold wnext; by rewrite Htype).
    rewrite En in *.
    destruct (run_in_free (vm_quantum vm) l2 (Wst (bt_start sp) (bt_start sp + bt_size sp) false) a n)
      as (b & Hb & Hf & Hb1 & Hb2); try done.
    + intros b x Hb Hbusy Hx Hcov. apply HE, Exists_exists. exists b.
      split; [rewrite E; set_solver|]. split; [done|lia].
    + assert (bt_size b < n) by (apply Hsmall; [rewrite E; set_solver|done]). lia.
Qed.

Lemma alloc_size vm size :
  vmem_inv vm -> 0 < size -> ceil_to size (vm_quantum vm) < 2 ^ word_bits ->
  align size (vm_quantum vm) = ceil_to size (vm_quantum vm) /\
  size_ok vm (ceil_to size (vm_quantum vm)).
Proof.
  intros I Hs Ht. pose proof (quantum_pos vm I) as [Hq _].
  destruct (ceil_to_spec size (vm_quantum vm) Hq) as [Hc Hm]. split; [|split; [lia|done]].
  rewrite (vi_quantum _ I) in *. apply align_spec; [apply (vi_shift _ I)|unfold in_word; lia|done].
Qed.

(** The rest of a segment that is larger than the request is at least a quantum. *)
Lemma rest_quantum (q x y : Z) :
  0 < q -> x `mod` q = 0 -> y `mod` q = 0 -> x < y -> q <= y - x.
Proof.
  intros Hq Ha Hb Hlt. assert ((y - x) `mod` q = 0) as Hm
    by (rewrite Zminus_mod, Ha, Hb; apply Z.mod_0_l; lia).
  destruct (decide (y - x < q)) as [Hl|]; [|lia].
  rewrite Z.mod_small in Hm by lia. lia.
Qed.

Record alloc_result vm (sz a : Z) (vm' : vmem) : Prop := {
  ar_inv : vmem_inv vm';
  ar_quantum : vm_quantum vm' = vm_quantum vm;
  ar_span : in_span vm a sz;
  ar_aligned : a `mod` vm_quantum vm = 0;
  ar_disjoint s n : block vm s n -> s + n <= a \/ a + sz <= s;
  ar_blocks s n : block vm' s n <-> block vm s n \/ (s = a /\ n = sz);
  ar_spans s n : in_span vm' s n <-> in_span vm s n;
}.

(** What taking the front [sz] of a free segment means for blocks and spans; [rest]
    is what is left of the segment. *)
Lemma take_front vm vm' l1 b l2 sz rest :
  vmem_inv vm -> vm_seglist vm = l1 ++ b :: l2 -> is_free b -> sz <= bt_size b -> 0 < sz ->
  vmem_inv vm' -> vm_quantum vm' = vm_quantum vm ->
  vm_seglist vm' = l1 ++ Bt (bt_id b) (bt_start b) sz BT_TYPE_BUSY :: rest ++ l2 ->
  Forall is_free rest -> alloc_result vm sz (bt_start b) vm'.
Proof.
  intros I E Hf Hle Hsz I' Eq' E' Hrest.
  assert (b ∈ vm_seglist vm) as Hb by (rewrite E; set_solver).
  assert (forall x, x ∈ rest -> bt_type x = BT_TYPE_FREE) as Hr by (by apply Forall_forall).
  split; try done.
  - destruct (seg_in_span vm b I Hb) as (sp & H1 & H2 & H3 & H4); [by rewrite Hf|].
    exists sp. split_and!; try done. lia.
  - destruct (vi_tiled _ I) as [Hw _]. apply (walked_seg_ok _ _ _ _ Hw Hb).
  - intros s n (x & Hx & Hbusy & <- & <-).
    destruct (pairwise_elem _ _ _ _ apart_sym (vi_apart _ I) Hx Hb) as [->|Ha].
    { unfold is_busy, is_free in *. congruence. }
    unfold apart, bt_isspan in Ha. rewrite Hbusy, Hf in Ha. specialize (Ha eq_refl). lia.
  - intros s n. unfold block, is_busy. rewrite E, E'. split.
    + intros (x & Hx & Hbusy & Hs & Hn). apply elem_of_app in Hx as [Hx|Hx].
      { left. exists x. set_solver. }
      apply elem_of_cons in Hx as [->|Hx]; [right; by cbn in *|].
      apply elem_of_app in Hx as [Hx|Hx]; [apply Hr in Hx; congruence|].
      left. exists x. set_solver.
    + intros [(x & Hx & Hbusy & Hs & Hn)|[-> ->]].
      * exists x. split; [|done]. apply elem_of_app in Hx as [Hx|Hx]; [set_solver|].
        apply elem_of_cons in Hx as [->|Hx]; [unfold is_free in Hf; congruence|set_solver].
      * eexists. split; [apply elem_of_app; right; by left|]. done.
  - intros s n. unfold in_span. rewrite E, E'. split; intros (x & Hx & Ht & Hs & Hn).
    + exists x. split; [|done]. apply elem_of_app in Hx as [Hx|Hx]; [set_solver|].
      apply elem_of_cons in Hx as [->|Hx]; [done|].
      apply elem_of_app in Hx as [Hx|Hx]; [apply Hr in Hx; congruence|set_solver].
    + exists x. split; [|done]. apply elem_of_app in Hx as [Hx|Hx]; [set_solver|].
      apply elem_of_cons in Hx as [->|Hx]; [unfold is_free in Hf; congruence|set_solver].
Qed.

Lemma put_tag_spec vm l1 b b' l2 :
  vm_seglist vm = l1 ++ b :: l2 -> NoDup (ids (vm_seglist vm)) -> bt_id b' = bt_id b ->
  put_tag vm b' = set_lists vm (l1 ++ b' :: l2) (vm_freelist vm) (vm_hashlist vm) (vm_inuse vm).
Proof.
  intros E Hnd Hid. unfold put_tag. rewrite E in *.
  destruct (ids_split _ _ _ Hnd) as [_ Hn]. by rewrite (put_tag_list l1 b b' l2).
Qed.

Lemma insseg_after_spec vm l1 b n l2 :
  vm_seglist vm = l1 ++ b :: l2 -> bt_id b ∉ ids l1 ->
  bt_insseg_after vm n (bt_id b) =
    set_lists vm (l1 ++ b :: n :: l2) (vm_freelist vm) (vm_hashlist vm) (vm_inuse vm).
Proof. intros E Hn. unfold bt_insseg_after. rewrite E. by rewrite insert_after_list. Qed.

Lemma alloc_split_code vm l1 b l2 sz :
  vmem_inv vm -> vm_seglist vm = l1 ++ b :: l2 -> is_free b ->
  0 < sz < bt_size b -> sz `mod` vm_quantum vm = 0 ->
  let free := unlink (bt_id b) (vm_freelist vm) in
  let vm1 := set_lists vm (vm_seglist vm) free (vm_hashlist vm) (vm_inuse vm) in
  let n := Bt (vm_fresh vm) (bt_start b + sz) (bt_size b - sz) BT_TYPE_FREE in
  let b' := Bt (bt_id b) (bt_start b) sz BT_TYPE_BUSY in
  exists vm', (vm ← bt_insfree (put_tag (take_tags vm1 1) b') n;
     bt_insbusy (bt_insseg_after vm n (bt_id b')) b') = Ok vm' /\
    alloc_result vm sz (bt_start b) vm'.
Proof.
  intros I E Hf Hsz Hmod free vm1 n b'.
  pose proof (vi_ids _ I) as Hnd. pose proof (quantum_pos vm I) as [Hq _].
  assert (b ∈ vm_seglist vm) as Hb by (rewrite E; set_solver).
  destruct (seg_size_ok vm b I Hb) as [Hbs Hbm].
  assert (size_ok vm (bt_size b - sz)) as Hsn.
  { split; [lia|]. rewrite Zminus_mod, Hbm, Hmod. apply Z.mod_0_l. lia. }
  destruct (freehead_spec vm _ I Hsn) as [Hfh Hr].
  rewrite (put_tag_spec _ l1 b b' l2) by done.
  set (vm2 := set_lists (take_tags vm1 1) _ _ _ _).
  destruct (insfree_spec vm2 n) as (xs & Hxs & ->).
  - done.
  - rewrite (freehead_same vm) by done. done.
  - cbn. unfold free. rewrite length_unlink, (vi_nfree _ I). cbn in Hr. lia.
  - cbn [mbind outcome_bind]. set (vm3 := set_lists vm2 _ _ _ _).
    assert (bt_id b ∉ ids l1) as Hnl1.
    { rewrite E in Hnd. destruct (ids_split _ _ _ Hnd) as [_ Hn]. rewrite ids_app in Hn. set_solver. }
    rewrite (insseg_after_spec vm3 l1 b' n l2) by done.
    set (vm4 := set_lists vm3 _ _ _ _).
    destruct (insbusy_spec vm4 b') as (ys & Hys & ->); [done|apply (vi_nhash _ I)|].
    eexists. split; [done|].
    eapply (take_front vm _ l1 b l2 sz [n]); try done; try lia; [|by repeat constructor].
    apply (alloc_split_inv vm l1 b l2 sz xs ys); done.
Qed.

Lemma alloc_whole_code vm l1 b l2 :
  vmem_inv vm -> vm_seglist vm = l1 ++ b :: l2 -> is_free b ->
  let free := unlink (bt_id b) (vm_freelist vm) in
  let vm1 := set_lists vm (vm_seglist vm) free (vm_hashlist vm) (vm_inuse vm) in
  let b' := Bt (bt_id b) (bt_start b) (bt_size b) BT_TYPE_BUSY in
  exists vm', bt_insbusy (put_tag vm1 b') b' = Ok vm' /\
    alloc_result vm (bt_size b) (bt_start b) vm'.
Proof.
  intros I E Hf free vm1 b'. pose proof (vi_ids _ I) as Hnd.
  assert (b ∈ vm_seglist vm) as Hb by (rewrite E; set_solver).
  destruct (seg_size_ok vm b I Hb) as [Hbs Hbm].
  rewrite (put_tag_spec _ l1 b b' l2) by done.
  set (vm2 := set_lists vm1 _ _ _ _).
  destruct (insbusy_spec vm2 b') as (ys & Hys & ->); [done|apply (vi_nhash _ I)|].
  eexists. split; [done|].
  eapply (take_front vm _ l1 b l2 (bt_size b) []); try done; try lia.
  apply (alloc_whole_inv vm l1 b l2 ys); done.
Qed.

Lemma on_list_ok id lists : linked id lists -> on_list id lists = Ok tt.
Proof. intros Hl. unfold on_list. by rewrite bool_decide_true. Qed.

Lemma listed_linked P idx lists l b : listed P idx lists l -> b ∈ l -> P b -> (idx b < length lists)%nat -> linked (bt_id b) lists.
Proof.
  intros Hl Hb Hp Hi. apply lookup_lt_is_Some in Hi as [xs Hxs]. apply Exists_exists. exists xs. split; [by apply list_elem_of_lookup_2 in Hxs|]. apply (Hl _ _ _ Hxs). by exists b.
Qed.

(** The free segments of a good arena are on free lists, those in use on hash lists. *)
Lemma free_linked vm b : vmem_inv vm -> b ∈ vm_seglist vm -> is_free b -> linked (bt_id b) (vm_freelist vm).
Proof.
  intros I Hb Hf. apply (listed_linked _ _ _ _ b (vi_freelist _ I)); try done. destruct (freehead_spec vm (bt_size b) I (seg_size_ok vm b I Hb)) as [_ Hr].
  rewrite (vi_nfree _ I). unfold order in *. lia.
Qed.

Lemma busy_linked vm b : vmem_inv vm -> b ∈ vm_seglist vm -> is_busy b -> linked (bt_id b) (vm_hashlist vm).
Proof. intros I Hb Hf. apply (listed_linked _ _ _ _ b (vi_hashlist _ I)); try done. rewrite (vi_nhash _ I). apply hashhead_range. Qed.

Lemma alloc_spec vm size :
  let sz := ceil_to size (vm_quantum vm) in
  vmem_inv vm -> 0 < size -> sz < 2 ^ word_bits ->
  (vmem_alloc vm size true = Ok (ENOMEM, 0, vm) /\
     forall a, in_span vm a sz ->
       exists x s m, a <= x < a + sz /\ block vm s m /\ s <= x < s + m) \/
  (exists a vm', vmem_alloc vm size true = Ok (0, a, vm') /\ alloc_result vm sz a vm').
Proof.
  intros sz I Hs Htop. destruct (alloc_size vm size I Hs Htop) as [Ea Hok]. fold sz in Ea, Hok.
  unfold vmem_alloc. rewrite Ea. pose proof Hok as [Hsz Hmod]. assert_step lia. cbn [negb].
  destruct (find_freeseg_spec vm sz I Hok) as (r & -> & Hr). cbn [mbind outcome_bind].
  destruct r as [b|].
  - right. destruct Hr as (Hb & Hf & Hle). pose proof Hb as Hb'.
    apply list_elem_of_split in Hb' as (l1 & l2 & E).
    destruct (seg_size_ok vm b I Hb) as [Hbs Hbm]. pose proof (quantum_pos vm I) as [Hq _].
    destruct (walked_seg_ok _ _ _ _ (proj1 (vi_tiled _ I)) Hb) as (_ & _ & _ & Hst0 & Hst).
    unfold bt_remfree. assert_step ltac:(by apply bool_decide_eq_true).
    rewrite on_list_ok by (by apply free_linked). cbn [mbind outcome_bind].
    rewrite (wrap_small (bt_size b - sz)), (wrap_small (bt_start b + sz)) by (unfold in_word; lia).
    cbn [vm_quantum set_lists].
    destruct (Z.ltb_spec sz (bt_size b)) as [Hlt|Hge].
    + pose proof (rest_quantum (vm_quantum vm) sz (bt_size b) Hq Hmod Hbm Hlt).
      destruct (Z.leb_spec (vm_quantum vm) (bt_size b - sz)); [|lia]. cbn [andb].
      destruct (alloc_split_code vm l1 b l2 sz I E Hf ltac:(lia) Hmod) as (vm' & Hc & HR).
      apply bind_ok in Hc as (vm2 & E2 & Hc). rewrite E2. cbn [mbind outcome_bind].
      rewrite Hc. cbn [mbind outcome_bind bt_size bt_type bt_start].
      assert_step ltac:(lia). assert_step ltac:(done). eauto.
    + cbn [andb]. assert (bt_size b = sz) as Hbz by lia.
      destruct (alloc_whole_code vm l1 b l2 I E Hf) as (vm' & -> & HR).
      cbn [mbind outcome_bind bt_size bt_type bt_start]. assert_step ltac:(lia).
      assert_step ltac:(done). rewrite Hbz in HR. eauto.
  - left. split; [done|]. intros a Ha. apply no_free_run; try done. lia.
Qed.

(** C18: Allocation from an arena in a good state, of a size that does not wrap around when it
    is rounded, never faults.  It returns an aligned block of the rounded size inside a span
    that overlaps no block in use, and the blocks in use afterwards are those from before
    and the new one; the three lists stay consistent.  It fails with [ENOMEM], changing
    nothing, exactly if the pool has no boundary tag for it, or every run of addresses
    of the size in any span contains an address in use. *)
Theorem vmem_alloc_correct vm size have_tag :
  let sz := ceil_to size (vm_quantum vm) in
  vmem_inv vm -> 0 < size -> sz < 2 ^ word_bits ->
  let no_run := forall a, in_span vm a sz -> exists x s m, a <= x < a + sz /\ block vm s m /\ s <= x < s + m in
  (vmem_alloc vm size have_tag = Ok (ENOMEM, 0, vm) /\ (have_tag = false \/ no_run)) \/
  (have_tag = true /\ exists a vm', vmem_alloc vm size have_tag = Ok (0, a, vm') /\ alloc_result vm sz a vm').
Proof.
  intros sz I Hs Htop no_run. destruct have_tag.
  - destruct (alloc_spec vm size I Hs Htop) as [[E Hno]|Hok]; [left; by auto|by right].
  - left. split; [|by left]. destruct (alloc_size vm size I Hs Htop) as [Ea [Hsz _]]. unfold vmem_alloc. rewrite Ea. by assert_step lia.
Qed.
End alloc_correct.

(** ** Freeing *)

Section free.
Context `{Arch}.
Implicit Types (vm : vmem) (b : bt) (l : list bt).

Fixpoint total l : Z := match l with [] => 0 | b :: l => bt_size b + total l end.

(** Contiguous segments. *)
Lemma walked_mid q s mid :
  0 < q -> walked q s mid -> Forall (fun b => bt_type b <> BT_TYPE_SPAN) mid ->
  w_pos (after s mid) = w_pos s + total mid /\ w_fin (after s mid) = w_fin s /\
  0 <= total mid /\ total mid `mod` q = 0 /\
  (mid <> [] -> 0 < total mid /\ w_pos s + total mid <= w_fin s) /\
  (forall x, Forall (apart x) mid -> bt_isspan x = false -> 0 < bt_size x -> mid <> [] ->
     bt_start x + bt_size x <= w_pos s \/ w_pos s + total mid <= bt_start x).
Proof.
  intros Hq. revert s. induction mid as [|b mid IH]; intros s Hw Hns; cbn.
  { split_and!; try done; try lia. }
  apply Forall_cons in Hns as [Hb Hns]. destruct Hw as [Hok Hw].
  apply wok_seg in Hok as ((O1 & O2 & O3 & O4 & O5) & Hst & Hle & _); [|done].
  assert (w_pos (wnext b s) = w_pos s + bt_size b /\ w_fin (wnext b s) = w_fin s) as [E1 E2]
    by (unfold wnext; by destruct (bt_type b)).
  destruct (IH (wnext b s) Hw Hns) as (A1 & A2 & A3 & A4 & A5 & A6).
  rewrite E1, E2 in *.
  assert (mid = [] -> total mid = 0) as Hnil by (by intros ->).
  split_and!; try lia; try done.
  - rewrite Zplus_mod, O2, A4. apply Z.mod_0_l. lia.
  - intros _. destruct (decide (mid = [])) as [Hm|Hm]; [rewrite Hnil by done|apply A5 in Hm]; lia.
  - intros x HF Hsp Hx _. apply Forall_cons in HF as [Ha HF].
    assert (bt_isspan b = false) as Hbs by (unfold bt_isspan; by apply bool_decide_eq_false).
    unfold apart in Ha. rewrite Hsp, Hbs in Ha. specialize (Ha eq_refl).
    destruct (decide (mid = [])) as [Hm|Hm].
    + rewrite Hnil by done. lia.
    + destruct (A6 x HF Hsp Hx Hm); lia.
Qed.

Lemma walked_first q s b mid :
  walked q s (b :: mid) -> bt_type b <> BT_TYPE_SPAN -> bt_start b = w_pos s.
Proof. intros [Hok _] Hb. by apply wok_seg in Hok as (_ & ? & _). Qed.

(** The current span ends inside the address space. *)
Lemma mid_span_end q l s :
  walked q w0 l -> after w0 l = s -> w_fin s < 2 ^ word_bits.
Proof.
  intros Hw <-.
  assert (w_fin w0 < 2 ^ word_bits) as H0 by (cbn; apply word_size_pos).
  revert Hw H0. generalize w0. induction l as [|b l IH]; intros s Hw H0; cbn; [done|].
  destruct Hw as [[(_ & _ & _ & _ & Hb) _] Hw]. apply IH; [done|].
  unfold wnext. destruct (bt_type b); cbn; lia.
Qed.

Lemma last_busy q s f mid :
  walked q s (f :: mid) -> Forall (fun b => bt_type b <> BT_TYPE_SPAN) (f :: mid) ->
  w_free (after s (f :: mid)) = false -> is_busy (default f (last mid)).
Proof.
  revert s f. induction mid as [|b mid IH]; intros s f Hw Hns Hf.
  - apply Forall_cons in Hns as [Hb _]. cbn in *. unfold wnext in Hf. unfold is_busy.
    destruct (bt_type f); done.
  - destruct Hw as [_ Hw]. apply Forall_cons in Hns as [_ Hns].
    pose proof (IH _ _ Hw Hns Hf) as HH. rewrite last_cons. by destruct (last mid).
Qed.

(** Segments merged into one free segment. *)
Lemma merge_tiled q l1 f mid l2 id :
  0 < q -> tiled q (l1 ++ (f :: mid) ++ l2) ->
  Forall (fun b => bt_type b <> BT_TYPE_SPAN) (f :: mid) ->
  w_free (after w0 l1) = false ->
  (is_busy (default f (last mid)) -> forall n, head l2 = Some n -> ~ is_free n) ->
  tiled q (l1 ++ Bt id (bt_start f) (total (f :: mid)) BT_TYPE_FREE :: l2).
Proof.
  intros Hq [Hw Hend] Hns Hf0 Hnext. unfold tiled. rewrite walked_app in *.
  rewrite !after_app in *. destruct Hw as [Hw1 Hw]. rewrite walked_app in Hw.
  destruct Hw as [Hm Hw2]. set (s := after w0 l1) in *.
  pose proof (walked_seg_ok q s (f :: mid) f Hm ltac:(set_solver)) as (O1 & _ & O3 & O4 & _).
  pose proof Hns as Hns'. apply Forall_cons in Hns' as [Hfn _].
  pose proof (walked_first _ _ _ _ Hm Hfn) as Hst.
  destruct (walked_mid q s (f :: mid) Hq Hm Hns) as (A1 & A2 & A3 & A4 & A5 & _).
  specialize (A5 ltac:(done)).
  pose proof (mid_span_end q l1 s Hw1 eq_refl) as Hfin.
  set (m := Bt id (bt_start f) (total (f :: mid)) BT_TYPE_FREE).
  assert (wok q s m) as Hmok.
  { apply wok_seg; [done|]. unfold seg_ok. cbn [m bt_start bt_size].
    split_and!; try done; try lia. }
  assert (wnext m s = set_free (after s (f :: mid)) true) as Enx.
  { unfold wnext, set_free. cbn [m bt_type bt_size]. by rewrite A1, A2. }
  cbn [after walked]. rewrite Enx.
  destruct (w_free (after s (f :: mid))) eqn:Hlast.
  - assert (set_free (after s (f :: mid)) true = after s (f :: mid)) as ->
      by (unfold set_free; rewrite <- Hlast; by destruct (after s (f :: mid))).
    done.
  - destruct (walked_after_free q _ _ Hw2) as (Hw3 & Hp & Hfi).
    { apply Hnext. pose proof (last_busy q s f mid Hm Hns Hlast). done. }
    rewrite Hp, Hfi. done.
Qed.

Lemma sum_none t l : Forall (fun b => bt_type b <> t) l -> sum_of t l = 0.
Proof.
  induction 1 as [|b l Hb _ IH]; [done|]. rewrite sum_of_cons. by case_decide.
Qed.

Lemma merge_apart l1 mid l2 m q :
  0 < q -> tiled q (l1 ++ mid ++ l2) -> pairwise apart (l1 ++ mid ++ l2) ->
  Forall (fun b => bt_type b <> BT_TYPE_SPAN) mid -> mid <> [] ->
  is_free m -> bt_start m = w_pos (after w0 l1) -> bt_size m = total mid ->
  pairwise apart (l1 ++ m :: l2).
Proof.
  intros Hq [Hw _] Hp Hns Hne Hm Hst Hsz.
  assert (Forall (fun x => 0 < bt_size x) (l1 ++ l2)) as Hpos.
  { apply Forall_forall. intros x Hx.
    destruct (walked_seg_ok q w0 (l1 ++ mid ++ l2) x Hw) as [? _]; [set_solver|done]. }
  apply (pairwise_replace l1 mid [m] l2 Hp); [by repeat constructor| |done].
  intros x HF Hx. apply Forall_cons. split; [|constructor]. intros Hsp.
  assert (bt_isspan m = false) as Hms by (unfold bt_isspan; by rewrite Hm).
  rewrite !walked_app in Hw. destruct Hw as (_ & Hw & _).
  destruct (walked_mid q _ mid Hq Hw Hns) as (_ & _ & _ & _ & _ & HA).
  rewrite Hst, Hsz. destruct (HA x HF ltac:(congruence) Hx Hne); [by left|by right].
Qed.

(** The state after freeing [b] and merging its free neighbours [pr] and [nx]. *)
Lemma free_inv vm l1 pr b nx l2 f mid xs :
  vmem_inv vm -> vm_seglist vm = l1 ++ (pr ++ b :: nx) ++ l2 -> pr ++ b :: nx = f :: mid ->
  is_busy b -> Forall is_free pr -> Forall is_free nx -> w_free (after w0 l1) = false ->
  (nx = [] -> forall n, head l2 = Some n -> ~ is_free n) ->
  let m := Bt (bt_id b) (bt_start f) (total (f :: mid)) BT_TYPE_FREE in
  let free := unlinks (nx ++ pr) (vm_freelist vm) in
  let i := order (vm_quantum_shift vm) m in
  free !! i = Some xs ->
  vmem_inv (Vmem (vm_size vm) (wrap (vm_inuse vm - bt_size b)) (vm_quantum vm) (vm_quantum_shift vm)
    (l1 ++ m :: l2) (<[i := bt_id b :: xs]> free) (unlink (bt_id b) (vm_hashlist vm))
    (vm_fresh vm)).
Proof.
  intros I E Ef Hb Hpr Hnx Hf0 Hnext m free i Hxs. pose proof (quantum_pos vm I) as [Hq _].
  destruct I as [I1 I2 I3 I4 I5 I6 I7 I8 I9 I10 I11 I12]. rewrite E in *.
  assert (l1 ++ (pr ++ b :: nx) ++ l2 ≡ₚ b :: (nx ++ pr) ++ l1 ++ l2) as HP0 by solve_Permutation.
  assert (l1 ++ m :: l2 ≡ₚ m :: (l1 ++ l2)) as HP by solve_Permutation.
  assert (forall x, x ∈ pr ++ nx -> is_free x) as Hfree.
  { apply Forall_forall. by apply Forall_app. }
  assert (Forall (fun x => bt_type x <> BT_TYPE_SPAN) (pr ++ b :: nx)) as Hns.
  { apply Forall_forall. intros x Hx HS. destruct (decide (x = b)) as [->|]; [congruence|].
    assert (is_free x) as HF by (apply Hfree; set_solver). congruence. }
  assert (NoDup (ids (b :: (nx ++ pr) ++ l1 ++ l2))) as Hnd by (unfold ids in *; by rewrite <- HP0).
  assert (bt_id b ∉ ids ((nx ++ pr) ++ l1 ++ l2) /\ NoDup (ids ((nx ++ pr) ++ l1 ++ l2)))
    as [Hnb Hnd'] by (by apply NoDup_cons in Hnd).
  split; cbn [vm_size vm_inuse vm_quantum vm_quantum_shift vm_seglist vm_freelist vm_hashlist vm_fresh];
    try done.
  - rewrite Ef in *. apply merge_tiled; try done. intros HB. apply Hnext.
    destruct nx as [|n nx _] using rev_ind; [done|]. exfalso.
    assert (last (f :: mid) = Some n) as HL by (rewrite <- Ef, app_comm_cons, app_assoc; apply last_snoc).
    rewrite last_cons in HL. assert (is_free n) as HF by (apply Hfree; set_solver).
    unfold is_busy, is_free in *. destruct (last mid); cbn in *; congruence.
  - eapply (merge_apart l1 (pr ++ b :: nx) l2 m (vm_quantum vm)); try done; [by destruct pr| |by rewrite Ef].
    destruct I3 as [Hw _]. rewrite Ef in Hw, Hns. rewrite !walked_app in Hw.
    destruct Hw as (_ & Hw & _). apply Forall_cons in Hns as [Hns _]. by apply walked_first in Hw.
  - unfold ids. rewrite HP. rewrite ids_app in Hnb, Hnd'. apply NoDup_app in Hnd' as (_ & _ & Hnd').
    constructor; [set_solver|done].
  - rewrite HP. rewrite HP0 in I6. apply Forall_cons in I6 as [Hb6 I6].
    apply Forall_app in I6 as [_ I6]. by constructor.
  - rewrite length_insert. unfold free. by rewrite length_unlinks.
  - by rewrite length_unlink.
  - eapply listed_perm; [symmetry; exact HP|]. apply (listed_add _ _ _ m); [done|done|].
    apply listed_removes; [done|]. apply (listed_skip _ _ _ b); [unfold is_free; by rewrite Hb|].
    eapply listed_perm; [exact HP0|exact I9].
  - eapply listed_perm; [symmetry; exact HP|]. apply listed_skip; [done|].
    rewrite <- (listed_skips is_busy _ (nx ++ pr)).
    + apply listed_remove; [done|]. eapply listed_perm; [exact HP0|exact I10].
    + apply Forall_forall. intros x Hx HB. assert (is_free x) as HF by (apply Hfree; set_solver). congruence.
  - rewrite I11, !(sum_of_app _ l1), (sum_of_app _ (pr ++ b :: nx)), sum_of_cons.
    by rewrite (sum_none _ (pr ++ b :: nx)).
  - rewrite I12, !sum_of_app, !sum_of_cons, (sum_none _ pr), (sum_none _ nx).
    + unfold wrap, uwrap. rewrite Zminus_mod_idemp_l. cbn [bt_type m]. rewrite Hb.
      repeat case_decide; try done. f_equal. lia.
    + eapply Forall_impl; [exact Hnx|]. intros x Hx. by rewrite Hx.
    + eapply Forall_impl; [exact Hpr|]. intros x Hx. by rewrite Hx.
Qed.
End free.

Section free_correct.
Context `{Arch}.
Implicit Types (vm : vmem) (b : bt) (l : list bt).

Definition freed b (start size : Z) : bt := Bt (bt_id b) start size BT_TYPE_FREE.

Lemma remseg_spec vm l1 b l2 :
  vm_seglist vm = l1 ++ b :: l2 -> NoDup (ids (vm_seglist vm)) ->
  bt_remseg vm (bt_id b) =
    set_lists vm (l1 ++ l2) (vm_freelist vm) (vm_hashlist vm) (vm_inuse vm).
Proof.
  intros E Hnd. unfold bt_remseg. rewrite E in *. destruct (ids_split _ _ _ Hnd) as [_ Hn].
  by rewrite remseg_list.
Qed.

Lemma end_spec b :
  0 <= bt_start b -> 0 < bt_size b -> bt_start b + bt_size b < 2 ^ word_bits ->
  wrap (bt_end b + 1) = bt_start b + bt_size b.
Proof.
  intros. unfold bt_end. rewrite !wrap_small by (unfold in_word; rewrite ?wrap_small by (unfold in_word; lia); lia).
  lia.
Qed.

(** The free neighbour before [b] is merged, if there is one. *)
Lemma coalesce_prev_spec vm l1 b l2 :
  vm_seglist vm = l1 ++ b :: l2 -> NoDup (ids (vm_seglist vm)) -> is_free b ->
  0 < bt_size b -> bt_start b + bt_size b < 2 ^ word_bits ->
  (forall p, last l1 = Some p -> is_free p ->
     0 <= bt_start p /\ 0 < bt_size p /\ bt_start p + bt_size p = bt_start b) ->
  (forall p, last l1 = Some p -> is_free p -> linked (bt_id p) (vm_freelist vm)) ->
  exists l0 pr, l1 = l0 ++ pr /\ Forall is_free pr /\
    (pr = [] -> forall p, last l1 = Some p -> ~ is_free p) /\ (length pr <= 1)%nat /\
    let b' := freed b (bt_start (default b (head pr))) (total pr + bt_size b) in
    coalesce_prev vm b = Ok (b', set_lists vm (l0 ++ b' :: l2) (unlinks pr (vm_freelist vm))
      (vm_hashlist vm) (vm_inuse vm)).
Proof.
  intros E Hnd Hf Hsz Htop Hp Hli. unfold coalesce_prev.
  assert (bt_id b ∉ ids l1) as Hn1.
  { rewrite E in Hnd. destruct (ids_split _ _ _ Hnd) as [_ Hn]. rewrite ids_app in Hn. set_solver. }
  assert (b = freed b (bt_start b) (bt_size b)) as Eb by (unfold freed; rewrite <- Hf; by destruct b).
  assert (set_lists vm (l1 ++ b :: l2) (vm_freelist vm) (vm_hashlist vm) (vm_inuse vm) = vm) as Evm
    by (rewrite <- E; by destruct vm).
  rewrite E, seg_prev_list by done.
  destruct l1 as [|p l0 _] using rev_ind.
  { exists [], []. cbn [from_option head total unlinks foldr app last]. unfold default.
    rewrite Z.add_0_l, <- Eb. cbn in Evm. rewrite Evm. split_and!; try done; cbn; lia. }
  rewrite last_snoc in *. destruct (bool_decide_reflect (bt_type p = BT_TYPE_FREE)) as [Hpf|Hpf].
  - destruct (Hp p eq_refl Hpf) as (P1 & P2 & P3).
    exists l0, [p]. split_and!; try done; [by repeat constructor|]. cbn [from_option head total].
    rewrite end_spec by lia. assert_step lia. unfold bt_remfree.
    assert_step ltac:(by apply bool_decide_eq_true). rewrite on_list_ok by (by apply Hli). cbn [mbind outcome_bind].
    rewrite (remseg_spec _ l0 p (b :: l2)); [|cbn; rewrite E; by rewrite <- app_assoc|done].
    cbn [set_lists vm_freelist vm_hashlist vm_inuse vm_size vm_quantum vm_quantum_shift vm_fresh].
    rewrite (put_tag_spec _ l0 b _ l2); [| done | | done].
    + rewrite Hf, wrap_small by (unfold in_word; lia). unfold freed. cbn.
      by replace (bt_size b + bt_size p) with (bt_size p + 0 + bt_size b) by lia.
    + cbn. rewrite E, <- app_assoc in Hnd. by apply ids_split in Hnd as [? _].
  - exists (l0 ++ [p]), []. rewrite app_nil_r. cbn [from_option head total unlinks foldr].
    rewrite Z.add_0_l, <- Eb, Evm. split_and!; try done; [|cbn; lia]. intros _ ? [= <-]. done.
Qed.

(** The free neighbour after [b] is merged, if there is one. *)
Lemma coalesce_next_spec vm l1 b l2 :
  vm_seglist vm = l1 ++ b :: l2 -> NoDup (ids (vm_seglist vm)) -> is_free b ->
  0 <= bt_start b -> 0 < bt_size b -> bt_start b + bt_size b < 2 ^ word_bits ->
  (forall n, head l2 = Some n -> is_free n ->
     0 < bt_size n /\ bt_start n = bt_start b + bt_size b /\ bt_start n + bt_size n < 2 ^ word_bits) ->
  (forall n, head l2 = Some n -> is_free n -> linked (bt_id n) (vm_freelist vm)) ->
  exists nx l3, l2 = nx ++ l3 /\ Forall is_free nx /\
    (nx = [] -> forall n, head l3 = Some n -> ~ is_free n) /\
    let b' := freed b (bt_start b) (bt_size b + total nx) in
    coalesce_next vm b = Ok (b', set_lists vm (l1 ++ b' :: l3) (unlinks nx (vm_freelist vm))
      (vm_hashlist vm) (vm_inuse vm)).
Proof.
  intros E Hnd Hf H0 Hsz Htop Hn Hli. unfold coalesce_next.
  assert (bt_id b ∉ ids l1) as Hn1.
  { rewrite E in Hnd. destruct (ids_split _ _ _ Hnd) as [_ Hni]. rewrite ids_app in Hni. set_solver. }
  assert (b = freed b (bt_start b) (bt_size b)) as Eb by (unfold freed; rewrite <- Hf; by destruct b).
  assert (set_lists vm (l1 ++ b :: l2) (vm_freelist vm) (vm_hashlist vm) (vm_inuse vm) = vm) as Evm
    by (rewrite <- E; by destruct vm).
  rewrite E, seg_next_list by done.
  destruct l2 as [|n l3].
  { exists [], []. cbn [head total unlinks foldr]. rewrite Z.add_0_r, <- Eb, Evm. split_and!; done. }
  cbn [head] in *. destruct (bool_decide_reflect (bt_type n = BT_TYPE_FREE)) as [Hnf|Hnf].
  - destruct (Hn n eq_refl Hnf) as (P1 & P2 & P3).
    exists [n], l3. split_and!; try done; [by repeat constructor|]. cbn [total].
    rewrite end_spec by lia. assert_step lia. unfold bt_remfree.
    assert_step ltac:(by apply bool_decide_eq_true). rewrite on_list_ok by (by apply Hli). cbn [mbind outcome_bind].
    rewrite (remseg_spec _ (l1 ++ [b]) n l3); [|cbn; rewrite E; by rewrite <- app_assoc|done].
    cbn [set_lists vm_freelist vm_hashlist vm_inuse vm_size vm_quantum vm_quantum_shift vm_fresh].
    rewrite (put_tag_spec _ l1 b _ l3); [|cbn; by rewrite <- app_assoc| |done].
    + rewrite Hf, wrap_small by (unfold in_word; lia). unfold freed. cbn.
      by rewrite Z.add_0_r.
    + cbn. rewrite E, cons_middle, app_assoc in Hnd. by apply ids_split in Hnd as [? _].
  - exists [], (n :: l3). cbn [head total unlinks foldr].
    rewrite Z.add_0_r, <- Eb, Evm. split_and!; try done. intros _ ? [= <-]. done.
Qed.

(** Neighbours in the segment list of a tiled arena are adjacent. *)
Lemma neighbours q l1 b l2 :
  tiled q (l1 ++ b :: l2) -> is_busy b ->
  (forall p, last l1 = Some p -> is_free p ->
     0 <= bt_start p /\ 0 < bt_size p /\ bt_start p + bt_size p = bt_start b) /\
  (forall n, head l2 = Some n -> is_free n ->
     0 < bt_size n /\ bt_start n = bt_start b + bt_size b /\ bt_start n + bt_size n < 2 ^ word_bits).
Proof.
  intros [Hw _] Hb. rewrite walked_app in Hw. destruct Hw as [Hw1 [Hb1 Hw2]].
  apply wok_seg in Hb1 as ((B1 & _ & _ & B2 & B3) & Hst & Hle & _); [|congruence].
  split.
  - intros p Hp Hpf. destruct l1 as [|p' l0 _] using rev_ind; [done|].
    rewrite last_snoc in Hp. assert (p' = p) as -> by congruence.
    rewrite after_app in Hst. rewrite walked_app in Hw1. destruct Hw1 as [_ [Hp1 _]].
    apply wok_seg in Hp1 as ((P1 & _ & _ & P2 & P3) & Hps & _); [|congruence].
    cbn in Hst. unfold wnext in Hst. rewrite Hpf in Hst. cbn in Hst. lia.
  - intros n Hn Hnf. destruct l2 as [|n' l3]; [done|]. cbn in Hn.
    assert (n' = n) as -> by congruence. destruct Hw2 as [Hn1 _].
    apply wok_seg in Hn1 as ((P1 & _ & _ & P2 & P3) & Hns & _); [|congruence].
    unfold wnext in Hns. rewrite Hb in Hns. cbn in Hns. lia.
Qed.

Lemma total_app l1 l2 : total (l1 ++ l2) = total l1 + total l2.
Proof. induction l1; cbn; lia. Qed.

Lemma no_free_before l0 :
  (forall p, last l0 = Some p -> ~ is_free p) -> w_free (after w0 l0) = false.
Proof.
  intros Hn. destruct (w_free (after w0 l0)) eqn:Hw; [|done].
  destruct (decide (l0 = [])) as [->|Hne]; [done|].
  destruct (after_free_last _ _ Hw Hne) as (p & Hp & HF). by destruct (Hn p Hp).
Qed.

(** No free segment precedes a free segment. *)
Lemma no_two_free q l0 pr l2 :
  tiled q (l0 ++ pr ++ l2) -> Forall is_free pr -> (pr = [] -> forall p, last l0 = Some p -> ~ is_free p) ->
  w_free (after w0 l0) = false.
Proof.
  intros [Hw _] Hf Hl. destruct pr as [|p pr]; [by apply no_free_before, Hl|].
  apply Forall_cons in Hf as [Hp _]. rewrite walked_app in Hw. destruct Hw as (_ & Hw & _).
  apply wok_seg in Hw as (_ & _ & _ & Hn); [|congruence].
  destruct (w_free (after w0 l0)); [by destruct Hn|done].
Qed.

Lemma merged_ok vm l0 f mid l3 :
  vmem_inv vm -> vm_seglist vm = l0 ++ (f :: mid) ++ l3 ->
  Forall (fun x => bt_type x <> BT_TYPE_SPAN) (f :: mid) ->
  size_ok vm (total (f :: mid)) /\ 0 <= bt_start f /\ bt_start f + total (f :: mid) < 2 ^ word_bits.
Proof.
  intros I E Hns. pose proof (quantum_pos vm I) as [Hq _]. destruct (vi_tiled _ I) as [Hw _].
  rewrite E, walked_app in Hw. destruct Hw as [Hw1 Hw]. rewrite walked_app in Hw.
  destruct Hw as [Hw _]. pose proof (mid_span_end _ _ _ Hw1 eq_refl) as Hfin.
  destruct (walked_mid _ _ _ Hq Hw Hns) as (_ & _ & _ & A4 & A5 & _).
  specialize (A5 ltac:(done)). pose proof Hns as Hns'. apply Forall_cons in Hns' as [Hf _].
  pose proof (walked_first _ _ _ _ Hw Hf) as Hst.
  destruct (walked_seg_ok _ _ _ f Hw ltac:(set_solver)) as (_ & _ & _ & H0 & _).
  unfold size_ok. split_and!; try done; lia.
Qed.

(** The blocks and spans after [b] and its free neighbours became one free segment. *)
Lemma merge_blocks vm vm' l1 pr b nx l2 m :
  vm_seglist vm = l1 ++ (pr ++ b :: nx) ++ l2 -> vm_seglist vm' = l1 ++ m :: l2 ->
  vmem_inv vm -> is_busy b -> is_free m -> Forall is_free (pr ++ nx) ->
  (forall s n, block vm' s n <-> block vm s n /\ s <> bt_start b) /\
  (forall s n, in_span vm' s n <-> in_span vm s n).
Proof.
  intros E E' I Hb Hm Hf. rewrite Forall_forall in Hf.
  assert (forall x, x ∈ vm_seglist vm <-> x ∈ l1 ++ l2 \/ x ∈ pr ++ nx \/ x = b) as M
    by (intros x; rewrite E; set_solver).
  assert (forall x, x ∈ vm_seglist vm' <-> x ∈ l1 ++ l2 \/ x = m) as M'
    by (intros x; rewrite E'; set_solver).
  assert (b ∉ l1 ++ l2) as Hnin.
  { pose proof (vi_ids _ I) as Hnd. rewrite E in Hnd.
    replace (l1 ++ (pr ++ b :: nx) ++ l2) with ((l1 ++ pr) ++ b :: nx ++ l2) in Hnd
      by (by rewrite <- !app_assoc). destruct (ids_split _ _ _ Hnd) as [_ Hn].
    intros Hin. apply Hn, list_elem_of_fmap_2. set_solver. }
  unfold is_busy, is_free in *. split; intros s n; split.
  - intros (x & Hx & Hxb & <- & <-). apply M' in Hx as [Hx| ->]; [|congruence].
    assert (x ∈ vm_seglist vm) as Hxm by (apply M; by left).
    split; [exists x; done|]. intros Es. apply Hnin.
    rewrite <- (segs_same_start vm x b); try done. apply M. tauto.
  - intros [(x & Hx & Hxb & <- & <-) Hne]. exists x. split; [|done]. apply M'. left.
    apply M in Hx as [Hx|[Hx| ->]]; [done| |done]. apply Hf in Hx. congruence.
  - intros (x & Hx & Hxs & HH). exists x. split; [|done]. apply M' in Hx as [Hx| ->]; [|congruence].
    apply M. by left.
  - intros (x & Hx & Hxs & HH). exists x. split; [|done]. apply M'. left.
    apply M in Hx as [Hx|[Hx| ->]]; [done|apply Hf in Hx; congruence|congruence].
Qed.

Lemma free_finish vm l1 pr b nx l2 f mid :
  vmem_inv vm -> vm_seglist vm = l1 ++ (pr ++ b :: nx) ++ l2 -> pr ++ b :: nx = f :: mid ->
  is_busy b -> Forall is_free pr -> Forall is_free nx -> w_free (after w0 l1) = false ->
  (nx = [] -> forall n, head l2 = Some n -> ~ is_free n) ->
  let m := freed b (bt_start f) (total (f :: mid)) in
  let vm1 := set_lists vm (l1 ++ m :: l2) (unlinks (nx ++ pr) (vm_freelist vm))
    (unlink (bt_id b) (vm_hashlist vm)) (wrap (vm_inuse vm - bt_size b)) in
  exists vm', bt_insfree vm1 m = Ok vm' /\
    vmem_inv vm' /\ vm_quantum vm' = vm_quantum vm /\
    (forall s n, block vm' s n <-> block vm s n /\ s <> bt_start b) /\
    (forall s n, in_span vm' s n <-> in_span vm s n).
Proof.
  intros I E Ef Hb Hpr Hnx Hf0 Hne m vm1.
  assert (Forall (fun x => bt_type x <> BT_TYPE_SPAN) (f :: mid)) as Hns.
  { rewrite <- Ef. apply Forall_app. split; [|constructor; [congruence|]].
    - eapply Forall_impl; [exact Hpr|]. intros x Hx. by rewrite Hx.
    - eapply Forall_impl; [exact Hnx|]. intros x Hx. by rewrite Hx. }
  destruct (merged_ok vm l1 f mid l2 I) as [Hsz _]; [by rewrite <- Ef|done|].
  destruct (freehead_spec vm _ I Hsz) as [Hfh Hr].
  destruct (insfree_spec vm1 m) as (xs & Hxs & ->).
  - done.
  - rewrite (freehead_same vm) by done. done.
  - cbn. rewrite length_unlinks, (vi_nfree _ I). cbn in Hr. lia.
  - eexists. split; [done|]. split; [by apply (free_inv vm l1 pr b nx l2 f mid xs)|]. split; [done|].
    by apply (merge_blocks vm _ l1 pr b nx l2 m); [..|apply Forall_app].
Qed.

(** The tail of [vmem_free], from the segment [b] of a good arena found busy. *)
Lemma free_code vm l1 b l2 :
  vmem_inv vm -> vm_seglist vm = l1 ++ b :: l2 -> is_busy b ->
  let vm1 := set_lists vm (l1 ++ freed b (bt_start b) (bt_size b) :: l2) (vm_freelist vm)
    (unlink (bt_id b) (vm_hashlist vm)) (wrap (vm_inuse vm - bt_size b)) in
  exists vm', ('(b, vm) ← coalesce_prev vm1 (freed b (bt_start b) (bt_size b));
     '(b, vm) ← coalesce_next vm b; bt_insfree vm b) = Ok vm' /\
    vmem_inv vm' /\ vm_quantum vm' = vm_quantum vm /\
    (forall s n, block vm' s n <-> block vm s n /\ s <> bt_start b) /\
    (forall s n, in_span vm' s n <-> in_span vm s n).
Proof.
  intros I E Hb vm1. set (bf := freed b (bt_start b) (bt_size b)) in *.
  pose proof (vi_ids _ I) as Hnd. pose proof (vi_tiled _ I) as Ht. rewrite E in Hnd, Ht.
  destruct (neighbours _ _ _ _ Ht Hb) as [Hp Hn].
  assert (b ∈ vm_seglist vm) as Hbin by (rewrite E; set_solver).
  destruct (walked_seg_ok _ _ _ b (proj1 (vi_tiled _ I)) Hbin) as (B1 & _ & _ & B2 & B3).
  assert (NoDup (ids (l1 ++ bf :: l2))) as Hnd1.
  { unfold ids in *. rewrite fmap_app in *. done. }
  destruct (coalesce_prev_spec vm1 l1 bf l2 eq_refl Hnd1 eq_refl B1 B3 Hp)
    as (l0 & pr & -> & Hpr & Hpe & Hpl & ->).
  { intros p Hl Hpf. apply (free_linked vm); try done. rewrite E. apply last_Some in Hl as [l' ->]. set_solver. }
  cbn [mbind outcome_bind].
  set (b1 := freed bf _ _). set (vm2 := set_lists vm1 _ _ _ _).
  assert (exists f mid0, pr ++ [b] = f :: mid0 /\ bt_start f = bt_start b1 /\ total (f :: mid0) = bt_size b1)
    as (f & mid0 & Ef & Efs & Eft).
  { destruct pr as [|p [|]]; cbn in *; [exists b, []|exists p, [b]|lia]; cbn; split_and!; try done; lia. }
  assert (Forall (fun x => bt_type x <> BT_TYPE_SPAN) (pr ++ [b])) as Hns.
  { apply Forall_app. split; [|repeat constructor; congruence].
    eapply Forall_impl; [exact Hpr|]. intros x Hx. by rewrite Hx. }
  assert (l0 ++ pr ++ b :: l2 = l0 ++ (f :: mid0) ++ l2) as El by (by rewrite <- Ef, <- app_assoc).
  rewrite <- app_assoc in E, Ht, Hnd. rewrite Ef in Hns.
  destruct (merged_ok vm l0 f mid0 l2 I) as (Hs1 & Hs2 & Hs3); [by rewrite E|done|].
  rewrite Efs, Eft in *. destruct Hs1 as [Hs1 _].
  assert (NoDup (ids (l0 ++ b1 :: l2))) as Hnd2.
  { unfold ids in *. rewrite !fmap_app in *. cbn in *. apply NoDup_app in Hnd as (N1 & N2 & N3).
    apply NoDup_app in N3 as (_ & _ & N3). apply NoDup_app. split_and!; try done. set_solver. }
  destruct (coalesce_next_spec vm2 l0 b1 l2 eq_refl Hnd2 eq_refl Hs2 ltac:(lia) Hs3)
    as (nx & l3 & -> & Hnx & Hne & ->).
  { intros n H1 H2. destruct (Hn n H1 H2) as (N1 & N2 & N3). split_and!; try done. rewrite N2.
    destruct pr as [|p [|]]; cbn in *; [lia| |lia]. destruct (Hp p) as (? & ? & ?); try lia.
    - by rewrite last_snoc.
    - by apply Forall_cons in Hpr as [? _]. }
  { intros n H1 H2. destruct l2 as [|n' l2]; [done|]. injection H1 as ->. apply linked_unlinks; [apply (free_linked vm); try done; rewrite E; set_solver|].
    intros Hin. rewrite !ids_app in Hnd. cbn in Hnd. apply NoDup_app in Hnd as (_ & _ & Hnd). apply NoDup_app in Hnd as (_ & Hd & _). apply (Hd _ Hin). set_solver. }
  cbn [mbind outcome_bind].
  assert (unlinks nx (vm_freelist vm2) = unlinks (nx ++ pr) (vm_freelist vm)) as ->
    by (unfold unlinks; by rewrite foldr_app).
  assert (freed b1 (bt_start b1) (bt_size b1 + total nx)
    = freed b (bt_start f) (total (f :: mid0 ++ nx))) as ->.
  { unfold freed. rewrite <- Eft, <- Efs, app_comm_cons, total_app. done. }
  apply (free_finish vm l0 pr b nx l3 f (mid0 ++ nx)); try done.
  - rewrite E. by rewrite <- !app_assoc.
  - by rewrite app_comm_cons, <- Ef, <- app_assoc.
  - apply (no_two_free (vm_quantum vm) l0 pr (b :: nx ++ l3)); try done.
    intros ->. by rewrite app_nil_r in Hpe; apply Hpe.
Qed.

Lemma free_spec vm a n size :
  vmem_inv vm -> block vm a n -> 0 < size -> ceil_to size (vm_quantum vm) = n ->
  exists vm', vmem_free vm a size = Ok vm' /\ vmem_inv vm' /\ vm_quantum vm' = vm_quantum vm /\
    (forall s m, block vm' s m <-> block vm s m /\ s <> a) /\
    (forall s m, in_span vm' s m <-> in_span vm s m).
Proof.
  intros I (b & Hb & Hbusy & <- & <-) Hs Hsz. unfold vmem_free.
  rewrite (lookupbusy_spec vm b) by done. cbn [mbind outcome_bind].
  destruct (seg_size_ok vm b I Hb) as [Hbs _].
  destruct (alloc_size vm size I Hs) as [-> _]; [lia|]. assert_step lia.
  unfold bt_rembusy. assert_step ltac:(by apply bool_decide_eq_true).
  rewrite on_list_ok by (by apply busy_linked). cbn [mbind outcome_bind].
  pose proof Hb as Hb'. apply list_elem_of_split in Hb' as (l1 & l2 & E).
  rewrite (put_tag_spec _ l1 b _ l2); [|done|apply (vi_ids _ I)|done].
  by apply free_code.
Qed.

(** C24: Freeing a block in use of an arena in a good state, with a size that rounds to
    the block's, never faults.  Exactly this block leaves the blocks in use, the spans
    are as before, and the arena is again in a good state: the block is merged with its
    free neighbours, so no two free segments are adjacent. *)
Theorem vmem_free_correct vm a n size :
  vmem_inv vm -> block vm a n -> 0 < size -> ceil_to size (vm_quantum vm) = n ->
  exists vm', vmem_free vm a size = Ok vm' /\ vmem_inv vm' /\ vm_quantum vm' = vm_quantum vm /\
    (forall s m, block vm' s m <-> block vm s m /\ s <> a) /\
    (forall s m, in_span vm' s m <-> in_span vm s m).
Proof. exact (free_spec vm a n size). Qed.
End free_correct.

(** ** Creating, growing and destroying an arena *)

Section lifecycle.
Context `{Arch}.
Implicit Types (vm : vmem) (b : bt) (l : list bt).

Lemma create_inv k fresh :
  0 <= k < word_bits ->
  exists vm, vmem_create (2 ^ k) fresh = Ok vm /\ vmem_inv vm /\ vm_seglist vm = [] /\
    vm_quantum vm = 2 ^ k /\ vm_fresh vm = fresh.
Proof.
  intros Hk. unfold vmem_create, SIZE2ORDER, ORDER2SIZE.
  assert (0 < 2 ^ k < 2 ^ word_bits) as Hq.
  { split; [apply Z.pow_pos_nonneg; lia|apply Z.pow_lt_mono_r; lia]. }
  rewrite Z.log2_pow2 by lia. assert_step lia.
  rewrite Z.shiftl_1_l. assert_step lia.
  eexists. split; [done|]. split_and!; try done.
  split; cbn [vm_size vm_inuse vm_quantum vm_quantum_shift vm_seglist vm_freelist vm_hashlist vm_fresh];
    try done; try (by apply length_replicate); try (by constructor).
  all: intros i xs id Hi; apply lookup_replicate in Hi as [-> _]; set_solver.
Qed.

(** A span appended to a complete tiling. *)
Lemma add_tiled q l a n i j :
  tiled q l -> seg_ok q (Bt i a n BT_TYPE_SPAN) ->
  tiled q (l ++ [Bt i a n BT_TYPE_SPAN; Bt j a n BT_TYPE_FREE]).
Proof.
  intros [Hw He] Hok. unfold tiled. rewrite walked_app, after_app. cbn.
  split_and!; try done.
  apply wok_seg; [done|]. cbn. split_and!; try done; lia.
Qed.

Lemma add_apart vm a n i j :
  vmem_inv vm -> 0 < n ->
  (forall s m, 0 < m -> in_span vm s m -> s + m <= a \/ a + n <= s) ->
  pairwise apart (vm_seglist vm ++ [Bt i a n BT_TYPE_SPAN; Bt j a n BT_TYPE_FREE]).
Proof.
  intros I Hn Hdis. rewrite pairwise_app. split_and!; [apply (vi_apart _ I)|by cbn; repeat constructor|].
  apply Forall_forall. intros x Hx. destruct (seg_size_ok vm x I Hx) as [Hs _].
  destruct (decide (bt_type x = BT_TYPE_SPAN)) as [E|E].
  - destruct (Hdis (bt_start x) (bt_size x) ltac:(lia)) as [Hd|Hd]; [exists x; split_and!; done| |];
      repeat constructor; unfold apart; cbn; lia.
  - destruct (Hdis (bt_start x) (bt_size x) ltac:(lia)) as [Hd|Hd]; [by apply seg_in_span| |];
      repeat constructor; unfold apart; cbn; lia.
Qed.

Lemma add_inv vm a n xs :
  let sp := Bt (vm_fresh vm) a n BT_TYPE_SPAN in
  let fr := Bt (vm_fresh vm + 1) a n BT_TYPE_FREE in
  let i := order (vm_quantum_shift vm) fr in
  vmem_inv vm -> seg_ok (vm_quantum vm) sp ->
  (forall s m, 0 < m -> in_span vm s m -> s + m <= a \/ a + n <= s) ->
  vm_freelist vm !! i = Some xs ->
  vmem_inv (Vmem (wrap (vm_size vm + n)) (vm_inuse vm) (vm_quantum vm) (vm_quantum_shift vm)
    (vm_seglist vm ++ [sp; fr]) (<[i := bt_id fr :: xs]> (vm_freelist vm)) (vm_hashlist vm)
    (vm_fresh vm + 2)).
Proof.
  intros sp fr i I Hok Hdis Hxs.
  pose proof (add_apart vm a n (vm_fresh vm) (vm_fresh vm + 1) I (proj1 Hok) Hdis) as Hap.
  destruct I as [I1 I2 I3 I4 I5 I6 I7 I8 I9 I10 I11 I12].
  assert (vm_seglist vm ++ [sp; fr] ≡ₚ fr :: sp :: vm_seglist vm) as HP by solve_Permutation.
  assert (forall x, x ∈ vm_seglist vm -> bt_id x < vm_fresh vm) as Hfr
    by (rewrite Forall_forall in I6; done).
  assert (forall k, vm_fresh vm <= k -> k ∉ ids (vm_seglist vm)) as Hnew.
  { intros k Hk Hin. apply list_elem_of_fmap in Hin as (x & -> & Hx). apply Hfr in Hx. lia. }
  split; cbn [vm_size vm_inuse vm_quantum vm_quantum_shift vm_seglist vm_freelist vm_hashlist vm_fresh];
    try done.
  - by apply add_tiled.
  - unfold ids. rewrite HP. cbn. rewrite !NoDup_cons, not_elem_of_cons.
    split_and!; try done; [lia|apply Hnew; lia|apply Hnew; lia].
  - rewrite HP. repeat constructor; cbn; try lia. eapply Forall_impl; [exact I6|]. cbn. lia.
  - by rewrite length_insert.
  - eapply listed_perm; [symmetry; exact HP|]. apply (listed_add _ _ _ fr); [done|done|].
    by apply listed_skip.
  - eapply listed_perm; [symmetry; exact HP|]. apply listed_skip; [done|]. by apply listed_skip.
  - rewrite I11, sum_of_app, !sum_of_cons. cbn [sp fr bt_type bt_size].
    rewrite decide_True, decide_False by done. cbn [sum_of foldr].
    unfold wrap, uwrap. rewrite Zplus_mod_idemp_l. f_equal. lia.
  - rewrite I12, sum_of_app, !sum_of_cons. cbn [sp fr bt_type bt_size].
    rewrite !decide_False by done. cbn [sum_of foldr]. f_equal. lia.
Qed.

Lemma add_spec vm a n :
  let q := vm_quantum vm in
  vmem_inv vm -> 0 < n -> n `mod` q = 0 -> a `mod` q = 0 -> 0 <= a -> a + n < 2 ^ word_bits ->
  (forall s m, 0 < m -> in_span vm s m -> s + m <= a \/ a + n <= s) ->
  exists vm', vmem_add vm a n = Ok vm' /\ vmem_inv vm' /\ vm_quantum vm' = vm_quantum vm /\
    (forall s m, block vm' s m <-> block vm s m) /\
    (forall s m, in_span vm' s m <-> in_span vm s m \/ (a <= s /\ s + m <= a + n)).
Proof.
  intros q I Hn Hnq Haq Ha Htop Hdis. unfold vmem_add.
  set (sp := Bt (vm_fresh vm) a n BT_TYPE_SPAN). set (fr := Bt (vm_fresh vm + 1) a n BT_TYPE_FREE).
  pose proof (vi_fresh _ I) as Hfr. rewrite Forall_forall in Hfr.
  rewrite (insseg_after_spec _ (vm_seglist vm) sp fr []); [| done |].
  2:{ intros Hin. apply list_elem_of_fmap in Hin as (x & Ex & Hx). apply Hfr in Hx. cbn in Ex. lia. }
  assert (size_ok vm n) as Hsz by (split; [lia|done]).
  destruct (freehead_spec vm n I Hsz) as [Hfh Hr].
  match goal with |- context [bt_insfree ?v fr] => destruct (insfree_spec v fr) as (xs & Hxs & ->) end.
  { done. } { by rewrite (freehead_same vm) by done. }
  { cbn. rewrite (vi_nfree _ I). cbn in Hr. lia. }
  cbn [mbind outcome_bind]. eexists. split; [done|]. cbn in Hxs.
  assert (seg_ok (vm_quantum vm) sp) as Hok by (by unfold seg_ok; cbn; split_and!).
  split; [by apply (add_inv vm a n xs)|]. split; [done|].
  assert (forall P, (exists b, b ∈ vm_seglist vm ++ [sp; fr] /\ P b) <->
    (exists b, b ∈ vm_seglist vm /\ P b) \/ P sp \/ P fr) as Hex.
  { intros P. setoid_rewrite elem_of_app. setoid_rewrite elem_of_cons.
    setoid_rewrite list_elem_of_singleton. naive_solver. }
  split; intros s m; [unfold block|unfold in_span]; cbn; rewrite Hex; unfold is_busy; cbn;
    intuition congruence.
Qed.

(** A span that is aligned, ends below the last address and overlaps no span of the
    arena can be added.  The arena stays in a good state, no block in use changes, and
    the spans afterwards are those from before and the new one, all of it free. *)
Theorem vmem_add_correct vm a n :
  let q := vm_quantum vm in
  vmem_inv vm -> 0 < n -> n `mod` q = 0 -> a `mod` q = 0 -> 0 <= a -> a + n < 2 ^ word_bits ->
  (forall s m, 0 < m -> in_span vm s m -> s + m <= a \/ a + n <= s) ->
  exists vm', vmem_add vm a n = Ok vm' /\ vmem_inv vm' /\ vm_quantum vm' = vm_quantum vm /\
    (forall s m, block vm' s m <-> block vm s m) /\
    (forall s m, in_span vm' s m <-> in_span vm s m \/ (a <= s /\ s + m <= a + n)).
Proof. exact (add_spec vm a n). Qed.

(** The checks of [VMEM_DEBUG] hold in a good state. *)
Theorem inv_sane vm : vmem_inv vm -> vmem_check_sanity vm = true.
Proof.
  intros I. pose proof (quantum_pos vm I) as [Hq _]. unfold vmem_check_sanity.
  assert (forall x, x ∈ vm_seglist vm -> bt_end x = bt_start x + bt_size x - 1 /\ seg_ok (vm_quantum vm) x)
    as Hok.
  { intros x Hx. pose proof (walked_seg_ok _ _ _ x (proj1 (vi_tiled _ I)) Hx) as Hx1.
    split; [|done]. destruct Hx1 as (? & _ & _ & ? & ?). unfold bt_end.
    apply wrap_small. unfold in_word. lia. }
  apply andb_true_intro. split; apply forallb_forall; intros x Hx; apply list_elem_of_In in Hx;
    destruct (Hok x Hx) as [Ex (X1 & X2 & X3 & X4 & X5)].
  - rewrite Ex. rewrite (vi_quantum _ I) in *. pose proof (vi_shift _ I).
    rewrite (proj2 (is_aligned_pow2 _ (vm_quantum_shift vm) ltac:(lia)) X3).
    destruct (Z.leb_spec (2 ^ vm_quantum_shift vm) (bt_size x)) as [_|Hlt]; [lia|].
    rewrite Z.mod_small in X2; lia.
  - apply forallb_forall. intros y Hy. apply list_elem_of_In in Hy.
    destruct (Hok y Hy) as [Ey (Y1 & _)]. rewrite Ex, Ey.
    destruct (pairwise_elem _ _ _ _ apart_sym (vi_apart _ I) Hx Hy) as [->|Ha].
    + by rewrite bool_decide_true.
    + unfold apart in Ha. destruct (bt_isspan x), (bt_isspan y); cbn; rewrite ?orb_true_r; try done;
        destruct (Ha eq_refl); rewrite orb_false_r; apply orb_true_iff; lia.
Qed.

(** Without busy segments, every span is followed by one free segment that fills it. *)
Lemma destroy_walk q l : forall s prev,
  walked q s l -> w_pos s = w_fin s -> w_pos (after s l) = w_fin (after s l) ->
  Forall (fun b => ~ is_busy b) l -> (forall p, prev = Some p -> is_free p) ->
  destroy_check prev l = Ok tt.
Proof.
  induction l as [l IH] using (well_founded_induction (well_founded_ltof _ length)).
  intros s prev Hw Hs He Hnb Hp. destruct l as [|x l]; [done|].
  destruct Hw as [[Hx Hxt] Hw]. apply Forall_cons in Hnb as [Hxb Hnb]. destruct Hx as [Hx _].
  assert (bt_type x = BT_TYPE_SPAN) as Ex.
  { unfold is_busy in Hxb. destruct (bt_type x); [lia|done|done]. }
  assert (wnext x s = Wst (bt_start x) (bt_start x + bt_size x) false) as En
    by (unfold wnext; by rewrite Ex).
  cbn [after] in He. rewrite En in *. destruct l as [|y l]; [cbn in He; lia|].
  destruct Hw as [[Hy Hyt] Hw]. apply Forall_cons in Hnb as [Hyb Hnb]. destruct Hy as [Hy _].
  unfold is_busy in Hyb. cbn in Hyt.
  destruct (bt_type y) eqn:Ey; [|done|lia]. destruct Hyt as (Hy1 & Hy2 & _).
  assert (wnext y (Wst (bt_start x) (bt_start x + bt_size x) false)
    = Wst (bt_start x + bt_size y) (bt_start x + bt_size x) true) as En'
    by (unfold wnext; by rewrite Ey).
  cbn [after] in He. rewrite En' in *.
  assert (bt_size y = bt_size x) as Esz.
  { destruct l as [|z l]; [cbn in He; lia|]. destruct Hw as [[_ Hz] _].
    apply Forall_cons in Hnb as [Hzb _]. unfold is_busy in Hzb.
    destruct (bt_type z); cbn in Hz; [|done|lia]. by destruct Hz as (_ & _ & []). }
  assert (destroy_check (Some y) l = Ok tt) as Hrest.
  { eapply (IH l); [unfold ltof; cbn; lia|exact Hw|cbn; lia|exact He|exact Hnb|].
    by intros ? [= <-]. }
  cbn [destroy_check]. rewrite Ex, Ey, Esz, Hy1. cbn [w_pos]. rewrite !Z.eqb_refl. cbn.
  destruct prev as [p|]; [|done]. by rewrite (Hp p eq_refl).
Qed.

Lemma span_sum_spec l : forall n,
  Forall (fun b => ~ is_busy b) l -> span_sum l (wrap n) = Ok (wrap (n + sum_of BT_TYPE_SPAN l)).
Proof.
  induction l as [|x l IH]; intros n Hnb; cbn [span_sum].
  { cbn. by rewrite Z.add_0_r. }
  apply Forall_cons in Hnb as [Hx Hnb]. unfold is_busy in Hx. rewrite sum_of_cons. unfold bt_isspan.
  destruct (bt_type x) eqn:Ex; [|done|].
  - rewrite bool_decide_false, bool_decide_true, decide_False by done. cbn -[wrap sum_of].
    by rewrite IH.
  - rewrite bool_decide_true, decide_True by done. cbn -[wrap sum_of].
    assert (wrap (wrap n + bt_size x) = wrap (n + bt_size x)) as ->
      by (unfold wrap, uwrap; by rewrite Zplus_mod_idemp_l).
    rewrite IH by done. f_equal. f_equal. lia.
Qed.

Lemma span_sum_busy l : forall n r, span_sum l n = Ok r -> Forall (fun b => ~ is_busy b) l.
Proof.
  induction l as [|x l IH]; intros n r Hs; [constructor|]. cbn [span_sum] in Hs.
  unfold is_busy. destruct (bt_type x) eqn:Ex; [|done|];
    apply bind_ok in Hs as (? & _ & Hs); (constructor; [unfold is_busy; congruence|by eapply IH]).
Qed.

(** The checks of [vmem_destroy] succeed exactly when the arena has a span and no
    block is in use: freeing every block is sufficient to destroy an arena, since freed
    blocks are always merged back to whole spans, and destroying an arena with a block
    in use is detected. *)
Theorem vmem_destroy_correct vm :
  vmem_inv vm ->
  vmem_destroy vm = Ok tt <->
  (exists s m, 0 < m /\ in_span vm s m) /\ (forall s m, ~ block vm s m).
Proof.
  intros I. unfold vmem_destroy. pose proof (vi_tiled _ I) as [Hw He].
  assert (Forall (fun b => ~ is_busy b) (vm_seglist vm) <-> forall s m, ~ block vm s m) as Hnb.
  { rewrite Forall_forall. unfold block. split.
    - intros HF s m (b & Hb & Hbusy & _). by apply (HF b).
    - intros HF b Hb Hbusy. apply (HF (bt_start b) (bt_size b)). eauto. }
  split.
  - destruct (vm_seglist vm) as [|x l] eqn:E; [done|]. cbn [assert mbind outcome_bind].
    destruct (span_sum (x :: l) 0) as [sum|] eqn:Es; [|done]. intros _.
    apply span_sum_busy in Es. split; [|by apply Hnb].
    destruct Hw as [[(H1 & _) Hx] _]. apply Forall_cons in Es as [Hx' _]. unfold is_busy in Hx'.
    exists (bt_start x), (bt_size x). split; [done|]. exists x. rewrite E.
    split; [set_solver|]. split; [|lia]. destruct (bt_type x); [cbn in Hx; lia|done|done].
  - intros [(s & m & Hm & sp & Hsp & _) Hno]. apply Hnb in Hno.
    assert (span_sum (vm_seglist vm) 0 = Ok (vm_size vm)) as Hsum.
    { pose proof (span_sum_spec _ 0 Hno) as HS. rewrite wrap_small, Z.add_0_l in HS.
      - by rewrite (vi_size _ I).
      - unfold in_word. pose proof word_size_pos. lia. }
    rewrite Hsum. cbn [mbind outcome_bind].
    assert (vm_inuse vm = 0) as ->.
    { rewrite (vi_inuse _ I), sum_none by done. apply wrap_small. unfold in_word.
      pose proof word_size_pos. lia. }
    rewrite !Z.eqb_refl, (destroy_walk _ _ _ None Hw eq_refl He Hno) by done.
    destruct (vm_seglist vm); [by apply not_elem_of_nil in Hsp|reflexivity].
Qed.
End lifecycle.

(** ** Samples *)

(** An arena with a quantum of a page and one span, and the same after allocating two
    pages. *)
Lemma sample_arena : exists vm,
  vmem_inv (H := mips) vm /\ vm_quantum vm = 4096 /\ in_span vm 65536 65536 /\
  (forall s m, ~ block vm s m) /\ (forall s m, 0 < m -> in_span vm s m -> s + m <= 131072).
Proof.
  destruct (create_inv (H := mips) 12 7) as (vm0 & _ & I0 & Hsegs & Hq & _); [done|].
  change (2 ^ 12) with 4096 in Hq.
  assert (forall s m, ~ in_span vm0 s m) as H0
    by (unfold in_span; rewrite Hsegs; intros s m (b & Hb & _); by apply not_elem_of_nil in Hb).
  destruct (add_spec (H := mips) vm0 65536 65536) as (vm & Hvm & I & Hq' & Hblock & Hspan);
    rewrite ?Hq; try done.
  { intros s m _ Hs. by apply H0 in Hs. }
  exists vm. split_and!; [done|congruence|apply Hspan; right; lia| |].
  - intros s m Hb. apply Hblock in Hb as (b & Hb & _). rewrite Hsegs in Hb.
    by apply not_elem_of_nil in Hb.
  - intros s m Hm Hs. apply Hspan in Hs as [Hs|Hs]; [by apply H0 in Hs|lia].
Qed.

Lemma sample_block : exists vm a,
  vmem_inv (H := mips) vm /\ vm_quantum vm = 4096 /\ block vm a 8192.
Proof.
  destruct sample_arena as (vm & I & Hq & Hspan & Hno & _).
  destruct (alloc_spec (H := mips) vm 5000 I) as [[_ Hfull]|(a & vm' & _ & HR)];
    [done|by rewrite Hq| |].
  - rewrite Hq in Hfull. destruct (Hfull 65536) as (x & s & m & _ & Hb & _).
    + destruct Hspan as (b & ? & ? & ? & ?). exists b.
      change (ceil_to 5000 4096) with 8192. split_and!; try done. lia.
    + by apply Hno in Hb.
  - rewrite Hq in HR. exists vm', a. split_and!; [apply (ar_inv _ _ _ _ HR)|by rewrite (ar_quantum _ _ _ _ HR)|].
    apply (ar_blocks _ _ _ _ HR). by right.
Qed.

Lemma vmem_alloc_correct_witness : exists vm,
  let sz := ceil_to 5000 (vm_quantum vm) in
  let no_run := forall a, in_span vm a sz -> exists x s m, a <= x < a + sz /\ block vm s m /\ s <= x < s + m in
  (vmem_alloc (H := mips) vm 5000 true = Ok (ENOMEM, 0, vm) /\ (true = false \/ no_run)) \/
  (true = true /\ exists a vm', vmem_alloc (H := mips) vm 5000 true = Ok (0, a, vm') /\
     alloc_result (H := mips) vm sz a vm').
Proof.
  destruct sample_arena as (vm & I & Hq & _). exists vm.
  apply (vmem_alloc_correct (H := mips) vm 5000 true); [done|done|by rewrite Hq].
Defined.

Lemma vmem_free_correct_witness : exists vm a vm',
  vmem_free (H := mips) vm a 5000 = Ok vm' /\ vmem_inv (H := mips) vm' /\ ~ block vm' a 8192.
Proof.
  destruct sample_block as (vm & a & I & Hq & Hb). exists vm, a.
  destruct (vmem_free_correct (H := mips) vm a 8192 5000) as (vm' & E & I' & _ & Hb' & _);
    [done|done|done|by rewrite Hq|].
  exists vm'. split_and!; try done. rewrite Hb'. tauto.
Defined.

Lemma vmem_add_correct_witness : exists vm vm',
  vmem_add (H := mips) vm 131072 4096 = Ok vm' /\ vmem_inv (H := mips) vm' /\
  in_span vm' 131072 4096.
Proof.
  destruct sample_arena as (vm & I & Hq & _ & _ & Htop). exists vm.
  destruct (vmem_add_correct (H := mips) vm 131072 4096) as (vm' & E & I' & _ & _ & Hs);
    [done|done|by rewrite Hq|by rewrite Hq|done|done| |].
  - intros s m Hm Hin. left. by apply Htop.
  - exists vm'. split_and!; try done. apply Hs. right. lia.
Defined.

Lemma vmem_destroy_correct_witness : exists vm vm2 a,
  vmem_destroy (H := mips) vm = Ok tt /\ block vm2 a 8192 /\
  vmem_destroy (H := mips) vm2 <> Ok tt.
Proof.
  destruct sample_arena as (vm & I & Hq & Hs & Hno & _).
  destruct sample_block as (vm2 & a & I2 & Hq2 & Hb2). exists vm, vm2, a. split_and!; [|done|].
  - apply (vmem_destroy_correct (H := mips) vm I). split; [|done]. by exists 65536, 65536.
  - intros E. apply (vmem_destroy_correct (H := mips) vm2 I2) in E as [_ E]. by apply E in Hb2.
Defined.
