(* ===== verification/Time.v ===== *)
(** * Representations of time (include/sys/time.h, sys/kern/time.c)

    Three formats of time and the arithmetic on them, the conversion of an interval to
    clock ticks, the conversion of a calendar date to seconds, and [clock_nanosleep].
    The results: the arithmetic is exact; an interval becomes the number of ticks that
    surely covers it; the date conversion is right outside a known set of dates; and
    [clock_nanosleep] gives back what is left of the interval. *)

From S2P Require Import Prelude.

Definition CLK_TCK : Z := 1000.
Definition UINT_MAX : Z := 2 ^ 32 - 1.

(** [time_t] is a 64-bit signed integer and [frac] a 64-bit unsigned one. *)
Record bintime_t := Bintime { sec : Z; frac : Z }.
Record timeval_t := Timeval { tv_sec : Z; tv_usec : Z }.
Record timespec_t := Timespec { ts_sec : Z; ts_nsec : Z }.

#[export] Instance bintime_eq_dec : EqDecision bintime_t.
Proof. solve_decision. Defined.
#[export] Instance timeval_eq_dec : EqDecision timeval_t.
Proof. solve_decision. Defined.
#[export] Instance timespec_eq_dec : EqDecision timespec_t.
Proof. solve_decision. Defined.

(** ** Arithmetic on bintimes *)

Definition bintime_cmp (cmp : Z -> Z -> bool) (a b : bintime_t) : bool :=
  if sec a =? sec b then cmp (frac a) (frac b) else cmp (sec a) (sec b).

Definition bintime_isset (bt : bintime_t) : bool := negb (sec bt =? 0) || negb (frac bt =? 0).

Definition bintime_add_frac (bt : bintime_t) (x : Z) : bintime_t :=
  let old_frac := frac bt in
  let f := uwrap 64 (frac bt + x) in
  if f <? old_frac then Bintime (swrap 64 (sec bt + 1)) f else Bintime (sec bt) f.

Definition bintime_add (bt bt2 : bintime_t) : bintime_t :=
  let bt := bintime_add_frac bt (frac bt2) in
  Bintime (swrap 64 (sec bt + sec bt2)) (frac bt).

Definition bintime_sub (bt bt2 : bintime_t) : bintime_t :=
  let old_frac := frac bt in
  let f := uwrap 64 (frac bt - frac bt2) in
  let s := if old_frac <? f then swrap 64 (sec bt - 1) else sec bt in
  Bintime (swrap 64 (s - sec bt2)) f.

(** [x] is a 32-bit unsigned integer. *)
Definition bintime_mul (bt : bintime_t) (x : Z) : bintime_t :=
  let p1 := uwrap 64 (Z.land (frac bt) 0xffffffff * x) in
  let p2 := uwrap 64 (Z.shiftr (frac bt) 32 * x + Z.shiftr p1 32) in
  Bintime (swrap 64 (sec bt * x + Z.shiftr p2 32))
    (Z.lor (uwrap 64 (Z.shiftl p2 32)) (Z.land p1 0xffffffff)).

(** ** Conversions *)

Definition HZ2BT (hz : Z) : bintime_t := Bintime 0 (uwrap 64 (Z.shiftl (2 ^ 63 / hz) 1)).

(** [systime_t] is a 32-bit unsigned integer. *)
Definition bt2st (bt : bintime_t) : Z :=
  uwrap 32 (sec bt * CLK_TCK + Z.shiftr (CLK_TCK * Z.shiftr (frac bt) 32) 32).

Definition bt2ts (bt : bintime_t) : timespec_t :=
  Timespec (sec bt) (Z.shiftr (1000000000 * Z.shiftr (frac bt) 32) 32).

Definition bt2tv (bt : bintime_t) : timeval_t :=
  Timeval (sec bt) (Z.shiftr (1000000 * Z.shiftr (frac bt) 32) 32).

Definition tv2ts (tv : timeval_t) : timespec_t := Timespec (tv_sec tv) (tv_usec tv * 1000).

(** ** Arithmetic on timevals and timespecs *)

Definition timerisset (tv : timeval_t) : bool := negb (tv_sec tv =? 0) || negb (tv_usec tv =? 0).

Definition timercmp (cmp : Z -> Z -> bool) (t u : timeval_t) : bool :=
  if tv_sec t =? tv_sec u then cmp (tv_usec t) (tv_usec u) else cmp (tv_sec t) (tv_sec u).

Definition timeradd (t u : timeval_t) : timeval_t :=
  let s := swrap 64 (tv_sec t + tv_sec u) in
  let us := tv_usec t + tv_usec u in
  if 1000000 <=? us then Timeval (swrap 64 (s + 1)) (us - 1000000) else Timeval s us.

Definition timersub (t u : timeval_t) : timeval_t :=
  let s := swrap 64 (tv_sec t - tv_sec u) in
  let us := tv_usec t - tv_usec u in
  if us <? 0 then Timeval (swrap 64 (s - 1)) (us + 1000000) else Timeval s us.

Definition timespecadd (t u : timespec_t) : timespec_t :=
  let s := swrap 64 (ts_sec t + ts_sec u) in
  let ns := ts_nsec t + ts_nsec u in
  if 1000000000 <=? ns then Timespec (swrap 64 (s + 1)) (ns - 1000000000) else Timespec s ns.

Definition timespecsub (t u : timespec_t) : timespec_t :=
  let s := swrap 64 (ts_sec t - ts_sec u) in
  let ns := ts_nsec t - ts_nsec u in
  if ns <? 0 then Timespec (swrap 64 (s - 1)) (ns + 1000000000) else Timespec s ns.

Definition timespecclear : timespec_t := Timespec 0 0.
Definition timerclear : timeval_t := Timeval 0 0.

(** ** Intervals in clock ticks *)

Definition ts2hz (ts : timespec_t) : Z :=
  if (ts_sec ts <? 0) || ((ts_sec ts =? 0) && (ts_nsec ts =? 0)) then 0
  else if UINT_MAX / CLK_TCK <? ts_sec ts then UINT_MAX
  else
    let pow9 := 1000000000 in
    let tick := pow9 / CLK_TCK in
    (* Round up the number of ticks *)
    let nsectck := (ts_nsec ts + tick - 1) ÷ tick in
    let ticks := uwrap 32 (ts_sec ts * CLK_TCK) in
    if UINT_MAX - nsectck - 1 <? ticks then UINT_MAX
    else
      (* Add 1 for the current tick to expire *)
      uwrap 32 (ticks + nsectck + 1).

Definition tv2hz (tv : timeval_t) : Z := ts2hz (tv2ts tv).

Definition timespec_invalid (ts : timespec_t) : bool :=
  (ts_nsec ts <? 0) || (1000000000 <=? ts_nsec ts) || (ts_sec ts <? 0).

Definition timeval_invalid (tv : timeval_t) : bool :=
  (tv_usec tv <? 0) || (1000000 <=? tv_usec tv) || (tv_sec tv <? 0).

(** ** Calendar dates *)

Record tm_t := Tm {
  tm_sec : Z; tm_min : Z; tm_hour : Z; tm_mday : Z; tm_mon : Z; tm_year : Z;
}.

Definition month_in_days : list Z := [0; 31; 59; 90; 120; 151; 181; 212; 243; 273; 304; 334; 0].

(** The result of an expression of type [int], which wraps around in the compiled code.  The
    sums in [tm2sec] are of type [time_t], whose 64 bits they cannot exceed. *)
Definition int32 (z : Z) : Z := swrap 32 z.

(** C's [/] and [%] truncate. *)
Definition tm2sec (t : tm_t) : outcome Z :=
  if tm_year t <? 70 then Ok 0
  else
    let year_scale_s := 31536000 in
    let day_scale_s := 86400 in
    let hour_scale_s := 3600 in
    let min_scale_s := 60 in
    m ← arr_get month_in_days (tm_mon t);
    let res := m * day_scale_s in
    (* Extra days from leap years which already past (EPOCH) *)
    let res := res + (int32 (tm_year t + 1900) ÷ 4 - 1970 ÷ 4) * day_scale_s in
    let res := res - (int32 (tm_year t + 1900) ÷ 100 - 1970 ÷ 100) * day_scale_s in
    let res := res + (int32 (tm_year t + 1900) ÷ 400 - 1970 ÷ 400) * day_scale_s in
    (* If actual year is a leap year and the leap day passed *)
    let res :=
      if (1 <? tm_mon t) && (Z.rem (tm_year t) 4 =? 0) &&
         eqb (negb (Z.rem (tm_year t) 100 =? 0) || negb (Z.rem (int32 (tm_year t + 1900)) 400 =? 0)) false
      then res + day_scale_s else res in
    Ok (int32 (tm_year t - 70) * year_scale_s + int32 (int32 (tm_mday t - 1) * day_scale_s)
        + int32 (tm_hour t * hour_scale_s) + int32 (tm_min t * min_scale_s) + tm_sec t + res).

(** ** Clocks

    [uptime] is what the time source reads, [boottime] the date of the start. *)

Record clocks := Clocks { uptime : bintime_t; boottime : bintime_t }.

Definition CLOCK_MONOTONIC : Z := 1.
Definition CLOCK_REALTIME : Z := 2.
Definition TIMER_ABSTIME : Z := 1.

Definition binuptime (c : clocks) : bintime_t := uptime c.
Definition bintime (c : clocks) : bintime_t := bintime_add (binuptime c) (boottime c).

Definition tm_setclock (c : clocks) (bt : bintime_t) : clocks :=
  Clocks (uptime c) (bintime_sub bt (binuptime c)).

Definition nanotime (c : clocks) : timespec_t := bt2ts (bintime c).
Definition microuptime (c : clocks) : timeval_t := bt2tv (binuptime c).

(** The error, and the time if there is none. *)
Definition do_clock_gettime (clk : Z) (c : clocks) : Z + timespec_t :=
  if clk =? CLOCK_REALTIME then inr (bt2ts (bintime c))
  else if clk =? CLOCK_MONOTONIC then inr (bt2ts (binuptime c))
  else inl EINVAL.

(** The result: the error, [*ts] afterwards, and the timeout and the starting time. *)
Definition ts2timo (clock_id flags : Z) (ts : timespec_t) (c : clocks) :
    Z * timespec_t * Z * timespec_t :=
  if timespec_invalid ts || negb (Z.land flags (Z.lnot TIMER_ABSTIME) =? 0) then
    (EINVAL, ts, 0, timespecclear)
  else
    match do_clock_gettime clock_id c with
    | inl error => (error, ts, 0, timespecclear)
    | inr start =>
        let ts := if negb (Z.land flags TIMER_ABSTIME =? 0) then timespecsub ts start else ts in
        if ((ts_sec ts =? 0) && (ts_nsec ts =? 0)) || (ts_sec ts <? 0) then
          (ETIMEDOUT, ts, 0, start)
        else (0, ts, ts2hz ts, start)
    end.

(** How a sleep of [do_clock_nanosleep] ended, with the clocks at that moment; the
    list [wakes] says this of one sleep after the other. *)
Record wake := Wake { w_error : Z; w_clocks : clocks }.

(** [*p = x], if [p] is not a null pointer. *)
Definition store {A} (p : option A) (x : A) : option A := (fun _ => x) <$> p.

(** The loop of [do_clock_nanosleep]; the result is the error and [*rmtp].  [None] is a
    thread that is still asleep when the list ends. *)
Fixpoint nanosleep_loop (clk flags : Z) (rqt rmt_start : timespec_t) (rm : option timespec_t)
    (wakes : list wake) : option (Z * option timespec_t) :=
  match wakes with
  | [] => None
  | w :: wakes =>
      let error := w_error w in
      if error =? ETIMEDOUT then Some (0, store rm timespecclear)
      else
        match do_clock_gettime clk (w_clocks w) with
        | inl error2 => Some (error2, rm)
        | inr rmt_end =>
            let rmt :=
              if flags =? TIMER_ABSTIME then timespecsub rqt rmt_end
              else timespecsub rqt (timespecsub rmt_end rmt_start) in
            let rmt := if ts_sec rmt <? 0 then timespecclear else rmt in
            let rm := store rm rmt in
            if negb (error =? 0) then Some (error, rm)
            else if 0 <? ts2hz rmt then nanosleep_loop clk flags rqt rmt_start rm wakes
            else Some (0, rm)
        end
  end.

(** [rm] is [*rmtp], [None] if [rmtp] is a null pointer. *)
Definition do_clock_nanosleep (clk flags : Z) (rqt : timespec_t) (rm : option timespec_t)
    (c : clocks) (wakes : list wake) : option (Z * option timespec_t) :=
  let '(error, rqt, _, rmt_start) := ts2timo clk flags rqt c in
  if error =? ETIMEDOUT then Some (0, store rm timespecclear)
  else if negb (error =? 0) then Some (error, rm)
  else nanosleep_loop clk flags rqt rmt_start rm wakes.

(** ** Exact arithmetic *)

(** The values, in units of 2^-64 seconds, microseconds and nanoseconds. *)
Definition bt_val (b : bintime_t) : Z := sec b * 2 ^ 64 + frac b.
Definition tv_val (t : timeval_t) : Z := tv_sec t * 1000000 + tv_usec t.
Definition ts_val (t : timespec_t) : Z := ts_sec t * 1000000000 + ts_nsec t.

Definition in_s64 (z : Z) : Prop := - 2 ^ 63 <= z < 2 ^ 63.
Definition bt_wf (b : bintime_t) : Prop := in_s64 (sec b) /\ 0 <= frac b < 2 ^ 64.
Definition ts_wf (t : timespec_t) : Prop := in_s64 (ts_sec t) /\ 0 <= ts_nsec t < 1000000000.
Definition tv_wf (t : timeval_t) : Prop := in_s64 (tv_sec t) /\ 0 <= tv_usec t < 1000000.

Lemma bt_val_inj a b : 0 <= frac a < 2 ^ 64 -> 0 <= frac b < 2 ^ 64 -> bt_val a = bt_val b -> a = b.
Proof. destruct a, b; unfold bt_val; cbn. intros. f_equal; lia. Qed.

Lemma swrap64_small z : in_s64 z -> swrap 64 z = z.
Proof. intros Hz. apply swrap_small; [done|exact Hz]. Qed.

(** Wrapping a sum of wrapped values. *)
Lemma swrap64_add a b : swrap 64 (swrap 64 a + b) = swrap 64 (a + b).
Proof.
  unfold swrap. f_equal.
  replace ((a + 2 ^ (64 - 1)) `mod` 2 ^ 64 - 2 ^ (64 - 1) + b + 2 ^ (64 - 1))
    with ((a + 2 ^ (64 - 1)) `mod` 2 ^ 64 + b) by lia.
  rewrite Zplus_mod_idemp_l. f_equal. lia.
Qed.

Lemma uwrap64_carry a b :
  0 <= a < 2 ^ 64 -> 0 <= b < 2 ^ 64 ->
  uwrap 64 (a + b) = if uwrap 64 (a + b) <? a then a + b - 2 ^ 64 else a + b.
Proof.
  intros Ha Hb. unfold uwrap. destruct (decide (a + b < 2 ^ 64)) as [Hs|Hs].
  - rewrite Z.mod_small by lia. destruct (Z.ltb_spec (a + b) a); lia.
  - replace ((a + b) `mod` 2 ^ 64) with (a + b - 2 ^ 64).
    + destruct (Z.ltb_spec (a + b - 2 ^ 64) a); lia.
    + apply (Z.mod_unique_pos _ _ 1); lia.
Qed.

Lemma uwrap64_borrow a b :
  0 <= a < 2 ^ 64 -> 0 <= b < 2 ^ 64 ->
  uwrap 64 (a - b) = if a <? uwrap 64 (a - b) then a - b + 2 ^ 64 else a - b.
Proof.
  intros Ha Hb. unfold uwrap. destruct (decide (0 <= a - b)) as [Hs|Hs].
  - rewrite Z.mod_small by lia. destruct (Z.ltb_spec a (a - b)); lia.
  - replace ((a - b) `mod` 2 ^ 64) with (a - b + 2 ^ 64).
    + destruct (Z.ltb_spec a (a - b + 2 ^ 64)); lia.
    + apply (Z.mod_unique_pos _ _ (-1)); lia.
Qed.

(** Adding and subtracting wrap the value at 128 bits, signed. *)
Lemma bintime_add_eq a b :
  0 <= frac a < 2 ^ 64 -> 0 <= frac b < 2 ^ 64 ->
  bintime_add a b = Bintime (swrap 64 (sec a + sec b + (frac a + frac b) / 2 ^ 64))
                            ((frac a + frac b) `mod` 2 ^ 64).
Proof.
  intros Ha Hb. unfold bintime_add, bintime_add_frac. pose proof (uwrap64_carry _ _ Ha Hb) as Hc.
  destruct (uwrap 64 (frac a + frac b) <? frac a) eqn:E; cbn [sec frac]; f_equal; try done.
  - rewrite swrap64_add. f_equal.
    rewrite <- (Z.div_unique_pos (frac a + frac b) (2 ^ 64) 1 (frac a + frac b - 2 ^ 64)); [lia| |lia].
    rewrite <- Hc. by apply uwrap_bound.
  - f_equal. rewrite Z.div_small; [lia|]. rewrite <- Hc. by apply uwrap_bound.
Qed.

Lemma bintime_sub_eq a b :
  0 <= frac a < 2 ^ 64 -> 0 <= frac b < 2 ^ 64 ->
  bintime_sub a b = Bintime (swrap 64 (sec a - sec b + (frac a - frac b) / 2 ^ 64))
                            ((frac a - frac b) `mod` 2 ^ 64).
Proof.
  intros Ha Hb. unfold bintime_sub. pose proof (uwrap64_borrow _ _ Ha Hb) as Hc.
  destruct (frac a <? uwrap 64 (frac a - frac b)) eqn:E; f_equal; try done.
  - replace (swrap 64 (sec a - 1) - sec b) with (swrap 64 (sec a - 1) + - sec b) by lia.
    rewrite swrap64_add. f_equal.
    rewrite <- (Z.div_unique_pos (frac a - frac b) (2 ^ 64) (-1) (frac a - frac b + 2 ^ 64)); [lia| |lia].
    rewrite <- Hc. by apply uwrap_bound.
  - f_equal. rewrite Z.div_small; [lia|]. rewrite <- Hc. by apply uwrap_bound.
Qed.

Lemma bt_div a b : (a * 2 ^ 64 + b) / 2 ^ 64 = a + b / 2 ^ 64.
Proof. rewrite Z.add_comm, Z.div_add by lia. lia. Qed.

(** The parts of a value. *)
Lemma bt_split (s f : Z) : (s + f / 2 ^ 64) * 2 ^ 64 + f `mod` 2 ^ 64 = s * 2 ^ 64 + f.
Proof. pose proof (Z.div_mod f (2 ^ 64) ltac:(lia)). lia. Qed.

Lemma bintime_mul_eq a x :
  0 <= frac a < 2 ^ 64 -> 0 <= x < 2 ^ 32 ->
  bintime_mul a x = Bintime (swrap 64 (sec a * x + frac a * x / 2 ^ 64)) ((frac a * x) `mod` 2 ^ 64).
Proof.
  intros Ha Hx. unfold bintime_mul.
  change 0xffffffff with (Z.ones 32). rewrite !Z.land_ones, !Z.shiftr_div_pow2 by lia.
  set (h := frac a / 2 ^ 32). set (l := frac a `mod` 2 ^ 32).
  assert (frac a = h * 2 ^ 32 + l) as Ef by (pose proof (Z.div_mod (frac a) (2 ^ 32)); lia).
  assert (0 <= l < 2 ^ 32) as Hl by (apply Z.mod_pos_bound; lia).
  assert (0 <= h < 2 ^ 32) as Hh by lia.
  rewrite (uwrap_small 64 (l * x)) by nia.
  set (q := l * x / 2 ^ 32). set (r := (l * x) `mod` 2 ^ 32).
  assert (l * x = q * 2 ^ 32 + r) as El by (pose proof (Z.div_mod (l * x) (2 ^ 32)); lia).
  assert (0 <= r < 2 ^ 32) as Hr by (apply Z.mod_pos_bound; lia).
  assert (0 <= q < 2 ^ 32) as Hq by nia.
  rewrite (uwrap_small 64 (h * x + q)) by nia. rewrite Z.shiftl_mul_pow2 by lia.
  set (p := h * x + q). set (q2 := p / 2 ^ 32). set (r2 := p `mod` 2 ^ 32).
  assert (p = q2 * 2 ^ 32 + r2) as Ep by (pose proof (Z.div_mod p (2 ^ 32)); lia).
  assert (0 <= r2 < 2 ^ 32) as Hr2 by (apply Z.mod_pos_bound; lia).
  assert (frac a * x = q2 * 2 ^ 64 + (r2 * 2 ^ 32 + r)) as Eall by nia.
  assert (uwrap 64 (p * 2 ^ 32) = r2 * 2 ^ 32) as ->
    by (unfold uwrap; symmetry; apply (Z.mod_unique_pos _ _ q2); lia).
  rewrite lor_low by lia.
  rewrite <- (Z.div_unique_pos (frac a * x) (2 ^ 64) q2 (r2 * 2 ^ 32 + r)) by lia.
  by rewrite <- (Z.mod_unique_pos (frac a * x) (2 ^ 64) q2 (r2 * 2 ^ 32 + r)) by lia.
Qed.

(** Sums, differences and multiples of times are exact as long as the seconds of the
    result fit 64 bits, and subtracting what was added restores the time even when they
    do not. *)
Theorem bintime_arith_exact a b x :
  bt_wf a -> bt_wf b -> 0 <= x < 2 ^ 32 ->
  (in_s64 ((bt_val a + bt_val b) / 2 ^ 64) -> bt_val (bintime_add a b) = bt_val a + bt_val b) /\
  (in_s64 ((bt_val a - bt_val b) / 2 ^ 64) -> bt_val (bintime_sub a b) = bt_val a - bt_val b) /\
  (in_s64 (bt_val a * x / 2 ^ 64) -> bt_val (bintime_mul a x) = bt_val a * x) /\
  bintime_sub (bintime_add a b) b = a.
Proof.
  intros [Sa Fa] [Sb Fb] Hx.
  rewrite (bintime_add_eq a b), (bintime_sub_eq a b), (bintime_mul_eq a x) by done.
  assert (forall s f, in_s64 ((s * 2 ^ 64 + f) / 2 ^ 64) ->
    bt_val (Bintime (swrap 64 (s + f / 2 ^ 64)) (f `mod` 2 ^ 64)) = s * 2 ^ 64 + f) as Hval.
  { intros s f Hs. rewrite bt_div in Hs. unfold bt_val. cbn [sec frac].
    rewrite swrap64_small by done. apply bt_split. }
  split_and!.
  - replace (bt_val a + bt_val b) with ((sec a + sec b) * 2 ^ 64 + (frac a + frac b))
      by (unfold bt_val; lia). apply Hval.
  - replace (bt_val a - bt_val b) with ((sec a - sec b) * 2 ^ 64 + (frac a - frac b))
      by (unfold bt_val; lia). apply Hval.
  - replace (bt_val a * x) with ((sec a * x) * 2 ^ 64 + frac a * x)
      by (unfold bt_val; lia). apply Hval.
  - rewrite bintime_sub_eq; cbn [sec frac]; [|apply Z.mod_pos_bound; lia|done].
    destruct a as [s f]. cbn [sec frac] in *. f_equal.
    + set (c := (f + frac b) / 2 ^ 64).
      assert (((f + frac b) `mod` 2 ^ 64 - frac b) / 2 ^ 64 = - c) as ->.
      { pose proof (Z.div_mod (f + frac b) (2 ^ 64) ltac:(lia)).
        symmetry. apply (Z.div_unique_pos _ _ _ f); lia. }
      rewrite <- (swrap64_small s Sa) at 2.
      replace (swrap 64 (s + sec b + c) - sec b + - c)
        with (swrap 64 (s + sec b + c) + (- sec b - c)) by lia.
      rewrite swrap64_add. f_equal. lia.
    + rewrite Zminus_mod_idemp_l. replace (f + frac b - frac b) with f by lia.
      by apply Z.mod_small.
Qed.

(** The least [n] with [x <= n * y]. *)
Definition ceil_div (x y : Z) : Z := (x + (y - 1)) / y.

(** A valid interval that is not empty becomes the number of ticks that cover it,
    rounded up, and one more for the current tick, limited to the largest 32-bit number;
    so a sleep of that many ticks is never shorter than the interval unless it is
    limited. *)
Theorem ts2hz_correct ts :
  timespec_invalid ts = false ->
  ts2hz ts = (if ts_val ts =? 0 then 0 else Z.min UINT_MAX (ceil_div (ts_val ts) 1000000 + 1)) /\
  (ts2hz ts < UINT_MAX -> 0 < ts_val ts -> ts_val ts <= (ts2hz ts - 1) * 1000000).
Proof.
  unfold timespec_invalid. intros Hv.
  assert (0 <= ts_nsec ts < 1000000000 /\ 0 <= ts_sec ts) as [Hn Hs] by lia. clear Hv.
  assert (ts2hz ts = (if ts_val ts =? 0 then 0 else Z.min UINT_MAX (ceil_div (ts_val ts) 1000000 + 1)))
    as Heq.
  { unfold ts2hz, ts_val, ceil_div, UINT_MAX, CLK_TCK.
    change (1000000000 / 1000) with 1000000. change ((2 ^ 32 - 1) / 1000) with 4294967.
    rewrite Z.quot_div_nonneg by lia.
    set (k := (ts_nsec ts + 1000000 - 1) / 1000000).
    assert ((ts_sec ts * 1000000000 + ts_nsec ts + (1000000 - 1)) / 1000000 = ts_sec ts * 1000 + k)
      as -> by (unfold k; lia).
    assert (0 <= k <= 1000) as Hk by (unfold k; lia).
    destruct (Z.ltb_spec (ts_sec ts) 0); [lia|]. cbn [orb].
    destruct (Z.eqb_spec (ts_sec ts * 1000000000 + ts_nsec ts) 0) as [E0|E0].
    { destruct (Z.eqb_spec (ts_sec ts) 0), (Z.eqb_spec (ts_nsec ts) 0); done || lia. }
    assert ((ts_sec ts =? 0) && (ts_nsec ts =? 0) = false) as -> by lia.
    destruct (Z.ltb_spec 4294967 (ts_sec ts)); [lia|].
    rewrite (uwrap_small 32 (ts_sec ts * 1000)) by lia.
    destruct (Z.ltb_spec (2 ^ 32 - 1 - k - 1) (ts_sec ts * 1000)); [lia|].
    rewrite uwrap_small by lia. lia. }
  split; [done|]. intros Hlt Hpos. rewrite Heq in *.
  destruct (Z.eqb_spec (ts_val ts) 0); [lia|]. unfold ceil_div, UINT_MAX in *. lia.
Qed.

(** ** Dates *)

Definition leap (y : Z) : bool :=
  (y `mod` 4 =? 0) && (negb (y `mod` 100 =? 0) || (y `mod` 400 =? 0)).

Definition year_days (y : Z) : Z := if leap y then 366 else 365.

Definition month_days (y m : Z) : Z :=
  if m =? 1 then (if leap y then 29 else 28)
  else if (m =? 3) || (m =? 5) || (m =? 8) || (m =? 10) then 30 else 31.

Definition sum_map (f : Z -> Z) (l : list Z) : Z := foldr (fun x n => f x + n) 0 l.

(** The seconds from the start of 1970 to a date, by adding up years and months. *)
Definition epoch_seconds (t : tm_t) : Z :=
  let y := tm_year t + 1900 in
  let days := sum_map year_days (seqZ 1970 (y - 1970)) + sum_map (month_days y) (seqZ 0 (tm_mon t))
              + (tm_mday t - 1) in
  ((days * 24 + tm_hour t) * 60 + tm_min t) * 60 + tm_sec t.

Lemma sum_map_app f l1 l2 : sum_map f (l1 ++ l2) = sum_map f l1 + sum_map f l2.
Proof. unfold sum_map. induction l1 as [|x l1 IH]; cbn; [done|]. rewrite IH. lia. Qed.

(** The number of leap years up to and including year [y]. *)
Definition leaps (y : Z) : Z := y / 4 - y / 100 + y / 400.

Lemma leaps_step y : leaps y = leaps (y - 1) + (if leap y then 1 else 0).
Proof.
  unfold leaps, leap.
  destruct (Z.eqb_spec (y `mod` 4) 0), (Z.eqb_spec (y `mod` 100) 0), (Z.eqb_spec (y `mod` 400) 0);
    cbn [negb andb orb]; lia.
Qed.

Lemma years_sum (n : nat) :
  sum_map year_days (seqZ 1970 (Z.of_nat n)) =
  365 * Z.of_nat n + (leaps (1969 + Z.of_nat n) - leaps 1969).
Proof.
  induction n as [|n IH]; [done|].
  rewrite seqZ_S, sum_map_app, IH. cbn [sum_map foldr].
  replace (Z.of_nat (S n)) with (Z.succ (Z.of_nat n)) by lia.
  rewrite (leaps_step (1969 + Z.succ (Z.of_nat n))).
  replace (1969 + Z.succ (Z.of_nat n) - 1) with (1969 + Z.of_nat n) by lia.
  replace (1970 + Z.of_nat n) with (1969 + Z.succ (Z.of_nat n)) by lia.
  unfold year_days. destruct (leap _); lia.
Qed.

Lemma months_sum y m :
  0 <= m < 12 ->
  sum_map (month_days y) (seqZ 0 m) =
  month_in_days !!! Z.to_nat m + (if (1 <? m) && leap y then 1 else 0).
Proof.
  intros Hm. revert m Hm. apply Forall_range. unfold month_days. destruct (leap y); by repeat constructor.
Qed.

(** The days by which [tm2sec] is off: one in January and February of a leap year, and
    one from March on in a year divisible by 400. *)
Definition tm2sec_error (t : tm_t) : Z :=
  let y := tm_year t + 1900 in
  if tm_mon t <=? 1 then (if leap y then 1 else 0)
  else if y `mod` 400 =? 0 then 1 else 0.

(** The fields have the ranges that include/sys/time.h documents. *)
Record date_ok (t : tm_t) : Prop := {
  do_min : 0 <= tm_min t < 60;
  do_hour : 0 <= tm_hour t < 24;
  do_mday : 1 <= tm_mday t <= 31;
  do_mon : 0 <= tm_mon t < 12;
  do_year : tm_year t + 1900 < 2 ^ 31;
}.

(** C34: For every date from 1970 on whose fields are in range and whose year is an [int], the
    result of [tm2sec] is the number of seconds since the start of 1970, except that it
    is a day too large in January and February of leap years and from March on in years
    divisible by 400. *)
Theorem tm2sec_correct t :
  70 <= tm_year t -> date_ok t ->
  tm2sec t = Ok (epoch_seconds t + 86400 * tm2sec_error t).
Proof.
  intros Hy [H1 H2 H3 Hm H5]. unfold tm2sec, epoch_seconds, tm2sec_error, int32. rewrite !swrap_small by (rewrite ?swrap_small; lia).
  destruct (Z.ltb_spec (tm_year t) 70); [lia|].
  assert (arr_get month_in_days (tm_mon t) = Ok (month_in_days !!! Z.to_nat (tm_mon t))) as ->.
  { apply arr_get_ok. split; [lia|]. apply list_lookup_lookup_total_lt. cbn. lia. }
  cbn [mbind outcome_bind]. f_equal. rewrite months_sum by done.
  set (y := tm_year t + 1900). set (m := month_in_days !!! _).
  pose proof (years_sum (Z.to_nat (y - 1970))) as Hys. rewrite Z2Nat.id in Hys by lia.
  rewrite Hys. replace (1969 + (y - 1970)) with (y - 1) by lia.
  pose proof (leaps_step y) as Hst. change (leaps 1969) with 477.
  rewrite !Z.quot_div_nonneg, !Z.rem_mod_nonneg by lia.
  change (1970 / 4) with 492. change (1970 / 100) with 19. change (1970 / 400) with 4.
  replace (y / 4 - 492) with (leaps y + y / 100 - y / 400 - 492) by (unfold leaps; lia).
  assert ((tm_year t `mod` 4 =? 0) && eqb (negb (tm_year t `mod` 100 =? 0) || negb (y `mod` 400 =? 0)) false
    = (y `mod` 400 =? 0)) as Hcond.
  { subst y. destruct (Z.eqb_spec (tm_year t `mod` 4) 0), (Z.eqb_spec (tm_year t `mod` 100) 0),
      (Z.eqb_spec ((tm_year t + 1900) `mod` 400) 0); cbn; try done; exfalso; lia. }
  rewrite <- andb_assoc, Hcond.
  destruct (Z.ltb_spec 1 (tm_mon t)), (Z.leb_spec (tm_mon t) 1); try lia; cbn [andb].
  - destruct (y `mod` 400 =? 0), (leap y); lia.
  - destruct (leap y); lia.
Qed.

(** The first of January of 1972 comes out as the second. *)
Lemma tm2sec_1972 : tm2sec (Tm 0 0 0 1 0 72) = tm2sec (Tm 0 0 0 2 0 72) ≫= (fun s => Ok (s - 86400)) /\
  tm2sec (Tm 0 0 0 1 0 72) = Ok (86400 * (365 + 365 + 1)).
Proof. split; reflexivity. Qed.

(** ** Sleeping *)

Definition good_time (t : timespec_t) : Prop := 0 <= ts_sec t < 2 ^ 62 /\ 0 <= ts_nsec t < 1000000000.

Lemma timespecsub_exact a b :
  in_s64 (ts_sec a - ts_sec b) -> in_s64 (ts_sec a - ts_sec b - 1) ->
  0 <= ts_nsec a < 1000000000 -> 0 <= ts_nsec b < 1000000000 ->
  ts_val (timespecsub a b) = ts_val a - ts_val b /\ 0 <= ts_nsec (timespecsub a b) < 1000000000.
Proof.
  intros H1 H2 Ha Hb. unfold timespecsub, ts_val. rewrite (swrap64_small (ts_sec a - ts_sec b)) by done.
  destruct (Z.ltb_spec (ts_nsec a - ts_nsec b) 0); cbn; [|lia].
  rewrite swrap64_small by done. lia.
Qed.

(** What is left of an interval. *)
Lemma remaining_spec rqt now start :
  good_time rqt -> good_time now -> good_time start ->
  let rmt := timespecsub rqt (timespecsub now start) in
  let rmt := if ts_sec rmt <? 0 then timespecclear else rmt in
  ts_val rmt = Z.max 0 (ts_val rqt - (ts_val now - ts_val start)) /\
  0 <= ts_sec rmt /\ 0 <= ts_nsec rmt < 1000000000.
Proof.
  intros [Hr1 Hr2] [Hn1 Hn2] [Hs1 Hs2].
  destruct (timespecsub_exact now start) as [E1 B1]; try done; try (unfold in_s64; lia).
  assert (- 2 ^ 62 <= ts_sec (timespecsub now start) < 2 ^ 62) as Hb.
  { unfold ts_val in E1. lia. }
  destruct (timespecsub_exact rqt (timespecsub now start)) as [E2 B2]; try done;
    try (unfold in_s64; lia).
  cbn zeta. unfold ts_val in *. destruct (Z.ltb_spec (ts_sec (timespecsub rqt (timespecsub now start))) 0);
    cbn; lia.
Qed.

Lemma ts2hz_pos ts : 0 <= ts_sec ts -> 0 <= ts_nsec ts < 1000000000 -> (0 <? ts2hz ts) = (0 <? ts_val ts).
Proof.
  intros Hs Hn. assert (timespec_invalid ts = false) as Hv by (unfold timespec_invalid; lia).
  unfold ts2hz, ts_val, UINT_MAX, CLK_TCK.
  change (1000000000 / 1000) with 1000000. change ((2 ^ 32 - 1) / 1000) with 4294967.
  rewrite Z.quot_div_nonneg by lia.
  destruct (Z.ltb_spec (ts_sec ts) 0); [lia|]. cbn [orb].
  destruct ((ts_sec ts =? 0) && (ts_nsec ts =? 0)) eqn:E0; [lia|].
  destruct (Z.ltb_spec 4294967 (ts_sec ts)); [lia|].
  rewrite (uwrap_small 32 (ts_sec ts * 1000)) by lia.
  destruct (Z.ltb_spec (2 ^ 32 - 1 - (ts_nsec ts + 1000000 - 1) / 1000000 - 1) (ts_sec ts * 1000)); [lia|].
  rewrite uwrap_small by lia. lia.
Qed.

Definition clock_read (clk : Z) (c : clocks) : timespec_t :=
  bt2ts (if clk =? CLOCK_REALTIME then bintime c else binuptime c).

Lemma gettime_read clk c :
  clk = CLOCK_REALTIME \/ clk = CLOCK_MONOTONIC -> do_clock_gettime clk c = inr (clock_read clk c).
Proof. by intros [-> | ->]. Qed.

(** The time a wakeup of a sleep that started at [start] has slept. *)
Definition elapsed (clk : Z) (start : timespec_t) (w : wake) : Z :=
  ts_val (clock_read clk (w_clocks w)) - ts_val start.

Lemma nanosleep_loop_spec clk rqt start rm pre w post :
  clk = CLOCK_REALTIME \/ clk = CLOCK_MONOTONIC -> good_time rqt -> good_time start ->
  Forall (fun w => good_time (clock_read clk (w_clocks w))) (pre ++ [w]) ->
  Forall (fun w => w_error w = 0 /\ elapsed clk start w < ts_val rqt) pre ->
  w_error w <> 0 \/ ts_val rqt <= elapsed clk start w ->
  exists rmt, nanosleep_loop clk 0 rqt start rm (pre ++ w :: post) =
      Some (if w_error w =? ETIMEDOUT then 0 else w_error w, store rm rmt) /\
    ts_val rmt = if w_error w =? ETIMEDOUT then 0
                 else Z.max 0 (ts_val rqt - elapsed clk start w).
Proof.
  intros Hclk Hr Hs Hg Hpre Hw. revert rm.
  induction pre as [|x pre IH]; intros rm; cbn [app nanosleep_loop] in *.
  - destruct (Z.eqb_spec (w_error w) ETIMEDOUT); [by exists timespecclear|].
    apply Forall_cons in Hg as [Hg _]. rewrite gettime_read by done. cbn [Z.eqb TIMER_ABSTIME].
    destruct (remaining_spec rqt _ start Hr Hg Hs) as (Ev & Hsec & Hns). cbn zeta in *.
    rewrite ts2hz_pos by done. rewrite Ev. fold (elapsed clk start w) in *.
    destruct (Z.eqb_spec (w_error w) 0) as [E0|E0]; cbn [negb].
    + destruct (Z.ltb_spec 0 (Z.max 0 (ts_val rqt - elapsed clk start w))); [lia|]. rewrite E0. eauto.
    + eauto.
  - apply Forall_cons in Hg as [Hgx Hg]. apply Forall_cons in Hpre as [[Hx0 Hx] Hpre].
    rewrite Hx0, gettime_read by done. cbn [Z.eqb TIMER_ABSTIME ETIMEDOUT negb].
    destruct (remaining_spec rqt _ start Hr Hgx Hs) as (Ev & Hsec & Hns). cbn zeta in *.
    rewrite ts2hz_pos by done. rewrite Ev. fold (elapsed clk start x) in *.
    destruct (Z.ltb_spec 0 (Z.max 0 (ts_val rqt - elapsed clk start x))); [|lia].
    destruct (IH Hg Hpre (store rm (if ts_sec (timespecsub rqt (timespecsub (clock_read clk (w_clocks x)) start)) <? 0
      then timespecclear else timespecsub rqt (timespecsub (clock_read clk (w_clocks x)) start))))
      as (rmt & -> & Hrmt).
    exists rmt. split; [|done]. by destruct rm.
Qed.

(** A relative sleep, woken up any number of times, ends at the first wakeup that is
    an error or a timeout, or after the requested time has passed: wakeups before that
    send the thread back to sleep.  A timeout, and a wakeup after the requested time,
    succeed with nothing remaining; an error is returned with the time that remains of
    the request. *)
Theorem do_clock_nanosleep_correct clk rqt rm c pre w post :
  let start := clock_read clk c in
  clk = CLOCK_REALTIME \/ clk = CLOCK_MONOTONIC -> good_time rqt -> 0 < ts_val rqt ->
  good_time start -> Forall (fun w => good_time (clock_read clk (w_clocks w))) (pre ++ [w]) ->
  Forall (fun w => w_error w = 0 /\ elapsed clk start w < ts_val rqt) pre ->
  w_error w <> 0 \/ ts_val rqt <= elapsed clk start w ->
  exists rmt, do_clock_nanosleep clk 0 rqt rm c (pre ++ w :: post) =
      Some (if w_error w =? ETIMEDOUT then 0 else w_error w, store rm rmt) /\
    ts_val rmt = if w_error w =? ETIMEDOUT then 0
                 else Z.max 0 (ts_val rqt - elapsed clk start w).
Proof.
  intros start Hclk Hr Hpos Hs Hg Hpre Hw. unfold do_clock_nanosleep, ts2timo.
  pose proof Hr as [Hr1 Hr2]. unfold ts_val in Hpos.
  assert (timespec_invalid rqt = false) as -> by (unfold timespec_invalid; lia).
  rewrite gettime_read by done. rewrite !Z.land_0_l. cbn [orb negb Z.eqb].
  assert ((ts_sec rqt =? 0) && (ts_nsec rqt =? 0) || (ts_sec rqt <? 0) = false) as -> by lia.
  by apply nanosleep_loop_spec.
Qed.

(** An absolute sleep subtracts the current time from the request twice: interrupted
    after one second of ten, it reports that nothing remains. *)
Lemma absolute_sleep_remaining :
  let at_sec s := Clocks (Bintime s 0) (Bintime 0 0) in
  do_clock_nanosleep CLOCK_MONOTONIC TIMER_ABSTIME (Timespec 110 0) (Some timespecclear)
    (at_sec 100) [Wake EINTR (at_sec 101)] = Some (EINTR, Some (Timespec 0 0)) /\
  do_clock_nanosleep CLOCK_MONOTONIC 0 (Timespec 10 0) (Some timespecclear)
    (at_sec 100) [Wake EINTR (at_sec 101)] = Some (EINTR, Some (Timespec 9 0)).
Proof. split; reflexivity. Qed.

(** ** Samples *)

Lemma bintime_arith_exact_witness :
  bintime_sub (bintime_add (Bintime 5 (2 ^ 63)) (Bintime 7 (2 ^ 63 + 1))) (Bintime 7 (2 ^ 63 + 1))
    = Bintime 5 (2 ^ 63) /\
  bt_val (bintime_add (Bintime 5 (2 ^ 63)) (Bintime 7 (2 ^ 63 + 1))) = bt_val (Bintime 13 1).
Proof.
  destruct (bintime_arith_exact (Bintime 5 (2 ^ 63)) (Bintime 7 (2 ^ 63 + 1)) 3) as (Ha & _ & _ & Hr);
    [by vm_compute|by vm_compute|by vm_compute|].
  split; [exact Hr|]. rewrite Ha; [reflexivity|by vm_compute].
Defined.

Lemma ts2hz_correct_witness :
  ts2hz (Timespec 1 1500000) = 1003 /\ ts_val (Timespec 1 1500000) <= 1002 * 1000000.
Proof.
  destruct (ts2hz_correct (Timespec 1 1500000) eq_refl) as [-> Hle]. split; [reflexivity|].
  by apply Hle.
Defined.

Lemma tm2sec_correct_witness :
  tm2sec (Tm 59 58 23 31 11 123) = Ok (epoch_seconds (Tm 59 58 23 31 11 123)) /\
  epoch_seconds (Tm 59 58 23 31 11 123) = 1704067139.
Proof.
  split; [|by vm_compute].
  rewrite (tm2sec_correct (Tm 59 58 23 31 11 123)); [by vm_compute|done|]. split; cbn; lia.
Defined.

Lemma do_clock_nanosleep_correct_witness :
  let at_sec s := Clocks (Bintime s 0) (Bintime 0 0) in
  exists rmt, do_clock_nanosleep CLOCK_MONOTONIC 0 (Timespec 10 0) (Some timespecclear)
    (at_sec 100) [Wake 0 (at_sec 101); Wake EINTR (at_sec 103)] = Some (EINTR, Some rmt) /\
    ts_val rmt = 7000000000.
Proof.
  intros at_sec.
  destruct (do_clock_nanosleep_correct CLOCK_MONOTONIC (Timespec 10 0) (Some timespecclear)
    (at_sec 100) [Wake 0 (at_sec 101)] (Wake EINTR (at_sec 103)) []) as (rmt & E & Hv).
  - by right.
  - by vm_compute.
  - by vm_compute.
  - by vm_compute.
  - by repeat constructor.
  - by repeat constructor.
  - by left.
  - exists rmt. split; [exact E|exact Hv].
Defined.
