(* ===== verification/Callout.v ===== *)
(** * Timeouts (sys/kern/callout.c, include/sys/callout.h)

    A callout is a function to be called at a given tick.  Pending callouts wait in one of
    64 buckets, by their time modulo 64; [callout_process], run from the clock interrupt,
    moves those whose time has come to a queue from which the callout thread takes and
    runs them.  The results: [callout_process] moves exactly the callouts that are due and
    leaves the rest, unless exactly 64 ticks have passed; the operations keep the buckets
    consistent and meet none of their assertions as long as the clients keep their side;
    a callout stopped with success is not run. *)

From S2P Require Import Prelude.

Definition CALLOUT_BUCKETS : Z := 64.

Definition CALLOUT_ACTIVE : Z := 0x0001.
Definition CALLOUT_PENDING : Z := 0x0002.
Definition CALLOUT_STOPPED : Z := 0x0004.

(** The function and its argument are what is run when the callout thread reaches it. *)
Record callout_t := Callout { c_time : Z; c_flags : Z; c_index : Z }.

Definition callout_is_active c := flag_on (c_flags c) CALLOUT_ACTIVE.
Definition callout_set_active c :=
  Callout (c_time c) (flag_set (c_flags c) CALLOUT_ACTIVE) (c_index c).
Definition callout_clear_active c :=
  Callout (c_time c) (flag_clr (c_flags c) CALLOUT_ACTIVE) (c_index c).

Definition callout_is_pending c := flag_on (c_flags c) CALLOUT_PENDING.
Definition callout_set_pending c :=
  Callout (c_time c) (flag_set (c_flags c) CALLOUT_PENDING) (c_index c).
Definition callout_clear_pending c :=
  Callout (c_time c) (flag_clr (c_flags c) CALLOUT_PENDING) (c_index c).

Definition callout_is_stopped c := flag_on (c_flags c) CALLOUT_STOPPED.
Definition callout_set_stopped c :=
  Callout (c_time c) (flag_set (c_flags c) CALLOUT_STOPPED) (c_index c).
Definition callout_clear_stopped c :=
  Callout (c_time c) (flag_clr (c_flags c) CALLOUT_STOPPED) (c_index c).

(** Callouts are known by their addresses.  [running] is the one whose function the
    callout thread is in. *)
Record callouts := Callouts {
  co : gmap Z callout_t;
  heads : list (list Z);
  last : Z;
  delegated : list Z;
  running : option Z;
}.

Implicit Types (s : callouts) (c : callout_t) (h : Z).

Definition get s h : outcome callout_t :=
  match co s !! h with Some c => Ok c | None => Fault BadAccess end.
Definition put s h c : callouts := Callouts (<[h := c]> (co s)) (heads s) (last s) (delegated s) (running s).
Definition set_heads s hs : callouts := Callouts (co s) hs (last s) (delegated s) (running s).

Definition init_callout : callouts :=
  Callouts ∅ (replicate (Z.to_nat CALLOUT_BUCKETS) []) 0 [] None.

Definition callout_setup s h : callouts := put s h (Callout 0 0 0).

(** [tm] is a 32-bit unsigned number of ticks. *)
Definition _callout_schedule s h (tm : Z) : outcome callouts :=
  c ← get s h;
  _ ← assert (negb (callout_is_pending c));
  let c := callout_set_pending c in
  let idx := tm `mod` CALLOUT_BUCKETS in
  let s := put s h (Callout tm (c_flags c) idx) in
  l ← arr_get (heads s) idx;
  hs ← arr_set (heads s) idx (l ++ [h]);
  Ok (set_heads s hs).

Definition callout_schedule_abs s h (tm : Z) : outcome callouts :=
  c ← get s h;
  _ ← assert (negb (callout_is_active c));
  _callout_schedule (put s h (callout_clear_stopped c)) h tm.

(** [now] is what [getsystime] returns. *)
Definition callout_schedule s h (now tm : Z) : outcome callouts :=
  c ← get s h;
  _ ← assert (negb (callout_is_active c));
  _callout_schedule (put s h (callout_clear_stopped c)) h (uwrap 32 (now + tm)).

Definition callout_reschedule s h (tm : Z) : outcome (bool * callouts) :=
  c ← get s h;
  _ ← assert (callout_is_active c);
  if callout_is_stopped c then Ok (false, s)
  else s ← _callout_schedule s h tm; Ok (true, s).

Definition callout_stop s h : outcome (bool * callouts) :=
  c ← get s h;
  let c := callout_set_stopped c in
  if callout_is_pending c then
    let c := callout_clear_pending c in
    l ← arr_get (heads s) (c_index c);
    l ← tailq_remove l h;
    hs ← arr_set (heads s) (c_index c) l;
    Ok (negb (callout_is_active c), set_heads (put s h c) hs)
  else Ok (negb (callout_is_active c), put s h c).

(** One bucket: the triggered callouts leave it, in order. *)
Fixpoint process_list (s : callouts) (time bucket : Z) (l : list Z) : outcome callouts :=
  match l with
  | [] => Ok s
  | elem :: l =>
      c ← get s elem;
      s ← (if c_time c <=? time then
             let s := put s elem (callout_clear_pending (callout_set_active c)) in
             b ← arr_get (heads s) bucket;
             b ← tailq_remove b elem;
             hs ← arr_set (heads s) bucket b;
             Ok (Callouts (co s) hs (last s) (delegated s ++ [elem]) (running s))
           else Ok s);
      process_list s time bucket l
  end.

Fixpoint process_loop (fuel : nat) (s : callouts) (time current last_bucket : Z) : outcome callouts :=
  match fuel with
  | O => Fault OutOfFuel
  | S fuel =>
      l ← arr_get (heads s) current;
      s ← process_list s time current l;
      if current =? last_bucket then Ok s
      else process_loop fuel s time ((current + 1) `mod` CALLOUT_BUCKETS) last_bucket
  end.

(** The differences of times are 32-bit unsigned.  The loop visits a bucket at most
    once, so 64 iterations are enough. *)
Definition callout_process s (time : Z) : outcome callouts :=
  let current_bucket := last s `mod` CALLOUT_BUCKETS in
  let last_bucket :=
    if CALLOUT_BUCKETS <? uwrap 32 (time - last s)
    then uwrap 32 (last s - 1) `mod` CALLOUT_BUCKETS
    else time `mod` CALLOUT_BUCKETS in
  s ← process_loop (Z.to_nat CALLOUT_BUCKETS) s time current_bucket last_bucket;
  Ok (Callouts (co s) (heads s) time (delegated s) (running s)).

(** The callout thread: it takes a callout off the queue and calls its function ... *)
Definition callout_thread_take s : outcome callouts :=
  match delegated s with
  | [] => Ok s (* [sleepq_wait] *)
  | elem :: l =>
      c ← get s elem;
      _ ← assert (callout_is_active c);
      _ ← assert (negb (callout_is_pending c));
      Ok (Callouts (co s) (heads s) (last s) l (Some elem))
  end.

(** ... and, when the function has returned, marks it as finished; the result tells
    whether waiters are notified. *)
Definition callout_thread_done s : outcome (bool * callouts) :=
  match running s with
  | None => Ok (false, s)
  | Some elem =>
      c ← get s elem;
      let c := callout_clear_active c in
      let s := put s elem c in
      Ok (negb (callout_is_pending c),
          Callouts (co s) (heads s) (last s) (delegated s) None)
  end.

(** [callout_drain] returns at once, or sleeps until this is false. *)
Definition callout_drain_waits s h : outcome bool :=
  c ← get s h;
  Ok (callout_is_pending c || callout_is_active c).

(** ** Flags *)

Section flag_lemmas.
Context (c : callout_t).

Lemma active_set : callout_is_active (callout_set_active c) = true.
Proof. by apply (flag_set_eq 0). Qed.
Lemma active_clear : callout_is_active (callout_clear_active c) = false.
Proof. by apply (flag_clr_eq 0). Qed.
Lemma pending_set : callout_is_pending (callout_set_pending c) = true.
Proof. by apply (flag_set_eq 1). Qed.
Lemma pending_clear : callout_is_pending (callout_clear_pending c) = false.
Proof. by apply (flag_clr_eq 1). Qed.
Lemma active_set_pending : callout_is_active (callout_set_pending c) = callout_is_active c.
Proof. by apply (flag_set_ne 0 1). Qed.
Lemma active_clear_pending : callout_is_active (callout_clear_pending c) = callout_is_active c.
Proof. by apply (flag_clr_ne 0 1). Qed.
Lemma active_set_stopped : callout_is_active (callout_set_stopped c) = callout_is_active c.
Proof. by apply (flag_set_ne 0 2). Qed.
Lemma active_clear_stopped : callout_is_active (callout_clear_stopped c) = callout_is_active c.
Proof. by apply (flag_clr_ne 0 2). Qed.
Lemma pending_set_active : callout_is_pending (callout_set_active c) = callout_is_pending c.
Proof. by apply (flag_set_ne 1 0). Qed.
Lemma pending_clear_active : callout_is_pending (callout_clear_active c) = callout_is_pending c.
Proof. by apply (flag_clr_ne 1 0). Qed.
Lemma pending_set_stopped : callout_is_pending (callout_set_stopped c) = callout_is_pending c.
Proof. by apply (flag_set_ne 1 2). Qed.
Lemma pending_clear_stopped : callout_is_pending (callout_clear_stopped c) = callout_is_pending c.
Proof. by apply (flag_clr_ne 1 2). Qed.
Lemma stopped_set : callout_is_stopped (callout_set_stopped c) = true.
Proof. by apply (flag_set_eq 2). Qed.
Lemma stopped_clear_pending : callout_is_stopped (callout_clear_pending c) = callout_is_stopped c.
Proof. by apply (flag_clr_ne 2 1). Qed.
End flag_lemmas.

Create HintDb callout.
#[export] Hint Rewrite active_set active_clear pending_set pending_clear active_set_pending
  active_clear_pending active_set_stopped active_clear_stopped pending_set_active
  pending_clear_active pending_set_stopped pending_clear_stopped stopped_set
  stopped_clear_pending : callout.

(** ** Moving callouts to the queue of the callout thread *)

Definition trigger c : callout_t := callout_clear_pending (callout_set_active c).

Definition due s (time h : Z) : bool :=
  match co s !! h with Some c => c_time c <=? time | None => false end.

(** [s'] is [s] with the callouts [ds] moved. *)
Record moved s (ds : list Z) (s' : callouts) : Prop := {
  mv_co h : co s' !! h = (if decide (h ∈ ds) then trigger else id) <$> co s !! h;
  mv_heads : heads s' = (filter (fun x => x ∉ ds)) <$> heads s;
  mv_delegated : delegated s' = delegated s ++ ds;
  mv_last : last s' = last s;
  mv_running : running s' = running s;
  mv_nodup : NoDup ds;
}.

Lemma moved_refl s : moved s [] s.
Proof.
  split; try done.
  - intros h. rewrite decide_False by set_solver. by destruct (co s !! h).
  - rewrite <- (list_fmap_id (heads s)) at 1. apply list_fmap_ext. intros i l _.
    symmetry. apply filter_all. set_solver.
  - by rewrite app_nil_r.
  - constructor.
Qed.

Lemma moved_trans s a s1 b s2 :
  moved s a s1 -> moved s1 b s2 -> (forall h, h ∈ a -> h ∉ b) -> moved s (a ++ b) s2.
Proof.
  intros [A1 A2 A3 A4 A5 A6] [B1 B2 B3 B4 B5 B6] Hd. split.
  - intros h. rewrite B1, A1. destruct (co s !! h); [cbn|done]. f_equal.
    repeat case_decide; try done; set_solver.
  - rewrite B2, A2, <- list_fmap_compose. apply list_fmap_ext. intros i l _. cbn.
    rewrite list_filter_filter. apply list_filter_iff. set_solver.
  - by rewrite B3, A3, <- app_assoc.
  - congruence.
  - congruence.
  - by apply NoDup_app.
Qed.

(** A bucket whose elements are in no other bucket. *)
Definition only_in s (b : Z) (l : list Z) : Prop :=
  forall h i l', h ∈ l -> heads s !! i = Some l' -> h ∈ l' <-> i = Z.to_nat b.

Lemma move_one s b h c :
  length (heads s) = 64%nat -> 0 <= b < 64 -> co s !! h = Some c -> only_in s b [h] ->
  exists s', (b' ← arr_get (heads (put s h (trigger c))) b;
     b' ← tailq_remove b' h;
     hs ← arr_set (heads (put s h (trigger c))) b b';
     let s := put s h (trigger c) in
     Ok (Callouts (co s) hs (last s) (delegated s ++ [h]) (running s))) = Ok s' /\
    moved s [h] s'.
Proof.
  intros Hlen Hb Hc Ho. cbn [put heads].
  destruct (arr_get_in_range (heads s) b) as (l & -> & Hl); [lia|]. cbn [mbind outcome_bind].
  assert (h ∈ l) as Hin by (apply (Ho h (Z.to_nat b) l); [set_solver|done|done]).
  unfold tailq_remove. rewrite decide_True by done. cbn [mbind outcome_bind].
  rewrite arr_set_ok by lia. cbn [mbind outcome_bind]. eexists. split; [done|].
  split; cbn; try done.
  - intros x. case_decide as Hx.
    + apply list_elem_of_singleton in Hx as ->. by rewrite lookup_insert_eq, Hc.
    + rewrite lookup_insert_ne by set_solver. by destruct (co s !! x).
  - apply list_eq. intros i. rewrite list_lookup_fmap.
    destruct (decide (i = Z.to_nat b)) as [->|Hi].
    + rewrite list_lookup_insert_eq by lia. rewrite Hl. cbn. f_equal.
      apply list_filter_iff. set_solver.
    + rewrite list_lookup_insert_ne by done. destruct (heads s !! i) as [l'|] eqn:E; [|done]. cbn.
      f_equal. symmetry. apply filter_all. intros x Hx Hin'.
      apply list_elem_of_singleton in Hin' as ->. apply Hi, (Ho h i l'); [set_solver|done|done].
  - apply NoDup_singleton.
Qed.

Lemma moved_only_in s ds s' b l :
  moved s ds s' -> (forall h, h ∈ l -> h ∉ ds) -> only_in s b l -> only_in s' b l.
Proof.
  intros M Hd Ho h i l' Hh Hi. rewrite (mv_heads _ _ _ M), list_lookup_fmap in Hi.
  destruct (heads s !! i) as [l0|] eqn:E; [|done]. cbn in Hi. simplify_eq.
  rewrite list_elem_of_filter, <- (Ho h i l0) by done. naive_solver.
Qed.

Lemma moved_same s ds s' h : moved s ds s' -> h ∉ ds -> co s' !! h = co s !! h.
Proof. intros M Hh. rewrite (mv_co _ _ _ M), decide_False by done. by destruct (co s !! h). Qed.

Lemma due_moved s ds s' time h : moved s ds s' -> h ∉ ds -> due s' time h = due s time h.
Proof. intros M Hh. unfold due. by rewrite (moved_same s ds s' h). Qed.

Lemma filter_due_moved s ds s' time (l : list Z) :
  moved s ds s' -> (forall h, h ∈ l -> h ∉ ds) ->
  filter (fun h => due s' time h) l = filter (fun h => due s time h) l.
Proof.
  intros M Hd. induction l as [|h l IH]; [done|].
  rewrite !filter_cons, IH by set_solver.
  assert (due s' time h = due s time h) as -> by (apply (due_moved s ds); [done|set_solver]). done.
Qed.

Lemma process_list_spec time b (l : list Z) : forall s,
  length (heads s) = 64%nat -> 0 <= b < 64 -> NoDup l ->
  (forall h, h ∈ l -> is_Some (co s !! h)) -> only_in s b l ->
  exists s', process_list s time b l = Ok s' /\ moved s (filter (fun h => due s time h) l) s'.
Proof.
  induction l as [|h l IH]; intros s Hlen Hb Hnd Hco Ho.
  { exists s. split; [done|apply moved_refl]. }
  apply NoDup_cons in Hnd as [Hnh Hnd]. destruct (Hco h) as [c Hc]; [set_solver|].
  cbn [process_list]. unfold get. rewrite Hc. cbn [mbind outcome_bind].
  rewrite filter_cons. assert (due s time h = (c_time c <=? time)) as Hdue by (unfold due; by rewrite Hc).
  assert (only_in s b l) as Hol by (intros x i l' Hx; apply Ho; set_solver).
  destruct (c_time c <=? time).
  - destruct (move_one s b h c Hlen Hb Hc) as (s1 & E1 & M1); [intros x i l' Hx; apply Ho; set_solver|].
    unfold trigger in E1. cbn zeta in E1. rewrite E1. cbn [mbind outcome_bind].
    destruct (IH s1) as (s' & -> & M); try done.
    + by rewrite (mv_heads _ _ _ M1), length_fmap.
    + intros x Hx. rewrite (moved_same s [h] s1) by (done || set_solver). apply Hco. set_solver.
    + apply (moved_only_in s [h] s1); [done|set_solver|done].
    + exists s'. split; [done|]. rewrite (filter_due_moved s [h] s1) in M by (done || set_solver).
      rewrite decide_True by (by rewrite Hdue). apply (moved_trans s [h] s1 _ s' M1 M).
      intros x Hx. apply list_elem_of_singleton in Hx as ->. rewrite list_elem_of_filter. tauto.
  - cbn [mbind outcome_bind]. rewrite decide_False by (rewrite Hdue; intros []). apply IH; try done. set_solver.
Qed.

(** The buckets are disjoint and hold known callouts. *)
Record buckets_ok s : Prop := {
  bo_len : length (heads s) = 64%nat;
  bo_nodup i l : heads s !! i = Some l -> NoDup l;
  bo_known i l h : heads s !! i = Some l -> h ∈ l -> is_Some (co s !! h);
  bo_disjoint i j l l' h : heads s !! i = Some l -> heads s !! j = Some l' -> h ∈ l -> h ∈ l' -> i = j;
}.

Definition bucket s (b : Z) : list Z := heads s !!! Z.to_nat (b `mod` 64).

Lemma bucket_lookup s b : buckets_ok s -> heads s !! Z.to_nat (b `mod` 64) = Some (bucket s b).
Proof.
  intros B. apply list_lookup_lookup_total_lt. rewrite (bo_len _ B).
  pose proof (Z.mod_pos_bound b 64). lia.
Qed.

Lemma moved_buckets s ds s' : moved s ds s' -> buckets_ok s -> buckets_ok s'.
Proof.
  intros M [B1 B2 B3 B4]. split.
  - by rewrite (mv_heads _ _ _ M), length_fmap.
  - intros i l Hi. rewrite (mv_heads _ _ _ M), list_lookup_fmap_Some in Hi.
    destruct Hi as (l0 & -> & Hi). by apply NoDup_filter, (B2 i).
  - intros i l h Hi Hh. rewrite (mv_heads _ _ _ M), list_lookup_fmap_Some in Hi.
    destruct Hi as (l0 & -> & Hi). apply list_elem_of_filter in Hh as [Hn Hh].
    rewrite (moved_same s ds s' h) by done. by apply (B3 i l0).
  - intros i j l l' h Hi Hj Hh Hh'. rewrite (mv_heads _ _ _ M), list_lookup_fmap_Some in Hi, Hj.
    destruct Hi as (l0 & -> & Hi), Hj as (l1 & -> & Hj).
    apply list_elem_of_filter in Hh as [_ Hh], Hh' as [_ Hh']. by apply (B4 i j l0 l1 h).
Qed.

Lemma moved_bucket s ds s' b h :
  moved s ds s' -> buckets_ok s -> h ∈ bucket s' b <-> h ∈ bucket s b /\ h ∉ ds.
Proof.
  intros M B. pose proof (bucket_lookup s b B) as E. unfold bucket at 1.
  rewrite (mv_heads _ _ _ M). rewrite list_lookup_total_alt, list_lookup_fmap, E. cbn.
  rewrite list_elem_of_filter. tauto.
Qed.

Lemma process_bucket s time cur :
  buckets_ok s -> 0 <= cur < 64 ->
  exists s' ds, (l ← arr_get (heads s) cur; process_list s time cur l) = Ok s' /\ moved s ds s' /\
    forall h, h ∈ ds <-> due s time h = true /\ h ∈ bucket s cur.
Proof.
  intros B Hc. pose proof (bucket_lookup s cur B) as E. rewrite Z.mod_small in E by done.
  assert (arr_get (heads s) cur = Ok (bucket s cur)) as -> by (apply arr_get_ok; split; [lia|done]).
  cbn [mbind outcome_bind].
  destruct (process_list_spec time cur (bucket s cur) s) as (s' & Es & M).
  - apply (bo_len _ B).
  - done.
  - by apply (bo_nodup _ B _ _ E).
  - intros h. by apply (bo_known _ B _ _ h E).
  - intros h i l' Hh Hi. split.
    + intros Hh'. by apply (bo_disjoint _ B i (Z.to_nat cur) l' (bucket s cur) h).
    + intros ->. congruence.
  - exists s', (filter (fun h => due s time h) (bucket s cur)). split_and!; [done|done|].
    intros h. rewrite list_elem_of_filter. by rewrite Is_true_true.
Qed.

(** The loop visits [k + 1] buckets. *)
Lemma process_loop_spec time (k : nat) : forall fuel s cur,
  buckets_ok s -> 0 <= cur < 64 -> (k < 64)%nat -> (k < fuel)%nat ->
  exists s' ds, process_loop fuel s time cur ((cur + Z.of_nat k) `mod` 64) = Ok s' /\ moved s ds s' /\
    forall h, h ∈ ds <-> due s time h = true /\
      exists j, 0 <= j <= Z.of_nat k /\ h ∈ bucket s (cur + j).
Proof.
  induction k as [|k IH]; intros fuel s cur B Hc Hk Hf; (destruct fuel as [|fuel]; [lia|]);
    cbn [process_loop]; destruct (process_bucket s time cur B Hc) as (s1 & ds & E & M & Hds);
    apply bind_ok in E as (l & -> & E); cbn [mbind outcome_bind]; rewrite E; cbn [mbind outcome_bind].
  - rewrite Z.add_0_r, Z.mod_small, Z.eqb_refl by done. exists s1, ds. split_and!; [done|done|].
    intros h. rewrite Hds. split.
    + intros [Hd Hh]. split; [done|]. exists 0. rewrite Z.add_0_r. split; [lia|done].
    + intros [Hd (j & Hj & Hh)]. replace j with 0 in Hh by lia. by rewrite Z.add_0_r in Hh.
  - unfold CALLOUT_BUCKETS. destruct (Z.eqb_spec cur ((cur + Z.of_nat (S k)) `mod` 64)) as [Ec|_]; [lia|].
    replace ((cur + Z.of_nat (S k)) `mod` 64) with (((cur + 1) `mod` 64 + Z.of_nat k) `mod` 64) by lia.
    destruct (IH fuel s1 ((cur + 1) `mod` 64)) as (s' & ds' & -> & M' & Hds');
      [by eapply moved_buckets|lia|lia|lia|].
    assert (forall h j, h ∈ bucket s1 ((cur + 1) `mod` 64 + j) <-> h ∈ bucket s (cur + (j + 1)) /\ h ∉ ds)
      as Hb.
    { intros h j. rewrite (moved_bucket s ds s1) by done. unfold bucket.
      by replace (((cur + 1) `mod` 64 + j) `mod` 64) with ((cur + (j + 1)) `mod` 64) by lia. }
    exists s', (ds ++ ds'). split_and!; [done| |].
    + apply (moved_trans s ds s1); try done. intros h Hh Hh'.
      apply Hds' in Hh' as (_ & j & _ & Hj). apply Hb in Hj as [_ Hj]. done.
    + intros h. rewrite elem_of_app, Hds'. setoid_rewrite Hb. split.
      * rewrite Hds. intros [[Hd Hh]|(Hd & j & Hj & Hh & Hn)].
        -- split; [done|]. exists 0. rewrite Z.add_0_r. split; [lia|done].
        -- split; [by rewrite <- (due_moved s ds s1)|]. exists (j + 1). split; [lia|done].
      * intros (Hd & j & Hj & Hh). destruct (decide (h ∈ ds)) as [|Hn]; [by left|right].
        split; [by rewrite (due_moved s ds s1)|].
        destruct (decide (j = 0)) as [->|Hj0].
        { destruct Hn. apply Hds. by rewrite Z.add_0_r in Hh. }
        exists (j - 1). replace (j - 1 + 1) with j by lia. split_and!; [lia|lia|done|done].
Qed.

(** ** The invariant *)

Record callouts_inv s : Prop := {
  ci_len : length (heads s) = 64%nat;
  ci_nodup i l : heads s !! i = Some l -> NoDup l;
  ci_listed i l h : heads s !! i = Some l ->
    h ∈ l <-> exists c, co s !! h = Some c /\ callout_is_pending c = true /\ c_index c = Z.of_nat i;
  ci_time h c : co s !! h = Some c -> callout_is_pending c = true ->
    c_index c = c_time c `mod` 64 /\ last s <= c_time c < 2 ^ 32;
  ci_last : 0 <= last s < 2 ^ 32;
  ci_queue : NoDup (delegated s);
  ci_delegated h : h ∈ delegated s -> running s <> Some h /\
    exists c, co s !! h = Some c /\ callout_is_active c = true /\ callout_is_pending c = false;
  ci_running h : running s = Some h -> exists c, co s !! h = Some c /\ callout_is_active c = true;
  ci_active h c : co s !! h = Some c -> callout_is_active c = true ->
    h ∈ delegated s \/ running s = Some h;
}.

(** A callout of [s] that waits for its time. *)
Definition waiting s h c : Prop := co s !! h = Some c /\ callout_is_pending c = true.

Lemma inv_buckets s : callouts_inv s -> buckets_ok s.
Proof.
  intros I. split.
  - apply (ci_len _ I).
  - apply (ci_nodup _ I).
  - intros i l h Hi Hh. apply (ci_listed _ I i l h Hi) in Hh as (c & -> & _). done.
  - intros i j l l' h Hi Hj Hh Hh'. apply (ci_listed _ I i l h Hi) in Hh as (c & E & _ & Hc).
    apply (ci_listed _ I j l' h Hj) in Hh' as (c' & E' & _ & Hc'). simplify_eq. lia.
Qed.

Lemma in_bucket s b h :
  callouts_inv s -> h ∈ bucket s b <-> exists c, waiting s h c /\ c_index c = b `mod` 64.
Proof.
  intros I. rewrite (ci_listed _ I _ _ h (bucket_lookup s b (inv_buckets s I))).
  unfold waiting. pose proof (Z.mod_pos_bound b 64).
  rewrite Z2Nat.id by lia. naive_solver.
Qed.

Lemma trigger_flags c :
  callout_is_active (trigger c) = true /\ callout_is_pending (trigger c) = false.
Proof. unfold trigger. autorewrite with callout. done. Qed.

(** The callouts that are due leave their buckets; none of them may be running. *)
Lemma moved_inv s ds s' time :
  callouts_inv s -> moved s ds s' -> last s <= time < 2 ^ 32 ->
  (forall h, h ∈ ds <-> exists c, waiting s h c /\ c_time c <= time) ->
  (forall h, h ∈ ds -> running s <> Some h) ->
  callouts_inv (Callouts (co s') (heads s') time (delegated s') (running s')).
Proof.
  intros I M Ht Hds Hrun. pose proof (moved_buckets s ds s' M (inv_buckets s I)) as B.
  assert (forall h c', co s' !! h = Some c' -> h ∈ ds /\ (exists c, c' = trigger c) \/
    h ∉ ds /\ co s !! h = Some c') as Hco.
  { intros h c' Hc. rewrite (mv_co _ _ _ M) in Hc. case_decide; [left|right].
    - split; [done|]. destruct (co s !! h); [|done]. cbn in Hc. simplify_eq. eauto.
    - split; [done|]. by destruct (co s !! h). }
  split; cbn [co heads last delegated running].
  - apply (bo_len _ B).
  - apply (bo_nodup _ B).
  - intros i l h Hi. rewrite (mv_heads _ _ _ M), list_lookup_fmap_Some in Hi.
    destruct Hi as (l0 & -> & Hi). rewrite list_elem_of_filter, (ci_listed _ I i l0 h Hi). split.
    + intros [Hn (c & Hc & HH)]. exists c. by rewrite (moved_same s ds s').
    + intros (c & Hc & Hp & HH). destruct (Hco h c Hc) as [[_ [c0 ->]]|[Hn Hc']].
      { by rewrite (proj2 (trigger_flags c0)) in Hp. } eauto.
  - intros h c Hc Hp. destruct (Hco h c Hc) as [[_ [c0 ->]]|[Hn Hc']].
    { by rewrite (proj2 (trigger_flags c0)) in Hp. }
    destruct (ci_time _ I h c Hc' Hp) as [Hi Hr]. split; [done|].
    destruct (decide (c_time c <= time)) as [Hle|]; [|lia]. destruct Hn. apply Hds. by exists c.
  - pose proof (ci_last _ I). lia.
  - rewrite (mv_delegated _ _ _ M). apply NoDup_app. split_and!; [apply (ci_queue _ I)| |apply (mv_nodup _ _ _ M)].
    intros h Hh Hd. apply Hds in Hd as (c & [Hc Hp] & _).
    destruct (ci_delegated _ I h Hh) as (_ & c' & Hc' & _ & Hp'). congruence.
  - intros h Hh. rewrite (mv_delegated _ _ _ M), (mv_running _ _ _ M), elem_of_app in *.
    destruct (decide (h ∈ ds)) as [Hd|Hd].
    + split; [by apply Hrun|]. apply Hds in Hd as Hd'. destruct Hd' as (c & [Hc Hp] & _).
      exists (trigger c). rewrite (mv_co _ _ _ M), decide_True, Hc by done.
      split; [done|apply trigger_flags].
    + destruct Hh as [Hh|]; [|done]. rewrite (moved_same s ds s') by done. by apply (ci_delegated _ I).
  - intros h Hh. rewrite (mv_running _ _ _ M) in Hh.
    destruct (ci_running _ I h Hh) as (c & Hc & Ha). exists c. split; [|done].
    rewrite (moved_same s ds s'); [done|done|]. intros Hd. by apply (Hrun h).
  - intros h c Hc Ha. rewrite (mv_delegated _ _ _ M), (mv_running _ _ _ M), elem_of_app.
    destruct (Hco h c Hc) as [[Hd _]|[Hn Hc']]; [tauto|].
    destruct (ci_active _ I h c Hc' Ha); tauto.
Qed.

(** Which buckets are visited. *)
Lemma visited s time :
  0 <= last s <= time -> time < 2 ^ 32 -> time - last s <> 64 ->
  exists k : nat, (k < 64)%nat /\
    (if CALLOUT_BUCKETS <? uwrap 32 (time - last s)
     then uwrap 32 (last s - 1) `mod` CALLOUT_BUCKETS else time `mod` CALLOUT_BUCKETS)
    = (last s `mod` 64 + Z.of_nat k) `mod` 64 /\
    (forall t, last s <= t <= time -> exists j, 0 <= j <= Z.of_nat k /\ (last s `mod` 64 + j) `mod` 64 = t `mod` 64).
Proof.
  intros Hl Ht Hne. unfold CALLOUT_BUCKETS, uwrap. rewrite (Z.mod_small (time - last s)) by lia.
  destruct (Z.ltb_spec 64 (time - last s)) as [Hgt|Hle].
  - exists 63%nat. split_and!; [lia| |].
    + destruct (decide (last s = 0)) as [->|]; [done|]. rewrite (Z.mod_small (last s - 1)) by lia. lia.
    + intros t Htt. exists ((t - last s) `mod` 64). lia.
  - exists (Z.to_nat (time - last s)). split_and!; [lia|lia|].
    intros t Htt. exists (t - last s). lia.
Qed.

Lemma process_spec s time :
  callouts_inv s -> last s <= time < 2 ^ 32 -> time - last s <> 64 ->
  (forall h c, running s = Some h -> waiting s h c -> time < c_time c) ->
  exists s' ds, callout_process s time = Ok s' /\ callouts_inv s' /\ last s' = time /\
    delegated s' = delegated s ++ ds /\ running s' = running s /\
    (forall h, h ∈ ds <-> exists c, waiting s h c /\ c_time c <= time) /\
    (forall h, co s' !! h = (if decide (h ∈ ds) then trigger else id) <$> co s !! h).
Proof.
  intros I Ht Hne Hrun. pose proof (ci_last _ I) as Hl. unfold callout_process.
  destruct (visited s time) as (k & Hk & -> & Hvis); [lia|lia|done|].
  destruct (process_loop_spec time k (Z.to_nat CALLOUT_BUCKETS) s (last s `mod` 64))
    as (s1 & ds & E & M & Hds); [by apply inv_buckets|lia|done|exact Hk|].
  unfold CALLOUT_BUCKETS in *. rewrite E. cbn [mbind outcome_bind].
  assert (forall h, h ∈ ds <-> exists c, waiting s h c /\ c_time c <= time) as Hds'.
  { intros h. rewrite Hds. unfold due. split.
    - intros (Hd & j & _ & Hb). apply in_bucket in Hb as (c & [Hc Hp] & _); [|done].
      rewrite Hc in Hd. exists c. split; [done|lia].
    - intros (c & [Hc Hp] & Hle). rewrite Hc. split; [lia|].
      destruct (ci_time _ I h c Hc Hp) as [Hi Hr].
      destruct (Hvis (c_time c)) as (j & Hj & Ej); [lia|]. exists j. split; [done|].
      apply in_bucket; [done|]. exists c. split; [done|]. by rewrite Ej. }
  eexists _, ds. split; [done|]. cbn [co last delegated running].
  split; [|split_and!; try done; apply M].
  apply (moved_inv s ds); try done. intros h Hd Hr. apply Hds' in Hd as (c & Hw & Hle).
  specialize (Hrun h c Hr Hw). lia.
Qed.

(** C27: The clock interrupt at tick [time] moves to the callout thread exactly the pending
    callouts whose time has come, whatever time has passed since the last interrupt other
    than exactly 64 ticks; all others stay pending, and the structures stay consistent.
    (The callout being run must not be due again.) *)
Theorem callout_process_correct s time :
  callouts_inv s -> last s <= time < 2 ^ 32 -> time - last s <> 64 ->
  (forall h c, running s = Some h -> waiting s h c -> time < c_time c) ->
  exists s' ds, callout_process s time = Ok s' /\ callouts_inv s' /\
    delegated s' = delegated s ++ ds /\
    (forall h, h ∈ ds <-> exists c, waiting s h c /\ c_time c <= time) /\
    (forall h c, waiting s' h c <-> waiting s h c /\ time < c_time c).
Proof.
  intros I Ht Hne Hrun.
  destruct (process_spec s time I Ht Hne Hrun) as (s' & ds & E & I' & _ & Hd & _ & Hds & Hco).
  exists s', ds. split_and!; try done. intros h c. unfold waiting at 1. rewrite Hco. split.
  - intros [Hc Hp]. destruct (co s !! h) as [c0|] eqn:E0; [|done]. cbn in Hc. simplify_eq.
    case_decide as Hin; [by rewrite (proj2 (trigger_flags c0)) in Hp|]. cbn in *.
    split; [done|]. destruct (decide (c_time c0 <= time)); [|lia]. destruct Hin. apply Hds. by exists c0.
  - intros [[Hc Hp] Hlt]. rewrite decide_False; [by rewrite Hc|].
    intros Hin. apply Hds in Hin as (c' & [Hc' _] & Hle). simplify_eq. lia.
Qed.

(** ** The other operations *)

(** Changing a callout without touching what the invariant speaks of. *)
Lemma put_inv s h c c' :
  callouts_inv s -> co s !! h = Some c ->
  callout_is_pending c' = callout_is_pending c -> callout_is_active c' = callout_is_active c ->
  c_time c' = c_time c -> c_index c' = c_index c -> callouts_inv (put s h c').
Proof.
  intros [I1 I2 I3 I4 I5 I6 I7 I8 I9] Hc Hp Ha Ht Hi.
  assert (forall x (P : callout_t -> Prop), (P c' <-> P c) ->
    (exists cx, <[h := c']> (co s) !! x = Some cx /\ P cx) <-> exists cx, co s !! x = Some cx /\ P cx) as Hex.
  { intros x P HP. destruct (decide (x = h)) as [->|].
    - rewrite lookup_insert_eq, Hc. split; intros (? & [= <-] & ?); eexists; split; tauto.
    - by rewrite lookup_insert_ne. }
  assert (forall x cx, <[h := c']> (co s) !! x = Some cx -> exists c0, co s !! x = Some c0 /\
    callout_is_pending cx = callout_is_pending c0 /\ callout_is_active cx = callout_is_active c0 /\
    c_time cx = c_time c0 /\ c_index cx = c_index c0) as Hback.
  { intros x cx Hx. apply lookup_insert_Some in Hx as [[<- <-]|[_ Hx]]; eauto 10. }
  split; cbn [put co heads last delegated running]; try done.
  - intros i l x Hl. rewrite (I3 i l x Hl), Hex; [done|]. by rewrite Hp, Hi.
  - intros x cx Hx Hpx. apply Hback in Hx as (c0 & Hx & E1 & _ & -> & ->). apply I4 with x; congruence.
  - intros x Hx. destruct (I7 x Hx) as [Hr He]. split; [done|]. rewrite Hex; [done|]. by rewrite Ha, Hp.
  - intros x Hx. apply Hex; [by rewrite Ha|]. by apply I8.
  - intros x cx Hx Hax. apply Hback in Hx as (c0 & Hx & _ & E1 & _). apply (I9 x c0); congruence.
Qed.

Lemma schedule_inv s h c tm :
  callouts_inv s -> co s !! h = Some c -> callout_is_pending c = false -> h ∉ delegated s ->
  last s <= tm < 2 ^ 32 ->
  exists s', _callout_schedule s h tm = Ok s' /\ callouts_inv s' /\
    co s' = <[h := Callout tm (flag_set (c_flags c) CALLOUT_PENDING) (tm `mod` 64)]> (co s) /\
    delegated s' = delegated s /\ running s' = running s /\ last s' = last s.
Proof.
  intros [I1 I2 I3 I4 I5 I6 I7 I8 I9] Hc Hp Hd Ht. unfold _callout_schedule, get.
  rewrite Hc. cbn [mbind outcome_bind]. assert_step ltac:(by rewrite Hp).
  cbn [put heads callout_set_pending c_flags]. unfold CALLOUT_BUCKETS.
  pose proof (Z.mod_pos_bound tm 64 ltac:(lia)) as Hb.
  destruct (arr_get_in_range (heads s) (tm `mod` 64)) as (l & -> & Hl); [lia|]. cbn [mbind outcome_bind].
  rewrite arr_set_ok by lia. cbn [mbind outcome_bind]. eexists. split; [done|].
  set (c' := Callout tm _ _). split; [|done].
  assert (callout_is_pending c' = true) as Hp' by apply (pending_set c).
  assert (callout_is_active c' = callout_is_active c) as Ha' by apply (active_set_pending c).
  assert (h ∉ l) as Hnl by (intros Hin; apply (I3 _ l h Hl) in Hin as (? & ? & ? & _); congruence).
  split; cbn [set_heads put co heads last delegated running]; try done.
  - by rewrite length_insert.
  - intros i l' Hi. apply list_lookup_insert_Some in Hi as [(<- & <- & _)|[_ Hi]]; [|by apply (I2 i)].
    apply NoDup_app. split_and!; [by apply (I2 _ _ Hl)|set_solver|apply NoDup_singleton].
  - intros i l' x Hi. destruct (decide (x = h)) as [->|Hx].
    + rewrite lookup_insert_eq. apply list_lookup_insert_Some in Hi as [(<- & <- & _)|[Hne Hi]].
      * split; [|set_solver]. intros _. exists c'. cbn. split_and!; [done|done|lia].
      * split.
        -- intros Hin. apply (I3 i l' h Hi) in Hin as (? & ? & ? & _). congruence.
        -- intros (? & [= <-] & _ & E). cbn in E. lia.
    + rewrite lookup_insert_ne by done.
      apply list_lookup_insert_Some in Hi as [(<- & <- & _)|[Hne Hi]]; [|by apply I3].
      rewrite <- (I3 _ l x Hl). set_solver.
  - intros x cx Hx Hpx. apply lookup_insert_Some in Hx as [[<- <-]|[_ Hx]]; [done|by apply (I4 x)].
  - intros x Hx. rewrite lookup_insert_ne by (by intros ->). by apply I7.
  - intros x Hx. destruct (I8 x Hx) as (c0 & Hc0 & Ha0). destruct (decide (x = h)) as [->|].
    + exists c'. rewrite lookup_insert_eq. split; [done|]. congruence.
    + exists c0. by rewrite lookup_insert_ne.
  - intros x cx Hx Hax. apply lookup_insert_Some in Hx as [[<- <-]|[_ Hx]]; [|by apply (I9 x cx)].
    apply (I9 h c); congruence.
Qed.

Lemma unlist_inv s h c c' l hs :
  callouts_inv s -> co s !! h = Some c -> callout_is_pending c' = false ->
  callout_is_active c' = callout_is_active c -> callout_is_pending c = true ->
  heads s !! Z.to_nat (c_index c) = Some l ->
  hs = <[Z.to_nat (c_index c) := filter (fun x => x <> h) l]> (heads s) ->
  callouts_inv (set_heads (put s h c') hs).
Proof.
  intros [I1 I2 I3 I4 I5 I6 I7 I8 I9] Hc Hp' Ha Hp Hl ->.
  pose proof (lookup_lt_Some _ _ _ Hl) as Hlt.
  assert (0 <= c_index c) as Hi0 by (destruct (I4 h c Hc Hp) as [-> _]; lia).
  split; cbn [set_heads put co heads last delegated running]; try done.
  - by rewrite length_insert.
  - intros i l' Hi. apply list_lookup_insert_Some in Hi as [(<- & <- & _)|[_ Hi]]; [|by apply (I2 i)].
    by apply NoDup_filter, (I2 _ _ Hl).
  - intros i l' x Hi. destruct (decide (x = h)) as [->|Hx].
    + rewrite lookup_insert_eq. split; [|intros (? & [= <-] & ? & _); congruence].
      intros Hin. apply list_lookup_insert_Some in Hi as [(<- & <- & _)|[Hne Hi]].
      * apply list_elem_of_filter in Hin as [? _]. done.
      * apply (I3 i l' h Hi) in Hin as (c0 & Hc0 & _ & E). simplify_eq. lia.
    + rewrite lookup_insert_ne by done.
      apply list_lookup_insert_Some in Hi as [(<- & <- & _)|[Hne Hi]]; [|by apply I3].
      rewrite <- (I3 _ l x Hl), list_elem_of_filter. naive_solver.
  - intros x cx Hx Hpx. apply lookup_insert_Some in Hx as [[<- <-]|[_ Hx]]; [congruence|by apply (I4 x)].
  - intros x Hx. destruct (I7 x Hx) as (Hr & c0 & Hc0 & Ha0 & Hp0). split; [done|].
    rewrite lookup_insert_ne by (intros ->; congruence). eauto.
  - intros x Hx. destruct (I8 x Hx) as (c0 & Hc0 & Ha0). destruct (decide (x = h)) as [->|].
    + exists c'. rewrite lookup_insert_eq. split; [done|]. congruence.
    + exists c0. by rewrite lookup_insert_ne.
  - intros x cx Hx Hax. apply lookup_insert_Some in Hx as [[<- <-]|[_ Hx]]; [|by apply (I9 x cx)].
    apply (I9 h c); congruence.
Qed.

(** [callout_stop]: the callout is no longer pending; it tells whether it is active. *)
Lemma stop_inv s h c :
  callouts_inv s -> co s !! h = Some c ->
  exists s' c', callout_stop s h = Ok (negb (callout_is_active c), s') /\ callouts_inv s' /\
    co s' = <[h := c']> (co s) /\ callout_is_pending c' = false /\
    callout_is_active c' = callout_is_active c /\ callout_is_stopped c' = true /\
    delegated s' = delegated s /\ running s' = running s /\ last s' = last s.
Proof.
  intros I Hc. unfold callout_stop, get. rewrite Hc. cbn [mbind outcome_bind].
  rewrite pending_set_stopped. destruct (callout_is_pending c) eqn:Hp.
  - destruct (ci_time _ I h c Hc Hp) as [Hi _]. pose proof (ci_len _ I) as Hlen.
    pose proof (Z.mod_pos_bound (c_time c) 64 ltac:(lia)) as Hb.
    cbn [callout_clear_pending callout_set_stopped c_index].
    destruct (arr_get_in_range (heads s) (c_index c)) as (l & -> & Hl); [lia|]. cbn [mbind outcome_bind].
    assert (h ∈ l) as Hin by (apply (ci_listed _ I _ l h Hl); exists c; split_and!; [done|done|lia]).
    unfold tailq_remove. rewrite decide_True by done. cbn [mbind outcome_bind].
    rewrite arr_set_ok by lia. cbn [mbind outcome_bind].
    set (c' := callout_clear_pending (callout_set_stopped c)).
    assert (callout_is_active c' = callout_is_active c) as Ha by (unfold c'; by autorewrite with callout).
    exists (set_heads (put s h c') (<[Z.to_nat (c_index c) := filter (fun x => x <> h) l]> (heads s))), c'.
    split_and!; try done; try (unfold c'; by autorewrite with callout).
    by apply (unlist_inv s h c c' l); try (unfold c'; autorewrite with callout).
  - exists (put s h (callout_set_stopped c)), (callout_set_stopped c). autorewrite with callout.
    split_and!; try done. apply (put_inv s h c); autorewrite with callout; done.
Qed.

Lemma take_inv s h l :
  callouts_inv s -> running s = None -> delegated s = h :: l ->
  callout_thread_take s = Ok (Callouts (co s) (heads s) (last s) l (Some h)) /\
  callouts_inv (Callouts (co s) (heads s) (last s) l (Some h)).
Proof.
  intros [I1 I2 I3 I4 I5 I6 I7 I8 I9] Hr Hd. unfold callout_thread_take, get.
  rewrite Hd in I6, I7, I9. destruct (I7 h) as (_ & c & Hc & Ha & Hp); [set_solver|].
  rewrite Hd, Hc. cbn [mbind outcome_bind]. rewrite Ha, Hp. split; [done|].
  apply NoDup_cons in I6 as [Hn I6].
  split; cbn [co heads last delegated running]; try done.
  - intros x Hx. destruct (I7 x) as [_ He]; [set_solver|]. split; [|done].
    intros [= ->]. done.
  - intros x [= <-]. eauto.
  - intros x cx Hx Hax. destruct (I9 x cx Hx Hax) as [Hin|]; [|congruence].
    apply elem_of_cons in Hin as [->|]; tauto.
Qed.

Lemma done_inv s h c :
  callouts_inv s -> running s = Some h -> co s !! h = Some c ->
  let s' := Callouts (<[h := callout_clear_active c]> (co s)) (heads s) (last s) (delegated s) None in
  callout_thread_done s = Ok (negb (callout_is_pending c), s') /\ callouts_inv s'.
Proof.
  intros [I1 I2 I3 I4 I5 I6 I7 I8 I9] Hr Hc s'. unfold callout_thread_done, get.
  rewrite Hr, Hc. cbn [mbind outcome_bind]. rewrite pending_clear_active. split; [done|].
  assert (h ∉ delegated s) as Hnd by (intros Hin; by apply I7 in Hin as [? _]).
  split; cbn [s' co heads last delegated running]; try done.
  - intros i l x Hi. rewrite (I3 i l x Hi). destruct (decide (x = h)) as [->|].
    + rewrite lookup_insert_eq, Hc. split; intros (? & [= <-] & HP & HI); eexists;
        (split; [done|]); by rewrite pending_clear_active in *.
    + by rewrite lookup_insert_ne.
  - intros x cx Hx Hpx. apply lookup_insert_Some in Hx as [[<- <-]|[_ Hx]]; [|by apply (I4 x)].
    rewrite pending_clear_active in Hpx. by apply (I4 h c).
  - intros x Hx. split; [done|]. rewrite lookup_insert_ne by (by intros ->). by apply I7.
  - intros x cx Hx Hax. apply lookup_insert_Some in Hx as [[<- <-]|[Hne Hx]].
    + by rewrite active_clear in Hax.
    + destruct (I9 x cx Hx Hax); [by left|congruence].
Qed.

Lemma setup_inv s h :
  callouts_inv s ->
  (forall c, co s !! h = Some c -> callout_is_pending c = false /\ callout_is_active c = false) ->
  callouts_inv (callout_setup s h).
Proof.
  intros [I1 I2 I3 I4 I5 I6 I7 I8 I9] Hidle.
  assert (h ∉ delegated s) as Hnd.
  { intros Hin. apply I7 in Hin as (_ & c & Hc & Ha & _). destruct (Hidle c Hc). congruence. }
  split; cbn [callout_setup put co heads last delegated running]; try done.
  - intros i l x Hi. rewrite (I3 i l x Hi). destruct (decide (x = h)) as [->|].
    + rewrite lookup_insert_eq. split; intros (c & Hc & HP & _).
      * destruct (Hidle c Hc). congruence.
      * by simplify_eq.
    + by rewrite lookup_insert_ne.
  - intros x cx Hx Hpx. apply lookup_insert_Some in Hx as [[<- <-]|[_ Hx]]; [done|by apply (I4 x)].
  - intros x Hx. rewrite lookup_insert_ne by (by intros ->). by apply I7.
  - intros x Hx. destruct (I8 x Hx) as (c & Hc & Ha). destruct (decide (x = h)) as [->|].
    + destruct (Hidle c Hc). congruence.
    + rewrite lookup_insert_ne by done. eauto.
  - intros x cx Hx Hax. apply lookup_insert_Some in Hx as [[<- <-]|[_ Hx]]; [done|by apply (I9 x cx)].
Qed.

(** ** Sequences of operations *)

Inductive event :=
| Setup (h : Z)
| ScheduleAbs (h tm : Z)
| Schedule (h now tm : Z)
| Reschedule (tm : Z)
| Stop (h : Z)
| Process (time : Z)
| Take
| Done.

(** [Reschedule] is called by the function of the running callout. *)
Definition callout_step s (e : event) : outcome callouts :=
  match e with
  | Setup h => Ok (callout_setup s h)
  | ScheduleAbs h tm => callout_schedule_abs s h tm
  | Schedule h now tm => callout_schedule s h now tm
  | Reschedule tm =>
      match running s with
      | Some h => '(_, s) ← callout_reschedule s h tm; Ok s
      | None => Ok s
      end
  | Stop h => '(_, s) ← callout_stop s h; Ok s
  | Process time => callout_process s time
  | Take => callout_thread_take s
  | Done => '(_, s) ← callout_thread_done s; Ok s
  end.

Definition idle s h : Prop :=
  exists c, co s !! h = Some c /\ callout_is_pending c = false /\ callout_is_active c = false.

(** The contract of the clients: only idle callouts are set up or scheduled, and not into
    the past; a function reschedules itself at most once per run; time goes on, by other
    than 64 ticks; and the running callout is not due again before it has returned. *)
Definition event_ok s (e : event) : Prop :=
  match e with
  | Setup h => co s !! h = None \/ idle s h
  | ScheduleAbs h tm => idle s h /\ last s <= tm < 2 ^ 32
  | Schedule h now tm => idle s h /\ last s <= now /\ 0 <= tm /\ now + tm < 2 ^ 32
  | Reschedule tm => exists h c, running s = Some h /\ co s !! h = Some c /\
      callout_is_pending c = false /\ last s <= tm < 2 ^ 32
  | Stop h => is_Some (co s !! h)
  | Process time => last s <= time < 2 ^ 32 /\ time - last s <> 64 /\
      forall h c, running s = Some h -> waiting s h c -> time < c_time c
  | Take => running s = None
  | Done => True
  end.

Lemma schedule_idle s h c tm :
  callouts_inv s -> co s !! h = Some c -> callout_is_pending c = false -> callout_is_active c = false ->
  last s <= tm < 2 ^ 32 ->
  exists s', (_ ← assert (negb (callout_is_active c));
     _callout_schedule (put s h (callout_clear_stopped c)) h tm) = Ok s' /\ callouts_inv s' /\
   (forall x, x <> h -> co s' !! x = co s !! x) /\
   delegated s' = delegated s /\ running s' = running s.
Proof.
  intros I Hc Hp Ha Ht. rewrite Ha. cbn [negb assert mbind outcome_bind].
  assert (callouts_inv (put s h (callout_clear_stopped c))) as I1
    by (apply (put_inv s h c); autorewrite with callout; done).
  destruct (schedule_inv _ h (callout_clear_stopped c) tm I1) as (s' & -> & I' & Hco & Hd & Hr & _).
  - apply lookup_insert_eq.
  - by autorewrite with callout.
  - intros Hin. apply (ci_delegated _ I) in Hin as (_ & c0 & Hc0 & Ha0 & _). congruence.
  - done.
  - exists s'. split_and!; try done. intros x Hx. rewrite Hco. cbn. by rewrite !lookup_insert_ne.
Qed.

Definition schedules (e : event) h : Prop :=
  match e with ScheduleAbs h' _ => h' = h | Schedule h' _ _ => h' = h | _ => False end.

Lemma idle_frame s s' h x :
  (forall y, y <> h -> co s' !! y = co s !! y) -> x <> h -> idle s x -> idle s' x.
Proof. intros Hf Hx (c & Hc & HH). exists c. by rewrite Hf. Qed.

Lemma running_not_idle s h : callouts_inv s -> running s = Some h -> ~ idle s h.
Proof.
  intros I Hr (c & Hc & _ & Ha). destruct (ci_running _ I h Hr) as (c' & Hc' & Ha'). congruence.
Qed.

Lemma reschedule_inv s h c tm :
  callouts_inv s -> running s = Some h -> co s !! h = Some c -> callout_is_pending c = false ->
  last s <= tm < 2 ^ 32 ->
  exists r s', callout_reschedule s h tm = Ok (r, s') /\ callouts_inv s' /\
    (forall x, x <> h -> co s' !! x = co s !! x).
Proof.
  intros I Hr Hc Hp Ht. unfold callout_reschedule, get. rewrite Hc. cbn [mbind outcome_bind].
  destruct (ci_running _ I h Hr) as (c' & Hc' & Ha). simplify_eq. assert_step ltac:(done).
  destruct (callout_is_stopped c); [by exists false, s|].
  destruct (schedule_inv s h c tm I Hc Hp) as (s' & -> & I' & Hco & _).
  - intros Hin. by apply (ci_delegated _ I) in Hin as [? _].
  - done.
  - exists true, s'. split_and!; try done. intros x Hx. by rewrite Hco, lookup_insert_ne.
Qed.

(** An operation within the contract succeeds, keeps the invariant, and makes no callout
    busy that it does not schedule. *)
Lemma callout_step_inv s e :
  callouts_inv s -> event_ok s e ->
  exists s', callout_step s e = Ok s' /\ callouts_inv s' /\
    forall x, ~ schedules e x -> idle s x -> idle s' x.
Proof.
  intros I He. destruct e as [h|h tm|h now tm|tm|h|time| |]; cbn [callout_step event_ok schedules] in *.
  - eexists. split; [done|]. split.
    + apply setup_inv; [done|]. intros c Hc. destruct He as [He|(c' & Hc' & ? & ?)]; [congruence|].
      by simplify_eq.
    + intros x _ (c & Hc & HH). unfold idle. cbn. destruct (decide (x = h)) as [->|].
      * rewrite lookup_insert_eq. by eexists.
      * rewrite lookup_insert_ne by done. eauto.
  - destruct He as [(c & Hc & Hp & Ha) Ht]. unfold callout_schedule_abs, get. rewrite Hc.
    cbn [mbind outcome_bind].
    destruct (schedule_idle s h c tm I Hc Hp Ha Ht) as (s' & E & I' & Hf & _). exists s'.
    split_and!; try done. intros x Hx. by apply (idle_frame s s' h).
  - destruct He as [(c & Hc & Hp & Ha) (H1 & H2 & H3)]. unfold callout_schedule, get. rewrite Hc.
    cbn [mbind outcome_bind]. rewrite uwrap_small by (pose proof (ci_last _ I); lia).
    destruct (schedule_idle s h c (now + tm) I Hc Hp Ha ltac:(lia)) as (s' & E & I' & Hf & _). exists s'.
    split_and!; try done. intros x Hx. by apply (idle_frame s s' h).
  - destruct He as (h & c & Hr & Hc & Hp & Ht). rewrite Hr.
    destruct (reschedule_inv s h c tm I Hr Hc Hp Ht) as (r & s' & -> & I' & Hf). exists s'.
    split_and!; try done. intros x _ Hx. apply (idle_frame s s' h); try done.
    intros ->. by apply (running_not_idle s h I).
  - destruct He as [c Hc].
    destruct (stop_inv s h c I Hc) as (s' & c' & -> & I' & Hco & Hp & Ha & _). exists s'.
    split_and!; try done. intros x _ (cx & Hx & Hpx & Hax). unfold idle. rewrite Hco.
    destruct (decide (x = h)) as [->|].
    + rewrite lookup_insert_eq. exists c'. simplify_eq. by rewrite Ha.
    + rewrite lookup_insert_ne by done. eauto.
  - destruct He as (Ht & Hne & Hrun).
    destruct (process_spec s time I Ht Hne Hrun) as (s' & ds & E & I' & _ & _ & _ & Hds & Hco).
    exists s'. split_and!; try done. intros x _ (cx & Hx & Hpx & Hax). exists cx.
    rewrite Hco, decide_False; [by rewrite Hx|]. intros Hin. apply Hds in Hin as (c & [Hc Hp] & _). congruence.
  - destruct (delegated s) as [|h l] eqn:Hd.
    + exists s. unfold callout_thread_take. rewrite Hd. done.
    + destruct (take_inv s h l I He Hd) as [-> I']. eexists. split_and!; [done|done|]. done.
  - destruct (running s) as [h|] eqn:Hr.
    + destruct (ci_running _ I h Hr) as (c & Hc & _). destruct (done_inv s h c I Hr Hc) as [-> I'].
      eexists. split_and!; [done|done|]. intros x _ Hx. apply (idle_frame s _ h); try done.
      * intros y Hy. cbn. by rewrite lookup_insert_ne.
      * intros ->. by apply (running_not_idle s h I).
    + exists s. unfold callout_thread_done. rewrite Hr. done.
Qed.

Fixpoint callout_run s (es : list event) : outcome callouts :=
  match es with [] => Ok s | e :: es => s ← callout_step s e; callout_run s es end.

(** The clients keep the contract all along. *)
Fixpoint events_ok s (es : list event) : Prop :=
  match es with
  | [] => True
  | e :: es => event_ok s e /\ forall s', callout_step s e = Ok s' -> events_ok s' es
  end.

Lemma callout_run_inv es : forall s,
  callouts_inv s -> events_ok s es ->
  exists s', callout_run s es = Ok s' /\ callouts_inv s' /\
    forall x, Forall (fun e => ~ schedules e x) es -> idle s x -> idle s' x.
Proof.
  induction es as [|e es IH]; intros s I Hes; [by exists s|]. destruct Hes as [He Hes].
  destruct (callout_step_inv s e I He) as (s1 & E1 & I1 & Hi1). cbn [callout_run]. rewrite E1.
  destruct (IH s1 I1 (Hes s1 E1)) as (s' & E' & I' & Hi'). exists s'. split_and!; try done.
  intros x Hx Hid. apply Forall_cons in Hx as [Hx Hxs]. apply Hi'; [done|]. by apply Hi1.
Qed.

Lemma init_inv : callouts_inv init_callout.
Proof.
  split; cbn [init_callout co heads last delegated running]; try done.
  - intros i l Hi. apply lookup_replicate in Hi as [-> _]. constructor.
  - intros i l h Hi. apply lookup_replicate in Hi as [-> _]. split; [set_solver|]. intros (c & Hc & _). done.
  - constructor.
  - set_solver.
Qed.

(** C20: From the start of the kernel on, operations of clients that keep the contract
    never fail an assertion or touch a list that the callout is not on, and the buckets,
    the queue of the callout thread and the flags stay consistent. *)
Theorem callouts_consistent es :
  events_ok init_callout es ->
  exists s, callout_run init_callout es = Ok s /\ callouts_inv s.
Proof. intros Hes. destruct (callout_run_inv es _ init_inv Hes) as (s & E & I & _). by exists s. Qed.

(** When [callout_stop] returns true, the callout thread is never in the callout's
    function afterwards, whatever happens, until the callout is scheduled again. *)
Theorem callout_stop_final s h s' es :
  callouts_inv s -> callout_stop s h = Ok (true, s') -> events_ok s' es ->
  Forall (fun e => ~ schedules e h) es ->
  exists s'', callout_run s' es = Ok s'' /\ running s'' <> Some h /\ h ∉ delegated s''.
Proof.
  intros I Hstop Hes Hns. pose proof Hstop as Hstop'. unfold callout_stop, get in Hstop'.
  apply bind_ok in Hstop' as (c & Hget & _). destruct (co s !! h) as [c0|] eqn:Hc; [|done].
  destruct (stop_inv s h c0 I Hc) as (s1 & c' & E & I1 & Hco & Hp & Ha & _).
  rewrite E in Hstop. injection Hstop as Hact ->.
  destruct (callout_run_inv es s' I1 Hes) as (s2 & E2 & I2 & Hid). exists s2. split; [done|].
  assert (idle s2 h) as (c2 & Hc2 & Hp2 & Ha2).
  { apply Hid; [done|]. exists c'. rewrite Hco, lookup_insert_eq. split_and!; [done|done|].
    rewrite Ha. by destruct (callout_is_active c0). }
  split.
  - intros Hr. destruct (ci_running _ I2 h Hr) as (c3 & Hc3 & Ha3). congruence.
  - intros Hd. apply (ci_delegated _ I2) in Hd as (_ & c3 & Hc3 & Ha3 & _). congruence.
Qed.

(** ** Flaws *)

(** When exactly 64 ticks have passed, only one bucket is looked at: the callout for
    tick 1 is still pending after the interrupt at tick 64. *)
Lemma process_misses_at_64 :
  match callout_run init_callout [Setup 8; ScheduleAbs 8 1; Process 64] with
  | Ok s => delegated s = [] /\ (callout_is_pending <$> co s !! 8) = Some true
  | Fault _ => False
  end.
Proof. vm_compute. done. Qed.

(** A callout that reschedules itself and becomes due before the callout thread has
    marked it as finished loses its active flag, and the thread's next pass fails its
    assertion. *)
Lemma reschedule_race :
  callout_run init_callout
    [Setup 8; ScheduleAbs 8 1; Process 1; Take; Reschedule 2; Process 2; Done; Take]
  = Fault AssertFailed.
Proof. reflexivity. Qed.

(** ** Samples *)

Definition sample_events : list event := [Setup 8; Setup 9; ScheduleAbs 8 5; ScheduleAbs 9 80].

Definition sample_callouts : callouts :=
  match callout_run init_callout sample_events with Ok s => s | Fault _ => init_callout end.

Ltac event_step :=
  match goal with |- event_ok _ _ /\ _ => split; [|intros ? [= <-]] end.

Lemma sample_events_ok : events_ok init_callout sample_events.
Proof.
  unfold sample_events. cbn [events_ok]. event_step; [by left|]. event_step; [by left|].
  event_step; [|event_step; [|done]].
  - split; [|by vm_compute]. eexists. split; [by vm_compute|]. done.
  - split; [|by vm_compute]. eexists. split; [by vm_compute|]. done.
Qed.

Lemma sample_callouts_inv : callouts_inv sample_callouts.
Proof.
  destruct (callout_run_inv sample_events init_callout init_inv sample_events_ok) as (s & E & I & _).
  unfold sample_callouts. by rewrite E.
Qed.

Lemma callout_process_correct_witness : exists s' ds,
  callout_process sample_callouts 70 = Ok s' /\ callouts_inv s' /\
  delegated s' = delegated sample_callouts ++ ds /\ 8 ∈ ds.
Proof.
  destruct (callout_process_correct sample_callouts 70 sample_callouts_inv)
    as (s' & ds & E & I & Hd & Hds & _); [by vm_compute|by vm_compute|by intros|].
  exists s', ds. split_and!; [exact E|exact I|exact Hd|]. apply Hds. eexists.
  split; [split; by vm_compute|by vm_compute].
Defined.

Lemma callouts_consistent_witness : exists s,
  callout_run init_callout sample_events = Ok s /\ callouts_inv s.
Proof. exact (callouts_consistent sample_events sample_events_ok). Defined.

Lemma callout_stop_final_witness : exists s' s'',
  callout_stop sample_callouts 8 = Ok (true, s') /\
  callout_run s' [Process 10; Take] = Ok s'' /\ running s'' <> Some 8.
Proof.
  destruct (callout_stop sample_callouts 8) as [[b s']|f] eqn:E; [|by vm_compute in E].
  assert (b = true) as -> by (vm_compute in E; congruence).
  destruct (callout_stop_final sample_callouts 8 s' [Process 10; Take] sample_callouts_inv E)
    as (s'' & E' & Hr & _).
  - assert (running s' = None /\ last s' = 0) as [Hr Hl]
      by (vm_compute in E; injection E as <-; done).
    cbn [events_ok]. split.
    + cbn. rewrite Hl, Hr. done.
    + intros s1 E1. split; [|done]. cbn in *.
      assert (callout_process s' 10 = Ok s1 -> running s1 = None) as HH.
      { vm_compute in E. injection E as <-. vm_compute. by intros [= <-]. }
      by apply HH.
  - constructor; [by intros []|]. constructor; [by intros []|constructor].
  - exists s', s''. done.
Defined.
