(* ===== verification/Sched.v ===== *)
(** * Threads and the scheduler (sys/kern/sched.c, sys/kern/runq.c,
    include/sys/priority.h, include/sys/thread.h, parts of sys/kern/thread.c)

    Threads that are ready wait on one of 64 run queues, four priorities to a queue, and
    [sched_switch] dispatches the first thread of the first queue that is not empty.  The
    results: the run queues hold exactly the ready threads whatever the threads do; the
    dispatched thread is of the highest band and the threads of a band take turns; no
    thread that is ready in the highest band waits longer than the slices of those before
    it. *)

From S2P Require Import Prelude Time.

(** ** Priorities: 0 is the highest, 255 the lowest *)

Definition PRIO_QTY : Z := 256.
Definition PRIO_ITHRD_QTY : Z := 32.
Definition PRIO_KTHRD_QTY : Z := 64.
Definition PRIO_UTHRD_QTY : Z := 160.

Definition prio_ithread (n : Z) : Z := uwrap 8 (n * (PRIO_ITHRD_QTY - 1) ÷ (PRIO_QTY - 1)).
Definition prio_kthread (n : Z) : Z :=
  uwrap 8 (PRIO_ITHRD_QTY + n * (PRIO_KTHRD_QTY - 1) ÷ (PRIO_QTY - 1)).
Definition prio_uthread (n : Z) : Z :=
  uwrap 8 (PRIO_ITHRD_QTY + PRIO_KTHRD_QTY + n * (PRIO_UTHRD_QTY - 1) ÷ (PRIO_QTY - 1)).

Definition prio_le (p1 p2 : Z) : bool := p2 <=? p1.
Definition prio_lt (p1 p2 : Z) : bool := p2 <? p1.
Definition prio_ge (p1 p2 : Z) : bool := p1 <=? p2.
Definition prio_gt (p1 p2 : Z) : bool := p1 <? p2.
Definition prio_ne (p1 p2 : Z) : bool := negb (p1 =? p2).
Definition prio_eq (p1 p2 : Z) : bool := p1 =? p2.

(** ** Threads *)

Inductive thread_state_t :=
| TDS_INACTIVE | TDS_READY | TDS_RUNNING | TDS_SLEEPING | TDS_BLOCKED | TDS_STOPPED | TDS_DEAD.
#[export] Instance thread_state_eq_dec : EqDecision thread_state_t.
Proof. solve_decision. Defined.

Definition TDF_SLICEEND : Z := 0x00000001.
Definition TDF_NEEDSWITCH : Z := 0x00000002.
Definition TDF_NEEDSIGCHK : Z := 0x00000004.
Definition TDF_STOPPING : Z := 0x00000008.
Definition TDF_BORROWING : Z := 0x00000010.
Definition TDF_SLPINTR : Z := 0x00000040.
Definition TDF_SLPTIMED : Z := 0x00000080.

(** The fields of a thread that the scheduler, the sleep queues and the turnstiles use.
    Pointers are addresses, 0 for a null pointer; [td_retval] is the value that the
    thread's saved context makes [sched_switch] return. *)
Record thread := Thread {
  td_state : thread_state_t;
  td_flags : Z;
  td_idnest : Z;
  td_pdnest : Z;
  td_wchan : Z;
  td_waitpt : Z;
  td_sleepqueue : Z;
  td_blocked : Z;
  td_turnstile : Z;
  td_contested : list Z;
  td_base_prio : Z;
  td_prio : Z;
  td_slice : Z;
  td_rtime : bintime_t;
  td_last_rtime : bintime_t;
  td_slptime : bintime_t;
  td_last_slptime : bintime_t;
  td_nctxsw : Z;
  td_retval : Z;
}.

Definition set_td_state (v : thread_state_t) (t : thread) : thread :=
  Thread v (td_flags t) (td_idnest t) (td_pdnest t) (td_wchan t) (td_waitpt t)
    (td_sleepqueue t) (td_blocked t) (td_turnstile t) (td_contested t) (td_base_prio t)
    (td_prio t) (td_slice t) (td_rtime t) (td_last_rtime t) (td_slptime t) (td_last_slptime
    t) (td_nctxsw t) (td_retval t).
Definition set_td_flags (v : Z) (t : thread) : thread :=
  Thread (td_state t) v (td_idnest t) (td_pdnest t) (td_wchan t) (td_waitpt t)
    (td_sleepqueue t) (td_blocked t) (td_turnstile t) (td_contested t) (td_base_prio t)
    (td_prio t) (td_slice t) (td_rtime t) (td_last_rtime t) (td_slptime t) (td_last_slptime
    t) (td_nctxsw t) (td_retval t).
Definition set_td_idnest (v : Z) (t : thread) : thread :=
  Thread (td_state t) (td_flags t) v (td_pdnest t) (td_wchan t) (td_waitpt t) (td_sleepqueue
    t) (td_blocked t) (td_turnstile t) (td_contested t) (td_base_prio t) (td_prio t)
    (td_slice t) (td_rtime t) (td_last_rtime t) (td_slptime t) (td_last_slptime t)
    (td_nctxsw t) (td_retval t).
Definition set_td_pdnest (v : Z) (t : thread) : thread :=
  Thread (td_state t) (td_flags t) (td_idnest t) v (td_wchan t) (td_waitpt t) (td_sleepqueue
    t) (td_blocked t) (td_turnstile t) (td_contested t) (td_base_prio t) (td_prio t)
    (td_slice t) (td_rtime t) (td_last_rtime t) (td_slptime t) (td_last_slptime t)
    (td_nctxsw t) (td_retval t).
Definition set_td_wchan (v : Z) (t : thread) : thread :=
  Thread (td_state t) (td_flags t) (td_idnest t) (td_pdnest t) v (td_waitpt t)
    (td_sleepqueue t) (td_blocked t) (td_turnstile t) (td_contested t) (td_base_prio t)
    (td_prio t) (td_slice t) (td_rtime t) (td_last_rtime t) (td_slptime t) (td_last_slptime
    t) (td_nctxsw t) (td_retval t).
Definition set_td_waitpt (v : Z) (t : thread) : thread :=
  Thread (td_state t) (td_flags t) (td_idnest t) (td_pdnest t) (td_wchan t) v (td_sleepqueue
    t) (td_blocked t) (td_turnstile t) (td_contested t) (td_base_prio t) (td_prio t)
    (td_slice t) (td_rtime t) (td_last_rtime t) (td_slptime t) (td_last_slptime t)
    (td_nctxsw t) (td_retval t).
Definition set_td_sleepqueue (v : Z) (t : thread) : thread :=
  Thread (td_state t) (td_flags t) (td_idnest t) (td_pdnest t) (td_wchan t) (td_waitpt t) v
    (td_blocked t) (td_turnstile t) (td_contested t) (td_base_prio t) (td_prio t) (td_slice
    t) (td_rtime t) (td_last_rtime t) (td_slptime t) (td_last_slptime t) (td_nctxsw t)
    (td_retval t).
Definition set_td_blocked (v : Z) (t : thread) : thread :=
  Thread (td_state t) (td_flags t) (td_idnest t) (td_pdnest t) (td_wchan t) (td_waitpt t)
    (td_sleepqueue t) v (td_turnstile t) (td_contested t) (td_base_prio t) (td_prio t)
    (td_slice t) (td_rtime t) (td_last_rtime t) (td_slptime t) (td_last_slptime t)
    (td_nctxsw t) (td_retval t).
Definition set_td_turnstile (v : Z) (t : thread) : thread :=
  Thread (td_state t) (td_flags t) (td_idnest t) (td_pdnest t) (td_wchan t) (td_waitpt t)
    (td_sleepqueue t) (td_blocked t) v (td_contested t) (td_base_prio t) (td_prio t)
    (td_slice t) (td_rtime t) (td_last_rtime t) (td_slptime t) (td_last_slptime t)
    (td_nctxsw t) (td_retval t).
Definition set_td_contested (v : list Z) (t : thread) : thread :=
  Thread (td_state t) (td_flags t) (td_idnest t) (td_pdnest t) (td_wchan t) (td_waitpt t)
    (td_sleepqueue t) (td_blocked t) (td_turnstile t) v (td_base_prio t) (td_prio t)
    (td_slice t) (td_rtime t) (td_last_rtime t) (td_slptime t) (td_last_slptime t)
    (td_nctxsw t) (td_retval t).
Definition set_td_base_prio (v : Z) (t : thread) : thread :=
  Thread (td_state t) (td_flags t) (td_idnest t) (td_pdnest t) (td_wchan t) (td_waitpt t)
    (td_sleepqueue t) (td_blocked t) (td_turnstile t) (td_contested t) v (td_prio t)
    (td_slice t) (td_rtime t) (td_last_rtime t) (td_slptime t) (td_last_slptime t)
    (td_nctxsw t) (td_retval t).
Definition set_td_prio (v : Z) (t : thread) : thread :=
  Thread (td_state t) (td_flags t) (td_idnest t) (td_pdnest t) (td_wchan t) (td_waitpt t)
    (td_sleepqueue t) (td_blocked t) (td_turnstile t) (td_contested t) (td_base_prio t) v
    (td_slice t) (td_rtime t) (td_last_rtime t) (td_slptime t) (td_last_slptime t)
    (td_nctxsw t) (td_retval t).
Definition set_td_slice (v : Z) (t : thread) : thread :=
  Thread (td_state t) (td_flags t) (td_idnest t) (td_pdnest t) (td_wchan t) (td_waitpt t)
    (td_sleepqueue t) (td_blocked t) (td_turnstile t) (td_contested t) (td_base_prio t)
    (td_prio t) v (td_rtime t) (td_last_rtime t) (td_slptime t) (td_last_slptime t)
    (td_nctxsw t) (td_retval t).
Definition set_td_rtime (v : bintime_t) (t : thread) : thread :=
  Thread (td_state t) (td_flags t) (td_idnest t) (td_pdnest t) (td_wchan t) (td_waitpt t)
    (td_sleepqueue t) (td_blocked t) (td_turnstile t) (td_contested t) (td_base_prio t)
    (td_prio t) (td_slice t) v (td_last_rtime t) (td_slptime t) (td_last_slptime t)
    (td_nctxsw t) (td_retval t).
Definition set_td_last_rtime (v : bintime_t) (t : thread) : thread :=
  Thread (td_state t) (td_flags t) (td_idnest t) (td_pdnest t) (td_wchan t) (td_waitpt t)
    (td_sleepqueue t) (td_blocked t) (td_turnstile t) (td_contested t) (td_base_prio t)
    (td_prio t) (td_slice t) (td_rtime t) v (td_slptime t) (td_last_slptime t) (td_nctxsw t)
    (td_retval t).
Definition set_td_slptime (v : bintime_t) (t : thread) : thread :=
  Thread (td_state t) (td_flags t) (td_idnest t) (td_pdnest t) (td_wchan t) (td_waitpt t)
    (td_sleepqueue t) (td_blocked t) (td_turnstile t) (td_contested t) (td_base_prio t)
    (td_prio t) (td_slice t) (td_rtime t) (td_last_rtime t) v (td_last_slptime t) (td_nctxsw
    t) (td_retval t).
Definition set_td_last_slptime (v : bintime_t) (t : thread) : thread :=
  Thread (td_state t) (td_flags t) (td_idnest t) (td_pdnest t) (td_wchan t) (td_waitpt t)
    (td_sleepqueue t) (td_blocked t) (td_turnstile t) (td_contested t) (td_base_prio t)
    (td_prio t) (td_slice t) (td_rtime t) (td_last_rtime t) (td_slptime t) v (td_nctxsw t)
    (td_retval t).
Definition set_td_nctxsw (v : Z) (t : thread) : thread :=
  Thread (td_state t) (td_flags t) (td_idnest t) (td_pdnest t) (td_wchan t) (td_waitpt t)
    (td_sleepqueue t) (td_blocked t) (td_turnstile t) (td_contested t) (td_base_prio t)
    (td_prio t) (td_slice t) (td_rtime t) (td_last_rtime t) (td_slptime t) (td_last_slptime
    t) v (td_retval t).
Definition set_td_retval (v : Z) (t : thread) : thread :=
  Thread (td_state t) (td_flags t) (td_idnest t) (td_pdnest t) (td_wchan t) (td_waitpt t)
    (td_sleepqueue t) (td_blocked t) (td_turnstile t) (td_contested t) (td_base_prio t)
    (td_prio t) (td_slice t) (td_rtime t) (td_last_rtime t) (td_slptime t) (td_last_slptime
    t) (td_nctxsw t) v.

Definition td_is (st : thread_state_t) (t : thread) : bool := bool_decide (td_state t = st).
Definition td_is_ready := td_is TDS_READY.
Definition td_is_dead := td_is TDS_DEAD.
Definition td_is_blocked := td_is TDS_BLOCKED.
Definition td_is_running := td_is TDS_RUNNING.
Definition td_is_inactive := td_is TDS_INACTIVE.
Definition td_is_sleeping := td_is TDS_SLEEPING.
Definition td_is_stopped := td_is TDS_STOPPED.
Definition td_is_interruptible (t : thread) : bool :=
  td_is_sleeping t && flag_on (td_flags t) TDF_SLPINTR.
Definition td_is_borrowing (t : thread) : bool := flag_on (td_flags t) TDF_BORROWING.

(** ** The scheduler's state *)

Definition RQ_NQS : Z := 64.
Definition RQ_PPQ : Z := 4.
Definition SLICE : Z := 10.

(** Threads are known by their addresses.  [idle_thread] is 0 until [sched_run]; [uptime]
    is what [binuptime] returns; [cpu_intr_off] tells that the processor has interrupts
    disabled. *)
Record sched := Sched {
  threads : gmap Z thread;
  runq : list (list Z);
  curthread : Z;
  idle_thread : Z;
  sched_active : bool;
  no_switch : bool;
  cpu_intr_off : bool;
  now : bintime_t;
}.

Implicit Types (s : sched) (t : thread) (td : Z).

Definition set_threads (m : gmap Z thread) s : sched :=
  Sched m (runq s) (curthread s) (idle_thread s) (sched_active s) (no_switch s) (cpu_intr_off s) (now s).
Definition set_runq (q : list (list Z)) s : sched :=
  Sched (threads s) q (curthread s) (idle_thread s) (sched_active s) (no_switch s) (cpu_intr_off s) (now s).
Definition set_curthread td s : sched :=
  Sched (threads s) (runq s) td (idle_thread s) (sched_active s) (no_switch s) (cpu_intr_off s) (now s).

Definition thr s td : outcome thread :=
  match threads s !! td with Some t => Ok t | None => Fault BadAccess end.
Definition upd s td (f : thread -> thread) : outcome sched :=
  t ← thr s td; Ok (set_threads (<[td := f t]> (threads s)) s).

Definition thread_self s : Z := curthread s.

(** ** Run queues *)

Definition runq_init : list (list Z) := replicate (Z.to_nat RQ_NQS) [].

Definition runq_add s td : outcome sched :=
  t ← thr s td;
  let prio := td_prio t / RQ_PPQ in
  q ← arr_get (runq s) prio;
  rq ← arr_set (runq s) prio (q ++ [td]);
  Ok (set_runq rq s).

(** The first thread of the first queue that has one. *)
Fixpoint choose_loop (qs : list (list Z)) : option Z :=
  match qs with
  | [] => None
  | [] :: qs => choose_loop qs
  | (td :: _) :: _ => Some td
  end.

Definition runq_choose s : option Z := choose_loop (take (Z.to_nat RQ_NQS) (runq s)).

(** [TAILQ_REMOVE] of a thread that is not on the queue corrupts it. *)
Definition runq_remove s td : outcome sched :=
  t ← thr s td;
  let prio := td_prio t / RQ_PPQ in
  q ← arr_get (runq s) prio;
  if decide (td ∈ q) then
    rq ← arr_set (runq s) prio (filter (fun x => x <> td) q);
    Ok (set_runq rq s)
  else Fault BadAccess.

(** ** The scheduler *)

Definition sched_wakeup s td (reason : Z) : outcome sched :=
  t ← thr s td;
  _ ← assert (negb (td =? thread_self s));
  _ ← assert (negb (td_is_running t));
  (* Update sleep time. *)
  let now := bintime_sub (now s) (td_last_slptime t) in
  let t := set_td_slptime (bintime_add (td_slptime t) now) t in
  let t := set_td_state TDS_READY t in
  let t := set_td_slice SLICE t in
  let t := set_td_retval reason t in
  s ← runq_add (set_threads (<[td := t]> (threads s)) s) td;
  (* Check if we need to reschedule threads. *)
  let oldtd := thread_self s in
  old ← thr s oldtd;
  if prio_gt (td_prio t) (td_prio old) then
    upd s oldtd (fun t => set_td_flags (flag_set (td_flags t) TDF_NEEDSWITCH) t)
  else Ok s.

Definition sched_add s td : outcome sched := sched_wakeup s td 0.

Definition sched_set_active_prio s td (prio : Z) : outcome sched :=
  t ← thr s td;
  if prio_eq (td_prio t) prio then Ok s
  else if td_is_ready t then
    (* Thread is on a run queue. *)
    s ← runq_remove s td;
    s ← upd s td (set_td_prio prio);
    runq_add s td
  else upd s td (set_td_prio prio).

(** [adjust] is [turnstile_adjust]. *)
Definition sched_set_prio (adjust : sched -> Z -> Z -> outcome sched) s td (prio : Z) : outcome sched :=
  s ← upd s td (set_td_base_prio prio);
  t ← thr s td;
  (* If thread is borrowing priority, don't lower its active priority. *)
  if td_is_borrowing t && prio_gt (td_prio t) prio then Ok s
  else
    let oldprio := td_prio t in
    s ← sched_set_active_prio s td prio;
    if td_is_blocked t && prio_ne oldprio prio then adjust s td oldprio else Ok s.

Definition sched_lend_prio s td (prio : Z) : outcome sched :=
  t ← thr s td;
  _ ← assert (prio_lt (td_prio t) prio);
  s ← upd s td (fun t => set_td_flags (flag_set (td_flags t) TDF_BORROWING) t);
  sched_set_active_prio s td prio.

Definition sched_unlend_prio s td (prio : Z) : outcome sched :=
  t ← thr s td;
  if prio_le prio (td_base_prio t) then
    s ← upd s td (fun t => set_td_flags (flag_clr (td_flags t) TDF_BORROWING) t);
    sched_set_active_prio s td (td_base_prio t)
  else sched_lend_prio s td prio.

Definition sched_choose s : outcome (Z * sched) :=
  match runq_choose s with
  | None => Ok (idle_thread s, s)
  | Some td =>
      s ← runq_remove s td;
      s ← upd s td (fun t => set_td_last_rtime (now s) (set_td_state TDS_RUNNING t));
      Ok (td, s)
  end.

(** [ctx_switch] makes [newtd] the current thread and returns in it with the value that
    its saved context holds. *)
Definition sched_switch s : outcome (Z * sched) :=
  let td := thread_self s in
  if negb (sched_active s) then Ok (0, s)
  else
    t ← thr s td;
    _ ← assert (negb (td_is_running t));
    let t := set_td_flags (flag_clr (td_flags t) (Z.lor TDF_SLICEEND TDF_NEEDSWITCH)) t in
    (* Update running time, *)
    let now := bintime_sub (now s) (td_last_rtime t) in
    let t := set_td_rtime (bintime_add (td_rtime t) now) t in
    let s := set_threads (<[td := t]> (threads s)) s in
    s ← (if td_is_ready t then
           (* Idle threads need not to be inserted into the run queue. *)
           if negb (td =? idle_thread s) then runq_add s td else Ok s
         else if td_is_sleeping t then
           (* Record when the thread fell asleep. *)
           upd s td (set_td_last_slptime now)
         else Ok s);
    '(newtd, s) ← sched_choose s;
    if td =? newtd then Ok (0, s)
    else
      s ← upd s td (fun t => set_td_nctxsw (uwrap 32 (td_nctxsw t + 1)) t);
      if no_switch s then panic
      else
        new ← thr s newtd;
        Ok (td_retval new, set_curthread newtd s).

Definition sched_clock s : outcome sched :=
  let td := thread_self s in
  if negb (td =? idle_thread s) then
    upd s td (fun t =>
      let t := set_td_slice (swrap 32 (td_slice t - 1)) t in
      if td_slice t <=? 0
      then set_td_flags (flag_set (td_flags t) (Z.lor TDF_NEEDSWITCH TDF_SLICEEND)) t else t)
  else Ok s.

(** [sched_run] up to its endless loop, which sets [TDF_NEEDSWITCH] over and over. *)
Definition sched_run s : outcome sched :=
  let td := thread_self s in
  _ ← assert (idle_thread s =? 0);
  s ← upd s td (fun t => set_td_flags (flag_set (td_flags t) TDF_NEEDSWITCH) (set_td_slice 0 t));
  Ok (Sched (threads s) (runq s) (curthread s) td true (no_switch s) (cpu_intr_off s) (now s)).

Definition preempt_disabled s : outcome bool :=
  t ← thr s (thread_self s); Ok (0 <? td_pdnest t).

Definition intr_disabled s : outcome bool :=
  t ← thr s (thread_self s); Ok ((0 <? td_idnest t) && cpu_intr_off s).

Definition sched_maybe_preempt s : outcome sched :=
  pd ← preempt_disabled s;
  id ← intr_disabled s;
  if (pd || id : bool) then Ok s
  else
    let td := thread_self s in
    t ← thr s td;
    if flag_on (td_flags t) TDF_NEEDSWITCH then
      s ← upd s td (set_td_state TDS_READY);
      '(_, s) ← sched_switch s;
      Ok s
    else Ok s.

Definition preempt_disable s : outcome sched :=
  upd s (thread_self s) (fun t => set_td_pdnest (uwrap 32 (td_pdnest t + 1)) t).

Definition preempt_enable s : outcome sched :=
  t ← thr s (thread_self s);
  _ ← assert (0 <? td_pdnest t);
  s ← upd s (thread_self s) (fun t => set_td_pdnest (td_pdnest t - 1) t);
  sched_maybe_preempt s.

Definition thread_yield s : outcome sched :=
  s ← upd s (thread_self s) (set_td_state TDS_READY);
  '(_, s) ← sched_switch s;
  Ok s.

Definition thread_continue s td : outcome sched :=
  t ← thr s td;
  if flag_on (td_flags t) TDF_STOPPING then
    upd s td (fun t => set_td_flags (flag_clr (td_flags t) TDF_STOPPING) t)
  else
    _ ← assert (td_is_stopped t);
    sched_wakeup s td 0.

(** ** Run queues hold a set of threads, each with its band *)

Record queues_ok (R : Z -> Z -> Prop) (rq : list (list Z)) : Prop := {
  qo_len : length rq = 64%nat;
  qo_nodup i q : rq !! i = Some q -> NoDup q;
  qo_in i q td : rq !! i = Some q -> td ∈ q <-> R td (Z.of_nat i);
}.

Section queues.
Context (R : Z -> Z -> Prop) (rq : list (list Z)).
Hypothesis Q : queues_ok R rq.

Lemma queues_ext (R' : Z -> Z -> Prop) :
  (forall td b, 0 <= b < 64 -> R' td b <-> R td b) -> queues_ok R' rq.
Proof.
  intros HR. destruct Q as [Q1 Q2 Q3]. split; try done. intros i q td Hi.
  apply lookup_lt_Some in Hi as Hlt. rewrite HR by lia. by apply Q3.
Qed.

Lemma queue_get b : 0 <= b < 64 ->
  exists q, arr_get rq b = Ok q /\ rq !! Z.to_nat b = Some q /\ NoDup q /\ forall td, td ∈ q <-> R td b.
Proof.
  intros Hb. destruct (arr_get_in_range rq b) as (q & E & Hq); [rewrite (qo_len _ _ Q); lia|].
  exists q. split_and!; [done|done|by apply (qo_nodup _ _ Q _ _ Hq)|].
  intros td. rewrite (qo_in _ _ Q _ _ td Hq). by rewrite Z2Nat.id by lia.
Qed.

Lemma queue_add td b q :
  0 <= b < 64 -> rq !! Z.to_nat b = Some q -> (forall c, ~ R td c) ->
  queues_ok (fun x c => R x c \/ x = td /\ c = b) (<[Z.to_nat b := q ++ [td]]> rq).
Proof.
  intros Hb Hq Hn. destruct Q as [Q1 Q2 Q3]. split.
  - by rewrite length_insert.
  - intros i q' Hi. apply list_lookup_insert_Some in Hi as [(<- & <- & _)|[_ Hi]]; [|by apply (Q2 i)].
    apply NoDup_app. split_and!; [by apply (Q2 _ _ Hq)| |apply NoDup_singleton].
    intros x Hx Hx'. apply list_elem_of_singleton in Hx' as ->. apply (Q3 _ _ _ Hq) in Hx. by apply Hn in Hx.
  - intros i q' x Hi. apply list_lookup_insert_Some in Hi as [(<- & <- & _)|[Hne Hi]].
    + rewrite elem_of_app, list_elem_of_singleton, (Q3 _ _ x Hq), Z2Nat.id by lia. naive_solver.
    + rewrite (Q3 _ _ x Hi). split; [tauto|]. intros [|[-> E]]; [done|lia].
Qed.

Lemma queue_remove td b q :
  0 <= b < 64 -> rq !! Z.to_nat b = Some q -> (forall c, R td c -> c = b) ->
  queues_ok (fun x c => R x c /\ x <> td) (<[Z.to_nat b := filter (fun x => x <> td) q]> rq).
Proof.
  intros Hb Hq Hf. destruct Q as [Q1 Q2 Q3]. split.
  - by rewrite length_insert.
  - intros i q' Hi. apply list_lookup_insert_Some in Hi as [(<- & <- & _)|[_ Hi]]; [|by apply (Q2 i)].
    by apply NoDup_filter, (Q2 _ _ Hq).
  - intros i q' x Hi. apply list_lookup_insert_Some in Hi as [(<- & <- & _)|[Hne Hi]].
    + rewrite list_elem_of_filter, (Q3 _ _ x Hq). tauto.
    + rewrite (Q3 _ _ x Hi). split; [|tauto]. intros HR. split; [done|]. intros ->.
      apply Hf in HR. lia.
Qed.
End queues.

Lemma choose_none qs : choose_loop qs = None <-> forall i q, qs !! i = Some q -> q = [].
Proof.
  induction qs as [|[|td q] qs IH]; cbn [choose_loop].
  - split; [|done]. intros _ i q Hi. by rewrite lookup_nil in Hi.
  - rewrite IH. split; intros HH [|i] q Hi; cbn in Hi; [by simplify_eq|by apply (HH i)| |].
    + by apply (HH 1%nat).
    + by apply (HH (S (S i))).
  - split; [done|]. intros HH. by specialize (HH 0%nat _ eq_refl).
Qed.

Lemma choose_some qs td :
  choose_loop qs = Some td -> exists i q, qs !! i = Some (td :: q) /\
    forall j q', (j < i)%nat -> qs !! j = Some q' -> q' = [].
Proof.
  induction qs as [|[|td' q] qs IH]; cbn [choose_loop]; [done| |].
  - intros E. destruct (IH E) as (i & q & Hi & Hj). exists (S i), q. split; [done|].
    intros [|j] q' Hlt Hq'; cbn in Hq'; [by simplify_eq|]. apply (Hj j); [lia|done].
  - intros [= <-]. exists 0%nat, q. split; [done|]. lia.
Qed.

(** ** The invariant *)

(** A thread that waits for the processor in the given band. *)
Definition ready s td (b : Z) : Prop :=
  exists t, threads s !! td = Some t /\ td_state t = TDS_READY /\ td <> idle_thread s /\
    b = td_prio t / RQ_PPQ.

Definition prio_ok t : Prop := 0 <= td_prio t < 256 /\ 0 <= td_base_prio t < 256.

(** The idle thread is not on a queue, and is marked ready even while it runs. *)
Record sched_inv s : Prop := {
  si_queues : queues_ok (ready s) (runq s);
  si_prio td t : threads s !! td = Some t -> prio_ok t;
  si_self : exists t, threads s !! curthread s = Some t /\
    (td_state t = TDS_RUNNING \/ curthread s = idle_thread s /\ td_state t = TDS_READY);
  si_running td t : threads s !! td = Some t -> td_state t = TDS_RUNNING -> td = curthread s;
  si_idle : exists t, threads s !! idle_thread s = Some t /\
    (td_state t = TDS_READY \/ td_state t = TDS_RUNNING);
  si_mode : sched_active s = true /\ no_switch s = false;
}.

(** What the scheduler's accounting leaves alone. *)
Definition td_key t :=
  (td_state t, td_prio t, td_base_prio t, td_pdnest t, td_idnest t, td_wchan t, td_waitpt t,
   td_sleepqueue t, td_blocked t, td_turnstile t, td_contested t).

Definition same_td t t' : Prop :=
  td_key t' = td_key t /\ td_slice t' = td_slice t /\
  forall k, 2 <= k -> Z.testbit (td_flags t') k = Z.testbit (td_flags t) k.

Lemma same_td_refl t : same_td t t.
Proof. done. Qed.

Lemma same_td_trans t1 t2 t3 : same_td t1 t2 -> same_td t2 t3 -> same_td t1 t3.
Proof.
  intros (K1 & S1 & F1) (K2 & S2 & F2). split_and!; [congruence|congruence|].
  intros k Hk. by rewrite F2, F1.
Qed.

Lemma band_range t : prio_ok t -> 0 <= td_prio t / RQ_PPQ < 64.
Proof. intros [H _]. unfold RQ_PPQ. lia. Qed.

Lemma ready_band s td b c : ready s td b -> ready s td c -> b = c.
Proof. intros (t & Ht & _ & _ & ->) (t' & Ht' & _ & _ & ->). by simplify_eq. Qed.

Lemma thr_some s td t : threads s !! td = Some t -> thr s td = Ok t.
Proof. intros Ht. unfold thr. by rewrite Ht. Qed.

Lemma upd_some s td t f :
  threads s !! td = Some t -> upd s td f = Ok (set_threads (<[td := f t]> (threads s)) s).
Proof. intros Ht. unfold upd. by rewrite (thr_some s td t). Qed.

Lemma runq_add_spec R s td t :
  queues_ok R (runq s) -> threads s !! td = Some t -> prio_ok t ->
  exists q, runq s !! Z.to_nat (td_prio t / RQ_PPQ) = Some q /\
    runq_add s td = Ok (set_runq (<[Z.to_nat (td_prio t / RQ_PPQ) := q ++ [td]]> (runq s)) s).
Proof.
  intros Q Ht Hp. pose proof (band_range t Hp) as Hb.
  destruct (queue_get R (runq s) Q _ Hb) as (q & Eq & Hq & _).
  exists q. split; [done|]. unfold runq_add. rewrite (thr_some s td t) by done. cbn [mbind outcome_bind].
  rewrite Eq. cbn [mbind outcome_bind]. rewrite arr_set_ok by (rewrite (qo_len _ _ Q); lia). done.
Qed.

Lemma runq_remove_spec R s td t :
  queues_ok R (runq s) -> threads s !! td = Some t -> prio_ok t -> R td (td_prio t / RQ_PPQ) ->
  exists q, runq s !! Z.to_nat (td_prio t / RQ_PPQ) = Some q /\
    runq_remove s td =
      Ok (set_runq (<[Z.to_nat (td_prio t / RQ_PPQ) := filter (fun x => x <> td) q]> (runq s)) s).
Proof.
  intros Q Ht Hp HR. pose proof (band_range t Hp) as Hb.
  destruct (queue_get R (runq s) Q _ Hb) as (q & Eq & Hq & _ & Hin).
  exists q. split; [done|]. unfold runq_remove. rewrite (thr_some s td t) by done. cbn [mbind outcome_bind].
  rewrite Eq. cbn [mbind outcome_bind]. rewrite decide_True by (by apply Hin).
  rewrite arr_set_ok by (rewrite (qo_len _ _ Q); lia). done.
Qed.

(** ** Waking a thread up *)

Lemma flag_set_low f m k : 0 <= m < 4 -> 2 <= k -> Z.testbit (flag_set f m) k = Z.testbit f k.
Proof.
  intros Hm Hk. unfold flag_set. rewrite Z.lor_spec.
  rewrite (Z.bits_above_log2 m k), orb_false_r; [done|lia|].
  destruct (decide (m = 0)) as [->|]; [cbn; lia|]. apply Z.log2_lt_pow2; [lia|].
  pose proof (Z.pow_le_mono_r 2 2 k). lia.
Qed.

Lemma flag_clr_low f m k : 0 <= m < 4 -> 2 <= k -> Z.testbit (flag_clr f m) k = Z.testbit f k.
Proof.
  intros Hm Hk. unfold flag_clr. rewrite Z.land_spec, Z.lnot_spec by lia.
  rewrite (Z.bits_above_log2 m k), andb_true_r; [done|lia|].
  destruct (decide (m = 0)) as [->|]; [cbn; lia|]. apply Z.log2_lt_pow2; [lia|].
  pose proof (Z.pow_le_mono_r 2 2 k). lia.
Qed.

(** The woken thread, apart from the accounting of its sleep. *)
Definition woken t t' : Prop :=
  td_key t' = td_key (set_td_state TDS_READY t) /\ td_slice t' = SLICE /\ td_flags t' = td_flags t.

Lemma wake_inv s td t t' c c' q :
  sched_inv s -> threads s !! td = Some t -> threads s !! curthread s = Some c ->
  td_state t <> TDS_READY -> td <> curthread s -> td <> idle_thread s ->
  td_state t' = TDS_READY -> td_prio t' = td_prio t -> td_base_prio t' = td_base_prio t ->
  td_state c' = td_state c -> td_prio c' = td_prio c -> td_base_prio c' = td_base_prio c ->
  runq s !! Z.to_nat (td_prio t / RQ_PPQ) = Some q ->
  sched_inv (Sched (<[curthread s := c']> (<[td := t']> (threads s)))
    (<[Z.to_nat (td_prio t / RQ_PPQ) := q ++ [td]]> (runq s)) (curthread s) (idle_thread s)
    (sched_active s) (no_switch s) (cpu_intr_off s) (now s)).
Proof.
  intros [Q Hp Hs Hr Hi Hm] Ht Hc Hnr Hself Hnidle T1 T2 T3 C1 C2 C3 Hq.
  pose proof (band_range t (Hp td t Ht)) as Hb.
  assert (forall x tx, <[curthread s := c']> (<[td := t']> (threads s)) !! x = Some tx ->
    exists t0, threads s !! x = Some t0 /\ td_prio tx = td_prio t0 /\ td_base_prio tx = td_base_prio t0 /\
      (x = td /\ td_state tx = TDS_READY \/ x <> td /\ td_state tx = td_state t0)) as Hback.
  { intros x tx Hx. apply lookup_insert_Some in Hx as [[<- <-]|[_ Hx]].
    { exists c. split_and!; try done. right. by split. }
    apply lookup_insert_Some in Hx as [[<- <-]|[Hne Hx]].
    - exists t. split_and!; try done. by left.
    - exists tx. split_and!; try done. right. by split. }
  split; cbn [threads runq curthread idle_thread sched_active no_switch]; try done.
  - eapply queues_ext; [apply (queue_add _ _ Q td _ q Hb Hq)|].
    + intros b (t0 & Ht0 & Hst & _). congruence.
    + intros x b _. unfold ready. cbn [threads idle_thread]. split.
      * intros (tx & Hx & Hst & Hxi & ->). destruct (Hback x tx Hx) as (t0 & Hx0 & Ep & _ & [[-> _]|[Hne Es]]).
        -- right. simplify_eq. by rewrite Ep.
        -- left. exists t0. by rewrite <- Es, Ep.
      * intros [(t0 & Hx0 & Hst & Hxi & ->)|[-> ->]].
        -- destruct (decide (x = curthread s)) as [->|Hxc].
           { exists c'. rewrite lookup_insert_eq. simplify_eq. split_and!; congruence. }
           exists t0. rewrite !lookup_insert_ne; [done| |done]. congruence.
        -- exists t'. rewrite lookup_insert_ne, lookup_insert_eq by done. by rewrite T2.
  - intros x tx Hx. destruct (Hback x tx Hx) as (t0 & Hx0 & E1 & E2 & _). unfold prio_ok.
    rewrite E1, E2. by apply (Hp x).
  - exists c'. rewrite lookup_insert_eq. split; [done|]. rewrite C1. destruct Hs as (c0 & Hc0 & HH). by simplify_eq.
  - intros x tx Hx Hst. destruct (Hback x tx Hx) as (t0 & Hx0 & _ & _ & [[-> ?]|[_ Es]]); [congruence|].
    apply (Hr x t0); congruence.
  - destruct Hi as (ti & Hti & His). destruct (decide (idle_thread s = curthread s)) as [E|E].
    + rewrite E, lookup_insert_eq. exists c'. split; [done|]. rewrite C1. congruence.
    + exists ti. by rewrite !lookup_insert_ne.
Qed.

Lemma sched_wakeup_spec s td t reason :
  sched_inv s -> threads s !! td = Some t -> td_state t <> TDS_READY -> td_state t <> TDS_RUNNING ->
  exists s' q t', sched_wakeup s td reason = Ok s' /\ sched_inv s' /\
    runq s !! Z.to_nat (td_prio t / RQ_PPQ) = Some q /\
    runq s' = <[Z.to_nat (td_prio t / RQ_PPQ) := q ++ [td]]> (runq s) /\
    curthread s' = curthread s /\ idle_thread s' = idle_thread s /\ cpu_intr_off s' = cpu_intr_off s /\
    threads s' !! td = Some t' /\ woken t t' /\ td_retval t' = reason /\
    (forall x, x <> td -> x <> curthread s -> threads s' !! x = threads s !! x) /\
    (exists c c', threads s !! curthread s = Some c /\ threads s' !! curthread s = Some c' /\ same_td c c' /\
       (td_prio t < td_prio c -> flag_on (td_flags c') TDF_NEEDSWITCH = true)).
Proof.
  intros I Ht Hnr Hnrun. pose proof I as [Q Hp (c & Hc & Hcs) Hr (ti & Hti & His) Hm].
  assert (td <> curthread s) as Hself.
  { intros ->. simplify_eq. destruct Hcs as [|[_ ?]]; congruence. }
  assert (td <> idle_thread s) as Hnidle by (intros ->; simplify_eq; destruct His; congruence).
  unfold sched_wakeup. rewrite (thr_some s td t) by done. cbn [mbind outcome_bind].
  unfold thread_self. assert_step lia.
  assert_step ltac:(by unfold td_is_running, td_is; rewrite bool_decide_false).
  set (t' := set_td_retval _ _). set (s1 := set_threads _ _).
  destruct (runq_add_spec (ready s) s1 td t') as (q & Hq & ->); [done|apply lookup_insert_eq|apply (Hp td t Ht)|].
  cbn [mbind outcome_bind]. set (s2 := set_runq _ _).
  assert (threads s2 !! curthread s2 = Some c) as Hc2 by (cbn; by rewrite lookup_insert_ne).
  rewrite (thr_some s2 (curthread s2) c) by done. cbn [mbind outcome_bind].
  assert (exists c' s3, (if prio_gt (td_prio t') (td_prio c)
     then upd s2 (curthread s2) (fun t => set_td_flags (flag_set (td_flags t) TDF_NEEDSWITCH) t) else Ok s2) = Ok s3 /\
     s3 = set_threads (<[curthread s := c']> (threads s2)) s2 /\ same_td c c' /\
     (td_prio t < td_prio c -> flag_on (td_flags c') TDF_NEEDSWITCH = true)) as (c' & s3 & -> & -> & Hsame & Hneed).
  { unfold prio_gt. destruct (Z.ltb_spec (td_prio t') (td_prio c)) as [Hlt|Hge].
    - exists (set_td_flags (flag_set (td_flags c) TDF_NEEDSWITCH) c). eexists.
      rewrite (upd_some s2 _ c) by done. split_and!; [done|done| |].
      + split_and!; [done|done|]. intros k Hk. apply flag_set_low; done.
      + intros _. apply (flag_set_eq 1). done.
    - exists c, s2. split_and!; [done| |done|].
      + rewrite insert_id by done. done.
      + intros Hlt. cbn in Hge. lia. }
  assert (td_state c' = td_state c /\ td_prio c' = td_prio c /\ td_base_prio c' = td_base_prio c) as (C1 & C2 & C3).
  { destruct Hsame as [HK _]. unfold td_key in HK. by simplify_eq. }
  exists (set_threads (<[curthread s := c']> (threads s2)) s2), q, t'.
  split; [done|]. split; [|cbn; split_and!; try done].
  - by apply (wake_inv s td t t' c c' q).
  - by rewrite lookup_insert_ne, lookup_insert_eq.
  - intros x Hx Hx'. by rewrite !lookup_insert_ne.
  - exists c, c'. split_and!; [done|by rewrite lookup_insert_eq|done|done].
Qed.

(** ** Dispatching *)

Definition dispatched (t : thread) (now : bintime_t) : thread :=
  set_td_last_rtime now (set_td_state TDS_RUNNING t).

Lemma filter_head (td : Z) (q : list Z) : NoDup (td :: q) -> filter (fun x => x <> td) (td :: q) = q.
Proof.
  intros Hnd. apply NoDup_cons in Hnd as [Hn _]. rewrite filter_cons_False by naive_solver.
  induction q as [|x q IH]; [done|]. apply not_elem_of_cons in Hn as [Hx Hn].
  rewrite filter_cons_True by done. by rewrite IH.
Qed.

(** The choice: the first thread of the first queue that is not empty. *)
Lemma sched_choose_spec s :
  queues_ok (ready s) (runq s) -> (forall td t, threads s !! td = Some t -> prio_ok t) ->
  (choose_loop (runq s) = None /\ sched_choose s = Ok (idle_thread s, s)) \/
  (exists n tn i q, choose_loop (runq s) = Some n /\ threads s !! n = Some tn /\
     td_state tn = TDS_READY /\ n <> idle_thread s /\ Z.of_nat i = td_prio tn / RQ_PPQ /\
     runq s !! i = Some (n :: q) /\ (forall j q', (j < i)%nat -> runq s !! j = Some q' -> q' = []) /\
     sched_choose s = Ok (n, Sched (<[n := dispatched tn (now s)]> (threads s)) (<[i := q]> (runq s))
       (curthread s) (idle_thread s) (sched_active s) (no_switch s) (cpu_intr_off s) (now s))).
Proof.
  intros Q Hp. unfold sched_choose, runq_choose.
  rewrite take_ge by (rewrite (qo_len _ _ Q); unfold RQ_NQS; lia).
  destruct (choose_loop (runq s)) as [n|] eqn:Ec; [right|by left].
  destruct (choose_some _ _ Ec) as (i & q & Hi & Hbefore).
  assert (ready s n (Z.of_nat i)) as HR by (apply (qo_in _ _ Q i (n :: q) n Hi); set_solver).
  pose proof HR as (tn & Htn & Hst & Hni & Hb).
  exists n, tn, i, q. split_and!; try done.
  destruct (runq_remove_spec (ready s) s n tn Q Htn (Hp n tn Htn)) as (q0 & Hq0 & ->); [by rewrite <- Hb|].
  cbn [mbind outcome_bind]. rewrite <- Hb, Nat2Z.id in *. simplify_eq.
  rewrite (filter_head n q) by (by apply (qo_nodup _ _ Q i)).
  rewrite (upd_some _ n tn) by done. done.
Qed.

(** The run queues when the current thread leaves the processor in state [st]. *)
Definition requeue s t (st : thread_state_t) : list (list Z) :=
  if decide (st = TDS_READY /\ curthread s <> idle_thread s)
  then <[Z.to_nat (td_prio t / RQ_PPQ) :=
      runq s !!! Z.to_nat (td_prio t / RQ_PPQ) ++ [curthread s]]> (runq s)
  else runq s.

Lemma self_not_ready s b : sched_inv s -> ~ ready s (curthread s) b.
Proof.
  intros I (t & Ht & Hst & Hni & _). destruct (si_self _ I) as (t' & Ht' & [HH|[HH _]]); congruence.
Qed.

Lemma requeue_ok s t t2 st :
  sched_inv s -> threads s !! curthread s = Some t -> td_state t2 = st -> td_prio t2 = td_prio t ->
  forall s2, threads s2 = <[curthread s := t2]> (threads s) -> idle_thread s2 = idle_thread s ->
  queues_ok (ready s2) (requeue s t st).
Proof.
  intros I Ht Hst Hpr s2 E1 E2. pose proof (si_queues _ I) as Q.
  pose proof (band_range t (si_prio _ I _ _ Ht)) as Hb.
  assert (forall x b, x <> curthread s -> ready s2 x b <-> ready s x b) as Hother.
  { intros x b Hx. unfold ready. by rewrite E1, E2, lookup_insert_ne. }
  assert (forall b, ready s2 (curthread s) b <->
    (st = TDS_READY /\ curthread s <> idle_thread s) /\ b = td_prio t / RQ_PPQ) as Hself.
  { intros b. unfold ready. rewrite E1, E2, lookup_insert_eq. split.
    - intros (? & [= <-] & ? & ? & ->). rewrite Hpr. split; [split; congruence|done].
    - intros [[? ?] ->]. exists t2. rewrite Hpr. split_and!; congruence. }
  unfold requeue. case_decide as Hd.
  - eapply queues_ext; [apply (queue_add _ _ Q (curthread s) _ _ Hb)|].
    + apply list_lookup_lookup_total_lt. rewrite (qo_len _ _ Q). lia.
    + intros c. by apply self_not_ready.
    + intros x b _. destruct (decide (x = curthread s)) as [->|Hx].
      * rewrite Hself. pose proof (self_not_ready s b I). tauto.
      * rewrite Hother by done. tauto.
  - apply (queues_ext _ _ Q). intros x b _. destruct (decide (x = curthread s)) as [->|Hx].
    + rewrite Hself. pose proof (self_not_ready s b I). tauto.
    + by rewrite Hother.
Qed.

Definition leave s t (st : thread_state_t) : sched :=
  set_threads (<[curthread s := set_td_state st t]> (threads s)) s.

(** The accounting of [sched_switch] for the thread that leaves. *)
Lemma switch_account s t st :
  sched_inv s -> threads s !! curthread s = Some t -> st <> TDS_RUNNING ->
  exists t2, same_td (set_td_state st t) t2 /\ td_nctxsw t2 = td_nctxsw t /\
    flag_on (td_flags t2) TDF_NEEDSWITCH = false /\
    sched_switch (leave s t st) =
    ('(newtd, s3) ← sched_choose (Sched (<[curthread s := t2]> (threads s)) (requeue s t st) (curthread s)
        (idle_thread s) true (no_switch s) (cpu_intr_off s) (now s));
     if curthread s =? newtd then Ok (0, s3)
     else
       s3 ← upd s3 (curthread s) (fun t => set_td_nctxsw (uwrap 32 (td_nctxsw t + 1)) t);
       if no_switch s3 then panic
       else new ← thr s3 newtd; Ok (td_retval new, set_curthread newtd s3)).
Proof.
  intros I Ht Hst. pose proof (si_mode _ I) as [Hact Hns].
  set (t1 := set_td_flags (flag_clr (td_flags t) (Z.lor TDF_SLICEEND TDF_NEEDSWITCH)) (set_td_state st t)).
  set (d := bintime_sub (now s) (td_last_rtime t)).
  set (t2 := set_td_rtime (bintime_add (td_rtime t) d) t1).
  set (t3 := if decide (st = TDS_SLEEPING) then set_td_last_slptime d t2 else t2).
  assert (forall u, td_key u = td_key t2 -> td_slice u = td_slice t2 -> td_flags u = td_flags t2 ->
    same_td (set_td_state st t) u /\ flag_on (td_flags u) TDF_NEEDSWITCH = false) as Hsame.
  { intros u E1 E2 E3. unfold same_td. rewrite E1, E2, E3. split_and!; try done.
    - intros k Hk. apply flag_clr_low; done.
    - change TDF_NEEDSWITCH with (2 ^ 1). rewrite flag_on_bit by done.
      cbn [t2 t1 td_flags set_td_rtime set_td_flags]. unfold flag_clr.
      rewrite Z.land_spec. apply andb_false_r. }
  exists t3. destruct (Hsame t3) as [HS HF]; try (unfold t3; by case_decide).
  split_and!; [exact HS|unfold t3; by case_decide|exact HF|].
  unfold sched_switch, thread_self. cbn [leave set_threads curthread sched_active]. rewrite Hact. cbn [negb].
  rewrite (thr_some _ _ (set_td_state st t)) by apply lookup_insert_eq. cbn [mbind outcome_bind].
  assert_step ltac:(unfold td_is_running, td_is; by rewrite bool_decide_false).
  match goal with |- context [td_is_ready ?u] => change u with t2 end.
  cbn [leave set_threads threads runq curthread idle_thread sched_active no_switch cpu_intr_off now].
  rewrite insert_insert_eq.
  change (set_threads (<[curthread s := t2]> (threads s)) (leave s t st))
    with (set_threads (<[curthread s := t2]> (threads s)) s).
  assert (set_threads (<[curthread s := t2]> (threads s)) s = Sched (<[curthread s := t2]> (threads s)) (runq s)
    (curthread s) (idle_thread s) true (no_switch s) (cpu_intr_off s) (now s)) as -> by (by rewrite <- Hact).
  change (td_is_ready t2) with (bool_decide (st = TDS_READY)).
  change (td_is_sleeping t2) with (bool_decide (st = TDS_SLEEPING)).
  unfold t3, requeue. destruct (bool_decide_reflect (st = TDS_READY)) as [Hr|Hr].
  - rewrite (decide_False (P := st = TDS_SLEEPING)) by congruence. cbn [idle_thread set_threads].
    destruct (Z.eqb_spec (curthread s) (idle_thread s)) as [Ei|Ei]; cbn [negb].
    + rewrite decide_False by tauto. done.
    + rewrite decide_True by done. match goal with |- context [runq_add ?v _] => set (s1 := v) end.
      destruct (runq_add_spec (ready s) s1 (curthread s) t2) as (q & Hq & ->); [apply (si_queues _ I)| | |].
      * apply lookup_insert_eq.
      * apply (si_prio _ I _ _ Ht).
      * cbn [mbind outcome_bind]. cbn in Hq. rewrite (list_lookup_total_correct _ _ _ Hq). done.
  - rewrite (decide_False (P := st = TDS_READY /\ _)) by tauto.
    destruct (bool_decide_reflect (st = TDS_SLEEPING)) as [Hs|Hs].
    + rewrite decide_True by done. rewrite (upd_some _ _ t2) by apply lookup_insert_eq.
      cbn [mbind outcome_bind]. unfold set_threads. cbn. by rewrite insert_insert_eq.
    + by rewrite decide_False.
Qed.

Record switch_result s t (st : thread_state_t) (v : Z) (s' : sched) : Prop := {
  sw_inv : sched_inv s';
  sw_none : choose_loop (requeue s t st) = None ->
    curthread s' = idle_thread s /\ runq s' = requeue s t st;
  sw_some n : choose_loop (requeue s t st) = Some n ->
    curthread s' = n /\ n <> idle_thread s /\ exists i q, requeue s t st !! i = Some (n :: q) /\
      (forall j q', (j < i)%nat -> requeue s t st !! j = Some q' -> q' = []) /\
      runq s' = <[i := q]> (requeue s t st) /\
      exists tn, threads s' !! n = Some tn /\ Z.of_nat i = td_prio tn / RQ_PPQ;
  sw_other x : x <> curthread s -> x <> curthread s' -> threads s' !! x = threads s !! x;
  sw_old : exists t', threads s' !! curthread s = Some t' /\
    flag_on (td_flags t') TDF_NEEDSWITCH = false /\
    same_td (set_td_state (if decide (curthread s' = curthread s /\ curthread s <> idle_thread s)
                           then TDS_RUNNING else st) t) t';
  sw_new : curthread s' <> curthread s -> exists tn tn', threads s !! curthread s' = Some tn /\
    threads s' !! curthread s' = Some tn' /\ td_state tn = TDS_READY /\ v = td_retval tn /\
    td_flags tn' = td_flags tn /\
    same_td (if decide (curthread s' = idle_thread s) then tn else set_td_state TDS_RUNNING tn) tn';
  sw_const : idle_thread s' = idle_thread s /\ cpu_intr_off s' = cpu_intr_off s /\ now s' = now s;
}.

Lemma same_td_nctxsw t v : same_td t (set_td_nctxsw v t).
Proof. done. Qed.

Lemma same_td_prio t t' : same_td t t' ->
  td_prio t' = td_prio t /\ td_base_prio t' = td_base_prio t /\ td_state t' = td_state t.
Proof. intros [HK _]. unfold td_key in HK. by simplify_eq. Qed.

(** The idle thread takes over. *)
Lemma switch_to_idle s t st t2 :
  sched_inv s -> threads s !! curthread s = Some t -> st <> TDS_RUNNING ->
  (curthread s = idle_thread s -> st = TDS_READY) ->
  choose_loop (requeue s t st) = None -> same_td (set_td_state st t) t2 ->
  sched_inv (Sched (<[curthread s := t2]> (threads s)) (requeue s t st) (idle_thread s)
    (idle_thread s) true (no_switch s) (cpu_intr_off s) (now s)).
Proof.
  intros I Ht Hst Hidle Hc HS. apply same_td_prio in HS as (P1 & P2 & P3). cbn in P1, P2, P3.
  destruct (si_idle _ I) as (ti & Hti & His).
  assert (exists tj, <[curthread s := t2]> (threads s) !! idle_thread s = Some tj /\
    td_state tj = TDS_READY) as (tj & Htj & Hj).
  { destruct (decide (curthread s = idle_thread s)) as [E|E].
    - exists t2. rewrite E, lookup_insert_eq. split; [done|]. rewrite P3. by apply Hidle.
    - exists ti. rewrite lookup_insert_ne by done. split; [done|]. destruct His as [|Hr]; [done|].
      apply (si_running _ I _ _ Hti) in Hr. congruence. }
  split; cbn [threads runq curthread idle_thread sched_active no_switch].
  - by apply (requeue_ok s t t2 st I Ht).
  - intros x tx Hx. apply lookup_insert_Some in Hx as [[<- <-]|[_ Hx]]; [|by apply (si_prio _ I x)].
    unfold prio_ok. rewrite P1, P2. apply (si_prio _ I _ _ Ht).
  - eauto.
  - intros x tx Hx Hr. apply lookup_insert_Some in Hx as [[<- <-]|[Hne Hx]]; [congruence|].
    apply (si_running _ I _ _ Hx) in Hr. congruence.
  - eauto.
  - split; [done|apply (si_mode _ I)].
Qed.

(** The first thread [n] of the first queue that is not empty takes over; [m] is the map
    of threads afterwards. *)
Lemma switch_to_next s t st t2 n tn i q m tn' :
  sched_inv s -> threads s !! curthread s = Some t -> st <> TDS_RUNNING ->
  (curthread s = idle_thread s -> st = TDS_READY) -> same_td (set_td_state st t) t2 ->
  <[curthread s := t2]> (threads s) !! n = Some tn -> n <> idle_thread s ->
  td_state tn = TDS_READY -> Z.of_nat i = td_prio tn / RQ_PPQ -> requeue s t st !! i = Some (n :: q) ->
  m !! n = Some tn' -> td_state tn' = TDS_RUNNING -> td_prio tn' = td_prio tn ->
  td_base_prio tn' = td_base_prio tn ->
  (forall x tx, x <> n -> m !! x = Some tx -> exists t0, <[curthread s := t2]> (threads s) !! x = Some t0 /\
     td_state tx = td_state t0 /\ td_prio tx = td_prio t0 /\ td_base_prio tx = td_base_prio t0) ->
  (forall x t0, x <> n -> <[curthread s := t2]> (threads s) !! x = Some t0 -> exists tx, m !! x = Some tx /\
     td_state tx = td_state t0 /\ td_prio tx = td_prio t0 /\ td_base_prio tx = td_base_prio t0) ->
  sched_inv (Sched m (<[i := q]> (requeue s t st)) n (idle_thread s) true (no_switch s)
    (cpu_intr_off s) (now s)).
Proof.
  intros I Ht Hst Hidle HS Hn Hni Hnr Hb Hq Hm Hmr Hmp Hmb Hback Hforth.
  apply same_td_prio in HS as (P1 & P2 & P3). cbn in P1, P2, P3.
  set (s2 := Sched (<[curthread s := t2]> (threads s)) (requeue s t st) (curthread s)
    (idle_thread s) true (no_switch s) (cpu_intr_off s) (now s)).
  pose proof (requeue_ok s t t2 st I Ht P3 P1 s2 eq_refl eq_refl) as Q.
  assert (forall x tx, <[curthread s := t2]> (threads s) !! x = Some tx -> prio_ok tx) as Hprio.
  { intros x tx Hx. apply lookup_insert_Some in Hx as [[<- <-]|[_ Hx]]; [|by apply (si_prio _ I x)].
    unfold prio_ok. rewrite P1, P2. apply (si_prio _ I _ _ Ht). }
  pose proof (band_range tn (Hprio n tn Hn)) as Hbr.
  split; cbn [threads runq curthread idle_thread sched_active no_switch].
  - pose proof (queue_remove (ready s2) (requeue s t st) Q n (Z.of_nat i) (n :: q)) as Hrem.
    rewrite Nat2Z.id, filter_head in Hrem by (by apply (qo_nodup _ _ Q i)).
    eapply queues_ext; [apply Hrem; [lia|done|]|].
    + intros c Hc. apply (ready_band s2 n c (Z.of_nat i) Hc).
      by apply (qo_in _ _ Q i (n :: q) n Hq); left.
    + intros x b _. unfold ready. cbn [threads idle_thread s2]. split.
      * intros (tx & Hx & Hrx & Hxi & ->). assert (x <> n) as Hxn by congruence. split; [|done].
        destruct (Hback x tx Hxn Hx) as (t0 & Hx0 & E1 & E2 & _). exists t0. split_and!; congruence.
      * intros [(t0 & Hx0 & Hrx & Hxi & ->) Hxn].
        destruct (Hforth x t0 Hxn Hx0) as (tx & Hx & E1 & E2 & _). exists tx. split_and!; congruence.
  - intros x tx Hx. destruct (decide (x = n)) as [->|Hxn].
    + unfold prio_ok. simplify_eq. rewrite Hmp, Hmb. by apply (Hprio n).
    + destruct (Hback x tx Hxn Hx) as (t0 & Hx0 & _ & E2 & E3). unfold prio_ok. rewrite E2, E3.
      by apply (Hprio x).
  - eauto.
  - intros x tx Hx Hr. destruct (decide (x = n)) as [->|Hxn]; [done|].
    destruct (Hback x tx Hxn Hx) as (t0 & Hx0 & E1 & _).
    apply lookup_insert_Some in Hx0 as [[<- <-]|[Hne Hx0]]; [congruence|].
    rewrite E1 in Hr. apply (si_running _ I _ _ Hx0) in Hr. congruence.
  - destruct (si_idle _ I) as (ti & Hti & His).
    assert (exists tj, <[curthread s := t2]> (threads s) !! idle_thread s = Some tj /\
      (td_state tj = TDS_READY \/ td_state tj = TDS_RUNNING)) as (tj & Htj & Hj).
    { destruct (decide (curthread s = idle_thread s)) as [E|E].
      - exists t2. rewrite E, lookup_insert_eq. split; [done|]. left. rewrite P3. by apply Hidle.
      - exists ti. by rewrite lookup_insert_ne. }
    destruct (Hforth (idle_thread s) tj (not_eq_sym Hni) Htj) as (tx & Hx & E & _).
    exists tx. by rewrite E.
  - split; [done|apply (si_mode _ I)].
Qed.

Lemma same_td_dispatched t st t2 now :
  same_td (set_td_state st t) t2 -> same_td (set_td_state TDS_RUNNING t) (dispatched t2 now).
Proof.
  intros (HK & Hsl & Hfl). unfold td_key in HK. cbn in HK. injection HK as E1 E2 E3 E4 E5 E6 E7 E8 E9 E10 E11.
  split_and!; [|done|done]. unfold td_key. cbn. congruence.
Qed.

Lemma switch_some s t st t2 n tn i q :
  let s3 := Sched (<[n := dispatched tn (now s)]> (<[curthread s := t2]> (threads s)))
    (<[i := q]> (requeue s t st)) (curthread s) (idle_thread s) true (no_switch s)
    (cpu_intr_off s) (now s) in
  sched_inv s -> threads s !! curthread s = Some t -> st <> TDS_RUNNING ->
  (curthread s = idle_thread s -> st = TDS_READY) -> same_td (set_td_state st t) t2 ->
  flag_on (td_flags t2) TDF_NEEDSWITCH = false ->
  choose_loop (requeue s t st) = Some n -> <[curthread s := t2]> (threads s) !! n = Some tn ->
  td_state tn = TDS_READY -> n <> idle_thread s -> Z.of_nat i = td_prio tn / RQ_PPQ ->
  requeue s t st !! i = Some (n :: q) ->
  (forall j q', (j < i)%nat -> requeue s t st !! j = Some q' -> q' = []) ->
  exists v s', (if curthread s =? n then Ok (0, s3)
    else
      s3 ← upd s3 (curthread s) (fun t => set_td_nctxsw (uwrap 32 (td_nctxsw t + 1)) t);
      if no_switch s3 then panic
      else new ← thr s3 n; Ok (td_retval new, set_curthread n s3)) = Ok (v, s') /\
    switch_result s t st v s'.
Proof.
  intros s3 I Ht Hst Hidle HS HF Hc Htn Hrn Hni Hb Hq Hbef. pose proof (si_mode _ I) as [_ Hns].
  destruct (Z.eqb_spec (curthread s) n) as [<-|Hne].
  - rewrite lookup_insert_eq in Htn. injection Htn as <-. exists 0, s3. split; [done|].
    split; cbn [s3 threads runq curthread idle_thread cpu_intr_off now]; try done.
    + apply (switch_to_next s t st t2 (curthread s) t2 i q _ (dispatched t2 (now s))); try done.
      * by rewrite lookup_insert_eq.
      * by rewrite lookup_insert_eq.
      * intros x tx Hx Hl. rewrite lookup_insert_ne in Hl by done. eauto.
      * intros x tx Hx Hl. rewrite lookup_insert_ne by done. eauto.
    + intros Hn. congruence.
    + intros n Hn. rewrite Hc in Hn. injection Hn as <-. split_and!; [done|done|]. exists i, q.
      split_and!; try done. exists (dispatched t2 (now s)). by rewrite lookup_insert_eq.
    + intros x Hx _. by rewrite !lookup_insert_ne.
    + exists (dispatched t2 (now s)). rewrite lookup_insert_eq, decide_True by done. split_and!; [done|done|].
      by apply same_td_dispatched with st.
  - rewrite lookup_insert_ne in Htn by done. set (t3 := set_td_nctxsw (uwrap 32 (td_nctxsw t2 + 1)) t2).
    rewrite (upd_some s3 _ t2) by (cbn; by rewrite lookup_insert_ne, lookup_insert_eq).
    cbn [mbind outcome_bind set_threads no_switch s3]. rewrite Hns.
    rewrite (thr_some _ _ (dispatched tn (now s))) by (cbn; by rewrite lookup_insert_ne, lookup_insert_eq).
    cbn [mbind outcome_bind]. eexists _, _. split; [done|].
    unfold set_curthread, set_threads, s3. cbn [threads runq idle_thread sched_active no_switch cpu_intr_off now].
    split; cbn [threads runq curthread idle_thread cpu_intr_off now]; try done.
    + apply (switch_to_next s t st t2 n tn i q _ (dispatched tn (now s))); try done.
      * by rewrite lookup_insert_ne.
      * by rewrite lookup_insert_ne, lookup_insert_eq.
      * intros x tx Hx Hl. apply lookup_insert_Some in Hl as [[<- <-]|[Hxc Hl]].
        -- exists t2. by rewrite lookup_insert_eq.
        -- rewrite lookup_insert_ne in Hl by done. eauto.
      * intros x tx Hx Hl. destruct (decide (x = curthread s)) as [->|Hxc].
        -- rewrite lookup_insert_eq in Hl. injection Hl as <-. exists t3. by rewrite lookup_insert_eq.
        -- exists tx. by rewrite lookup_insert_ne, lookup_insert_ne.
    + intros Hn. congruence.
    + intros n' Hn. rewrite Hc in Hn. injection Hn as <-. split_and!; [done|done|]. exists i, q.
      split_and!; try done. exists (dispatched tn (now s)). by rewrite lookup_insert_ne, lookup_insert_eq.
    + intros x Hx Hxn. by rewrite !lookup_insert_ne.
    + exists t3. rewrite lookup_insert_eq, decide_False by naive_solver. done.
    + intros _. exists tn, (dispatched tn (now s)). rewrite lookup_insert_ne, lookup_insert_eq by done.
      rewrite decide_False by done. done.
Qed.

(** [sched_switch] of a current thread that has set its state to [st]. *)
Lemma sched_switch_spec s t st :
  sched_inv s -> threads s !! curthread s = Some t -> st <> TDS_RUNNING ->
  (curthread s = idle_thread s -> st = TDS_READY) ->
  exists v s', sched_switch (leave s t st) = Ok (v, s') /\ switch_result s t st v s'.
Proof.
  intros I Ht Hst Hidle. destruct (switch_account s t st I Ht Hst) as (t2 & HS & Hn2 & HF & ->).
  set (s2 := Sched _ _ _ _ _ _ _ _). pose proof (si_mode _ I) as [_ Hns].
  pose proof (same_td_prio _ _ HS) as (P1 & P2 & P3).
  assert (forall x tx, threads s2 !! x = Some tx -> prio_ok tx) as Hprio.
  { intros x tx Hx. cbn in Hx. apply lookup_insert_Some in Hx as [[<- <-]|[_ Hx]]; [|by apply (si_prio _ I x)].
    unfold prio_ok. rewrite P1, P2. apply (si_prio _ I _ _ Ht). }
  assert (queues_ok (ready s2) (runq s2)) as Q by (by apply (requeue_ok s t t2 st)).
  set (t3 := set_td_nctxsw (uwrap 32 (td_nctxsw t2 + 1)) t2).
  destruct (sched_choose_spec s2 Q Hprio) as [[Hc ->]|(n & tn & i & q & Hc & Htn & Hrn & Hni & Hb & Hq & Hbef & ->)];
    cbn [mbind outcome_bind].
  - destruct (Z.eqb_spec (curthread s) (idle_thread s2)) as [Ei|Ei]; cbn [s2 idle_thread] in Ei.
    + exists 0, s2. split; [done|]. split; cbn [s2 threads runq curthread idle_thread cpu_intr_off now]; try done.
      * unfold s2. rewrite Ei at 2. by apply switch_to_idle.
      * intros n Hn. cbn in Hc. congruence.
      * intros x Hx _. by rewrite lookup_insert_ne.
      * exists t2. rewrite lookup_insert_eq, decide_False by tauto. done.
    + rewrite (upd_some s2 _ t2) by apply lookup_insert_eq. cbn [mbind outcome_bind set_threads no_switch s2].
      rewrite Hns. destruct (si_idle _ I) as (ti & Hti & His).
      assert (td_state ti = TDS_READY) as Hir.
      { destruct His as [|Hr]; [done|]. apply (si_running _ I _ _ Hti) in Hr. congruence. }
      rewrite (thr_some _ _ ti) by (cbn; by rewrite insert_insert_eq, lookup_insert_ne).
      cbn [mbind outcome_bind]. eexists _, _. split; [done|].
      split; cbn [set_curthread set_threads s2 threads runq curthread idle_thread cpu_intr_off now];
        rewrite ?insert_insert_eq; try done.
      * apply (switch_to_idle s t st t3); try done.
      * intros n Hn. cbn in Hc. congruence.
      * intros x Hx _. by rewrite lookup_insert_ne.
      * exists t3. rewrite lookup_insert_eq, decide_False by naive_solver. done.
      * intros _. exists ti, ti. rewrite lookup_insert_ne, decide_True by done. done.
  - by apply (switch_some s t st t2 n tn i q).
Qed.

(** ** The other operations *)

Lemma same_insert (m : gmap Z thread) td t t' x tx :
  m !! td = Some t -> <[td := t']> m !! x = Some tx ->
  exists t0, m !! x = Some t0 /\ (x = td /\ t0 = t /\ tx = t' \/ x <> td /\ tx = t0).
Proof.
  intros Ht Hx. apply lookup_insert_Some in Hx as [[<- <-]|[Hne Hx]].
  - exists t. split; [done|]. by left.
  - exists tx. split; [done|]. by right.
Qed.

(** Changing fields other than the state and the priority. *)
Lemma upd_inv s td t t' :
  sched_inv s -> threads s !! td = Some t -> td_state t' = td_state t -> td_prio t' = td_prio t ->
  0 <= td_base_prio t' < 256 -> sched_inv (set_threads (<[td := t']> (threads s)) s).
Proof.
  intros [Q Hp Hs Hr Hi Hm] Ht Es Ep Hb.
  assert (forall x (P : thread -> Prop), (forall t0, threads s !! x = Some t0 -> P t0 -> x = td -> P t') ->
    (exists tx, threads s !! x = Some tx /\ P tx) -> exists tx, <[td := t']> (threads s) !! x = Some tx /\ P tx) as Hex.
  { intros x P HP (tx & Hx & HPx). destruct (decide (x = td)) as [->|Hne].
    - exists t'. rewrite lookup_insert_eq. split; [done|]. by apply (HP tx).
    - exists tx. by rewrite lookup_insert_ne. }
  split; cbn [set_threads threads runq curthread idle_thread]; try done.
  - apply (queues_ext _ _ Q). intros x b _. unfold ready. cbn. split.
    + intros (tx & Hx & HH). destruct (same_insert _ td t t' x tx Ht Hx) as (t0 & Hx0 & [(-> & -> & ->)|[_ ->]]).
      * exists t. by rewrite <- Es, <- Ep.
      * eauto.
    + intros HH. apply (Hex x (fun t => td_state t = TDS_READY /\ x <> idle_thread s /\ b = td_prio t / RQ_PPQ)); [|done].
      intros t0 Hx0 HP ->. simplify_eq. by rewrite Es, Ep.
  - intros x tx Hx. destruct (same_insert _ td t t' x tx Ht Hx) as (t0 & Hx0 & [(-> & -> & ->)|[_ ->]]); [|by apply (Hp x)].
    split; [rewrite Ep; by apply (Hp td)|done].
  - apply (Hex _ (fun t => td_state t = TDS_RUNNING \/ curthread s = idle_thread s /\ td_state t = TDS_READY)); [|done].
    intros t0 Hx0 HP Htd. rewrite Htd in Hx0. simplify_eq. by rewrite Es.
  - intros x tx Hx Hst. destruct (same_insert _ td t t' x tx Ht Hx) as (t0 & Hx0 & [(-> & -> & ->)|[_ ->]]).
    + apply (Hr td t); congruence.
    + by apply (Hr x t0).
  - apply (Hex _ (fun t => td_state t = TDS_READY \/ td_state t = TDS_RUNNING)); [|done].
    intros t0 Hx0 HP Htd. rewrite Htd in Hx0. simplify_eq. by rewrite Es.
Qed.

(** Changing the active priority. *)
Lemma set_active_prio_spec s td t p :
  sched_inv s -> threads s !! td = Some t -> 0 <= p < 256 -> td <> idle_thread s ->
  exists rq, sched_set_active_prio s td p =
      Ok (set_runq rq (set_threads (<[td := set_td_prio p t]> (threads s)) s)) /\
    sched_inv (set_runq rq (set_threads (<[td := set_td_prio p t]> (threads s)) s)).
Proof.
  intros I Ht Hp Hni. unfold sched_set_active_prio. rewrite (thr_some s td t) by done. cbn [mbind outcome_bind].
  unfold prio_eq. pose proof (si_prio _ I td t Ht) as [Hp1 Hp2].
  destruct (Z.eqb_spec (td_prio t) p) as [<-|Hne].
  { exists (runq s). assert (set_td_prio (td_prio t) t = t) as -> by (by destruct t).
    rewrite insert_id by done. by destruct s. }
  set (t' := set_td_prio p t). set (s1 := set_threads (<[td := t']> (threads s)) s).
  pose proof I as [Q Hpr Hs Hr Hi Hm].
  assert (forall rq, queues_ok (ready (set_runq rq s1)) rq -> sched_inv (set_runq rq s1)) as Hmk.
  { intros rq Hrq. split; cbn [set_runq s1 set_threads threads runq curthread idle_thread]; try done.
    - intros x tx Hx. destruct (same_insert _ td t t' x tx Ht Hx) as (t0 & Hx0 & [(-> & -> & ->)|[_ ->]]); [|by apply (Hpr x)].
      by split.
    - destruct Hs as (c & Hc & Hcs). destruct (decide (curthread s = td)) as [E|].
      + exists t'. rewrite E in Hc. rewrite E at 1. rewrite lookup_insert_eq. by simplify_eq.
      + exists c. by rewrite lookup_insert_ne.
    - intros x tx Hx Hst. destruct (same_insert _ td t t' x tx Ht Hx) as (t0 & Hx0 & [(-> & -> & ->)|[_ ->]]).
      + by apply (Hr td t).
      + by apply (Hr x t0).
    - destruct Hi as (c & Hc & Hcs). exists c. by rewrite lookup_insert_ne. }
  assert (forall x b, x <> td -> ready s1 x b <-> ready s x b) as Hother
    by (intros x b Hx; unfold ready; cbn; by rewrite lookup_insert_ne).
  unfold td_is_ready, td_is. destruct (bool_decide_reflect (td_state t = TDS_READY)) as [Hrdy|Hnrdy].
  - assert (ready s td (td_prio t / RQ_PPQ)) as HR by (exists t; done).
    pose proof (band_range t (conj Hp1 Hp2)) as Hb1.
    assert (0 <= p / RQ_PPQ < 64) as Hb2 by (unfold RQ_PPQ; lia).
    destruct (runq_remove_spec (ready s) s td t Q Ht (conj Hp1 Hp2) HR) as (q & Hq & ->). cbn [mbind outcome_bind].
    pose proof (queue_remove _ _ Q td _ q Hb1 Hq (fun c HC => ready_band s td _ _ HC HR)) as Q1.
    rewrite (upd_some _ td t) by done. cbn [mbind outcome_bind]. fold t'.
    set (s2 := set_threads _ _).
    destruct (runq_add_spec _ s2 td t' Q1) as (q2 & Hq2 & ->); [apply lookup_insert_eq|done|].
    eexists. split; [done|]. apply Hmk.
    eapply queues_ext; [apply (queue_add _ _ Q1 td _ q2 Hb2 Hq2)|].
    + intros c [_ HC]. done.
    + intros x b _. destruct (decide (x = td)) as [->|Hx].
      * unfold ready. cbn. rewrite lookup_insert_eq. split.
        -- intros (? & [= <-] & _ & _ & ->). by right.
        -- intros [[_ []]|[_ ->]]; [done|]. exists t'. done.
      * transitivity (ready s x b); [by apply Hother|]. tauto.
  - rewrite (upd_some _ td t) by done. exists (runq s). split; [done|]. apply Hmk.
    apply (queues_ext _ _ Q). intros x b _. destruct (decide (x = td)) as [->|Hx]; [|by apply Hother].
    unfold ready. cbn. rewrite lookup_insert_eq. split.
    + intros (? & [= <-] & Hst & _). done.
    + intros (t0 & Ht0 & Hst & _). simplify_eq.
Qed.

(** ** Sequences of operations *)

Inductive sched_event :=
| Spawn (td prio : Z)
| Wakeup (td reason : Z)
| Yield
| Block (st : thread_state_t)
| Clock
| MaybePreempt
| PreemptDisable
| PreemptEnable
| SetPrio (td prio : Z)
| LendPrio (td prio : Z)
| UnlendPrio (td prio : Z)
| Elapse (t : bintime_t).

(** A new thread, zeroed but for its priorities. *)
Definition new_thread (prio : Z) : thread :=
  Thread TDS_INACTIVE 0 0 0 0 0 0 0 0 [] prio prio 0 (Bintime 0 0) (Bintime 0 0) (Bintime 0 0)
    (Bintime 0 0) 0 0.

Definition sched_step (adjust : sched -> Z -> Z -> outcome sched) s (e : sched_event) : outcome sched :=
  match e with
  | Spawn td prio => Ok (set_threads (<[td := new_thread prio]> (threads s)) s)
  | Wakeup td reason => sched_wakeup s td reason
  | Yield => thread_yield s
  | Block st =>
      s ← upd s (curthread s) (set_td_state st);
      '(_, s) ← sched_switch s;
      Ok s
  | Clock => sched_clock s
  | MaybePreempt => sched_maybe_preempt s
  | PreemptDisable => preempt_disable s
  | PreemptEnable => preempt_enable s
  | SetPrio td prio => sched_set_prio adjust s td prio
  | LendPrio td prio => sched_lend_prio s td prio
  | UnlendPrio td prio => sched_unlend_prio s td prio
  | Elapse t => Ok (Sched (threads s) (runq s) (curthread s) (idle_thread s) (sched_active s)
                      (no_switch s) (cpu_intr_off s) t)
  end.

(** The callers' side: only threads that are neither ready nor running are woken up; the
    idle thread does not block and keeps its priority; priorities are 8-bit numbers, and
    lent ones are higher than the thread's own; preemption is enabled as often as it was
    disabled.  (Priorities of threads blocked on a turnstile are not set here.) *)
Definition sched_event_ok s (e : sched_event) : Prop :=
  match e with
  | Spawn td prio => threads s !! td = None /\ 0 <= prio < 256
  | Wakeup td _ => exists t, threads s !! td = Some t /\ td_state t <> TDS_READY /\
      td_state t <> TDS_RUNNING
  | Block st => st <> TDS_READY /\ st <> TDS_RUNNING /\ curthread s <> idle_thread s
  | PreemptEnable => exists t, threads s !! curthread s = Some t /\ 0 < td_pdnest t
  | SetPrio td prio => td <> idle_thread s /\ 0 <= prio < 256 /\ exists t, threads s !! td = Some t /\
      td_state t <> TDS_BLOCKED
  | LendPrio td prio => td <> idle_thread s /\ 0 <= prio /\ exists t, threads s !! td = Some t /\
      prio < td_prio t
  | UnlendPrio td prio => td <> idle_thread s /\ 0 <= prio < 256 /\ exists t, threads s !! td = Some t /\
      (prio < td_base_prio t -> prio < td_prio t)
  | _ => True
  end.

Lemma leave_upd s t st :
  threads s !! curthread s = Some t -> upd s (curthread s) (set_td_state st) = Ok (leave s t st).
Proof. intros Ht. by rewrite (upd_some s _ t). Qed.

Lemma yield_spec s t :
  sched_inv s -> threads s !! curthread s = Some t ->
  exists v s', thread_yield s = Ok s' /\ switch_result s t TDS_READY v s'.
Proof.
  intros I Ht. unfold thread_yield, thread_self. rewrite (leave_upd s t) by done. cbn [mbind outcome_bind].
  destruct (sched_switch_spec s t TDS_READY I Ht) as (v & s' & -> & HR); [done|done|]. by exists v, s'.
Qed.

Lemma maybe_preempt_spec s t :
  sched_inv s -> threads s !! curthread s = Some t ->
  sched_maybe_preempt s =
    if (0 <? td_pdnest t) || ((0 <? td_idnest t) && cpu_intr_off s) then Ok s
    else if flag_on (td_flags t) TDF_NEEDSWITCH then thread_yield s else Ok s.
Proof.
  intros I Ht. unfold sched_maybe_preempt, preempt_disabled, intr_disabled, thread_self, thread_yield, thread_self.
  rewrite (thr_some s _ t) by done. cbn [mbind outcome_bind].
  destruct ((0 <? td_pdnest t) || _); [done|].
  destruct (flag_on _ _); done.
Qed.

Lemma maybe_preempt_inv s : sched_inv s -> exists s', sched_maybe_preempt s = Ok s' /\ sched_inv s'.
Proof.
  intros I. destruct (si_self _ I) as (t & Ht & _). rewrite (maybe_preempt_spec s t) by done.
  destruct (yield_spec s t I Ht) as (v & s' & E & HR). rewrite E.
  repeat case_match; eauto using sw_inv.
Qed.

Lemma lend_inv s td t p :
  sched_inv s -> threads s !! td = Some t -> td <> idle_thread s -> 0 <= p < td_prio t ->
  exists s', sched_lend_prio s td p = Ok s' /\ sched_inv s'.
Proof.
  intros I Ht Hni Hp. pose proof (si_prio _ I td t Ht) as [Hp1 Hp2]. unfold sched_lend_prio.
  rewrite (thr_some s td t) by done. cbn [mbind outcome_bind]. unfold prio_lt. assert_step lia.
  rewrite (upd_some s td t) by done. cbn [mbind outcome_bind]. set (t' := set_td_flags _ _).
  pose proof (upd_inv s td t t' I Ht eq_refl eq_refl Hp2) as I1.
  destruct (set_active_prio_spec _ td t' p I1) as (rq & -> & I2); [apply lookup_insert_eq|lia|done|]. eauto.
Qed.

Lemma sched_step_inv adjust s e :
  sched_inv s -> sched_event_ok s e -> exists s', sched_step adjust s e = Ok s' /\ sched_inv s'.
Proof.
  intros I He. destruct (si_self _ I) as (c & Hc & Hcs). pose proof (si_prio _ I _ _ Hc) as [_ Hcb].
  destruct e as [td p|td r| |st| | | | |td p|td p|td p|b]; cbn [sched_step sched_event_ok] in *.
  - destruct He as [Hn Hp]. eexists. split; [done|]. destruct I as [Q Hpr Hs Hr (i & Hi & His) Hm].
    assert (forall x t, threads s !! x = Some t -> x <> td) as Hne by (intros; congruence).
    split; cbn [set_threads threads runq curthread idle_thread]; try done.
    + apply (queues_ext _ _ Q). intros x b _. unfold ready. cbn. destruct (decide (x = td)) as [->|].
      * rewrite lookup_insert_eq, Hn. split; intros (? & [= <-] & ? & _); done.
      * by rewrite lookup_insert_ne.
    + intros x t Hx. apply lookup_insert_Some in Hx as [[<- <-]|[_ Hx]]; [done|by apply (Hpr x)].
    + exists c. rewrite lookup_insert_ne by (by apply not_eq_sym, (Hne _ c)). done.
    + intros x t Hx Hst. apply lookup_insert_Some in Hx as [[<- <-]|[_ Hx]]; [done|by apply (Hr x t)].
    + exists i. rewrite lookup_insert_ne by (by apply not_eq_sym, (Hne _ i)). done.
  - destruct He as (t & Ht & H1 & H2).
    destruct (sched_wakeup_spec s td t r I Ht H1 H2) as (s' & q & t' & E & I' & _). eauto.
  - destruct (yield_spec s c I Hc) as (v & s' & E & HR). eauto using sw_inv.
  - destruct He as (H1 & H2 & H3). rewrite (leave_upd s c) by done. cbn [mbind outcome_bind].
    destruct (sched_switch_spec s c st I Hc H2) as (v & s' & -> & HR); [done|]. eauto using sw_inv.
  - unfold sched_clock, thread_self. destruct (negb _); [|eauto]. rewrite (upd_some s _ c) by done.
    eexists. split; [done|]. cbn zeta. case_match; by apply (upd_inv s _ c).
  - by apply maybe_preempt_inv.
  - unfold preempt_disable, thread_self. rewrite (upd_some s _ c) by done. eexists. split; [done|].
    by apply (upd_inv s _ c).
  - destruct He as (t & Ht & Hpos). assert (t = c) as -> by congruence. unfold preempt_enable, thread_self.
    rewrite (thr_some s _ c) by done. cbn [mbind outcome_bind]. assert_step lia.
    rewrite (upd_some s _ c) by done. cbn [mbind outcome_bind]. apply maybe_preempt_inv.
    by apply (upd_inv s _ c).
  - destruct He as (Hni & Hp & t & Ht & Hnb). unfold sched_set_prio. rewrite (upd_some s td t) by done.
    cbn [mbind outcome_bind]. set (t' := set_td_base_prio p t).
    pose proof (upd_inv s td t t' I Ht eq_refl eq_refl Hp) as I1.
    rewrite (thr_some _ td t') by apply lookup_insert_eq. cbn [mbind outcome_bind].
    destruct (td_is_borrowing t' && _); [eauto|].
    destruct (set_active_prio_spec _ td t' p I1) as (rq & -> & I2); [apply lookup_insert_eq|done|done|].
    cbn [mbind outcome_bind]. unfold td_is_blocked, td_is. rewrite bool_decide_false by done. cbn [andb]. eauto.
  - destruct He as (Hni & Hp & t & Ht & Hlt). by apply (lend_inv s td t).
  - destruct He as (Hni & Hp & t & Ht & Hlt). pose proof (si_prio _ I td t Ht) as [Hp1 Hp2].
    unfold sched_unlend_prio. rewrite (thr_some s td t) by done. cbn [mbind outcome_bind].
    unfold prio_le. destruct (Z.leb_spec (td_base_prio t) p) as [Hle|Hgt].
    + rewrite (upd_some s td t) by done. cbn [mbind outcome_bind]. set (t' := set_td_flags _ _).
      pose proof (upd_inv s td t t' I Ht eq_refl eq_refl Hp2) as I1.
      destruct (set_active_prio_spec _ td t' (td_base_prio t) I1) as (rq & -> & I2);
        [apply lookup_insert_eq|done|done|]. eauto.
    + apply (lend_inv s td t); try done. lia.
  - eexists. split; [done|]. by destruct I as [Q ? ? ? ? ?]; split.
Qed.

Fixpoint sched_run_events adjust s (es : list sched_event) : outcome sched :=
  match es with [] => Ok s | e :: es => s ← sched_step adjust s e; sched_run_events adjust s es end.

Fixpoint sched_events_ok adjust s (es : list sched_event) : Prop :=
  match es with
  | [] => True
  | e :: es => sched_event_ok s e /\ forall s', sched_step adjust s e = Ok s' -> sched_events_ok adjust s' es
  end.

Lemma sched_run_inv adjust es : forall s,
  sched_inv s -> sched_events_ok adjust s es ->
  exists s', sched_run_events adjust s es = Ok s' /\ sched_inv s'.
Proof.
  induction es as [|e es IH]; intros s I Hes; [by exists s|]. destruct Hes as [He Hes].
  destruct (sched_step_inv adjust s e I He) as (s1 & E1 & I1). cbn [sched_run_events]. rewrite E1.
  apply IH; [done|]. by apply Hes.
Qed.

(** C9: Whatever threads are created, woken up, switched, preempted and reprioritised, in
    any order that keeps the callers' side, no assertion of the scheduler fails and no
    thread is taken off a queue it is not on; the run queues always hold exactly the ready
    threads, each once, in the queue of its priority, and at most one thread is running,
    the current one. *)
Theorem sched_consistent adjust s es :
  sched_inv s -> sched_events_ok adjust s es ->
  exists s', sched_run_events adjust s es = Ok s' /\ sched_inv s'.
Proof. apply sched_run_inv. Qed.

(** C26: A thread that leaves the processor in state [st] makes way for a thread such that
    no ready thread is in a higher band, the first of its queue, to whose end the leaving
    thread has been appended if it is still ready; the idle thread runs only if no thread
    is ready.  The thread that leaves keeps its state and priority. *)
Theorem sched_switch_correct s t st :
  sched_inv s -> threads s !! curthread s = Some t -> st <> TDS_RUNNING ->
  (curthread s = idle_thread s -> st = TDS_READY) ->
  exists v s', sched_switch (leave s t st) = Ok (v, s') /\ sched_inv s' /\
    (curthread s' = idle_thread s -> forall x b, ~ ready s' x b) /\
    (curthread s' <> idle_thread s -> exists n i q, threads s' !! curthread s' = Some n /\
       td_state n = TDS_RUNNING /\ requeue s t st !! i = Some (curthread s' :: q) /\
       Z.of_nat i = td_prio n / RQ_PPQ /\ forall x b, ready s' x b -> td_prio n / RQ_PPQ <= b) /\
    (curthread s' <> curthread s -> exists t', threads s' !! curthread s = Some t' /\
       td_state t' = st /\ td_prio t' = td_prio t).
Proof.
  intros I Ht Hst Hidle. destruct (sched_switch_spec s t st I Ht Hst Hidle) as (v & s' & E & HR).
  exists v, s'. destruct HR as [I' Hnone Hsome Hother Hold Hnew (Ci & _)]. split_and!; try done.
  - intros Hc x b Hx. destruct (choose_loop (requeue s t st)) as [n|] eqn:Ec.
    { destruct (Hsome n eq_refl) as (Hn & Hni & _). congruence. }
    destruct (Hnone eq_refl) as [_ Hrq]. pose proof (proj1 (choose_none _) Ec) as He.
    pose proof (si_queues _ I') as Q. pose proof Hx as (tx & Htx & _ & _ & ->).
    destruct (queue_get _ _ Q _ (band_range tx (si_prio _ I' _ _ Htx))) as (q & _ & Hq & _ & Hin).
    apply Hin in Hx. rewrite Hrq in Hq. apply He in Hq as ->. by apply not_elem_of_nil in Hx.
  - intros Hc. destruct (choose_loop (requeue s t st)) as [n|] eqn:Ec; [|by destruct (Hnone eq_refl)].
    destruct (Hsome n eq_refl) as (Hn & Hni & i & q & Hi & Hbef & Hrq & tm & Htm & Hband). subst n.
    destruct (si_self _ I') as (tn & Htn & [Hrun|[HH _]]); [|congruence].
    rewrite Htm in Htn. injection Htn as <-.
    exists tm, i, q. split_and!; try done. intros x b Hx. rewrite <- Hband.
    pose proof (si_queues _ I') as Q. pose proof Hx as (tx & Htx & _ & _ & Eb).
    pose proof (band_range tx (si_prio _ I' _ _ Htx)) as Hbr. rewrite <- Eb in Hbr.
    destruct (queue_get _ _ Q _ Hbr) as (q' & _ & Hq' & _ & Hin). apply Hin in Hx.
    destruct (decide (b < Z.of_nat i)) as [Hlt|]; [|lia].
    rewrite Hrq, list_lookup_insert_ne in Hq' by lia. apply Hbef in Hq'; [|lia]. subst. set_solver.
  - intros Hc. destruct Hold as (t' & Ht' & _ & HS). exists t'. rewrite decide_False in HS by tauto.
    apply same_td_prio in HS as (-> & _ & ->). done.
Qed.

(** ** Time slices *)

(** A clock tick of a thread that computes: the interrupt and the return from it. *)
Definition tick s : outcome sched := s ← sched_clock s; sched_maybe_preempt s.

Fixpoint ticks (n : nat) s : outcome sched :=
  match n with O => Ok s | S n => s ← tick s; ticks n s end.

(** A thread that can be preempted, with a slice of [k] ticks at most. *)
Definition computes t (k : Z) : Prop :=
  td_pdnest t = 0 /\ td_idnest t = 0 /\ - 2 ^ 31 < td_slice t <= k.

(** The current thread, of band [b], with a slice of at most [k] ticks, competes with the
    threads of [q], which all compute, and those of [r] behind them; no thread of a
    higher band is ready. *)
Record contest s (b : nat) (k : Z) (q r : list Z) : Prop := {
  ct_inv : sched_inv s;
  ct_self : curthread s <> idle_thread s /\ exists t, threads s !! curthread s = Some t /\
    td_prio t / RQ_PPQ = Z.of_nat b /\ computes t k;
  ct_queue : runq s !! b = Some (q ++ r);
  ct_higher j q' : (j < b)%nat -> runq s !! j = Some q' -> q' = [];
  ct_others x t : x ∈ q -> threads s !! x = Some t -> computes t SLICE;
}.

Lemma choose_first qs i td q :
  qs !! i = Some (td :: q) -> (forall j q', (j < i)%nat -> qs !! j = Some q' -> q' = []) ->
  choose_loop qs = Some td.
Proof.
  revert i. induction qs as [|q0 qs IH]; intros i Hi Hbef; [by rewrite lookup_nil in Hi|].
  destruct i as [|i]; cbn in Hi; [by simplify_eq|].
  assert (q0 = []) as -> by (apply (Hbef 0%nat); [lia|done]). cbn.
  apply (IH i Hi). intros j q' Hj. apply (Hbef (S j)). lia.
Qed.

(** The first contender takes over. *)
Lemma contest_yield s b n q r t :
  sched_inv s -> curthread s <> idle_thread s -> threads s !! curthread s = Some t ->
  td_prio t / RQ_PPQ = Z.of_nat b -> runq s !! b = Some ((n :: q) ++ r) ->
  (forall j q', (j < b)%nat -> runq s !! j = Some q' -> q' = []) ->
  (forall x t, x ∈ n :: q -> threads s !! x = Some t -> computes t SLICE) ->
  exists s', thread_yield s = Ok s' /\ curthread s' = n /\ contest s' b SLICE q (r ++ [curthread s]).
Proof.
  intros I Hni Ht Hb Hq Hh Ho.
  destruct (yield_spec s t I Ht) as (v & s' & E & HR). exists s'. split; [done|].
  assert (requeue s t TDS_READY !! b = Some (n :: q ++ r ++ [curthread s])) as Hrq.
  { unfold requeue. rewrite decide_True by done. rewrite Hb, Nat2Z.id.
    rewrite list_lookup_insert_eq by (by apply lookup_lt_Some in Hq).
    rewrite (list_lookup_total_correct _ _ _ Hq). by rewrite <- app_assoc. }
  assert (forall j q', (j < b)%nat -> requeue s t TDS_READY !! j = Some q' -> q' = []) as Hrh.
  { intros j q' Hj. unfold requeue. rewrite decide_True by done. rewrite Hb, Nat2Z.id.
    rewrite list_lookup_insert_ne by lia. by apply Hh. }
  destruct HR as [I' _ Hsome Hother Hold Hnew (Ci & Cc & _)].
  destruct (Hsome n) as (Hn & Hnid & i & q' & Hi & Hbef & Hrq' & tn & Htn & Hbn).
  { by apply (choose_first _ b n (q ++ r ++ [curthread s])). }
  assert (i = b) as ->.
  { destruct (lt_eq_lt_dec i b) as [[Hlt|]|Hgt]; [|done|].
    - by apply Hrh in Hi.
    - by apply (Hbef b) in Hrq. }
  rewrite Hrq in Hi. injection Hi as <-. split; [done|].
  pose proof (qo_nodup _ _ (si_queues _ I) b _ Hq) as Hnd. cbn in Hnd. apply NoDup_cons in Hnd as [Hnn _].
  assert (curthread s ∉ n :: q ++ r) as Hcq.
  { intros Hin. apply (qo_in _ _ (si_queues _ I) b _ _ Hq) in Hin. by apply self_not_ready in Hin. }
  split.
  - done.
  - split; [congruence|]. exists tn. rewrite Hn. split_and!; [done|done|].
    destruct Hnew as (tm & tm' & Htm & Htm' & _ & _ & _ & HS); [rewrite Hn; set_solver|].
    rewrite Hn in *. rewrite Htn in Htm'. injection Htm' as <-.
    rewrite decide_False in HS by done. destruct HS as (HK & Hsl & _). unfold td_key in HK.
    injection HK as _ _ _ Hpd Hid _ _ _ _ _ _. destruct (Ho n tm) as (H1 & H2 & H3); [set_solver|done|].
    unfold computes. rewrite Hsl, Hpd, Hid. done.
  - rewrite Hrq', list_lookup_insert_eq by (by apply lookup_lt_Some in Hrq). done.
  - intros j q' Hj. rewrite Hrq', list_lookup_insert_ne by lia. by apply Hrh.
  - intros x tx Hx Htx. rewrite Hother in Htx; [by apply (Ho x); [set_solver|]|set_solver|].
    rewrite Hn. intros ->. set_solver.
Qed.

(** A tick of the clock: the first contender takes over, or the slice gets shorter. *)
Lemma contest_tick s b k n q r :
  contest s b k (n :: q) r -> k <= 10 ->
  exists s', tick s = Ok s' /\
    ((curthread s' = n /\ contest s' b SLICE q (r ++ [curthread s])) \/
     (1 < k /\ curthread s' = curthread s /\ contest s' b (k - 1) (n :: q) r)).
Proof.
  intros [I [Hni (t & Ht & Hb & Hpd & Hid & Hsl)] Hq Hh Ho] Hk10. unfold tick, sched_clock, thread_self.
  destruct (Z.eqb_spec (curthread s) (idle_thread s)) as [|_]; [done|]. cbn [negb].
  rewrite (upd_some s _ t) by done. cbn [mbind outcome_bind].
  match goal with |- context [<[_ := ?u]> _] => set (t1 := u) end.
  assert (td_state t1 = td_state t /\ td_prio t1 = td_prio t /\ td_base_prio t1 = td_base_prio t /\
    td_pdnest t1 = 0 /\ td_idnest t1 = 0 /\ td_slice t1 = td_slice t - 1 /\
    (td_slice t - 1 <= 0 -> flag_on (td_flags t1) TDF_NEEDSWITCH = true)) as (E1 & E2 & E3 & E4 & E5 & E6 & E7).
  { subst t1. cbn [set_td_slice td_slice]. rewrite swrap_small by lia.
    destruct (Z.leb_spec (td_slice t - 1) 0); cbn; split_and!; try done; try lia.
    intros _. change TDF_NEEDSWITCH with (2 ^ 1). rewrite flag_on_bit by done. unfold flag_set.
    rewrite Z.lor_spec. apply orb_true_r. }
  set (s1 := set_threads _ _).
  assert (sched_inv s1) as I1 by (apply (upd_inv s _ t); try done; rewrite E3; apply (si_prio _ I _ _ Ht)).
  assert (threads s1 !! curthread s1 = Some t1) as Ht1 by apply lookup_insert_eq.
  assert (curthread s ∉ (n :: q) ++ r) as Hcq.
  { intros Hin. apply (qo_in _ _ (si_queues _ I) b _ _ Hq) in Hin. by apply self_not_ready in Hin. }
  assert (forall x tx, x ∈ n :: q -> threads s1 !! x = Some tx -> computes tx SLICE) as Ho1.
  { intros x tx Hx Htx. cbn in Htx. rewrite lookup_insert_ne in Htx by set_solver. by apply (Ho x). }
  rewrite (maybe_preempt_spec s1 t1) by done. rewrite E4, E5. cbn [Z.ltb Z.compare orb andb].
  destruct (flag_on (td_flags t1) TDF_NEEDSWITCH) eqn:Hneed.
  - destruct (contest_yield s1 b n q r t1) as (s' & E & Hn & HC); try done; [by rewrite E2|].
    exists s'. split; [done|]. by left.
  - exists s1. split; [done|]. right.
    assert (1 < td_slice t) as Hgt by (destruct (decide (td_slice t - 1 <= 0)) as [Hle|]; [by apply E7 in Hle; congruence|lia]).
    split_and!; [lia|done|]. split; try done. split; [done|]. exists t1. unfold computes.
    rewrite E2, E4, E5, E6. split_and!; done || lia.
Qed.

(** The first contender runs after at most as many ticks as the current slice has. *)
Lemma contest_next s b n q r (k : nat) :
  (k < 10)%nat -> contest s b (Z.of_nat (S k)) (n :: q) r ->
  exists m s', (m <= S k)%nat /\ ticks m s = Ok s' /\ curthread s' = n /\
    contest s' b SLICE q (r ++ [curthread s]).
Proof.
  revert s. induction k as [|k IH]; intros s Hk10 HC;
    destruct (contest_tick s b _ n q r HC ltac:(lia)) as (s1 & E & [[Hn HC']|(Hk & Hc & HC')]).
  - exists 1%nat, s1. cbn. by rewrite E.
  - lia.
  - exists 1%nat, s1. cbn. rewrite E. split; [lia|done].
  - replace (Z.of_nat (S (S k)) - 1) with (Z.of_nat (S k)) in HC' by lia.
    destruct (IH s1 ltac:(lia) HC') as (m & s' & Hm & E' & Hn & HC''). exists (S m), s'. cbn [ticks]. rewrite E.
    rewrite <- Hc. split_and!; [lia|done|done|done].
Qed.

(** C25: No thread of the highest band with ready threads starves: if the running thread, which
    is not the idle one, is of this band and has at most a full slice left, and if it
    and the [i] threads before a thread in the queue all compute, with preemption and
    interrupts enabled, the thread runs after at most [10 * (i + 1)] ticks of the
    clock. *)
Theorem sched_no_starvation s b q r i td :
  contest s b SLICE q r -> q !! i = Some td ->
  exists n s', (n <= 10 * (i + 1))%nat /\ ticks n s = Ok s' /\ curthread s' = td.
Proof.
  revert s r q. induction i as [|i IH]; intros s r [|n q] HC Hi; try done; cbn in Hi;
    destruct (contest_next s b n q r 9 ltac:(lia) HC) as (m & s1 & Hm & E & Hn & HC').
  - simplify_eq. exists m, s1. split_and!; [lia|done|done].
  - destruct (IH s1 _ q HC' Hi) as (m' & s' & Hm' & E' & Hc). exists (m + m')%nat, s'.
    split_and!; [lia| |done]. clear -E E'. revert s E. induction m as [|m IHm]; intros s E; cbn in *; [congruence|].
    apply bind_ok in E as (s2 & -> & E). cbn. by apply IHm.
Qed.

(** ** A system that boots and starts three threads *)

Definition boot_sched : sched :=
  Sched {[1 := set_td_state TDS_RUNNING (new_thread 255)]} runq_init 1 1 true false false (Bintime 0 0).

Lemma boot_thread td t : threads boot_sched !! td = Some t ->
  td = 1 /\ t = set_td_state TDS_RUNNING (new_thread 255).
Proof. cbn [threads boot_sched]. by intros [<- <-]%lookup_singleton_Some. Qed.

Lemma boot_inv : sched_inv boot_sched.
Proof.
  split.
  - split; [done| |].
    + intros i q Hi. apply lookup_replicate in Hi as [-> _]. constructor.
    + intros i q td Hi. apply lookup_replicate in Hi as [-> _]. split; [by intros ?%not_elem_of_nil|].
      intros (t & Ht & Hr & _). apply boot_thread in Ht as [_ ->]. done.
  - intros td t Ht. apply boot_thread in Ht as [_ ->]. unfold prio_ok. cbn. lia.
  - eexists. split; [apply lookup_singleton_eq|]. by left.
  - intros td t Ht _. by apply boot_thread in Ht as [-> _].
  - eexists. split; [apply lookup_singleton_eq|]. by right.
  - done.
Qed.

Definition no_adjust s (td oldprio : Z) : outcome sched := Ok s.

Definition three_threads : list sched_event :=
  [Spawn 2 100; Spawn 3 101; Spawn 4 103; Wakeup 2 0; Wakeup 3 0; Wakeup 4 0; MaybePreempt].

Lemma three_threads_ok : sched_events_ok no_adjust boot_sched three_threads.
Proof.
  cbn [sched_events_ok three_threads]. repeat (split; [| intros ? H; vm_compute in H; injection H as <-]).
  all: cbn; try (split; [reflexivity|lia]); try done.
  all: eexists; split; [reflexivity|]; split; by vm_compute.
Qed.

(** Thread 2 runs, 3 and 4 wait. *)
Definition contending : sched :=
  match sched_run_events no_adjust boot_sched three_threads with Ok s => s | _ => boot_sched end.

Lemma contending_inv : sched_inv contending.
Proof.
  destruct (sched_run_inv no_adjust three_threads boot_sched boot_inv three_threads_ok) as (s & E & I).
  unfold contending. by rewrite E.
Qed.

Lemma sched_consistent_witness :
  exists s, sched_run_events no_adjust boot_sched three_threads = Ok s /\ sched_inv s.
Proof. exact (sched_consistent no_adjust boot_sched three_threads boot_inv three_threads_ok). Defined.

Lemma sched_switch_correct_witness : exists v s', sched_switch
  (leave contending (default (new_thread 0) (threads contending !! 2)) TDS_SLEEPING) = Ok (v, s') /\
  sched_inv s'.
Proof.
  destruct (sched_switch_correct contending (default (new_thread 0) (threads contending !! 2)) TDS_SLEEPING)
    as (v & s' & E & I & _); [exact contending_inv|by vm_compute|done|by vm_compute|].
  exists v, s'. exact (conj E I).
Defined.

Lemma sched_no_starvation_witness :
  exists n s', (n <= 20)%nat /\ ticks n contending = Ok s' /\ curthread s' = 4.
Proof.
  apply (sched_no_starvation contending 25 [3; 4] [] 1 4); [|done]. split.
  - exact contending_inv.
  - split; [by vm_compute|]. eexists. split; [by vm_compute|]. split; [by vm_compute|].
    unfold computes. vm_compute. done.
  - by vm_compute.
  - intros j q Hj Hq. assert (forallb (fun q => bool_decide (q = [])) (take 25 (runq contending)) = true) as Hall
      by by vm_compute.
    rewrite forallb_forall in Hall. apply (bool_decide_unpack (q = [])), bool_decide_pack. 
    specialize (Hall q). apply bool_decide_eq_true in Hall; [done|]. apply list_elem_of_In.
    apply list_elem_of_lookup. exists j. by rewrite lookup_take_lt.
  - intros x t Hx. apply elem_of_cons in Hx as [->|Hx]; [|apply list_elem_of_singleton in Hx as ->];
      vm_compute; intros [= <-]; by vm_compute.
Defined.

(** ** What modelling showed *)

(** The slice of a thread is set when it wakes up and never again: after its first slice
    a thread that computes gives way at every tick. *)
Lemma slice_not_renewed :
  exists s1 s2, ticks 30 contending = Ok s1 /\ curthread s1 = 2 /\
    ticks 1 s1 = Ok s2 /\ curthread s2 = 3.
Proof. eexists _, _. split; [by vm_compute|]. split; [done|]. split; by vm_compute. Qed.

(** Thread 3 runs from 5 s to 7 s and sleeps until 20 s, but [td_slptime] says 18 s: the
    time at which it fell asleep is recorded relative to the start of its last run. *)
Lemma sleep_time_from_run_start :
  exists s t, sched_run_events no_adjust contending
      [Elapse (Bintime 5 0); Yield; Elapse (Bintime 7 0); Block TDS_SLEEPING; Elapse (Bintime 20 0);
       Wakeup 3 0] = Ok s /\
    threads s !! 3 = Some t /\ td_slptime t = Bintime 18 0.
Proof. eexists _, _. split; [by vm_compute|]. split; [by vm_compute|]. done. Qed.
