(* ===== verification/Sleepq.v ===== *)
(** * Sleep queues (sys/kern/sleepq.c, parts of sys/kern/thread.c)

    A thread that waits for an event sleeps on a channel, an address that stands for the
    event.  Every thread brings a sleep queue of its own: the first thread that sleeps on
    a channel gives it its queue, the next ones leave theirs on the free list of that
    queue, and every thread that leaves takes one with it.  The components are put
    together here: the scheduler of [Sched], the callouts of [Callout] for timed waits,
    and the sleep queues.

    A function that sleeps is cut at its call of [sched_switch]: the part after it runs
    when the thread is dispatched again, and [frames] says for every thread which such
    part is on its stack.  The results: in any interleaving no assertion of the sleep
    queues, the scheduler and the callouts fails, every sleeping thread is on the queue of
    its channel and every other thread has exactly one queue; a signal wakes the thread of
    the highest priority, the first one of these, a broadcast wakes all; and a timed wait
    returns the reason for which the thread was woken. *)

From S2P Require Import Prelude Time Callout Sched.

Definition SC_TABLESIZE : Z := 256.
Definition SC_MASK : Z := SC_TABLESIZE - 1.
Definition SC_SHIFT : Z := 8.
Definition SC_HASH (wc : Z) : Z := Z.land (Z.lxor (Z.shiftr wc SC_SHIFT) wc) SC_MASK.

(** Sleep queues are known by their addresses, threads too. *)
Record sleepq := Sleepq {
  sq_free : list Z;
  sq_blocked : list Z;
  sq_nblocked : Z;
  sq_wchan : Z;
}.

(** What a thread does after [sched_switch] has returned in it. *)
Inductive frame := InWait | InTimedWait (timeout : Z).

(** [slpcallouts] are the callouts, where [td_slpcallout] of a thread has the thread's
    address; [systime] is what [getsystime] returns. *)
Record kern := Kern {
  sch : sched;
  sqs : gmap Z sleepq;
  sleepq_chains : list (list Z);
  slpcallouts : callouts;
  systime : Z;
  frames : gmap Z frame;
}.

Implicit Types (k : kern) (x : sleepq) (t : thread) (td q w : Z).

Definition set_sch s k := Kern s (sqs k) (sleepq_chains k) (slpcallouts k) (systime k) (frames k).
Definition set_sqs m k := Kern (sch k) m (sleepq_chains k) (slpcallouts k) (systime k) (frames k).
Definition set_chains c k := Kern (sch k) (sqs k) c (slpcallouts k) (systime k) (frames k).
Definition set_slpcallouts c k := Kern (sch k) (sqs k) (sleepq_chains k) c (systime k) (frames k).
Definition set_systime n k := Kern (sch k) (sqs k) (sleepq_chains k) (slpcallouts k) n (frames k).
Definition set_frames f k := Kern (sch k) (sqs k) (sleepq_chains k) (slpcallouts k) (systime k) f.

(** A step of the scheduler. *)
Definition on_sch k (f : sched -> outcome sched) : outcome kern := s ← f (sch k); Ok (set_sch s k).
Definition upd_td k td (f : thread -> thread) : outcome kern := on_sch k (fun s => upd s td f).

Definition get_sq k q : outcome sleepq :=
  match sqs k !! q with Some x => Ok x | None => Fault BadAccess end.
Definition put_sq k q x : kern := set_sqs (<[q := x]> (sqs k)) k.

Definition sq_ctor : sleepq := Sleepq [] [] 0 0.

Definition init_sleepq : list (list Z) := replicate (Z.to_nat SC_TABLESIZE) [].

(** [sq] is the address that the pool returns. *)
Definition sleepq_alloc k (sq : Z) : kern := put_sq k sq sq_ctor.
Definition sleepq_destroy k (sq : Z) : kern := set_sqs (delete sq (sqs k)) k.

Fixpoint lookup_queue (m : gmap Z sleepq) (l : list Z) (wchan : Z) : outcome (option Z) :=
  match l with
  | [] => Ok None
  | sq :: l =>
      match m !! sq with
      | Some x => if sq_wchan x =? wchan then Ok (Some sq) else lookup_queue m l wchan
      | None => Fault BadAccess
      end
  end.

(** The chain [sc] is known by its index. *)
Definition sq_lookup k (sc wchan : Z) : outcome (option Z) :=
  l ← arr_get (sleepq_chains k) sc;
  lookup_queue (sqs k) l wchan.

Definition sq_enter k td (sc wchan waitpt : Z) : outcome kern :=
  t ← thr (sch k) td;
  _ ← assert (td_wchan t =? 0);
  _ ← assert (td_waitpt t =? 0);
  _ ← assert (negb (td_sleepqueue t =? 0));
  let td_sq := td_sleepqueue t in
  own ← get_sq k td_sq;
  _ ← assert (empty (sq_blocked own));
  _ ← assert (empty (sq_free own));
  _ ← assert (sq_nblocked own =? 0);
  found ← sq_lookup k sc wchan;
  '(sq, k) ← match found with
    | None =>
        (* No sleep queue for this waiting channel. We take current thread's sleep queue
           and use it for that purpose. *)
        l ← arr_get (sleepq_chains k) sc;
        c ← arr_set (sleepq_chains k) sc (td_sq :: l);
        Ok (td_sq, set_chains c (put_sq k td_sq
                     (Sleepq (sq_free own) (sq_blocked own) (sq_nblocked own) wchan)))
    | Some sq =>
        (* A sleep queue for the waiting channel already exists! We add this thread's
           sleepqueue to the free list. *)
        x ← get_sq k sq;
        Ok (sq, put_sq k sq (Sleepq (td_sq :: sq_free x) (sq_blocked x) (sq_nblocked x) (sq_wchan x)))
    end;
  x ← get_sq k sq;
  let k := put_sq k sq (Sleepq (sq_free x) (sq_blocked x ++ [td]) (uwrap 32 (sq_nblocked x + 1)) (sq_wchan x)) in
  k ← upd_td k td (fun t =>
        set_td_state TDS_SLEEPING (set_td_sleepqueue 0 (set_td_waitpt waitpt (set_td_wchan wchan t))));
  on_sch k (fun s => '(_, s) ← sched_switch s; Ok s).

Definition sq_leave k td (sc sq : Z) : outcome kern :=
  t ← thr (sch k) td;
  x ← get_sq k sq;
  _ ← assert (negb (td_wchan t =? 0));
  _ ← assert (td_sleepqueue t =? 0);
  _ ← assert (1 <=? sq_nblocked x);
  blocked ← tailq_remove (sq_blocked x) td;
  let nblocked := sq_nblocked x - 1 in
  '(own, k) ← (if empty blocked then
      (* If it was the last thread on this sleep queue, td gets it. *)
      _ ← assert (nblocked =? 0);
      l ← arr_get (sleepq_chains k) sc;
      l ← tailq_remove l sq;
      c ← arr_set (sleepq_chains k) sc l;
      Ok (sq, set_chains c (put_sq k sq (Sleepq (sq_free x) blocked nblocked 0)))
    else
      (* Otherwise td gets a sleep queue from the free list. *)
      _ ← assert (0 <? nblocked);
      match sq_free x with
      | [] => Fault AssertFailed
      | f :: free => Ok (f, put_sq k sq (Sleepq free blocked nblocked (sq_wchan x)))
      end);
  k ← upd_td k td (fun t => set_td_sleepqueue own (set_td_waitpt 0 (set_td_wchan 0 t)));
  on_sch k (fun s => sched_wakeup s td 0).

Definition SLPFLAGS : Z := Z.lor TDF_SLPINTR TDF_SLPTIMED.

(** Remove a thread from the sleep queue and resume it. *)
Definition sq_wakeup k td (sc sq wakeup : Z) : outcome (bool * kern) :=
  t ← thr (sch k) td;
  let go (m : Z) :=
    k ← upd_td k td (fun t => set_td_flags (flag_clr (td_flags t) m) t);
    k ← sq_leave k td sc sq;
    Ok (true, k) in
  if (wakeup =? EINTR) && flag_on (td_flags t) TDF_SLPINTR then go TDF_SLPTIMED
  else if (wakeup =? ETIMEDOUT) && flag_on (td_flags t) TDF_SLPTIMED then go TDF_SLPINTR
  else if wakeup =? 0 then go SLPFLAGS
  else Ok (false, k).

(** The first thread of the highest priority. *)
Fixpoint best_thread k (l : list Z) (best_td : Z) : outcome Z :=
  match l with
  | [] => Ok best_td
  | td :: l =>
      t ← thr (sch k) td;
      b ← thr (sch k) best_td;
      best_thread k l (if prio_gt (td_prio t) (td_prio b) then td else best_td)
  end.

Definition sleepq_signal k (wchan : Z) : outcome (bool * kern) :=
  let sc := SC_HASH wchan in
  found ← sq_lookup k sc wchan;
  match found with
  | None => Ok (false, k)
  | Some sq =>
      x ← get_sq k sq;
      match sq_blocked x with
      | [] => Fault BadAccess
      | best_td :: _ =>
          td ← best_thread k (sq_blocked x) best_td;
          '(_, k) ← sq_wakeup k td sc sq 0;
          k ← on_sch k sched_maybe_preempt;
          Ok (true, k)
      end
  end.

(** A thread that is removed from the queue keeps its link to the next one. *)
Fixpoint wakeup_all k (l : list Z) (sc sq : Z) : outcome kern :=
  match l with
  | [] => Ok k
  | td :: l => '(_, k) ← sq_wakeup k td sc sq 0; wakeup_all k l sc sq
  end.

Definition sleepq_broadcast k (wchan : Z) : outcome (bool * kern) :=
  let sc := SC_HASH wchan in
  found ← sq_lookup k sc wchan;
  match found with
  | None => Ok (false, k)
  | Some sq =>
      x ← get_sq k sq;
      k ← wakeup_all k (sq_blocked x) sc sq;
      k ← on_sch k sched_maybe_preempt;
      Ok (true, k)
  end.

Definition _sleepq_abort k td (wakeup : Z) : outcome (bool * kern) :=
  t ← thr (sch k) td;
  let sc := SC_HASH (td_wchan t) in
  found ← sq_lookup k sc (td_wchan t);
  match found with
  | None => Ok (false, k)
  | Some sq =>
      '(aborted, k) ← sq_wakeup k td sc sq wakeup;
      k ← on_sch k sched_maybe_preempt;
      Ok (aborted, k)
  end.

Definition sleepq_abort k td : outcome (bool * kern) := _sleepq_abort k td EINTR.

Definition sq_timeout k td : outcome kern := '(_, k) ← _sleepq_abort k td ETIMEDOUT; Ok k.

(** [caller] is the address to which the function returns. *)
Definition wait_point (waitpt caller : Z) : Z := if waitpt =? 0 then caller else waitpt.

Definition sleepq_wait k (wchan waitpt caller : Z) : outcome kern :=
  let td := thread_self (sch k) in
  let sc := SC_HASH wchan in
  k ← upd_td k td (set_td_state TDS_SLEEPING);
  sq_enter (set_frames (<[td := InWait]> (frames k)) k) td sc wchan (wait_point waitpt caller).

(** [sleepq_wait] after the wakeup. *)
Definition sleepq_wait_end k : outcome kern :=
  let td := thread_self (sch k) in
  t ← thr (sch k) td;
  (* Panic if we were interrupted by timeout or signal. *)
  _ ← assert (negb (flag_on (td_flags t) SLPFLAGS));
  Ok (set_frames (delete td (frames k)) k).

(** [Some error] when the function returns at once. *)
Definition sleepq_wait_timed k (wchan waitpt caller timeout : Z) : outcome (option Z * kern) :=
  let td := thread_self (sch k) in
  let sc := SC_HASH wchan in
  t ← thr (sch k) td;
  (* If there are pending signals, interrupt the sleep immediately. *)
  if flag_on (td_flags t) TDF_NEEDSIGCHK && (timeout =? 0) then Ok (Some EINTR, k)
  else
    k ← (if 0 <? timeout then
           c ← callout_schedule (callout_setup (slpcallouts k) td) td (systime k) timeout;
           Ok (set_slpcallouts c k)
         else Ok k);
    k ← upd_td k td (fun t =>
          set_td_flags (flag_set (td_flags t) (if 0 <? timeout then TDF_SLPTIMED else TDF_SLPINTR)) t);
    k ← sq_enter (set_frames (<[td := InTimedWait timeout]> (frames k)) k) td sc wchan
          (wait_point waitpt caller);
    Ok (None, k).

(** The error that the flags of a woken thread stand for. *)
Definition wait_result (flags : Z) : Z :=
  if flag_on flags TDF_SLPINTR then EINTR
  else if flag_on flags TDF_SLPTIMED then ETIMEDOUT
  else 0.

(** [sleepq_wait_timed] after the wakeup. *)
Definition sleepq_wait_timed_end k (timeout : Z) : outcome (Z * kern) :=
  let td := thread_self (sch k) in
  t ← thr (sch k) td;
  let error := wait_result (td_flags t) in
  k ← upd_td k td (fun t => set_td_flags (flag_clr (td_flags t) SLPFLAGS) t);
  k ← (if 0 <? timeout then
         '(_, c) ← callout_stop (slpcallouts k) td;
         Ok (set_slpcallouts c k)
       else Ok k);
  Ok (error, set_frames (delete td (frames k)) k).

(** A thread dispatched again finishes the wait it is in, if any. *)
Definition wait_return k : outcome (Z * kern) :=
  match frames k !! thread_self (sch k) with
  | None => Ok (0, k)
  | Some InWait => k ← sleepq_wait_end k; Ok (0, k)
  | Some (InTimedWait timeout) => sleepq_wait_timed_end k timeout
  end.

(** The part of [thread_create] that concerns the scheduler and the queues; [td], [sq] and
    [ts] are the addresses that the pools return. *)
Definition thread_create k td (prio sq ts : Z) : kern :=
  let t := set_td_turnstile ts (set_td_sleepqueue sq (new_thread prio)) in
  let k := sleepq_alloc k sq in
  set_slpcallouts (callout_setup (slpcallouts k) td)
    (set_sch (set_threads (<[td := t]> (threads (sch k))) (sch k)) k).

(** [thread_delete] of a dead thread, once [callout_drain] has returned. *)
Definition thread_delete k td : outcome kern :=
  t ← thr (sch k) td;
  _ ← assert (td_is_dead t);
  _ ← assert (negb (td_sleepqueue t =? 0));
  _ ← assert (negb (td_turnstile t =? 0));
  let k := sleepq_destroy k (td_sleepqueue t) in
  Ok (set_sch (set_threads (delete td (threads (sch k))) (sch k)) k).

(** ** Who waits where

    What the sleep queues need to know of a thread. *)

Record wview := Wview {
  v_wchan : Z;
  v_waitpt : Z;
  v_sq : Z;
  v_sleeping : bool;
  v_intr : bool;
  v_timed : bool;
}.

Definition wview_of t : wview :=
  Wview (td_wchan t) (td_waitpt t) (td_sleepqueue t) (td_is_sleeping t)
    (flag_on (td_flags t) TDF_SLPINTR) (flag_on (td_flags t) TDF_SLPTIMED).

Definition views (s : sched) : gmap Z wview := wview_of <$> threads s.

(** A sleep queue belongs to a thread that is awake, to the free list of another queue, or
    to a channel. *)
Inductive owner := OfThread (td : Z) | OfFree (q : Z) | OfChannel (w : Z).

Definition owns (V : gmap Z wview) (Q : gmap Z sleepq) (q : Z) (o : owner) : Prop :=
  match o with
  | OfThread td => exists v, V !! td = Some v /\ v_wchan v = 0 /\ v_sq v = q
  | OfFree p => exists x, Q !! p = Some x /\ q ∈ sq_free x
  | OfChannel w => exists x, Q !! q = Some x /\ sq_wchan x = w /\ w <> 0
  end.

Record waits_ok (V : gmap Z wview) (Q : gmap Z sleepq) (C : list (list Z)) : Prop := {
  wo_len : length C = 256%nat;
  wo_nodup i l : C !! i = Some l -> NoDup l;
  wo_chain i l q : C !! i = Some l ->
    q ∈ l <-> exists w, owns V Q q (OfChannel w) /\ SC_HASH w = Z.of_nat i;
  wo_null : Q !! 0 = None;
  wo_exists q o : owns V Q q o -> is_Some (Q !! q);
  wo_owner q o o' : owns V Q q o -> owns V Q q o' -> o = o';
  wo_channel q q' w : owns V Q q (OfChannel w) -> owns V Q q' (OfChannel w) -> q = q';
  wo_idle q x : Q !! q = Some x -> sq_wchan x = 0 -> x = sq_ctor;
  wo_busy q x : Q !! q = Some x -> sq_wchan x <> 0 ->
    NoDup (sq_blocked x) /\ NoDup (sq_free x) /\
    sq_nblocked x = Z.of_nat (length (sq_blocked x)) /\
    length (sq_blocked x) = S (length (sq_free x));
  wo_blocked q x td : Q !! q = Some x -> sq_wchan x <> 0 ->
    td ∈ sq_blocked x <-> exists v, V !! td = Some v /\ v_wchan v = sq_wchan x;
  wo_view td v : V !! td = Some v ->
    (v_sleeping v = true <-> v_wchan v <> 0) /\
    (v_wchan v <> 0 -> v_sq v = 0 /\ exists q, owns V Q q (OfChannel (v_wchan v))) /\
    (v_wchan v = 0 -> v_waitpt v = 0 /\ is_Some (Q !! v_sq v));
  wo_size : Z.of_nat (size V) < 2 ^ 32;
}.

Lemma hash_range w : 0 <= SC_HASH w < 256.
Proof.
  unfold SC_HASH. change SC_MASK with (Z.ones 8). rewrite Z.land_ones by lia.
  apply Z.mod_pos_bound. lia.
Qed.

Section waits.
Context (V : gmap Z wview) (Q : gmap Z sleepq) (C : list (list Z)).
Hypothesis W : waits_ok V Q C.

Lemma chain_get w : exists l, arr_get C (SC_HASH w) = Ok l /\ C !! Z.to_nat (SC_HASH w) = Some l.
Proof. apply arr_get_in_range. rewrite (wo_len _ _ _ W). pose proof (hash_range w). lia. Qed.

Lemma lookup_queue_spec w (l : list Z) :
  (forall q, q ∈ l -> exists w, owns V Q q (OfChannel w)) ->
  (exists q, q ∈ l /\ owns V Q q (OfChannel w) /\ lookup_queue Q l w = Ok (Some q)) \/
  ((forall q, q ∈ l -> ~ owns V Q q (OfChannel w)) /\ lookup_queue Q l w = Ok None).
Proof.
  induction l as [|q l IH]; intros Hl; [right; split; [set_solver|done]|].
  destruct (Hl q) as (w' & x & Hx & Hw & Hn); [set_solver|]. cbn [lookup_queue]. rewrite Hx.
  destruct (Z.eqb_spec (sq_wchan x) w) as [E|E].
  - left. exists q. split_and!; [set_solver| |done]. exists x. split_and!; congruence.
  - destruct IH as [(q' & Hq' & Ho & ->)|[Hno ->]]; [set_solver| |].
    + left. exists q'. split_and!; [set_solver|done|done].
    + right. split; [|done]. intros q' [->|Hq']%elem_of_cons; [|by apply Hno].
      intros (x' & Hx' & Hw' & _). congruence.
Qed.

(** The chain of a channel finds its queue. *)
Lemma chain_lookup w l :
  C !! Z.to_nat (SC_HASH w) = Some l ->
  (exists q, owns V Q q (OfChannel w) /\ lookup_queue Q l w = Ok (Some q)) \/
  ((forall q, ~ owns V Q q (OfChannel w)) /\ lookup_queue Q l w = Ok None).
Proof.
  intros Hl. pose proof (hash_range w) as Hr.
  destruct (lookup_queue_spec w l) as [(q & _ & Ho & E)|[Hno E]].
  - intros q Hq. apply (wo_chain _ _ _ W _ _ _ Hl) in Hq as (w' & Ho & _). by exists w'.
  - left. by exists q.
  - right. split; [|done]. intros q Ho. apply (Hno q); [|done].
    apply (wo_chain _ _ _ W _ _ _ Hl). exists w. split; [done|]. lia.
Qed.

Lemma awake_queue td v : V !! td = Some v -> v_wchan v = 0 ->
  v_sq v <> 0 /\ v_waitpt v = 0 /\ Q !! v_sq v = Some sq_ctor /\ v_sleeping v = false.
Proof.
  intros Hv Hw. destruct (wo_view _ _ _ W td v Hv) as (Hs & _ & Ha). destruct (Ha Hw) as [Hp [x Hx]].
  split_and!; try done.
  - intros E. rewrite E in Hx. by rewrite (wo_null _ _ _ W) in Hx.
  - rewrite Hx. f_equal. apply (wo_idle _ _ _ W (v_sq v)); [done|].
    destruct (decide (sq_wchan x = 0)) as [|Hne]; [done|].
    assert (owns V Q (v_sq v) (OfThread td)) as O1 by (by exists v).
    assert (owns V Q (v_sq v) (OfChannel (sq_wchan x))) as O2 by (by exists x).
    pose proof (wo_owner _ _ _ W _ _ _ O1 O2). done.
  - destruct (v_sleeping v); [|done]. by destruct (proj1 Hs eq_refl).
Qed.

Lemma free_queue p x f : Q !! p = Some x -> f ∈ sq_free x -> Q !! f = Some sq_ctor.
Proof.
  intros Hp Hf. assert (owns V Q f (OfFree p)) as O by (by exists x).
  destruct (wo_exists _ _ _ W _ _ O) as [y Hy]. rewrite Hy. f_equal.
  apply (wo_idle _ _ _ W f); [done|]. destruct (decide (sq_wchan y = 0)) as [|Hne]; [done|].
  assert (owns V Q f (OfChannel (sq_wchan y))) as O2 by (by exists y).
  pose proof (wo_owner _ _ _ W _ _ _ O O2). done.
Qed.

(** A queue that changes hands. *)
Lemma owner_moves V' Q' q0 o1 :
  (forall q o, owns V' Q' q o <-> q = q0 /\ o = o1 \/ q <> q0 /\ owns V Q q o) ->
  (forall q w, o1 = OfChannel w -> ~ owns V Q q (OfChannel w)) -> is_Some (Q' !! q0) ->
  (forall q, is_Some (Q !! q) -> is_Some (Q' !! q)) ->
  (forall q o, owns V' Q' q o -> is_Some (Q' !! q)) /\
  (forall q o o', owns V' Q' q o -> owns V' Q' q o' -> o = o') /\
  (forall q q' w, owns V' Q' q (OfChannel w) -> owns V' Q' q' (OfChannel w) -> q = q').
Proof.
  intros Ho Hw Hs Hm. split_and!.
  - intros q o H. apply Ho in H as [[-> _]|[_ H]]; [done|]. apply Hm. by apply (wo_exists _ _ _ W) in H.
  - intros q o o' H H'. apply Ho in H as [[-> ->]|[H1 H2]], H' as [[E ->]|[H3 H4]]; try done.
    by apply (wo_owner _ _ _ W q).
  - intros q q' w H H'. apply Ho in H as [[-> E]|[H1 H2]], H' as [[-> E']|[H3 H4]]; try done.
    + by destruct (Hw q' w).
    + by destruct (Hw q w).
    + by apply (wo_channel _ _ _ W q q' w).
Qed.

(** The threads blocked on a queue are some of all threads. *)
Lemma blocked_bound q x : Q !! q = Some x -> sq_wchan x <> 0 ->
  (length (sq_blocked x) <= size V)%nat.
Proof.
  intros Hq Hw. destruct (wo_busy _ _ _ W q x Hq Hw) as (Hn & _).
  rewrite <- size_dom, <- (size_list_to_set (C:=gset Z)) by done. apply subseteq_size.
  intros td Htd%elem_of_list_to_set. apply (wo_blocked _ _ _ W q x td Hq Hw) in Htd as (v & Hv & _).
  apply elem_of_dom. by exists v.
Qed.

Lemma size_same td v v' : V !! td = Some v -> size (<[td := v']> V) = size V.
Proof. intros Hv. apply map_size_insert_Some. by exists v. Qed.

(** The first thread to sleep on the channel [w] gives it its queue. *)
Section enter_first.
Context (td : Z) (v v' : wview) (w : Z) (l : list Z).
Hypothesis Hv : V !! td = Some v.
Hypothesis Haw : v_wchan v = 0.
Hypothesis Hw : w <> 0.
Hypothesis Hv' : v_wchan v' = w /\ v_sq v' = 0 /\ v_sleeping v' = true.
Hypothesis Hno : forall q, ~ owns V Q q (OfChannel w).
Hypothesis Hl : C !! Z.to_nat (SC_HASH w) = Some l.

Let V' := <[td := v']> V.
Let Q' := <[v_sq v := Sleepq [] [td] 1 w]> Q.

Lemma enter_first_owns q o :
  owns V' Q' q o <-> q = v_sq v /\ o = OfChannel w \/ q <> v_sq v /\ owns V Q q o.
Proof.
  destruct (awake_queue td v Hv Haw) as (Hn0 & _ & Hq & _). destruct Hv' as (E1 & E2 & E3).
  assert (owns V Q (v_sq v) (OfThread td)) as O by (by exists v).
  assert (forall o, o <> OfThread td -> ~ owns V Q (v_sq v) o) as HO.
  { intros o' Hne O'. by apply Hne, (wo_owner _ _ _ W (v_sq v)). }
  destruct o as [td'|p|w']; unfold V', Q'; cbn [owns].
  - split.
    + intros (u & Hu & Hu0 & <-). apply lookup_insert_Some in Hu as [[<- <-]|[Hne Hu]]; [congruence|].
      right. split; [|by exists u]. intros E. apply (HO (OfThread td')); [congruence|]. by exists u.
    + intros [[_ ?]|(Hne & u & Hu & Hu0 & <-)]; [done|]. exists u. rewrite lookup_insert_ne; [done|].
      intros ->. congruence.
  - split.
    + intros (x & Hx & Hin). apply lookup_insert_Some in Hx as [[<- <-]|[Hne Hx]]; [by apply not_elem_of_nil in Hin|].
      right. split; [|by exists x]. intros ->. apply (HO (OfFree p)); [done|]. by exists x.
    + intros [[_ ?]|(Hne & x & Hx & Hin)]; [done|]. exists x. rewrite lookup_insert_ne; [done|].
      intros <-. rewrite Hq in Hx. simplify_eq. by apply not_elem_of_nil in Hin.
  - split.
    + intros (x & Hx & Hxw & Hw0). apply lookup_insert_Some in Hx as [[<- <-]|[Hne Hx]].
      * left. cbn in Hxw. by subst.
      * right. split; [done|]. by exists x.
    + intros [[-> [= ->]]|(Hne & x & Hx & HH)].
      * eexists. by rewrite lookup_insert_eq.
      * exists x. by rewrite lookup_insert_ne.
Qed.

Lemma channel_not_own q w' : owns V Q q (OfChannel w') -> q <> v_sq v.
Proof.
  intros (x & Hx & Hxw & Hw') ->. destruct (awake_queue td v Hv Haw) as (_ & _ & Hq & _).
  rewrite Hq in Hx. by simplify_eq.
Qed.

Lemma enter_first_chains i l' :
  <[Z.to_nat (SC_HASH w) := v_sq v :: l]> C !! i = Some l' ->
  NoDup l' /\ forall q, q ∈ l' <-> exists w', owns V' Q' q (OfChannel w') /\ SC_HASH w' = Z.of_nat i.
Proof.
  pose proof (hash_range w) as Hh. rewrite list_lookup_insert_Some. intros [(<- & <- & _)|[Hne Hi]]; split.
  - constructor; [|by apply (wo_nodup _ _ _ W _ _ Hl)]. intros Hin.
    apply (wo_chain _ _ _ W _ _ _ Hl) in Hin as (w' & Ho & _). by apply channel_not_own in Ho.
  - intros q. rewrite elem_of_cons, (wo_chain _ _ _ W _ _ q Hl). split.
    + intros [->|(w' & Ho & Eh)]; [exists w|exists w']; rewrite enter_first_owns; (split; [|lia]).
      * by left.
      * right. split; [by apply (channel_not_own _ w')|done].
    + intros (w' & Ho & Eh). apply enter_first_owns in Ho as [[-> _]|[_ Ho]]; [by left|right; by exists w'].
  - by apply (wo_nodup _ _ _ W _ _ Hi).
  - intros q. rewrite (wo_chain _ _ _ W _ _ q Hi). split; intros (w' & Ho & Eh); exists w'; (split; [|done]).
    + apply enter_first_owns. right. split; [by apply (channel_not_own _ w')|done].
    + apply enter_first_owns in Ho as [[-> [= ->]]|[_ Ho]]; [lia|done].
Qed.

Lemma enter_first_blocked q x td' : Q' !! q = Some x -> sq_wchan x <> 0 ->
  td' ∈ sq_blocked x <-> exists u, V' !! td' = Some u /\ v_wchan u = sq_wchan x.
Proof.
  destruct Hv' as (E1 & E2 & E3). unfold Q', V'. rewrite lookup_insert_Some.
  intros [[<- <-]|[Hne Hx]] Hx0; cbn [sq_blocked sq_wchan].
  - rewrite list_elem_of_singleton. split.
    + intros ->. exists v'. by rewrite lookup_insert_eq.
    + intros (u & Hu & Huw). apply lookup_insert_Some in Hu as [[<- _]|[_ Hu]]; [done|].
      destruct (wo_view _ _ _ W td' u Hu) as (_ & Hsl & _). rewrite Huw in Hsl.
      destruct (Hsl Hw) as (_ & q & Ho). by destruct (Hno q).
  - rewrite (wo_blocked _ _ _ W q x td' Hx Hx0). assert (sq_wchan x <> w) as Hxw.
    { intros E. apply (Hno q). by exists x. }
    split; intros (u & Hu & Huw); exists u; (split; [|done]).
    + rewrite lookup_insert_ne; [done|]. intros <-. congruence.
    + apply lookup_insert_Some in Hu as [[<- <-]|[_ Hu]]; [congruence|done].
Qed.

Lemma enter_first : waits_ok V' Q' (<[Z.to_nat (SC_HASH w) := v_sq v :: l]> C).
Proof.
  destruct (awake_queue td v Hv Haw) as (Hn0 & _ & Hq & _). destruct Hv' as (E1 & E2 & E3).
  destruct (owner_moves V' Q' (v_sq v) (OfChannel w) enter_first_owns) as (M1 & M2 & M3).
  { intros q w' [= <-]. apply Hno. } { unfold Q'. by rewrite lookup_insert_eq. }
  { intros q Hs. unfold Q'. by apply lookup_insert_is_Some'; right. }
  split; try done.
  - by rewrite length_insert, (wo_len _ _ _ W).
  - intros i l' Hi. by apply (enter_first_chains i l').
  - intros i l' q Hi. by apply (enter_first_chains i l').
  - unfold Q'. rewrite lookup_insert_ne by done. apply (wo_null _ _ _ W).
  - intros q x. unfold Q'. rewrite lookup_insert_Some. intros [[<- <-]|[_ Hx]] Hx0; [done|].
    by apply (wo_idle _ _ _ W q).
  - intros q x. unfold Q'. rewrite lookup_insert_Some. intros [[<- <-]|[_ Hx]] Hx0; [|by apply (wo_busy _ _ _ W q)].
    cbn. split_and!; try done; [apply NoDup_singleton|constructor].
  - exact enter_first_blocked.
  - intros td' u. unfold V'. rewrite lookup_insert_Some. intros [[<- <-]|[Hne Hu]].
    + rewrite E1, E2, E3. split_and!; try done. intros _. split; [done|]. exists (v_sq v).
      apply enter_first_owns. by left.
    + destruct (wo_view _ _ _ W td' u Hu) as (H1 & H2 & H3). split_and!; try done.
      * intros Hu0. destruct (H2 Hu0) as (? & q & Ho). split; [done|]. exists q. apply enter_first_owns. right.
        split; [by apply (channel_not_own q (v_wchan u))|done].
      * intros Hu0. destruct (H3 Hu0) as [? Hs]. split; [done|]. by apply lookup_insert_is_Some'; right.
  - unfold V'. rewrite (size_same td v) by done. apply (wo_size _ _ _ W).
Qed.
End enter_first.

(** A thread comes to or leaves the queue [p] of the channel [w], which keeps its queue. *)
Section shift.
Context (td : Z) (v v' : wview) (p : Z) (x x' : sleepq) (q0 : Z) (o1 : owner).
Hypothesis Hv : V !! td = Some v.
Hypothesis Hp : Q !! p = Some x.
Hypothesis Hw : sq_wchan x <> 0.
Hypothesis Hw' : sq_wchan x' = sq_wchan x.
Hypothesis Hvw : v_wchan v = 0 \/ v_wchan v = sq_wchan x.
Hypothesis Hvw' : v_wchan v' = 0 \/ v_wchan v' = sq_wchan x.

Let V' := <[td := v']> V.
Let Q' := <[p := x']> Q.

Hypothesis Hown : forall q o, owns V' Q' q o <-> q = q0 /\ o = o1 \/ q <> q0 /\ owns V Q q o.
Hypothesis Ho1 : forall w, o1 <> OfChannel w.
Hypothesis Hq0 : is_Some (Q !! q0).
Hypothesis Hbusy : NoDup (sq_blocked x') /\ NoDup (sq_free x') /\
  sq_nblocked x' = Z.of_nat (length (sq_blocked x')) /\ length (sq_blocked x') = S (length (sq_free x')).
Hypothesis Hbl : forall td', td' ∈ sq_blocked x' <->
  (if decide (td' = td) then v_wchan v' = sq_wchan x else td' ∈ sq_blocked x).
Hypothesis Hview : (v_sleeping v' = true <-> v_wchan v' <> 0) /\ (v_wchan v' <> 0 -> v_sq v' = 0) /\
  (v_wchan v' = 0 -> v_waitpt v' = 0 /\ is_Some (Q !! v_sq v')).

Lemma shift_channel q w : owns V' Q' q (OfChannel w) <-> owns V Q q (OfChannel w).
Proof.
  unfold Q'. cbn [owns]. destruct (decide (q = p)) as [->|Hne].
  - rewrite lookup_insert_eq, Hp. split; intros (? & [= <-] & ? & ?); eexists; (split; [done|]); split; congruence.
  - by rewrite lookup_insert_ne.
Qed.

Lemma shift_dom q : is_Some (Q !! q) -> is_Some (Q' !! q).
Proof. intros Hs. by apply lookup_insert_is_Some'; right. Qed.

Lemma shift_blocked q y td' : Q' !! q = Some y -> sq_wchan y <> 0 ->
  td' ∈ sq_blocked y <-> exists u, V' !! td' = Some u /\ v_wchan u = sq_wchan y.
Proof.
  unfold Q', V'. rewrite lookup_insert_Some. intros [[<- <-]|[Hne Hy]] Hy0.
  - rewrite Hbl, Hw'. case_decide as Htd.
    + subst td'. rewrite lookup_insert_eq. split; [by exists v'|]. intros (? & [= <-] & ?). done.
    + rewrite lookup_insert_ne by done. by apply (wo_blocked _ _ _ W p).
  - rewrite (wo_blocked _ _ _ W q y td' Hy Hy0). assert (sq_wchan y <> sq_wchan x) as Hyx.
    { intros E. apply Hne. symmetry. apply (wo_channel _ _ _ W q p (sq_wchan x)); by eexists. }
    destruct (decide (td' = td)) as [->|]; [|by rewrite lookup_insert_ne].
    rewrite lookup_insert_eq, Hv. split; intros (? & [= <-] & E); destruct Hvw, Hvw'; congruence.
Qed.

Lemma shift : waits_ok V' Q' C.
Proof.
  destruct (owner_moves V' Q' q0 o1 Hown) as (M1 & M2 & M3).
  { intros q w E. by destruct (Ho1 w). } { by apply shift_dom. } { exact shift_dom. }
  split; try done.
  - apply (wo_len _ _ _ W).
  - apply (wo_nodup _ _ _ W).
  - intros i l q Hi. rewrite (wo_chain _ _ _ W i l q Hi).
    split; intros (w & Ho & Eh); exists w; (split; [by apply shift_channel|done]).
  - unfold Q'. rewrite lookup_insert_ne; [apply (wo_null _ _ _ W)|]. intros ->. by rewrite (wo_null _ _ _ W) in Hp.
  - intros q y. unfold Q'. rewrite lookup_insert_Some. intros [[<- <-]|[_ Hy]] Hy0; [congruence|].
    by apply (wo_idle _ _ _ W q).
  - intros q y. unfold Q'. rewrite lookup_insert_Some. intros [[<- <-]|[_ Hy]] Hy0; [done|].
    by apply (wo_busy _ _ _ W q).
  - exact shift_blocked.
  - intros td' u. unfold V'. rewrite lookup_insert_Some. destruct Hview as (H1 & H2 & H3). intros [[<- <-]|[Hne Hu]].
    + split_and!; try done.
      * intros Hn. split; [by apply H2|]. destruct Hvw' as [|E]; [done|]. exists p. apply shift_channel. exists x.
        by rewrite E.
      * intros H0. destruct (H3 H0). split; [done|]. by apply shift_dom.
    + destruct (wo_view _ _ _ W td' u Hu) as (H1' & H2' & H3'). split_and!; try done.
      * intros Hn. destruct (H2' Hn) as (? & q & Ho). split; [done|]. exists q. by apply shift_channel.
      * intros H0. destruct (H3' H0). split; [done|]. by apply shift_dom.
  - unfold V'. rewrite (size_same td v) by done. apply (wo_size _ _ _ W).
Qed.
End shift.

Lemma same_channel V' p x x' q w :
  Q !! p = Some x -> sq_wchan x' = sq_wchan x ->
  owns V' (<[p := x']> Q) q (OfChannel w) <-> owns V Q q (OfChannel w).
Proof.
  intros Hp Hw. cbn [owns]. destruct (decide (q = p)) as [->|Hne]; [|by rewrite lookup_insert_ne].
  rewrite lookup_insert_eq, Hp. split; intros (? & [= <-] & ? & ?); eexists; (split; [done|]); split; congruence.
Qed.

Lemma blocked_lt td v p x :
  V !! td = Some v -> Q !! p = Some x -> sq_wchan x <> 0 -> td ∉ sq_blocked x ->
  (length (sq_blocked x) < size V)%nat.
Proof.
  intros Hv Hp Hw Htd. destruct (wo_busy _ _ _ W p x Hp Hw) as (B1 & _).
  rewrite <- (size_dom V), <- (size_list_to_set (C:=gset Z)) by done. apply subset_size.
  apply (strict_spec_alt (A:=gset Z)). split.
  - intros y Hy%elem_of_list_to_set. apply (wo_blocked _ _ _ W p x y Hp Hw) in Hy as (u & Hu & _).
    apply elem_of_dom. by exists u.
  - intros E. apply Htd. apply (elem_of_list_to_set (C:=gset Z)). rewrite E. apply elem_of_dom. by exists v.
Qed.

(** The next thread to sleep on the channel leaves its queue on the free list. *)
Section enter_next.
Context (td : Z) (v v' : wview) (p : Z) (x : sleepq).
Hypothesis Hv : V !! td = Some v.
Hypothesis Haw : v_wchan v = 0.
Hypothesis Hp : Q !! p = Some x.
Hypothesis Hw : sq_wchan x <> 0.
Hypothesis Hv' : v_wchan v' = sq_wchan x /\ v_sq v' = 0 /\ v_sleeping v' = true.

Let x' := Sleepq (v_sq v :: sq_free x) (sq_blocked x ++ [td]) (uwrap 32 (sq_nblocked x + 1)) (sq_wchan x).

Lemma own_only_thread o : owns V Q (v_sq v) o -> o = OfThread td.
Proof. intros O. apply (wo_owner _ _ _ W (v_sq v)); [done|]. by exists v. Qed.

Lemma enter_next_owns q o : owns (<[td := v']> V) (<[p := x']> Q) q o <->
  q = v_sq v /\ o = OfFree p \/ q <> v_sq v /\ owns V Q q o.
Proof.
  destruct Hv' as (E1 & E2 & E3). destruct o as [td'|p'|w']; [cbn [owns]..|].
  - split.
    + intros (u & Hu & Hu0 & <-). apply lookup_insert_Some in Hu as [[<- <-]|[Hne Hu]]; [congruence|].
      right. split; [|by exists u]. intros E. assert (OfThread td' = OfThread td) as [= ->]; [|done].
      apply own_only_thread. by exists u.
    + intros [[_ ?]|(Hne & u & Hu & Hu0 & <-)]; [done|]. exists u. rewrite lookup_insert_ne; [done|].
      intros ->. congruence.
  - split.
    + intros (y & Hy & Hin). apply lookup_insert_Some in Hy as [[<- <-]|[Hne Hy]].
      * cbn in Hin. apply elem_of_cons in Hin as [->|Hin]; [by left|].
        right. split; [|by exists x]. intros ->. assert (OfFree p = OfThread td); [|done].
        apply own_only_thread. by exists x.
      * right. split; [|by exists y]. intros ->. assert (OfFree p' = OfThread td); [|done].
        apply own_only_thread. by exists y.
    + intros [[-> [= ->]]|(Hne & y & Hy & Hin)].
      * exists x'. rewrite lookup_insert_eq. split; [done|]. cbn. set_solver.
      * destruct (decide (p' = p)) as [->|]; [|exists y; by rewrite lookup_insert_ne].
        exists x'. rewrite lookup_insert_eq. split; [done|]. simplify_eq. cbn. set_solver.
  - rewrite (same_channel _ p x) by done. split; [|by intros [[_ ?]|[_ ?]]].
    intros Ho. right. split; [|done]. intros ->. by apply own_only_thread in Ho.
Qed.

Lemma enter_next : waits_ok (<[td := v']> V) (<[p := x']> Q) C.
Proof.
  destruct (awake_queue td v Hv Haw) as (Hn0 & _ & Hq & _). pose proof Hv' as (E1 & E2 & E3).
  destruct (wo_busy _ _ _ W p x Hp Hw) as (B1 & B2 & B3 & B4).
  assert (td ∉ sq_blocked x) as Htd.
  { rewrite (wo_blocked _ _ _ W p x td Hp Hw). intros (u & Hu & E). congruence. }
  pose proof (blocked_lt td v p x Hv Hp Hw Htd). pose proof (wo_size _ _ _ W).
  apply (shift td v v' p x x' (v_sq v) (OfFree p)); try done; cbn [x' sq_wchan sq_blocked sq_free sq_nblocked].
  - by left.
  - by right.
  - exact enter_next_owns.
  - split_and!.
    + apply NoDup_app. split_and!; [done| |apply NoDup_singleton]. set_solver.
    + constructor; [|done]. intros Hin. assert (OfFree p = OfThread td); [|done].
      apply own_only_thread. by exists x.
    + rewrite length_app, uwrap_small by lia. cbn. lia.
    + rewrite length_app. cbn. lia.
  - intros td'. rewrite elem_of_app, list_elem_of_singleton. case_decide; naive_solver.
  - rewrite E1, E2, E3. done.
Qed.
End enter_next.

(** A thread leaves the queue to others and takes one off the free list. *)
Section leave_next.
Context (td : Z) (v v' : wview) (p : Z) (x : sleepq) (f : Z) (free blocked : list Z).
Hypothesis Hv : V !! td = Some v.
Hypothesis Hp : Q !! p = Some x.
Hypothesis Hw : sq_wchan x <> 0.
Hypothesis Hvw : v_wchan v = sq_wchan x.
Hypothesis Hf : sq_free x = f :: free.
Hypothesis Hv' : v_wchan v' = 0 /\ v_waitpt v' = 0 /\ v_sq v' = f /\ v_sleeping v' = false.
Hypothesis Hb : sq_blocked x ≡ₚ td :: blocked.

Let x' := Sleepq free blocked (sq_nblocked x - 1) (sq_wchan x).

Lemma free_only q : owns V Q f (OfFree q) -> q = p.
Proof.
  intros O. assert (OfFree q = OfFree p) as [= ->]; [|done].
  apply (wo_owner _ _ _ W f); [done|]. exists x. rewrite Hf. set_solver.
Qed.

Lemma leave_next_owns q o : owns (<[td := v']> V) (<[p := x']> Q) q o <->
  q = f /\ o = OfThread td \/ q <> f /\ owns V Q q o.
Proof.
  destruct Hv' as (E1 & E2 & E3 & E4). destruct (wo_busy _ _ _ W p x Hp Hw) as (_ & B2 & _).
  rewrite Hf in B2. apply NoDup_cons in B2 as [Hff B2].
  assert (owns V Q f (OfFree p)) as Of by (exists x; rewrite Hf; set_solver).
  assert (forall o, owns V Q f o -> o = OfFree p) as Hof by (intros o' Ho'; by apply (wo_owner _ _ _ W f)).
  destruct o as [td'|p'|w']; [cbn [owns]..|].
  - split.
    + intros (u & Hu & Hu0 & <-). apply lookup_insert_Some in Hu as [[<- <-]|[Hne Hu]]; [by left|].
      right. split; [|by exists u]. intros E. assert (OfThread td' = OfFree p); [|done]. apply Hof. by exists u.
    + intros [[-> [= ->]]|(Hne & u & Hu & Hu0 & <-)]; [exists v'; by rewrite lookup_insert_eq|].
      exists u. rewrite lookup_insert_ne; [done|]. intros ->. congruence.
  - split.
    + intros (y & Hy & Hin). right. apply lookup_insert_Some in Hy as [[<- <-]|[Hne Hy]].
      * cbn in Hin. split; [by intros ->|]. exists x. rewrite Hf. set_solver.
      * split; [|by exists y]. intros ->. apply Hne. symmetry. apply free_only. by exists y.
    + intros [[_ ?]|(Hne & y & Hy & Hin)]; [done|].
      destruct (decide (p' = p)) as [->|]; [|exists y; by rewrite lookup_insert_ne].
      exists x'. rewrite lookup_insert_eq. split; [done|]. simplify_eq. rewrite Hf in Hin. cbn. set_solver.
  - rewrite (same_channel _ p x) by done. split; [|by intros [[_ ?]|[_ ?]]].
    intros Ho. right. split; [|done]. intros ->. by apply Hof in Ho.
Qed.

Lemma leave_next : waits_ok (<[td := v']> V) (<[p := x']> Q) C.
Proof.
  pose proof Hv' as (E1 & E2 & E3 & E4). destruct (wo_busy _ _ _ W p x Hp Hw) as (B1 & B2 & B3 & B4).
  rewrite Hf in B2, B4. rewrite Hb in B1. apply NoDup_cons in B1 as [Htd B1], B2 as [Hff B2].
  rewrite Hb in B3, B4. cbn in B3, B4.
  assert (Q !! f = Some sq_ctor) as Hqf by (apply (free_queue p x); [done|rewrite Hf; set_solver]).
  apply (shift td v v' p x x' f (OfThread td)); try done; cbn [x' sq_wchan sq_blocked sq_free sq_nblocked].
  - by right.
  - by left.
  - exact leave_next_owns.
  - split_and!; try done; lia.
  - intros td'. case_decide as Hc; [subst; split; [done|congruence]|].
    rewrite Hb, elem_of_cons. naive_solver.
  - rewrite E1, E2, E3, E4. split_and!; done.
Qed.
End leave_next.

(** The last thread that sleeps on the channel takes the queue with it. *)
Section leave_last.
Context (td : Z) (v v' : wview) (p : Z) (x : sleepq) (l : list Z).
Hypothesis Hv : V !! td = Some v.
Hypothesis Hp : Q !! p = Some x.
Hypothesis Hw : sq_wchan x <> 0.
Hypothesis Hvw : v_wchan v = sq_wchan x.
Hypothesis Hv' : v_wchan v' = 0 /\ v_waitpt v' = 0 /\ v_sq v' = p /\ v_sleeping v' = false.
Hypothesis Hb : sq_blocked x = [td].
Hypothesis Hl : C !! Z.to_nat (SC_HASH (sq_wchan x)) = Some l.

Let V' := <[td := v']> V.
Let Q' := <[p := sq_ctor]> Q.

Lemma last_only o : owns V Q p o -> o = OfChannel (sq_wchan x).
Proof. intros O. apply (wo_owner _ _ _ W p); [done|]. by exists x. Qed.

Lemma last_free : sq_free x = [].
Proof.
  destruct (wo_busy _ _ _ W p x Hp Hw) as (_ & _ & _ & B4). rewrite Hb in B4. by destruct (sq_free x).
Qed.

Lemma leave_last_owns q o :
  owns V' Q' q o <-> q = p /\ o = OfThread td \/ q <> p /\ owns V Q q o.
Proof.
  destruct Hv' as (E1 & E2 & E3 & E4). unfold V', Q'. destruct o as [td'|p'|w']; cbn [owns].
  - split.
    + intros (u & Hu & Hu0 & <-). apply lookup_insert_Some in Hu as [[<- <-]|[Hne Hu]]; [by left|].
      right. split; [|by exists u]. intros E. assert (OfThread td' = OfChannel (sq_wchan x)); [|done].
      apply last_only. by exists u.
    + intros [[-> [= ->]]|(Hne & u & Hu & Hu0 & <-)]; [exists v'; by rewrite lookup_insert_eq|].
      exists u. rewrite lookup_insert_ne; [done|]. intros ->. congruence.
  - split.
    + intros (y & Hy & Hin). apply lookup_insert_Some in Hy as [[<- <-]|[Hne Hy]]; [by apply not_elem_of_nil in Hin|].
      right. split; [|by exists y]. intros ->. assert (OfFree p' = OfChannel (sq_wchan x)); [|done].
      apply last_only. by exists y.
    + intros [[_ ?]|(Hne & y & Hy & Hin)]; [done|]. exists y. rewrite lookup_insert_ne; [done|].
      intros <-. assert (y = x) as -> by congruence. rewrite last_free in Hin. by apply not_elem_of_nil in Hin.
  - split.
    + intros (y & Hy & Hyw & Hw0). apply lookup_insert_Some in Hy as [[<- <-]|[Hne Hy]]; [by cbn in Hyw|].
      right. split; [done|]. by exists y.
    + intros [[_ ?]|(Hne & y & Hy & HH)]; [done|]. exists y. by rewrite lookup_insert_ne.
Qed.

Lemma leave_last_chains i l' :
  <[Z.to_nat (SC_HASH (sq_wchan x)) := filter (fun y => y <> p) l]> C !! i = Some l' ->
  NoDup l' /\ forall q, q ∈ l' <-> exists w', owns V' Q' q (OfChannel w') /\ SC_HASH w' = Z.of_nat i.
Proof.
  pose proof (hash_range (sq_wchan x)) as Hh. rewrite list_lookup_insert_Some. intros [(<- & <- & _)|[Hne Hi]]; split.
  - apply NoDup_filter. by apply (wo_nodup _ _ _ W _ _ Hl).
  - intros q. rewrite list_elem_of_filter, (wo_chain _ _ _ W _ _ q Hl). split.
    + intros (Hqp & w' & Ho & Eh). exists w'. rewrite leave_last_owns. eauto.
    + intros (w' & Ho & Eh). apply leave_last_owns in Ho as [[_ ?]|[? Ho]]; [done|]. eauto.
  - by apply (wo_nodup _ _ _ W _ _ Hi).
  - intros q. rewrite (wo_chain _ _ _ W _ _ q Hi). split; intros (w' & Ho & Eh); exists w'; (split; [|done]).
    + apply leave_last_owns. right. split; [|done]. intros ->. apply last_only in Ho as [= ->]. lia.
    + by apply leave_last_owns in Ho as [[_ ?]|[_ Ho]].
Qed.

Lemma last_wchan td' u : td' <> td -> V !! td' = Some u -> v_wchan u <> sq_wchan x.
Proof.
  intros Hne Hu E. assert (td' ∈ sq_blocked x) as Hin by (apply (wo_blocked _ _ _ W p x td' Hp Hw); eauto).
  rewrite Hb in Hin. by apply list_elem_of_singleton in Hin.
Qed.

Lemma leave_last_blocked q y td' : Q' !! q = Some y -> sq_wchan y <> 0 ->
  td' ∈ sq_blocked y <-> exists u, V' !! td' = Some u /\ v_wchan u = sq_wchan y.
Proof.
  destruct Hv' as (E1 & E2 & E3 & E4). unfold Q', V'. rewrite lookup_insert_Some.
  intros [[<- <-]|[Hne Hy]] Hy0; [done|].
  rewrite (wo_blocked _ _ _ W q y td' Hy Hy0). destruct (decide (td' = td)) as [->|]; [|by rewrite lookup_insert_ne].
  rewrite lookup_insert_eq, Hv. split; intros (? & [= <-] & E); [|congruence].
  exfalso. apply Hne. apply (wo_channel _ _ _ W p q (sq_wchan x)); [by exists x|]. exists y. split_and!; congruence.
Qed.

Lemma leave_last :
  waits_ok V' Q' (<[Z.to_nat (SC_HASH (sq_wchan x)) := filter (fun y => y <> p) l]> C).
Proof.
  pose proof Hv' as (E1 & E2 & E3 & E4).
  destruct (owner_moves V' Q' p (OfThread td) leave_last_owns) as (M1 & M2 & M3).
  { done. } { unfold Q'. by rewrite lookup_insert_eq. }
  { intros q Hs. unfold Q'. by apply lookup_insert_is_Some'; right. }
  split; try done.
  - by rewrite length_insert, (wo_len _ _ _ W).
  - intros i l' Hi. by apply (leave_last_chains i l').
  - intros i l' q Hi. by apply (leave_last_chains i l').
  - unfold Q'. rewrite lookup_insert_ne; [apply (wo_null _ _ _ W)|]. intros ->. by rewrite (wo_null _ _ _ W) in Hp.
  - intros q y. unfold Q'. rewrite lookup_insert_Some. intros [[<- <-]|[_ Hy]] Hy0; [done|].
    by apply (wo_idle _ _ _ W q).
  - intros q y. unfold Q'. rewrite lookup_insert_Some. intros [[<- <-]|[_ Hy]] Hy0; [done|].
    by apply (wo_busy _ _ _ W q).
  - exact leave_last_blocked.
  - intros td' u. unfold V'. rewrite lookup_insert_Some. intros [[<- <-]|[Hne Hu]].
    + rewrite E1, E2, E3, E4. split_and!; try done. intros _. split; [done|]. unfold Q'. by rewrite lookup_insert_eq.
    + destruct (wo_view _ _ _ W td' u Hu) as (H1 & H2 & H3). split_and!; try done.
      * intros Hu0. destruct (H2 Hu0) as (? & q & Ho). split; [done|]. exists q. apply leave_last_owns. right.
        split; [|done]. intros ->. apply last_only in Ho as [= E]. by apply (last_wchan td' u).
      * intros Hu0. destruct (H3 Hu0) as [? Hs]. split; [done|]. unfold Q'. by apply lookup_insert_is_Some'; right.
  - unfold V'. rewrite (size_same td v) by done. apply (wo_size _ _ _ W).
Qed.
End leave_last.
End waits.

(** The flags of a wait play no role for who waits where. *)
Definition wait_flags (a b : bool) (v : wview) : wview :=
  Wview (v_wchan v) (v_waitpt v) (v_sq v) (v_sleeping v) a b.

Lemma waits_flags V Q C td v a b :
  waits_ok V Q C -> V !! td = Some v -> waits_ok (<[td := wait_flags a b v]> V) Q C.
Proof.
  intros W Hv. set (V' := <[td := _]> V).
  assert (forall (x : Z) u, V' !! x = Some u -> exists u0, V !! x = Some u0 /\ v_wchan u = v_wchan u0 /\
    v_waitpt u = v_waitpt u0 /\ v_sq u = v_sq u0 /\ v_sleeping u = v_sleeping u0) as Hback.
  { intros x u Hu. apply lookup_insert_Some in Hu as [[<- <-]|[_ Hu]]; [by exists v|by exists u]. }
  assert (forall (x : Z) u, V !! x = Some u -> exists u', V' !! x = Some u' /\ v_wchan u' = v_wchan u /\
    v_sq u' = v_sq u) as Hforth.
  { intros x u Hu. unfold V'. destruct (decide (x = td)) as [->|].
    - eexists. rewrite lookup_insert_eq. split; [done|]. by simplify_eq.
    - exists u. by rewrite lookup_insert_ne. }
  assert (forall q o, owns V' Q q o <-> owns V Q q o) as Ho.
  { intros q [x|p|w]; [|done..]. split; intros (u & Hu & H1 & H2).
    - destruct (Hback x u Hu) as (u0 & ? & ? & ? & ? & ?). exists u0. split_and!; congruence.
    - destruct (Hforth x u Hu) as (u0 & ? & ? & ?). exists u0. split_and!; congruence. }
  destruct W as [W1 W2 W3 W4 W5 W6 W7 W8 W9 W10 W11 W12]. split; try done.
  - intros q o. rewrite Ho. apply W5.
  - intros q o o'. rewrite !Ho. apply W6.
  - intros q x y Hx Hx0. rewrite (W10 q x y Hx Hx0). split; intros (u & Hu & Eu).
    + destruct (Hforth y u Hu) as (u' & ? & ? & _). exists u'. split; congruence.
    + destruct (Hback y u Hu) as (u' & ? & ? & _). exists u'. split; congruence.
  - intros y u Hu. destruct (Hback y u Hu) as (u0 & Hu0 & -> & -> & -> & ->). setoid_rewrite Ho. by apply (W11 y).
  - unfold V'. by rewrite (size_same _ td v).
Qed.

(** ** The scheduler and who waits where *)

Lemma views_lookup s td v :
  views s !! td = Some v <-> exists t, threads s !! td = Some t /\ v = wview_of t.
Proof.
  unfold views. rewrite lookup_fmap, fmap_Some. done.
Qed.

Lemma views_insert s s' td t :
  threads s' = <[td := t]> (threads s) -> views s' = <[td := wview_of t]> (views s).
Proof. intros E. unfold views. by rewrite E, fmap_insert. Qed.

Lemma same_td_view t t' : same_td t t' -> wview_of t' = wview_of t.
Proof.
  intros (Hk & _ & Hf). unfold td_key in Hk. injection Hk as E1 E2 E3 E4 E5 E6 E7 E8 E9 E10 E11.
  unfold wview_of, td_is_sleeping, td_is.
  change TDF_SLPINTR with (2 ^ 6). change TDF_SLPTIMED with (2 ^ 7). rewrite !flag_on_bit by done.
  by rewrite !Hf, E1, E6, E7, E8 by lia.
Qed.

Lemma state_view t st : td_state t <> TDS_SLEEPING -> st <> TDS_SLEEPING ->
  wview_of (set_td_state st t) = wview_of t.
Proof.
  intros H1 H2. unfold wview_of, td_is_sleeping, td_is. cbn. by rewrite !bool_decide_false.
Qed.

Lemma self_awake s t : sched_inv s -> threads s !! curthread s = Some t -> td_state t <> TDS_SLEEPING.
Proof. intros I Ht. destruct (si_self _ I) as (t' & Ht' & [?|[_ ?]]); congruence. Qed.

(** A switch changes the view of no thread but the one that leaves. *)
Lemma switch_views s t st v s' :
  sched_inv s -> threads s !! curthread s = Some t -> switch_result s t st v s' ->
  (st = TDS_SLEEPING -> curthread s <> idle_thread s) ->
  views s' = <[curthread s := wview_of (set_td_state st t)]> (views s).
Proof.
  intros I Ht R Hst. apply map_eq. intros x. unfold views. rewrite lookup_fmap.
  destruct (decide (x = curthread s)) as [->|Hx].
  { rewrite lookup_insert_eq. destruct (sw_old _ _ _ _ _ R) as (t' & -> & _ & HS). cbn. f_equal.
    rewrite (same_td_view _ _ HS). case_decide as Hd; [|done]. destruct Hd as [Hc Hni].
    destruct (decide (st = TDS_SLEEPING)) as [->|Hns].
    - exfalso. assert (requeue s t TDS_SLEEPING = runq s) as Erq by (unfold requeue; by rewrite decide_False by naive_solver).
      destruct (choose_loop (requeue s t TDS_SLEEPING)) as [n|] eqn:Ec.
      + destruct (sw_some _ _ _ _ _ R n Ec) as (Hn & _ & i & q & Hi & _). rewrite Erq in Hi.
        apply (self_not_ready s (Z.of_nat i) I). apply (qo_in _ _ (si_queues _ I) _ _ _ Hi). rewrite <- Hc, Hn. set_solver.
      + destruct (sw_none _ _ _ _ _ R Ec) as [Hn _]. congruence.
    - pose proof (self_awake s t I Ht). by rewrite !state_view. }
  rewrite lookup_insert_ne, lookup_fmap by done. destruct (decide (x = curthread s')) as [->|Hx'].
  - destruct (sw_new _ _ _ _ _ R Hx) as (tn & tn' & -> & -> & Hr & _ & _ & HS). cbn. f_equal.
    rewrite (same_td_view _ _ HS). case_decide; [done|]. apply state_view; congruence.
  - by rewrite (sw_other _ _ _ _ _ R x Hx Hx').
Qed.

Lemma wakeup_views s td t reason :
  sched_inv s -> threads s !! td = Some t -> td_state t <> TDS_READY -> td_state t <> TDS_RUNNING ->
  exists s', sched_wakeup s td reason = Ok s' /\ sched_inv s' /\ curthread s' = curthread s /\
    idle_thread s' = idle_thread s /\
    views s' = <[td := wview_of (set_td_state TDS_READY t)]> (views s).
Proof.
  intros I Ht H1 H2.
  destruct (sched_wakeup_spec s td t reason I Ht H1 H2)
    as (s' & q & t' & E & I' & _ & _ & Hc & Hi & _ & Ht' & (Hk & _ & Hf) & _ & Hother & c & c' & Hcc & Hcc' & HS & _).
  exists s'. split_and!; try done. apply map_eq. intros x. unfold views. rewrite lookup_fmap.
  destruct (decide (x = td)) as [->|Hx].
  { rewrite lookup_insert_eq, Ht'. cbn. f_equal. unfold td_key in Hk. injection Hk as E1 E2 E3 E4 E5 E6 E7 E8 E9 E10 E11.
    unfold wview_of, td_is_sleeping, td_is. by rewrite Hf, E1, E6, E7, E8. }
  rewrite lookup_insert_ne, lookup_fmap by done. destruct (decide (x = curthread s)) as [->|Hxc].
  - rewrite Hcc, Hcc'. cbn. f_equal. by apply same_td_view.
  - by rewrite Hother.
Qed.

Lemma yield_views s : sched_inv s ->
  exists s', thread_yield s = Ok s' /\ sched_inv s' /\ views s' = views s /\ idle_thread s' = idle_thread s.
Proof.
  intros I. destruct (si_self _ I) as (t & Ht & _). destruct (yield_spec s t I Ht) as (v & s' & E & R).
  exists s'. split_and!; [done|apply (sw_inv _ _ _ _ _ R)| |apply (sw_const _ _ _ _ _ R)].
  rewrite (switch_views s t TDS_READY v s') by done. rewrite state_view; [|by apply (self_awake s)|done].
  apply insert_id. unfold views. by rewrite lookup_fmap, Ht.
Qed.

Lemma preempt_views s : sched_inv s ->
  exists s', sched_maybe_preempt s = Ok s' /\ sched_inv s' /\ views s' = views s /\ idle_thread s' = idle_thread s.
Proof.
  intros I. destruct (si_self _ I) as (t & Ht & _). rewrite (maybe_preempt_spec s t) by done.
  destruct (yield_views s I) as (s' & E & HH). repeat case_match; eauto.
Qed.

(** ** Going to sleep and waking up *)

(** The sleep queues of [k]. *)
Definition queues_of k V := waits_ok V (sqs k) (sleepq_chains k).

(** Parts that only the waits themselves change. *)
Definition same_rest k k' : Prop :=
  slpcallouts k' = slpcallouts k /\ systime k' = systime k /\ frames k' = frames k.

(** No channel gets another queue. *)
Definition keeps_channels k k' : Prop :=
  forall q y, sqs k' !! q = Some y -> sq_wchan y <> 0 ->
  exists y0, sqs k !! q = Some y0 /\ sq_wchan y0 = sq_wchan y.

Lemma sq_lookup_spec k V w :
  queues_of k V ->
  (exists q, owns V (sqs k) q (OfChannel w) /\ sq_lookup k (SC_HASH w) w = Ok (Some q)) \/
  ((forall q, ~ owns V (sqs k) q (OfChannel w)) /\ sq_lookup k (SC_HASH w) w = Ok None).
Proof.
  intros W. destruct (chain_get _ _ _ W w) as (l & E & Hl). unfold sq_lookup. rewrite E.
  apply (chain_lookup _ _ _ W w l Hl).
Qed.

(** What [sq_enter] does to the queues, up to the thread itself. *)
Definition enters k td (v : wview) w (Q : gmap Z sleepq) (C : list (list Z)) V : Prop :=
  forall v', v_wchan v' = w -> v_sq v' = 0 -> v_sleeping v' = true ->
  waits_ok (<[td := v']> V) Q C.

Lemma enter_queues k V td v w :
  queues_of k V -> V !! td = Some v -> v_wchan v = 0 -> w <> 0 ->
  exists found own sq k1 x, sq_lookup k (SC_HASH w) w = Ok found /\ get_sq k (v_sq v) = Ok own /\
    own = sq_ctor /\
    match found with
    | None =>
        l ← arr_get (sleepq_chains k) (SC_HASH w);
        c ← arr_set (sleepq_chains k) (SC_HASH w) (v_sq v :: l);
        Ok (v_sq v, set_chains c (put_sq k (v_sq v)
              (Sleepq (sq_free own) (sq_blocked own) (sq_nblocked own) w)))
    | Some sq =>
        x ← get_sq k sq;
        Ok (sq, put_sq k sq (Sleepq (v_sq v :: sq_free x) (sq_blocked x) (sq_nblocked x) (sq_wchan x)))
    end = Ok (sq, k1) /\ get_sq k1 sq = Ok x /\ sch k1 = sch k /\ same_rest k k1 /\
    enters k td v w
      (<[sq := Sleepq (sq_free x) (sq_blocked x ++ [td]) (uwrap 32 (sq_nblocked x + 1)) (sq_wchan x)]> (sqs k1))
      (sleepq_chains k1) V.
Proof.
  intros W Hv Hv0 Hw. destruct (awake_queue _ _ _ W td v Hv Hv0) as (Hn0 & _ & Hq & _).
  unfold get_sq at 1. rewrite Hq. pose proof (hash_range w) as Hh.
  destruct (sq_lookup_spec k V w W) as [(p & (x & Hx & Hxw & _) & ->)|[Hno ->]].
  - eexists _, _, p, _, _. split_and!; [done..| | | | |].
    + unfold get_sq. rewrite Hx. cbn [mbind outcome_bind]. done.
    + unfold get_sq. cbn. by rewrite lookup_insert_eq.
    + done.
    + done.
    + intros v' E1 E2 E3. cbn. rewrite insert_insert_eq. subst w. by apply (enter_next _ _ _ W td v v' p x).
  - destruct (chain_get _ _ _ W w) as (l & El & Hl).
    eexists _, _, (v_sq v), _, _. split_and!; [done..| | | | |].
    + rewrite El. cbn [mbind outcome_bind]. rewrite arr_set_ok by (rewrite (wo_len _ _ _ W); lia). done.
    + unfold get_sq. cbn. by rewrite lookup_insert_eq.
    + done.
    + done.
    + intros v' E1 E2 E3. cbn. rewrite insert_insert_eq. by apply (enter_first _ _ _ W td v v' w l).
Qed.

(** The current thread of [s], which has become [t'] in [k], goes to sleep. *)
Lemma sq_enter_spec s t k t' w wp :
  sched_inv s -> threads s !! curthread s = Some t -> curthread s <> idle_thread s ->
  sch k = set_threads (<[curthread s := t']> (threads s)) s ->
  td_prio t' = td_prio t -> td_base_prio t' = td_base_prio t -> td_wchan t' = td_wchan t ->
  td_waitpt t' = td_waitpt t -> td_sleepqueue t' = td_sleepqueue t ->
  queues_of k (views s) -> td_wchan t = 0 -> w <> 0 ->
  exists k', sq_enter k (curthread s) (SC_HASH w) w wp = Ok k' /\ sched_inv (sch k') /\
    idle_thread (sch k') = idle_thread s /\
    views (sch k') = <[curthread s := Wview w wp 0 true (flag_on (td_flags t') TDF_SLPINTR)
      (flag_on (td_flags t') TDF_SLPTIMED)]> (views s) /\
    queues_of k' (views (sch k')) /\ same_rest k k'.
Proof.
  intros I Ht Hni Hk P1 P2 P3 P4 P5 W Hw0 Hw.
  assert (views s !! curthread s = Some (wview_of t)) as Hv by (apply views_lookup; eauto).
  destruct (awake_queue _ _ _ W _ _ Hv Hw0) as (Hn0 & Hwp & Hq & _). cbn in Hn0, Hwp, Hq.
  destruct (enter_queues k (views s) _ _ w W Hv Hw0 Hw)
    as (found & own & sq & k1 & x & E1 & E2 & -> & E3 & E4 & Hs1 & Hr & HE). cbn in E2, E3.
  unfold sq_enter. rewrite Hk. rewrite (thr_some _ _ t') by apply lookup_insert_eq. cbn [mbind outcome_bind].
  rewrite P3, P4, P5, Hw0, Hwp. assert_step ltac:(done). assert_step lia.
  rewrite E2. cbn [mbind outcome_bind]. do 3 assert_step ltac:(done). rewrite E1. cbn [mbind outcome_bind].
  cbn [sq_ctor sq_free sq_blocked sq_nblocked]. rewrite E3. cbn [mbind outcome_bind]. rewrite E4. cbn [mbind outcome_bind].
  unfold upd_td, on_sch. cbn [sch put_sq set_sqs]. rewrite Hs1, Hk.
  rewrite (upd_some _ _ t') by apply lookup_insert_eq. cbn [mbind outcome_bind].
  set (t1 := set_td_sleepqueue 0 (set_td_waitpt wp (set_td_wchan w (set_td_state (td_state t) t')))).
  set (s1 := set_threads (<[curthread s := t1]> (threads s)) s).
  assert (sched_inv s1) as I1 by (apply (upd_inv s _ t); try done; cbn; rewrite P2; apply (si_prio _ I _ _ Ht)).
  cbn [sch set_sch set_threads threads].
  match goal with |- context [sched_switch ?a] => replace a with (leave s1 t1 TDS_SLEEPING) end.
  2: { unfold leave, s1, set_threads. cbn. by rewrite !insert_insert_eq. }
  destruct (sched_switch_spec s1 t1 TDS_SLEEPING I1) as (r & s' & -> & R); [apply lookup_insert_eq|done|done|].
  cbn [mbind outcome_bind]. eexists. split; [done|]. cbn [sch set_sch].
  assert (views s' = <[curthread s := Wview w wp 0 true (flag_on (td_flags t') TDF_SLPINTR)
      (flag_on (td_flags t') TDF_SLPTIMED)]> (views s)) as Hvs.
  { rewrite (switch_views s1 t1 TDS_SLEEPING r s' I1); [|apply lookup_insert_eq|done|done].
    rewrite (views_insert s s1 (curthread s) t1) by done. apply insert_insert_eq. }
  split; [apply (sw_inv _ _ _ _ _ R)|]. split; [apply (sw_const _ _ _ _ _ R)|].
  split; [done|]. split; [|exact Hr].
  unfold queues_of. rewrite Hvs. by apply HE.
Qed.

(** What [sq_leave] does to the queues: the thread gets the queue [own]. *)
Lemma leave_queues k V td v q x :
  queues_of k V -> V !! td = Some v -> v_wchan v <> 0 -> sqs k !! q = Some x -> sq_wchan x = v_wchan v ->
  exists blocked own k1, tailq_remove (sq_blocked x) td = Ok blocked /\ 1 <= sq_nblocked x /\
    (if empty blocked then
      _ ← assert (sq_nblocked x - 1 =? 0);
      l ← arr_get (sleepq_chains k) (SC_HASH (v_wchan v));
      l ← tailq_remove l q;
      c ← arr_set (sleepq_chains k) (SC_HASH (v_wchan v)) l;
      Ok (q, set_chains c (put_sq k q (Sleepq (sq_free x) blocked (sq_nblocked x - 1) 0)))
    else
      _ ← assert (0 <? sq_nblocked x - 1);
      match sq_free x with
      | [] => Fault AssertFailed
      | f :: free => Ok (f, put_sq k q (Sleepq free blocked (sq_nblocked x - 1) (sq_wchan x)))
      end) = Ok (own, k1) /\ sch k1 = sch k /\ same_rest k k1 /\ keeps_channels k k1 /\
    forall v', v_wchan v' = 0 -> v_waitpt v' = 0 -> v_sq v' = own -> v_sleeping v' = false ->
      queues_of k1 (<[td := v']> V).
Proof.
  intros W Hv Hw Hx Ex. assert (sq_wchan x <> 0) as Hxw by congruence.
  destruct (wo_busy _ _ _ W q x Hx Hxw) as (B1 & B2 & B3 & B4).
  assert (td ∈ sq_blocked x) as Hin by (apply (wo_blocked _ _ _ W q x td Hx Hxw); eauto).
  pose proof (remove_perm _ _ B1 Hin) as HP. unfold tailq_remove at 1. rewrite decide_True by done.
  pose proof (Permutation_length HP) as Hlen. cbn [length] in Hlen.
  pose proof (hash_range (v_wchan v)) as Hh.
  assert (forall y k1, sq_wchan y = 0 \/ sq_wchan y = sq_wchan x -> sqs k1 = <[q := y]> (sqs k) ->
    keeps_channels k k1) as Hk.
  { intros y k1 Hy E p z Hz Hz0. rewrite E in Hz. apply lookup_insert_Some in Hz as [[<- <-]|[_ Hz]]; [|eauto].
    exists x. destruct Hy; [congruence|done]. }
  destruct (filter (fun z => z <> td) (sq_blocked x)) as [|y l'] eqn:Ef; cbn [length] in Hlen.
  - assert (sq_blocked x = [td]) as Eb by (by apply Permutation_singleton_r).
    destruct (chain_get _ _ _ W (v_wchan v)) as (l & El & Hl).
    assert (q ∈ l) as Hql.
    { apply (wo_chain _ _ _ W _ _ _ Hl). exists (v_wchan v). split; [exists x; by rewrite Ex|lia]. }
    eexists _, q, _. split; [done|]. split; [lia|]. cbn [empty]. split.
    { assert_step lia. rewrite El. cbn [mbind outcome_bind]. unfold tailq_remove. rewrite decide_True by done.
      cbn [mbind outcome_bind]. rewrite arr_set_ok by (rewrite (wo_len _ _ _ W); lia). done. }
    split; [done|]. split; [done|]. split; [eapply Hk; [|reflexivity]; by left|].
    intros v' E1 E2 E3 E4. unfold queues_of. cbn.
    assert (sq_free x = []) as Efr by (destruct (sq_free x); [done|cbn in B4; lia]).
    assert (sq_nblocked x - 1 = 0) as -> by (rewrite B3, Eb; cbn; lia). rewrite Efr.
    rewrite <- Ex in *. by apply (leave_last _ _ _ W td v v' q x l).
  - destruct (sq_free x) as [|f free] eqn:Efr; [cbn in B4; lia|].
    eexists _, f, _. split; [done|]. split; [lia|]. cbn [empty]. split.
    { by assert_step lia. }
    split; [done|]. split; [done|]. split; [eapply Hk; [|reflexivity]; by right|].
    intros v' E1 E2 E3 E4. unfold queues_of. cbn.
    apply (leave_next _ _ _ W td v v' q x f free (y :: l')); done.
Qed.

Lemma sq_leave_spec k td t q x :
  sched_inv (sch k) -> queues_of k (views (sch k)) -> threads (sch k) !! td = Some t ->
  td_wchan t <> 0 -> sqs k !! q = Some x -> sq_wchan x = td_wchan t ->
  exists own k', sq_leave k td (SC_HASH (td_wchan t)) q = Ok k' /\ sched_inv (sch k') /\
    idle_thread (sch k') = idle_thread (sch k) /\
    views (sch k') = <[td := Wview 0 0 own false (flag_on (td_flags t) TDF_SLPINTR)
      (flag_on (td_flags t) TDF_SLPTIMED)]> (views (sch k)) /\
    queues_of k' (views (sch k')) /\ same_rest k k' /\ keeps_channels k k'.
Proof.
  intros I W Ht Hw Hx Ex.
  assert (views (sch k) !! td = Some (wview_of t)) as Hv by (apply views_lookup; eauto).
  destruct (wo_view _ _ _ W td _ Hv) as (Hsl & Hq0 & _). destruct (Hq0 Hw) as [Hq _]. cbn in Hq.
  pose proof (proj2 Hsl Hw) as Hst. apply bool_decide_eq_true in Hst.
  destruct (leave_queues k _ td _ q x W Hv Hw Hx Ex) as (blocked & own & k1 & E1 & Hn & E2 & Hs & Hr & Hkc & HW).
  cbn [v_wchan wview_of] in E2. unfold sq_leave. rewrite (thr_some _ td t) by done. cbn [mbind outcome_bind].
  unfold get_sq at 1. rewrite Hx. cbn [mbind outcome_bind]. do 3 assert_step lia.
  rewrite E1. cbn [mbind outcome_bind]. rewrite E2. cbn [mbind outcome_bind].
  unfold upd_td, on_sch. rewrite Hs, (upd_some _ td t) by done. cbn [mbind outcome_bind sch set_sch].
  set (t1 := set_td_sleepqueue own _). set (s1 := set_threads _ _).
  assert (sched_inv s1) as I1 by (apply (upd_inv (sch k) td t); try done; apply (si_prio _ I _ _ Ht)).
  destruct (wakeup_views s1 td t1 0 I1) as (s' & -> & I' & _ & Hi & Hvs);
    [apply lookup_insert_eq|cbn; congruence|cbn; congruence|].
  cbn [mbind outcome_bind]. eexists own, _. split; [done|]. cbn [sch set_sch].
  assert (views s' = <[td := Wview 0 0 own false (flag_on (td_flags t) TDF_SLPINTR)
      (flag_on (td_flags t) TDF_SLPTIMED)]> (views (sch k))) as Hvs'.
  { rewrite Hvs, (views_insert (sch k) s1 td t1) by done. apply insert_insert_eq. }
  split; [done|]. split; [done|]. split; [done|]. split; [|exact (conj Hr Hkc)]. rewrite Hvs'. by apply HW.
Qed.

(** The flags that remain after a wakeup, if it is one that the thread waits for. *)
Definition wake_flags (wakeup : Z) (v : wview) : option (bool * bool) :=
  if (wakeup =? EINTR) && v_intr v then Some (true, false)
  else if (wakeup =? ETIMEDOUT) && v_timed v then Some (false, true)
  else if wakeup =? 0 then Some (false, false)
  else None.

Definition flags_of t : bool * bool :=
  (flag_on (td_flags t) TDF_SLPINTR, flag_on (td_flags t) TDF_SLPTIMED).

Lemma clear_flags f m : m = TDF_SLPTIMED \/ m = TDF_SLPINTR \/ m = SLPFLAGS ->
  flag_on (flag_clr f m) TDF_SLPINTR = flag_on f TDF_SLPINTR && (m =? TDF_SLPTIMED) /\
  flag_on (flag_clr f m) TDF_SLPTIMED = flag_on f TDF_SLPTIMED && (m =? TDF_SLPINTR).
Proof.
  change TDF_SLPINTR with (2 ^ 6) at 2 3. change TDF_SLPTIMED with (2 ^ 7) at 3 4.
  unfold flag_clr. rewrite !flag_on_bit, !Z.land_spec, !Z.lnot_spec by done.
  intros [-> | [-> | ->]]; split; by f_equal.
Qed.

Lemma sq_wakeup_spec k td t q x wakeup :
  sched_inv (sch k) -> queues_of k (views (sch k)) -> threads (sch k) !! td = Some t ->
  td_wchan t <> 0 -> sqs k !! q = Some x -> sq_wchan x = td_wchan t ->
  match wake_flags wakeup (wview_of t) with
  | None => sq_wakeup k td (SC_HASH (td_wchan t)) q wakeup = Ok (false, k)
  | Some (a, b) => exists own k', sq_wakeup k td (SC_HASH (td_wchan t)) q wakeup = Ok (true, k') /\
      sched_inv (sch k') /\ idle_thread (sch k') = idle_thread (sch k) /\
      views (sch k') = <[td := Wview 0 0 own false a b]> (views (sch k)) /\
      queues_of k' (views (sch k')) /\ same_rest k k' /\ keeps_channels k k'
  end.
Proof.
  intros I W Ht Hw Hx Ex. unfold sq_wakeup. rewrite (thr_some _ td t) by done. cbn [mbind outcome_bind].
  assert (forall m a b, m = TDF_SLPTIMED \/ m = TDF_SLPINTR \/ m = SLPFLAGS ->
    (a, b) = (v_intr (wview_of t) && (m =? TDF_SLPTIMED), v_timed (wview_of t) && (m =? TDF_SLPINTR)) ->
    exists own k', (k ← upd_td k td (fun t => set_td_flags (flag_clr (td_flags t) m) t);
      k ← sq_leave k td (SC_HASH (td_wchan t)) q; Ok (true, k)) = Ok (true, k') /\
      sched_inv (sch k') /\ idle_thread (sch k') = idle_thread (sch k) /\
      views (sch k') = <[td := Wview 0 0 own false a b]> (views (sch k)) /\
      queues_of k' (views (sch k')) /\ same_rest k k' /\ keeps_channels k k') as Hgo.
  { intros m a b Hm [= Ea Eb]. unfold upd_td, on_sch. rewrite (upd_some _ td t) by done. cbn [mbind outcome_bind].
    set (t1 := set_td_flags _ _). set (s1 := set_threads _ _). set (k1 := set_sch s1 k).
    destruct (clear_flags (td_flags t) m Hm) as [F1 F2].
    assert (views s1 = <[td := wait_flags a b (wview_of t)]> (views (sch k))) as Hv1.
    { rewrite (views_insert (sch k) s1 td t1) by done. f_equal. unfold wview_of, wait_flags. cbn.
      rewrite F1, F2. cbn in Ea, Eb. by rewrite Ea, Eb. }
    destruct (sq_leave_spec k1 td t1 q x) as (own & k' & E & I' & Hi & Hv' & W' & Hr & Hkc); try done.
    - apply (upd_inv (sch k) td t); try done. apply (si_prio _ I _ _ Ht).
    - cbn [sch set_sch k1]. rewrite Hv1. apply (waits_flags _ _ _ td (wview_of t)); [done|]. apply views_lookup. eauto.
    - apply lookup_insert_eq.
    - exists own, k'. change (SC_HASH (td_wchan t)) with (SC_HASH (td_wchan t1)). rewrite E. split_and!; try done; [|by apply Hr..].
      rewrite Hv'. cbn [sch set_sch k1]. rewrite Hv1, insert_insert_eq. f_equal. cbn. cbn in Ea, Eb.
      by rewrite F1, F2, Ea, Eb. }
  unfold wake_flags. destruct (wakeup =? EINTR) eqn:E1; cbn [andb].
  { apply Z.eqb_eq in E1 as ->. cbn [Z.eqb EINTR ETIMEDOUT andb]. cbn [wview_of v_intr]. 
    destruct (flag_on (td_flags t) TDF_SLPINTR) eqn:Hf; [|done]. apply Hgo; [by left|]. cbn. by rewrite Hf, andb_false_r. }
  destruct (wakeup =? ETIMEDOUT) eqn:E2; cbn [andb].
  { apply Z.eqb_eq in E2 as ->. cbn [Z.eqb ETIMEDOUT wview_of v_timed]. 
    destruct (flag_on (td_flags t) TDF_SLPTIMED) eqn:Hf; [|done]. apply Hgo; [by right; left|]. cbn. by rewrite Hf, andb_false_r. }
  destruct (wakeup =? 0); [|done]. apply Hgo; [by right; right|]. cbn. by rewrite !andb_false_r.
Qed.

(** ** The invariant of the whole *)

(** What the flags of a thread look like in the middle of a wait. *)
Definition frame_ok (f : frame) (v : wview) : Prop :=
  match f with
  | InWait => v_intr v = false /\ v_timed v = false
  | InTimedWait n =>
      (v_wchan v <> 0 -> v_intr v = negb (0 <? n) /\ v_timed v = (0 <? n)) /\
      (v_intr v = true -> n <= 0) /\ (v_timed v = true -> 0 < n)
  end.

Record kern_inv k : Prop := {
  ki_sched : sched_inv (sch k);
  ki_waits : queues_of k (views (sch k));
  ki_callouts : callouts_inv (slpcallouts k);
  ki_time : last (slpcallouts k) <= systime k < 2 ^ 32;
  ki_co td v : views (sch k) !! td = Some v -> is_Some (co (slpcallouts k) !! td);
  ki_frame td f : frames k !! td = Some f -> exists v, views (sch k) !! td = Some v /\ frame_ok f v;
  ki_no_frame td v : views (sch k) !! td = Some v -> frames k !! td = None ->
    v_wchan v = 0 /\ v_intr v = false /\ v_timed v = false;
}.

Lemma same_views_inv k s' :
  kern_inv k -> sched_inv s' -> views s' = views (sch k) -> kern_inv (set_sch s' k).
Proof. intros [I W Ic It Ico If In] I' E. split; cbn [set_sch sch]; rewrite ?E; done. Qed.

Lemma wake_flags_from wakeup v a b : wake_flags wakeup v = Some (a, b) ->
  (a = true -> v_intr v = true) /\ (b = true -> v_timed v = true).
Proof.
  unfold wake_flags. destruct (v_intr v), (v_timed v); rewrite ?andb_true_r, ?andb_false_r;
    repeat case_match; intros [= <- <-]; done.
Qed.

(** A thread that sleeps is woken. *)
Lemma woken_inv k k' td v wakeup a b own :
  kern_inv k -> views (sch k) !! td = Some v -> v_wchan v <> 0 -> wake_flags wakeup v = Some (a, b) ->
  sched_inv (sch k') -> views (sch k') = <[td := Wview 0 0 own false a b]> (views (sch k)) ->
  queues_of k' (views (sch k')) -> same_rest k k' -> kern_inv k'.
Proof.
  intros [I W Ic It Ico If In] Hv Hw Hf I' E W' (R1 & R2 & R3). split; rewrite ?R1, ?R2, ?R3; try done.
  - intros x u. rewrite E, lookup_insert_Some. intros [[<- _]|[_ Hu]]; [by apply (Ico td v)|by apply (Ico x u)].
  - intros x f Hx. rewrite E. destruct (decide (x = td)) as [->|Hne].
    + rewrite lookup_insert_eq. eexists. split; [done|]. destruct (If td f Hx) as (v0 & Hv0 & Hok).
      assert (v0 = v) as -> by congruence. destruct (wake_flags_from _ _ _ _ Hf) as [Ha Hb].
      destruct f as [|n]; cbn in Hok |- *.
      * destruct Hok as [Hi Ht]. split; [destruct a; [|done]|destruct b; [|done]].
        -- specialize (Ha eq_refl). congruence.
        -- specialize (Hb eq_refl). congruence.
      * destruct Hok as (_ & Hi & Ht). split_and!; [done|auto|auto].
    + rewrite lookup_insert_ne by done. by apply If.
  - intros x u. rewrite E, lookup_insert_Some. intros [[<- <-]|[Hne Hu]] Hx; [|by apply (In x)].
    by destruct (In td v Hv Hx).
Qed.

(** ** The scheduler's own steps leave the waits alone *)

Lemma views_same s s' td t t' :
  threads s !! td = Some t -> threads s' = <[td := t']> (threads s) -> wview_of t' = wview_of t ->
  views s' = views s.
Proof.
  intros Ht E Ev. rewrite (views_insert s s' td t' E), Ev. apply insert_id. apply views_lookup. eauto.
Qed.

Definition keeps_waits s (e : sched_event) : Prop :=
  match e with
  | Spawn _ _ => False
  | Wakeup td _ => forall t, threads s !! td = Some t -> td_state t <> TDS_SLEEPING
  | Block st => st <> TDS_SLEEPING
  | _ => True
  end.

Lemma flag_view t m b :
  m = TDF_BORROWING \/ m = Z.lor TDF_NEEDSWITCH TDF_SLICEEND \/ m = TDF_NEEDSWITCH ->
  wview_of (set_td_flags ((if b : bool then flag_set else flag_clr) (td_flags t) m) t) = wview_of t.
Proof.
  intros Hm. unfold wview_of, td_is_sleeping, td_is. cbn. change TDF_SLPINTR with (2 ^ 6). change TDF_SLPTIMED with (2 ^ 7).
  rewrite !flag_on_bit by done. unfold flag_set, flag_clr.
  destruct b, Hm as [-> | [-> | ->]]; rewrite ?Z.lor_spec, ?Z.land_spec, ?Z.lnot_spec by done; f_equal; cbn;
    rewrite ?orb_false_r, ?andb_true_r; done.
Qed.

Lemma active_prio_views s td t p :
  sched_inv s -> threads s !! td = Some t -> 0 <= p < 256 -> td <> idle_thread s ->
  exists s', sched_set_active_prio s td p = Ok s' /\ views s' = views s.
Proof.
  intros I Ht Hp Hni. destruct (set_active_prio_spec s td t p I Ht Hp Hni) as (rq & E & _).
  eexists. split; [done|]. by apply (views_same s _ td t (set_td_prio p t)).
Qed.

Lemma lend_views s td t p :
  sched_inv s -> threads s !! td = Some t -> td <> idle_thread s -> 0 <= p < td_prio t ->
  exists s', sched_lend_prio s td p = Ok s' /\ views s' = views s.
Proof.
  intros I Ht Hni Hp. pose proof (si_prio _ I td t Ht) as [Hp1 Hp2]. unfold sched_lend_prio.
  rewrite (thr_some s td t) by done. cbn [mbind outcome_bind]. unfold prio_lt. assert_step lia.
  rewrite (upd_some s td t) by done. cbn [mbind outcome_bind]. set (t' := set_td_flags _ _). set (s1 := set_threads _ _).
  pose proof (upd_inv s td t t' I Ht eq_refl eq_refl Hp2) as I1.
  destruct (active_prio_views s1 td t' p I1) as (s' & -> & E); [apply lookup_insert_eq|lia|done|].
  exists s'. split; [done|]. rewrite E. apply (views_same s s1 td t t'); try done.
  apply (flag_view t _ true). by left.
Qed.

Lemma block_views s st c :
  sched_inv s -> threads s !! curthread s = Some c -> st <> TDS_SLEEPING -> st <> TDS_RUNNING ->
  (curthread s = idle_thread s -> st = TDS_READY) ->
  exists v s', sched_switch (leave s c st) = Ok (v, s') /\ views s' = views s.
Proof.
  intros I Hc H1 H2 Hidle. destruct (sched_switch_spec s c st I Hc H2 Hidle) as (v & s' & E & R).
  exists v, s'. split; [done|]. rewrite (switch_views s c st v s' I Hc R) by done.
  rewrite state_view; [|by apply (self_awake s)|done]. apply insert_id. apply views_lookup. eauto.
Qed.

Lemma set_prio_views adjust s td t p :
  sched_inv s -> threads s !! td = Some t -> td <> idle_thread s -> 0 <= p < 256 ->
  td_state t <> TDS_BLOCKED ->
  exists s', sched_set_prio adjust s td p = Ok s' /\ views s' = views s.
Proof.
  intros I Ht Hni Hp Hnb. unfold sched_set_prio. rewrite (upd_some s td t) by done.
  cbn [mbind outcome_bind]. set (t' := set_td_base_prio p t). set (s1 := set_threads _ _).
  pose proof (upd_inv s td t t' I Ht eq_refl eq_refl Hp) as I1.
  assert (views s1 = views s) as E1 by (by apply (views_same s s1 td t t')).
  rewrite (thr_some s1 td t') by apply lookup_insert_eq. cbn [mbind outcome_bind].
  destruct (td_is_borrowing t' && _); [eauto|].
  destruct (active_prio_views s1 td t' p I1) as (s' & -> & E); [apply lookup_insert_eq|done|done|].
  cbn [mbind outcome_bind]. unfold td_is_blocked, td_is. rewrite bool_decide_false by done. cbn [andb].
  exists s'. split; [done|]. congruence.
Qed.

Lemma unlend_views s td t p :
  sched_inv s -> threads s !! td = Some t -> td <> idle_thread s -> 0 <= p < 256 ->
  (p < td_base_prio t -> p < td_prio t) ->
  exists s', sched_unlend_prio s td p = Ok s' /\ views s' = views s.
Proof.
  intros I Ht Hni Hp Hlt. pose proof (si_prio _ I td t Ht) as [Hp1 Hp2].
  unfold sched_unlend_prio. rewrite (thr_some s td t) by done. cbn [mbind outcome_bind].
  unfold prio_le. destruct (Z.leb_spec (td_base_prio t) p) as [Hle|Hgt]; [|apply (lend_views s td t); [done..|lia]].
  rewrite (upd_some s td t) by done. cbn [mbind outcome_bind]. set (t' := set_td_flags _ _). set (s1 := set_threads _ _).
  pose proof (upd_inv s td t t' I Ht eq_refl eq_refl Hp2) as I1.
  destruct (active_prio_views s1 td t' (td_base_prio t) I1) as (s' & -> & E); [apply lookup_insert_eq|done|done|].
  exists s'. split; [done|]. rewrite E. apply (views_same s s1 td t t'); try done.
  apply (flag_view t _ false). by left.
Qed.

Lemma sched_step_views adjust s e :
  sched_inv s -> sched_event_ok s e -> keeps_waits s e ->
  exists s', sched_step adjust s e = Ok s' /\ views s' = views s.
Proof.
  intros I He Hk. destruct (si_self _ I) as (c & Hc & Hcs). pose proof (si_prio _ I _ _ Hc) as [_ Hcb].
  destruct e as [td p|td r| |st| | | | |td p|td p|td p|b]; cbn [sched_step sched_event_ok keeps_waits] in *.
  - done.
  - destruct He as (t & Ht & H1 & H2). destruct (wakeup_views s td t r I Ht H1 H2) as (s' & E & _ & _ & _ & Ev).
    exists s'. split; [done|]. rewrite Ev, state_view; [|by apply Hk|done]. apply insert_id, views_lookup. eauto.
  - destruct (yield_views s I) as (s' & E & _ & Ev & _). eauto.
  - destruct He as (H1 & H2 & H3). rewrite (leave_upd s c) by done. cbn [mbind outcome_bind].
    destruct (block_views s st c I Hc) as (v & s' & -> & E); try done. eauto.
  - unfold sched_clock, thread_self. destruct (negb _); [|eauto]. rewrite (upd_some s _ c) by done.
    eexists. split; [done|]. eapply (views_same s _ _ c); [done|done|]. cbn zeta. case_match; [|done].
    apply (flag_view (set_td_slice _ _) _ true). by right; left.
  - destruct (preempt_views s I) as (s' & E & _ & Ev & _). eauto.
  - unfold preempt_disable, thread_self. rewrite (upd_some s _ c) by done. eexists. split; [done|].
    by eapply (views_same s _ _ c).
  - destruct He as (t & Ht & Hpos). assert (t = c) as -> by congruence. unfold preempt_enable, thread_self.
    rewrite (thr_some s _ c) by done. cbn [mbind outcome_bind]. assert_step lia.
    rewrite (upd_some s _ c) by done. cbn [mbind outcome_bind].
    match goal with |- context [sched_maybe_preempt ?a] => destruct (preempt_views a) as (s' & E & _ & Ev & _) end.
    { by apply (upd_inv s _ c). }
    exists s'. split; [done|]. rewrite Ev. by eapply (views_same s _ _ c).
  - destruct He as (Hni & Hp & t & Ht & Hnb). by apply (set_prio_views adjust s td t).
  - destruct He as (Hni & Hp & t & Ht & Hlt). by apply (lend_views s td t).
  - destruct He as (Hni & Hp & t & Ht & Hlt). by apply (unlend_views s td t).
  - eexists. split; [done|]. done.
Qed.

(** ** Going to sleep keeps the invariant *)

Lemma timed_callout c td now tm :
  callouts_inv c -> idle c td -> last c <= now -> 0 <= tm -> now + tm < 2 ^ 32 ->
  exists c', callout_schedule (callout_setup c td) td now tm = Ok c' /\ callouts_inv c' /\
    last c' = last c /\ forall x : Z, is_Some (co c !! x) -> is_Some (co c' !! x).
Proof.
  intros I (c0 & Hc0 & Hp & Ha) H1 H2 H3.
  assert (callouts_inv (callout_setup c td)) as I1 by (apply setup_inv; [done|]; intros ? ?; by simplify_eq).
  unfold callout_schedule, get. cbn [callout_setup put co]. rewrite lookup_insert_eq. cbn [mbind outcome_bind].
  assert_step ltac:(done). rewrite uwrap_small by (pose proof (ci_last _ I); lia).
  set (c1 := put (callout_setup c td) td (callout_clear_stopped (Callout 0 0 0))).
  assert (callouts_inv c1) as I2 by (by eapply (put_inv _ td (Callout 0 0 0) _ I1); [apply lookup_insert_eq|..]).
  destruct (schedule_inv c1 td (callout_clear_stopped (Callout 0 0 0)) (now + tm) I2) as (c' & E & I' & Hco & _ & _ & Hl).
  - apply lookup_insert_eq.
  - done.
  - intros Hin. apply (ci_delegated _ I) in Hin as (_ & c2 & Hc2 & ? & _). congruence.
  - cbn. lia.
  - exists c'. split_and!; try done. intros x Hx. rewrite Hco. cbn. by rewrite !lookup_insert_is_Some'; eauto.
Qed.

(** The current thread sleeps in the function of frame [f]. *)
Lemma slept_inv k k' w wp a b f :
  kern_inv k -> w <> 0 -> sched_inv (sch k') ->
  views (sch k') = <[curthread (sch k) := Wview w wp 0 true a b]> (views (sch k)) ->
  queues_of k' (views (sch k')) -> callouts_inv (slpcallouts k') ->
  last (slpcallouts k') = last (slpcallouts k) -> systime k' = systime k ->
  (forall x : Z, is_Some (co (slpcallouts k) !! x) -> is_Some (co (slpcallouts k') !! x)) ->
  frames k' = <[curthread (sch k) := f]> (frames k) -> frame_ok f (Wview w wp 0 true a b) ->
  kern_inv k'.
Proof.
  intros [I W Ic It Ico If In] Hw I' E W' Ic' El Et Hco Ef Hf. destruct (si_self _ I) as (c & Hc & _).
  assert (views (sch k) !! curthread (sch k) = Some (wview_of c)) as Hv by (apply views_lookup; eauto).
  split; rewrite ?El, ?Et; try done.
  - intros x u. rewrite E, lookup_insert_Some. intros [[<- _]|[_ Hu]]; apply Hco; by eapply Ico.
  - intros x g. rewrite Ef, E, lookup_insert_Some. intros [[<- <-]|[Hne Hg]].
    + eexists. by rewrite lookup_insert_eq.
    + rewrite lookup_insert_ne by done. by apply If.
  - intros x u. rewrite Ef, E. destruct (decide (x = curthread (sch k))) as [->|Hne].
    + by rewrite !lookup_insert_eq.
    + rewrite !lookup_insert_ne by done. by apply In.
Qed.

Lemma sleepq_wait_inv k w wp caller :
  kern_inv k -> w <> 0 -> curthread (sch k) <> idle_thread (sch k) -> frames k !! curthread (sch k) = None ->
  exists k', sleepq_wait k w wp caller = Ok k' /\ kern_inv k' /\
    views (sch k') = <[curthread (sch k) := Wview w (wait_point wp caller) 0 true false false]> (views (sch k)) /\
    frames k' = <[curthread (sch k) := InWait]> (frames k).
Proof.
  intros K Hw Hni Hf. destruct (si_self _ (ki_sched _ K)) as (c & Hc & _).
  assert (views (sch k) !! curthread (sch k) = Some (wview_of c)) as Hv by (apply views_lookup; eauto).
  destruct (ki_no_frame _ K _ _ Hv Hf) as (Hw0 & Hi & Ht). cbn in Hw0, Hi, Ht.
  unfold sleepq_wait, upd_td, on_sch, thread_self. rewrite (upd_some _ _ c) by done. cbn [mbind outcome_bind].
  match goal with |- context [sq_enter ?a] => set (k1 := a) end.
  destruct (sq_enter_spec (sch k) c k1 (set_td_state TDS_SLEEPING c) w (wait_point wp caller))
    as (k' & E & I' & _ & Ev & W' & R1 & R2 & R3); try done; [apply K|apply K|].
  cbn [set_td_state td_flags] in Ev. rewrite Hi, Ht in Ev.
  exists k'. split_and!; try done. apply (slept_inv k k' w (wait_point wp caller) false false InWait); try done.
  - rewrite R1. apply K.
  - by rewrite R1.
  - by rewrite R1.
Qed.

Lemma arm_timeout k timeout :
  kern_inv k -> 0 <= timeout -> systime k + timeout < 2 ^ 32 ->
  (0 < timeout -> idle (slpcallouts k) (curthread (sch k))) ->
  exists k1, (if 0 <? timeout then
      c ← callout_schedule (callout_setup (slpcallouts k) (curthread (sch k))) (curthread (sch k)) (systime k) timeout;
      Ok (set_slpcallouts c k) else Ok k) = Ok k1 /\ sch k1 = sch k /\ sqs k1 = sqs k /\
    sleepq_chains k1 = sleepq_chains k /\ frames k1 = frames k /\ systime k1 = systime k /\
    callouts_inv (slpcallouts k1) /\ last (slpcallouts k1) = last (slpcallouts k) /\
    forall x : Z, is_Some (co (slpcallouts k) !! x) -> is_Some (co (slpcallouts k1) !! x).
Proof.
  intros K Ht0 Htm Hidle. destruct (Z.ltb_spec 0 timeout) as [Hpos|].
  - destruct (timed_callout (slpcallouts k) (curthread (sch k)) (systime k) timeout) as (c' & -> & I' & Hl & Hd);
      [apply K|by apply Hidle|apply K|done|done|]. eexists. by split_and!.
  - exists k. split_and!; try done. apply K.
Qed.

Lemma sleepq_wait_timed_inv k w wp caller timeout :
  kern_inv k -> w <> 0 -> curthread (sch k) <> idle_thread (sch k) -> frames k !! curthread (sch k) = None ->
  0 <= timeout -> systime k + timeout < 2 ^ 32 ->
  (0 < timeout -> idle (slpcallouts k) (curthread (sch k))) ->
  exists r k', sleepq_wait_timed k w wp caller timeout = Ok (r, k') /\ kern_inv k' /\
    (r = None -> views (sch k') = <[curthread (sch k) :=
       Wview w (wait_point wp caller) 0 true (negb (0 <? timeout)) (0 <? timeout)]> (views (sch k)) /\
       frames k' = <[curthread (sch k) := InTimedWait timeout]> (frames k)) /\
    (r <> None -> r = Some EINTR /\ timeout = 0 /\ k' = k).
Proof.
  intros K Hw Hni Hf Ht0 Htm Hidle. destruct (si_self _ (ki_sched _ K)) as (c & Hc & _).
  assert (views (sch k) !! curthread (sch k) = Some (wview_of c)) as Hv by (apply views_lookup; eauto).
  destruct (ki_no_frame _ K _ _ Hv Hf) as (Hw0 & Hi & Ht). cbn in Hw0, Hi, Ht.
  unfold sleepq_wait_timed, thread_self. rewrite (thr_some _ _ c) by done. cbn [mbind outcome_bind].
  destruct (flag_on (td_flags c) TDF_NEEDSIGCHK && (timeout =? 0)) eqn:Esig.
  { exists (Some EINTR), k. split_and!; try done. intros _. apply andb_true_iff in Esig as [_ ?]. split_and!; try done. lia. }
  destruct (arm_timeout k timeout K Ht0 Htm Hidle) as (k1 & -> & S1 & S2 & S3 & S4 & S5 & Ic & Il & Ico).
  cbn [mbind outcome_bind]. unfold upd_td, on_sch. rewrite S1, (upd_some _ _ c) by done. cbn [mbind outcome_bind].
  match goal with |- context [sq_enter ?a] => set (k2 := a) end. set (fl := if 0 <? timeout then _ else _) in *.
  destruct (sq_enter_spec (sch k) c k2 (set_td_flags (flag_set (td_flags c) fl) c) w (wait_point wp caller))
    as (k' & E & I' & _ & Ev & W' & R1 & R2 & R3); try done; [apply K|unfold queues_of; cbn; rewrite S2, S3; apply K|].
  rewrite E. cbn [mbind outcome_bind]. exists None, k'.
  assert (flag_on (td_flags (set_td_flags (flag_set (td_flags c) fl) c)) TDF_SLPINTR = negb (0 <? timeout) /\
    flag_on (td_flags (set_td_flags (flag_set (td_flags c) fl) c)) TDF_SLPTIMED = (0 <? timeout)) as [F1 F2].
  { cbn. unfold fl. destruct (0 <? timeout); cbn [negb]; split.
    - rewrite <- Hi. by apply (flag_set_ne 6 7).
    - by apply (flag_set_eq 7).
    - by apply (flag_set_eq 6).
    - rewrite <- Ht. by apply (flag_set_ne 7 6). }
  rewrite F1, F2 in Ev.
  assert (frames k' = <[curthread (sch k) := InTimedWait timeout]> (frames k)) as Hfr by (rewrite R3; cbn; by rewrite S4).
  split_and!; try done.
  apply (slept_inv k k' w (wait_point wp caller) (negb (0 <? timeout)) (0 <? timeout) (InTimedWait timeout)); try done.
  - by rewrite R1.
  - by rewrite R1.
  - by rewrite R2.
  - intros x Hx. rewrite R1. by apply Ico.
  - cbn. split_and!; try done; lia.
Qed.

(** ** Waking up *)

(** Thread [td] sleeps on the channel [w]. *)
Definition waits k w td : Prop := exists v, views (sch k) !! td = Some v /\ v_wchan v = w /\ w <> 0.

Definition prio_of k td : Z := match threads (sch k) !! td with Some t => td_prio t | None => 0 end.

Lemma waits_blocked k w q x td :
  kern_inv k -> sqs k !! q = Some x -> sq_wchan x = w -> w <> 0 -> td ∈ sq_blocked x <-> waits k w td.
Proof.
  intros K Hx <- Hw. rewrite (wo_blocked _ _ _ (ki_waits _ K) q x td Hx Hw). unfold waits.
  split; intros (v & Hv & E); exists v; naive_solver.
Qed.

Lemma best_thread_spec k (l : list Z) : forall b,
  (forall td, td ∈ b :: l -> is_Some (threads (sch k) !! td)) ->
  exists td l1 l2, best_thread k l b = Ok td /\ b :: l = l1 ++ td :: l2 /\
    (forall y, y ∈ l1 -> prio_of k td < prio_of k y) /\ (forall y, y ∈ l2 -> prio_of k td <= prio_of k y).
Proof.
  induction l as [|a l IH]; intros b Hl.
  { exists b, [], []. split_and!; try done; intros y Hy; by apply not_elem_of_nil in Hy. }
  destruct (Hl a) as [ta Ha]; [set_solver|]. destruct (Hl b) as [tb Hb]; [set_solver|].
  cbn [best_thread]. rewrite (thr_some _ a ta), (thr_some _ b tb) by done. cbn [mbind outcome_bind].
  assert (prio_of k a = td_prio ta /\ prio_of k b = td_prio tb) as [Ea Eb] by (unfold prio_of; by rewrite Ha, Hb).
  unfold prio_gt. destruct (Z.ltb_spec (td_prio ta) (td_prio tb)) as [Hlt|Hge].
  - destruct (IH a) as (td & l1 & l2 & E & El & H1 & H2); [set_solver|]. exists td, (b :: l1), l2.
    split_and!; [done|by rewrite El| |done]. intros y [->|Hy]%elem_of_cons; [|by apply H1].
    assert (a ∈ l1 ++ td :: l2) as Hin by (rewrite <- El; set_solver).
    apply elem_of_app in Hin as [Hin|[->|Hin]%elem_of_cons]; [apply H1 in Hin|..|apply H2 in Hin]; lia.
  - destruct (IH b) as (td & l1 & l2 & E & El & H1 & H2); [set_solver|].
    destruct l1 as [|b' l1]; injection El as <- ->.
    + exists b, [], (a :: l2). split_and!; try done. intros y [->|Hy]%elem_of_cons; [lia|by apply H2].
    + exists td, (b :: a :: l1), l2. split_and!; try done. intros y [->|[->|Hy]%elem_of_cons]%elem_of_cons.
      * apply H1. set_solver.
      * assert (prio_of k td < prio_of k b) by (apply H1; set_solver). lia.
      * apply H1. set_solver.
Qed.

(** [sq_wakeup] of a thread that waits, at the level of the whole state. *)
Lemma wakeup_inv k td v q x wakeup :
  kern_inv k -> views (sch k) !! td = Some v -> v_wchan v <> 0 -> sqs k !! q = Some x ->
  sq_wchan x = v_wchan v ->
  match wake_flags wakeup v with
  | None => sq_wakeup k td (SC_HASH (v_wchan v)) q wakeup = Ok (false, k)
  | Some (a, b) => exists own k', sq_wakeup k td (SC_HASH (v_wchan v)) q wakeup = Ok (true, k') /\ kern_inv k' /\
      views (sch k') = <[td := Wview 0 0 own false a b]> (views (sch k)) /\
      frames k' = frames k /\ keeps_channels k k'
  end.
Proof.
  intros K Hv Hw Hx Ex. pose proof Hv as Hv'. apply views_lookup in Hv' as (t & Ht & ->).
  pose proof (sq_wakeup_spec k td t q x wakeup (ki_sched _ K) (ki_waits _ K) Ht Hw Hx Ex) as HS.
  destruct (wake_flags wakeup (wview_of t)) as [[a b]|] eqn:Ef; [|done].
  destruct HS as (own & k' & E & I' & _ & Ev & W' & Hr & Hkc). exists own, k'. split_and!; try done; [|apply Hr].
  by apply (woken_inv k k' td (wview_of t) wakeup a b own).
Qed.

Lemma preempt_inv k : kern_inv k ->
  exists k', on_sch k sched_maybe_preempt = Ok k' /\ kern_inv k' /\ views (sch k') = views (sch k) /\
    frames k' = frames k.
Proof.
  intros K. destruct (preempt_views (sch k) (ki_sched _ K)) as (s' & E & I' & Ev & _).
  unfold on_sch. rewrite E. cbn [mbind outcome_bind]. eexists. split; [done|]. split; [by apply same_views_inv|done].
Qed.

(** A signal, in terms of the views. *)
Lemma signal_spec k w :
  kern_inv k ->
  (sleepq_signal k w = Ok (false, k) /\ forall td, ~ waits k w td) \/
  exists q x td l1 l2 own k', sleepq_signal k w = Ok (true, k') /\ kern_inv k' /\
    sqs k !! q = Some x /\ sq_wchan x = w /\ w <> 0 /\ sq_blocked x = l1 ++ td :: l2 /\
    (forall y, y ∈ l1 -> prio_of k td < prio_of k y) /\ (forall y, y ∈ l2 -> prio_of k td <= prio_of k y) /\
    views (sch k') = <[td := Wview 0 0 own false false false]> (views (sch k)) /\ frames k' = frames k.
Proof.
  intros K. pose proof (ki_waits _ K) as W. unfold sleepq_signal.
  destruct (sq_lookup_spec k _ w W) as [(q & (x & Hx & Hxw & Hw) & ->)|[Hno ->]]; cbn [mbind outcome_bind].
  2: { left. split; [done|]. intros td (v & Hv & Ew & Hw0). destruct (wo_view _ _ _ W td v Hv) as (_ & Hq & _).
       rewrite Ew in Hq. destruct (Hq Hw0) as (_ & q & Ho). by apply (Hno q). }
  right. unfold get_sq at 1. rewrite Hx. cbn [mbind outcome_bind].
  assert (sq_wchan x <> 0) as Hx0 by congruence. destruct (wo_busy _ _ _ W q x Hx Hx0) as (_ & _ & _ & Hlen).
  assert (forall td, td ∈ sq_blocked x -> exists t, threads (sch k) !! td = Some t /\ td_wchan t = w) as Hbl.
  { intros td Htd. apply (wo_blocked _ _ _ W q x td Hx Hx0) in Htd as (v & Hv & Ev).
    apply views_lookup in Hv as (t & Ht & ->). exists t. split; [done|]. cbn in Ev. congruence. }
  destruct (sq_blocked x) as [|b l] eqn:Eb; [done|].
  destruct (Hbl b) as (tb & Htb & _); [set_solver|].
  assert (best_thread k (b :: l) b = best_thread k l b) as ->.
  { cbn [best_thread]. rewrite (thr_some _ b tb) by done. cbn [mbind outcome_bind]. unfold prio_gt. by rewrite Z.ltb_irrefl. }
  destruct (best_thread_spec k l b) as (td & l1 & l2 & -> & El & H1 & H2).
  { intros td Htd. destruct (Hbl td Htd) as (t & Ht & _). eauto. }
  cbn [mbind outcome_bind]. destruct (Hbl td) as (t & Ht & Etw); [rewrite El; set_solver|].
  pose proof (wakeup_inv k td (wview_of t) q x 0 K) as HS. cbn [wview_of v_wchan] in HS. rewrite Etw in HS.
  destruct HS as (own & k1 & -> & K1 & Ev & Hf & _); [apply views_lookup; eauto|done|done|done|].
  cbn [mbind outcome_bind]. destruct (preempt_inv k1 K1) as (k' & -> & K' & Ev' & Hf'). cbn [mbind outcome_bind].
  exists q, x, td, l1, l2, own, k'. split_and!; try done; congruence.
Qed.

Lemma wakeup_all_spec w q (l : list Z) : forall k,
  kern_inv k -> w <> 0 -> NoDup l -> (forall td, td ∈ l -> waits k w td) ->
  (l <> [] -> exists x, sqs k !! q = Some x /\ sq_wchan x = w) ->
  exists k', wakeup_all k l (SC_HASH w) q = Ok k' /\ kern_inv k' /\ frames k' = frames k /\
    (forall td, td ∉ l -> views (sch k') !! td = views (sch k) !! td) /\
    (forall td, td ∈ l -> exists own, views (sch k') !! td = Some (Wview 0 0 own false false false)).
Proof.
  induction l as [|td l IH]; intros k K Hw Hn Hl Hq.
  { exists k. split_and!; try done. intros td Htd. by apply not_elem_of_nil in Htd. }
  apply NoDup_cons in Hn as [Htd Hn]. destruct (Hl td) as (v & Hv & Ev & _); [set_solver|].
  destruct Hq as (x & Hx & Ex); [done|]. pose proof (wakeup_inv k td v q x 0 K Hv) as HS. rewrite Ev in HS.
  destruct HS as (own & k1 & E & K1 & Ev1 & Hf & Hkc); [done|done|done|].
  cbn [wakeup_all]. rewrite E. cbn [mbind outcome_bind].
  assert (forall y, y ∈ l -> waits k1 w y) as Hl1.
  { intros y Hy. destruct (Hl y) as (u & Hu & HH); [set_solver|]. exists u. rewrite Ev1, lookup_insert_ne; [done|].
    intros ->. done. }
  destruct (IH k1 K1 Hw Hn Hl1) as (k' & E' & K' & Hf' & Hout & Hin).
  { intros Hne. destruct l as [|y l]; [done|]. destruct (Hl1 y) as (u & Hu & Eu & _); [set_solver|].
    destruct (wo_view _ _ _ (ki_waits _ K1) y u Hu) as (_ & Hq & _). rewrite Eu in Hq.
    destruct (Hq Hw) as (_ & q' & (x' & Hx' & Ex' & _)). destruct (Hkc q' x' Hx') as (y0 & Hy0 & Ey0); [congruence|].
    assert (q' = q) as ->; [|eauto]. apply (wo_channel _ _ _ (ki_waits _ K) q' q w); eexists; split_and!; try done; congruence. }
  exists k'. split_and!; try done; [congruence| |].
  - intros y Hy. rewrite Hout by set_solver. rewrite Ev1, lookup_insert_ne; [done|set_solver].
  - intros y [->|Hy]%elem_of_cons; [|by apply Hin]. exists own. rewrite Hout by done. by rewrite Ev1, lookup_insert_eq.
Qed.

(** A broadcast wakes the threads that wait on [w] and no other. *)
Lemma broadcast_spec k w :
  kern_inv k ->
  (sleepq_broadcast k w = Ok (false, k) /\ forall td, ~ waits k w td) \/
  exists k', sleepq_broadcast k w = Ok (true, k') /\ kern_inv k' /\ frames k' = frames k /\
    (exists td, waits k w td) /\
    (forall td, ~ waits k w td -> views (sch k') !! td = views (sch k) !! td) /\
    (forall td, waits k w td -> exists own, views (sch k') !! td = Some (Wview 0 0 own false false false)).
Proof.
  intros K. pose proof (ki_waits _ K) as W. unfold sleepq_broadcast.
  destruct (sq_lookup_spec k _ w W) as [(q & (x & Hx & Hxw & Hw) & ->)|[Hno ->]]; cbn [mbind outcome_bind].
  2: { left. split; [done|]. intros td (v & Hv & Ew & Hw0). destruct (wo_view _ _ _ W td v Hv) as (_ & Hq & _).
       rewrite Ew in Hq. destruct (Hq Hw0) as (_ & q & Ho). by apply (Hno q). }
  right. unfold get_sq at 1. rewrite Hx. cbn [mbind outcome_bind].
  assert (sq_wchan x <> 0) as Hx0 by congruence. destruct (wo_busy _ _ _ W q x Hx Hx0) as (Hn & _ & _ & Hlen).
  assert (exists td, waits k w td) as Hex.
  { destruct (sq_blocked x) as [|td l] eqn:Eb; [done|]. exists td. apply (waits_blocked k w q x); try done.
    rewrite Eb. set_solver. }
  destruct (wakeup_all_spec w q (sq_blocked x) k K Hw Hn) as (k1 & -> & K1 & Hf1 & Hout & Hin).
  { intros td Htd. by apply (waits_blocked k w q x). }
  { eauto. }
  cbn [mbind outcome_bind]. destruct (preempt_inv k1 K1) as (k' & -> & K' & Ev' & Hf'). cbn [mbind outcome_bind].
  exists k'. rewrite Ev'. split_and!; try done; [congruence|..]; intros td Htd.
  - apply Hout. by rewrite (waits_blocked k w q x).
  - apply Hin. by apply (waits_blocked k w q x).
Qed.

(** A wakeup for the reason [wakeup], be it a signal or a timeout. *)
Lemma abort_spec k td v wakeup :
  kern_inv k -> views (sch k) !! td = Some v ->
  exists r k', _sleepq_abort k td wakeup = Ok (r, k') /\ kern_inv k' /\ frames k' = frames k /\
    match (if v_wchan v =? 0 then None else wake_flags wakeup v) with
    | Some (a, b) => r = true /\ exists own, views (sch k') = <[td := Wview 0 0 own false a b]> (views (sch k))
    | None => r = false /\ views (sch k') = views (sch k)
    end.
Proof.
  intros K Hv. pose proof Hv as Hv'. apply views_lookup in Hv' as (t & Ht & Ev). pose proof (ki_waits _ K) as W.
  unfold _sleepq_abort. rewrite (thr_some _ td t) by done. cbn [mbind outcome_bind].
  assert (td_wchan t = v_wchan v) as -> by (by rewrite Ev).
  destruct (sq_lookup_spec k _ (v_wchan v) W) as [(q & (x & Hx & Hxw & Hw) & ->)|[Hno ->]]; cbn [mbind outcome_bind].
  2: { destruct (Z.eqb_spec (v_wchan v) 0) as [_|Hw]; [by exists false, k|]. exfalso.
       destruct (wo_view _ _ _ W td v Hv) as (_ & Hq & _). destruct (Hq Hw) as (_ & q & Ho). by apply (Hno q). }
  rewrite (proj2 (Z.eqb_neq _ _) Hw). pose proof (wakeup_inv k td v q x wakeup K Hv Hw Hx Hxw) as HS.
  destruct (wake_flags wakeup v) as [[a b]|].
  - destruct HS as (own & k1 & -> & K1 & Ev1 & Hf1 & _). cbn [mbind outcome_bind].
    destruct (preempt_inv k1 K1) as (k' & -> & K' & Ev' & Hf'). exists true, k'. split_and!; try done; [congruence|].
    exists own. congruence.
  - rewrite HS. cbn [mbind outcome_bind]. destruct (preempt_inv k K) as (k' & -> & K' & Ev' & Hf'). by exists false, k'.
Qed.

(** ** Returning from a wait *)

Lemma slpflags_off f :
  flag_on f SLPFLAGS = flag_on f TDF_SLPINTR || flag_on f TDF_SLPTIMED.
Proof.
  unfold flag_on, SLPFLAGS. rewrite Z.land_lor_distr_r.
  destruct (Z.eqb_spec (Z.lor (Z.land f TDF_SLPINTR) (Z.land f TDF_SLPTIMED)) 0) as [E|E].
  - apply Z.lor_eq_0_iff in E as [-> ->]. done.
  - destruct (Z.eqb_spec (Z.land f TDF_SLPINTR) 0) as [E1|]; [|done].
    destruct (Z.eqb_spec (Z.land f TDF_SLPTIMED) 0) as [E2|]; [|done]. rewrite E1, E2 in E. done.
Qed.

(** The reason for which a thread was woken, according to its flags. *)
Definition reason (v : wview) : Z := if v_intr v then EINTR else if v_timed v then ETIMEDOUT else 0.

(** The thread that runs leaves its wait with clear flags. *)
Lemma returned_inv k k' v :
  kern_inv k -> views (sch k) !! curthread (sch k) = Some v -> sched_inv (sch k') ->
  views (sch k') = <[curthread (sch k) := wait_flags false false v]> (views (sch k)) ->
  sqs k' = sqs k -> sleepq_chains k' = sleepq_chains k -> callouts_inv (slpcallouts k') ->
  last (slpcallouts k') = last (slpcallouts k) -> systime k' = systime k ->
  (forall x : Z, is_Some (co (slpcallouts k) !! x) -> is_Some (co (slpcallouts k') !! x)) ->
  frames k' = delete (curthread (sch k)) (frames k) -> kern_inv k'.
Proof.
  intros [I W Ic It Ico If In] Hv I' E Eq Ech Ic' El Et Hco Ef.
  assert (v_wchan v = 0) as Hw0.
  { pose proof Hv as Hv'. apply views_lookup in Hv' as (t & Ht & ->).
    destruct (wo_view _ _ _ W _ _ Hv) as (Hs & _). destruct (decide (td_wchan t = 0)) as [|Hne]; [done|].
    apply Hs, bool_decide_eq_true in Hne. by apply (self_awake (sch k)) in Hne. }
  split; rewrite ?El, ?Et; try done.
  - unfold queues_of. rewrite E, Eq, Ech. by apply waits_flags.
  - intros x u. rewrite E, lookup_insert_Some. intros [[<- _]|[_ Hu]]; apply Hco; by eapply Ico.
  - intros x g. rewrite Ef, E, lookup_delete_Some. intros [Hne Hg]. rewrite lookup_insert_ne by done. by apply If.
  - intros x u. rewrite Ef, E, lookup_insert_Some. intros [[<- <-]|[Hne Hu]]; [done|].
    rewrite lookup_delete_ne by done. by apply In.
Qed.

Lemma wait_return_spec k v :
  kern_inv k -> views (sch k) !! curthread (sch k) = Some v ->
  exists k', wait_return k = Ok (reason v, k') /\ kern_inv k' /\ frames k' = delete (curthread (sch k)) (frames k) /\
    views (sch k') = <[curthread (sch k) := wait_flags false false v]> (views (sch k)).
Proof.
  intros K Hv. pose proof Hv as Hv'. apply views_lookup in Hv' as (t & Ht & Ev). unfold wait_return, thread_self.
  destruct (frames k !! curthread (sch k)) as [[|n]|] eqn:Ef.
  - destruct (ki_frame _ K _ _ Ef) as (v0 & Hv0 & F1 & F2). assert (v0 = v) as -> by congruence.
    unfold sleepq_wait_end, thread_self. rewrite (thr_some _ _ t) by done. cbn [mbind outcome_bind].
    rewrite slpflags_off. subst v. cbn in F1, F2. rewrite F1, F2. cbn [orb negb assert mbind outcome_bind].
    eexists. split; [unfold reason; cbn; by rewrite F1, F2|].
    assert (<[curthread (sch k) := wait_flags false false (wview_of t)]> (views (sch k)) = views (sch k)) as E.
    { apply insert_id. rewrite Hv. f_equal. unfold wait_flags, wview_of. cbn. by rewrite F1, F2. }
    split_and!; [|done|by rewrite E]. eapply (returned_inv k _ (wview_of t)); try done; first [apply K|by rewrite E].
  - unfold sleepq_wait_timed_end, thread_self. rewrite (thr_some _ _ t) by done. cbn [mbind outcome_bind].
    unfold upd_td, on_sch. rewrite (upd_some _ _ t) by done. cbn [mbind outcome_bind set_sch slpcallouts].
    set (t1 := set_td_flags _ _). set (s1 := set_threads _ _).
    assert (sched_inv s1) as I1 by (apply (upd_inv (sch k) _ t); try done; [apply K|]; apply (si_prio _ (ki_sched _ K) _ _ Ht)).
    assert (views s1 = <[curthread (sch k) := wait_flags false false v]> (views (sch k))) as Ev1.
    { rewrite (views_insert (sch k) s1 _ t1) by done. f_equal. subst v. unfold wview_of, wait_flags. cbn.
      destruct (clear_flags (td_flags t) SLPFLAGS) as [-> ->]; [tauto|]. by rewrite !andb_false_r. }
    assert (wait_result (td_flags t) = reason v) as -> by (by rewrite Ev).
    destruct (ki_co _ K _ _ Hv) as [c Hc]. destruct (0 <? n).
    + destruct (stop_inv _ _ c (ki_callouts _ K) Hc) as (cs & c' & -> & Ic' & Hco & _ & _ & _ & _ & _ & Hl).
      cbn [mbind outcome_bind]. eexists. split; [done|]. split_and!; [|done|done].
      eapply (returned_inv k _ v); try done. intros x Hx. cbn. rewrite Hco. by apply lookup_insert_is_Some'; right.
    + cbn [mbind outcome_bind]. eexists. split; [done|]. split_and!; [|done|done].
      eapply (returned_inv k _ v); try done. apply K.
  - destruct (ki_no_frame _ K _ _ Hv Ef) as (_ & F1 & F2). exists k. unfold reason. rewrite F1, F2.
    split_and!; try done; [by rewrite delete_id|]. symmetry. apply insert_id. rewrite Hv. f_equal.
    destruct v. unfold wait_flags. cbn in *. by rewrite F1, F2.
Qed.

(** ** Threads come and go *)

Lemma create_waits V Q C td sq :
  waits_ok V Q C -> V !! td = None -> Q !! sq = None -> sq <> 0 -> Z.of_nat (size V) + 1 < 2 ^ 32 ->
  waits_ok (<[td := Wview 0 0 sq false false false]> V) (<[sq := sq_ctor]> Q) C.
Proof.
  intros W Hv Hq Hn0 Hsz. set (V' := <[td := _]> V). set (Q' := <[sq := _]> Q).
  assert (forall q o, owns V Q q o -> q <> sq) as Hne.
  { intros q o Ho ->. apply (wo_exists _ _ _ W) in Ho as [x Hx]. congruence. }
  assert (forall q o, owns V' Q' q o <-> q = sq /\ o = OfThread td \/ q <> sq /\ owns V Q q o) as HO.
  { intros q o. split.
    - intros Ho. assert (q = sq /\ o = OfThread td \/ owns V Q q o) as [|H]; [|by left|right; eauto].
      destruct o as [x|p|w]; destruct Ho as (u & Hu & H).
      + apply lookup_insert_Some in Hu as [[<- <-]|[_ Hu]]; [left; by destruct H|right; by exists u].
      + apply lookup_insert_Some in Hu as [[<- <-]|[_ Hu]]; [by apply not_elem_of_nil in H|right; by exists u].
      + apply lookup_insert_Some in Hu as [[<- <-]|[_ Hu]]; [by destruct H as [<- ?]|right; by exists u].
    - intros [[-> ->]|[_ Ho]]; [eexists; split; [apply lookup_insert_eq|done]|].
      destruct o as [x|p|w]; destruct Ho as (u & Hu & H); exists u; (split; [|done]); apply lookup_insert_Some;
        right; (split; [|done]); congruence. }
  assert (forall q, is_Some (Q !! q) -> is_Some (Q' !! q)) as Hdom by (intros q Hs; by apply lookup_insert_is_Some'; right).
  destruct (owner_moves V Q C W V' Q' sq (OfThread td) HO) as (M1 & M2 & M3); [done|eexists; apply lookup_insert_eq|done|].
  destruct W as [W1 W2 W3 W4 W5 W6 W7 W8 W9 W10 W11 W12]. split; try done.
  - intros i l q Hi. rewrite (W3 i l q Hi). split; intros (w & Ho & Eh); exists w; (split; [|done]).
    + apply HO. right. eauto.
    + by apply HO in Ho as [[_ ?]|[_ ?]].
  - unfold Q'. by rewrite lookup_insert_ne.
  - intros q x. unfold Q'. rewrite lookup_insert_Some. intros [[<- <-]|[_ Hx]]; [done|by apply (W8 q)].
  - intros q x. unfold Q'. rewrite lookup_insert_Some. intros [[<- <-]|[_ Hx]]; [done|by apply (W9 q)].
  - intros q x y. unfold Q'. rewrite lookup_insert_Some. intros [[<- <-]|[_ Hx]] Hx0; [done|]. rewrite (W10 q x y Hx Hx0).
    split; intros (u & Hu & Eu); exists u; (split; [|done]).
    + apply lookup_insert_Some. right. split; [|done]. congruence.
    + apply lookup_insert_Some in Hu as [[<- <-]|[_ Hu]]; [by cbn in Eu|done].
  - intros y u. unfold V'. rewrite lookup_insert_Some. intros [[<- <-]|[_ Hu]].
    + cbn. split_and!; try done. intros _. split; [done|]. eexists. apply lookup_insert_eq.
    + destruct (W11 y u Hu) as (H1 & H2 & H3). split_and!; try done.
      * intros H. destruct (H2 H) as (? & q & Ho). split; [done|]. exists q. apply HO. right. eauto.
      * intros H. destruct (H3 H). eauto.
  - unfold V'. rewrite map_size_insert_None by done. lia.
Qed.

Lemma delete_waits V Q C td v :
  waits_ok V Q C -> V !! td = Some v -> v_wchan v = 0 -> waits_ok (delete td V) (delete (v_sq v) Q) C.
Proof.
  intros W Hv Hw. set (V' := delete td V). set (Q' := delete (v_sq v) Q).
  assert (owns V Q (v_sq v) (OfThread td)) as O by (by exists v).
  destruct (awake_queue _ _ _ W td v Hv Hw) as (_ & _ & Hq & _).
  assert (forall q o, owns V' Q' q o <-> q <> v_sq v /\ owns V Q q o) as HO.
  { intros q o. split.
    - intros Ho. assert (owns V Q q o /\ o <> OfThread td) as [H Hne].
      { destruct o as [x|p|w]; destruct Ho as (u & Hu & H); apply lookup_delete_Some in Hu as [Hne Hu];
          (split; [by exists u|congruence]). }
      split; [|done]. intros ->. apply Hne. by apply (wo_owner _ _ _ W (v_sq v)).
    - intros [Hne Ho]. destruct o as [x|p|w]; destruct Ho as (u & Hu & H); exists u; (split; [|done]);
        apply lookup_delete_Some; (split; [|done]).
      + intros <-. destruct H. congruence.
      + intros <-. rewrite Hq in Hu. simplify_eq. by apply not_elem_of_nil in H.
      + done. }
  assert (forall q w, owns V Q q (OfChannel w) -> q <> v_sq v) as Hch.
  { intros q w Ho ->. pose proof (wo_owner _ _ _ W _ _ _ O Ho). done. }
  destruct W as [W1 W2 W3 W4 W5 W6 W7 W8 W9 W10 W11 W12]. split; try done.
  - intros i l q Hi. rewrite (W3 i l q Hi). split; intros (w & Ho & Eh); exists w; (split; [|done]).
    + apply HO. eauto.
    + by apply HO in Ho as [_ ?].
  - apply lookup_delete_None. by right.
  - intros q o Ho. apply HO in Ho as [Hne Ho]. apply W5 in Ho as [x Hx]. exists x. by apply lookup_delete_Some.
  - intros q o o' H1 H2. apply HO in H1 as [_ H1], H2 as [_ H2]. by apply (W6 q).
  - intros q q' w H1 H2. apply HO in H1 as [_ H1], H2 as [_ H2]. by apply (W7 q q' w).
  - intros q x. unfold Q'. rewrite lookup_delete_Some. intros [_ Hx]. by apply (W8 q).
  - intros q x. unfold Q'. rewrite lookup_delete_Some. intros [_ Hx]. by apply (W9 q).
  - intros q x y. unfold Q'. rewrite lookup_delete_Some. intros [_ Hx] Hx0. rewrite (W10 q x y Hx Hx0).
    split; intros (u & Hu & Eu); exists u; (split; [|done]).
    + apply lookup_delete_Some. split; [|done]. intros <-. congruence.
    + by apply lookup_delete_Some in Hu as [_ Hu].
  - intros y u. unfold V'. rewrite lookup_delete_Some. intros [Hne Hu]. destruct (W11 y u Hu) as (H1 & H2 & H3). split_and!; try done.
    + intros H. destruct (H2 H) as (? & q & Ho). split; [done|]. exists q. apply HO. eauto.
    + intros H. destruct (H3 H) as [? [x Hx]]. split; [done|]. exists x. apply lookup_delete_Some. split; [|done].
      intros E. apply Hne. assert (owns V Q (v_sq u) (OfThread y)) as O' by (by exists u).
      rewrite <- E in O'. by pose proof (W6 _ _ _ O O') as [= ->].
  - unfold V'. rewrite map_size_delete_Some by (by eexists). lia.
Qed.

Lemma sched_delete_inv s td t :
  sched_inv s -> threads s !! td = Some t -> td_state t <> TDS_READY -> td_state t <> TDS_RUNNING ->
  sched_inv (set_threads (delete td (threads s)) s).
Proof.
  intros [Q Hp (c & Hc & Hs) Hr (i & Hi & His) Hm] Ht H1 H2.
  split; cbn [set_threads threads runq curthread idle_thread]; try done.
  - apply (queues_ext _ _ Q). intros x b _. unfold ready. cbn. split; intros (u & Hu & HH); exists u; (split; [|done]).
    + by apply lookup_delete_Some in Hu as [_ Hu].
    + apply lookup_delete_Some. split; [|done]. intros <-. destruct HH. congruence.
  - intros x u. rewrite lookup_delete_Some. intros [_ Hu]. by apply (Hp x).
  - exists c. split; [|done]. apply lookup_delete_Some. split; [|done]. intros ->. destruct Hs as [|[_ ?]]; congruence.
  - intros x u. rewrite lookup_delete_Some. intros [_ Hu]. by apply Hr.
  - exists i. split; [|done]. apply lookup_delete_Some. split; [|done]. intros ->. destruct His; congruence.
Qed.

Lemma thread_create_inv k td prio sq ts :
  kern_inv k -> threads (sch k) !! td = None -> 0 <= prio < 256 -> sqs k !! sq = None -> sq <> 0 ->
  Z.of_nat (size (threads (sch k))) + 1 < 2 ^ 32 -> (co (slpcallouts k) !! td = None \/ idle (slpcallouts k) td) ->
  kern_inv (thread_create k td prio sq ts).
Proof.
  intros K Ht Hp Hsq Hn0 Hsz Hc. pose proof K as [I W Ic It Ico If In]. unfold thread_create.
  set (t := set_td_turnstile ts _). set (s1 := set_threads (<[td := t]> (threads (sch k))) (sch k)).
  assert (views s1 = <[td := Wview 0 0 sq false false false]> (views (sch k))) as Ev
    by (by rewrite (views_insert (sch k) s1 td t)).
  assert (views (sch k) !! td = None) as Hv by (unfold views; by rewrite lookup_fmap, Ht).
  assert (frames k !! td = None) as Hf.
  { destruct (frames k !! td) as [f|] eqn:E; [|done]. destruct (If td f E) as (v & ? & _). congruence. }
  assert (sched_inv s1) as I1.
  { destruct (sched_step_inv (fun s _ _ => Ok s) (sch k) (Spawn td prio) I) as (s' & [= <-] & I'); [done|].
    pose proof (upd_inv _ td (new_thread prio) t I' (lookup_insert_eq _ _ _) eq_refl eq_refl Hp) as I2.
    unfold set_threads in I2 at 1. cbn in I2. by rewrite insert_insert_eq in I2. }
  match goal with |- kern_inv ?a => set (k' := a); assert (sch k' = s1) as Es by done end.
  split; rewrite ?Es, ?Ev; try done; unfold k';
    cbn [sleepq_alloc put_sq set_slpcallouts set_sch set_sqs sch slpcallouts systime frames callout_setup put last co].
  - unfold queues_of. cbn. apply create_waits; try done. unfold views. by rewrite map_size_fmap.
  - apply setup_inv; [done|]. intros c Hcc. destruct Hc as [Hc|(c' & Hc' & ? & ?)]; [congruence|]. by simplify_eq.
  - intros x v. rewrite lookup_insert_Some. intros [[<- _]|[_ Hx]]; apply lookup_insert_is_Some'; [by left|right; eauto].
  - intros x f Hx. rewrite lookup_insert_ne by congruence. by apply If.
  - intros x v. rewrite lookup_insert_Some. intros [[<- <-]|[_ Hx]] Hfx; [done|]. by apply (In x).
Qed.

Lemma thread_delete_inv k td t :
  kern_inv k -> threads (sch k) !! td = Some t -> td_state t = TDS_DEAD -> td_turnstile t <> 0 ->
  frames k !! td = None -> exists k', thread_delete k td = Ok k' /\ kern_inv k'.
Proof.
  intros K Ht Hst Hts Hf. pose proof K as [I W Ic It Ico If In].
  assert (views (sch k) !! td = Some (wview_of t)) as Hv by (apply views_lookup; eauto).
  destruct (In td _ Hv Hf) as (Hw & _). destruct (awake_queue _ _ _ W td _ Hv Hw) as (Hn0 & _). cbn in Hw, Hn0.
  unfold thread_delete. rewrite (thr_some _ td t) by done. cbn [mbind outcome_bind].
  unfold td_is_dead, td_is. rewrite bool_decide_true by done. assert_step ltac:(done). do 2 assert_step lia.
  eexists. split; [done|]. cbn [sleepq_destroy set_sqs sch].
  set (s1 := set_threads (delete td (threads (sch k))) (sch k)).
  assert (views s1 = delete td (views (sch k))) as Ev by (unfold views, s1; cbn; apply fmap_delete).
  split; cbn [sleepq_destroy set_sch set_sqs sch slpcallouts systime frames]; try done; rewrite ?Ev.
  - apply (sched_delete_inv (sch k) td t); try done; congruence.
  - unfold queues_of. cbn. by apply (delete_waits _ _ _ td (wview_of t)).
  - intros x v. rewrite lookup_delete_Some. intros [_ Hx]. by eapply Ico.
  - intros x f Hx. rewrite lookup_delete_ne by congruence. by apply If.
  - intros x v. rewrite lookup_delete_Some. intros [_ Hx]. by apply (In x).
Qed.

(** A step of the callouts that loses none. *)
Lemma callouts_step_inv k c :
  kern_inv k -> callouts_inv c -> last c <= systime k ->
  (forall x : Z, is_Some (co (slpcallouts k) !! x) -> is_Some (co c !! x)) -> kern_inv (set_slpcallouts c k).
Proof.
  intros [I W Ic It Ico If In] Ic' Hl Hd.
  split; cbn [set_slpcallouts sch slpcallouts systime frames]; try done; [lia|]. intros td v Hv. by eapply Hd, Ico.
Qed.

(** ** Interleavings *)

(** What happens in the system: threads are created and deleted, the current thread goes to
    sleep or returns from a wait, threads are woken by a thread or an interrupt, the
    clock calls [callout_process], and the callout thread takes a callout, calls its
    function ([KTimeout]) and is done with it. *)
Inductive kern_event :=
| KCreate (td prio sq ts : Z)
| KDelete (td : Z)
| KSched (e : sched_event)
| KWait (wchan waitpt caller : Z)
| KTimedWait (wchan waitpt caller timeout : Z)
| KReturn
| KSignal (wchan : Z)
| KBroadcast (wchan : Z)
| KAbort (td : Z)
| KTimeout (td : Z)
| KClock (now : Z)
| KTake
| KDone.

Definition kern_step (adjust : sched -> Z -> Z -> outcome sched) k (e : kern_event) : outcome kern :=
  match e with
  | KCreate td prio sq ts => Ok (thread_create k td prio sq ts)
  | KDelete td => thread_delete k td
  | KSched e => on_sch k (fun s => sched_step adjust s e)
  | KWait w wp caller => sleepq_wait k w wp caller
  | KTimedWait w wp caller timeout => '(_, k) ← sleepq_wait_timed k w wp caller timeout; Ok k
  | KReturn => '(_, k) ← wait_return k; Ok k
  | KSignal w => '(_, k) ← sleepq_signal k w; Ok k
  | KBroadcast w => '(_, k) ← sleepq_broadcast k w; Ok k
  | KAbort td => '(_, k) ← sleepq_abort k td; Ok k
  | KTimeout td => sq_timeout k td
  | KClock now =>
      c ← callout_process (slpcallouts k) now;
      Ok (set_systime now (set_slpcallouts c k))
  | KTake => c ← callout_thread_take (slpcallouts k); Ok (set_slpcallouts c k)
  | KDone => '(_, c) ← callout_thread_done (slpcallouts k); Ok (set_slpcallouts c k)
  end.

(** The callers' side: addresses of new objects are fresh; a dead thread has its turnstile
    back; only threads other than the idle one sleep, on a channel that is not null, and
    not before they have returned from the last wait; a thread starts a timed wait when
    its last timeout is neither pending nor being run; time goes on, by other than 64
    ticks. *)
Definition kern_event_ok k (e : kern_event) : Prop :=
  match e with
  | KCreate td prio sq ts => threads (sch k) !! td = None /\ 0 <= prio < 256 /\ sqs k !! sq = None /\ sq <> 0 /\
      Z.of_nat (size (threads (sch k))) + 1 < 2 ^ 32 /\
      (co (slpcallouts k) !! td = None \/ idle (slpcallouts k) td)
  | KDelete td => exists t, threads (sch k) !! td = Some t /\ td_state t = TDS_DEAD /\ td_turnstile t <> 0 /\
      frames k !! td = None
  | KSched e => sched_event_ok (sch k) e /\ keeps_waits (sch k) e
  | KWait w _ _ => w <> 0 /\ curthread (sch k) <> idle_thread (sch k) /\ frames k !! curthread (sch k) = None
  | KTimedWait w _ _ timeout => w <> 0 /\ curthread (sch k) <> idle_thread (sch k) /\
      frames k !! curthread (sch k) = None /\ 0 <= timeout /\ systime k + timeout < 2 ^ 32 /\
      (0 < timeout -> idle (slpcallouts k) (curthread (sch k)))
  | KAbort td | KTimeout td => is_Some (threads (sch k) !! td)
  | KClock now => systime k <= now < 2 ^ 32 /\ event_ok (slpcallouts k) (Process now)
  | KTake => running (slpcallouts k) = None
  | _ => True
  end.

Lemma callout_clock_inv k now :
  kern_inv k -> systime k <= now < 2 ^ 32 -> event_ok (slpcallouts k) (Process now) ->
  exists k', (c ← callout_process (slpcallouts k) now; Ok (set_systime now (set_slpcallouts c k))) = Ok k' /\
    kern_inv k'.
Proof.
  intros K Ht (H1 & H2 & H3). pose proof K as [I W Ic It Ico If In].
  destruct (process_spec _ now Ic H1 H2 H3) as (c & ds & -> & Ic' & Hl & _ & _ & _ & Hco). cbn [mbind outcome_bind].
  eexists. split; [done|]. split; cbn [set_systime set_slpcallouts sch slpcallouts systime frames]; try done; [lia|].
  intros td v Hv. rewrite Hco. apply fmap_is_Some. by eapply Ico.
Qed.

Lemma callout_thread_inv k :
  kern_inv k ->
  (running (slpcallouts k) = None ->
    exists c, callout_thread_take (slpcallouts k) = Ok c /\ kern_inv (set_slpcallouts c k)) /\
  (exists r c, callout_thread_done (slpcallouts k) = Ok (r, c) /\ kern_inv (set_slpcallouts c k)).
Proof.
  intros K. pose proof (ki_time _ K) as It. pose proof (ki_callouts _ K) as Ic. split.
  - intros Hr. destruct (delegated (slpcallouts k)) as [|h l] eqn:Hd.
    + exists (slpcallouts k). unfold callout_thread_take. rewrite Hd. split; [done|]. by apply callouts_step_inv; [|..|lia|].
    + destruct (take_inv _ h l Ic Hr Hd) as [-> Ic']. eexists. split; [done|]. by apply callouts_step_inv; [|..|cbn; lia|].
  - destruct (running (slpcallouts k)) as [h|] eqn:Hr.
    + destruct (ci_running _ Ic h Hr) as (c & Hc & _). destruct (done_inv _ h c Ic Hr Hc) as [-> Ic'].
      eexists _, _. split; [done|]. apply callouts_step_inv; [done|done|cbn; lia|].
      intros x Hx. cbn. by apply lookup_insert_is_Some'; right.
    + exists false, (slpcallouts k). unfold callout_thread_done. rewrite Hr. split; [done|].
      by apply callouts_step_inv; [|..|lia|].
Qed.

Lemma kern_step_inv adjust k e :
  kern_inv k -> kern_event_ok k e -> exists k', kern_step adjust k e = Ok k' /\ kern_inv k'.
Proof.
  intros K He. destruct e as [td p sq ts|td|e|w wp ca|w wp ca n| |w|w|td|td|now| |]; cbn [kern_step kern_event_ok] in *.
  - destruct He as (H1 & H2 & H3 & H4 & H5 & H6). eexists. split; [done|]. by apply thread_create_inv.
  - destruct He as (t & H1 & H2 & H3 & H4). by apply (thread_delete_inv k td t).
  - destruct He as [He Hk]. destruct (sched_step_views adjust (sch k) e (ki_sched _ K) He Hk) as (s' & E & Ev).
    destruct (sched_step_inv adjust (sch k) e (ki_sched _ K) He) as (s'' & E' & I'). unfold on_sch. rewrite E.
    assert (s'' = s') as -> by congruence. eexists. split; [done|]. by apply same_views_inv.
  - destruct He as (H1 & H2 & H3). destruct (sleepq_wait_inv k w wp ca K H1 H2 H3) as (k' & E & K' & _). eauto.
  - destruct He as (H1 & H2 & H3 & H4 & H5 & H6).
    destruct (sleepq_wait_timed_inv k w wp ca n K H1 H2 H3 H4 H5 H6) as (r & k' & -> & K' & _). eauto.
  - destruct (si_self _ (ki_sched _ K)) as (t & Ht & _).
    destruct (wait_return_spec k (wview_of t) K) as (k' & -> & K' & _); [apply views_lookup; eauto|]. eauto.
  - destruct (signal_spec k w K) as [[-> _]|(q & x & td & l1 & l2 & own & k' & -> & K' & _)]; eauto.
  - destruct (broadcast_spec k w K) as [[-> _]|(k' & -> & K' & _)]; eauto.
  - destruct He as [t Ht]. destruct (abort_spec k td (wview_of t) EINTR K) as (r & k' & E & K' & _);
      [apply views_lookup; eauto|]. unfold sleepq_abort. rewrite E. eauto.
  - destruct He as [t Ht]. destruct (abort_spec k td (wview_of t) ETIMEDOUT K) as (r & k' & E & K' & _);
      [apply views_lookup; eauto|]. unfold sq_timeout. rewrite E. eauto.
  - destruct He as [H1 H2]. by apply callout_clock_inv.
  - destruct (callout_thread_inv k K) as [HT _]. destruct (HT He) as (c & -> & K'). eauto.
  - destruct (callout_thread_inv k K) as [_ (r & c & -> & K')]. eauto.
Qed.

(** ** Theorems *)

Fixpoint kern_run adjust k (es : list kern_event) : outcome kern :=
  match es with [] => Ok k | e :: es => k ← kern_step adjust k e; kern_run adjust k es end.

Fixpoint kern_events_ok adjust k (es : list kern_event) : Prop :=
  match es with
  | [] => True
  | e :: es => kern_event_ok k e /\ forall k', kern_step adjust k e = Ok k' -> kern_events_ok adjust k' es
  end.

Lemma kern_run_inv adjust es : forall k,
  kern_inv k -> kern_events_ok adjust k es -> exists k', kern_run adjust k es = Ok k' /\ kern_inv k'.
Proof.
  induction es as [|e es IH]; intros k K Hes; [by exists k|]. destruct Hes as [He Hes].
  destruct (kern_step_inv adjust k e K He) as (k1 & E1 & K1). cbn [kern_run]. rewrite E1. apply IH; [done|]. by apply Hes.
Qed.

(** C8: In every interleaving of threads that sleep, with and without timeout, wake each
    other up, are interrupted, created and deleted, with the clock and the callout thread,
    no assertion of the sleep queues, the scheduler or the callouts fails, and the
    invariant holds: every thread that sleeps is on the queue of its channel, each
    channel has one queue, and every thread that is awake has a queue of its own.  The
    callers' side, [kern_event_ok]: new threads have new addresses, and threads are deleted
    when they are dead and have their turnstile; the running thread, if it is not the idle one,
    sleeps on a channel that is not null after it has returned from its last wait, and
    with a timeout only if that of its last wait is neither pending nor being run; the clock
    moves on by other than 64 ticks, below [2 ^ 32]. *)
Theorem sleepq_consistent adjust k es :
  kern_inv k -> kern_events_ok adjust k es -> exists k', kern_run adjust k es = Ok k' /\ kern_inv k'.
Proof. apply kern_run_inv. Qed.

Lemma waits_insert k k' td own a b :
  views (sch k') = <[td := Wview 0 0 own false a b]> (views (sch k)) ->
  forall w y, waits k' w y <-> waits k w y /\ y <> td.
Proof.
  intros E w y. unfold waits. rewrite E. destruct (decide (y = td)) as [->|].
  - rewrite lookup_insert_eq. split; [|by intros [_ ?]]. by intros (v & [= <-] & <- & ?).
  - rewrite lookup_insert_ne by done. naive_solver.
Qed.

(** C30: A signal on a channel on which no thread waits has no effect and returns false.
    Otherwise it wakes exactly one thread: of those with the highest priority, the one
    that has waited longest; all others wait on.  A broadcast wakes all threads that wait
    on the channel and no other. *)
Theorem sleepq_signal_correct k w :
  kern_inv k ->
  (sleepq_signal k w = Ok (false, k) /\ sleepq_broadcast k w = Ok (false, k) /\ forall td, ~ waits k w td) \/
  (exists q x td l1 l2 k', sleepq_signal k w = Ok (true, k') /\ kern_inv k' /\
     sqs k !! q = Some x /\ (forall y, y ∈ sq_blocked x <-> waits k w y) /\ sq_blocked x = l1 ++ td :: l2 /\
     (forall y, y ∈ l1 -> prio_of k td < prio_of k y) /\ (forall y, y ∈ l2 -> prio_of k td <= prio_of k y) /\
     forall w' y, waits k' w' y <-> waits k w' y /\ y <> td) /\
  (exists k', sleepq_broadcast k w = Ok (true, k') /\ kern_inv k' /\
     forall w' y, waits k' w' y <-> waits k w' y /\ w' <> w).
Proof.
  intros K. destruct (signal_spec k w K) as [[E1 Hno]|(q & x & td & l1 & l2 & own & k' & E & K' & Hx & Exw & Hw & Eb & H1 & H2 & Ev & _)].
  { left. split_and!; try done. destruct (broadcast_spec k w K) as [[-> _]|(k' & _ & _ & _ & (td & Htd) & _)]; [done|].
    by destruct (Hno td). }
  assert (forall y, y ∈ sq_blocked x <-> waits k w y) as Hbl by (intros y; by apply (waits_blocked k w q x)).
  right. split.
  - exists q, x, td, l1, l2, k'. split_and!; try done. by apply (waits_insert k k' td own false false).
  - destruct (broadcast_spec k w K) as [[_ Hno]|(k2 & E2 & K2 & _ & _ & Hout & Hin)].
    { exfalso. apply (Hno td), Hbl. rewrite Eb. set_solver. }
    exists k2. split_and!; try done. intros w' y. unfold waits at 1 2. destruct (decide (w' = w)) as [->|Hne].
    + split; [|by intros [_ ?]]. intros (v & Hv & Evw & Hw0). exfalso.
      assert (~ waits k w y) as Hny. { intros Hy. destruct (Hin y Hy) as [o Ho]. rewrite Ho in Hv. by simplify_eq. }
      apply Hny. rewrite Hout in Hv by done. by exists v.
    + split; [intros (v & Hv & Evw & Hw0)|intros [(v & Hv & Evw & Hw0) _]].
      * split; [|done]. exists v. rewrite Hout in Hv; [done|]. intros Hy. destruct (Hin y Hy) as [o Ho].
        rewrite Ho in Hv. by simplify_eq.
      * exists v. rewrite Hout; [done|]. intros (u & Hu & Eu & _). congruence.
Qed.

(** The reason that an event gives to a thread it wakes. *)
Definition wake_reason (e : kern_event) : Z :=
  match e with KAbort _ => EINTR | KTimeout _ => ETIMEDOUT | _ => 0 end.

(** What a step does to a thread in the middle of a wait that does not return: nothing, or
    the thread is woken and its flags tell why. *)
Definition step_effect k td (f : frame) (v : wview) e k' : Prop :=
  frames k' !! td = Some f /\
  (views (sch k') !! td = Some v \/
   v_wchan v <> 0 /\ exists own a b, views (sch k') !! td = Some (Wview 0 0 own false a b) /\
     reason (Wview 0 0 own false a b) = wake_reason e).

Section effect.
Context (k k' : kern) (td : Z) (f : frame) (v : wview).
Hypothesis K : kern_inv k.
Hypothesis Hf : frames k !! td = Some f.
Hypothesis Hv : views (sch k) !! td = Some v.

Lemma same_effect e : frames k' = frames k -> views (sch k') = views (sch k) -> step_effect k td f v e k'.
Proof. intros E1 E2. split; [by rewrite E1|]. left. by rewrite E2. Qed.

(** Another thread changes. *)
Lemma other_effect e y u g : y <> td -> (frames k' = frames k \/ frames k' = <[y := g]> (frames k)) ->
  views (sch k') = <[y := u]> (views (sch k)) -> step_effect k td f v e k'.
Proof.
  intros Hne E1 E2. split.
  - destruct E1 as [-> | ->]; [done|]. by rewrite lookup_insert_ne.
  - left. by rewrite E2, lookup_insert_ne.
Qed.

Lemma abort_effect e y u r wakeup :
  views (sch k) !! y = Some u -> _sleepq_abort k y wakeup = Ok (r, k') -> wakeup = wake_reason e ->
  (wakeup = EINTR \/ wakeup = ETIMEDOUT) -> step_effect k td f v e k'.
Proof.
  intros Hu E Hr Hw. destruct (abort_spec k y u wakeup K Hu) as (r' & k1 & E' & _ & Hfr & HS).
  assert (k1 = k') as -> by congruence. destruct (Z.eqb_spec (v_wchan u) 0) as [_|Hne].
  { destruct HS. by apply same_effect. }
  destruct (wake_flags wakeup u) as [[a b]|] eqn:Ef; [|by destruct HS; apply same_effect].
  destruct HS as (_ & own & Ev). destruct (decide (y = td)) as [->|Hy].
  - split; [by rewrite Hfr|]. right. assert (u = v) as -> by congruence. split; [done|].
    exists own, a, b. split; [by rewrite Ev, lookup_insert_eq|]. rewrite <- Hr. revert Ef. unfold wake_flags, reason. cbn.
    destruct Hw as [-> | ->]; cbn; destruct (v_intr v), (v_timed v); by intros [= <- <-].
  - eapply (other_effect e y _ InWait); [done|by left|done].
Qed.
End effect.

Lemma kern_step_effect adjust k e k' td f v :
  kern_inv k -> kern_event_ok k e -> kern_step adjust k e = Ok k' ->
  frames k !! td = Some f -> views (sch k) !! td = Some v -> (e = KReturn -> curthread (sch k) <> td) ->
  step_effect k td f v e k'.
Proof.
  intros K He E Hf Hv Hret.
  destruct e as [y p sq ts|y|e|w wp ca|w wp ca n| |w|w|y|y|now| |]; cbn [kern_step kern_event_ok] in *.
  - injection E as <-. destruct He as (Hy & _). assert (y <> td) as Hne.
    { intros ->. apply views_lookup in Hv as (t & Ht & _). congruence. }
    split; [done|]. left. unfold views. cbn. rewrite lookup_fmap, lookup_insert_ne by done. by rewrite <- lookup_fmap.
  - destruct He as (t & Ht & _ & _ & Hfy). assert (y <> td) as Hne by congruence.
    unfold thread_delete in E. outcome_inv. split; [done|]. left. unfold views. cbn.
    rewrite lookup_fmap, lookup_delete_ne by done. by rewrite <- lookup_fmap.
  - destruct He as [He Hk]. destruct (sched_step_views adjust (sch k) e (ki_sched _ K) He Hk) as (s' & E' & Ev).
    unfold on_sch in E. rewrite E' in E. injection E as <-. by apply same_effect.
  - destruct He as (H1 & H2 & H3). destruct (sleepq_wait_inv k w wp ca K H1 H2 H3) as (k1 & E' & _ & Ev & Hfr).
    assert (k1 = k') as -> by congruence. eapply (other_effect k k' td f v Hf Hv _ (curthread (sch k)) _ InWait); [congruence|by right|done].
  - destruct He as (H1 & H2 & H3 & H4 & H5 & H6).
    destruct (sleepq_wait_timed_inv k w wp ca n K H1 H2 H3 H4 H5 H6) as (r & k1 & E' & _ & Hn & Hs). rewrite E' in E.
    injection E as <-. destruct r as [r|].
    + destruct Hs as (_ & _ & ->); [done|]. by apply same_effect.
    + destruct (Hn eq_refl) as [Ev Hfr].
      eapply (other_effect k k1 td f v Hf Hv _ (curthread (sch k)) _ (InTimedWait n)); [congruence|by right|done].
  - destruct (si_self _ (ki_sched _ K)) as (t & Ht & _).
    destruct (wait_return_spec k (wview_of t) K) as (k1 & E' & _ & Hfr & Ev); [apply views_lookup; eauto|].
    rewrite E' in E. injection E as <-. specialize (Hret eq_refl). split.
    + by rewrite Hfr, lookup_delete_ne.
    + left. by rewrite Ev, lookup_insert_ne.
  - destruct (signal_spec k w K) as [[E' _]|(q & x & y & l1 & l2 & own & k1 & E' & K' & Hx & Exw & Hw & Eb & _ & _ & Ev & Hfr)];
      rewrite E' in E; injection E as <-; [by apply same_effect|].
    destruct (decide (y = td)) as [->|Hy].
    + split; [by rewrite Hfr|]. right. split.
      * assert (waits k w td) as (u & Hu & Eu & _).
        { apply (waits_blocked k w q x td K Hx Exw Hw). rewrite Eb. set_solver. }
        congruence.
      * exists own, false, false. split; [by rewrite Ev, lookup_insert_eq|done].
    + eapply (other_effect k k1 td f v Hf Hv _ y _ InWait); [done|by left|done].
  - destruct (broadcast_spec k w K) as [[E' _]|(k1 & E' & _ & Hfr & _ & Hout & Hin)]; rewrite E' in E; injection E as <-;
      [by apply same_effect|]. split; [by rewrite Hfr|].
    destruct (decide (v_wchan v = w /\ w <> 0)) as [[<- Hw]|Hnw].
    + right. split; [done|]. destruct (Hin td) as [own Ho]; [by exists v|]. by exists own, false, false.
    + left. rewrite Hout; [done|]. intros (u & Hu & Eu & Hw). apply Hnw. split; congruence.
  - destruct He as [t Ht]. unfold sleepq_abort in E. apply bind_ok in E as ([r k1] & E & [= <-]).
    eapply (abort_effect k k1 td f v K Hf Hv _ y (wview_of t) r EINTR); [apply views_lookup; eauto|done|done|by left].
  - destruct He as [t Ht]. unfold sq_timeout in E. apply bind_ok in E as ([r k1] & E & [= <-]).
    eapply (abort_effect k k1 td f v K Hf Hv _ y (wview_of t) r ETIMEDOUT); [apply views_lookup; eauto|done|done|by right].
  - apply bind_ok in E as (c & _ & [= <-]). by apply same_effect.
  - apply bind_ok in E as (c & _ & [= <-]). by apply same_effect.
  - apply bind_ok in E as ([r c] & _ & [= <-]). by apply same_effect.
Qed.

(** The thread [td] does not return from its wait in these steps. *)
Fixpoint stays_in_wait adjust k (es : list kern_event) td : Prop :=
  match es with
  | [] => True
  | e :: es => (e = KReturn -> curthread (sch k) <> td) /\
      forall k', kern_step adjust k e = Ok k' -> stays_in_wait adjust k' es td
  end.

Lemma woken_stays adjust es : forall k k' td f v,
  kern_inv k -> kern_events_ok adjust k es -> stays_in_wait adjust k es td -> kern_run adjust k es = Ok k' ->
  frames k !! td = Some f -> views (sch k) !! td = Some v -> v_wchan v = 0 ->
  kern_inv k' /\ frames k' !! td = Some f /\ views (sch k') !! td = Some v.
Proof.
  induction es as [|e es IH]; intros k k' td f v K Hok Hst Hrun Hf Hv Hw; [injection Hrun as <-; done|].
  destruct Hok as [He Hok], Hst as [Hr Hst]. cbn [kern_run] in Hrun. apply bind_ok in Hrun as (k1 & E & Hrun).
  destruct (kern_step_inv adjust k e K He) as (k1' & E' & K1). assert (k1' = k1) as -> by congruence.
  destruct (kern_step_effect adjust k e k1 td f v K He E Hf Hv Hr) as [Hf1 [Hv1|[? _]]]; [|done].
  apply (IH k1 k' td f v); auto.
Qed.

(** C31: A thread that waits, with or without timeout, and is woken by some event learns the
    reason when it returns, whatever happens in between: [EINTR] if it was interrupted,
    [ETIMEDOUT] if the time was over, 0 if it was woken by a signal or a broadcast. *)
Theorem sleepq_wait_reason adjust k td f w e k1 es k2 :
  kern_inv k -> frames k !! td = Some f -> waits k w td -> kern_event_ok k e -> kern_step adjust k e = Ok k1 ->
  (forall w', ~ waits k1 w' td) -> kern_events_ok adjust k1 es -> stays_in_wait adjust k1 es td ->
  kern_run adjust k1 es = Ok k2 -> curthread (sch k2) = td ->
  exists k3, wait_return k2 = Ok (wake_reason e, k3) /\ kern_inv k3.
Proof.
  intros K Hf (v & Hv & Hvw & Hw) He E Hno Hes Hst Hrun Hcur.
  destruct (kern_step_inv adjust k e K He) as (k1' & E' & K1). assert (k1' = k1) as -> by congruence.
  destruct (kern_step_effect adjust k e k1 td f v K He E Hf Hv) as [Hf1 [Hv1|(_ & own & a & b & Hv1 & Hr)]].
  - intros ->. intros <-. apply views_lookup in Hv as (t & Ht & ->).
    pose proof (self_awake _ _ (ki_sched _ K) Ht) as Hna. apply Hna.
    destruct (wo_view _ _ _ (ki_waits _ K) (curthread (sch k)) (wview_of t)) as (Hs & _); [apply views_lookup; eauto|].
    apply (bool_decide_eq_true (td_state t = TDS_SLEEPING)), Hs. by rewrite Hvw.
  - exfalso. apply (Hno w). by exists v.
  - destruct (woken_stays adjust es k1 k2 td f _ K1 Hes Hst Hrun Hf1 Hv1 eq_refl) as (K2 & Hf2 & Hv2).
    rewrite <- Hcur in Hv2. destruct (wait_return_spec k2 _ K2 Hv2) as (k3 & E3 & K3 & _). exists k3.
    split; [|done]. by rewrite E3, Hr.
Qed.

(** ** A system in which two threads wait *)

Lemma empty_waits : waits_ok ∅ ∅ init_sleepq.
Proof.
  assert (forall q o, ~ owns ∅ ∅ q o) as Hno by (intros q [y|p|w] (u & Hu & _); by rewrite lookup_empty in Hu).
  split; try done.
  - intros i l Hi. apply lookup_replicate in Hi as [-> _]. constructor.
  - intros i l q Hi. apply lookup_replicate in Hi as [-> _]. split; [by intros ?%not_elem_of_nil|].
    intros (w & Ho & _). by apply Hno in Ho.
  - intros q o Ho. by apply Hno in Ho.
  - intros q o o' Ho. by apply Hno in Ho.
  - intros q q' w Ho. by apply Hno in Ho.
Qed.

Definition boot_thread0 : thread := set_td_sleepqueue 101 (set_td_state TDS_RUNNING (new_thread 255)).

Definition boot_kern : kern :=
  Kern (set_threads {[1 := boot_thread0]} boot_sched) {[101 := sq_ctor]} init_sleepq
    (callout_setup init_callout 1) 0 ∅.

Lemma boot_views : views (sch boot_kern) = <[1 := Wview 0 0 101 false false false]> ∅.
Proof. by vm_compute. Qed.

Lemma boot_kern_inv : kern_inv boot_kern.
Proof.
  split; rewrite ?boot_views; try done.
  - pose proof (upd_inv boot_sched 1 (set_td_state TDS_RUNNING (new_thread 255)) boot_thread0 boot_inv) as I.
    by apply I.
  - by apply create_waits; [exact empty_waits|..].
  - apply setup_inv; [exact init_inv|]. done.
  - intros td v. rewrite lookup_insert_Some. intros [[<- _]|[_ Hv]]; [eexists; by vm_compute|by rewrite lookup_empty in Hv].
  - intros td v. rewrite lookup_insert_Some. intros [[<- <-]|[_ Hv]] _; [done|by rewrite lookup_empty in Hv].
Qed.

Definition two_waiters : list kern_event :=
  [KCreate 2 100 102 202; KCreate 3 90 103 203; KSched (Wakeup 2 0); KSched (Wakeup 3 0);
   KSched MaybePreempt; KTimedWait 1000 0 77 5; KTimedWait 1000 0 78 0].

(** The conditions on events, on concrete states. *)
Ltac event_steps :=
  repeat (split; [|intros ? HH; vm_compute in HH; injection HH as <-]); try done.

Lemma two_waiters_ok : kern_events_ok no_adjust boot_kern two_waiters.
Proof.
  cbn [kern_events_ok two_waiters]. event_steps.
  - cbn. split_and!; try done; try lia. by left.
  - cbn. split_and!; try done; try lia. by left.
  - eexists. split; [by vm_compute|done].
  - eexists. split; [by vm_compute|done].
  - cbn. split_and!; try done. intros _. eexists. split; [by vm_compute|done].
Qed.

(** Thread 3 waits with a timeout of 5 ticks, thread 2 without one; thread 1 idles. *)
Definition waiting_kern : kern :=
  match kern_run no_adjust boot_kern two_waiters with Ok k => k | _ => boot_kern end.

Lemma waiting_kern_inv : kern_inv waiting_kern.
Proof.
  destruct (kern_run_inv no_adjust two_waiters boot_kern boot_kern_inv two_waiters_ok) as (k & E & K).
  unfold waiting_kern. by rewrite E.
Qed.

Lemma sleepq_consistent_witness :
  exists k, kern_run no_adjust boot_kern two_waiters = Ok k /\ kern_inv k.
Proof. exact (sleepq_consistent no_adjust boot_kern two_waiters boot_kern_inv two_waiters_ok). Defined.

Lemma sleepq_signal_correct_witness :
  exists k', sleepq_broadcast waiting_kern 1000 = Ok (true, k') /\ kern_inv k'.
Proof.
  destruct (sleepq_signal_correct waiting_kern 1000 waiting_kern_inv) as [(_ & _ & Hno)|[_ (k' & E & K' & _)]].
  - destruct (Hno 2). eexists. split; [by vm_compute|done].
  - exists k'. exact (conj E K').
Defined.

Definition timed_out : kern := match sq_timeout waiting_kern 3 with Ok k => k | _ => waiting_kern end.

Lemma sleepq_wait_reason_witness : exists k3, wait_return timed_out = Ok (ETIMEDOUT, k3) /\ kern_inv k3.
Proof.
  apply (sleepq_wait_reason no_adjust waiting_kern 3 (InTimedWait 5) 1000 (KTimeout 3) timed_out [] timed_out).
  - exact waiting_kern_inv.
  - by vm_compute.
  - eexists. split; [by vm_compute|done].
  - cbn. eexists. by vm_compute.
  - by vm_compute.
  - intros w (v & Hv & Ew & Hw). vm_compute in Hv. injection Hv as <-. done.
  - done.
  - done.
  - done.
  - by vm_compute.
Defined.

(** ** What modelling showed *)

(** The timeout of thread 3 is due and its callout waits for the callout thread; the thread is
    woken by a signal, [callout_stop] comes too late, and the next timed wait sets the
    callout up again: the callout thread then finds a callout that is not active. *)
Lemma timeout_reused_while_queued :
  kern_run no_adjust waiting_kern
    [KClock 5; KSignal 1000; KReturn; KTimedWait 1000 0 77 5; KTake] = Fault AssertFailed.
Proof. by vm_compute. Qed.

(** If the callout thread has already taken the callout, the late timeout ends the next
    wait of the thread, long before its time. *)
Lemma late_timeout_ends_next_wait :
  exists k k', kern_run no_adjust waiting_kern
      [KClock 5; KTake; KSignal 1000; KReturn; KTimedWait 2000 0 77 500; KTimeout 3] = Ok k /\
    systime k = 5 /\ wait_return k = Ok (ETIMEDOUT, k').
Proof. eexists _, _. split; [by vm_compute|]. split; by vm_compute. Qed.

(** A thread in a timed wait is not interrupted. *)
Lemma timed_wait_not_interruptible :
  exists k', sleepq_abort waiting_kern 3 = Ok (false, k') /\ waits k' 1000 3.
Proof. eexists. split; [by vm_compute|]. eexists. split; [by vm_compute|done]. Qed.
