(* ===== verification/Physmem.v ===== *)
(** * Physical memory (sys/kern/vm_physmem.c, include/sys/vm.h)

    A buddy allocator over segments of page frames: free blocks of [2 ^ k] pages are on the
    [k]-th of sixteen free lists; an allocation takes a block from the first list that
    has one and splits it down, a release merges the block with its buddy as long as that
    is free.  The results: with segments smaller than [2 ^ 16] pages, no operation fails
    an assertion or touches memory outside its arrays; blocks handed out are disjoint and
    of the requested size, a request is refused only if no block can satisfy it; releases
    bring back exactly the block; the collection of [n] pages from blocks of all sizes
    terminates with exactly [n] pages whenever that many are free; and the initial
    configuration covers every page frame of the segments. *)

From S2P Require Import Prelude.

Definition PM_NQUEUES : Z := 16.
Definition VM_PHYSSEG_NMAX : Z := 16.

Definition PG_ALLOCATED : Z := 0x01.
Definition PG_MANAGED : Z := 0x02.
Definition PG_REFERENCED : Z := 0x04.
Definition PG_MODIFIED : Z := 0x08.

(** [pv_empty] tells that the list of mappings is empty. *)
Record vm_page := Page {
  paddr : Z;
  flags : Z;
  pg_size : Z;
  pv_empty : bool;
}.

(** [seg_pages] is the index of the segment's first page in the array of all pages. *)
Record vm_physseg := Physseg {
  seg_start : Z;
  seg_end : Z;
  npages : Z;
  used : bool;
  seg_pages : Z;
}.

#[export] Instance vm_physseg_eq_dec : EqDecision vm_physseg.
Proof. solve_decision. Defined.

(** Pages are known by their index in the array of all pages. *)
Record physmem := Physmem {
  seglist : list vm_physseg;
  freelist : list (list Z);
  pagecount : list Z;
  pages : list vm_page;
}.

Implicit Types (m : physmem) (p : vm_page) (sg : vm_physseg) (pg fl : Z).

Definition set_freelist l m := Physmem (seglist m) l (pagecount m) (pages m).
Definition set_pagecount c m := Physmem (seglist m) (freelist m) c (pages m).
Definition set_pages a m := Physmem (seglist m) (freelist m) (pagecount m) a.

Definition set_flags (f : Z) p := Page (paddr p) f (pg_size p) (pv_empty p).
Definition set_size (n : Z) p := Page (paddr p) (flags p) n (pv_empty p).

Definition upd_page m pg (f : vm_page -> vm_page) : outcome physmem :=
  p ← arr_get (pages m) pg;
  a ← arr_set (pages m) pg (f p);
  Ok (set_pages a m).

(** [n] pages from [pg] on. *)
Fixpoint upd_pages m pg (n : nat) (f : vm_page -> vm_page) : outcome physmem :=
  match n with
  | O => Ok m
  | S n => m ← upd_page m pg f; upd_pages m (pg + 1) n f
  end.

(** Operations on the free list number [fl] and its counter. *)
Definition fl_remove m fl pg : outcome physmem :=
  l ← arr_get (freelist m) fl;
  l ← tailq_remove l pg;
  fs ← arr_set (freelist m) fl l;
  Ok (set_freelist fs m).
Definition fl_insert_head m fl pg : outcome physmem :=
  l ← arr_get (freelist m) fl;
  fs ← arr_set (freelist m) fl (pg :: l);
  Ok (set_freelist fs m).
Definition fl_insert_tail m fl pg : outcome physmem :=
  l ← arr_get (freelist m) fl;
  fs ← arr_set (freelist m) fl (l ++ [pg]);
  Ok (set_freelist fs m).
Definition count_add m fl (d : Z) : outcome physmem :=
  c ← arr_get (pagecount m) fl;
  cs ← arr_set (pagecount m) fl (c + d);
  Ok (set_pagecount cs m).

(** [FREELIST] and [PAGECOUNT] of a page of size [n] *)
Definition FREELIST (n : Z) : Z := Z.log2 n.

Definition _vm_physseg_plug m (start fin : Z) (u : bool) : outcome physmem :=
  _ ← assert (page_aligned_p start && page_aligned_p fin && (start <? fin));
  _ ← assert (Z.of_nat (length (seglist m)) <? VM_PHYSSEG_NMAX - 1);
  Ok (Physmem (seglist m ++ [Physseg start fin ((fin - start) / PAGESIZE) u 0])
        (freelist m) (pagecount m) (pages m)).

(** ** Configuration of the pages

    The compiler's count of trailing zeros is undefined at 0: [ctz0] is what it gives. *)

Fixpoint pos_ctz (x : positive) : Z := match x with xO x => 1 + pos_ctz x | _ => 0 end.
Definition ctz (ctz0 x : Z) : Z := match x with Zpos x => pos_ctz x | _ => ctz0 end.

Definition config_page (ctz0 : Z) sg (i : Z) : vm_page :=
  let pa := seg_start sg + i * PAGESIZE in
  let size := Z.shiftl 1 (Z.min (PM_NQUEUES - 1) (ctz ctz0 (pa / PAGESIZE))) in
  let size :=
    if seg_end sg <? pa + size * PAGESIZE
    then Z.shiftl 1 (Z.min (PM_NQUEUES - 1) (Z.log2 (Z.lxor (seg_end sg) pa / PAGESIZE)))
    else size in
  Page pa (if used sg then PG_ALLOCATED else 0) size true.

(** The pages of a segment that is not in use go to the free lists; every round inserts at
    least one page, so [npages] rounds are enough. *)
Fixpoint insert_pages (fuel : nat) m sg (i : Z) : outcome physmem :=
  if i <? npages sg then
    match fuel with
    | O => Fault OutOfFuel
    | S fuel =>
        let pg := seg_pages sg + i in
        p ← arr_get (pages m) pg;
        m ← fl_insert_tail m (FREELIST (pg_size p)) pg;
        m ← count_add m (FREELIST (pg_size p)) 1;
        m ← upd_page m pg (fun p => set_flags (flag_set (flags p) PG_MANAGED) p);
        insert_pages fuel m sg (i + pg_size p)
    end
  else Ok m.

Definition init_seg (ctz0 : Z) m sg : outcome physmem :=
  let base := Z.of_nat (length (pages m)) in
  let sg := Physseg (seg_start sg) (seg_end sg) (npages sg) (used sg) base in
  let m := Physmem (seglist m ++ [sg]) (freelist m) (pagecount m)
             (pages m ++ (config_page ctz0 sg <$> seqZ 0 (npages sg))) in
  if negb (used sg) then insert_pages (Z.to_nat (npages sg)) m sg 0 else Ok m.

Fixpoint init_segs (ctz0 : Z) m (sgs : list vm_physseg) : outcome physmem :=
  match sgs with
  | [] => Ok m
  | sg :: sgs => m ← init_seg ctz0 m sg; init_segs ctz0 m sgs
  end.

(** What is used at boot: the end of the kernel's image, whether allocation at boot is over,
    and the mappings entered with [pmap_kenter]. *)
Record boot := Boot {
  vm_kernel_end : Z;
  vm_boot_done : bool;
  kentered : list (Z * Z);
}.

(** The first segment with at least [n] bytes that is not in use. *)
Fixpoint find_boot_seg (sgs : list vm_physseg) (n : Z) : option nat :=
  match sgs with
  | [] => None
  | sg :: sgs => if used sg || (npages sg * PAGESIZE <? n) then S <$> find_boot_seg sgs n else Some 0%nat
  end.

Definition take_frame sg : vm_physseg :=
  Physseg (seg_start sg + PAGESIZE) (seg_end sg) (npages sg - 1) (used sg) (seg_pages sg).

(** Pages from [va] to [fin] get frames of the segment number [i]; a round maps a page. *)
Fixpoint boot_map (fuel : nat) (sgs : list vm_physseg) (i : nat) (va fin : Z) (km : list (Z * Z)) :
  outcome (list vm_physseg * list (Z * Z)) :=
  if va <? fin then
    match fuel with
    | O => Fault OutOfFuel
    | S fuel =>
        sg ← arr_get sgs (Z.of_nat i);
        let pa := seg_start sg in
        let sg := take_frame sg in
        if npages sg =? 0
        then boot_map fuel (delete i sgs) 0 (va + PAGESIZE) fin (km ++ [(va, pa)])
        else boot_map fuel (<[i := sg]> sgs) i (va + PAGESIZE) fin (km ++ [(va, pa)])
    end
  else Ok (sgs, km).

Definition vm_boot_alloc `{Arch} (b : boot) (sgs : list vm_physseg) (n : Z) : outcome (Z * boot * list vm_physseg) :=
  _ ← assert (negb (vm_boot_done b));
  let start := align (vm_kernel_end b) (word_bits / 8) in
  let fin := align (start + n) PAGESIZE in
  match find_boot_seg sgs n with
  | None => Fault AssertFailed
  | Some i =>
      '(sgs, km) ← boot_map (S (Z.to_nat (n / PAGESIZE))) sgs i (align start PAGESIZE) fin (kentered b);
      Ok (start, Boot (vm_kernel_end b + n) (vm_boot_done b) km, sgs)
  end.

Definition vm_boot_finish `{Arch} (b : boot) : boot := Boot (align (vm_kernel_end b) PAGESIZE) true (kentered b).

(** [page_bytes] is the size of the structure of a page. *)
Definition init_vm_page `{Arch} (ctz0 page_bytes : Z) (b : boot) (sgs : list vm_physseg) : outcome (boot * physmem) :=
  let n := sum_list_with (fun sg => Z.to_nat (npages sg)) sgs in
  '(_, b, sgs) ← vm_boot_alloc b sgs (Z.of_nat n * page_bytes);
  m ← init_segs ctz0 (Physmem [] (replicate (Z.to_nat PM_NQUEUES) []) (replicate (Z.to_nat PM_NQUEUES) 0) []) sgs;
  Ok (vm_boot_finish b, m).

(** ** Buddies *)

(** Takes two pages which are buddies, and merges them *)
Definition pm_merge_buddies m (pg1 pg2 : Z) : outcome (Z * physmem) :=
  p1 ← arr_get (pages m) pg1;
  p2 ← arr_get (pages m) pg2;
  _ ← assert (pg_size p1 =? pg_size p2);
  let '(pg1, pg2) := if pg2 <? pg1 then (pg2, pg1) else (pg1, pg2) in
  p1 ← arr_get (pages m) pg1;
  _ ← assert (pg1 + pg_size p1 =? pg2);
  m ← upd_page m pg1 (fun p => set_size (uwrap 32 (pg_size p * 2)) p);
  Ok (pg1, m).

Definition pm_find_buddy m sg pg : outcome (option Z) :=
  p ← arr_get (pages m) pg;
  _ ← assert (powerof2 (pg_size p));
  (* When page address is divisible by (2 * size) then: look at left buddy, otherwise look
     at right buddy *)
  let buddy :=
    if (pg - seg_pages sg) `mod` (2 * pg_size p) =? 0 then pg + pg_size p else pg - pg_size p in
  let index := buddy - seg_pages sg in
  if (index <? 0) || (npages sg <=? index) then Ok None
  else
    b ← arr_get (pages m) buddy;
    if negb (pg_size b =? pg_size p) then Ok None
    else if negb (flag_on (flags b) PG_MANAGED) then Ok None
    else Ok (Some buddy).

Definition fl_first m fl : outcome Z :=
  l ← arr_get (freelist m) fl;
  match l with [] => Fault AssertFailed | pg :: _ => Ok pg end.

Definition pm_split_page m fl : outcome physmem :=
  page ← fl_first m fl;
  p ← arr_get (pages m) page;
  (* It works, because every page is a member of pages! *)
  let size := pg_size p / 2 in
  let buddy := page + size in
  b ← arr_get (pages m) buddy;
  _ ← assert (negb (flag_on (flags b) PG_ALLOCATED));
  m ← fl_remove m fl page;
  m ← count_add m fl (-1);
  m ← upd_page m page (set_size size);
  m ← upd_page m buddy (set_size size);
  let fl := fl - 1 in
  m ← fl_insert_head m fl page;
  m ← fl_insert_head m fl buddy;
  m ← count_add m fl 2;
  upd_page m buddy (fun p => set_flags (flag_set (flags p) PG_MANAGED) p).

Definition pm_take_page m fl : outcome (Z * physmem) :=
  page ← fl_first m fl;
  m ← fl_remove m fl page;
  m ← count_add m fl (-1);
  m ← upd_page m page (fun p => set_flags (flag_clr (flags p) PG_MANAGED) p);
  p ← arr_get (pages m) page;
  m ← upd_pages m page (Z.to_nat (pg_size p)) (fun p => set_flags (flag_set (flags p) PG_ALLOCATED) p);
  Ok (page, m).

(** Lowest non-empty queue of number higher or equal to [fl]; [fuel] is the number of queues
    left. *)
Fixpoint find_queue (fuel : nat) m fl : outcome Z :=
  if fl <? PM_NQUEUES then
    match fuel with
    | O => Fault OutOfFuel
    | S fuel =>
        l ← arr_get (freelist m) fl;
        if empty l then find_queue fuel m (fl + 1) else Ok fl
    end
  else Ok fl.

Fixpoint split_down (fuel : nat) m fl (n : Z) : outcome physmem :=
  if n <? fl then
    match fuel with
    | O => Fault OutOfFuel
    | S fuel => m ← pm_split_page m fl; split_down fuel m (fl - 1) n
    end
  else Ok m.

Definition vm_page_alloc m (n_pages : Z) : outcome (option Z * physmem) :=
  _ ← assert ((0 <? n_pages) && powerof2 n_pages);
  let n := Z.log2 n_pages in
  fl ← find_queue (Z.to_nat PM_NQUEUES) m n;
  if PM_NQUEUES <=? fl then Ok (None, m)
  else
    m ← split_down (Z.to_nat PM_NQUEUES) m fl n;
    '(pg, m) ← pm_take_page m n;
    Ok (Some pg, m).

(** ** Lists of pages *)

(** The sums of the pages on the first lists, up to the first that reaches [n]; the result
    also has the list reached. *)
Fixpoint list_sums (counts : list Z) (fl sum n : Z) (sums : list Z) : Z * Z * list Z :=
  match counts with
  | [] => (fl, sum, sums)
  | c :: counts =>
      let sum := sum + Z.shiftl c fl in
      let sums := sums ++ [sum] in
      if n <=? sum then (fl, sum, sums) else list_sums counts (fl + 1) sum n sums
  end.

(** We scan the lists in descending order and greedily take what we can. *)
Fixpoint collect (fuel : nat) m (fl n : Z) (sums pglist : list Z) : outcome (list Z * physmem) :=
  if 0 <? n then
    match fuel with
    | O => Fault OutOfFuel
    | S fuel =>
        prev_sum ← (if 0 <? fl then arr_get sums (fl - 1) else Ok 0);
        (* Remaining part of the request can be satisfied with smaller pages? *)
        if n <=? prev_sum then collect fuel m (fl - 1) n sums pglist
        else
          let pgsz := Z.shiftl 1 fl in
          (* Page is too large to satisfy remaining part of the request? *)
          if n <? pgsz then
            m ← pm_split_page m fl;
            s ← arr_get sums (fl - 1);
            sums ← arr_set sums (fl - 1) (s + pgsz);
            collect fuel m (fl - 1) n sums pglist
          else
            '(pg, m) ← pm_take_page m fl;
            collect fuel m fl (n - pgsz) sums (pglist ++ [pg])
    end
  else Ok (pglist, m).

(** Every round takes a page or goes to the next list, so [n + 16] rounds are enough. *)
Definition vm_pagelist_alloc m (n : Z) : outcome (Z * list Z * physmem) :=
  let '(fl, sum, sums) := list_sums (pagecount m) 0 0 n [] in
  if sum <? n then Ok (ENOMEM, [], m)
  else
    '(pglist, m) ← collect (Z.to_nat n + 16) m fl n sums [];
    Ok (0, pglist, m).

(** ** Releasing pages *)

(** Every round doubles the block. *)
Fixpoint merge_loop (fuel : nat) m sg pg : outcome (Z * physmem) :=
  match fuel with
  | O => Fault OutOfFuel
  | S fuel =>
      found ← pm_find_buddy m sg pg;
      match found with
      | None => Ok (pg, m)
      | Some buddy =>
          b ← arr_get (pages m) buddy;
          m ← fl_remove m (FREELIST (pg_size b)) buddy;
          m ← count_add m (FREELIST (pg_size b)) (-1);
          m ← upd_page m buddy (fun p => set_flags (flag_clr (flags p) PG_MANAGED) p);
          '(pg, m) ← pm_merge_buddies m pg buddy;
          merge_loop fuel m sg pg
      end
  end.

Fixpoint release_pages m pg (n : nat) : outcome physmem :=
  match n with
  | O => Ok m
  | S n =>
      p ← arr_get (pages m) pg;
      _ ← assert (pv_empty p);
      m ← upd_page m pg (fun p => set_flags (flag_clr (flag_clr (flags p) PG_ALLOCATED)
                                    (Z.lor PG_REFERENCED PG_MODIFIED)) p);
      release_pages m (pg + 1) n
  end.

Definition pm_free_from_seg m sg pg : outcome physmem :=
  p ← arr_get (pages m) pg;
  if negb (flag_on (flags p) PG_ALLOCATED) then panic
  else
    '(pg, m) ← merge_loop 32 m sg pg;
    p ← arr_get (pages m) pg;
    m ← fl_insert_head m (FREELIST (pg_size p)) pg;
    m ← count_add m (FREELIST (pg_size p)) 1;
    m ← upd_page m pg (fun p => set_flags (flag_set (flags p) PG_MANAGED) p);
    release_pages m pg (Z.to_nat (pg_size p)).

Definition PG_START p : Z := paddr p.
Definition PG_END p : Z := paddr p + pg_size p * PAGESIZE.

Fixpoint free_in_segs m (sgs : list vm_physseg) pg p : outcome physmem :=
  match sgs with
  | [] => panic
  | sg :: sgs =>
      if (seg_start sg <=? PG_START p) && (PG_END p <=? seg_end sg) then pm_free_from_seg m sg pg
      else free_in_segs m sgs pg p
  end.

Definition vm_page_free_nolock m pg : outcome physmem :=
  p ← arr_get (pages m) pg;
  free_in_segs m (seglist m) pg p.

Definition vm_page_free m pg : outcome physmem := vm_page_free_nolock m pg.

Fixpoint vm_pagelist_free m (pglist : list Z) : outcome physmem :=
  match pglist with
  | [] => Ok m
  | pg :: pglist => m ← vm_page_free_nolock m pg; vm_pagelist_free m pglist
  end.

Fixpoint find_in_segs (sgs : list vm_physseg) (pa : Z) : option Z :=
  match sgs with
  | [] => None
  | sg :: sgs =>
      if (seg_start sg <=? pa) && (pa <? seg_end sg)
      then Some (seg_pages sg + (pa - seg_start sg) / PAGESIZE)
      else find_in_segs sgs pa
  end.

Definition vm_page_find m (pa : Z) : option Z := find_in_segs (seglist m) pa.

(** ** Pages by index *)

Definition pget m (i : Z) : option vm_page := if 0 <=? i then pages m !! Z.to_nat i else None.

Lemma pget_get m i p : pget m i = Some p -> arr_get (pages m) i = Ok p.
Proof. unfold pget, arr_get. destruct (0 <=? i); [|done]. by intros ->. Qed.

Lemma pget_range m i p : pget m i = Some p -> 0 <= i < Z.of_nat (length (pages m)).
Proof.
  unfold pget. destruct (Z.leb_spec 0 i); [|done]. intros Hl%lookup_lt_Some. lia.
Qed.

Lemma pget_set m i p p' a :
  pget m i = Some p -> a = <[Z.to_nat i := p']> (pages m) ->
  forall j, pget (set_pages a m) j = if decide (j = i) then Some p' else pget m j.
Proof.
  intros Hp -> j. pose proof (pget_range m i p Hp). unfold pget. cbn. case_decide as Hj.
  - subst. rewrite list_lookup_insert_eq by lia. by destruct (Z.leb_spec 0 i); [|lia].
  - destruct (Z.leb_spec 0 j); [|done]. rewrite list_lookup_insert_ne by lia. done.
Qed.

(** Two memories that differ in their pages only. *)
Definition same_lists m m' : Prop :=
  seglist m' = seglist m /\ freelist m' = freelist m /\ pagecount m' = pagecount m.

Lemma upd_page_spec m i p f : pget m i = Some p ->
  exists m', upd_page m i f = Ok m' /\ same_lists m m' /\ length (pages m') = length (pages m) /\
    forall j, pget m' j = if decide (j = i) then Some (f p) else pget m j.
Proof.
  intros Hp. unfold upd_page. rewrite (pget_get m i p) by done. cbn [mbind outcome_bind].
  rewrite arr_set_ok by (by apply (pget_range m i p)). cbn [mbind outcome_bind].
  eexists. split; [done|]. split; [done|]. split; [apply length_insert|]. by eapply pget_set.
Qed.

Lemma upd_pages_spec f (n : nat) : forall m i,
  (forall j, i <= j < i + Z.of_nat n -> is_Some (pget m j)) ->
  exists m', upd_pages m i n f = Ok m' /\ same_lists m m' /\ length (pages m') = length (pages m) /\
    forall j, pget m' j = if decide (i <= j < i + Z.of_nat n) then f <$> pget m j else pget m j.
Proof.
  induction n as [|n IH]; intros m i Hin.
  { exists m. split_and!; try done. intros j. by rewrite decide_False by lia. }
  destruct (Hin i ltac:(lia)) as [p Hp]. cbn [upd_pages].
  destruct (upd_page_spec m i p f Hp) as (m1 & -> & S1 & L1 & G1). cbn [mbind outcome_bind].
  destruct (IH m1 (i + 1)) as (m' & -> & S' & L' & G').
  { intros j Hj. rewrite G1. case_decide; [done|]. apply Hin. lia. }
  exists m'. split_and!; [done| |congruence|].
  - destruct S1 as (? & ? & ?), S' as (? & ? & ?). split_and!; congruence.
  - intros j. rewrite G', !G1. repeat case_decide; subst; try lia; try done. by rewrite Hp.
Qed.

(** ** Blocks

    The memory as a set of blocks, each known by its first page: free, handed out, or on the
    way back to the free lists. *)

Inductive bstate := BFree | BUsed | BTransit.
#[export] Instance bstate_eq_dec : EqDecision bstate.
Proof. solve_decision. Defined.

Notation blocks := (gmap Z (nat * bstate)).
Implicit Types B : blocks.

Definition bsize (k : nat) : Z := 2 ^ Z.of_nat k.

Lemma bsize_pos k : 0 < bsize k.
Proof. unfold bsize. lia. Qed.

Lemma bsize_S k : bsize (S k) = 2 * bsize k.
Proof. unfold bsize. rewrite Nat2Z.inj_succ, Z.pow_succ_r; lia. Qed.

Lemma bsize_mono j k : (j <= k)%nat -> bsize j <= bsize k.
Proof. intros H. unfold bsize. apply Z.pow_le_mono_r; lia. Qed.

Lemma bsize_log k : Z.log2 (bsize k) = Z.of_nat k.
Proof. apply Z.log2_pow2. lia. Qed.

(** The free lists hold the free blocks by their order, and the counters count them. *)
Record lists_ok (F : list (list Z)) (C : list Z) B : Prop := {
  lo_len : length F = 16%nat /\ length C = 16%nat;
  lo_count i l : F !! i = Some l -> C !! i = Some (Z.of_nat (length l));
  lo_nodup i l : F !! i = Some l -> NoDup l;
  lo_free i l pg : F !! i = Some l -> pg ∈ l <-> B !! pg = Some (i, BFree);
}.

Definition page_state (st : bstate) p : Prop :=
  match st with
  | BFree => flag_on (flags p) PG_ALLOCATED = false /\ pv_empty p = true
  | BUsed => flag_on (flags p) PG_ALLOCATED = true
  | BTransit => pv_empty p = true
  end.

Definition in_seg sg (pg n : Z) : Prop := seg_pages sg <= pg /\ pg + n <= seg_pages sg + npages sg.

Definition block_ok m (pg : Z) (k : nat) (st : bstate) : Prop :=
  (exists sg, sg ∈ seglist m /\ used sg = false /\ in_seg sg pg (bsize k)) /\
  (exists p, pget m pg = Some p /\ pg_size p = bsize k) /\
  forall i, pg <= i < pg + bsize k -> exists p, pget m i = Some p /\ page_state st p.

(** The segments are apart from each other, in the array of pages and in physical memory. *)
Record segs_ok (sgs : list vm_physseg) m : Prop := {
  so_size sg : sg ∈ sgs -> 0 < npages sg < 2 ^ 16 /\ 0 <= seg_pages sg /\
    seg_pages sg + npages sg <= Z.of_nat (length (pages m)) /\
    seg_end sg = seg_start sg + npages sg * PAGESIZE;
  so_paddr sg i p : sg ∈ sgs -> in_seg sg i 1 -> pget m i = Some p ->
    paddr p = seg_start sg + (i - seg_pages sg) * PAGESIZE;
  so_apart sg sg' : sg ∈ sgs -> sg' ∈ sgs -> sg <> sg' ->
    (seg_end sg <= seg_start sg' \/ seg_end sg' <= seg_start sg) /\
    (seg_pages sg + npages sg <= seg_pages sg' \/ seg_pages sg' + npages sg' <= seg_pages sg);
}.

Record pm_inv m B : Prop := {
  pm_lists : lists_ok (freelist m) (pagecount m) B;
  pm_segs : segs_ok (seglist m) m;
  pm_block pg k st : B !! pg = Some (k, st) -> block_ok m pg k st;
  pm_apart pg k st pg' k' st' : B !! pg = Some (k, st) -> B !! pg' = Some (k', st') -> pg <> pg' ->
    pg + bsize k <= pg' \/ pg' + bsize k' <= pg;
  pm_managed pg p : pget m pg = Some p ->
    flag_on (flags p) PG_MANAGED = true <-> exists k, B !! pg = Some (k, BFree);
  pm_cover sg i : sg ∈ seglist m -> used sg = false -> in_seg sg i 1 ->
    exists pg k st, B !! pg = Some (k, st) /\ pg <= i < pg + bsize k;
}.

(** A block is smaller than the largest list allows. *)
Lemma block_order m B pg k st : pm_inv m B -> B !! pg = Some (k, st) -> (k < 16)%nat.
Proof.
  intros I Hb. destruct (pm_block _ _ I pg k st Hb) as ((sg & Hsg & _ & H1 & H2) & _).
  destruct (so_size _ _ (pm_segs _ _ I) sg Hsg) as ((_ & H3) & _).
  destruct (decide (k < 16)%nat) as [|Hge]; [done|]. assert (2 ^ 16 <= bsize k); [|lia].
  change (2 ^ 16) with (bsize 16). apply bsize_mono. lia.
Qed.

Section lists.
Context (F : list (list Z)) (C : list Z) (B : blocks).
Hypothesis L : lists_ok F C B.

Lemma list_get k : (k < 16)%nat -> exists l, arr_get F (Z.of_nat k) = Ok l /\ F !! k = Some l /\
  arr_get C (Z.of_nat k) = Ok (Z.of_nat (length l)).
Proof.
  intros Hk. destruct (lo_len _ _ _ L) as [L1 L2].
  destruct (arr_get_in_range F (Z.of_nat k)) as (l & E & Hl); [lia|]. rewrite Nat2Z.id in Hl.
  exists l. split_and!; try done. apply arr_get_ok. rewrite Nat2Z.id. split; [lia|]. by apply (lo_count _ _ _ L).
Qed.

(** A block leaves its free list, to become [b] or to vanish. *)
Lemma lists_remove B' pg k l :
  B !! pg = Some (k, BFree) -> F !! k = Some l ->
  (forall h, h <> pg -> B' !! h = B !! h) -> (forall j, B' !! pg <> Some (j, BFree)) ->
  lists_ok (<[k := filter (fun x => x <> pg) l]> F) (<[k := Z.of_nat (length l) - 1]> C) B'.
Proof.
  intros Hb Hl Hother Hpg. destruct (lo_len _ _ _ L) as [L1 L2]. pose proof (lookup_lt_Some _ _ _ Hl) as Hk.
  pose proof (lo_nodup _ _ _ L k l Hl) as Hn. assert (pg ∈ l) as Hin by (by apply (lo_free _ _ _ L k l)).
  split.
  - by rewrite !length_insert.
  - intros i l'. rewrite list_lookup_insert_Some. intros [(<- & <- & _)|[Hne Hi]].
    + rewrite list_lookup_insert_eq by lia. pose proof (Permutation_length (remove_perm l pg Hn Hin)) as Hlen.
      cbn in Hlen. f_equal. lia.
    + rewrite list_lookup_insert_ne by done. by apply (lo_count _ _ _ L).
  - intros i l'. rewrite list_lookup_insert_Some. intros [(<- & <- & _)|[Hne Hi]].
    + by apply NoDup_filter.
    + by apply (lo_nodup _ _ _ L i).
  - intros i l' h. rewrite list_lookup_insert_Some. intros [(<- & <- & _)|[Hne Hi]].
    + rewrite list_elem_of_filter. destruct (decide (h = pg)) as [->|Hh].
      * split; [by intros []|]. intros E. by apply Hpg in E.
      * rewrite Hother by done. rewrite (lo_free _ _ _ L k l h Hl). naive_solver.
    + rewrite (lo_free _ _ _ L i l' h Hi). destruct (decide (h = pg)) as [->|Hh]; [|by rewrite Hother].
      split; [intros E; congruence|]. intros E. by apply Hpg in E.
Qed.

(** A block comes to the free list of its order. *)
Lemma lists_add B' pg k l l' :
  (forall j, B !! pg <> Some (j, BFree)) -> F !! k = Some l -> l' ≡ₚ pg :: l ->
  (forall h, h <> pg -> B' !! h = B !! h) -> B' !! pg = Some (k, BFree) ->
  lists_ok (<[k := l']> F) (<[k := Z.of_nat (length l) + 1]> C) B'.
Proof.
  intros Hb Hl HP Hother Hpg. destruct (lo_len _ _ _ L) as [L1 L2]. pose proof (lookup_lt_Some _ _ _ Hl) as Hk.
  split.
  - by rewrite !length_insert.
  - intros i l0. rewrite list_lookup_insert_Some. intros [(<- & <- & _)|[Hne Hi]].
    + rewrite list_lookup_insert_eq by lia. rewrite HP. cbn. f_equal. lia.
    + rewrite list_lookup_insert_ne by done. by apply (lo_count _ _ _ L).
  - intros i l0. rewrite list_lookup_insert_Some. intros [(<- & <- & _)|[Hne Hi]].
    + rewrite HP. constructor; [|by apply (lo_nodup _ _ _ L k)]. rewrite (lo_free _ _ _ L k l pg Hl). apply Hb.
    + by apply (lo_nodup _ _ _ L i).
  - intros i l0 h. rewrite list_lookup_insert_Some. intros [(<- & <- & _)|[Hne Hi]].
    + rewrite HP, elem_of_cons, (lo_free _ _ _ L k l h Hl). destruct (decide (h = pg)) as [->|Hh].
      * rewrite Hpg. tauto.
      * rewrite Hother by done. tauto.
    + rewrite (lo_free _ _ _ L i l0 h Hi). destruct (decide (h = pg)) as [->|Hh]; [|by rewrite Hother].
      rewrite Hpg. split; [intros E; by apply Hb in E|]. intros [= E]. by destruct Hne.
Qed.
End lists.

(** ** Changes within a region *)

(** [m'] and [B'] differ from [m] and [B] only in the pages from [lo] to [hi], which are a
    union of blocks in both. *)
Record region m B m' B' (lo hi : Z) : Prop := {
  rg_segs : seglist m' = seglist m;
  rg_len : length (pages m') = length (pages m);
  rg_out i : ~ lo <= i < hi -> pget m' i = pget m i;
  rg_paddr i p p' : pget m i = Some p -> pget m' i = Some p' -> paddr p' = paddr p;
  rg_other h : ~ lo <= h < hi -> B' !! h = B !! h;
  rg_whole h k st : B !! h = Some (k, st) -> h + bsize k <= lo \/ hi <= h \/ lo <= h /\ h + bsize k <= hi;
  rg_in h k st : B' !! h = Some (k, st) -> lo <= h < hi -> h + bsize k <= hi /\ block_ok m' h k st;
  rg_apart h k st h' k' st' : B' !! h = Some (k, st) -> B' !! h' = Some (k', st') -> h <> h' ->
    lo <= h < hi -> lo <= h' < hi -> h + bsize k <= h' \/ h' + bsize k' <= h;
  rg_managed i p : lo <= i < hi -> pget m' i = Some p ->
    flag_on (flags p) PG_MANAGED = true <-> exists k, B' !! i = Some (k, BFree);
  rg_cover i : lo <= i < hi -> exists h k st, B' !! h = Some (k, st) /\ h <= i < h + bsize k;
}.

Lemma same_len_dom m m' i : length (pages m') = length (pages m) -> is_Some (pget m i) -> is_Some (pget m' i).
Proof.
  intros E [p Hp]. apply pget_range in Hp as Hr. unfold pget. destruct (Z.leb_spec 0 i); [|lia].
  apply lookup_lt_is_Some. lia.
Qed.

Lemma region_inv m B m' B' lo hi :
  pm_inv m B -> region m B m' B' lo hi -> lists_ok (freelist m') (pagecount m') B' -> pm_inv m' B'.
Proof.
  intros I R L. destruct I as [_ [S1 S2 S3] I3 I4 I5 I6], R as [R1 R2 R3 R4 R5 R6 R7 R8 R9 R10]. split; try done.
  - rewrite R1. split; try done; [by rewrite R2|]. intros sg i p' Hsg Hi Hp'.
    destruct (same_len_dom m' m i) as [p Hp]; [done|by eexists|]. rewrite (R4 i p p' Hp Hp'). by apply (S2 sg i p).
  - intros h k st Hb. destruct (decide (lo <= h < hi)) as [Hin|Hout]; [by apply (R7 h k st)|].
    rewrite R5 in Hb by done. destruct (I3 h k st Hb) as ((sg & Hsg & Hu & Hin) & (p & Hp & Hsz) & Hall).
    pose proof (R6 h k st Hb) as Hw. split; [exists sg; by rewrite R1|]. split.
    + exists p. by rewrite R3.
    + intros i Hi. rewrite R3 by lia. by apply Hall.
  - intros h k st h' k' st' Hb Hb' Hne.
    destruct (decide (lo <= h < hi)) as [Hin|Hout], (decide (lo <= h' < hi)) as [Hin'|Hout'].
    + by apply (R8 h k st h' k' st').
    + rewrite R5 in Hb' by done. pose proof (R6 h' k' st' Hb'). destruct (R7 h k st Hb Hin) as [? _]. lia.
    + rewrite R5 in Hb by done. pose proof (R6 h k st Hb). destruct (R7 h' k' st' Hb' Hin') as [? _]. lia.
    + rewrite R5 in Hb by done. rewrite R5 in Hb' by done. by apply (I4 h k st h' k' st').
  - intros i p Hp. destruct (decide (lo <= i < hi)) as [Hin|Hout]; [by apply R9|].
    rewrite R3 in Hp by done. rewrite R5 by done. by apply I5.
  - intros sg i Hsg Hu Hi. rewrite R1 in Hsg. destruct (decide (lo <= i < hi)) as [Hin|Hout]; [by apply R10|].
    destruct (I6 sg i Hsg Hu Hi) as (h & k & st & Hb & Hhi). pose proof (R6 h k st Hb). exists h, k, st.
    rewrite R5; [done|lia].
Qed.

(** ** The operations on the free lists *)

Section fl_ops.
Context (m : physmem) (k : nat) (l : list Z).
Hypothesis Hl : freelist m !! k = Some l.

Lemma fl_get : arr_get (freelist m) (Z.of_nat k) = Ok l.
Proof. apply arr_get_ok. rewrite Nat2Z.id. split; [lia|done]. Qed.

Lemma fl_set l' : arr_set (freelist m) (Z.of_nat k) l' = Ok (<[k := l']> (freelist m)).
Proof. apply lookup_lt_Some in Hl. rewrite arr_set_ok by lia. by rewrite Nat2Z.id. Qed.

Lemma fl_remove_ok pg : pg ∈ l ->
  fl_remove m (Z.of_nat k) pg = Ok (set_freelist (<[k := filter (fun x => x <> pg) l]> (freelist m)) m).
Proof.
  intros Hin. unfold fl_remove. rewrite fl_get. cbn [mbind outcome_bind]. unfold tailq_remove.
  rewrite decide_True by done. cbn [mbind outcome_bind]. by rewrite fl_set.
Qed.

Lemma fl_insert_head_ok pg :
  fl_insert_head m (Z.of_nat k) pg = Ok (set_freelist (<[k := pg :: l]> (freelist m)) m).
Proof. unfold fl_insert_head. rewrite fl_get. cbn [mbind outcome_bind]. by rewrite fl_set. Qed.

Lemma fl_insert_tail_ok pg :
  fl_insert_tail m (Z.of_nat k) pg = Ok (set_freelist (<[k := l ++ [pg]]> (freelist m)) m).
Proof. unfold fl_insert_tail. rewrite fl_get. cbn [mbind outcome_bind]. by rewrite fl_set. Qed.

Lemma fl_first_ok pg l' : l = pg :: l' -> fl_first m (Z.of_nat k) = Ok pg.
Proof. intros E. unfold fl_first. by rewrite fl_get, E. Qed.
End fl_ops.

Lemma count_add_ok m (k : nat) c d : pagecount m !! k = Some c ->
  count_add m (Z.of_nat k) d = Ok (set_pagecount (<[k := c + d]> (pagecount m)) m).
Proof.
  intros Hc. unfold count_add. apply lookup_lt_Some in Hc as Hlt.
  assert (arr_get (pagecount m) (Z.of_nat k) = Ok c) as ->.
  { apply arr_get_ok. rewrite Nat2Z.id. split; [lia|done]. }
  cbn [mbind outcome_bind]. rewrite arr_set_ok by lia. by rewrite Nat2Z.id.
Qed.

(** The first block of a free list, with what the code reads of it. *)
Lemma free_head m B k pg l :
  pm_inv m B -> freelist m !! k = Some (pg :: l) ->
  (k < 16)%nat /\ B !! pg = Some (k, BFree) /\ block_ok m pg k BFree /\
  pagecount m !! k = Some (Z.of_nat (length (pg :: l))).
Proof.
  intros I Hl. assert (B !! pg = Some (k, BFree)) as Hb by (apply (lo_free _ _ _ (pm_lists _ _ I) k _ pg Hl); set_solver).
  split_and!; [by apply (block_order m B pg k BFree)|done|by apply (pm_block _ _ I)|].
  by apply (lo_count _ _ _ (pm_lists _ _ I)).
Qed.

Lemma flag_other f a b c i : 0 <= i -> a = 2 ^ i -> Z.testbit b i = false ->
  flag_on (if c : bool then flag_set f b else flag_clr f b) a = flag_on f a.
Proof.
  intros Hi -> Hb. rewrite !flag_on_bit by done. destruct c; unfold flag_set, flag_clr.
  - by rewrite Z.lor_spec, Hb, orb_false_r.
  - by rewrite Z.land_spec, Z.lnot_spec, Hb, andb_true_r by done.
Qed.

Section split.
Context (m : physmem) (B : blocks) (k : nat) (pg : Z) (l : list Z).
Hypothesis I : pm_inv m B.
Hypothesis Hl : freelist m !! S k = Some (pg :: l).

Definition split_blocks : blocks := <[pg + bsize k := (k, BFree)]> (<[pg := (k, BFree)]> B).

Lemma split_lists lk :
  freelist m !! k = Some lk ->
  lists_ok (<[k := (pg + bsize k) :: pg :: lk]> (<[S k := filter (fun x => x <> pg) (pg :: l)]> (freelist m)))
    (<[k := Z.of_nat (length lk) + 2]> (<[S k := Z.of_nat (length (pg :: l)) + -1]> (pagecount m))) split_blocks.
Proof.
  intros Hlk. destruct (free_head m B (S k) pg l I Hl) as (Hk & Hb & _). pose proof (bsize_pos k) as Hpos.
  assert (B !! (pg + bsize k) = None) as Hnone.
  { destruct (B !! (pg + bsize k)) as [[k' st']|] eqn:E; [|done].
    pose proof (pm_apart _ _ I _ _ _ _ _ _ Hb E). rewrite bsize_S in *. pose proof (bsize_pos k'). lia. }
  pose proof (lists_remove _ _ B (pm_lists _ _ I) (<[pg := (S k, BUsed)]> B) pg (S k) (pg :: l) Hb Hl) as L1.
  specialize (L1 ltac:(intros; by rewrite lookup_insert_ne) ltac:(intros; by rewrite lookup_insert_eq)).
  assert (<[S k := filter (fun x => x <> pg) (pg :: l)]> (freelist m) !! k = Some lk) as Hlk1
    by (by rewrite list_lookup_insert_ne by lia).
  pose proof (lists_add _ _ _ L1 (<[pg := (k, BFree)]> B) pg k lk (pg :: lk)) as L2.
  specialize (L2 ltac:(intros; by rewrite lookup_insert_eq) Hlk1 (Permutation_refl _)
    ltac:(intros; by rewrite !lookup_insert_ne) ltac:(by rewrite lookup_insert_eq)).
  assert (length (freelist m) = 16%nat) as Hlen by apply (lo_len _ _ _ (pm_lists _ _ I)).
  pose proof (lists_add _ _ _ L2 split_blocks (pg + bsize k) k (pg :: lk) (pg + bsize k :: pg :: lk)) as L3.
  specialize (L3 ltac:(intros j; rewrite lookup_insert_ne by lia; congruence)
    ltac:(apply list_lookup_insert_eq; rewrite length_insert; lia) (Permutation_refl _)
    ltac:(intros; unfold split_blocks; by rewrite lookup_insert_ne) ltac:(unfold split_blocks; by rewrite lookup_insert_eq)).
  rewrite !list_insert_insert_eq in L3. cbn [length] in *.
  replace (Z.of_nat (length lk) + 2) with (Z.of_nat (S (length lk)) + 1) by lia. exact L3.
Qed.

(** The pages after the split. *)
Definition split_pages (p b : vm_page) (j : Z) : option vm_page :=
  if decide (j = pg + bsize k) then Some (set_flags (flag_set (flags b) PG_MANAGED) (set_size (bsize k) b))
  else if decide (j = pg) then Some (set_size (bsize k) p)
  else pget m j.

Lemma split_region m' p b :
  pget m pg = Some p -> pget m (pg + bsize k) = Some b ->
  seglist m' = seglist m -> length (pages m') = length (pages m) ->
  (forall j, pget m' j = split_pages p b j) -> region m B m' split_blocks pg (pg + 2 * bsize k).
Proof.
  intros Hp Hbp Es El G. destruct (free_head m B (S k) pg l I Hl) as (Hk & Hb & Hok & _).
  pose proof (bsize_pos k) as Hpos. destruct Hok as ((sg & Hsg & Hu & Hin) & _ & Hall). rewrite bsize_S in *.
  assert (forall h k' st', B !! h = Some (k', st') -> h <> pg -> h + bsize k' <= pg \/ pg + 2 * bsize k <= h) as Hap.
  { intros h k' st' Hh Hne. pose proof (pm_apart _ _ I _ _ _ _ _ _ Hb Hh ltac:(congruence)). rewrite bsize_S in *. lia. }
  assert (forall i q, pget m i = Some q -> exists q', pget m' i = Some q' /\ paddr q' = paddr q /\ pv_empty q' = pv_empty q /\
    flag_on (flags q') PG_ALLOCATED = flag_on (flags q) PG_ALLOCATED /\
    (i <> pg + bsize k -> flags q' = flags q)) as Hq.
  { intros i q Hq. rewrite G. unfold split_pages. repeat case_decide; simplify_eq; eexists; split_and!; try done.
    by apply (flag_other _ _ _ true 0). }
  assert (forall i, pg <= i < pg + 2 * bsize k -> exists q', pget m' i = Some q' /\ page_state BFree q') as Hst.
  { intros i Hi. destruct (Hall i Hi) as (q & Hqi & H1 & H2). destruct (Hq i q Hqi) as (q' & ? & _ & E2 & E3 & _).
    exists q'. split; [done|]. split; congruence. }
  split; try done.
  - intros i Hi. rewrite G. unfold split_pages. rewrite !decide_False by lia. done.
  - intros i q q' Hqi Hqi'. destruct (Hq i q Hqi) as (q2 & ? & ? & _). congruence.
  - intros h Hh. unfold split_blocks. rewrite !lookup_insert_ne by lia. done.
  - intros h k' st' Hh. destruct (decide (h = pg)) as [->|Hne]; [|pose proof (Hap h k' st' Hh Hne); lia].
    rewrite Hb in Hh. simplify_eq. rewrite bsize_S. lia.
  - intros h k' st' Hh Hhr. assert ((h = pg \/ h = pg + bsize k) /\ k' = k /\ st' = BFree) as (Hh' & -> & ->).
    { unfold split_blocks in Hh. rewrite !lookup_insert_Some in Hh. destruct Hh as [[<- [= <- <-]]|[_ [[<- [= <- <-]]|[Hne Hh]]]]; eauto.
      pose proof (Hap h k' st' Hh ltac:(congruence)). pose proof (bsize_pos k'). lia. }
    split; [destruct Hh'; lia|]. split.
    { exists sg. rewrite Es. destruct Hin. split_and!; try done; unfold in_seg; destruct Hh'; lia. }
    split; [|intros i Hi; apply Hst; destruct Hh'; lia].
    rewrite G. unfold split_pages. destruct Hh' as [-> | ->]; repeat case_decide; try lia; eexists; split; done.
  - intros h k1 st1 h' k2 st2 H1 H2 Hne Hr1 Hr2. unfold split_blocks in H1, H2. rewrite !lookup_insert_Some in H1, H2.
    destruct H1 as [[<- [= <- <-]]|[_ [[<- [= <- <-]]|[Hn1 H1]]]], H2 as [[<- [= <- <-]]|[_ [[<- [= <- <-]]|[Hn2 H2]]]];
      try (pose proof (Hap _ _ _ H1 ltac:(congruence))); try (pose proof (Hap _ _ _ H2 ltac:(congruence)));
      try pose proof (bsize_pos k1); try pose proof (bsize_pos k2); lia.
  - intros i q Hi Hqi. destruct (same_len_dom m' m i) as [q0 Hq0]; [done|by eexists|].
    destruct (Hq i q0 Hq0) as (q' & Hq' & _ & _ & _ & Ef). assert (q' = q) as -> by congruence.
    unfold split_blocks. destruct (decide (i = pg + bsize k)) as [->|Hn1].
    { rewrite lookup_insert_eq. rewrite G in Hqi. unfold split_pages in Hqi. rewrite decide_True in Hqi by done.
      simplify_eq. cbn. split; [by exists k|]. intros _. by apply (flag_set_eq 1). }
    rewrite lookup_insert_ne, (Ef Hn1), (pm_managed _ _ I i q0 Hq0) by done.
    destruct (decide (i = pg)) as [->|Hn2]; [rewrite lookup_insert_eq; split; [by exists k|by exists (S k)]|].
    by rewrite lookup_insert_ne.
  - intros i Hi. unfold split_blocks. destruct (decide (i < pg + bsize k)).
    + exists pg, k, BFree. rewrite lookup_insert_ne, lookup_insert_eq by lia. split; [done|lia].
    + exists (pg + bsize k), k, BFree. rewrite lookup_insert_eq. split; [done|lia].
Qed.

Lemma split_spec lk : freelist m !! k = Some lk ->
  exists m', pm_split_page m (Z.of_nat (S k)) = Ok m' /\ pm_inv m' split_blocks /\
    freelist m' = <[k := (pg + bsize k) :: pg :: lk]> (<[S k := filter (fun x => x <> pg) (pg :: l)]> (freelist m)) /\
    pagecount m' = <[k := Z.of_nat (length lk) + 2]> (<[S k := Z.of_nat (length (pg :: l)) + -1]> (pagecount m)).
Proof.
  intros Hlk. destruct (free_head m B (S k) pg l I Hl) as (Hk & Hb & Hok & Hc).
  pose proof (lo_count _ _ _ (pm_lists _ _ I) k lk Hlk) as Hck. pose proof (bsize_pos k) as Hpos.
  pose proof (split_lists lk Hlk) as HL. destruct Hok as (_ & (p & Hp & Hsz) & Hall).
  rewrite bsize_S in *. destruct (Hall (pg + bsize k) ltac:(lia)) as (b & Hbp & Hba & _).
  unfold pm_split_page. rewrite (fl_first_ok m (S k) _ Hl pg l) by done. cbn [mbind outcome_bind].
  rewrite (pget_get m pg p) by done. cbn [mbind outcome_bind]. rewrite Hsz.
  replace (2 * bsize k / 2) with (bsize k) by (rewrite Z.mul_comm, Z.div_mul; lia).
  rewrite (pget_get m _ b) by done. cbn [mbind outcome_bind]. rewrite Hba. cbn [negb assert mbind outcome_bind].
  rewrite (fl_remove_ok m (S k) _ Hl) by set_solver. cbn [mbind outcome_bind].
  rewrite (count_add_ok (set_freelist _ m) (S k) (Z.of_nat (length (pg :: l)))) by exact Hc. cbn [mbind outcome_bind]. set (m1 := set_pagecount _ _).
  destruct (upd_page_spec m1 pg p (set_size (bsize k)) Hp) as (m2 & -> & (A1 & A2 & A3) & L2 & G2). cbn [mbind outcome_bind].
  destruct (upd_page_spec m2 (pg + bsize k) b (set_size (bsize k))) as (m3 & -> & (B1 & B2 & B3) & L3 & G3).
  { rewrite G2, decide_False by lia. done. }
  cbn [mbind outcome_bind]. replace (Z.of_nat (S k) - 1) with (Z.of_nat k) by lia.
  assert (freelist m3 !! k = Some lk) as Hlk3 by (rewrite B2, A2; cbn; by rewrite list_lookup_insert_ne by lia).
  rewrite (fl_insert_head_ok m3 k lk Hlk3). cbn [mbind outcome_bind].
  assert (length (freelist m) = 16%nat) as Hlen by apply (lo_len _ _ _ (pm_lists _ _ I)).
  rewrite (fl_insert_head_ok _ k (pg :: lk)); [|cbn; apply list_lookup_insert_eq; rewrite B2, A2; cbn; rewrite length_insert; lia].
  cbn [mbind outcome_bind].
  rewrite (count_add_ok _ k (Z.of_nat (length lk))); [|cbn; rewrite B3, A3; cbn; by rewrite list_lookup_insert_ne by lia].
  cbn [mbind outcome_bind]. set (m4 := set_pagecount _ _).
  destruct (upd_page_spec m4 (pg + bsize k) (set_size (bsize k) b) (fun p => set_flags (flag_set (flags p) PG_MANAGED) p))
    as (m' & -> & (D1 & D2 & D3) & L' & G').
  { change (pget m4 ?i) with (pget m3 i). by rewrite G3, decide_True. }
  assert (freelist m' = <[k := (pg + bsize k) :: pg :: lk]> (<[S k := filter (fun x => x <> pg) (pg :: l)]> (freelist m))) as EF
    by (rewrite D2; cbn; rewrite B2, A2; cbn; by rewrite list_insert_insert_eq).
  assert (pagecount m' = <[k := Z.of_nat (length lk) + 2]> (<[S k := Z.of_nat (length (pg :: l)) + -1]> (pagecount m))) as EC
    by (rewrite D3; cbn; rewrite B3, A3; done).
  exists m'. split_and!; try done. apply (region_inv m B m' split_blocks pg (pg + 2 * bsize k) I); [|by rewrite EF, EC].
  apply (split_region m' p b); try done; [by rewrite D1; cbn; rewrite B1, A1|by rewrite L'; cbn; rewrite L3, L2|].
  intros j. rewrite G'. change (pget m4 j) with (pget m3 j). rewrite G3, G2. unfold split_pages. by repeat case_decide.
Qed.
End split.

(** ** Taking a block *)

Section take.
Context (m : physmem) (B : blocks) (k : nat) (pg : Z) (l : list Z).
Hypothesis I : pm_inv m B.
Hypothesis Hl : freelist m !! k = Some (pg :: l).

Definition take_pages (j : Z) : option vm_page :=
  if decide (pg <= j < pg + bsize k) then
    (fun p => set_flags (flag_set (if decide (j = pg) then flag_clr (flags p) PG_MANAGED else flags p) PG_ALLOCATED) p)
      <$> pget m j
  else pget m j.

(** A block [B !! pg] whose state changes. *)
Lemma one_block_region m' k' st st' B' :
  B !! pg = Some (k', st) -> seglist m' = seglist m -> length (pages m') = length (pages m) ->
  (forall i, ~ pg <= i < pg + bsize k' -> pget m' i = pget m i) ->
  (forall i p p', pget m i = Some p -> pget m' i = Some p' -> paddr p' = paddr p /\ pg_size p' = pg_size p) ->
  (forall i p p', pg <= i < pg + bsize k' -> pget m i = Some p -> pget m' i = Some p' ->
    (page_state st p -> page_state st' p') /\
    (flag_on (flags p') PG_MANAGED = true <-> i = pg /\ st' = BFree)) ->
  B' = <[pg := (k', st')]> B -> region m B m' B' pg (pg + bsize k').
Proof.
  intros Hb Es El Hout Hsame Hst ->. destruct (pm_block _ _ I _ _ _ Hb) as ((sg & Hsg & Hu & Hin) & (p & Hp & Hsz) & Hall).
  pose proof (bsize_pos k') as Hpos.
  assert (forall h k2 st2, B !! h = Some (k2, st2) -> h <> pg -> h + bsize k2 <= pg \/ pg + bsize k' <= h) as Hap.
  { intros h k2 st2 Hh Hne. pose proof (pm_apart _ _ I _ _ _ _ _ _ Hb Hh ltac:(congruence)). lia. }
  assert (forall h k2 st2, <[pg := (k', st')]> B !! h = Some (k2, st2) -> pg <= h < pg + bsize k' ->
    h = pg /\ k2 = k' /\ st2 = st') as Hinv.
  { intros h k2 st2 Hh Hr. apply lookup_insert_Some in Hh as [[<- [= <- <-]]|[Hne Hh]]; [done|].
    pose proof (Hap h k2 st2 Hh ltac:(congruence)). pose proof (bsize_pos k2). lia. }
  assert (forall i, is_Some (pget m i) -> is_Some (pget m' i)) as Hdom by (intros i; by apply same_len_dom).
  split; try done.
  - intros i q q' Hq Hq'. by apply (Hsame i q q').
  - intros h Hh. rewrite lookup_insert_ne by lia. done.
  - intros h k2 st2 Hh. destruct (decide (h = pg)) as [->|Hne]; [|pose proof (Hap h k2 st2 Hh Hne); lia].
    rewrite Hb in Hh. simplify_eq. lia.
  - intros h k2 st2 Hh Hr. destruct (Hinv h k2 st2 Hh Hr) as (-> & -> & ->). split; [lia|]. split; [exists sg; by rewrite Es|].
    split.
    + destruct (Hdom pg) as [p' Hp']; [by eexists|]. exists p'. split; [done|]. destruct (Hsame pg p p' Hp Hp'). congruence.
    + intros i Hi. destruct (Hall i Hi) as (q & Hq & Hqs). destruct (Hdom i) as [q' Hq']; [by eexists|].
      exists q'. split; [done|]. by apply (Hst i q q').
  - intros h1 k1 st1 h2 k2 st2 H1 H2 Hne Hr1 Hr2. destruct (Hinv _ _ _ H1 Hr1), (Hinv _ _ _ H2 Hr2). congruence.
  - intros i q' Hi Hq'. destruct (Hall i Hi) as (q & Hq & _). destruct (Hst i q q' Hi Hq Hq') as [_ ->]. split.
    + intros [-> ->]. rewrite lookup_insert_eq. by exists k'.
    + intros [k2 H2]. by destruct (Hinv _ _ _ H2 Hi) as (-> & _ & <-).
  - intros i Hi. exists pg, k', st'. by rewrite lookup_insert_eq.
Qed.

Lemma take_spec :
  exists m', pm_take_page m (Z.of_nat k) = Ok (pg, m') /\ pm_inv m' (<[pg := (k, BUsed)]> B) /\
    freelist m' = <[k := filter (fun x => x <> pg) (pg :: l)]> (freelist m) /\
    pagecount m' = <[k := Z.of_nat (length (pg :: l)) - 1]> (pagecount m).
Proof.
  destruct (free_head m B k pg l I Hl) as (Hk & Hb & Hok & Hc). pose proof (bsize_pos k) as Hpos.
  destruct Hok as (_ & (p & Hp & Hsz) & Hall).
  unfold pm_take_page. rewrite (fl_first_ok m k _ Hl pg l) by done. cbn [mbind outcome_bind].
  rewrite (fl_remove_ok m k _ Hl) by set_solver. cbn [mbind outcome_bind].
  rewrite (count_add_ok (set_freelist _ m) k (Z.of_nat (length (pg :: l)))) by exact Hc. cbn [mbind outcome_bind].
  set (m1 := set_pagecount _ _).
  destruct (upd_page_spec m1 pg p (fun p => set_flags (flag_clr (flags p) PG_MANAGED) p) Hp) as (m2 & -> & (A1 & A2 & A3) & L2 & G2).
  cbn [mbind outcome_bind]. rewrite (pget_get m2 pg (set_flags (flag_clr (flags p) PG_MANAGED) p)) by (by rewrite G2, decide_True).
  cbn [mbind outcome_bind set_flags pg_size]. rewrite Hsz.
  destruct (upd_pages_spec (fun p => set_flags (flag_set (flags p) PG_ALLOCATED) p) (Z.to_nat (bsize k)) m2 pg)
    as (m' & -> & (D1 & D2 & D3) & L' & G').
  { intros j Hj. rewrite G2. case_decide; [done|]. destruct (Hall j ltac:(lia)) as (q & Hq & _). by exists q. }
  cbn [mbind outcome_bind]. rewrite Z2Nat.id in G' by lia. exists m'.
  assert (freelist m' = <[k := filter (fun x => x <> pg) (pg :: l)]> (freelist m)) as EF by (rewrite D2, A2; done).
  assert (pagecount m' = <[k := Z.of_nat (length (pg :: l)) - 1]> (pagecount m)) as EC by (rewrite D3, A3; done).
  assert (forall j, pget m' j = take_pages j) as G.
  { intros j. rewrite G', !G2. change (pget m1 j) with (pget m j). unfold take_pages.
    repeat case_decide; subst; try lia; try done. by rewrite Hp. }
  split_and!; try done. apply (region_inv m B m' _ pg (pg + bsize k) I).
  - apply (one_block_region m' k BFree BUsed); try done; [by rewrite D1, A1|by rewrite L', L2|..].
    + intros i Hi. rewrite G. unfold take_pages. by rewrite decide_False.
    + intros i q q' Hq. rewrite G. unfold take_pages. rewrite Hq. case_decide; cbn; by intros [= <-].
    + intros i q q' Hi Hq. rewrite G. unfold take_pages. rewrite Hq, decide_True by done. cbn. intros [= <-]. cbn.
      split; [intros _; by apply (flag_set_eq 0)|].
      rewrite (flag_other _ _ _ true 1) by done. case_decide as Hi0.
      * subst i. split; [|by intros [_ ?]]. rewrite (flag_clr_eq 1) by done. done.
      * split; [|by intros [? _]]. intros HM. apply (pm_managed _ _ I i q Hq) in HM as [k2 H2].
        pose proof (pm_apart _ _ I _ _ _ _ _ _ Hb H2 ltac:(congruence)). pose proof (bsize_pos k2). lia.
  - rewrite EF, EC. eapply (lists_remove _ _ B (pm_lists _ _ I)); try done.
    + intros h Hh. by rewrite lookup_insert_ne.
    + intros j. by rewrite lookup_insert_eq.
Qed.
End take.

(** ** Allocation of a block *)

(** Some free blocks of [B] have been cut into smaller ones. *)
Record refines B B' : Prop := {
  rf_used h k st : st <> BFree -> B' !! h = Some (k, st) <-> B !! h = Some (k, st);
  rf_free h k : B' !! h = Some (k, BFree) -> exists h0 k0, B !! h0 = Some (k0, BFree) /\
    h0 <= h /\ h + bsize k <= h0 + bsize k0;
}.

Lemma refines_refl B : refines B B.
Proof. split; [done|]. intros h k Hb. exists h, k. split; [done|]. lia. Qed.

Lemma refines_trans B1 B2 B3 : refines B1 B2 -> refines B2 B3 -> refines B1 B3.
Proof.
  intros [A1 A2] [C1 C2]. split.
  - intros h k st Hst. by rewrite C1, A1.
  - intros h k Hb. destruct (C2 h k Hb) as (h2 & k2 & Hb2 & ? & ?). destruct (A2 h2 k2 Hb2) as (h1 & k1 & Hb1 & ? & ?).
    exists h1, k1. split; [done|]. lia.
Qed.

Lemma split_refines m B k pg l :
  pm_inv m B -> freelist m !! S k = Some (pg :: l) -> refines B (split_blocks B k pg).
Proof.
  intros I Hl. destruct (free_head m B (S k) pg l I Hl) as (_ & Hb & _). pose proof (bsize_pos k) as Hpos.
  assert (B !! (pg + bsize k) = None) as Hnone.
  { destruct (B !! (pg + bsize k)) as [[k' st']|] eqn:E; [|done].
    pose proof (pm_apart _ _ I _ _ _ _ _ _ Hb E). rewrite bsize_S in *. pose proof (bsize_pos k'). lia. }
  unfold split_blocks. split.
  - intros h j st Hst. rewrite !lookup_insert_Some. split.
    + intros [[<- [= <- <-]]|[_ [[<- [= <- <-]]|[_ Hh]]]]; done.
    + intros Hh. right. split; [congruence|]. right. split; [congruence|done].
  - intros h j. rewrite !lookup_insert_Some. intros [[<- [= <-]]|[_ [[<- [= <-]]|[_ Hh]]]].
    + exists pg, (S k). rewrite bsize_S. split; [done|]. lia.
    + exists pg, (S k). rewrite bsize_S. split; [done|]. lia.
    + exists h, j. split; [done|]. lia.
Qed.

Lemma find_queue_spec m B (fuel : nat) : forall n : nat,
  pm_inv m B -> (n + fuel = 16)%nat ->
  exists fl : nat, find_queue fuel m (Z.of_nat n) = Ok (Z.of_nat fl) /\ (n <= fl <= 16)%nat /\
    (forall i l, (n <= i < fl)%nat -> freelist m !! i = Some l -> l = []) /\
    ((fl < 16)%nat -> exists pg l, freelist m !! fl = Some (pg :: l)).
Proof.
  induction fuel as [|fuel IH]; intros n I Hn.
  { exists n. cbn. destruct (Z.ltb_spec (Z.of_nat n) PM_NQUEUES); [unfold PM_NQUEUES in *; lia|]. split; [done|]. split; [lia|].
    split; [intros i l Hi; lia|lia]. }
  cbn [find_queue]. destruct (Z.ltb_spec (Z.of_nat n) PM_NQUEUES); [|unfold PM_NQUEUES in *; lia].
  destruct (list_get _ _ _ (pm_lists _ _ I) n ltac:(lia)) as (l & -> & Hl & _). cbn [mbind outcome_bind].
  destruct l as [|pg l]; cbn [empty].
  - replace (Z.of_nat n + 1) with (Z.of_nat (S n)) by lia. destruct (IH (S n) I ltac:(lia)) as (fl & E & Hr & He & Hf).
    exists fl. split_and!; try done; [lia|lia|]. intros i l Hi Hil. destruct (decide (i = n)) as [->|]; [congruence|].
    apply (He i l); [lia|done].
  - exists n. split; [done|]. split; [lia|]. split; [intros i l' Hi; lia|eauto].
Qed.

Lemma find_queue_more m f : forall f' z,
  (f <= f')%nat -> find_queue f m z <> Fault OutOfFuel -> find_queue f' m z = find_queue f m z.
Proof.
  induction f as [|f IH]; intros f' z Hle Hne.
  - cbn in *. destruct (z <? PM_NQUEUES) eqn:E; [done|]. destruct f'; cbn; by rewrite E.
  - destruct f' as [|f']; [lia|]. cbn [find_queue] in *. destruct (z <? PM_NQUEUES); [|done].
    destruct (arr_get (freelist m) z) as [l|]; [|done]. cbn [mbind outcome_bind] in *. destruct (empty l); [|done].
    apply IH; [lia|done].
Qed.

Lemma split_down_spec (d : nat) : forall m B (n : nat) pg l fuel,
  pm_inv m B -> freelist m !! (n + d)%nat = Some (pg :: l) -> (d <= fuel)%nat ->
  exists m' B' pg' l', split_down fuel m (Z.of_nat (n + d)) (Z.of_nat n) = Ok m' /\ pm_inv m' B' /\
    freelist m' !! n = Some (pg' :: l') /\ refines B B'.
Proof.
  induction d as [|d IH]; intros m B n pg l fuel I Hl Hf.
  { exists m, B, pg, l. replace (n + 0)%nat with n in * by lia. split_and!; try done; [|apply refines_refl].
    destruct fuel; cbn; by rewrite Z.ltb_irrefl. }
  destruct fuel as [|fuel]; [lia|]. cbn [split_down]. destruct (Z.ltb_spec (Z.of_nat n) (Z.of_nat (n + S d))); [|lia].
  replace (n + S d)%nat with (S (n + d)) in * by lia. destruct (free_head m B _ pg l I Hl) as (Hk & _).
  destruct (list_get _ _ _ (pm_lists _ _ I) (n + d)%nat ltac:(lia)) as (lk & _ & Hlk & _).
  destruct (split_spec m B (n + d) pg l I Hl lk Hlk) as (m1 & -> & I1 & EF & _). cbn [mbind outcome_bind].
  replace (Z.of_nat (S (n + d)) - 1) with (Z.of_nat (n + d)) by lia.
  destruct (IH m1 _ n (pg + bsize (n + d)) (pg :: lk) fuel I1) as (m' & B' & pg' & l' & E & I' & Hl' & HR).
  { rewrite EF. apply list_lookup_insert_eq. rewrite length_insert. apply lookup_lt_Some in Hlk. lia. }
  { lia. }
  exists m', B', pg', l'. split_and!; try done. eapply refines_trans; [by apply (split_refines m B (n + d) pg l)|done].
Qed.

Lemma alloc_big m n_pages :
  0 < n_pages -> powerof2 n_pages = true -> 2 ^ 16 <= n_pages -> vm_page_alloc m n_pages = Ok (None, m).
Proof.
  intros Hp H2 Hb. unfold vm_page_alloc. rewrite H2. assert_step lia.
  assert (16 <= Z.log2 n_pages) as Hl by (apply Z.log2_le_pow2; lia).
  change (Z.to_nat PM_NQUEUES) with 16%nat. cbn [find_queue].
  destruct (Z.ltb_spec (Z.log2 n_pages) PM_NQUEUES); [unfold PM_NQUEUES in *; lia|]. cbn [mbind outcome_bind].
  destruct (Z.leb_spec PM_NQUEUES (Z.log2 n_pages)); [done|unfold PM_NQUEUES in *; lia].
Qed.

Lemma page_alloc_spec m B (n : nat) :
  pm_inv m B -> (n < 16)%nat ->
  (vm_page_alloc m (bsize n) = Ok (None, m) /\ forall h k, B !! h = Some (k, BFree) -> (k < n)%nat) \/
  exists pg m' B1, vm_page_alloc m (bsize n) = Ok (Some pg, m') /\ refines B B1 /\
    B1 !! pg = Some (n, BFree) /\ pm_inv m' (<[pg := (n, BUsed)]> B1).
Proof.
  intros I Hn. unfold vm_page_alloc. pose proof (bsize_pos n). assert (powerof2 (bsize n) = true) as H2 by (apply powerof2_pow2; lia).
  rewrite H2. assert_step lia. rewrite bsize_log.
  assert (exists fuel, (n + fuel = 16)%nat) as [fuel Hfuel] by (exists (16 - n)%nat; lia).
  destruct (find_queue_spec m B fuel n I Hfuel) as (fl & E & Hr & He & Hf).
  rewrite (find_queue_more m fuel (Z.to_nat PM_NQUEUES) (Z.of_nat n)) by (first [unfold PM_NQUEUES; lia|by rewrite E]). rewrite E. cbn [mbind outcome_bind].
  destruct (Z.leb_spec PM_NQUEUES (Z.of_nat fl)) as [Hge|Hlt].
  - left. split; [done|]. intros h k Hb. destruct (decide (k < n)%nat) as [|Hk]; [done|exfalso].
    pose proof (block_order m B h k BFree I Hb) as Hk16. unfold PM_NQUEUES in Hge.
    destruct (list_get _ _ _ (pm_lists _ _ I) k Hk16) as (l & _ & Hl & _).
    assert (h ∈ l) as Hin by (by apply (lo_free _ _ _ (pm_lists _ _ I) k l)). rewrite (He k l) in Hin by (done || lia).
    by apply not_elem_of_nil in Hin.
  - right. unfold PM_NQUEUES in Hlt. destruct (Hf ltac:(lia)) as (pg0 & l0 & Hl0).
    destruct (split_down_spec (fl - n) m B n pg0 l0 (Z.to_nat PM_NQUEUES) I) as (m1 & B1 & pg & l & E1 & I1 & Hl1 & HR).
    { by replace (n + (fl - n))%nat with fl by lia. } { unfold PM_NQUEUES. lia. }
    replace (n + (fl - n))%nat with fl in E1 by lia. rewrite E1. cbn [mbind outcome_bind].
    destruct (take_spec m1 B1 n pg l I1 Hl1) as (m' & -> & I' & _). cbn [mbind outcome_bind].
    exists pg, m', B1. destruct (free_head m1 B1 n pg l I1 Hl1) as (_ & Hb & _). split_and!; done.
Qed.

(** C17: A request for [2 ^ n] contiguous pages is refused only if every free block is
    smaller, and nothing changes then.  Otherwise it returns a block of exactly that size
    that lies in a block that was free, so apart from every block in use; the other
    blocks in use are untouched, and the free lists stay consistent with the pages. *)
Theorem vm_page_alloc_correct m B (n : nat) :
  pm_inv m B ->
  (vm_page_alloc m (bsize n) = Ok (None, m) /\ forall h k, B !! h = Some (k, BFree) -> (k < n)%nat) \/
  exists pg m' B', vm_page_alloc m (bsize n) = Ok (Some pg, m') /\ pm_inv m' B' /\
    B' !! pg = Some (n, BUsed) /\
    (exists h k, B !! h = Some (k, BFree) /\ h <= pg /\ pg + bsize n <= h + bsize k) /\
    forall h k, h <> pg -> B' !! h = Some (k, BUsed) <-> B !! h = Some (k, BUsed).
Proof.
  intros I. destruct (decide (n < 16)%nat) as [Hn|Hn].
  - destruct (page_alloc_spec m B n I Hn) as [|(pg & m' & B1 & E & [R1 R2] & Hb & I')]; [by left|]. right.
    exists pg, m', (<[pg := (n, BUsed)]> B1). split_and!; try done; [by rewrite lookup_insert_eq|by apply R2|].
    intros h k Hne. rewrite lookup_insert_ne by done. by apply R1.
  - left. split.
    + apply alloc_big; [apply bsize_pos|apply powerof2_pow2; lia|]. change (2 ^ 16) with (bsize 16). apply bsize_mono. lia.
    + intros h k Hb. pose proof (block_order m B h k BFree I Hb). lia.
Qed.

(** ** Releasing a block *)

Lemma lists_same F C B B' :
  lists_ok F C B -> (forall h j, B' !! h = Some (j, BFree) <-> B !! h = Some (j, BFree)) -> lists_ok F C B'.
Proof. intros [L1 L2 L3 L4] HB. split; try done. intros i l pg Hi. by rewrite HB, (L4 i l pg Hi). Qed.

(** A segment that contains one page of a block contains the block. *)
Lemma block_seg m B sg h k st i :
  pm_inv m B -> B !! h = Some (k, st) -> sg ∈ seglist m -> h <= i < h + bsize k -> in_seg sg i 1 ->
  used sg = false /\ in_seg sg h (bsize k).
Proof.
  intros I Hb Hsg Hi Hin. destruct (pm_block _ _ I h k st Hb) as ((sg' & Hsg' & Hu & Hin') & _).
  destruct (decide (sg = sg')) as [->|Hne]; [done|].
  destruct (so_apart _ _ (pm_segs _ _ I) sg sg' Hsg Hsg' Hne) as [_ Hap]. unfold in_seg in *. lia.
Qed.

(** The buddy of a block is on the side on which both make a block of the next order. *)
Definition buddy_of sg (pg : Z) (k : nat) : Z := if (pg - seg_pages sg) `mod` bsize (S k) =? 0 then pg + bsize k else pg - bsize k.

Definition free_buddy sg B (pg : Z) (k : nat) : option Z :=
  let b := buddy_of sg pg k in
  if bool_decide (seg_pages sg <= b < seg_pages sg + npages sg /\ B !! b = Some (k, BFree)) then Some b else None.

(** A block that belongs to no list grows by its free buddies. *)
Fixpoint merge_up (n : nat) sg B (pg : Z) (k : nat) : Z * nat * blocks :=
  match n with
  | O => (pg, k, B)
  | S n =>
      match free_buddy sg B pg k with
      | None => (pg, k, B)
      | Some b => merge_up n sg (delete b B) (Z.min pg b) (S k)
      end
  end.

Lemma free_buddy_some sg B pg k b : free_buddy sg B pg k = Some b ->
  b = buddy_of sg pg k /\ (b = pg + bsize k \/ b = pg - bsize k) /\ seg_pages sg <= b < seg_pages sg + npages sg /\ B !! b = Some (k, BFree).
Proof. unfold free_buddy. case_bool_decide as H; [|done]. intros [= <-]. split_and!; try tauto; try lia. unfold buddy_of. destruct (_ =? 0); auto. Qed.

Lemma find_buddy_spec m B sg pg k :
  pm_inv m B -> B !! pg = Some (k, BTransit) -> sg ∈ seglist m -> in_seg sg pg (bsize k) ->
  pm_find_buddy m sg pg = Ok (free_buddy sg B pg k).
Proof.
  intros I Hb Hsg Hin. pose proof (bsize_pos k) as Hpos.
  destruct (pm_block _ _ I _ _ _ Hb) as (_ & (p & Hp & Hsz) & _).
  destruct (so_size _ _ (pm_segs _ _ I) sg Hsg) as (_ & Hs0 & Hs1 & _).
  unfold pm_find_buddy. rewrite (pget_get m pg p) by done. cbn [mbind outcome_bind]. rewrite Hsz.
  assert (powerof2 (bsize k) = true) as H2 by (apply powerof2_pow2; lia). rewrite H2. cbn [assert mbind outcome_bind].
  unfold free_buddy, buddy_of. rewrite bsize_S. set (buddy := if _ =? 0 then _ else _).
  destruct (Z.ltb_spec (buddy - seg_pages sg) 0); [rewrite bool_decide_false; [done|lia]|].
  destruct (Z.leb_spec (npages sg) (buddy - seg_pages sg)); [rewrite bool_decide_false; [done|lia]|]. cbn [orb].
  assert (exists q, pget m buddy = Some q) as [q Hq].
  { unfold pget. destruct (Z.leb_spec 0 buddy); [|lia]. apply lookup_lt_is_Some. lia. }
  rewrite (pget_get m buddy q) by done. cbn [mbind outcome_bind].
  case_bool_decide as HB.
  - destruct HB as [_ HB]. destruct (pm_block _ _ I _ _ _ HB) as (_ & (q' & Hq' & Hsq') & _). assert (q' = q) as -> by congruence.
    rewrite Hsq', Z.eqb_refl, (proj2 (pm_managed _ _ I buddy q Hq)); [done|by exists k].
  - destruct (Z.eqb_spec (pg_size q) (bsize k)) as [Eq|]; [cbn [negb]|done].
    destruct (flag_on (flags q) PG_MANAGED) eqn:HM; [cbn [negb]|done]. exfalso. apply HB. split; [lia|].
    apply (pm_managed _ _ I buddy q Hq) in HM as [j Hj].
    destruct (pm_block _ _ I _ _ _ Hj) as (_ & (q' & Hq' & Hsq') & _). assert (q' = q) as -> by congruence.
    assert (bsize j = bsize k) as Ejk by congruence. assert (j = k) as ->; [|done].
    apply (f_equal Z.log2) in Ejk. rewrite !bsize_log in Ejk. lia.
Qed.

(** A page that is part of a free block *)
Definition free_at B (i : Z) : Prop := exists h j, B !! h = Some (j, BFree) /\ h <= i < h + bsize j.

(** What merging does to the blocks *)
Record merges sg B (pg : Z) (k : nat) (h : Z) (j : nat) B' : Prop := {
  mg_head : B' !! h = None;
  mg_done : free_buddy sg B' h j = None;
  mg_used x y : B' !! x = Some (y, BUsed) <-> B !! x = Some (y, BUsed);
  mg_range : h <= pg /\ pg + bsize k <= h + bsize j;
  mg_aligned : (bsize k | pg - seg_pages sg) -> (bsize j | h - seg_pages sg);
  mg_free i : free_at B i -> free_at B' i \/ h <= i < h + bsize j;
}.

Lemma merges_step sg B pg k b h j B' : B !! pg = None -> free_buddy sg B pg k = Some b ->
  merges sg (delete b B) (Z.min pg b) (S k) h j B' -> merges sg B pg k h j B'.
Proof.
  intros Hpg Hb [M1 M2 M3 M4 M5 M6]. destruct (free_buddy_some _ _ _ _ _ Hb) as (Eb & Hbud & _ & HB). pose proof (bsize_pos k). rewrite bsize_S in M4. split; try done.
  - intros x y. rewrite M3, lookup_delete_Some. split; [by intros []|]. intros Hx. split; [congruence|done].
  - lia.
  - intros [c Hc]. apply M5. rewrite bsize_S. unfold buddy_of in Eb. rewrite bsize_S, Hc in Eb. destruct (Z.eqb_spec ((c * bsize k) `mod` (2 * bsize k)) 0) as [E|E].
    + replace (Z.min pg b) with pg by lia. rewrite Hc. by apply Z.mod_divide; [lia|].
    + replace (Z.min pg b) with (pg - bsize k) by lia. rewrite Z.mul_mod_distr_r in E by lia. exists (c / 2). pose proof (Z.div_mod c 2 ltac:(lia)). pose proof (Z.mod_pos_bound c 2 ltac:(lia)).
      assert (c `mod` 2 = 1) as E2 by nia. rewrite E2 in *. nia.
  - intros i (x & y & Hx & Hi). destruct (decide (x = b)) as [->|Hne].
    + assert (y = k) as -> by congruence. right. lia.
    + apply M6. exists x, y. by rewrite lookup_delete_ne.
Qed.

Section merge.
Context (m : physmem) (B : blocks) (k : nat) (lo pg buddy : Z) (sg : vm_physseg).
Hypothesis I : pm_inv m B.
Hypothesis Hpg : B !! pg = Some (k, BTransit).
Hypothesis Hbuddy : B !! buddy = Some (k, BFree).
Hypothesis Hlo : pg = lo /\ buddy = lo + bsize k \/ buddy = lo /\ pg = lo + bsize k.
Hypothesis Hsg : sg ∈ seglist m.
Hypothesis Hu : used sg = false.
Hypothesis Hin : in_seg sg lo (bsize (S k)).

Definition merge_blocks : blocks := <[lo := (S k, BTransit)]> (delete (lo + bsize k) B).

Definition merge_pages (j : Z) : option vm_page :=
  (fun p => (if decide (j = lo) then set_size (bsize (S k)) else id)
    (if decide (j = buddy) then set_flags (flag_clr (flags p) PG_MANAGED) p else p)) <$> pget m j.

Lemma merge_free h j : merge_blocks !! h = Some (j, BFree) <-> h <> buddy /\ B !! h = Some (j, BFree).
Proof.
  pose proof (bsize_pos k). unfold merge_blocks. rewrite lookup_insert_Some, lookup_delete_Some. split.
  - intros [[_ ?]|(H1 & H2 & H3)]; [done|]. split; [|done]. destruct Hlo as [[E1 E2]|[E1 E2]]; congruence.
  - intros [H1 H2]. right. destruct Hlo as [[E1 E2]|[E1 E2]]; split_and!; congruence.
Qed.

Lemma merge_outside h k' st' :
  B !! h = Some (k', st') -> h <> lo -> h <> lo + bsize k -> h + bsize k' <= lo \/ lo + 2 * bsize k <= h.
Proof.
  intros Hh H1 H2. pose proof (bsize_pos k'). destruct Hlo as [[E1 E2]|[E1 E2]];
    pose proof (pm_apart _ _ I _ _ _ _ _ _ Hpg Hh ltac:(congruence));
    pose proof (pm_apart _ _ I _ _ _ _ _ _ Hbuddy Hh ltac:(congruence)); lia.
Qed.

Lemma merge_inside i : lo <= i < lo + 2 * bsize k ->
  exists p, pget m i = Some p /\ pv_empty p = true /\ (flag_on (flags p) PG_MANAGED = true <-> i = buddy).
Proof.
  intros Hi. pose proof (bsize_pos k).
  destruct (pm_block _ _ I _ _ _ Hpg) as (_ & _ & Ha1), (pm_block _ _ I _ _ _ Hbuddy) as (_ & _ & Ha2).
  assert (exists p, pget m i = Some p /\ pv_empty p = true) as (p & Hp & Hpv).
  { destruct Hlo as [[E1 E2]|[E1 E2]]; destruct (decide (i < lo + bsize k));
      first [destruct (Ha1 i ltac:(lia)) as (p & ? & ?)|destruct (Ha2 i ltac:(lia)) as (p & ? & _ & ?)]; by exists p. }
  exists p. split_and!; try done. rewrite (pm_managed _ _ I i p Hp). split; [|intros ->; by exists k].
  intros [j Hj]. destruct (decide (i = buddy)) as [|Hne]; [done|].
  pose proof (pm_apart _ _ I _ _ _ _ _ _ Hbuddy Hj ltac:(congruence)). pose proof (bsize_pos j).
  assert (i <> pg) by congruence. pose proof (pm_apart _ _ I _ _ _ _ _ _ Hpg Hj ltac:(congruence)).
  destruct Hlo as [[E1 E2]|[E1 E2]]; lia.
Qed.

Lemma merge_head h k2 st2 : merge_blocks !! h = Some (k2, st2) -> lo <= h < lo + 2 * bsize k ->
  h = lo /\ k2 = S k /\ st2 = BTransit.
Proof.
  intros Hh Hr. unfold merge_blocks in Hh. rewrite lookup_insert_Some, lookup_delete_Some in Hh.
  destruct Hh as [[<- [= <- <-]]|(H1 & H2 & H3)]; [done|].
  pose proof (merge_outside h k2 st2 H3 ltac:(congruence) ltac:(congruence)). pose proof (bsize_pos k2). lia.
Qed.

Lemma merge_region m' :
  seglist m' = seglist m -> length (pages m') = length (pages m) -> (forall j, pget m' j = merge_pages j) ->
  region m B m' merge_blocks lo (lo + bsize (S k)).
Proof.
  intros Es El G. pose proof (bsize_pos k) as Hpos. rewrite bsize_S in *.
  split; try done.
  - intros i Hi. rewrite G. unfold merge_pages. destruct (pget m i); [cbn|done].
    repeat case_decide; try done; destruct Hlo as [[E1 E2]|[E1 E2]]; lia.
  - intros i q q' Hq. rewrite G. unfold merge_pages. rewrite Hq. cbn. intros [= <-]. by repeat case_decide.
  - intros h Hh. unfold merge_blocks. rewrite lookup_insert_ne, lookup_delete_ne by lia. done.
  - intros h k2 st2 Hh. destruct (decide (h = lo)) as [->|H1]; [|destruct (decide (h = lo + bsize k)) as [->|H2]].
    + assert (k2 = k) as -> by (destruct Hlo as [[E1 E2]|[E1 E2]]; congruence). lia.
    + assert (k2 = k) as -> by (destruct Hlo as [[E1 E2]|[E1 E2]]; congruence). lia.
    + pose proof (merge_outside h k2 st2 Hh H1 H2). lia.
  - intros h k2 st2 Hh Hr. destruct (merge_head h k2 st2 Hh Hr) as (-> & -> & ->). rewrite bsize_S. split; [lia|].
    split; [exists sg; rewrite Es, bsize_S; done|]. rewrite bsize_S. split.
    + destruct (merge_inside lo ltac:(lia)) as (p & Hp & _). eexists. rewrite G. unfold merge_pages. rewrite Hp, decide_True by done.
      split; [done|]. by case_decide; rewrite <- bsize_S.
    + intros i Hi. destruct (merge_inside i ltac:(lia)) as (p & Hp & Hpv & _). eexists. rewrite G. unfold merge_pages. rewrite Hp.
      split; [done|]. by repeat case_decide.
  - intros h1 k1 st1 h2 k2 st2 H1 H2 Hne Hr1 Hr2. destruct (merge_head _ _ _ H1 Hr1), (merge_head _ _ _ H2 Hr2). congruence.
  - intros i q' Hi. rewrite G. unfold merge_pages. destruct (merge_inside i Hi) as (q & -> & _ & HM). cbn. intros [= <-]. split.
    + intros Hm. exfalso. destruct (decide (i = buddy)) as [->|Hne].
      * assert (flag_on (flag_clr (flags q) PG_MANAGED) PG_MANAGED = true) as Hc by (by destruct (decide (buddy = lo))).
        by rewrite (flag_clr_eq 1) in Hc.
      * apply Hne, HM. by destruct (decide (i = lo)).
    + intros [j Hj]. by destruct (merge_head _ _ _ Hj Hi) as (_ & _ & ?).
  - intros i Hi. exists lo, (S k), BTransit. unfold merge_blocks. rewrite lookup_insert_eq, bsize_S. done.
Qed.
End merge.

Lemma merge_step m B sg pg buddy k :
  pm_inv m B -> B !! pg = Some (k, BTransit) -> B !! buddy = Some (k, BFree) ->
  (buddy = pg + bsize k \/ buddy = pg - bsize k) -> sg ∈ seglist m -> used sg = false ->
  in_seg sg pg (bsize k) -> in_seg sg buddy (bsize k) ->
  exists b m', arr_get (pages m) buddy = Ok b /\
    (m ← fl_remove m (FREELIST (pg_size b)) buddy;
     m ← count_add m (FREELIST (pg_size b)) (-1);
     m ← upd_page m buddy (fun p => set_flags (flag_clr (flags p) PG_MANAGED) p);
     pm_merge_buddies m pg buddy) = Ok (Z.min pg buddy, m') /\
    seglist m' = seglist m /\ pm_inv m' (merge_blocks B k (Z.min pg buddy)).
Proof.
  intros I Hpg Hb Hbud Hsg Hu Hin Hin'. pose proof (bsize_pos k) as Hpos. remember (Z.min pg buddy) as lo eqn:Elo.
  assert (pg = lo /\ buddy = lo + bsize k \/ buddy = lo /\ pg = lo + bsize k) as Hlo by lia.
  assert (in_seg sg lo (bsize (S k))) as Hinlo by (rewrite bsize_S; unfold in_seg in *; lia).
  destruct (pm_block _ _ I _ _ _ Hb) as (_ & (b & Hbp & Hbs) & _), (pm_block _ _ I _ _ _ Hpg) as (_ & (p & Hp & Hps) & _).
  pose proof (block_order m B buddy k BFree I Hb) as Hk.
  destruct (list_get _ _ _ (pm_lists _ _ I) k Hk) as (l & _ & Hl & _).
  pose proof (lo_count _ _ _ (pm_lists _ _ I) k l Hl) as Hc.
  assert (buddy ∈ l) as Hinl by (by apply (lo_free _ _ _ (pm_lists _ _ I) k l)).
  exists b. rewrite (pget_get m buddy b) by done. unfold FREELIST. rewrite Hbs, bsize_log.
  rewrite (fl_remove_ok m k l Hl) by done. cbn [mbind outcome_bind].
  rewrite (count_add_ok (set_freelist _ m) k (Z.of_nat (length l))) by exact Hc. cbn [mbind outcome_bind]. set (m1 := set_pagecount _ _).
  destruct (upd_page_spec m1 buddy b (fun p => set_flags (flag_clr (flags p) PG_MANAGED) p) Hbp)
    as (m2 & -> & (A1 & A2 & A3) & L2 & G2). cbn [mbind outcome_bind].
  assert (pg <> buddy) as Hne by congruence. unfold pm_merge_buddies.
  rewrite (pget_get m2 pg p) by (by rewrite G2, decide_False). cbn [mbind outcome_bind].
  rewrite (pget_get m2 buddy (set_flags (flag_clr (flags b) PG_MANAGED) b)) by (by rewrite G2, decide_True).
  cbn [mbind outcome_bind set_flags pg_size]. rewrite Hps, Hbs. assert_step lia.
  assert ((if buddy <? pg then (buddy, pg) else (pg, buddy)) = (lo, lo + bsize k)) as ->.
  { destruct (Z.ltb_spec buddy pg); f_equal; lia. }
  assert (exists q, pget m2 lo = Some q /\ pg_size q = bsize k) as (q & Hq & Hqs).
  { rewrite G2. destruct Hlo as [[E1 E2]|[E1 E2]]; case_decide; try lia.
    - exists p. by rewrite <- E1.
    - eexists. split; [done|]. done. }
  rewrite (pget_get m2 lo q) by done. cbn [mbind outcome_bind]. rewrite Hqs. assert_step lia.
  destruct (upd_page_spec m2 lo q (fun p => set_size (uwrap 32 (pg_size p * 2)) p) Hq) as (m' & -> & (D1 & D2 & D3) & L' & G').
  cbn [mbind outcome_bind]. exists m'. split_and!; try done; [by rewrite D1, A1|].
  assert (uwrap 32 (bsize k * 2) = bsize (S k)) as Hsz.
  { rewrite bsize_S, uwrap_small; [lia|]. pose proof (bsize_mono k 15 ltac:(lia)). change (bsize 15) with 32768 in *. lia. }
  apply (region_inv m B m' _ lo (lo + bsize (S k)) I).
  - apply (merge_region m B k lo pg buddy sg I Hpg Hb Hlo Hsg Hu Hinlo); [by rewrite D1, A1|by rewrite L', L2|].
    intros j. rewrite G', G2. change (pget m1 j) with (pget m j). unfold merge_pages. rewrite Hqs, Hsz.
    destruct (decide (j = lo)) as [->|Hj].
    + rewrite G2 in Hq. change (pget m1 lo) with (pget m lo) in Hq. destruct (decide (lo = buddy)) as [E|E].
      * rewrite E, Hbp in *. cbn. congruence.
      * by rewrite Hq.
    + destruct (decide (j = buddy)) as [->|]; [by rewrite Hbp|by destruct (pget m j)].
  - rewrite D2, D3, A2, A3. cbn. change (Z.of_nat (length l) + -1) with (Z.of_nat (length l) - 1).
    eapply (lists_same _ _ (delete buddy B)).
    + apply (lists_remove _ _ B (pm_lists _ _ I) _ buddy k l Hb Hl).
      * intros h Hh. by rewrite lookup_delete_ne.
      * intros j. by rewrite lookup_delete_eq.
    + intros h j. rewrite (merge_free B k lo pg buddy), lookup_delete_Some by done. split; [|intros []; done]. intros []; split; congruence.
Qed.

Lemma merge_loop_spec sg (fuel : nat) : forall m B pg k,
  pm_inv m (<[pg := (k, BTransit)]> B) -> B !! pg = None -> sg ∈ seglist m -> used sg = false -> in_seg sg pg (bsize k) ->
  (16 - k < fuel)%nat ->
  exists h j m' B', merge_up fuel sg B pg k = (h, j, B') /\ merge_loop fuel m sg pg = Ok (h, m') /\
    pm_inv m' (<[h := (j, BTransit)]> B') /\ seglist m' = seglist m /\ merges sg B pg k h j B'.
Proof.
  induction fuel as [|fuel IH]; intros m B pg k I Hpg Hsg Hu Hin Hf; [lia|]. cbn [merge_loop merge_up].
  set (B1 := <[pg := (k, BTransit)]> B) in *. assert (B1 !! pg = Some (k, BTransit)) as Hpg1 by apply lookup_insert_eq. pose proof (bsize_pos k) as Hpos.
  assert (free_buddy sg B1 pg k = free_buddy sg B pg k) as Eb.
  { assert (buddy_of sg pg k <> pg) as Hne by (unfold buddy_of; destruct (_ =? 0); lia). unfold free_buddy, B1. by rewrite lookup_insert_ne. }
  rewrite (find_buddy_spec m B1 sg pg k I Hpg1 Hsg Hin), Eb. cbn [mbind outcome_bind]. destruct (free_buddy sg B pg k) as [buddy|] eqn:Ef.
  2: { exists pg, k, m, B. split_and!; try done. split; try done. by left. }
  destruct (free_buddy_some _ _ _ _ _ Ef) as (_ & Hbud & Hr & HB). assert (B1 !! buddy = Some (k, BFree)) as HB1 by (unfold B1; rewrite lookup_insert_ne; [done|congruence]).
  assert (in_seg sg buddy (bsize k)) as Hinb by (apply (block_seg m B1 sg buddy k BFree buddy); try done; [lia|unfold in_seg; lia]).
  destruct (merge_step m B1 sg pg buddy k I Hpg1 HB1 Hbud Hsg Hu Hin Hinb) as (b & m1 & -> & E & Es & I1).
  cbn [mbind outcome_bind]. apply bind_ok in E as (ma & -> & E). cbn [mbind outcome_bind].
  apply bind_ok in E as (mb & -> & E). cbn [mbind outcome_bind]. apply bind_ok in E as (mc & -> & E).
  cbn [mbind outcome_bind]. rewrite E. cbn [mbind outcome_bind]. pose proof (block_order m B1 pg k BTransit I Hpg1) as Hk.
  assert (merge_blocks B1 k (Z.min pg buddy) = <[Z.min pg buddy := (S k, BTransit)]> (delete buddy B)) as EB.
  { unfold merge_blocks, B1. apply map_eq. intros i. destruct (decide (i = Z.min pg buddy)) as [->|Hi]; [by rewrite !lookup_insert_eq|]. rewrite !(lookup_insert_ne _ (Z.min pg buddy)) by done.
    rewrite !lookup_delete, lookup_insert. repeat case_decide; try lia; try done. by replace i with pg by lia. }
  rewrite EB in I1. destruct (IH m1 (delete buddy B) (Z.min pg buddy) (S k) I1) as (h & j & m' & B' & -> & -> & I' & Es' & Hm).
  { rewrite lookup_delete. case_decide; [done|]. by replace (Z.min pg buddy) with pg by lia. }
  { by rewrite Es. } { done. } { rewrite bsize_S. unfold in_seg in *. lia. } { lia. }
  exists h, j, m', B'. split_and!; try done; [congruence|]. by apply (merges_step sg B pg k buddy).
Qed.

Lemma release_pages_spec (n : nat) : forall m i,
  (forall j, i <= j < i + Z.of_nat n -> exists p, pget m j = Some p /\ pv_empty p = true) ->
  exists m', release_pages m i n = Ok m' /\ same_lists m m' /\ length (pages m') = length (pages m) /\
    forall j, pget m' j = if decide (i <= j < i + Z.of_nat n) then
      (fun p => set_flags (flag_clr (flag_clr (flags p) PG_ALLOCATED) (Z.lor PG_REFERENCED PG_MODIFIED)) p) <$> pget m j
      else pget m j.
Proof.
  induction n as [|n IH]; intros m i Hin.
  { exists m. split_and!; try done. intros j. by rewrite decide_False by lia. }
  destruct (Hin i ltac:(lia)) as (p & Hp & Hpv). cbn [release_pages]. rewrite (pget_get m i p) by done.
  cbn [mbind outcome_bind]. rewrite Hpv. cbn [assert mbind outcome_bind].
  match goal with |- context [upd_page m i ?g] => destruct (upd_page_spec m i p g Hp) as (m1 & -> & S1 & L1 & G1) end.
  cbn [mbind outcome_bind]. destruct (IH m1 (i + 1)) as (m' & -> & S' & L' & G').
  { intros j Hj. rewrite G1, decide_False by lia. apply Hin. lia. }
  exists m'. split_and!; [done| |congruence|].
  - destruct S1 as (? & ? & ?), S' as (? & ? & ?). split_and!; congruence.
  - intros j. rewrite G', !G1. repeat case_decide; subst; try lia; try done. by rewrite Hp.
Qed.

(** The block that has grown by merging goes to its free list. *)
Lemma finish_spec m B pg k :
  pm_inv m B -> B !! pg = Some (k, BTransit) ->
  exists p m', arr_get (pages m) pg = Ok p /\
    (m ← fl_insert_head m (FREELIST (pg_size p)) pg;
     m ← count_add m (FREELIST (pg_size p)) 1;
     m ← upd_page m pg (fun p => set_flags (flag_set (flags p) PG_MANAGED) p);
     release_pages m pg (Z.to_nat (pg_size p))) = Ok m' /\
    seglist m' = seglist m /\ pm_inv m' (<[pg := (k, BFree)]> B).
Proof.
  intros I Hb. pose proof (bsize_pos k) as Hpos. destruct (pm_block _ _ I _ _ _ Hb) as (_ & (p & Hp & Hps) & Hall).
  pose proof (block_order m B pg k BTransit I Hb) as Hk.
  destruct (list_get _ _ _ (pm_lists _ _ I) k Hk) as (l & _ & Hl & _).
  pose proof (lo_count _ _ _ (pm_lists _ _ I) k l Hl) as Hc.
  exists p. rewrite (pget_get m pg p) by done. unfold FREELIST. rewrite Hps, bsize_log.
  rewrite (fl_insert_head_ok m k l Hl). cbn [mbind outcome_bind].
  rewrite (count_add_ok (set_freelist _ m) k (Z.of_nat (length l))) by exact Hc. cbn [mbind outcome_bind]. set (m1 := set_pagecount _ _).
  destruct (upd_page_spec m1 pg p (fun p => set_flags (flag_set (flags p) PG_MANAGED) p) Hp)
    as (m2 & -> & (A1 & A2 & A3) & L2 & G2). cbn [mbind outcome_bind].
  destruct (release_pages_spec (Z.to_nat (bsize k)) m2 pg) as (m' & -> & (D1 & D2 & D3) & L' & G').
  { intros j Hj. destruct (Hall j ltac:(lia)) as (q & Hq & Hqs). rewrite G2. case_decide as Ej; [|by exists q].
    subst j. assert (q = p) as -> by congruence. eexists. split; [done|]. done. }
  rewrite Z2Nat.id in G' by lia. exists m'. split_and!; try done; [by rewrite D1, A1|].
  assert (forall j, pget m' j = if decide (pg <= j < pg + bsize k) then
      (fun p => set_flags (flag_clr (flag_clr (if decide (j = pg) then flag_set (flags p) PG_MANAGED else flags p) PG_ALLOCATED)
        (Z.lor PG_REFERENCED PG_MODIFIED)) p) <$> pget m j else pget m j) as G.
  { intros j. rewrite G', !G2. change (pget m1 j) with (pget m j). repeat case_decide; subst; try lia; try done. by rewrite Hp. }
  apply (region_inv m B m' _ pg (pg + bsize k) I).
  - apply (one_block_region m B pg I m' k BTransit BFree); try done; [by rewrite D1, A1|by rewrite L', L2|..].
    + intros i Hi. by rewrite G, decide_False.
    + intros i q q' Hq. rewrite G, Hq. case_decide; cbn; by intros [= <-].
    + intros i q q' Hi Hq. rewrite G, Hq, decide_True by done. cbn. intros [= <-]. cbn. split.
      * intros Hpv. split; [|done]. rewrite (flag_other _ _ _ false 0), (flag_clr_eq 0) by done. done.
      * rewrite (flag_other _ _ _ false 1), (flag_other _ _ _ false 1) by done. case_decide as Ei.
        -- rewrite (flag_set_eq 1) by done. subst i. done.
        -- split; [|by intros [? _]]. intros HM. apply (pm_managed _ _ I i q Hq) in HM as [k2 H2].
           pose proof (pm_apart _ _ I _ _ _ _ _ _ Hb H2 ltac:(congruence)). pose proof (bsize_pos k2). lia.
  - rewrite D2, D3, A2, A3. cbn. eapply (lists_add _ _ B (pm_lists _ _ I) _ pg k l); try done.
    + intros j. congruence.
    + intros h Hh. by rewrite lookup_insert_ne.
    + by rewrite lookup_insert_eq.
Qed.

(** A block in use whose pages are not mapped starts on its way back. *)
Lemma transit_inv m B pg k :
  pm_inv m B -> B !! pg = Some (k, BUsed) ->
  (forall i p, pg <= i < pg + bsize k -> pget m i = Some p -> pv_empty p = true) ->
  pm_inv m (<[pg := (k, BTransit)]> B).
Proof.
  intros I Hb Hpv. apply (region_inv m B m _ pg (pg + bsize k) I).
  - apply (one_block_region m B pg I m k BUsed BTransit); try done.
    + intros i p p' Hp Hp'. by simplify_eq.
    + intros i p p' Hi Hp Hp'. assert (p' = p) as -> by congruence. split; [intros _; by apply (Hpv i)|]. split; [|by intros [_ ?]].
      intros HM. apply (pm_managed _ _ I i p Hp) in HM as [k2 H2]. exfalso.
      pose proof (pm_apart _ _ I _ _ _ _ _ _ Hb H2 ltac:(congruence)). pose proof (bsize_pos k2). lia.
  - eapply lists_same; [apply I|]. intros h j. rewrite lookup_insert_Some. split; [by intros [[_ ?]|[_ ?]]|].
    intros Hh. right. split; [congruence|done].
Qed.

Lemma free_from_seg_spec m B sg pg k :
  pm_inv m B -> B !! pg = Some (k, BUsed) -> sg ∈ seglist m -> used sg = false -> in_seg sg pg (bsize k) ->
  (forall i p, pg <= i < pg + bsize k -> pget m i = Some p -> pv_empty p = true) ->
  exists m' h j B', merge_up 32 sg (delete pg B) pg k = (h, j, B') /\ pm_free_from_seg m sg pg = Ok m' /\
    pm_inv m' (<[h := (j, BFree)]> B') /\ merges sg (delete pg B) pg k h j B'.
Proof.
  intros I Hb Hsg Hu Hin Hpv. destruct (pm_block _ _ I _ _ _ Hb) as (_ & _ & Hall). pose proof (bsize_pos k) as Hpos.
  destruct (Hall pg ltac:(lia)) as (p & Hp & Ha). unfold pm_free_from_seg. rewrite (pget_get m pg p) by done.
  cbn [mbind outcome_bind]. cbn in Ha. rewrite Ha. cbn [negb].
  pose proof (transit_inv m B pg k I Hb Hpv) as I1. rewrite <- (insert_delete_eq B) in I1.
  destruct (merge_loop_spec sg 32 m (delete pg B) pg k I1) as (h & j & m1 & B' & Eu & -> & I2 & Es & Hm); try done; [apply lookup_delete_eq|lia|].
  cbn [mbind outcome_bind]. destruct (finish_spec m1 _ h j I2 (lookup_insert_eq _ _ _)) as (p' & m' & -> & E & _ & I').
  cbn [mbind outcome_bind]. rewrite E. rewrite insert_insert_eq in I'. by exists m', h, j, B'.
Qed.

Lemma free_in_segs_spec m B pg k p sg (sgs : list vm_physseg) :
  pm_inv m B -> B !! pg = Some (k, BUsed) -> pget m pg = Some p -> sg ∈ seglist m -> in_seg sg pg (bsize k) ->
  sgs ⊆ seglist m -> sg ∈ sgs -> free_in_segs m sgs pg p = pm_free_from_seg m sg pg.
Proof.
  intros I Hb Hp Hsg Hin Hsub Hi. pose proof (bsize_pos k) as Hpos. pose proof (pm_segs _ _ I) as [S1 S2 S3].
  destruct (pm_block _ _ I _ _ _ Hb) as (_ & (p' & Hp' & Hps) & _). assert (p' = p) as -> by congruence.
  assert (paddr p = seg_start sg + (pg - seg_pages sg) * PAGESIZE) as Ha by (apply (S2 sg pg p); try done; unfold in_seg in *; lia).
  destruct (S1 sg Hsg) as (_ & _ & _ & He). unfold in_seg, PAGESIZE in *.
  induction sgs as [|sg' sgs IH]; [by apply not_elem_of_nil in Hi|]. cbn [free_in_segs]. unfold PG_START, PG_END.
  rewrite Hps. unfold PAGESIZE.
  destruct (decide (sg' = sg)) as [->|Hne].
  { destruct (Z.leb_spec (seg_start sg) (paddr p)), (Z.leb_spec (paddr p + bsize k * 4096) (seg_end sg)); cbn [andb]; done || lia. }
  destruct (S3 sg' sg) as [Hap _]; [set_solver|done|done|]. destruct (S1 sg') as ((? & _) & _ & _ & He'); [set_solver|].
  destruct (Z.leb_spec (seg_start sg') (paddr p)), (Z.leb_spec (paddr p + bsize k * 4096) (seg_end sg')); cbn [andb]; try lia;
    apply IH; set_solver.
Qed.

Lemma page_merge_spec m B pg k :
  pm_inv m B -> B !! pg = Some (k, BUsed) ->
  (forall i p, pg <= i < pg + bsize k -> pget m i = Some p -> pv_empty p = true) ->
  exists m' sg h j B', vm_page_free m pg = Ok m' /\ sg ∈ seglist m /\ in_seg sg pg (bsize k) /\ merge_up 32 sg (delete pg B) pg k = (h, j, B') /\
    pm_inv m' (<[h := (j, BFree)]> B') /\ merges sg (delete pg B) pg k h j B'.
Proof.
  intros I Hb Hpv. destruct (pm_block _ _ I _ _ _ Hb) as ((sg & Hsg & Hu & Hin) & (p & Hp & _) & _).
  unfold vm_page_free, vm_page_free_nolock. rewrite (pget_get m pg p) by done. cbn [mbind outcome_bind].
  rewrite (free_in_segs_spec m B pg k p sg) by done.
  destruct (free_from_seg_spec m B sg pg k I Hb Hsg Hu Hin Hpv) as (m' & h & j & B' & E & Ef & I' & Hm).
  by exists m', sg, h, j, B'.
Qed.

(** The same, without the way the blocks are merged *)
Lemma page_free_spec m B pg k :
  pm_inv m B -> B !! pg = Some (k, BUsed) ->
  (forall i p, pg <= i < pg + bsize k -> pget m i = Some p -> pv_empty p = true) ->
  exists m' B', vm_page_free m pg = Ok m' /\ pm_inv m' B' /\
    (forall h j, B' !! h = Some (j, BUsed) <-> B !! h = Some (j, BUsed) /\ h <> pg) /\
    forall i, free_at B i \/ pg <= i < pg + bsize k -> free_at B' i.
Proof.
  intros I Hb Hpv. destruct (page_merge_spec m B pg k I Hb Hpv) as (m' & sg & h & j & B' & E & _ & _ & _ & I' & [M1 M2 M3 M4 M5 M6]).
  exists m', (<[h := (j, BFree)]> B'). split_and!; try done.
  - intros x y. rewrite lookup_insert_Some, M3, lookup_delete_Some. split; [naive_solver|]. intros [Hx Hne]. right. split; [|done].
    intros <-. assert (B' !! h = Some (y, BUsed)) as H by (apply M3; by rewrite lookup_delete_ne). congruence.
  - intros i Hi. assert (free_at B' i \/ h <= i < h + bsize j) as [(x & y & Hx & Hr)|Hr].
    { destruct Hi as [(x & y & Hx & Hr)|Hr]; [|right; lia]. apply M6. exists x, y. rewrite lookup_delete_ne; [done|congruence]. }
    + exists x, y. rewrite lookup_insert_ne; [done|congruence].
    + exists h, j. by rewrite lookup_insert_eq.
Qed.

(** C13: Releasing a block in use whose pages are mapped nowhere never fails, in memory whose
    segments have less than [2 ^ 16] pages.  The block is merged with its buddy as long as
    that is free: the buddy is the neighbour in the segment with which it makes a block
    aligned to twice the size, and the block that results has no free buddy.  It is
    free, aligned to its size if the released block was, and contains all its pages;
    all other blocks stay, and the free lists are consistent with the pages. *)
Theorem vm_page_free_correct m B pg k :
  pm_inv m B -> B !! pg = Some (k, BUsed) ->
  (forall i p, pg <= i < pg + bsize k -> pget m i = Some p -> pv_empty p = true) ->
  exists m' sg h j B', vm_page_free m pg = Ok m' /\ sg ∈ seglist m /\ in_seg sg pg (bsize k) /\
    merge_up 32 sg (delete pg B) pg k = (h, j, B') /\ pm_inv m' (<[h := (j, BFree)]> B') /\
    free_buddy sg B' h j = None /\ h <= pg /\ pg + bsize k <= h + bsize j /\
    ((bsize k | pg - seg_pages sg) -> (bsize j | h - seg_pages sg)) /\
    forall x y, B' !! x = Some (y, BUsed) <-> B !! x = Some (y, BUsed) /\ x <> pg.
Proof.
  intros I Hb Hpv. destruct (page_merge_spec m B pg k I Hb Hpv) as (m' & sg & h & j & B' & E & Hsg & Hin & Eu & I' & [M1 M2 M3 M4 M5 M6]).
  exists m', sg, h, j, B'. split_and!; try done; [lia|lia|]. intros x y. rewrite M3, lookup_delete_Some. naive_solver.
Qed.

(** ** Allocation of a list of pages *)

(** The pages on the first [k] free lists, according to the counters. *)
Fixpoint avail (C : list Z) (k : nat) : Z :=
  match k with O => 0 | S k => avail C k + C !!! k * bsize k end.

Lemma avail_insert C i x k :
  (i < length C)%nat ->
  avail (<[i := x]> C) k = avail C k + (if decide (i < k)%nat then (x - C !!! i) * bsize i else 0).
Proof.
  intros Hi. induction k as [|k IH]; [by rewrite decide_False by lia|]. cbn [avail]. rewrite IH.
  destruct (decide (i = k)) as [->|Hne].
  - rewrite list_lookup_total_insert_eq by done. rewrite decide_False, decide_True by lia. lia.
  - rewrite list_lookup_total_insert_ne by done. repeat case_decide; lia.
Qed.

Lemma shiftl_bsize c (i : nat) : Z.shiftl c (Z.of_nat i) = c * bsize i.
Proof. rewrite Z.shiftl_mul_pow2 by lia. done. Qed.

Lemma list_sums_spec n C (cs : list Z) : forall j : nat,
  drop j C = cs ->
  exists fl : nat, list_sums cs (Z.of_nat j) (avail C j) n (avail C <$> seq 1 j) =
      (Z.of_nat fl, (if decide (fl < length C)%nat then avail C (S fl) else avail C fl),
       avail C <$> seq 1 (if decide (fl < length C)%nat then S fl else fl)) /\
    ((fl < length C)%nat /\ n <= avail C (S fl) \/ fl = (j + length cs)%nat /\ (avail C fl < n \/ cs = [])).
Proof.
  induction cs as [|c cs IH]; intros j Hd.
  { exists j. cbn. assert (length C <= j)%nat as Hlen by (apply drop_nil_inv in Hd; lia).
    rewrite !decide_False by lia. split; [done|]. right. split; [lia|by right]. }
  assert (C !! j = Some c) as Hj.
  { pose proof (f_equal (fun l => l !! 0%nat) Hd) as E. cbn in E. rewrite lookup_drop, Nat.add_0_r in E. done. }
  pose proof (lookup_lt_Some _ _ _ Hj) as Hlt. cbn [list_sums]. rewrite shiftl_bsize.
  assert (avail C j + c * bsize j = avail C (S j)) as -> by (cbn; by rewrite (list_lookup_total_correct _ _ _ Hj)).
  assert (avail C <$> seq 1 j ++ [S j] = avail C <$> seq 1 (S j)) as Hseq by (by rewrite seq_S).
  assert ((avail C <$> seq 1 j) ++ [avail C (S j)] = avail C <$> seq 1 (S j)) as -> by (rewrite <- Hseq, fmap_app; done).
  destruct (Z.leb_spec n (avail C (S j))) as [Hle|Hgt].
  - exists j. rewrite !decide_True by done. split; [done|]. left. done.
  - replace (Z.of_nat j + 1) with (Z.of_nat (S j)) by lia. destruct (IH (S j)) as (fl & E & HH).
    { replace (S j) with (j + 1)%nat by lia. rewrite <- drop_drop, Hd. done. }
    exists fl. split; [done|]. destruct HH as [|[-> HH]]; [by left|]. right. cbn [length]. split; [lia|].
    left. destruct HH as [|Hc]; [done|]. subst cs. cbn. by rewrite Nat.add_0_r.
Qed.

(** The blocks handed out so far, with their orders, and what is still free. *)
Definition handed_out B B' (bs : list (Z * nat)) : Prop :=
  NoDup bs.*1 /\ (forall h, h ∈ bs.*1 -> forall j, B !! h <> Some (j, BUsed)) /\
  forall h j, B' !! h = Some (j, BUsed) <-> B !! h = Some (j, BUsed) \/ (h, j) ∈ bs.

Fixpoint total_size (bs : list (Z * nat)) : Z :=
  match bs with [] => 0 | (_, k) :: bs => bsize k + total_size bs end.

Lemma total_size_snoc bs h k : total_size (bs ++ [(h, k)]) = total_size bs + bsize k.
Proof. induction bs as [|[h' k'] bs IH]; cbn [app total_size]; lia. Qed.

Lemma handed_split B B' bs m k pg l :
  handed_out B B' bs -> pm_inv m B' -> freelist m !! S k = Some (pg :: l) -> handed_out B (split_blocks B' k pg) bs.
Proof.
  intros (H1 & H2 & H3) I Hl. destruct (split_refines m B' k pg l I Hl) as [R _]. split_and!; try done.
  intros h j. by rewrite (R h j BUsed).
Qed.

Lemma handed_take B B' bs m k pg l :
  handed_out B B' bs -> pm_inv m B' -> freelist m !! k = Some (pg :: l) ->
  handed_out B (<[pg := (k, BUsed)]> B') (bs ++ [(pg, k)]).
Proof.
  intros (H1 & H2 & H3) I Hl. destruct (free_head m B' k pg l I Hl) as (_ & Hb & _).
  assert (pg ∉ bs.*1) as Hn.
  { intros Hin. apply list_elem_of_fmap in Hin as ([h j] & E & Hin). cbn in E. subst h.
    assert (B' !! pg = Some (j, BUsed)) by (apply H3; by right). congruence. }
  assert (forall j, B !! pg <> Some (j, BUsed)) as Hnu.
  { intros j Hj. assert (B' !! pg = Some (j, BUsed)) by (apply H3; by left). congruence. }
  unfold handed_out. rewrite fmap_app. cbn [fmap list_fmap fst]. split_and!.
  - apply NoDup_app. split_and!; [done|set_solver|apply NoDup_singleton].
  - intros h [Hh|Hh%list_elem_of_singleton]%elem_of_app; [by apply H2|by subst].
  - intros h j. rewrite lookup_insert_Some, elem_of_app, list_elem_of_singleton. destruct (decide (h = pg)) as [->|Hne].
    + split.
      * intros [[_ [= ->]]|[? _]]; [by right; right|done].
      * intros [Hj|[Hin|[= ->]]]; [by apply Hnu in Hj| |by left].
        exfalso. apply Hn, list_elem_of_fmap. by exists (pg, j).
    + rewrite H3. naive_solver.
Qed.

(** The counters agree with the sums of the lists below [fl]. *)
Definition sums_ok m (fl : nat) (sums : list Z) : Prop :=
  (fl <= length sums)%nat /\ forall i, (i < fl)%nat -> sums !! i = Some (avail (pagecount m) (S i)).

Lemma count_total m B k l : pm_inv m B -> freelist m !! k = Some l -> pagecount m !!! k = Z.of_nat (length l).
Proof. intros I Hl. apply list_lookup_total_correct, (lo_count _ _ _ (pm_lists _ _ I) k l Hl). Qed.

Lemma avail_mono m B (i j : nat) : pm_inv m B -> (i <= j)%nat -> avail (pagecount m) i <= avail (pagecount m) j.
Proof.
  intros I Hij. induction Hij as [|j Hij IH]; [done|]. cbn [avail]. pose proof (bsize_pos j).
  assert (0 <= pagecount m !!! j); [|nia].
  destruct (freelist m !! j) as [l|] eqn:Hl; [rewrite (count_total m B j l I Hl); lia|].
  rewrite list_lookup_total_alt. destruct (pagecount m !! j) eqn:Ej; [|done].
  apply lookup_ge_None in Hl. apply lookup_lt_Some in Ej. destruct (lo_len _ _ _ (pm_lists _ _ I)). lia.
Qed.

(** The list [fl] has a block if the lists below it do not suffice. *)
Lemma list_nonempty m B (fl : nat) n :
  pm_inv m B -> (fl < 16)%nat -> n <= avail (pagecount m) (S fl) -> avail (pagecount m) fl < n ->
  exists pg l, freelist m !! fl = Some (pg :: l).
Proof.
  intros I Hfl Hn Hp. destruct (list_get _ _ _ (pm_lists _ _ I) fl Hfl) as (l & _ & Hl & _).
  cbn [avail] in Hn. rewrite (count_total m B fl l I Hl) in Hn. destruct l as [|pg l]; [cbn in Hn; lia|]. eauto.
Qed.

Lemma collect_spec B0 (fuel : nat) : forall m B (fl : nat) n sums bs,
  pm_inv m B -> (fl < 16)%nat -> 0 <= n <= avail (pagecount m) (S fl) -> sums_ok m fl sums ->
  handed_out B0 B bs -> n + Z.of_nat fl < Z.of_nat fuel ->
  exists (bs' : list (Z * nat)) m' B', collect fuel m (Z.of_nat fl) n sums (bs.*1) = Ok (bs'.*1, m') /\ pm_inv m' B' /\
    handed_out B0 B' bs' /\ total_size bs' = total_size bs + n.
Proof.
  induction fuel as [|fuel IH]; intros m B fl n sums bs I Hfl Hn [Hsl Hs] HH Hf; [lia|]. cbn [collect].
  destruct (Z.ltb_spec 0 n) as [Hpos|]; [|exists bs, m, B; split_and!; try done; lia].
  assert ((if 0 <? Z.of_nat fl then arr_get sums (Z.of_nat fl - 1) else Ok 0) = Ok (avail (pagecount m) fl)) as ->.
  { destruct (Z.ltb_spec 0 (Z.of_nat fl)); [|by replace fl with 0%nat by lia]. destruct fl as [|fl']; [lia|].
    apply arr_get_ok. replace (Z.to_nat (Z.of_nat (S fl') - 1)) with fl' by lia. split; [lia|]. apply Hs. lia. }
  cbn [mbind outcome_bind]. destruct (Z.leb_spec n (avail (pagecount m) fl)) as [Hle|Hgt].
  { destruct fl as [|fl']; [cbn in Hle; lia|]. replace (Z.of_nat (S fl') - 1) with (Z.of_nat fl') by lia.
    apply (IH m B fl' n sums bs); try done; [lia|lia| |lia]. split; [lia|]. intros i Hi. apply Hs. lia. }
  destruct (list_nonempty m B fl n I Hfl ltac:(lia) Hgt) as (pg & l & Hl). rewrite shiftl_bsize, Z.mul_1_l.
  pose proof (count_total m B fl _ I Hl) as Hc. destruct (lo_len _ _ _ (pm_lists _ _ I)) as [_ HlenC].
  destruct (Z.ltb_spec n (bsize fl)) as [Hsm|Hbig].
  - destruct fl as [|k]; [change (bsize 0) with 1 in *; lia|].
    destruct (list_get _ _ _ (pm_lists _ _ I) k ltac:(lia)) as (lk & _ & Hlk & _).
    destruct (split_spec m B k pg l I Hl lk Hlk) as (m1 & -> & I1 & _ & EC). cbn [mbind outcome_bind].
    pose proof (count_total m B k _ I Hlk) as Hck.
    replace (Z.of_nat (S k) - 1) with (Z.of_nat k) by lia.
    assert (arr_get sums (Z.of_nat k) = Ok (avail (pagecount m) (S k))) as ->.
    { apply arr_get_ok. rewrite Nat2Z.id. split; [lia|]. apply Hs. lia. }
    cbn [mbind outcome_bind]. rewrite arr_set_ok by lia. cbn [mbind outcome_bind]. rewrite Nat2Z.id.
    assert (forall i, (i <= S k)%nat -> avail (pagecount m1) i = avail (pagecount m) i + (if decide (k < i)%nat then bsize (S k) else 0)) as Hav.
    { intros i Hi. rewrite EC, avail_insert by (rewrite length_insert; lia).
      rewrite list_lookup_total_insert_ne by lia. rewrite avail_insert by lia. rewrite Hck, bsize_S. repeat case_decide; lia. }
    apply (IH m1 (split_blocks B k pg) k n _ bs); try done; [lia| | |by apply (handed_split B0 B bs m k pg l)|lia].
    + rewrite Hav, decide_True by lia. pose proof (avail_mono m B 0 (S k) I ltac:(lia)) as Hm. change (avail (pagecount m) 0) with 0 in Hm. lia.
    + split; [rewrite length_insert; lia|]. intros i Hi. rewrite list_lookup_insert_ne by lia.
      rewrite Hs by lia. rewrite Hav, decide_False by lia. f_equal. lia.
  - destruct (take_spec m B fl pg l I Hl) as (m1 & -> & I1 & _ & EC). cbn [mbind outcome_bind].
    assert (forall i, avail (pagecount m1) i = avail (pagecount m) i - (if decide (fl < i)%nat then bsize fl else 0)) as Hav.
    { intros i. rewrite EC, avail_insert by lia. rewrite Hc. case_decide; lia. }
    replace (bs.*1 ++ [pg]) with (bs ++ [(pg, fl)]).*1 by (by rewrite fmap_app). pose proof (bsize_pos fl).
    destruct (IH m1 (<[pg := (fl, BUsed)]> B) fl (n - bsize fl) sums (bs ++ [(pg, fl)])) as (bs' & m' & B' & E & I' & HH' & Ht); try done.
    + rewrite Hav, decide_True by lia. lia.
    + split; [lia|]. intros i Hi. rewrite Hs by lia. rewrite Hav, decide_False by lia. f_equal. lia.
    + by apply (handed_take B0 B bs m fl pg l).
    + lia.
    + exists bs', m', B'. split_and!; try done. rewrite Ht, total_size_snoc. lia.
Qed.

Lemma handed_nil B : handed_out B B [].
Proof.
  split_and!; [constructor|set_solver|]. intros h j. split; [by left|]. intros [|Hin]; [done|]. by apply not_elem_of_nil in Hin.
Qed.

Lemma pagelist_alloc_spec m B n :
  pm_inv m B -> 0 <= n ->
  (vm_pagelist_alloc m n = Ok (ENOMEM, [], m) /\ avail (pagecount m) 16 < n) \/
  exists (bs : list (Z * nat)) m' B', vm_pagelist_alloc m n = Ok (0, bs.*1, m') /\ n <= avail (pagecount m) 16 /\
    pm_inv m' B' /\ total_size bs = n /\ handed_out B B' bs.
Proof.
  intros I Hn. destruct (lo_len _ _ _ (pm_lists _ _ I)) as [_ HlenC]. unfold vm_pagelist_alloc.
  destruct (list_sums_spec n (pagecount m) (pagecount m) 0 eq_refl) as (fl & E & HH). 
  match type of E with ?a = _ => change (list_sums (pagecount m) 0 0 n []) with a end. rewrite E. clear E.
  destruct HH as [[Hfl Hle]|[-> HH]].
  - rewrite !decide_True by done. destruct (Z.ltb_spec (avail (pagecount m) (S fl)) n); [lia|]. right.
    destruct (collect_spec B (Z.to_nat n + 16) m B fl n (avail (pagecount m) <$> seq 1 (S fl)) [] I) as (bs & m' & B' & E & I' & HH & Ht).
    + lia.
    + lia.
    + split; [rewrite length_fmap, length_seq; lia|]. intros i Hi. rewrite list_lookup_fmap, lookup_seq_lt by lia. done.
    + apply handed_nil.
    + lia.
    + cbn [fmap list_fmap] in E. rewrite E. exists bs, m', B'. split_and!; try done.
      pose proof (avail_mono m B (S fl) 16 I ltac:(lia)). lia.
  - left. rewrite HlenC in *. cbn [plus]. rewrite !decide_False by lia. destruct HH as [HH|HH]; [|by rewrite HH in HlenC].
    change (0 + 16)%nat with 16%nat in *. destruct (Z.ltb_spec (avail (pagecount m) 16) n); [done|lia].
Qed.

(** C29: A request for [n] pages in blocks of any sizes is refused exactly if fewer than [n]
    pages are free, and nothing changes then.  Otherwise it terminates with blocks of
    [n] pages in all, which were free before and are the only blocks that are newly in
    use. *)
Theorem vm_pagelist_alloc_correct m B n :
  pm_inv m B -> 0 <= n ->
  (vm_pagelist_alloc m n = Ok (ENOMEM, [], m) /\ avail (pagecount m) 16 < n) \/
  exists (bs : list (Z * nat)) m' B', vm_pagelist_alloc m n = Ok (0, bs.*1, m') /\ n <= avail (pagecount m) 16 /\
    pm_inv m' B' /\ total_size bs = n /\ handed_out B B' bs.
Proof. exact (pagelist_alloc_spec m B n). Qed.

(** ** The initial configuration *)

Lemma pos_ctz_spec x : 0 <= pos_ctz x /\ (2 ^ pos_ctz x | Zpos x).
Proof.
  induction x as [x _|x [IH1 IH2]|]; cbn [pos_ctz]; try (split; [lia|apply Z.divide_1_l]).
  split; [lia|]. destruct IH2 as [z Hz]. exists z. rewrite Z.pow_add_r, Pos2Z.inj_xO, Hz by lia. lia.
Qed.

Lemma ctz_divide ctz0 a t : 0 <= ctz0 -> 0 <= a -> t = Z.min 15 (ctz ctz0 a) -> 0 <= t /\ (2 ^ t | a).
Proof.
  intros H0 Ha ->. destruct a as [|x|x]; cbn [ctz]; [split; [lia|apply Z.divide_0_r]| |lia].
  destruct (pos_ctz_spec x) as [H1 H2]. split; [lia|]. transitivity (2 ^ pos_ctz x); [|done].
  exists (2 ^ (pos_ctz x - Z.min 15 (pos_ctz x))). rewrite <- Z.pow_add_r by lia. f_equal. lia.
Qed.

Lemma lxor_low a r t : 0 <= t -> (2 ^ t | a) -> 0 <= r < 2 ^ t -> Z.lxor (a + r) a = r.
Proof.
  intros Ht [q ->] Hr. rewrite Z.add_nocarry_lxor.
  - rewrite (Z.lxor_comm (q * 2 ^ t) r), Z.lxor_assoc, Z.lxor_nilpotent. apply Z.lxor_0_r.
  - apply Z.bits_inj'. intros j Hj. rewrite Z.land_spec, Z.bits_0. destruct (Z.lt_ge_cases j t) as [H|H].
    + by rewrite Z.mul_pow2_bits_low.
    + rewrite <- (Z.mod_small r (2 ^ t)) by done. rewrite Z.mod_pow2_bits_high by lia. apply andb_false_r.
Qed.

(** The size configured for a page is a power of two that fits into the segment. *)
Lemma config_size ctz0 sg i :
  0 <= ctz0 -> 0 <= seg_start sg -> page_aligned_p (seg_start sg) = true ->
  seg_end sg = seg_start sg + npages sg * PAGESIZE -> 0 <= i < npages sg ->
  exists k, (k < 16)%nat /\ pg_size (config_page ctz0 sg i) = bsize k /\ i + bsize k <= npages sg.
Proof.
  intros H0 Hs Ha He Hi.
  assert (exists s, seg_start sg = s * PAGESIZE /\ 0 <= s) as (s & Es & Hs0).
  { apply (is_aligned_pow2 (seg_start sg) 12) in Ha; [|lia]. exists (seg_start sg / PAGESIZE).
    pose proof (Z.div_mod (seg_start sg) PAGESIZE ltac:(done)). unfold PAGESIZE in *. lia. }
  cbn [config_page pg_size]. rewrite He, Es.
  replace (s * PAGESIZE + i * PAGESIZE) with (Z.shiftl (s + i) 12) by (rewrite Z.shiftl_mul_pow2 by lia; unfold PAGESIZE; lia).
  replace (s * PAGESIZE + npages sg * PAGESIZE) with (Z.shiftl (s + npages sg) 12)
    by (rewrite Z.shiftl_mul_pow2 by lia; unfold PAGESIZE; lia).
  rewrite <- Z.shiftl_lxor. change PAGESIZE with (2 ^ 12). rewrite <- !Z.shiftr_div_pow2 by lia.
  rewrite !Z.shiftr_shiftl_l, Z.shiftl_0_r by lia. change (PM_NQUEUES - 1) with 15.
  remember (Z.min 15 (ctz ctz0 (s + i))) as t eqn:Et.
  destruct (ctz_divide ctz0 (s + i) t H0 ltac:(lia) Et) as [Ht Hd].
  rewrite (Z.shiftl_mul_pow2 1 t), Z.mul_1_l, !Z.shiftl_mul_pow2 by lia.
  destruct (Z.ltb_spec ((s + npages sg) * 2 ^ 12) ((s + i) * 2 ^ 12 + 2 ^ t * 2 ^ 12)).
  - replace (s + npages sg) with ((s + i) + (npages sg - i)) by lia.
    rewrite (lxor_low (s + i) (npages sg - i) t) by (done || lia).
    pose proof (Z.log2_spec (npages sg - i) ltac:(lia)) as [Hl _]. pose proof (Z.log2_nonneg (npages sg - i)).
    exists (Z.to_nat (Z.min 15 (Z.log2 (npages sg - i)))). unfold bsize. rewrite Z2Nat.id by lia. split_and!; [lia|by rewrite Z.shiftl_1_l|].
    assert (2 ^ Z.min 15 (Z.log2 (npages sg - i)) <= 2 ^ Z.log2 (npages sg - i)) by (apply Z.pow_le_mono_r; lia). lia.
  - exists (Z.to_nat t). unfold bsize. rewrite Z2Nat.id by lia. split_and!; [lia|done|lia].
Qed.

(** The memory while its pages go to the free lists, up to page [hi]. *)
Record init_inv m B (hi : Z) : Prop := {
  ii_lists : lists_ok (freelist m) (pagecount m) B;
  ii_segs : segs_ok (seglist m) m;
  ii_block pg k st : B !! pg = Some (k, st) -> st = BFree /\ block_ok m pg k st /\ pg + bsize k <= hi;
  ii_apart pg k st pg' k' st' : B !! pg = Some (k, st) -> B !! pg' = Some (k', st') -> pg <> pg' ->
    pg + bsize k <= pg' \/ pg' + bsize k' <= pg;
  ii_managed pg p : pget m pg = Some p ->
    flag_on (flags p) PG_MANAGED = true <-> exists k, B !! pg = Some (k, BFree);
  ii_cover sg i : sg ∈ seglist m -> used sg = false -> in_seg sg i 1 -> i < hi ->
    exists pg k st, B !! pg = Some (k, st) /\ pg <= i < pg + bsize k;
}.

Lemma init_inv_pm m B : init_inv m B (Z.of_nat (length (pages m))) -> pm_inv m B.
Proof.
  intros [L S Hb Ha Hm Hc]. split; try done.
  - intros pg k st E. by apply (Hb pg k st).
  - intros sg i Hsg Hu Hi. apply (Hc sg); try done. destruct (so_size _ _ S sg Hsg) as (_ & _ & H & _).
    destruct Hi. lia.
Qed.

Definition managed_page p : vm_page := set_flags (flag_set (flags p) PG_MANAGED) p.

(** One page goes to its free list. *)
Lemma insert_step m B sg pg k p m' l :
  init_inv m B pg -> sg ∈ seglist m -> used sg = false -> in_seg sg pg (bsize k) ->
  pget m pg = Some p -> pg_size p = bsize k ->
  (forall i, pg <= i < pg + bsize k -> exists q, pget m i = Some q /\ page_state BFree q) ->
  seglist m' = seglist m -> length (pages m') = length (pages m) -> freelist m !! k = Some l ->
  freelist m' = <[k := l ++ [pg]]> (freelist m) ->
  pagecount m' = <[k := Z.of_nat (length l) + 1]> (pagecount m) ->
  (forall i, pget m' i = if decide (i = pg) then Some (managed_page p) else pget m i) ->
  init_inv m' (<[pg := (k, BFree)]> B) (pg + bsize k).
Proof.
  intros [L [S1 S2 S3] Hb Ha Hm Hc] Hsg Hu Hin Hp Hsz Hfree Esg El Hl EF EC G. pose proof (bsize_pos k).
  assert (forall h j st, B !! h = Some (j, st) -> h < pg /\ h + bsize j <= pg) as Hlow.
  { intros h j st E. destruct (Hb h j st E) as (_ & _ & ?). pose proof (bsize_pos j). lia. }
  assert (forall j st, B !! pg <> Some (j, st)) as Hnone by (intros j st E; apply Hlow in E; lia).
  split.
  - rewrite EF, EC. apply (lists_add _ _ B L _ pg k l); try done.
    + by rewrite Permutation_app_comm.
    + intros h Hh. by rewrite lookup_insert_ne.
    + by rewrite lookup_insert_eq.
  - rewrite Esg. split; try done; [by rewrite El|]. intros sg' i q Hsg' Hi. rewrite G. case_decide; [|by apply S2].
    subst. intros [= <-]. by apply (S2 sg' pg p).
  - intros h j st. rewrite lookup_insert_Some. intros [[<- [= <- <-]]|[Hne E]].
    + split_and!; try done. split; [exists sg; by rewrite Esg|]. split.
      * exists (managed_page p). rewrite G, decide_True by done. done.
      * intros i Hi. rewrite G. destruct (Hfree i Hi) as (q & Hq & Hst). case_decide; [|by exists q]. subst.
        exists (managed_page p). split; [done|]. assert (q = p) as -> by congruence. destruct Hst as [F1 F2].
        split; [|done]. cbn [managed_page set_flags flags]. by rewrite (flag_other _ _ _ true 0).
    + destruct (Hb h j st E) as (-> & ((sg' & Hsg' & Hrest) & (q & Hq & Hqs) & Hall) & Hle). pose proof (bsize_pos j).
      split_and!; [done| |lia]. split; [exists sg'; by rewrite Esg|]. split.
      * exists q. by rewrite G, decide_False by lia.
      * intros i Hi. rewrite G, decide_False by lia. by apply Hall.
  - intros h j st h' j' st'. rewrite !lookup_insert_Some.
    intros [[<- [= <- <-]]|[Hne E]] [[<- [= <- <-]]|[Hne' E']] Hd; try done.
    + apply Hlow in E'. lia.
    + apply Hlow in E. lia.
    + by apply (Ha h j st h' j' st').
  - intros i q. rewrite G. case_decide as Hi.
    + subst. intros [= <-]. rewrite lookup_insert_eq. split; [by eexists|]. intros _. by apply (flag_set_eq 1).
    + rewrite lookup_insert_ne by done. apply Hm.
  - intros sg' i Hsg' Hu' Hi Hlt. rewrite Esg in Hsg'. destruct (Z.lt_ge_cases i pg).
    + destruct (Hc sg' i) as (h & j & st & E & HH); try done. exists h, j, st. split; [|done].
      rewrite lookup_insert_ne; [done|]. apply Hlow in E. lia.
    + exists pg, k, BFree. rewrite lookup_insert_eq. split; [done|lia].
Qed.

(** A segment as it is plugged in. *)
Record seg_ok sg : Prop := {
  sg_start : 0 <= seg_start sg /\ page_aligned_p (seg_start sg) = true;
  sg_size : 0 < npages sg < 2 ^ 16;
  sg_end : seg_end sg = seg_start sg + npages sg * PAGESIZE;
}.

Lemma insert_pages_spec ctz0 sg (fuel : nat) : forall m B i,
  0 <= ctz0 -> seg_ok sg -> sg ∈ seglist m -> used sg = false ->
  init_inv m B (seg_pages sg + i) -> 0 <= i <= npages sg -> npages sg - i <= Z.of_nat fuel ->
  (forall j, i <= j < npages sg -> pget m (seg_pages sg + j) = Some (config_page ctz0 sg j)) ->
  exists m' B', insert_pages fuel m sg i = Ok m' /\ init_inv m' B' (seg_pages sg + npages sg) /\
    seglist m' = seglist m /\ length (pages m') = length (pages m).
Proof.
  induction fuel as [|fuel IH]; intros m B i H0 Hok Hsg Hu I Hi Hf Hcf; cbn [insert_pages].
  { destruct (Z.ltb_spec i (npages sg)); [lia|]. exists m, B. by replace (npages sg) with i by lia. }
  destruct (Z.ltb_spec i (npages sg)) as [Hlt|]; [|exists m, B; by replace (npages sg) with i by lia].
  destruct Hok as [[O1 O2] O3 O4] eqn:Eok. clear Eok.
  destruct (config_size ctz0 sg i H0 O1 O2 O4 ltac:(lia)) as (k & Hk & Hsz & Hfit).
  pose proof (Hcf i ltac:(lia)) as Hp. remember (config_page ctz0 sg i) as p eqn:Ep.
  rewrite (pget_get m _ p) by done. cbn [mbind outcome_bind]. unfold FREELIST. rewrite Hsz, bsize_log.
  destruct (list_get _ _ _ (ii_lists _ _ _ I) k Hk) as (l & _ & Hl & _).
  rewrite (fl_insert_tail_ok m k l Hl). cbn [mbind outcome_bind].
  rewrite (count_add_ok _ k (Z.of_nat (length l))); [|by apply (lo_count _ _ _ (ii_lists _ _ _ I))].
  cbn [mbind outcome_bind]. set (m1 := set_pagecount _ _).
  destruct (upd_page_spec m1 (seg_pages sg + i) p managed_page Hp) as (m2 & E2 & (A1 & A2 & A3) & L2 & G2).
  unfold managed_page in E2. rewrite E2. cbn [mbind outcome_bind]. pose proof (bsize_pos k).
  destruct (IH m2 (<[seg_pages sg + i := (k, BFree)]> B) (i + bsize k)) as (m' & B' & -> & I' & Es & El); try done.
  - by rewrite A1.
  - rewrite Z.add_assoc. apply (insert_step m B sg _ k p m2 l); try done.
    + split; lia.
    + intros j Hj. exists (config_page ctz0 sg (j - seg_pages sg)).
      rewrite <- Hcf by lia. split; [f_equal; lia|]. cbn. by rewrite Hu.
  - lia.
  - lia.
  - intros j Hj. rewrite G2, decide_False by lia. change (pget m1 ?x) with (pget m x). apply Hcf. lia.
  - exists m', B'. split_and!; [done..|by rewrite Es, A1|by rewrite El, L2].
Qed.

Definition apart sg sg' : Prop := seg_end sg <= seg_start sg' \/ seg_end sg' <= seg_start sg.

Definition all_apart (sgs : list vm_physseg) : Prop :=
  forall i j sg sg', sgs !! i = Some sg -> sgs !! j = Some sg' -> i <> j -> apart sg sg'.

Section init_seg.
Context (ctz0 : Z) (m : physmem) (B : blocks) (sg0 : vm_physseg).
Let len := Z.of_nat (length (pages m)).
Let sg := Physseg (seg_start sg0) (seg_end sg0) (npages sg0) (used sg0) len.
Let m1 := Physmem (seglist m ++ [sg]) (freelist m) (pagecount m) (pages m ++ (config_page ctz0 sg <$> seqZ 0 (npages sg))).
Hypothesis Hc0 : 0 <= ctz0.
Hypothesis I : init_inv m B len.
Hypothesis Hok : seg_ok sg0.
Hypothesis Hap : forall sg', sg' ∈ seglist m -> apart sg' sg0.

Lemma new_len : Z.of_nat (length (pages m1)) = len + npages sg.
Proof.
  cbn [m1 pages]. rewrite length_app, length_fmap, length_seqZ. destruct (sg_size _ Hok). subst len. cbn. lia.
Qed.

Lemma new_pages i : pget m1 i =
  if decide (len <= i < len + npages sg) then Some (config_page ctz0 sg (i - len)) else pget m i.
Proof.
  unfold pget. cbn [m1 pages]. case_decide as Hi.
  - destruct (Z.leb_spec 0 i); [|lia]. rewrite lookup_app_r by lia. rewrite list_lookup_fmap.
    rewrite lookup_seqZ_lt by (cbn in *; lia). cbn [fmap option_fmap option_map]. do 2 f_equal. subst len. lia.
  - destruct (Z.leb_spec 0 i); [|done]. destruct (Z.lt_ge_cases i len); [by rewrite lookup_app_l by lia|].
    assert (pages m !! Z.to_nat i = None) as -> by (apply lookup_ge_None; lia).
    apply lookup_ge_None. rewrite length_app, length_fmap, length_seqZ. lia.
Qed.

Lemma new_old i p : pget m i = Some p -> pget m1 i = Some p.
Proof. intros Hp. rewrite new_pages. apply pget_range in Hp as Hr. rewrite decide_False; [done|]. subst len. lia. Qed.

Lemma new_segs : segs_ok (seglist m1) m1.
Proof.
  destruct (ii_segs _ _ _ I) as [S1 S2 S3], Hok as [O1 O2 O3]. pose proof new_len as Hlen. fold len in S1.
  cbn [m1 seglist]. split.
  - intros sg' [H|H%list_elem_of_singleton]%elem_of_app.
    + destruct (S1 sg' H) as (? & ? & ? & ?). rewrite Hlen. split_and!; try done; cbn; lia.
    + subst sg'. rewrite Hlen. split_and!; try done; subst len; cbn; lia.
  - intros sg' i p [H|H%list_elem_of_singleton]%elem_of_app Hin; rewrite new_pages.
    + destruct (S1 sg' H) as (_ & _ & ? & _), Hin as [Hi1 Hi2]. rewrite decide_False by lia. by apply S2.
    + subst sg'. destruct Hin as [Hi1 Hi2]. rewrite decide_True by (cbn in *; lia). by intros [= <-].
  - intros sg1 sg2 [H1|H1%list_elem_of_singleton]%elem_of_app [H2|H2%list_elem_of_singleton]%elem_of_app Hne.
    + by apply S3.
    + subst sg2. destruct (S1 sg1 H1) as (_ & _ & ? & _). pose proof (Hap sg1 H1) as A. split; [exact A|]. cbn. lia.
    + subst sg1. destruct (S1 sg2 H2) as (_ & _ & ? & _). pose proof (Hap sg2 H2) as A. unfold apart in A. split; cbn; lia.
    + congruence.
Qed.

Lemma new_inv : init_inv m1 B len.
Proof.
  destruct I as [L [S1 S2 S3] Hb Ha Hm Hc]. split; try done.
  - apply new_segs.
  - intros pg k st E. destruct (Hb pg k st E) as (-> & ((sg' & Hsg' & Hrest) & (q & Hq & Hqs) & Hall) & Hle).
    split_and!; try done. split; [exists sg'; split; [set_solver|done]|]. split; [exists q; by rewrite (new_old pg q)|].
    intros i Hi. destruct (Hall i Hi) as (p & Hp & Hst). exists p. by rewrite (new_old i p).
  - intros pg p. rewrite new_pages. case_decide as Hi; [|apply Hm]. intros [= <-]. split.
    + cbn. by destruct (used sg0).
    + intros [k E]. destruct (Hb pg k BFree E) as (_ & _ & ?). pose proof (bsize_pos k). lia.
  - intros sg' i [H|H%list_elem_of_singleton]%elem_of_app Hu Hin Hlt; [by apply (Hc sg')|].
    subst sg'. destruct Hin as [Hin _]. cbn in Hin. lia.
Qed.

Lemma init_seg_spec : exists m' B', init_seg ctz0 m sg0 = Ok m' /\
  init_inv m' B' (Z.of_nat (length (pages m'))) /\ seglist m' = seglist m ++ [sg] /\
  Z.of_nat (length (pages m')) = len + npages sg0.
Proof.
  pose proof new_inv as I1. pose proof new_len as Hlen. unfold init_seg. fold len sg m1.
  change (used sg) with (used sg0).
  assert (used sg0 = true \/ used sg0 = false) as [Hu|Hu] by (destruct (used sg0); auto); rewrite Hu; cbn [negb].
  - exists m1, B. split_and!; try done. destruct I1 as [L S Hb Ha Hm Hc]. split; try done.
    + intros pg k st E. destruct (Hb pg k st E) as (? & ? & ?). split_and!; try done. rewrite Hlen. pose proof (sg_size _ Hok). cbn. lia.
    + intros sg' i H Hu' Hin Hlt. apply (Hc sg'); try done. apply elem_of_app in H as [H|H%list_elem_of_singleton].
      * destruct (so_size _ _ (ii_segs _ _ _ I) sg' H) as (_ & _ & ? & _). destruct Hin. subst len. lia.
      * subst sg'. cbn in Hu'. congruence.
  - pose proof (sg_size _ Hok). destruct (insert_pages_spec ctz0 sg (Z.to_nat (npages sg)) m1 B 0) as (m' & B' & -> & I' & Es & El); try done.
    + by destruct Hok.
    + set_solver.
    + cbn [seg_pages sg]. by rewrite Z.add_0_r.
    + cbn. lia.
    + cbn. lia.
    + intros j Hj. rewrite new_pages. cbn [seg_pages sg]. rewrite decide_True by lia. do 2 f_equal. lia.
    + exists m', B'. split_and!; try done; rewrite El, Hlen; done.
Qed.
End init_seg.

Definition same_range sg sg' : Prop :=
  seg_start sg' = seg_start sg /\ seg_end sg' = seg_end sg /\ npages sg' = npages sg /\ used sg' = used sg.

Lemma init_segs_spec ctz0 (sgs : list vm_physseg) : forall m B,
  0 <= ctz0 -> init_inv m B (Z.of_nat (length (pages m))) -> Forall seg_ok sgs -> all_apart sgs ->
  (forall sg sg', sg ∈ seglist m -> sg' ∈ sgs -> apart sg sg') ->
  exists m' B' sgs', init_segs ctz0 m sgs = Ok m' /\ init_inv m' B' (Z.of_nat (length (pages m'))) /\
    seglist m' = seglist m ++ sgs' /\ Forall2 same_range sgs sgs'.
Proof.
  induction sgs as [|sg sgs IH]; intros m B H0 I Hok Hap Hap'; cbn [init_segs].
  { exists m, B, []. by rewrite app_nil_r. }
  apply Forall_cons in Hok as [Hok1 Hok].
  assert (all_apart sgs) as Hap2 by (intros i j s1 s2 H1 H2 Hne; apply (Hap (S i) (S j)); [done|done|lia]).
  destruct (init_seg_spec ctz0 m B sg H0 I Hok1) as (m1 & B1 & -> & I1 & E1 & _).
  { intros sg' Hsg'. apply Hap'; [done|by left]. }
  cbn [mbind outcome_bind]. destruct (IH m1 B1 H0 I1 Hok Hap2) as (m' & B' & sgs' & -> & I' & E' & HF).
  { intros sg1 sg2. rewrite E1, elem_of_app, list_elem_of_singleton. intros [Hs|Hs] H2.
    - apply Hap'; [done|by right].
    - subst sg1. apply list_elem_of_lookup in H2 as [j Hj]. by apply (Hap 0%nat (S j) sg sg2). }
  eexists m', B', _. split_and!; [done|done|by rewrite E', E1, <- app_assoc|by constructor].
Qed.

(** The page frame of an address is found in its segment. *)
Lemma find_in_segs_spec m sg pa (sgs : list vm_physseg) :
  segs_ok (seglist m) m -> sg ∈ sgs -> (forall sg', sg' ∈ sgs -> sg' ∈ seglist m) -> seg_start sg <= pa < seg_end sg ->
  find_in_segs sgs pa = Some (seg_pages sg + (pa - seg_start sg) / PAGESIZE).
Proof.
  intros S Hsg Hsub Hpa. induction sgs as [|sg' sgs IH]; [by apply not_elem_of_nil in Hsg|]. cbn [find_in_segs].
  destruct (decide (sg' = sg)) as [->|Hne].
  { destruct (Z.leb_spec (seg_start sg) pa), (Z.ltb_spec pa (seg_end sg)); try lia. done. }
  destruct (so_apart _ _ S sg' sg) as [[H|H] _]; [apply Hsub; by left|by apply Hsub|done| |];
    destruct (Z.leb_spec (seg_start sg') pa), (Z.ltb_spec pa (seg_end sg')); try lia; cbn [andb];
    (apply IH; [set_solver|intros; apply Hsub; by right]).
Qed.

(** The frame of an address, counted from an aligned start. *)
Lemma frame_from a pa : page_aligned_p a = true -> a + (pa - a) / PAGESIZE * PAGESIZE = pa / PAGESIZE * PAGESIZE.
Proof.
  intros Ha. apply (is_aligned_pow2 _ 12) in Ha; [|lia]. change PAGESIZE with (2 ^ 12).
  pose proof (Z.div_mod a (2 ^ 12) ltac:(done)) as Ea. rewrite Ha in Ea.
  replace (pa - a) with (pa + - (a / 2 ^ 12) * 2 ^ 12) by lia. rewrite Z.div_add by lia. lia.
Qed.

Lemma page_find_spec m sg pa :
  segs_ok (seglist m) m -> sg ∈ seglist m -> page_aligned_p (seg_start sg) = true -> seg_start sg <= pa < seg_end sg ->
  exists pg p, vm_page_find m pa = Some pg /\ pget m pg = Some p /\ in_seg sg pg 1 /\ paddr p = pa / PAGESIZE * PAGESIZE.
Proof.
  intros S Hsg Ha Hpa. unfold vm_page_find. rewrite (find_in_segs_spec m sg pa) by done.
  destruct (so_size _ _ S sg Hsg) as (H1 & H2 & H3 & H4). apply (frame_from _ pa) in Ha. change PAGESIZE with (2 ^ 12) in *.
  assert (0 <= (pa - seg_start sg) / 2 ^ 12 < npages sg) as Hr.
  { split; [apply Z.div_pos; lia|]. apply Z.div_lt_upper_bound; lia. }
  set (d := (pa - seg_start sg) / 2 ^ 12) in *. assert (in_seg sg (seg_pages sg + d) 1) as Hin by (split; lia).
  assert (is_Some (pget m (seg_pages sg + d))) as [p Hp].
  { unfold pget. destruct (Z.leb_spec 0 (seg_pages sg + d)); [|lia]. apply lookup_lt_is_Some. lia. }
  exists (seg_pages sg + d), p. split_and!; try done. rewrite (so_paddr _ _ S sg _ p Hsg Hin Hp).
  change PAGESIZE with (2 ^ 12). lia.
Qed.

Lemma init_empty : init_inv (Physmem [] (replicate 16 []) (replicate 16 0) []) ∅ 0.
Proof.
  split.
  - split; try done.
    + intros i l H. cbn [freelist] in H. apply lookup_replicate in H as [-> H]. by apply lookup_replicate.
    + intros i l H. apply lookup_replicate in H as [-> H]. constructor.
    + intros i l pg H. apply lookup_replicate in H as [-> H]. rewrite lookup_empty. split; [by intros ?%not_elem_of_nil|done].
  - split.
    + by intros sg ?%not_elem_of_nil.
    + by intros sg i p ?%not_elem_of_nil.
    + by intros sg sg' ?%not_elem_of_nil.
  - intros pg k st. by rewrite lookup_empty.
  - intros pg k st pg' k' st'. by rewrite lookup_empty.
  - intros pg p H. unfold pget in H. by destruct (0 <=? pg).
  - by intros sg i ?%not_elem_of_nil.
Qed.

(** ** Memory for the array of pages *)

(** [k] frames are taken from the segment number [i], which goes when it has no more. *)
Definition take_frames sg (k : Z) : vm_physseg :=
  Physseg (seg_start sg + k * PAGESIZE) (seg_end sg) (npages sg - k) (used sg) (seg_pages sg).

Definition without_frames (sgs : list vm_physseg) (i : nat) sg (k : Z) : list vm_physseg :=
  if k =? npages sg then delete i sgs else <[i := take_frames sg k]> sgs.

Lemma boot_map_spec (k : nat) : forall fuel sgs i sg va km,
  sgs !! i = Some sg -> Z.of_nat k <= npages sg -> 0 < npages sg -> (k <= fuel)%nat ->
  boot_map fuel sgs i va (va + Z.of_nat k * PAGESIZE) km =
    Ok (without_frames sgs i sg (Z.of_nat k),
        km ++ ((fun j => (va + j * PAGESIZE, seg_start sg + j * PAGESIZE)) <$> seqZ 0 (Z.of_nat k))).
Proof.
  induction k as [|k IH]; intros fuel sgs i sg va km Hi Hk Hn Hf.
  { rewrite Z.add_0_r, app_nil_r. destruct fuel; cbn [boot_map]; rewrite Z.ltb_irrefl;
      (unfold without_frames; destruct (Z.eqb_spec (Z.of_nat 0) (npages sg)); [lia|]; do 2 f_equal;
       rewrite list_insert_id; [done|]; rewrite Hi; f_equal; unfold take_frames; destruct sg; cbn; f_equal; lia). }
  destruct fuel as [|fuel]; [lia|]. cbn [boot_map].
  destruct (Z.ltb_spec va (va + Z.of_nat (S k) * PAGESIZE)); [|unfold PAGESIZE in *; lia].
  rewrite (proj2 (arr_get_ok sgs (Z.of_nat i) sg)) by (rewrite Nat2Z.id; split; [lia|done]). cbn [mbind outcome_bind].
  change (npages (take_frame sg)) with (npages sg - 1). apply lookup_lt_Some in Hi as Hlt.
  rewrite (seqZ_cons 0) by lia. cbn [fmap list_fmap]. rewrite !Z.mul_0_l, !Z.add_0_r.
  replace (Z.pred (Z.of_nat (S k))) with (Z.of_nat k) by lia.
  replace (va + Z.of_nat (S k) * PAGESIZE) with (va + PAGESIZE + Z.of_nat k * PAGESIZE) by lia.
  destruct (Z.eqb_spec (npages sg - 1) 0) as [Hz|Hz].
  - assert (k = 0%nat) as -> by lia. rewrite Z.add_0_r. unfold without_frames.
    destruct (Z.eqb_spec (Z.of_nat 1) (npages sg)); [|lia]. destruct fuel; cbn [boot_map]; by rewrite Z.ltb_irrefl.
  - rewrite (IH fuel _ i (take_frame sg)); [| |cbn; lia..|lia]; [|by rewrite list_lookup_insert_eq]. f_equal. f_equal.
    + unfold without_frames. change (npages (take_frame sg)) with (npages sg - 1).
      destruct (Z.eqb_spec (Z.of_nat k) (npages sg - 1)), (Z.eqb_spec (Z.of_nat (S k)) (npages sg)); try lia.
      * by rewrite !delete_take_drop, take_insert_ge, drop_insert_lt by lia.
      * rewrite list_insert_insert_eq. f_equal. unfold take_frames, take_frame. cbn. f_equal; lia.
    + rewrite <- app_assoc. cbn [app]. do 2 f_equal. change (Z.succ 0) with (1 + 0). rewrite <- (fmap_add_seqZ 1 0), <- list_fmap_compose.
      apply list_fmap_ext. intros _ j _. cbn. f_equal; lia.
Qed.

Lemma init_found ctz0 (sgs : list vm_physseg) :
  0 <= ctz0 -> Forall seg_ok sgs -> all_apart sgs ->
  exists m B, init_segs ctz0 (Physmem [] (replicate 16 []) (replicate 16 0) []) sgs = Ok m /\ pm_inv m B /\
    (forall h k st, B !! h = Some (k, st) -> st = BFree) /\
    (forall pa, (forall sg, sg ∈ sgs -> ~ seg_start sg <= pa < seg_end sg) -> vm_page_find m pa = None) /\
    forall sg pa, sg ∈ sgs -> seg_start sg <= pa < seg_end sg ->
      exists pg p, vm_page_find m pa = Some pg /\ pget m pg = Some p /\ paddr p = pa / PAGESIZE * PAGESIZE /\
        (used sg = false <-> exists h k, B !! h = Some (k, BFree) /\ h <= pg < h + bsize k).
Proof.
  intros H0 Hok Hap. destruct (init_segs_spec ctz0 sgs _ ∅ H0 init_empty Hok Hap) as (m & B & sgs' & E & I & Es & HF).
  { intros ? ? []%not_elem_of_nil. }
  exists m, B. apply init_inv_pm in I as J. split_and!; try done.
  { intros h k st Hb. by apply (ii_block _ _ _ I h k). }
  { intros pa Hno. unfold vm_page_find. rewrite Es. cbn [seglist app]. clear -Hno HF. induction HF as [|sg sg' sgs sgs' (R1 & R2 & _) HF IH]; [done|].
    cbn [find_in_segs]. rewrite R1, R2. pose proof (Hno sg ltac:(by left)).
    destruct (Z.leb_spec (seg_start sg) pa), (Z.ltb_spec pa (seg_end sg)); try lia; cbn [andb];
      (apply IH; intros; apply Hno; by right). }
  intros sg pa Hsg Hpa. apply list_elem_of_lookup in Hsg as [n Hn]. destruct (Forall2_lookup_l _ _ _ _ _ HF Hn) as (sg' & Hn' & R1 & R2 & R3 & R4).
  assert (sg' ∈ seglist m) as Hsg' by (rewrite Es; by apply list_elem_of_lookup_2 in Hn').
  destruct (sg_start _ (Forall_lookup_1 _ _ _ _ Hok Hn)) as [_ Ha].
  destruct (page_find_spec m sg' pa (pm_segs _ _ J) Hsg') as (pg & p & Ef & Hp & Hin & Epa); [congruence|lia|].
  exists pg, p. split_and!; try done. rewrite <- R4. split.
  - intros Hu. destruct (pm_cover _ _ J sg' pg Hsg' Hu Hin) as (h & k & st & Hb & Hr).
    exists h, k. split; [|done]. by rewrite Hb, (proj1 (ii_block _ _ _ I h k st Hb)).
  - intros (h & k & Hb & Hr). destruct (pm_block _ _ J h k _ Hb) as ((sg2 & Hsg2 & Hu2 & Hi1 & Hi2) & _).
    destruct (decide (sg2 = sg')) as [->|Hne]; [done|]. destruct (so_apart _ _ (pm_segs _ _ J) sg2 sg' Hsg2 Hsg' Hne) as [_ HH].
    destruct Hin. lia.
Qed.



Lemma find_boot_seg_spec sgs n i : find_boot_seg sgs n = Some i ->
  exists sg, sgs !! i = Some sg /\ used sg = false /\ n <= npages sg * PAGESIZE.
Proof.
  revert i. induction sgs as [|sg sgs IH]; intros i E; [done|]. cbn [find_boot_seg] in E.
  destruct (used sg) eqn:Hu; cbn [orb] in E; [|destruct (Z.ltb_spec (npages sg * PAGESIZE) n)].
  - destruct (find_boot_seg sgs n) as [j|]; [|done]. injection E as <-. by apply IH.
  - destruct (find_boot_seg sgs n) as [j|]; [|done]. injection E as <-. by apply IH.
  - injection E as <-. by exists sg.
Qed.

Lemma find_boot_seg_none sgs n : find_boot_seg sgs n = None ->
  forall sg, sg ∈ sgs -> used sg = true \/ npages sg * PAGESIZE < n.
Proof.
  induction sgs as [|sg sgs IH]; intros E sg' H; [by apply not_elem_of_nil in H|]. cbn [find_boot_seg] in E.
  destruct (used sg) eqn:Hu; cbn [orb] in E; [|destruct (Z.ltb_spec (npages sg * PAGESIZE) n); [|done]];
    (destruct (find_boot_seg sgs n); [done|]); apply elem_of_cons in H as [-> |H]; auto.
Qed.

Section without.
Context (sgs : list vm_physseg) (i : nat) (sg : vm_physseg) (k : Z).
Hypothesis Hi : sgs !! i = Some sg.
Hypothesis Hok : Forall seg_ok sgs.
Hypothesis Hap : all_apart sgs.
Hypothesis Hk : 0 <= k <= npages sg.

Definition old_index (j : nat) : nat := if k =? npages sg then if decide (j < i)%nat then j else S j else j.

(** What is left is a segment from before, or the rest of the one that was used. *)
Lemma without_lookup j s : without_frames sgs i sg k !! j = Some s ->
  (old_index j <> i /\ sgs !! old_index j = Some s) \/ (old_index j = i /\ s = take_frames sg k /\ k < npages sg).
Proof.
  unfold without_frames, old_index. destruct (Z.eqb_spec k (npages sg)) as [He|He].
  - case_decide; [rewrite list_lookup_delete_lt by lia|rewrite list_lookup_delete_ge by lia]; intros Hj; left; (split; [lia|done]).
  - rewrite list_lookup_insert_Some. intros [(<- & <- & _)|[? H]]; [right; split_and!; try done; lia|left; done].
Qed.

Lemma old_index_inj j j' : old_index j = old_index j' -> j = j'.
Proof. unfold old_index. destruct (k =? npages sg); [|done]. repeat case_decide; lia. Qed.

Lemma take_frames_in j s : without_frames sgs i sg k !! j = Some s ->
  exists s0, sgs !! old_index j = Some s0 /\ seg_start s0 <= seg_start s /\ seg_end s = seg_end s0.
Proof.
  intros [[_ H]|(-> & -> & _)]%without_lookup; [exists s; split_and!; [done|lia|done]|].
  exists sg. cbn [take_frames seg_start seg_end]. unfold PAGESIZE. split_and!; [done|lia|done].
Qed.

Lemma without_ok : Forall seg_ok (without_frames sgs i sg k).
Proof.
  apply Forall_lookup. intros j s [[_ H]|(_ & -> & Hlt)]%without_lookup; [by apply (Forall_lookup_1 _ _ _ _ Hok H)|].
  destruct (Forall_lookup_1 _ _ _ _ Hok Hi) as [[O1 O2] O3 O4]. split; cbn [take_frames seg_start seg_end npages]; [|lia|rewrite O4; unfold PAGESIZE; lia].
  split; [unfold PAGESIZE; lia|]. apply (is_aligned_pow2 _ 12) in O2; [|lia]. apply (is_aligned_pow2 _ 12); [lia|].
  change PAGESIZE with (2 ^ 12). by rewrite Z.mod_add by lia.
Qed.

Lemma without_apart : all_apart (without_frames sgs i sg k).
Proof.
  intros j j' s s' H H' Hne. destruct (take_frames_in j s H) as (s0 & H0 & L0 & E0), (take_frames_in j' s' H') as (s1 & H1 & L1 & E1).
  destruct (Hap (old_index j) (old_index j') s0 s1 H0 H1) as [A|A]; [by intros ?%old_index_inj|left|right]; lia.
Qed.

(** The frames taken are in no segment, all others still are. *)
Lemma without_cover sg0 pa : sg0 ∈ sgs -> seg_start sg0 <= pa < seg_end sg0 ->
  (sg0 = sg /\ pa < seg_start sg + k * PAGESIZE /\
     forall s, s ∈ without_frames sgs i sg k -> ~ seg_start s <= pa < seg_end s) \/
  exists s, s ∈ without_frames sgs i sg k /\ seg_start s <= pa < seg_end s /\ used s = used sg0.
Proof.
  intros [j Hj]%list_elem_of_lookup Hpa. destruct (decide (j = i)) as [->|Hne].
  - assert (sg0 = sg) as -> by congruence. destruct (Z.lt_ge_cases pa (seg_start sg + k * PAGESIZE)) as [Hlt|Hge].
    + left. split_and!; try done. intros s [j Hs]%list_elem_of_lookup.
      apply without_lookup in Hs as [[Hne H]|(_ & -> & _)]; [|cbn [take_frames seg_start]; lia].
      destruct (Hap (old_index j) i s sg H Hi Hne); lia.
    + right. exists (take_frames sg k). split_and!; [|cbn [take_frames seg_start seg_end]; lia..|done]. unfold without_frames.
      destruct (Forall_lookup_1 _ _ _ _ Hok Hi) as [_ _ O4]. destruct (Z.eqb_spec k (npages sg)); [unfold PAGESIZE in *; lia|].
      apply list_elem_of_lookup. exists i. apply list_lookup_insert_eq. by apply lookup_lt_Some in Hi.
  - right. exists sg0. split_and!; try done; [|lia..]. unfold without_frames. destruct (k =? npages sg).
    + apply list_elem_of_lookup. destruct (decide (j < i)%nat).
      * exists j. by rewrite list_lookup_delete_lt.
      * exists (j - 1)%nat. rewrite list_lookup_delete_ge by lia. by replace (S (j - 1)) with j by lia.
    + apply list_elem_of_lookup. exists j. by rewrite list_lookup_insert_ne.
Qed.
End without.

Lemma boot_alloc_spec `{Arch} b sgs n i sg :
  vm_boot_done b = false -> Forall seg_ok sgs -> 0 <= vm_kernel_end b -> 0 < n ->
  vm_kernel_end b + n + 2 * PAGESIZE <= 2 ^ word_bits ->
  find_boot_seg sgs n = Some i -> sgs !! i = Some sg -> n <= npages sg * PAGESIZE ->
  exists start va k, vm_boot_alloc b sgs n =
      Ok (start, Boot (vm_kernel_end b + n) false
            (kentered b ++ ((fun j => (va + j * PAGESIZE, seg_start sg + j * PAGESIZE)) <$> seqZ 0 k)),
          without_frames sgs i sg k) /\
    vm_kernel_end b <= start /\ va = ceil_to start PAGESIZE /\ start + n <= va + k * PAGESIZE /\ 0 <= k <= npages sg.
Proof.
  intros Hb Hok H0 Hn Hw Ef Hi Hfit. destruct (sg_size _ (Forall_lookup_1 _ _ _ _ Hok Hi)) as [Hpos _].
  unfold vm_boot_alloc. rewrite Hb, Ef. cbn [negb assert mbind outcome_bind].
  assert (exists e, 2 <= e <= 3 /\ word_bits / 8 = 2 ^ e) as (e & He & Ee).
  { destruct arch_word as [-> | ->]; [by exists 2|by exists 3]. }
  rewrite Ee. assert (0 < 2 ^ e <= 8) as He8 by (split; [lia|]; change 8 with (2 ^ 3); apply Z.pow_le_mono_r; lia).
  pose proof (ceil_to_spec (vm_kernel_end b) (2 ^ e) ltac:(lia)) as [Hc1 _].
  rewrite (align_spec (vm_kernel_end b) e) by (unfold in_word, PAGESIZE in *; lia).
  set (start := ceil_to (vm_kernel_end b) (2 ^ e)) in *. change PAGESIZE with (2 ^ 12) in *.
  pose proof (ceil_to_spec start (2 ^ 12) ltac:(lia)) as [Hc2 Hm2]. pose proof (ceil_to_spec (start + n) (2 ^ 12) ltac:(lia)) as [Hc3 Hm3].
  rewrite !align_spec by (unfold in_word; lia).
  set (va := ceil_to start (2 ^ 12)) in *. set (fin := ceil_to (start + n) (2 ^ 12)) in *.
  pose proof (Z.div_mod va (2 ^ 12) ltac:(lia)) as D2. pose proof (Z.div_mod fin (2 ^ 12) ltac:(lia)) as D3.
  rewrite Hm2 in D2. rewrite Hm3 in D3. set (k := fin / 2 ^ 12 - va / 2 ^ 12).
  assert (fin <= va + npages sg * 2 ^ 12) as Hle.
  { apply ceil_to_least; [lia..|]. rewrite Z.mod_add by lia. done. }
  pose proof (Z.div_mod n (2 ^ 12) ltac:(lia)) as D4. pose proof (Z.mod_pos_bound n (2 ^ 12) ltac:(lia)).
  assert (fin = va + k * 2 ^ 12) as Ek by (subst k; lia). assert (0 <= k <= npages sg) as Hk by (subst k; lia).
  pose proof (boot_map_spec (Z.to_nat k) (S (Z.to_nat (n / 2 ^ 12))) sgs i sg va (kentered b) Hi) as EB.
  rewrite Z2Nat.id in EB by lia. change PAGESIZE with (2 ^ 12) in EB. rewrite <- Ek in EB. rewrite EB by lia.
  cbn [mbind outcome_bind]. exists start, va, k. split_and!; try done; lia.
Qed.

(** C28: From segments that are aligned, apart and smaller than [2 ^ 16] pages,
    [init_vm_page] either fails the assertion that some free segment can hold the array
    of pages, or takes frames for the array from the first such segment, maps them, and
    builds consistent free lists.  All blocks are free then.  Every address of the
    segments is either in a frame that was mapped for the array, and belongs to no page,
    or is found in its page frame, which is in a free block if and only if the segment is
    not in use.  This holds whatever the compiler counts as trailing zeros of 0. *)
Theorem init_vm_page_correct `{Arch} ctz0 page_bytes b sgs n :
  0 <= ctz0 -> Forall seg_ok sgs -> all_apart sgs -> vm_boot_done b = false ->
  n = Z.of_nat (sum_list_with (fun sg => Z.to_nat (npages sg)) sgs) * page_bytes -> 0 < n ->
  0 <= vm_kernel_end b -> vm_kernel_end b + n + 2 * PAGESIZE <= 2 ^ word_bits ->
  (init_vm_page ctz0 page_bytes b sgs = Fault AssertFailed /\
     forall sg, sg ∈ sgs -> used sg = true \/ npages sg * PAGESIZE < n) \/
  exists b' m B, init_vm_page ctz0 page_bytes b sgs = Ok (b', m) /\ pm_inv m B /\ vm_boot_done b' = true /\
    (forall h k st, B !! h = Some (k, st) -> st = BFree) /\
    forall sg pa, sg ∈ sgs -> seg_start sg <= pa < seg_end sg ->
      (vm_page_find m pa = None /\ exists va, (va, pa / PAGESIZE * PAGESIZE) ∈ kentered b') \/
      exists pg p, vm_page_find m pa = Some pg /\ pget m pg = Some p /\ paddr p = pa / PAGESIZE * PAGESIZE /\
        (used sg = false <-> exists h k, B !! h = Some (k, BFree) /\ h <= pg < h + bsize k).
Proof.
  intros H0 Hok Hap Hb En Hn Hke Hw. unfold init_vm_page. rewrite <- En.
  destruct (find_boot_seg sgs n) as [i|] eqn:Ef.
  - right. destruct (find_boot_seg_spec sgs n i Ef) as (sg & Hi & Hu & Hfit).
    destruct (boot_alloc_spec b sgs n i sg Hb Hok Hke Hn Hw Ef Hi Hfit) as (start & va & k & -> & _ & _ & _ & Hk). cbn [mbind outcome_bind].
    destruct (init_found ctz0 (without_frames sgs i sg k) H0) as (m & B & E & I & Hfree & Hnone & Hfound);
      [by apply without_ok|by apply without_apart|].
    change (Z.to_nat PM_NQUEUES) with 16%nat. rewrite E. cbn [mbind outcome_bind].
    eexists _, m, B. split_and!; try done. intros sg0 pa Hsg0 Hpa.
    destruct (without_cover sgs i sg k Hi Hok Hap Hk sg0 pa Hsg0 Hpa) as [(-> & Hlt & Hno)|(s & Hs & Hin & Eu)].
    + left. split; [by apply Hnone|]. cbn [vm_boot_finish kentered].
      destruct (sg_start _ (Forall_lookup_1 _ _ _ _ Hok Hi)) as [_ Ha]. rewrite <- (frame_from _ pa Ha).
      exists (va + (pa - seg_start sg) / PAGESIZE * PAGESIZE). apply elem_of_app. right.
      apply list_elem_of_fmap. exists ((pa - seg_start sg) / PAGESIZE). split; [done|]. apply elem_of_seqZ.
      split; [apply Z.div_pos; unfold PAGESIZE; lia|apply Z.div_lt_upper_bound; unfold PAGESIZE in *; lia].
    + right. rewrite <- Eu. by apply Hfound.
  - left. split.
    + unfold vm_boot_alloc. by rewrite Hb, Ef.
    + by apply find_boot_seg_none.
Qed.

(** ** A memory of four pages, with one block that is free or in use *)

Definition sample_seg : vm_physseg := Physseg 0x4000 0x8000 4 false 0.

Definition sample_page (st : bstate) (i size : Z) : vm_page :=
  Page (0x4000 + i * PAGESIZE)
    (if decide (st = BFree) then if i =? 0 then PG_MANAGED else 0 else PG_ALLOCATED) size true.

Definition sample_mem (st : bstate) : physmem :=
  Physmem [sample_seg]
    (if decide (st = BFree) then <[2%nat := [0]]> (replicate 16 []) else replicate 16 [])
    (if decide (st = BFree) then <[2%nat := 1]> (replicate 16 0) else replicate 16 0)
    [sample_page st 0 4; sample_page st 1 1; sample_page st 2 2; sample_page st 3 1].

Definition sample_blocks (st : bstate) : blocks := {[0 := (2%nat, st)]}.

Lemma sample_get st i p : pget (sample_mem st) i = Some p ->
  (i = 0 /\ p = sample_page st 0 4) \/ (i = 1 /\ p = sample_page st 1 1) \/
  (i = 2 /\ p = sample_page st 2 2) \/ (i = 3 /\ p = sample_page st 3 1).
Proof.
  intros H. pose proof (pget_range _ _ _ H) as Hr. cbn in Hr.
  assert (i = 0 \/ i = 1 \/ i = 2 \/ i = 3) as [-> | [-> | [-> | ->]]] by lia; injection H as <-; auto 6.
Qed.

Lemma sample_lists st : st = BFree \/ st = BUsed ->
  lists_ok (freelist (sample_mem st)) (pagecount (sample_mem st)) (sample_blocks st).
Proof.
  intros Hst. assert (forall i l, freelist (sample_mem st) !! i = Some l ->
    (i < 16)%nat /\ l = (if decide (i = 2%nat /\ st = BFree) then [0] else [])) as Hl.
  { intros i l H. split; [apply lookup_lt_Some in H; by destruct Hst as [-> | ->]|].
    do 16 (destruct i as [|i]; [destruct Hst as [-> | ->]; by injection H as <-|]). by destruct Hst as [-> | ->]. }
  split.
  - by destruct Hst as [-> | ->].
  - intros i l H. apply Hl in H as [Hi ->].
    do 16 (destruct i as [|i]; [by destruct Hst as [-> | ->]|]). lia.
  - intros i l H. apply Hl in H as [_ ->]. destruct (decide _); [apply NoDup_singleton|constructor].
  - intros i l pg H. apply Hl in H as [_ ->]. unfold sample_blocks. rewrite lookup_singleton_Some.
    destruct (decide _) as [[-> ->]|Hd]; [rewrite list_elem_of_singleton; naive_solver|].
    split; [by intros ?%not_elem_of_nil|]. intros (<- & [= <- ->]). by destruct Hd.
Qed.

Lemma sample_inv st : st = BFree \/ st = BUsed -> pm_inv (sample_mem st) (sample_blocks st).
Proof.
  intros Hst. split.
  - by apply sample_lists.
  - split.
    + intros sg ->%list_elem_of_singleton. by cbn.
    + intros sg i p ->%list_elem_of_singleton _ H. apply sample_get in H. naive_solver.
    + intros sg sg' ->%list_elem_of_singleton ->%list_elem_of_singleton Hne. done.
  - intros pg k st'. unfold sample_blocks. rewrite lookup_singleton_Some. intros [<- [= <- <-]]. split_and!.
    + exists sample_seg. split_and!; [by left|done|by cbn].
    + by exists (sample_page st 0 4).
    + change (bsize 2) with 4. intros i Hi.
      assert (i = 0 \/ i = 1 \/ i = 2 \/ i = 3) as [-> | [-> | [-> | ->]]] by lia;
        (eexists; split; [reflexivity|by destruct Hst as [-> | ->]]).
  - intros pg k st1 pg' k' st2. unfold sample_blocks. rewrite !lookup_singleton_Some. naive_solver.
  - intros pg p H. unfold sample_blocks. setoid_rewrite lookup_singleton_Some.
    apply sample_get in H as [[-> ->]|[[-> ->]|[[-> ->]|[-> ->]]]]; destruct Hst as [-> | ->]; naive_solver.
  - intros sg i ->%list_elem_of_singleton _ [H1 H2]. cbn in H1, H2. exists 0, 2%nat, st. split; [done|].
    change (bsize 2) with 4. lia.
Qed.

Lemma vm_page_alloc_correct_witness : exists pg m' B',
  vm_page_alloc (sample_mem BFree) 1 = Ok (Some pg, m') /\ pm_inv m' B' /\ B' !! pg = Some (0%nat, BUsed).
Proof.
  destruct (vm_page_alloc_correct (sample_mem BFree) (sample_blocks BFree) 0 (sample_inv BFree (or_introl eq_refl)))
    as [[E _]|(pg & m' & B' & E & I & Hb & _)]; [vm_compute in E; discriminate E|].
  exact (ex_intro _ pg (ex_intro _ m' (ex_intro _ B' (conj E (conj I Hb))))).
Defined.

Lemma vm_page_free_correct_witness : exists m' B' h j,
  vm_page_free (sample_mem BUsed) 0 = Ok m' /\ pm_inv m' (<[h := (j, BFree)]> B') /\ h <= 0.
Proof.
  destruct (vm_page_free_correct (sample_mem BUsed) (sample_blocks BUsed) 0 2 (sample_inv BUsed (or_intror eq_refl)))
    as (m' & sg & h & j & B' & E & _ & _ & _ & I & _ & Hle & _); [reflexivity| |].
  - intros i p _ H. apply sample_get in H. naive_solver.
  - exact (ex_intro _ m' (ex_intro _ B' (ex_intro _ h (ex_intro _ j (conj E (conj I Hle)))))).
Defined.

Lemma vm_pagelist_alloc_correct_witness : exists (bs : list (Z * nat)) m' B',
  vm_pagelist_alloc (sample_mem BFree) 3 = Ok (0, bs.*1, m') /\ pm_inv m' B' /\ total_size bs = 3.
Proof.
  destruct (vm_pagelist_alloc_correct (sample_mem BFree) (sample_blocks BFree) 3 (sample_inv BFree (or_introl eq_refl)))
    as [[E _]|(bs & m' & B' & E & _ & I & Ht & _)]; [lia|vm_compute in E; discriminate E|].
  exact (ex_intro _ bs (ex_intro _ m' (ex_intro _ B' (conj E (conj I Ht))))).
Defined.

Lemma init_vm_page_correct_witness : exists b' m B,
  init_vm_page (H := mips) 0 40 (Boot 0x80200000 false []) [Physseg 0 0x3000 3 true 0; sample_seg] = Ok (b', m) /\ pm_inv m B.
Proof.
  destruct (init_vm_page_correct (H := mips) 0 40 (Boot 0x80200000 false []) [Physseg 0 0x3000 3 true 0; sample_seg] 280)
    as [[E _]|(b' & m & B & E & I & _)]; try done.
  - constructor; [by split|]. constructor; [by split|constructor].
  - intros [|[|i]] [|[|j]] sg sg' [= <-] [= <-] Hne; try done; [by left|by right].
  - exact (ex_intro _ b' (ex_intro _ m (ex_intro _ B (conj E I)))).
Defined.

(** In a segment of [2 ^ 16] pages whose first half is free, the release of the second half
    merges both into a block of [2 ^ 16] pages, for which there is no free list: the code
    writes past the end of its arrays. *)
Lemma merge_past_last_list m p0 p1 :
  seglist m = [Physseg 0 (2 ^ 28) (2 ^ 16) false 0] -> length (freelist m) = 16%nat ->
  pget m 0 = Some p0 -> pg_size p0 = 2 ^ 15 -> flag_on (flags p0) PG_MANAGED = true ->
  freelist m !! 15%nat = Some [0] -> pagecount m !! 15%nat = Some 1 ->
  pget m (2 ^ 15) = Some p1 -> p1 = Page (2 ^ 27) PG_ALLOCATED (2 ^ 15) true ->
  vm_page_free m (2 ^ 15) = Fault BadAccess.
Proof.
  intros Hs Hlen H0 Hz0 Hm0 Hl Hc H1 ->. unfold vm_page_free, vm_page_free_nolock.
  rewrite (pget_get _ _ _ H1). cbn [mbind outcome_bind]. rewrite Hs. set (sg := Physseg _ _ _ _ _).
  cbn [free_in_segs]. change (seg_start sg <=? _) with true. change (_ <=? seg_end sg) with true. cbn [andb].
  unfold pm_free_from_seg. rewrite (pget_get _ _ _ H1). cbn [mbind outcome_bind].
  change (flag_on (flags _) PG_ALLOCATED) with true. cbn [negb].
  assert (pm_find_buddy m sg (2 ^ 15) = Ok (Some 0)) as Eb.
  { unfold pm_find_buddy. rewrite (pget_get _ _ _ H1). cbn [mbind outcome_bind].
    change (assert _) with (Ok tt). cbn [mbind outcome_bind].
    change (if _ =? 0 then _ else _) with 0. cbn [orb]. change ((_ <? 0) || _) with false.
    rewrite (pget_get _ _ _ H0). cbn [mbind outcome_bind]. by rewrite Hz0, Hm0. }
  cbn [merge_loop]. rewrite Eb. cbn [mbind outcome_bind]. rewrite (pget_get _ _ _ H0). cbn [mbind outcome_bind].
  unfold FREELIST at 1 2. rewrite Hz0. change (Z.log2 (2 ^ 15)) with (Z.of_nat 15).
  rewrite (fl_remove_ok m 15 [0] Hl) by set_solver. cbn [mbind outcome_bind].
  rewrite (count_add_ok _ 15 1) by exact Hc. cbn [mbind outcome_bind].
  set (m1 := set_pagecount _ _). destruct (upd_page_spec m1 0 p0 (fun p => set_flags (flag_clr (flags p) PG_MANAGED) p) H0)
    as (m2 & -> & (A1 & A2 & A3) & _ & G2). cbn [mbind outcome_bind]. unfold pm_merge_buddies.
  rewrite (pget_get m2 (2 ^ 15) (Page (2 ^ 27) PG_ALLOCATED (2 ^ 15) true)) by (by rewrite G2). cbn [mbind outcome_bind].
  assert (pget m2 0 = Some (set_flags (flag_clr (flags p0) PG_MANAGED) p0)) as Hp2 by (by rewrite G2).
  rewrite (pget_get _ _ _ Hp2). cbn [mbind outcome_bind set_flags pg_size]. rewrite Hz0.
  change (2 ^ 15 =? 2 ^ 15) with true. change (0 <? 2 ^ 15) with true. cbn [assert mbind outcome_bind].
  rewrite (pget_get _ _ _ Hp2). cbn [mbind outcome_bind set_flags pg_size]. rewrite Hz0.
  change (0 + 2 ^ 15 =? 2 ^ 15) with true. cbn [assert mbind outcome_bind].
  destruct (upd_page_spec m2 0 _ (fun p => set_size (uwrap 32 (pg_size p * 2)) p) Hp2) as (m3 & -> & (B1 & B2 & B3) & _ & G3).
  pose proof (G3 0) as Hp3. rewrite decide_True in Hp3 by done. cbn [set_flags set_size pg_size paddr flags pv_empty] in Hp3.
  rewrite Hz0 in Hp3. change (uwrap 32 (2 ^ 15 * 2)) with (2 ^ 16) in Hp3. cbn [mbind outcome_bind].
  assert (pm_find_buddy m3 sg 0 = Ok None) as ->.
  { unfold pm_find_buddy. by rewrite (pget_get _ _ _ Hp3). }
  cbn [mbind outcome_bind]. rewrite (pget_get _ _ _ Hp3). cbn [mbind outcome_bind pg_size].
  unfold fl_insert_head, arr_get. rewrite B2, A2. cbn [m1 set_pagecount freelist set_freelist].
  rewrite lookup_ge_None_2; [done|]. rewrite length_insert, Hlen. done.
Qed.
