(* ===== verification/Machine.v ===== *)
(** * What the machine offers to address spaces (include/sys/pmap.h, vm_physmem.h)

    The pages and page tables as sys/kern/vm_map.c and vm_object.c see them: an abstract
    state, [hview], and a class, [VmHw], of the operations they call with what these do
    to it.  The code of address spaces is verified against the class. *)

From S2P Require Import Prelude.

Definition VM_PROT_NONE : Z := 0.
Definition VM_PROT_READ : Z := 1.
Definition VM_PROT_WRITE : Z := 2.
Definition VM_PROT_EXEC : Z := 4.

(** The pages handed out with their contents as 32-bit words, the physical maps that exist,
    and the pages mapped in them with their protection. *)
Record hview := HView {
  v_data : gmap Z (list Z);
  v_pmaps : gset Z;
  v_maps : gmap (Z * Z) (Z * Z);
}.

Definition zero_page : list Z := replicate (Z.to_nat (PAGESIZE / 4)) 0.

Definition set_data (d : gmap Z (list Z)) (v : hview) : hview := HView d (v_pmaps v) (v_maps v).
Definition set_maps (t : gmap (Z * Z) (Z * Z)) (v : hview) : hview := HView (v_data v) (v_pmaps v) t.

Definition in_range (pm s e : Z) (k : Z * Z) : Prop := k.1 = pm /\ s <= k.2 < e.
#[export] Instance in_range_dec pm s e k : Decision (in_range pm s e k).
Proof. unfold in_range. apply _. Defined.

(** The mappings outside a range of a map. *)
Definition unmap (pm s e : Z) (t : gmap (Z * Z) (Z * Z)) : gmap (Z * Z) (Z * Z) :=
  filter (fun x => ~ in_range pm s e x.1) t.

Definition pmap_kernel : Z := 0.

(** A run that needed a page that was not there, or that exceeded the number of address
    space identifiers or of references.  The laws leave open when that happens: the
    implementation in Physmem.v refuses a page only if no block is free. *)
Definition exhausted {A} (r : outcome A) : Prop := r = Fault NoMemory \/ r = Fault PanicCalled.

(** [vm_page_alloc1] is [vm_page_alloc (1)]; the others have the names of the functions. *)
Class VmHw `{Arch} := {
  hw : Type;
  hw_ok : hw -> Prop;
  view : hw -> hview;
  vm_page_alloc1 : hw -> outcome (option Z * hw);
  vm_page_free : hw -> Z -> outcome hw;
  pmap_zero_page : hw -> Z -> outcome hw;
  pmap_copy_page : hw -> Z -> Z -> outcome hw;
  pmap_enter : hw -> Z -> Z -> Z -> Z -> outcome hw;
  pmap_remove : hw -> Z -> Z -> Z -> outcome hw;
  pmap_new : hw -> outcome (Z * hw);
  pmap_delete : hw -> Z -> outcome hw;
  page_alloc_law h : hw_ok h ->
    vm_page_alloc1 h = Ok (None, h) \/
    exists pg h' d, vm_page_alloc1 h = Ok (Some pg, h') /\ hw_ok h' /\ v_data (view h) !! pg = None /\
      view h' = set_data (<[pg := d]> (v_data (view h))) (view h);
  page_free_law h pg : hw_ok h -> is_Some (v_data (view h) !! pg) ->
    (forall k pr, v_maps (view h) !! k <> Some (pg, pr)) ->
    exists h', vm_page_free h pg = Ok h' /\ hw_ok h' /\ view h' = set_data (delete pg (v_data (view h))) (view h);
  zero_page_law h pg : hw_ok h -> is_Some (v_data (view h) !! pg) ->
    exists h', pmap_zero_page h pg = Ok h' /\ hw_ok h' /\
      view h' = set_data (<[pg := zero_page]> (v_data (view h))) (view h);
  copy_page_law h src dst d : hw_ok h -> v_data (view h) !! src = Some d -> is_Some (v_data (view h) !! dst) ->
    exists h', pmap_copy_page h src dst = Ok h' /\ hw_ok h' /\
      view h' = set_data (<[dst := d]> (v_data (view h))) (view h);
  enter_law h pm va pg pr : hw_ok h -> pm ∈ v_pmaps (view h) -> pm <> pmap_kernel -> page_aligned_p va = true ->
    USER_SPACE_BEGIN <= va < USER_SPACE_END -> is_Some (v_data (view h) !! pg) -> 0 <= pr <= 7 ->
    (forall x, v_maps (view h) !! (pm, va) = Some x -> x.1 = pg) ->
    exhausted (pmap_enter h pm va pg pr) \/
    exists h', pmap_enter h pm va pg pr = Ok h' /\ hw_ok h' /\
      view h' = set_maps (<[(pm, va) := (pg, pr)]> (v_maps (view h))) (view h);
  remove_law h pm s e : hw_ok h -> pm ∈ v_pmaps (view h) -> pm <> pmap_kernel -> page_aligned_p s = true -> page_aligned_p e = true ->
    s < e -> USER_SPACE_BEGIN <= s -> e <= USER_SPACE_END ->
    exists h', pmap_remove h pm s e = Ok h' /\ hw_ok h' /\ view h' = set_maps (unmap pm s e (v_maps (view h))) (view h);
  new_law h : hw_ok h ->
    exhausted (pmap_new h) \/
    exists pm h', pmap_new h = Ok (pm, h') /\ hw_ok h' /\ pm <> pmap_kernel /\ pm ∉ v_pmaps (view h) /\
      (forall va, v_maps (view h) !! (pm, va) = None) /\
      view h' = HView (v_data (view h)) ({[pm]} ∪ v_pmaps (view h)) (v_maps (view h));
  delete_law h pm : hw_ok h -> pm ∈ v_pmaps (view h) -> pm <> pmap_kernel ->
    exists h', pmap_delete h pm = Ok h' /\ hw_ok h' /\
      view h' = HView (v_data (view h)) (v_pmaps (view h) ∖ {[pm]}) (filter (fun x => x.1.1 <> pm) (v_maps (view h)));
}.
