(* ===== verification/VmMap.v ===== *)
(** * Address spaces (sys/kern/vm_map.c, vm_object.c, vm_pager.c, mmap.c, sbrk.c)

    An address space is a sorted list of entries, each a range of virtual addresses backed
    by a part of a memory object; an object holds the pages that have been touched, by their
    offset.  Pages and the machine's page tables come from an interface, [VmHw], which says
    what vm_physmem.c and pmap.c promise to this code.  The results: the search for a gap is
    a first fit; entries stay sorted, apart and within the space, reference counters of
    objects count the entries, and every entry of the page tables agrees with the entries of
    the address space; unmapping removes exactly the range; a page fault gives the page of
    the object at the address, and the same page each time; a clone shares or copies the
    contents of its parent. *)

From S2P Require Import Prelude Machine.

(** ** Data *)

Definition VM_ANON : Z := 0x1000.
Definition VM_SHARED : Z := 0x0001.
Definition VM_PRIVATE : Z := 0x0002.
Definition VM_FIXED : Z := 0x0004.

Definition VM_ENT_SHARED : Z := 1.
Definition VM_ENT_PRIVATE : Z := 2.

Inductive vm_pgr_type := VM_DUMMY | VM_ANONYMOUS.

(** The pages of an object with their offsets, in the order of the list. *)
Record vm_object := Object {
  vo_pages : list (Z * Z);
  vo_npages : Z;
  vo_pager : vm_pgr_type;
  vo_refs : Z;
}.

(** [eid] is the address of the structure; entries always have an object. *)
Record vm_map_entry := Entry {
  eid : Z;
  object : Z;
  offset : Z;
  prot : Z;
  flags : Z;
  start : Z;
  end_ : Z;
}.

Record vm_map := Map {
  entries : list vm_map_entry;
  nentries : Z;
  pmap : Z;
}.

Section vm.
Context `{HA : Arch} `{HW : !VmHw}.

(** The machine, the objects and maps by their addresses, and the next address. *)
Record vm := Vm {
  mach : hw;
  objs : gmap Z vm_object;
  maps : gmap Z vm_map;
  fresh : Z;
}.

Implicit Types (v : vm) (m : vm_map) (e : vm_map_entry) (o : vm_object).

Definition set_mach h v := Vm h (objs v) (maps v) (fresh v).
Definition set_obj (i : Z) o v := Vm (mach v) (<[i := o]> (objs v)) (maps v) (fresh v).
Definition set_map (i : Z) m v := Vm (mach v) (objs v) (<[i := m]> (maps v)) (fresh v).

Definition get_obj v (i : Z) : outcome vm_object :=
  match objs v !! i with Some o => Ok o | None => Fault BadAccess end.
Definition get_map v (i : Z) : outcome vm_map :=
  match maps v !! i with Some m => Ok m | None => Fault BadAccess end.

Definition set_refs (n : Z) o := Object (vo_pages o) (vo_npages o) (vo_pager o) n.
Definition set_pages (l : list (Z * Z)) (n : Z) o := Object l n (vo_pager o) (vo_refs o).

(** ** Objects *)

Definition vm_object_alloc v (type : vm_pgr_type) : Z * vm :=
  (fresh v, Vm (mach v) (<[fresh v := Object [] 0 type 1]> (objs v)) (maps v) (fresh v + 1)).

Fixpoint find_page (l : list (Z * Z)) (off : Z) : option Z :=
  match l with
  | [] => None
  | (o, pg) :: l => if o =? off then Some pg else find_page l off
  end.

Definition vm_object_find_page o (off : Z) : option Z := find_page (vo_pages o) off.

Fixpoint insert_page (l : list (Z * Z)) (off pg : Z) : outcome (list (Z * Z)) :=
  match l with
  | [] => Ok [(off, pg)]
  | (o, q) :: l =>
      if off <? o then Ok ((off, pg) :: (o, q) :: l)
      else
        (* there must be no page at the offset! *)
        _ ← assert (negb (o =? off));
        l ← insert_page l off pg;
        Ok ((o, q) :: l)
  end.

(** The two assertions on the page itself hold for every page the allocator hands out: it
    is a single page, and the offset of a page that is not in an object is 0. *)
Definition vm_object_add_page v (i off pg : Z) : outcome vm :=
  o ← get_obj v i;
  l ← insert_page (vo_pages o) off pg;
  Ok (set_obj i (set_pages l (vo_npages o + 1) o) v).

Fixpoint remove_pages (h : hw) (l : list (Z * Z)) (n off len : Z) : outcome (hw * list (Z * Z) * Z) :=
  match l with
  | [] => Ok (h, [], n)
  | (o, pg) :: l =>
      if wrap (off + len) <=? o then Ok (h, (o, pg) :: l, n)
      else if o <? off then
        '(h, l, n) ← remove_pages h l n off len;
        Ok (h, (o, pg) :: l, n)
      else
        h ← vm_page_free h pg;
        remove_pages h l (n - 1) off len
  end.

Definition vm_object_remove_pages v (i off len : Z) : outcome vm :=
  o ← get_obj v i;
  _ ← assert (page_aligned_p off && page_aligned_p len);
  '(h, l, n) ← remove_pages (mach v) (vo_pages o) (vo_npages o) off len;
  Ok (set_obj i (set_pages l n o) (set_mach h v)).

Definition vm_object_hold v (i : Z) : outcome vm :=
  o ← get_obj v i;
  n ← refcnt_acquire (vo_refs o);
  Ok (set_obj i (set_refs n o) v).

Definition vm_object_drop v (i : Z) : outcome vm :=
  o ← get_obj v i;
  '(n, last) ← refcnt_release (vo_refs o);
  let v := set_obj i (set_refs n o) v in
  if negb last then Ok v
  else
    v ← vm_object_remove_pages v i 0 (wrap (- PAGESIZE));
    Ok (Vm (mach v) (delete i (objs v)) (maps v) (fresh v)).

Fixpoint clone_pages v (new : Z) (l : list (Z * Z)) : outcome vm :=
  match l with
  | [] => Ok v
  | (off, pg) :: l =>
      '(npg, h) ← vm_page_alloc1 (mach v);
      match npg with
      | None => Fault NoMemory
      | Some npg =>
          h ← pmap_copy_page h pg npg;
          v ← vm_object_add_page (set_mach h v) new off npg;
          clone_pages v new l
      end
  end.

Definition vm_object_clone v (i : Z) : outcome (Z * vm) :=
  let '(new, v) := vm_object_alloc v VM_DUMMY in
  o ← get_obj v i;
  n ← get_obj v new;
  let v := set_obj new (Object (vo_pages n) (vo_npages n) (vo_pager o) (vo_refs n)) v in
  v ← clone_pages v new (vo_pages o);
  Ok (new, v).

(** ** Pagers *)

Definition dummy_pager_fault v (i off : Z) : outcome (option Z * vm) := Ok (None, v).

Definition anon_pager_fault v (i off : Z) : outcome (option Z * vm) :=
  '(pg, h) ← vm_page_alloc1 (mach v);
  match pg with
  | None => Fault NoMemory
  | Some pg =>
      h ← pmap_zero_page h pg;
      v ← vm_object_add_page (set_mach h v) i off pg;
      Ok (Some pg, v)
  end.

Definition pgr_fault (t : vm_pgr_type) : vm -> Z -> Z -> outcome (option Z * vm) :=
  match t with VM_DUMMY => dummy_pager_fault | VM_ANONYMOUS => anon_pager_fault end.

(** ** Lists of entries, which are known by their addresses *)

Definition find_ent (l : list vm_map_entry) (i : Z) : option vm_map_entry := snd <$> list_find (fun e => eid e = i) l.

Fixpoint next_ent (l : list vm_map_entry) (i : Z) : option vm_map_entry :=
  match l with
  | [] => None
  | e :: l => if decide (eid e = i) then head l else next_ent l i
  end.

Fixpoint insert_after (l : list vm_map_entry) (i : Z) e : list vm_map_entry :=
  match l with
  | [] => []
  | x :: l => if decide (eid x = i) then x :: e :: l else x :: insert_after l i e
  end.

Definition update_ent (l : list vm_map_entry) (i : Z) (f : vm_map_entry -> vm_map_entry) : list vm_map_entry :=
  (fun e => if decide (eid e = i) then f e else e) <$> l.

Definition get_ent m (i : Z) : outcome vm_map_entry :=
  match find_ent (entries m) i with Some e => Ok e | None => Fault BadAccess end.

Definition set_end (a : Z) e := Entry (eid e) (object e) (offset e) (prot e) (flags e) (start e) a.
Definition set_start (a : Z) e := Entry (eid e) (object e) (offset e) (prot e) (flags e) a (end_ e).
Definition set_offset (a : Z) e := Entry (eid e) (object e) a (prot e) (flags e) (start e) (end_ e).
Definition set_entries (l : list vm_map_entry) (n : Z) m := Map l n (pmap m).

(** ** Address spaces *)

Definition vm_map_start m : Z := if pmap m =? pmap_kernel then KERNEL_SPACE_BEGIN else USER_SPACE_BEGIN.
Definition vm_map_end m : Z := if pmap m =? pmap_kernel then KERNEL_SPACE_END else USER_SPACE_END.

Definition vm_map_address_p m (addr : Z) : bool := (vm_map_start m <=? addr) && (addr <? vm_map_end m).
Definition vm_map_contains_p m (s e : Z) : bool := (vm_map_start m <=? s) && (e <=? vm_map_end m).

(** The current user map, if any, and the kernel's. *)
Definition vm_map_lookup (user : option (Z * vm_map)) (kernel : Z * vm_map) (addr : Z) : option Z :=
  match user with
  | Some (i, m) => if vm_map_address_p m addr then Some i else if vm_map_address_p kernel.2 addr then Some kernel.1 else None
  | None => if vm_map_address_p kernel.2 addr then Some kernel.1 else None
  end.

Definition vm_map_new v : outcome (Z * vm) :=
  '(pm, h) ← pmap_new (mach v);
  Ok (fresh v, Vm h (objs v) (<[fresh v := Map [] 0 pm]> (maps v)) (fresh v + 1)).

Definition vm_map_entry_alloc v (obj s e pr fl : Z) : outcome (vm_map_entry * vm) :=
  _ ← assert (page_aligned_p s && page_aligned_p e);
  Ok (Entry (fresh v) obj 0 pr fl s e, Vm (mach v) (objs v) (maps v) (fresh v + 1)).

Definition vm_map_entry_free v e : outcome vm := vm_object_drop v (object e).

Fixpoint find_addr (l : list vm_map_entry) (va : Z) : option vm_map_entry :=
  match l with
  | [] => None
  | it :: l => if (start it <=? va) && (va <? end_ it) then Some it else find_addr l va
  end.

Definition vm_map_find_entry m (va : Z) : option vm_map_entry := find_addr (entries m) va.

Definition vm_map_insert_after m (after : option Z) e : vm_map :=
  let l := match after with Some a => insert_after (entries m) a e | None => e :: entries m end in
  set_entries l (nentries m + 1) m.

Definition vm_map_entry_destroy v (mi ei : Z) : outcome vm :=
  m ← get_map v mi;
  e ← get_ent m ei;
  let v := set_map mi (set_entries (filter (fun e => eid e <> ei) (entries m)) (nentries m - 1) m) v in
  vm_map_entry_free v e.

Definition vm_map_entry_copy v e : outcome (vm_map_entry * vm) :=
  v ← vm_object_hold v (object e);
  vm_map_entry_alloc v (object e) (start e) (end_ e) (prot e) (flags e).

(** The result has the address of the entry that is after the base entry. *)
Definition vm_map_entry_split v (mi ei splitat : Z) : outcome (Z * vm) :=
  m ← get_map v mi;
  e ← get_ent m ei;
  _ ← assert (page_aligned_p splitat);
  _ ← assert ((start e <? splitat) && (splitat <? end_ e));
  '(new, v) ← vm_map_entry_copy v e;
  let m := set_entries (update_ent (entries m) ei (set_end splitat)) (nentries m) m in
  let new := set_offset (wrap (offset e + wrap (splitat - start e))) (set_start splitat new) in
  Ok (eid new, set_map mi (vm_map_insert_after m (Some ei) new) v).

Definition vm_map_entry_destroy_range v (mi ei s e : Z) : outcome vm :=
  m ← get_map v mi;
  ent ← get_ent m ei;
  _ ← assert ((start ent <=? s) && (e <=? end_ ent));
  h ← pmap_remove (mach v) (pmap m) s e;
  let v := set_mach h v in
  '(del, v) ← (if start ent <? s then vm_map_entry_split v mi ei s else Ok (ei, v));
  m ← get_map v mi;
  d ← get_ent m del;
  v ← (if e <? end_ d then '(_, v) ← vm_map_entry_split v mi del e; Ok v else Ok v);
  vm_map_entry_destroy v mi del.

Fixpoint destroy_all v (mi : Z) (l : list vm_map_entry) : outcome vm :=
  match l with
  | [] => Ok v
  | e :: l => v ← vm_map_entry_destroy v mi (eid e); destroy_all v mi l
  end.

Definition vm_map_delete v (mi : Z) : outcome vm :=
  m ← get_map v mi;
  h ← pmap_delete (mach v) (pmap m);
  v ← destroy_all (set_mach h v) mi (entries m);
  Ok (Vm (mach v) (objs v) (delete mi (maps v)) (fresh v)).

(** The gaps after the entries, from the first on. *)
Fixpoint browse_gaps (l : list vm_map_entry) (map_end s length : Z) : option (Z * Z) :=
  match l with
  | [] => None
  | it :: l =>
      let gap_start := end_ it in
      let gap_end := match l with next :: _ => start next | [] => map_end end in
      let s := if s <? gap_start then gap_start else s in
      if wrap (s + length) <=? gap_end then Some (s, eid it) else browse_gaps l map_end s length
  end.

(** The error, the address found, and the entry after which the gap is. *)
Definition vm_map_findspace_nolock m (s length : Z) : outcome (Z * Z * option Z) :=
  _ ← assert (page_aligned_p s && page_aligned_p length);
  let s0 := s in
  let s := Z.max s (vm_map_start m) in
  if vm_map_end m <? wrap (s + length) then Ok (ENOMEM, s0, None)
  else
    match entries m with
    | [] => Ok (0, s, None)
    | first :: _ =>
        if wrap (s + length) <=? start first then Ok (0, s, None)
        else
          match browse_gaps (entries m) (vm_map_end m) s length with
          | Some (s, after) => Ok (0, s, Some after)
          | None => Ok (ENOMEM, s0, None)
          end
    end.

Definition vm_map_findspace m (s length : Z) : outcome (Z * Z) :=
  '(error, s, _) ← vm_map_findspace_nolock m s length;
  Ok (error, s).

(** The error, and the start of the entry if it is inserted. *)
Definition vm_map_insert v (mi : Z) e (fl : Z) : outcome (Z * vm_map_entry * vm) :=
  m ← get_map v mi;
  let length := wrap (end_ e - start e) in
  '(error, s, after) ← vm_map_findspace_nolock m (start e) length;
  if negb (error =? 0) then Ok (error, e, v)
  else if flag_on fl VM_FIXED && negb (s =? start e) then Ok (ENOMEM, e, v)
  else
    _ ← assert (negb (Z.land fl (Z.lor VM_SHARED VM_PRIVATE) =? Z.lor VM_SHARED VM_PRIVATE));
    let entry_flags := if flag_on fl VM_SHARED then VM_ENT_SHARED else VM_ENT_PRIVATE in
    let e := Entry (eid e) (object e) (offset e) (prot e) entry_flags s (wrap (s + length)) in
    Ok (0, e, set_map mi (vm_map_insert_after m after e) v).

Definition vm_map_alloc_entry v (mi addr length pr fl : Z) : outcome (Z * option vm_map_entry * vm) :=
  m ← get_map v mi;
  if negb (flag_on fl VM_ANON) then Ok (ENOTSUP, None, v)
  else if negb (page_aligned_p addr) then Ok (EINVAL, None, v)
  else if length =? 0 then Ok (EINVAL, None, v)
  else if negb (addr =? 0) && negb (vm_map_contains_p m addr (wrap (addr + length))) then Ok (EINVAL, None, v)
  else
    (* Create object with a pager that supplies cleared pages on page fault. *)
    let '(obj, v) := vm_object_alloc v VM_ANONYMOUS in
    '(ent, v) ← vm_map_entry_alloc v obj addr (wrap (addr + length)) pr VM_ENT_SHARED;
    (* Given the hint try to insert the entry at given position or after it. *)
    '(error, ent, v) ← vm_map_insert v mi ent fl;
    if negb (error =? 0) then
      v ← vm_map_entry_free v ent;
      Ok (ENOMEM, None, v)
    else Ok (0, Some ent, v).

Definition vm_map_entry_resize v (mi ei new_end : Z) : outcome (Z * vm) :=
  m ← get_map v mi;
  e ← get_ent m ei;
  _ ← assert (page_aligned_p new_end);
  _ ← assert (start e <=? new_end);
  let gap_end := match next_ent (entries m) ei with Some next => start next | None => vm_map_end m end in
  if (end_ e <=? new_end) && (gap_end <? new_end) then Ok (ENOMEM, v)
  else
    v ← (if end_ e <=? new_end then Ok v
         else
           h ← pmap_remove (mach v) (pmap m) new_end (end_ e);
           vm_object_remove_pages (set_mach h v) (object e) (wrap (new_end - start e)) (wrap (end_ e - new_end)));
    let v := set_map mi (set_entries (update_ent (entries m) ei (set_end new_end)) (nentries m) m) v in
    if start e =? new_end then
      v ← vm_map_entry_destroy v mi ei;
      Ok (0, v)
    else Ok (0, v).

(** A copy of the entry [it] is appended to the map [new]. *)
Definition clone_entry v (new : Z) (it : vm_map_entry) : outcome vm :=
  '(obj, v) ← (if flag_on (flags it) VM_ENT_SHARED then v ← vm_object_hold v (object it); Ok (object it, v)
               else vm_object_clone v (object it));
  '(ent, v) ← vm_map_entry_alloc v obj (start it) (end_ it) (prot it) (flags it);
  let ent := set_offset (offset it) ent in
  m ← get_map v new;
  Ok (set_map new (set_entries (entries m ++ [ent]) (nentries m + 1) m) v).

Fixpoint clone_entries v (new : Z) (l : list vm_map_entry) : outcome vm :=
  match l with
  | [] => Ok v
  | it :: l => v ← clone_entry v new it; clone_entries v new l
  end.

(** The running thread belongs to a process, which the code asserts. *)
Definition vm_map_clone v (mi : Z) : outcome (Z * vm) :=
  '(new, v) ← vm_map_new v;
  m ← get_map v mi;
  v ← clone_entries v new (entries m);
  Ok (new, v).

Definition vm_page_fault v (mi fault_addr fault_type : Z) : outcome (Z * vm) :=
  m ← get_map v mi;
  match vm_map_find_entry m fault_addr with
  | None => Ok (EFAULT, v)
  | Some e =>
      if prot e =? VM_PROT_NONE then Ok (EACCES, v)
      else if negb (flag_on (prot e) VM_PROT_WRITE) && (fault_type =? VM_PROT_WRITE) then Ok (EACCES, v)
      else if negb (flag_on (prot e) VM_PROT_READ) && (fault_type =? VM_PROT_READ) then Ok (EACCES, v)
      else
        _ ← assert ((start e <=? fault_addr) && (fault_addr <? end_ e));
        o ← get_obj v (object e);
        let fault_page := wrap (Z.land fault_addr (- PAGESIZE)) in
        let off := wrap (offset e + wrap (fault_page - start e)) in
        '(frame, v) ← (match vm_object_find_page o off with
                       | Some pg => Ok (Some pg, v)
                       | None => pgr_fault (vo_pager o) v (object e) off
                       end);
        match frame with
        | None => Ok (EFAULT, v)
        | Some pg =>
            h ← pmap_enter (mach v) (pmap m) fault_page pg (prot e);
            Ok (0, set_mach h v)
        end
  end.

(** ** System calls *)

Definition MAP_FAILED : Z := wrap (-1).

(** The error, and the value left in [*addr_p]. *)
Definition do_mmap v (mi addr length pr fl : Z) : outcome (Z * Z * vm) :=
  let length := roundup length PAGESIZE in
  let sharing := Z.land fl (Z.lor VM_SHARED VM_PRIVATE) in
  if sharing =? Z.lor VM_SHARED VM_PRIVATE then Ok (EINVAL, MAP_FAILED, v)
  else if sharing =? 0 then Ok (EINVAL, MAP_FAILED, v)
  else
    '(error, ent, v) ← vm_map_alloc_entry v mi addr length pr fl;
    match ent with
    | Some e => Ok (0, start e, v)
    | None => Ok (error, MAP_FAILED, v)
    end.

(** Each round goes to the next entry of the list as it was. *)
Fixpoint munmap_loop (fuel : nat) v (mi ei s e : Z) : outcome vm :=
  m ← get_map v mi;
  ent ← get_ent m ei;
  if (s <? end_ ent) && (start ent <? e) then
    match fuel with
    | O => Fault OutOfFuel
    | S fuel =>
        let rm_start := Z.max s (start ent) in
        let rm_end := Z.min e (end_ ent) in
        let next := next_ent (entries m) ei in
        v ← vm_map_entry_destroy_range v mi ei rm_start rm_end;
        match next with
        | None => Ok v
        | Some n => munmap_loop fuel v mi (eid n) s e
        end
    end
  else Ok v.

Definition do_munmap v (mi s length : Z) : outcome (Z * vm) :=
  if length =? 0 then Ok (EINVAL, v)
  else if negb (page_aligned_p s) || negb (page_aligned_p length) then Ok (EINVAL, v)
  else
    let e := wrap (s + length) in
    m ← get_map v mi;
    match vm_map_find_entry m s with
    | None => Ok (EINVAL, v)
    | Some ent =>
        v ← munmap_loop (Datatypes.length (entries m)) v mi (eid ent) s e;
        Ok (0, v)
    end.

Definition SBRK_START : Z := 0x08000000.

(** What a process has of its data segment. *)
Record sbrk := Sbrk {
  p_uspace : Z;
  p_sbrk : option Z;
  p_sbrk_end : Z;
}.

Definition sbrk_attach v (p : sbrk) : outcome (sbrk * vm) :=
  _ ← assert (bool_decide (p_sbrk p = None));
  let addr := SBRK_START in
  let '(obj, v) := vm_object_alloc v VM_ANONYMOUS in
  '(ent, v) ← vm_map_entry_alloc v obj addr (wrap (addr + PAGESIZE)) (Z.lor VM_PROT_READ VM_PROT_WRITE) VM_ENT_PRIVATE;
  '(error, ent, v) ← vm_map_insert v (p_uspace p) ent VM_FIXED;
  if negb (error =? 0) then panic
  else Ok (Sbrk (p_uspace p) (Some (eid ent)) addr, v).

(** The error, and the end before the call if there is none. *)
Definition sbrk_resize v (p : sbrk) (increment : Z) : outcome (Z * Z * sbrk * vm) :=
  match p_sbrk p with
  | None => Fault AssertFailed
  | Some ei =>
      m ← get_map v (p_uspace p);
      e ← get_ent m ei;
      let last_end := p_sbrk_end p in
      let new_end := wrap (p_sbrk_end p + increment) in
      let sbrk_start := start e in
      if new_end <? sbrk_start then Ok (EINVAL, 0, p, v)
      else
        (* require sbrk_segment to contain at least one page *)
        let new_end_aligned := Z.max (align new_end PAGESIZE) (wrap (sbrk_start + PAGESIZE)) in
        '(error, v) ← vm_map_entry_resize v (p_uspace p) ei new_end_aligned;
        if negb (error =? 0) then Ok (ENOMEM, 0, p, v)
        else Ok (0, last_end, Sbrk (p_uspace p) (p_sbrk p) new_end, v)
  end.

(** ** Runs that may exhaust memory *)

Definition runs {A} (r : outcome A) (P : A -> Prop) : Prop := exhausted r \/ exists a, r = Ok a /\ P a.

Lemma runs_ok {A} (a : A) (P : A -> Prop) : P a -> runs (Ok a) P.
Proof. intros H. right. by exists a. Qed.

Lemma runs_bind {A B} (r : outcome A) (k : A -> outcome B) (P : A -> Prop) (Q : B -> Prop) :
  runs r P -> (forall a, P a -> runs (k a) Q) -> runs (r ≫= k) Q.
Proof.
  intros [[-> | ->]|(a & -> & Ha)] Hk; [by left; left|by left; right|]. by apply Hk.
Qed.

Lemma runs_mono {A} (r : outcome A) (P Q : A -> Prop) : runs r P -> (forall a, P a -> Q a) -> runs r Q.
Proof. intros [H|(a & E & Ha)] HPQ; [by left|right]. exists a. auto. Qed.

(** ** Lists of entries *)

Section mid.
Context (pre post : list vm_map_entry) (e : vm_map_entry).
Hypothesis Hnd : NoDup (eid <$> pre ++ e :: post).

Lemma mid_fresh x : x ∈ pre \/ x ∈ post -> eid x <> eid e.
Proof.
  intros Hx E. rewrite fmap_app, fmap_cons in Hnd. apply NoDup_app in Hnd as (_ & H1 & H2).
  apply NoDup_cons in H2 as [H2 _]. destruct Hx as [Hx|Hx].
  - apply (H1 (eid x)); [by apply list_elem_of_fmap_2|]. rewrite E. by left.
  - apply H2. rewrite <- E. by apply list_elem_of_fmap_2.
Qed.

Lemma find_ent_mid : find_ent (pre ++ e :: post) (eid e) = Some e.
Proof.
  unfold find_ent. assert (list_find (fun x => eid x = eid e) (pre ++ e :: post) = Some (length pre, e)) as ->; [|done].
  apply list_find_Some. rewrite lookup_app_r, Nat.sub_diag by done. split_and!; try done.
  intros j y Hj Hlt. rewrite lookup_app_l in Hj by done. apply mid_fresh. left. by apply list_elem_of_lookup_2 in Hj.
Qed.

Lemma next_ent_mid : next_ent (pre ++ e :: post) (eid e) = head post.
Proof.
  assert (forall x, x ∈ pre -> eid x <> eid e) as Hf by (intros; apply mid_fresh; by left). clear Hnd.
  induction pre as [|x l IH]; cbn; [by rewrite decide_True|]. rewrite decide_False by (apply Hf; by left).
  apply IH. intros y Hy. apply Hf. by right.
Qed.

Lemma insert_after_mid x : insert_after (pre ++ e :: post) (eid e) x = pre ++ e :: x :: post.
Proof.
  assert (forall x, x ∈ pre -> eid x <> eid e) as Hf by (intros; apply mid_fresh; by left). clear Hnd.
  induction pre as [|y l IH]; cbn; [by rewrite decide_True|]. rewrite decide_False by (apply Hf; by left).
  f_equal. apply IH. intros z Hz. apply Hf. by right.
Qed.

Lemma update_id (l : list vm_map_entry) f : (forall x, x ∈ l -> eid x <> eid e) -> update_ent l (eid e) f = l.
Proof.
  intros Hf. unfold update_ent. rewrite <- (list_fmap_id l) at 2. apply list_fmap_ext.
  intros i x Hx. apply list_elem_of_lookup_2 in Hx. rewrite decide_False by auto. done.
Qed.

Lemma update_ent_mid f : update_ent (pre ++ e :: post) (eid e) f = pre ++ f e :: post.
Proof.
  transitivity (update_ent pre (eid e) f ++ f e :: update_ent post (eid e) f).
  { unfold update_ent. rewrite fmap_app, fmap_cons. by rewrite decide_True. }
  rewrite !update_id; [done|intros; apply mid_fresh; by right|intros; apply mid_fresh; by left].
Qed.

Lemma filter_mid : filter (fun x => eid x <> eid e) (pre ++ e :: post) = pre ++ post.
Proof.
  rewrite filter_app, filter_cons, decide_False by auto.
  rewrite !filter_all; [done|intros; apply mid_fresh; by right|intros; apply mid_fresh; by left].
Qed.
End mid.

Lemma find_ent_Some l i e : find_ent l i = Some e -> exists pre post, l = pre ++ e :: post /\ eid e = i.
Proof.
  unfold find_ent. destruct (list_find _ l) as [[n x]|] eqn:E; [|done]. intros [= ->].
  apply list_find_Some in E as (Hn & Hi & _). apply list_elem_of_split_length in Hn as (pre & post & -> & _). eauto.
Qed.

Definition covers e (va : Z) : Prop := start e <= va < end_ e.

(** Entries between [lo] and [hi], sorted and apart. *)
Fixpoint ents_ok (lo hi : Z) (l : list vm_map_entry) : Prop :=
  match l with
  | [] => lo <= hi
  | e :: l => lo <= start e /\ start e < end_ e /\ ents_ok (end_ e) hi l
  end.

Lemma ents_le l : forall lo hi, ents_ok lo hi l -> lo <= hi.
Proof. induction l as [|e l IH]; intros lo hi; cbn; [done|]. intros (? & ? & H%IH). lia. Qed.

Lemma ents_app l1 l2 : forall lo hi, ents_ok lo hi (l1 ++ l2) <-> exists mid, ents_ok lo mid l1 /\ ents_ok mid hi l2.
Proof.
  induction l1 as [|e l1 IH]; intros lo hi; cbn.
  - split; [intros H; exists lo; split; [done|done]|]. intros (mid & H1 & H2). destruct l2 as [|x l2]; cbn in *; [lia|].
    destruct H2 as (? & ? & ?). split_and!; try done. lia.
  - rewrite IH. split; [intros (? & ? & mid & ? & ?); exists mid; naive_solver|naive_solver].
Qed.

Lemma ents_in l e : forall lo hi, ents_ok lo hi l -> e ∈ l -> lo <= start e /\ start e < end_ e /\ end_ e <= hi.
Proof.
  induction l as [|x l IH]; intros lo hi H Hin; [by apply not_elem_of_nil in Hin|].
  destruct H as (H1 & H2 & H3). apply elem_of_cons in Hin as [-> |Hin].
  - apply ents_le in H3. lia.
  - destruct (IH _ _ H3 Hin). lia.
Qed.

Lemma covers_unique l e e' va : forall lo hi, ents_ok lo hi l -> e ∈ l -> e' ∈ l -> covers e va -> covers e' va -> e = e'.
Proof.
  induction l as [|x l IH]; intros lo hi H Hin Hin' C C'; [by apply not_elem_of_nil in Hin|].
  destruct H as (H1 & H2 & H3). apply elem_of_cons in Hin as [-> |Hin], Hin' as [-> |Hin']; [done|..].
  - destruct (ents_in l e' _ _ H3 Hin'). unfold covers in *. lia.
  - destruct (ents_in l e _ _ H3 Hin). unfold covers in *. lia.
  - by apply (IH (end_ x) hi).
Qed.

Lemma find_addr_spec l va : forall lo hi e, ents_ok lo hi l -> find_addr l va = Some e <-> e ∈ l /\ covers e va.
Proof.
  induction l as [|x l IH]; intros lo hi e H; cbn [find_addr].
  { split; [done|]. intros [H0 _]. by apply not_elem_of_nil in H0. }
  pose proof H as (H1 & H2 & H3). destruct (Z.leb_spec (start x) va), (Z.ltb_spec va (end_ x)); cbn [andb].
  - split.
    + intros [= ->]. split; [by left|done].
    + intros [Hin C]. f_equal. apply (covers_unique (x :: l) x e va lo hi); try done. by left.
  - rewrite (IH (end_ x) hi) by done. rewrite elem_of_cons. unfold covers. split; [naive_solver|]. intros [[-> |?] ?]; [lia|done].
  - rewrite (IH (end_ x) hi) by done. rewrite elem_of_cons. unfold covers. split; [naive_solver|]. intros [[-> |?] ?]; [lia|done].
  - rewrite (IH (end_ x) hi) by done. rewrite elem_of_cons. unfold covers. split; [naive_solver|]. intros [[-> |?] ?]; [lia|done].
Qed.

(** ** The search for a gap *)

Definition free_range (l : list vm_map_entry) (a n : Z) : Prop := forall e, e ∈ l -> a + n <= start e \/ end_ e <= a.

Lemma free_cons e l a n : free_range (e :: l) a n <-> (a + n <= start e \/ end_ e <= a) /\ free_range l a n.
Proof.
  unfold free_range. split.
  - intros H. split; [apply H; by left|]. intros x Hx. apply H. by right.
  - intros [H1 H2] x [-> |Hx]%elem_of_cons; auto.
Qed.

Lemma free_after l lo hi a n : ents_ok lo hi l -> a + n <= lo -> free_range l a n.
Proof. intros H Hle e He. destruct (ents_in l e lo hi H He). lia. Qed.

Lemma browse_spec hi n (l : list vm_map_entry) : forall lo s,
  ents_ok lo hi l -> 0 < n -> 0 <= s <= hi -> 0 <= lo -> hi + n < 2 ^ word_bits ->
  match l with e :: _ => start e < s + n | [] => True end ->
  match browse_gaps l hi s n with
  | Some (a, i) => s <= a /\ a + n <= hi /\ free_range l a n /\ (forall a', s <= a' < a -> ~ free_range l a' n) /\
      (a = s \/ exists e, e ∈ l /\ a = end_ e) /\
      exists pre e post, l = pre ++ e :: post /\ eid e = i /\ end_ e <= a /\ ents_ok (a + n) hi post
  | None => l = [] \/ forall a, s <= a -> a + n <= hi -> ~ free_range l a n
  end.
Proof.
  induction l as [|it l IH]; intros lo s H Hn Hs Hlo Hw Hf; cbn [browse_gaps]; [by left|].
  destruct H as (H1 & H2 & H3). pose proof (ents_le _ _ _ H3) as Hle.
  assert (forall a, s <= a -> free_range (it :: l) a n <-> (if s <? end_ it then end_ it else s) <= a /\ free_range l a n) as Heq.
  { intros a Ha. rewrite free_cons. destruct (Z.ltb_spec s (end_ it)); split; intros [? ?]; split; try done; lia. }
  set (s1 := if s <? end_ it then end_ it else s) in *.
  assert (s <= s1 <= hi /\ end_ it <= s1 /\ (s1 = s \/ s1 = end_ it)) as (Hs1 & Hs2 & Hs3) by (subst s1; destruct (Z.ltb_spec s (end_ it)); lia).
  rewrite wrap_small by (unfold in_word; lia).
  assert (exists g, (match l with next :: _ => start next | [] => hi end) = g /\ end_ it <= g <= hi /\ (l = [] -> g = hi) /\ (forall x l', l = x :: l' -> start x = g) /\ ents_ok g hi l) as (g & -> & Hg & Hg0 & Hgx & Hg1).
  { destruct l as [|x l']; [exists hi; cbn; split_and!; try done; lia|]. exists (start x). destruct H3 as (? & ? & H5). pose proof (ents_le _ _ _ H5). cbn.
    split_and!; try done; try lia. by intros ? ? [= <- <-]. }
  destruct (Z.leb_spec (s1 + n) g) as [Hfit|Hno].
  - split_and!; try lia.
    + apply Heq; [lia|]. split; [lia|]. by apply (free_after l g hi).
    + intros a' Ha' Hfr. apply Heq in Hfr as [? _]; lia.
    + destruct Hs3 as [-> | ->]; [by left|right; exists it; split; [by left|done]].
    + exists [], it, l. split_and!; try done. destruct l; cbn in *; [lia|]. destruct Hg1 as (? & ? & ?). split_and!; try done. lia.
  - destruct l as [|x l'] eqn:El.
    { cbn. right. rewrite Hg0 in Hno by done. intros a Ha Hle' Hfr. apply Heq in Hfr as [? _]; lia. }
    rewrite <- El in *. pose proof (IH (end_ it) s1 H3 Hn ltac:(lia) ltac:(lia) Hw) as IH'.
    rewrite (Hgx x l' El) in IH'. specialize (IH' ltac:(lia)). destruct (browse_gaps l hi s1 n) as [[a i]|].
    + destruct IH' as (A1 & A2 & A3 & A4 & A5 & pre & e & post & E & A6 & A7 & A8). split_and!; try lia.
      * apply Heq; [lia|]. split; [lia|done].
      * intros a' Ha' Hfr. apply Heq in Hfr as [? Hfr]; [|lia]. apply (A4 a'); [lia|done].
      * destruct A5 as [-> |(y & Hy & ->)]; [destruct Hs3 as [-> | ->]; [by left|right; exists it; split; [by left|done]]|].
        right. exists y. split; [by right|done].
      * exists (it :: pre), e, post. rewrite E. split_and!; try done.
    + destruct IH' as [->|IH']; [done|]. right. intros a Ha Hle' Hfr. apply Heq in Hfr as [? Hfr]; [|lia]. by apply (IH' a).
Qed.
Lemma aligned_mod a : page_aligned_p a = true <-> a `mod` 4096 = 0.
Proof. apply (is_aligned_pow2 a 12). lia. Qed.

Record ent_ok e : Prop := {
  eo_start : page_aligned_p (start e) = true;
  eo_end : page_aligned_p (end_ e) = true;
  eo_off : page_aligned_p (offset e) = true;
  eo_offset : 0 <= offset e <= start e;
  eo_prot : 0 <= prot e <= 7;
}.

Record map_ok m : Prop := {
  mo_ents : ents_ok (vm_map_start m) (vm_map_end m) (entries m);
  mo_each e : e ∈ entries m -> ent_ok e;
  mo_ids : NoDup (eid <$> entries m);
  mo_count : nentries m = Z.of_nat (length (entries m));
  mo_user e : e ∈ entries m -> pmap m <> pmap_kernel;
}.

Lemma user_bounds m : pmap m <> pmap_kernel -> vm_map_start m = USER_SPACE_BEGIN /\ vm_map_end m = USER_SPACE_END.
Proof. intros H. unfold vm_map_start, vm_map_end. by destruct (Z.eqb_spec (pmap m) pmap_kernel). Qed.

Lemma map_bounds m : 0 < vm_map_start m < vm_map_end m /\ vm_map_end m < 2 ^ word_bits /\ page_aligned_p (vm_map_start m) = true.
Proof.
  pose proof arch_kernel_space. pose proof arch_kernel_top. pose proof arch_user_space. pose proof arch_user_top.
  destruct arch_aligned as (? & ? & ?). unfold vm_map_start, vm_map_end. rewrite aligned_mod.
  destruct (pmap m =? pmap_kernel); (split_and!; [lia..|done]).
Qed.

(** The gap is between the entries [pre] and [post]. *)
Definition gap_at m (after : option Z) (a n : Z) : Prop :=
  exists pre post, entries m = pre ++ post /\ after = eid <$> last pre /\
    ents_ok (vm_map_start m) a pre /\ ents_ok (a + n) (vm_map_end m) post.

Lemma findspace_spec m s n :
  map_ok m -> page_aligned_p s = true -> page_aligned_p n = true -> 0 < n -> 0 <= s -> s + n < 2 ^ word_bits ->
  vm_map_end m + n < 2 ^ word_bits ->
  (vm_map_findspace_nolock m s n = Ok (ENOMEM, s, None) /\
     forall a, Z.max s (vm_map_start m) <= a -> a + n <= vm_map_end m -> ~ free_range (entries m) a n) \/
  exists a after, vm_map_findspace_nolock m s n = Ok (0, a, after) /\ page_aligned_p a = true /\
    Z.max s (vm_map_start m) <= a /\ a + n <= vm_map_end m /\ free_range (entries m) a n /\
    (forall a', Z.max s (vm_map_start m) <= a' < a -> ~ free_range (entries m) a' n) /\ gap_at m after a n.
Proof.
  intros I Hs Hn Hpos H0 Hw He. destruct (map_bounds m) as (Hb1 & Hb2 & Hb3). destruct I as [I1 I2 I3 I4].
  unfold vm_map_findspace_nolock. rewrite Hs, Hn. cbn [andb assert mbind outcome_bind].
  set (s1 := Z.max s (vm_map_start m)). rewrite wrap_small by (unfold in_word; lia).
  assert (page_aligned_p s1 = true) as Hs1 by (subst s1; destruct (Z.max_spec s (vm_map_start m)) as [[_ ->]|[_ ->]]; done).
  destruct (Z.ltb_spec (vm_map_end m) (s1 + n)); [left; split; [done|]; lia|]. unfold gap_at.
  destruct (entries m) as [|first l] eqn:El.
  { right. exists s1, None. split_and!; try done; try lia; [by intros e ?%not_elem_of_nil|].
    exists [], []. split_and!; try done; cbn; lia. }
  rewrite <- El in *. destruct (Z.leb_spec (s1 + n) (start first)) as [Hf|Hf].
  { right. assert (ents_ok (s1 + n) (vm_map_end m) (entries m)) as Hok.
    { rewrite El in *. destruct I1 as (? & ? & ?). by split_and!. }
    exists s1, None. split_and!; try done; try lia; [by apply (free_after _ (s1 + n) (vm_map_end m))|].
    exists [], (entries m). split_and!; try done. cbn. lia. }
  pose proof (browse_spec (vm_map_end m) n (entries m) (vm_map_start m) s1 I1 Hpos ltac:(lia) ltac:(lia) He) as B.
  rewrite El in B at 1. specialize (B Hf). destruct (browse_gaps (entries m) (vm_map_end m) s1 n) as [[a i]|].
  - right. destruct B as (A1 & A2 & A3 & A4 & A5 & pre & e & post & E & A6 & A7 & A8). exists a, (Some i). split_and!; try done.
    + destruct A5 as [-> |(x & Hx & ->)]; [done|]. by apply I2.
    + exists (pre ++ [e]), post. rewrite E, last_snoc, <- app_assoc. split_and!; try done; [by cbn; f_equal|].
      rewrite E in I1. apply ents_app in I1 as (mid & J1 & J2 & J3 & J4). apply ents_app. exists mid. split; [done|]. by split_and!.
  - left. split; [done|]. destruct B as [B|B]; [congruence|]. done.
Qed.

(** The search for a gap finds the lowest address, from the hint on, at which the length
    fits between the entries of the address space, and fails only if there is none. *)
Theorem vm_map_findspace_correct m s n :
  map_ok m -> page_aligned_p s = true -> page_aligned_p n = true -> 0 < n -> 0 <= s -> s + n < 2 ^ word_bits ->
  vm_map_end m + n < 2 ^ word_bits ->
  (vm_map_findspace m s n = Ok (ENOMEM, s) /\
     forall a, Z.max s (vm_map_start m) <= a -> a + n <= vm_map_end m -> ~ free_range (entries m) a n) \/
  exists a, vm_map_findspace m s n = Ok (0, a) /\ page_aligned_p a = true /\ Z.max s (vm_map_start m) <= a /\
    a + n <= vm_map_end m /\ free_range (entries m) a n /\
    forall a', Z.max s (vm_map_start m) <= a' < a -> ~ free_range (entries m) a' n.
Proof.
  intros. unfold vm_map_findspace. destruct (findspace_spec m s n) as [[-> ?]|(a & after & -> & ? & ? & ? & ? & ? & _)]; try done.
  - by left.
  - right. exists a. by split_and!.
Qed.
(** ** The invariant *)

Definition cnt (i : Z) (l : list vm_map_entry) : Z := Z.of_nat (length (filter (fun e => object e = i) l)).

Lemma cnt_cons i e l : cnt i (e :: l) = (if decide (object e = i) then 1 else 0) + cnt i l.
Proof. unfold cnt. rewrite filter_cons. case_decide; cbn [length]; lia. Qed.

Lemma cnt_app i l1 l2 : cnt i (l1 ++ l2) = cnt i l1 + cnt i l2.
Proof. unfold cnt. rewrite filter_app, length_app. lia. Qed.

Lemma cnt_nonneg i l : 0 <= cnt i l.
Proof. unfold cnt. lia. Qed.

Lemma cnt_in e l : e ∈ l -> 0 < cnt (object e) l.
Proof.
  intros Hin. apply list_elem_of_split in Hin as (l1 & l2 & ->). rewrite cnt_app, cnt_cons, decide_True by done.
  pose proof (cnt_nonneg (object e) l1). pose proof (cnt_nonneg (object e) l2). lia.
Qed.

(** The entries of all address spaces that refer to an object. *)
Definition refs (M : gmap Z vm_map) (i : Z) : Z := map_fold (fun _ m n => cnt i (entries m) + n) 0 M.

Lemma refs_new M k m i : M !! k = None -> refs (<[k := m]> M) i = cnt i (entries m) + refs M i.
Proof. intros H. unfold refs. rewrite map_fold_insert_L; [done|intros; lia|done]. Qed.

Lemma refs_delete M k m i : M !! k = Some m -> refs M i = cnt i (entries m) + refs (delete k M) i.
Proof. intros H. rewrite <- (refs_new (delete k M) k m i) by apply lookup_delete_eq. by rewrite insert_delete_id. Qed.

Lemma refs_insert M k m m' i : M !! k = Some m ->
  refs (<[k := m']> M) i = refs M i - cnt i (entries m) + cnt i (entries m').
Proof.
  intros H. rewrite (refs_delete M k m i H). rewrite <- insert_delete_eq, refs_new by apply lookup_delete_eq. lia.
Qed.

Lemma refs_nonneg M i : 0 <= refs M i.
Proof.
  unfold refs. apply (map_fold_weak_ind (fun r _ => 0 <= r)); [lia|]. intros k m M' r _ Hr.
  pose proof (cnt_nonneg i (entries m)). lia.
Qed.

Lemma refs_in M k m e : M !! k = Some m -> e ∈ entries m -> 0 < refs M (object e).
Proof.
  intros H Hin. rewrite (refs_delete M k m _ H). pose proof (refs_nonneg (delete k M) (object e)). pose proof (cnt_in e _ Hin). lia.
Qed.

Lemma refs_zero M i : (forall k m e, M !! k = Some m -> e ∈ entries m -> object e <> i) -> refs M i = 0.
Proof.
  unfold refs. apply (map_fold_weak_ind (fun r M => (forall k m e, M !! k = Some m -> e ∈ entries m -> object e <> i) -> r = 0)); [done|].
  intros k m M' r HM Hr Hno. rewrite Hr.
  - unfold cnt. destruct (filter _ (entries m)) as [|e l] eqn:E; [done|]. exfalso. assert (e ∈ filter (fun e => object e = i) (entries m)) as Hin by (rewrite E; by left).
    apply list_elem_of_filter in Hin as [Ho Hin]. apply (Hno k m e); [by rewrite lookup_insert_eq|done|done].
  - intros k' m' e H He. apply (Hno k' m' e); [|done]. rewrite lookup_insert_ne; [done|]. intros ->. congruence.
Qed.

Lemma refs_pos M i : 0 < refs M i -> exists k m e, M !! k = Some m /\ e ∈ entries m /\ object e = i.
Proof.
  unfold refs. apply (map_fold_weak_ind (fun r M => 0 < r -> exists k m e, M !! k = Some m /\ e ∈ entries m /\ object e = i)); [lia|].
  intros k m M' r HM IH Hpos. destruct (decide (0 < r)) as [Hr|Hr].
  - destruct (IH Hr) as (k' & m' & e & J1 & J2 & J3). exists k', m', e. rewrite lookup_insert_ne by congruence. done.
  - unfold cnt in Hpos. destruct (filter (fun e => object e = i) (entries m)) as [|e l] eqn:E; [cbn in Hpos; lia|].
    assert (e ∈ filter (fun e => object e = i) (entries m)) as [Ho Hin]%list_elem_of_filter by (rewrite E; by left).
    exists k, m, e. by rewrite lookup_insert_eq.
Qed.

(** The pages of an object, by increasing offset. *)
Fixpoint pages_ok (lo : Z) (l : list (Z * Z)) : Prop :=
  match l with
  | [] => True
  | (off, _) :: l => lo <= off /\ page_aligned_p off = true /\ off < 2 ^ word_bits - PAGESIZE /\ pages_ok (off + 1) l
  end.

Record obj_ok (d : gmap Z (list Z)) o : Prop := {
  oo_pages : pages_ok 0 (vo_pages o);
  oo_count : vo_npages o = Z.of_nat (length (vo_pages o));
  oo_data off pg : (off, pg) ∈ vo_pages o -> is_Some (d !! pg);
}.

(** [ext] counts references to objects that are not from entries; the map [dead] has lost
    its physical map. *)
Record vinv (ext : Z -> Z) (dead : option Z) v : Prop := {
  vi_hw : hw_ok (mach v);
  vi_map i m : maps v !! i = Some m -> map_ok m /\ i < fresh v /\
    forall e, e ∈ entries m -> eid e < fresh v /\ is_Some (objs v !! object e);
  vi_live i m : maps v !! i = Some m -> dead <> Some i -> pmap m ∈ v_pmaps (view (mach v));
  vi_pmap i j m m' : maps v !! i = Some m -> maps v !! j = Some m' -> pmap m = pmap m' -> i = j;
  vi_obj i o : objs v !! i = Some o -> i < fresh v /\ obj_ok (v_data (view (mach v))) o /\
    vo_refs o = refs (maps v) i + ext i /\ 0 < vo_refs o < 2 ^ 32;
  vi_ext i : 0 <= ext i;
  vi_page i j o o' off off' pg : objs v !! i = Some o -> objs v !! j = Some o' ->
    (off, pg) ∈ vo_pages o -> (off', pg) ∈ vo_pages o' -> i = j /\ off = off';
  vi_coh pm va pg pr : v_maps (view (mach v)) !! (pm, va) = Some (pg, pr) ->
    exists i m e o, maps v !! i = Some m /\ pmap m = pm /\ e ∈ entries m /\ covers e va /\ prot e = pr /\
      objs v !! object e = Some o /\ (offset e + (va - start e), pg) ∈ vo_pages o /\ page_aligned_p va = true;
}.

(** The list of entries of a map changes; what is mapped stays covered in the same way. *)
Lemma vinv_entries ext ext' dead v mi m m' :
  vinv ext dead v -> maps v !! mi = Some m -> pmap m' = pmap m -> map_ok m' ->
  (forall e, e ∈ entries m' -> eid e < fresh v /\ is_Some (objs v !! object e)) ->
  (forall i, ext' i = ext i + cnt i (entries m) - cnt i (entries m')) -> (forall i, 0 <= ext' i) ->
  (forall va e, e ∈ entries m -> covers e va -> is_Some (v_maps (view (mach v)) !! (pmap m, va)) ->
     exists e', e' ∈ entries m' /\ covers e' va /\ prot e' = prot e /\ object e' = object e /\
       offset e' - start e' = offset e - start e) ->
  vinv ext' dead (set_map mi m' v).
Proof.
  intros [I1 I2 I3 I4 I5 I6 I7 I8] Hm Hpm Hok Hids Hext Hnn Hcov. split; cbn [set_map mach objs maps fresh]; try done.
  - intros i m1. rewrite lookup_insert_Some. intros [[<- <-]|[Hne H]]; [|by apply I2]. split_and!; try done. by apply (I2 mi m).
  - intros i m1. rewrite lookup_insert_Some. intros [[<- <-]|[Hne H]] Hd; [|by apply (I3 i)]. rewrite Hpm. by apply (I3 mi).
  - assert (forall i m1, <[mi := m']> (maps v) !! i = Some m1 -> exists m2, maps v !! i = Some m2 /\ pmap m1 = pmap m2) as Hp.
    { intros i m1. rewrite lookup_insert_Some. intros [[<- <-]|[Hne H]]; eauto. }
    intros i j m1 m2 (m1' & H1 & E1)%Hp (m2' & H2 & E2)%Hp E. apply (I4 i j m1' m2'); congruence.
  - intros i o H. destruct (I5 i o H) as (H1 & H2 & H3 & H4). split_and!; try done; try lia.
    rewrite (refs_insert _ _ m) by done. rewrite Hext. lia.
  - intros pm va pg pr H. destruct (I8 pm va pg pr H) as (i & m1 & e & o & J1 & J2 & J3 & J4 & J5 & J6 & J7 & J8).
    destruct (decide (i = mi)) as [->|Hne].
    + assert (m1 = m) as -> by congruence. rewrite <- J2 in H.
      destruct (Hcov va e J3 J4 ltac:(by eexists)) as (e' & K1 & K2 & K3 & K4 & K5).
      exists mi, m', e', o. rewrite lookup_insert_eq, K3, K4. split_and!; try done; [congruence|].
      by replace (offset e' + (va - start e')) with (offset e + (va - start e)) by lia.
    + exists i, m1, e, o. rewrite lookup_insert_ne by done. by split_and!.
Qed.

(** The machine changes only by mappings that go. *)
Lemma vinv_mach ext dead v h :
  vinv ext dead v -> hw_ok h -> v_data (view h) = v_data (view (mach v)) -> v_pmaps (view h) = v_pmaps (view (mach v)) ->
  v_maps (view h) ⊆ v_maps (view (mach v)) -> vinv ext dead (set_mach h v).
Proof.
  intros [I1 I2 I3 I4 I5 I6 I7 I8] Hok Hd Hp Hs. split; cbn [set_mach mach objs maps fresh]; try done.
  - by rewrite Hp.
  - by rewrite Hd.
  - intros pm va pg pr H. apply I8. by apply (lookup_weaken _ _ _ _ H).
Qed.

Lemma vinv_fresh ext dead v n :
  vinv ext dead v -> fresh v <= n -> vinv ext dead (Vm (mach v) (objs v) (maps v) n).
Proof.
  intros [I1 I2 I3 I4 I5 I6 I7 I8] Hn. split; cbn; try done.
  - intros i m H. destruct (I2 i m H) as (? & ? & H3). split_and!; [done|lia|]. intros e He. destruct (H3 e He). split; [lia|done].
  - intros i o H. destruct (I5 i o H) as (? & ? & ? & ?). split_and!; try done; lia.
Qed.
(** ** Pages of objects *)

Lemma pages_lt l : forall lo off pg, pages_ok lo l -> (off, pg) ∈ l -> lo <= off < 2 ^ word_bits - PAGESIZE /\ page_aligned_p off = true.
Proof.
  induction l as [|[o q] l IH]; intros lo off pg H Hin; [by apply not_elem_of_nil in Hin|]. destruct H as (H1 & H2 & H3 & H4).
  apply elem_of_cons in Hin as [[= -> ->]|Hin]; [split; [lia|done]|]. destruct (IH _ _ _ H4 Hin). split; [lia|done].
Qed.

Lemma pages_fun l off pg pg' : forall lo, pages_ok lo l -> (off, pg) ∈ l -> (off, pg') ∈ l -> pg = pg'.
Proof.
  induction l as [|[o q] l IH]; intros lo H Hin Hin'; [by apply not_elem_of_nil in Hin|]. destruct H as (H1 & H2 & H3 & H4).
  apply elem_of_cons in Hin as [E|Hin], Hin' as [E'|Hin']; [congruence|..].
  - destruct (pages_lt l _ _ _ H4 Hin'). injection E as <- <-. lia.
  - destruct (pages_lt l _ _ _ H4 Hin). injection E' as <- <-. lia.
  - by apply (IH (o + 1)).
Qed.

Lemma find_page_spec l off pg : forall lo, pages_ok lo l -> find_page l off = Some pg <-> (off, pg) ∈ l.
Proof.
  induction l as [|[o q] l IH]; intros lo H; cbn [find_page].
  { split; [done|]. by intros ?%not_elem_of_nil. }
  pose proof H as (H1 & H2 & H3 & H4). rewrite elem_of_cons. destruct (Z.eqb_spec o off) as [->|Hne].
  - split; [intros [= ->]; by left|]. intros [[= ->]|Hin]; [done|]. f_equal. apply (pages_fun ((off, q) :: l) off q pg lo H); [by left|by right].
  - rewrite (IH (o + 1)) by done. split; [by right|]. intros [[= -> ->]|?]; done.
Qed.

Lemma find_page_none l off : find_page l off = None -> forall pg, (off, pg) ∉ l.
Proof.
  induction l as [|[o q] l IH]; intros E pg Hin; [by apply not_elem_of_nil in Hin|]. cbn in E.
  destruct (Z.eqb_spec o off) as [->|Hne]; [done|]. apply elem_of_cons in Hin as [[= -> ->]|Hin]; [done|by apply (IH E pg)].
Qed.

Lemma insert_page_spec l off pg : forall lo, pages_ok lo l -> (forall q, (off, q) ∉ l) -> lo <= off ->
  page_aligned_p off = true -> off < 2 ^ word_bits - PAGESIZE ->
  exists l', insert_page l off pg = Ok l' /\ pages_ok lo l' /\ l' ≡ₚ (off, pg) :: l.
Proof.
  induction l as [|[o q] l IH]; intros lo H Hn Hlo Ha Hb; cbn [insert_page].
  { exists [(off, pg)]. cbn. by split_and!. }
  destruct H as (H1 & H2 & H3 & H4). destruct (Z.ltb_spec off o).
  { eexists. split; [done|]. cbn. split_and!; try done. lia. }
  assert (o <> off) as Hne by (intros ->; apply (Hn q); by left). destruct (Z.eqb_spec o off); [done|]. cbn [negb assert mbind outcome_bind].
  destruct (IH (o + 1) H4) as (l' & -> & Hok & HP); [intros q' Hq; apply (Hn q'); by right|lia|done|done|].
  cbn [mbind outcome_bind]. eexists. split; [done|]. cbn. split_and!; try done. rewrite HP. constructor.
Qed.

Definition within (off len : Z) (x : Z * Z) : Prop := off <= x.1 < off + len.
#[local] Instance within_dec off len x : Decision (within off len x).
Proof. unfold within. apply _. Defined.

Lemma pages_filter (P : Z * Z -> Prop) {HP : forall x, Decision (P x)} l : forall lo, pages_ok lo l -> pages_ok lo (filter P l).
Proof.
  induction l as [|[o q] l IH]; intros lo H; [done|]. destruct H as (H1 & H2 & H3 & H4). rewrite filter_cons.
  case_decide; [cbn; split_and!; try done; by apply IH|]. apply IH. clear -H1 H4 HA. destruct l as [|[o' q'] l]; [done|].
  destruct H4 as (? & ? & ? & ?). cbn. split_and!; try done. lia.
Qed.

Lemma remove_pages_spec off len l : forall h n lo, hw_ok h -> pages_ok lo l -> wrap (off + len) = off + len ->
  (forall (o pg : Z), (o, pg) ∈ l -> is_Some (v_data (view h) !! pg)) ->
  (forall (o o' pg : Z), (o, pg) ∈ l -> (o', pg) ∈ l -> o = o') ->
  (forall (o pg : Z) k pr, (o, pg) ∈ l -> off <= o < off + len -> v_maps (view h) !! k <> Some (pg, pr)) ->
  exists h', remove_pages h l n off len = Ok (h', filter (fun x => ~ within off len x) l,
      n - Z.of_nat (length l) + Z.of_nat (length (filter (fun x => ~ within off len x) l))) /\
    hw_ok h' /\ v_pmaps (view h') = v_pmaps (view h) /\ v_maps (view h') = v_maps (view h) /\
    (forall pg, (forall o : Z, (o, pg) ∈ l -> ~ off <= o < off + len) -> v_data (view h') !! pg = v_data (view h) !! pg) /\
    forall (o pg : Z), (o, pg) ∈ l -> off <= o < off + len -> v_data (view h') !! pg = None.
Proof.
  induction l as [|[o pg] l IH]; intros h n lo Hok H Hw Hd Hu Hm; cbn [remove_pages].
  { exists h. cbn. rewrite Z.sub_0_r, Z.add_0_r. split_and!; try done. by intros ? ? ?%not_elem_of_nil. }
  destruct H as (H1 & H2 & H3 & H4). rewrite Hw. destruct (Z.leb_spec (off + len) o) as [Hge|Hlt].
  { assert (filter (fun x => ~ within off len x) ((o, pg) :: l) = (o, pg) :: l) as ->.
    { apply filter_all. intros [o' pg'] [[= -> ->]|Hin]%elem_of_cons; [unfold within; cbn; lia|].
      destruct (pages_lt l _ _ _ H4 Hin). unfold within. cbn. lia. }
    exists h. split_and!; try done; [do 2 f_equal; lia|]. intros o' pg' [[= -> ->]|Hin]%elem_of_cons ?; [lia|].
    destruct (pages_lt l _ _ _ H4 Hin). lia. }
  assert (forall (o' pg' : Z), (o', pg') ∈ l -> (o', pg') ∈ (o, pg) :: l) as Hsub by (intros; by right).
  rewrite filter_cons. destruct (Z.ltb_spec o off) as [Hlo|Hlo].
  - rewrite decide_True by (unfold within; cbn; lia).
    destruct (IH h n (o + 1) Hok H4 Hw) as (h' & E & E1 & E2 & E3 & E4 & E5); [by eauto..|].
    rewrite E. cbn [mbind outcome_bind]. exists h'. split_and!; try done; [do 2 f_equal; cbn [length]; lia| |].
    + intros q Hq. apply E4. eauto.
    + intros o' pg' [[= -> ->]|Hin]%elem_of_cons ?; [lia|]. by apply (E5 o').
  - rewrite decide_False by (unfold within; cbn; lia).
    destruct (page_free_law h pg Hok) as (h1 & -> & Hok1 & V1); [apply (Hd o); by left| |].
    { intros k pr. apply (Hm o); [by left|lia]. }
    cbn [mbind outcome_bind].
    assert (forall (o' pg' : Z), (o', pg') ∈ l -> pg' <> pg) as Hne.
    { intros o' pg' Hin ->. destruct (pages_lt l _ _ _ H4 Hin). assert (o' = o) by (apply (Hu o' o pg); [by right|by left]). lia. }
    destruct (IH h1 (n - 1) (o + 1) Hok1 H4 Hw) as (h' & E & E1 & E2 & E3 & E4 & E5).
    + intros o' pg' Hin. rewrite V1. cbn. rewrite lookup_delete_ne by (symmetry; by apply (Hne o')). by apply (Hd o'); right.
    + intros o1 o2 pg' Hin1 Hin2. by apply (Hu o1 o2 pg'); right.
    + intros o' pg' k pr Hin Hr. rewrite V1. cbn. by apply (Hm o'); [right|].
    + rewrite E. rewrite V1 in E2, E3. exists h'. split_and!; try done; [do 2 f_equal; cbn [length]; lia| |].
      * intros q Hq. rewrite E4 by eauto. rewrite V1. cbn. apply lookup_delete_ne. intros <-. apply (Hq o); [by left|lia].
      * intros o' pg' [[= -> ->]|Hin]%elem_of_cons ?; [|by apply (E5 o')]. rewrite E4, V1; [apply lookup_delete_eq|].
        intros a Ha. by apply Hne in Ha.
Qed.
(** ** Objects and the invariant *)

Definition bump (ext : Z -> Z) (i d : Z) : Z -> Z := fun j => if decide (j = i) then ext j + d else ext j.

Lemma bump_eq ext i d : bump ext i d i = ext i + d.
Proof. unfold bump. by rewrite decide_True. Qed.

Lemma bump_ne ext i j d : j <> i -> bump ext i d j = ext j.
Proof. intros. unfold bump. by rewrite decide_False. Qed.

(** An object is replaced, with the pages and the machine that go with it. *)
Lemma vinv_obj ext ext' dead v h i o o' :
  vinv ext dead v -> objs v !! i = Some o -> hw_ok h -> v_pmaps (view h) = v_pmaps (view (mach v)) ->
  v_maps (view h) = v_maps (view (mach v)) ->
  (forall j ob off pg, objs v !! j = Some ob -> j <> i -> (off, pg) ∈ vo_pages ob -> is_Some (v_data (view h) !! pg)) ->
  obj_ok (v_data (view h)) o' -> vo_refs o' = refs (maps v) i + ext' i -> 0 < vo_refs o' < 2 ^ 32 ->
  0 <= ext' i -> (forall j, j <> i -> ext' j = ext j) ->
  (forall off off' pg, (off, pg) ∈ vo_pages o' -> (off', pg) ∈ vo_pages o' -> off = off') ->
  (forall j ob off off' pg, objs v !! j = Some ob -> j <> i -> (off, pg) ∈ vo_pages o' -> (off', pg) ∉ vo_pages ob) ->
  (forall off pg k pr, (off, pg) ∈ vo_pages o -> v_maps (view (mach v)) !! k = Some (pg, pr) -> (off, pg) ∈ vo_pages o') ->
  vinv ext' dead (Vm h (<[i := o']> (objs v)) (maps v) (fresh v)).
Proof.
  intros [I1 I2 I3 I4 I5 I6 I7 I8] Hi Hh Hp Hm Hd Hok Hr Hr' Hext Hext' Hu Hu' Hc. split; cbn [mach objs maps fresh]; try done.
  - intros k m H. destruct (I2 k m H) as (? & ? & H3). split_and!; try done. intros e He. destruct (H3 e He) as [? [ob Hob]].
    split; [done|]. destruct (decide (object e = i)) as [->|]; [by rewrite lookup_insert_eq|]. rewrite lookup_insert_ne; [by eexists|done].
  - by rewrite Hp.
  - intros j ob. rewrite lookup_insert_Some. intros [[<- <-]|[Hne H]]; [destruct (I5 i o Hi) as [? _]; split_and!; done || lia|].
    destruct (I5 j ob H) as (? & [O1 O2 O3] & ? & []). rewrite Hext' by done. split_and!; try done. split; try done.
    intros off pg Hin. by apply (Hd j ob off).
  - intros j. destruct (decide (j = i)) as [->|]; [done|]. rewrite Hext' by done. apply I6.
  - intros j k ob ob' off off' pg. rewrite !lookup_insert_Some. intros [[<- <-]|[Hne H]] [[<- <-]|[Hne' H']] Hin Hin'.
    + split; [done|]. by apply (Hu off off' pg).
    + exfalso. by apply (Hu' k ob' off off' pg).
    + exfalso. by apply (Hu' j ob off' off pg).
    + by apply (I7 j k ob ob' off off' pg).
  - rewrite Hm. intros pm va pg pr H. destruct (I8 pm va pg pr H) as (k & m & e & ob & J1 & J2 & J3 & J4 & J5 & J6 & J7 & J8).
    destruct (decide (object e = i)) as [E|Hne].
    + rewrite E in J6. assert (ob = o) as -> by congruence. exists k, m, e, o'. rewrite E, lookup_insert_eq. split_and!; try done.
      by apply (Hc _ _ (pm, va) pr).
    + exists k, m, e, ob. rewrite lookup_insert_ne by done. by split_and!.
Qed.

Lemma set_mach_id v : set_mach (mach v) v = v.
Proof. by destruct v. Qed.

(** Only the counter of an object changes. *)
Lemma vinv_refs ext dead v i o n d :
  vinv ext dead v -> objs v !! i = Some o -> n = vo_refs o + d -> 0 < n < 2 ^ 32 -> 0 <= ext i + d ->
  vinv (bump ext i d) dead (set_obj i (set_refs n o) v).
Proof.
  intros I Hi -> Hn Hd. destruct (vi_obj _ _ _ I i o Hi) as (_ & [O1 O2 O3] & O4 & _).
  apply (vinv_obj ext (bump ext i d) dead v (mach v) i o); try done.
  - apply (vi_hw _ _ _ I).
  - intros j ob off pg Hj _ Hin. destruct (vi_obj _ _ _ I j ob Hj) as (_ & [_ _ H] & _). by apply (H off).
  - cbn. rewrite bump_eq. lia.
  - by rewrite bump_eq.
  - intros j Hne. by apply bump_ne.
  - intros off off' pg H H'. by apply (vi_page _ _ _ I i i o o off off' pg).
  - intros j ob off off' pg Hj Hne H H'. apply Hne. symmetry. by apply (vi_page _ _ _ I i j o ob off off' pg).
Qed.

Lemma object_hold_spec ext dead v i o :
  vinv ext dead v -> objs v !! i = Some o ->
  runs (vm_object_hold v i) (fun v' => v' = set_obj i (set_refs (vo_refs o + 1) o) v /\ vinv (bump ext i 1) dead v').
Proof.
  intros I Hi. destruct (vi_obj _ _ _ I i o Hi) as (_ & _ & _ & Hr). pose proof (vi_ext _ _ _ I i).
  unfold vm_object_hold, get_obj, refcnt_acquire. rewrite Hi. cbn [mbind outcome_bind].
  destruct (Z.eqb_spec (vo_refs o) UINT_MAX) as [E|E]; [by left; right|]. unfold UINT_MAX in E. right.
  cbn [mbind outcome_bind]. rewrite uwrap_small by lia. eexists. split; [done|]. split; [done|].
  apply vinv_refs; try done; lia.
Qed.

Lemma object_alloc_spec ext dead v t i v' :
  vinv ext dead v -> vm_object_alloc v t = (i, v') -> ext i = 0 ->
  i = fresh v /\ v' = Vm (mach v) (<[i := Object [] 0 t 1]> (objs v)) (maps v) (fresh v + 1) /\
  objs v !! i = None /\ refs (maps v) i = 0 /\ vinv (bump ext i 1) dead v'.
Proof.
  intros I [= <- <-] Hext. destruct I as [I1 I2 I3 I4 I5 I6 I7 I8].
  assert (objs v !! fresh v = None) as Hnone.
  { destruct (objs v !! fresh v) as [o|] eqn:E; [|done]. destruct (I5 _ _ E). lia. }
  assert (refs (maps v) (fresh v) = 0) as Hr.
  { apply refs_zero. intros k m e Hk He E. destruct (I2 k m Hk) as (_ & _ & H). destruct (H e He) as [_ [o Ho]].
    rewrite E in Ho. congruence. }
  split_and!; try done. split; cbn [mach objs maps fresh]; try done.
  - intros k m H. destruct (I2 k m H) as (? & ? & H3). split_and!; [done|lia|]. intros e He. destruct (H3 e He) as [? [ob Hob]].
    split; [lia|]. rewrite lookup_insert_ne by congruence. by eexists.
  - intros j o. rewrite lookup_insert_Some. intros [[<- <-]|[Hne H]].
    + split_and!; cbn; try lia; [|rewrite bump_eq; lia]. split; cbn; try done. by intros ? ? ?%not_elem_of_nil.
    + destruct (I5 j o H) as (? & ? & ? & ?). rewrite bump_ne by done. split_and!; try done; lia.
  - intros j. unfold bump. pose proof (I6 j). case_decide; lia.
  - intros j k o o' off off' pg. rewrite !lookup_insert_Some. intros [[<- <-]|[Hne H]] [[<- <-]|[Hne' H']] Hin Hin';
      try by apply not_elem_of_nil in Hin || apply not_elem_of_nil in Hin'. by apply (I7 j k o o' off off' pg).
  - intros pm va pg pr H. destruct (I8 pm va pg pr H) as (k & m & e & o & J1 & J2 & J3 & J4 & J5 & J6 & J7 & J8).
    exists k, m, e, o. rewrite lookup_insert_ne by congruence. by split_and!.
Qed.
(** An allocated page that is in no object. *)
Definition stray v (pg : Z) : Prop :=
  is_Some (v_data (view (mach v)) !! pg) /\ forall j o off, objs v !! j = Some o -> (off, pg) ∉ vo_pages o.

(** No object is new or has other contents, and no page of an object is lost. *)
Record frame v v' : Prop := {
  fr_objs j o' : objs v' !! j = Some o' ->
    exists o, objs v !! j = Some o /\ vo_pages o' = vo_pages o /\ vo_pager o' = vo_pager o /\
      forall off pg, (off, pg) ∈ vo_pages o -> v_data (view (mach v')) !! pg = v_data (view (mach v)) !! pg;
  fr_stray pg : stray v' pg -> stray v pg;
}.

Lemma frame_refl v : frame v v.
Proof. split; [|done]. intros j o H. by exists o. Qed.

Lemma frame_trans v1 v2 v3 : frame v1 v2 -> frame v2 v3 -> frame v1 v3.
Proof.
  intros [F1 S1] [F2 S2]. split; [|auto]. intros j o3 H3.
  destruct (F2 j o3 H3) as (o2 & H2 & E1 & E2 & E3), (F1 j o2 H2) as (o1 & H1 & D1 & D2 & D3).
  exists o1. split_and!; [done|congruence..|]. intros off pg Hin. rewrite (E3 off pg) by congruence. by apply (D3 off).
Qed.

Lemma frame_same v v' : objs v' = objs v -> v_data (view (mach v')) = v_data (view (mach v)) -> frame v v'.
Proof.
  intros E1 E2. split; [|unfold stray; by rewrite E1, E2]. intros j o H. exists o. rewrite E1 in H. split_and!; try done. intros. by rewrite E2.
Qed.

Lemma frame_refs v i o n : objs v !! i = Some o -> frame v (set_obj i (set_refs n o) v).
Proof.
  intros Hi. split.
  - intros j o'. cbn. rewrite lookup_insert_Some. intros [[<- <-]|[_ H]]; [by exists o|by exists o'].
  - intros pg [H1 H2]. split; [done|]. intros j oj off Hj. destruct (decide (j = i)) as [->|Hne].
    + assert (oj = o) as -> by congruence. apply (H2 i (set_refs n o)). cbn. by rewrite lookup_insert_eq.
    + apply (H2 j oj). cbn. by rewrite lookup_insert_ne.
Qed.

(** An object without pages comes and goes. *)
Lemma frame_alloc v v1 v2 i t :
  objs v !! i = None -> objs v1 = <[i := Object [] 0 t 1]> (objs v) -> mach v1 = mach v -> frame v1 v2 -> objs v2 !! i = None -> frame v v2.
Proof.
  intros Hi Eo Em [F S] Hn. split.
  - intros j o Hj. destruct (F j o Hj) as (o1 & H1 & H2). rewrite Eo, lookup_insert_ne in H1 by congruence. exists o1. by rewrite <- Em.
  - intros pg Hs. destruct (S pg Hs) as [H1 H2]. rewrite Em in H1. split; [done|]. intros j o off Hj. apply (H2 j o).
    rewrite Eo, lookup_insert_ne by congruence. done.
Qed.

(** A page of an object without entries is mapped nowhere. *)
Lemma unref_unmapped ext dead v i o off pg k pr :
  vinv ext dead v -> objs v !! i = Some o -> refs (maps v) i = 0 -> (off, pg) ∈ vo_pages o ->
  v_maps (view (mach v)) !! k <> Some (pg, pr).
Proof.
  intros I Hi Hr Hin Hk. destruct k as [pm va].
  destruct (vi_coh _ _ _ I pm va pg pr Hk) as (mi & m & e & ob & J1 & J2 & J3 & J4 & J5 & J6 & J7 & J8).
  destruct (vi_page _ _ _ I _ _ _ _ _ _ _ J6 Hi J7 Hin) as [E _]. pose proof (refs_in _ _ _ _ J1 J3) as H. rewrite E in H. lia.
Qed.

Lemma vinv_del_obj ext dead v h i o :
  vinv ext dead v -> objs v !! i = Some o -> refs (maps v) i = 0 -> hw_ok h -> 0 < ext i ->
  v_pmaps (view h) = v_pmaps (view (mach v)) -> v_maps (view h) = v_maps (view (mach v)) ->
  (forall pg, (forall off, (off, pg) ∉ vo_pages o) -> v_data (view h) !! pg = v_data (view (mach v)) !! pg) ->
  vinv (bump ext i (-1)) dead (Vm h (delete i (objs v)) (maps v) (fresh v)).
Proof.
  intros I Hi Hr Hh Hext Hp Hm Hd. pose proof I as [I1 I2 I3 I4 I5 I6 I7 I8].
  assert (forall k m e, maps v !! k = Some m -> e ∈ entries m -> object e <> i) as Hno.
  { intros k m e Hk He <-. pose proof (refs_in _ _ _ _ Hk He). lia. }
  split; cbn [mach objs maps fresh]; try done.
  - intros k m H. destruct (I2 k m H) as (? & ? & H3). split_and!; try done. intros e He. destruct (H3 e He).
    split; [done|]. rewrite lookup_delete_ne; [done|]. symmetry. by apply (Hno k m).
  - by rewrite Hp.
  - intros j ob. rewrite lookup_delete_Some. intros [Hne H]. destruct (I5 j ob H) as (? & [O1 O2 O3] & ? & []).
    rewrite bump_ne by done. split_and!; try done. split; try done. intros off pg Hin. rewrite Hd; [by apply (O3 off)|].
    intros off' Hin'. apply Hne. by apply (I7 i j o ob off' off pg).
  - intros j. unfold bump. pose proof (I6 j). case_decide; subst; lia.
  - intros j k ob ob' off off' pg. rewrite !lookup_delete_Some. intros [_ H] [_ H']. by apply I7.
  - rewrite Hm. intros pm va pg pr H. destruct (I8 pm va pg pr H) as (k & m & e & ob & J1 & J2 & J3 & J4 & J5 & J6 & J7 & J8).
    exists k, m, e, ob. rewrite lookup_delete_ne; [by split_and!|]. symmetry. by apply (Hno k m).
Qed.

(** The pages of an object that goes are freed. *)
Lemma frame_del v h i o pg :
  objs v !! i = Some o -> (forall pg, (forall off, (off, pg) ∉ vo_pages o) -> v_data (view h) !! pg = v_data (view (mach v)) !! pg) ->
  (forall off pg, (off, pg) ∈ vo_pages o -> v_data (view h) !! pg = None) ->
  stray (Vm h (delete i (objs v)) (maps v) (fresh v)) pg -> stray v pg.
Proof.
  intros Hi Hd Hn [[d H1] H2]. cbn [mach objs] in *. assert (forall off, (off, pg) ∉ vo_pages o) as Hno.
  { intros off Hin. apply Hn in Hin. congruence. }
  split; [rewrite <- Hd by done; by eexists|]. intros j oj off Hj. destruct (decide (j = i)) as [->|Hne].
  - assert (oj = o) as -> by congruence. apply Hno.
  - apply (H2 j oj off). by rewrite lookup_delete_ne.
Qed.

Lemma wrap_page : wrap (0 + wrap (- PAGESIZE)) = 0 + wrap (- PAGESIZE) /\ 0 + wrap (- PAGESIZE) = 2 ^ word_bits - PAGESIZE /\
  page_aligned_p (wrap (- PAGESIZE)) = true.
Proof.
  pose proof word_size_u32. assert (wrap (- PAGESIZE) = 2 ^ word_bits - PAGESIZE) as E.
  { unfold wrap, uwrap. rewrite <- (Z.mod_add (- PAGESIZE) 1) by lia. rewrite Z.mod_small; unfold PAGESIZE in *; lia. }
  split_and!; rewrite E.
  - apply wrap_small. unfold in_word, PAGESIZE. lia.
  - lia.
  - apply aligned_mod. unfold PAGESIZE. destruct arch_word as [-> | ->]; done.
Qed.

Lemma object_drop_spec ext dead v i o :
  vinv ext dead v -> objs v !! i = Some o -> 0 < ext i ->
  exists v', vm_object_drop v i = Ok v' /\ vinv (bump ext i (-1)) dead v' /\ maps v' = maps v /\ fresh v' = fresh v /\
    v_maps (view (mach v')) = v_maps (view (mach v)) /\ v_pmaps (view (mach v')) = v_pmaps (view (mach v)) /\ frame v v'.
Proof.
  intros I Hi Hext. destruct (vi_obj _ _ _ I i o Hi) as (_ & [O1 O2 O3] & Hr & Hr'). pose proof (refs_nonneg (maps v) i).
  unfold vm_object_drop, get_obj, refcnt_release. rewrite Hi. cbn [mbind outcome_bind].
  destruct (Z.eqb_spec (vo_refs o) 0); [lia|]. cbn [mbind outcome_bind]. rewrite uwrap_small by lia.
  destruct (Z.eqb_spec (vo_refs o) 1) as [H1|H1]; cbn [negb].
  - unfold vm_object_remove_pages, get_obj. cbn [objs set_obj]. rewrite lookup_insert_eq. cbn [mbind outcome_bind].
    destruct wrap_page as (W1 & W2 & W3). rewrite W3. change (page_aligned_p 0) with true. cbn [andb assert mbind outcome_bind].
    destruct (remove_pages_spec 0 (wrap (- PAGESIZE)) (vo_pages o) (mach v) (vo_npages o) 0 (vi_hw _ _ _ I) O1 W1 O3)
      as (h & E & Hh & E1 & E2 & E3 & E4).
    + intros a a' pg Ha Ha'. by apply (vi_page _ _ _ I i i o o a a' pg).
    + intros a pg k pr Ha _. apply (unref_unmapped ext dead v i o a); try done. lia.
    + cbn [vo_pages vo_npages set_refs mach set_obj]. rewrite E. cbn [mbind outcome_bind]. eexists. split; [done|].
      cbn [mach objs maps fresh set_obj set_mach]. rewrite delete_insert_eq, delete_insert_eq.
      assert (forall pg, (forall off, (off, pg) ∉ vo_pages o) -> v_data (view h) !! pg = v_data (view (mach v)) !! pg) as Hd.
      { intros pg Hno. apply E3. intros a Ha. by apply Hno in Ha. }
      split_and!; try done; [apply (vinv_del_obj ext dead v h i o); try done; lia|]. rewrite W2 in E4. split.
      * intros j o'. cbn [objs mach]. rewrite lookup_delete_Some. intros [Hne Hj]. exists o'. split_and!; try done. intros off pg Hin. apply Hd.
        intros off' Hin'. apply Hne. by apply (vi_page _ _ _ I i j o o' off' off pg).
      * intros q. apply (frame_del v h i o); try done. intros off pg Hin. apply (E4 off); [done|]. by destruct (pages_lt _ _ _ _ O1 Hin).
  - eexists. split; [done|]. split_and!; try done; [apply vinv_refs; try done; lia|by apply frame_refs].
Qed.
(** ** Changes of an address space *)

Lemma vinv_ext ext ext' dead v : (forall i, ext' i = ext i) -> vinv ext dead v -> vinv ext' dead v.
Proof.
  intros E [I1 I2 I3 I4 I5 I6 I7 I8]. split; try done.
  - intros i o H. rewrite E. by apply I5.
  - intros i. rewrite E. apply I6.
Qed.

Lemma vinv_ents ext dead v mi m : vinv ext dead v -> maps v !! mi = Some m ->
  map_ok m /\ forall e, e ∈ entries m -> eid e < fresh v /\ is_Some (objs v !! object e).
Proof. intros I H. destruct (vi_map _ _ _ I mi m H) as (? & ? & ?). done. Qed.

Definition lower e (splitat : Z) : vm_map_entry := set_end splitat e.
Definition upper e (splitat i : Z) : vm_map_entry :=
  Entry i (object e) (offset e + (splitat - start e)) (prot e) (flags e) splitat (end_ e).

Lemma map_ok_split m pre e post splitat i :
  map_ok m -> entries m = pre ++ e :: post -> page_aligned_p splitat = true -> start e < splitat < end_ e ->
  (forall x, x ∈ entries m -> eid x < i) ->
  map_ok (set_entries (pre ++ lower e splitat :: upper e splitat i :: post) (nentries m + 1) m).
Proof.
  intros [M1 M2 M3 M4 M5] El Ha Hs Hid. rewrite El in *. split; cbn [entries nentries set_entries].
  - change (vm_map_start (set_entries _ _ m)) with (vm_map_start m). change (vm_map_end (set_entries _ _ m)) with (vm_map_end m).
    apply ents_app in M1 as (mid & J1 & J2 & J3 & J4). apply ents_app. exists mid. split; [done|]. cbn. split_and!; try done; lia.
  - intros x Hx. destruct (M2 e) as [E1 E2 E3 E4 E5]; [set_solver|].
    apply elem_of_app in Hx as [Hx|[-> |[-> |Hx]%elem_of_cons]%elem_of_cons].
    + apply M2. set_solver.
    + by split.
    + split; cbn; try done; [|lia]. apply aligned_mod in E1, E3, Ha. apply aligned_mod.
      replace (offset e + (splitat - start e)) with (offset e + splitat - start e) by lia.
      rewrite Zminus_mod, Z.add_mod, E3, Ha, E1 by lia. done.
    + apply M2. set_solver.
  - assert (i ∉ eid <$> pre ++ e :: post) as Hn.
    { intros (x & E & Hx)%list_elem_of_fmap. apply Hid in Hx. lia. }
    rewrite fmap_app, !fmap_cons in *. cbn [lower upper set_end eid]. apply NoDup_app in M3 as (N1 & N2 & N3).
    apply NoDup_cons in N3 as [N3 N4]. apply NoDup_app. split_and!; try done.
    + intros x Hx. specialize (N2 x Hx). set_solver.
    + apply NoDup_cons. split; [set_solver|]. apply NoDup_cons. split; [set_solver|done].
  - rewrite M4, !length_app. cbn [length]. lia.
  - intros _ _. apply (M5 e). set_solver.
Qed.

Lemma split_insert m pre e post splitat (i : Z) :
  NoDup (eid <$> pre ++ e :: post) ->
  vm_map_insert_after (set_entries (pre ++ set_end splitat e :: post) (nentries m) m) (Some (eid e)) (upper e splitat i) =
  set_entries (pre ++ lower e splitat :: upper e splitat i :: post) (nentries m + 1) m.
Proof.
  intros Hn. unfold vm_map_insert_after. cbn [entries nentries set_entries].
  pose proof (insert_after_mid pre post (lower e splitat)) as EI. cbn [lower set_end eid] in EI. rewrite EI; [done|].
  by rewrite fmap_app, fmap_cons in *.
Qed.

Lemma entry_split_spec ext dead v mi m pre e post splitat :
  vinv ext dead v -> maps v !! mi = Some m -> entries m = pre ++ e :: post -> page_aligned_p splitat = true ->
  start e < splitat < end_ e ->
  runs (vm_map_entry_split v mi (eid e) splitat) (fun r => r.1 = fresh v /\ vinv ext dead r.2 /\ mach r.2 = mach v /\ fresh r.2 = fresh v + 1 /\
    maps r.2 = <[mi := set_entries (pre ++ lower e splitat :: upper e splitat (fresh v) :: post) (nentries m + 1) m]> (maps v) /\
    frame v r.2).
Proof.
  intros I Hm El Ha Hs. destruct (vinv_ents _ _ _ _ _ I Hm) as [Hok Hids]. pose proof Hok as [M1 M2 M3 M4].
  rewrite El in M1, M2, M3. destruct (map_bounds m) as (B1 & B2 & _).
  destruct (ents_in _ e _ _ M1 ltac:(set_solver)) as (L1 & L2 & L3). destruct (M2 e ltac:(set_solver)) as [E1 E2 E3 E4 E5].
  unfold vm_map_entry_split, get_map, get_ent. rewrite Hm. cbn [mbind outcome_bind]. rewrite El, (find_ent_mid pre post e M3).
  cbn [mbind outcome_bind]. rewrite Ha. cbn [assert mbind outcome_bind].
  destruct (Z.ltb_spec (start e) splitat); [|lia]. destruct (Z.ltb_spec splitat (end_ e)); [|lia]. cbn [andb assert mbind outcome_bind].
  unfold vm_map_entry_copy, vm_map_entry_alloc. destruct (Hids e ltac:(rewrite El; set_solver)) as [He [o Ho]].
  destruct (object_hold_spec ext dead v (object e) o I Ho) as [[E|E]|(v1 & E & -> & I1)].
  { left. left. by rewrite E. } { left. right. by rewrite E. }
  right. rewrite E. cbn [mbind outcome_bind]. rewrite E1, E2. cbn [andb assert mbind outcome_bind].
  rewrite (wrap_small (splitat - start e)) by (unfold in_word; lia). rewrite (wrap_small (offset e + _)) by (unfold in_word; lia).
  rewrite (update_ent_mid pre post e M3). set (v1 := set_obj _ _ v) in *. set (m' := set_entries (_ ++ lower e splitat :: _) _ m).
  pose proof (split_insert m pre e post splitat (fresh v) M3 : _ = m') as EL.
  exists (fresh v, set_map mi m' (Vm (mach v1) (objs v1) (maps v1) (fresh v1 + 1))). cbn [fst snd]. split; [by rewrite <- EL|].
  split_and!; try done; [|apply (frame_trans v v1); [by apply frame_refs|by apply frame_same]].
  apply (vinv_fresh _ _ _ (fresh v + 1)) in I1; [|cbn; lia].
  refine (vinv_entries (bump ext (object e) 1) ext dead _ mi m m' I1 Hm _ _ _ _ (vi_ext _ _ _ I) _); try done.
  + apply map_ok_split; try done. intros x Hx. by apply Hids.
  + intros x Hx. cbn [m' entries set_entries] in Hx. cbn [fresh objs].
    assert (forall j, is_Some (objs v !! j) -> is_Some (objs v1 !! j)) as Hsome.
    { intros j Hj. cbn. destruct (decide (j = object e)) as [->|]; [by rewrite lookup_insert_eq|by rewrite lookup_insert_ne]. }
    assert (forall x, x ∈ pre ++ e :: post -> eid x < fresh v + 1 /\ is_Some (objs v1 !! object x)) as Hold.
    { intros y Hy. rewrite <- El in Hy. destruct (Hids y Hy). split; [lia|by apply Hsome]. }
    apply elem_of_app in Hx as [Hx|[-> |[-> |Hx]%elem_of_cons]%elem_of_cons];
      [apply Hold; set_solver|apply (Hold e); set_solver|split; [cbn; lia|apply (Hold e); set_solver]|apply Hold; set_solver].
  + intros i. cbn [m' entries set_entries]. rewrite El, !cnt_app, !cnt_cons. cbn [lower upper set_end object]. unfold bump. repeat case_decide; try lia; congruence.
  + intros va x Hx Hc _. cbn [m' entries set_entries]. rewrite El in Hx.
    apply elem_of_app in Hx as [Hx|[-> |Hx]%elem_of_cons]; [exists x; split_and!; try done; set_solver| |exists x; split_and!; try done; set_solver].
    destruct (Z.lt_ge_cases va splitat).
    * exists (lower e splitat). unfold covers in *. cbn. split_and!; try done; [set_solver|lia..].
    * exists (upper e splitat (fresh v)). unfold covers in *. cbn. split_and!; try done; [set_solver|lia..].
Qed.
Lemma map_ok_remove m pre e post :
  map_ok m -> entries m = pre ++ e :: post -> map_ok (set_entries (pre ++ post) (nentries m - 1) m).
Proof.
  intros [M1 M2 M3 M4 M5] El. rewrite El in *. split; cbn [entries nentries set_entries].
  - change (vm_map_start (set_entries _ _ m)) with (vm_map_start m). change (vm_map_end (set_entries _ _ m)) with (vm_map_end m).
    apply ents_app in M1 as (mid & J1 & J2 & J3 & J4). apply ents_app. exists mid. split; [done|].
    destruct post as [|x post]; cbn in *; [lia|]. destruct J4 as (? & ? & ?). split_and!; try done. lia.
  - intros x Hx. apply M2. set_solver.
  - rewrite fmap_app, fmap_cons in *. apply NoDup_app in M3 as (N1 & N2 & N3). apply NoDup_cons in N3 as [N3 N4].
    apply NoDup_app. split_and!; try done. intros x Hx. specialize (N2 x Hx). set_solver.
  - rewrite M4, !length_app. cbn [length]. lia.
  - intros _ _. apply (M5 e). set_solver.
Qed.

Lemma destroy_spec ext dead v mi m pre e post :
  vinv ext dead v -> maps v !! mi = Some m -> entries m = pre ++ e :: post ->
  (forall va, covers e va -> v_maps (view (mach v)) !! (pmap m, va) = None) ->
  exists v', vm_map_entry_destroy v mi (eid e) = Ok v' /\ vinv ext dead v' /\ fresh v' = fresh v /\
    maps v' = <[mi := set_entries (pre ++ post) (nentries m - 1) m]> (maps v) /\
    v_maps (view (mach v')) = v_maps (view (mach v)) /\ v_pmaps (view (mach v')) = v_pmaps (view (mach v)) /\ frame v v'.
Proof.
  intros I Hm El Hno. destruct (vinv_ents _ _ _ _ _ I Hm) as [Hok Hids]. pose proof (mo_ids _ Hok) as Hnd. rewrite El in Hnd.
  unfold vm_map_entry_destroy, get_map, get_ent. rewrite Hm. cbn [mbind outcome_bind]. rewrite El, find_ent_mid, filter_mid by done.
  cbn [mbind outcome_bind]. unfold vm_map_entry_free. set (m' := set_entries _ _ m).
  destruct (Hids e ltac:(rewrite El; set_solver)) as [_ [o Ho]].
  assert (vinv (bump ext (object e) 1) dead (set_map mi m' v)) as I1.
  { refine (vinv_entries ext _ dead v mi m m' I Hm _ (map_ok_remove m pre e post Hok El) _ _ _ _); try done.
    - intros x Hx. apply Hids. rewrite El. cbn in Hx. set_solver.
    - intros i. cbn [m' entries set_entries]. rewrite El, !cnt_app, cnt_cons. unfold bump. repeat case_decide; try lia; congruence.
    - intros i. unfold bump. pose proof (vi_ext _ _ _ I i). case_decide; lia.
    - intros va x Hx Hc [y Hy]. exists x. split_and!; try done. cbn [m' entries set_entries]. rewrite El in Hx.
      apply elem_of_app in Hx as [Hx|[-> |Hx]%elem_of_cons]; [set_solver| |set_solver]. rewrite Hno in Hy by done. done. }
  destruct (object_drop_spec _ dead _ (object e) o I1 Ho) as (v' & E & I2 & E1 & E2 & E3 & E4 & F).
  { rewrite bump_eq. pose proof (vi_ext _ _ _ I (object e)). lia. }
  exists v'. split_and!; try done.
  - apply (vinv_ext _ ext) in I2; [done|]. intros i. unfold bump. case_decide; lia.
  - by apply (frame_trans v (set_map mi m' v)); [apply frame_same|].
Qed.

Definition rest_lo e (s : Z) : list vm_map_entry := if start e <? s then [lower e s] else [].
Definition rest_hi e (f i : Z) : list vm_map_entry := if f <? end_ e then [upper e f i] else [].

Lemma upper_upper e s f i j : upper (upper e s i) f j = upper e f j.
Proof. unfold upper. cbn. f_equal. lia. Qed.

Lemma unmap_lookup pm s f t k x : unmap pm s f t !! k = Some x <-> t !! k = Some x /\ ~ in_range pm s f k.
Proof. unfold unmap. rewrite map_lookup_filter_Some. done. Qed.

(** The second split and the removal of [vm_map_entry_destroy_range]. *)
Lemma destroy_tail ext dead v mi m pre d post f :
  vinv ext dead v -> maps v !! mi = Some m -> entries m = pre ++ d :: post -> page_aligned_p f = true ->
  start d < f <= end_ d -> (forall va, start d <= va < f -> v_maps (view (mach v)) !! (pmap m, va) = None) ->
  runs (v ← (if f <? end_ d then '(_, v) ← vm_map_entry_split v mi (eid d) f; Ok v else Ok v);
        vm_map_entry_destroy v mi (eid d))
    (fun v' => vinv ext dead v' /\ fresh v <= fresh v' /\ frame v v' /\
      (exists n, maps v' = <[mi := set_entries (pre ++ rest_hi d f (fresh v) ++ post) n m]> (maps v)) /\
      v_maps (view (mach v')) = v_maps (view (mach v)) /\ v_pmaps (view (mach v')) = v_pmaps (view (mach v))).
Proof.
  intros I Hm El Hf Hr Hno. unfold rest_hi. destruct (Z.ltb_spec f (end_ d)) as [Hlt|Hge].
  - apply (runs_bind _ _ (fun v' => vinv ext dead v' /\ mach v' = mach v /\ fresh v' = fresh v + 1 /\ frame v v' /\
      maps v' = <[mi := set_entries (pre ++ lower d f :: upper d f (fresh v) :: post) (nentries m + 1) m]> (maps v))).
    { apply (runs_bind _ _ _ _ (entry_split_spec ext dead v mi m pre d post f I Hm El Hf ltac:(lia))).
      intros [i v1] (_ & I1 & E1 & E0 & E2 & F1). by apply runs_ok. }
    intros v1 (I1 & E1 & E0 & F1 & E2). set (m1 := set_entries _ _ m) in E2.
    destruct (destroy_spec ext dead v1 mi m1 pre (lower d f) (upper d f (fresh v) :: post) I1) as (v2 & E & I2 & Ef & Em & E3 & E4 & F2).
    + by rewrite E2, lookup_insert_eq.
    + done.
    + intros va [Hc1 Hc2]. rewrite E1. apply Hno. done.
    + change (eid (lower d f)) with (eid d) in E. rewrite E. apply runs_ok. rewrite E1 in *.
      split_and!; try done; [lia|by apply (frame_trans v v1 v2)|].
      exists (nentries m1 - 1). rewrite Em, E2, insert_insert_eq. done.
  - destruct (destroy_spec ext dead v mi m pre d post I Hm El) as (v2 & E & I2 & Ef & Em & E3 & E4 & F2).
    + intros va [Hc1 Hc2]. apply Hno. lia.
    + cbn [mbind outcome_bind]. rewrite E. apply runs_ok. split_and!; try done; [lia|]. by exists (nentries m - 1).
Qed.
Lemma get_map_ok v mi m : maps v !! mi = Some m -> get_map v mi = Ok m.
Proof. unfold get_map. by intros ->. Qed.

Lemma get_ent_mid m pre e post : NoDup (eid <$> entries m) -> entries m = pre ++ e :: post -> get_ent m (eid e) = Ok e.
Proof. intros Hnd El. unfold get_ent. rewrite El in *. by rewrite find_ent_mid. Qed.

Lemma destroy_range_spec ext dead v mi m pre e post s f :
  vinv ext dead v -> dead <> Some mi -> maps v !! mi = Some m -> entries m = pre ++ e :: post ->
  page_aligned_p s = true -> page_aligned_p f = true -> start e <= s < f -> f <= end_ e ->
  runs (vm_map_entry_destroy_range v mi (eid e) s f)
    (fun v' => vinv ext dead v' /\ fresh v <= fresh v' /\ frame v v' /\
      (exists n i, fresh v <= i /\ maps v' = <[mi := set_entries (pre ++ rest_lo e s ++ rest_hi e f i ++ post) n m]> (maps v)) /\
      v_maps (view (mach v')) = unmap (pmap m) s f (v_maps (view (mach v))) /\ v_pmaps (view (mach v')) = v_pmaps (view (mach v))).
Proof.
  intros I Hd Hm El Hs Hf Hr Hfe. destruct (vinv_ents _ _ _ _ _ I Hm) as [Hok Hids]. pose proof Hok as [M1 M2 M3 M4].
  rewrite El in M1, M2, M3. destruct (ents_in _ e _ _ M1 ltac:(set_solver)) as (L1 & L2 & L3).
  unfold vm_map_entry_destroy_range. rewrite (get_map_ok v mi m Hm). cbn [mbind outcome_bind].
  rewrite (get_ent_mid m pre e post) by (try done; by rewrite El). cbn [mbind outcome_bind].
  destruct (Z.leb_spec (start e) s); [|lia]. destruct (Z.leb_spec f (end_ e)); [|lia]. cbn [andb assert mbind outcome_bind].
  assert (pmap m <> pmap_kernel) as Hk by (apply (mo_user _ Hok e); rewrite El; set_solver). destruct (user_bounds m Hk) as [U1 U2].
  destruct (remove_law (mach v) (pmap m) s f (vi_hw _ _ _ I) (vi_live _ _ _ I mi m Hm Hd) Hk Hs Hf) as (h & -> & Hh & V); [lia..|].
  cbn [mbind outcome_bind]. assert (vinv ext dead (set_mach h v)) as I1.
  { apply vinv_mach; rewrite ?V; try done. apply map_filter_subseteq. }
  assert (forall va, s <= va < f -> v_maps (view h) !! (pmap m, va) = None) as Hno.
  { intros va Hva. rewrite V. cbn. destruct (unmap _ _ _ _ !! _) as [x|] eqn:E; [|done]. apply unmap_lookup in E as [_ E]. by destruct E. }
  assert (frame v (set_mach h v)) as F1 by (apply frame_same; [done|cbn; by rewrite V]).
  unfold rest_lo. destruct (Z.ltb_spec (start e) s) as [Hlt|Hge].
  - apply (runs_bind _ _ _ _ (entry_split_spec ext dead (set_mach h v) mi m pre e post s I1 Hm El Hs ltac:(lia))).
    intros [i v1]. cbn [fst snd]. intros (-> & I2 & E1 & E0 & E2 & F2).
    set (m1 := set_entries _ _ m) in *. cbn [fresh set_mach] in *.
    assert (maps v1 !! mi = Some m1) as Hm1 by (by rewrite E2, lookup_insert_eq).
    assert (entries m1 = (pre ++ [lower e s]) ++ upper e s (fresh v) :: post) as El1 by (cbn; by rewrite <- app_assoc).
    pose proof (proj1 (vinv_ents _ _ _ _ _ I2 Hm1)) as Hok1. 
    rewrite (get_map_ok v1 mi m1 Hm1). cbn [mbind outcome_bind]. 
    assert (get_ent m1 (fresh v) = Ok (upper e s (fresh v))) as -> by exact (get_ent_mid m1 _ _ _ (mo_ids _ Hok1) El1).
    cbn [mbind outcome_bind].
    eapply runs_mono; [apply (destroy_tail ext dead v1 mi m1 (pre ++ [lower e s]) (upper e s (fresh v)) post f I2 Hm1 El1 Hf)|].
    + cbn. lia.
    + intros va Hva. cbn in Hva. rewrite E1. by apply Hno.
    + intros v' (I3 & E4 & F3 & [n E3] & E5 & E6). rewrite E1 in *. cbn [mach set_mach] in *. rewrite V in *.
      split_and!; try done; [lia|by apply (frame_trans v (set_mach h v)), (frame_trans _ v1)|].
      exists n, (fresh v1). split; [lia|]. rewrite E3, E2, insert_insert_eq. unfold m1, rest_hi, set_entries. cbn [end_ upper pmap].
      rewrite <- app_assoc. cbn [app]. rewrite upper_upper. done.
  - assert (s = start e) as -> by lia. cbn [mbind outcome_bind]. rewrite (get_map_ok (set_mach h v) mi m Hm). cbn [mbind outcome_bind].
    rewrite (get_ent_mid m pre e post) by (try done; by rewrite El). cbn [mbind outcome_bind].
    eapply runs_mono; [apply (destroy_tail ext dead (set_mach h v) mi m pre e post f I1 Hm El Hf); [lia|done]|].
    intros v' (I3 & E4 & F3 & [n E3] & E5 & E6). cbn [mach set_mach fresh maps] in *. rewrite V in *.
    split_and!; try done; [by apply (frame_trans v (set_mach h v))|]. by exists n, (fresh v).
Qed.
(** ** What an address stands for *)

(** The object, the offset in it, the protection and the sharing of an address. *)
Definition trans (l : list vm_map_entry) (va : Z) : option (Z * Z * Z * Z) :=
  (fun e => (object e, offset e + (va - start e), prot e, flags e)) <$> find_addr l va.

Lemma find_addr_app l1 l2 va :
  find_addr (l1 ++ l2) va = match find_addr l1 va with Some e => Some e | None => find_addr l2 va end.
Proof. induction l1 as [|e l1 IH]; cbn; [done|]. by destruct (_ && _). Qed.

Lemma find_addr_out l va : (forall e, e ∈ l -> ~ covers e va) -> find_addr l va = None.
Proof.
  induction l as [|e l IH]; intros H; cbn; [done|]. pose proof (H e ltac:(by left)) as He. unfold covers in He.
  destruct (Z.leb_spec (start e) va), (Z.ltb_spec va (end_ e)); cbn [andb]; try lia; (apply IH; intros; apply H; by right).
Qed.

Lemma trans_none l va : trans l va = None <-> find_addr l va = None.
Proof. unfold trans. destruct (find_addr l va); done. Qed.

Lemma trans_cut pre e post lo hi s f i va :
  ents_ok lo hi (pre ++ e :: post) -> start e <= s < f -> f <= end_ e ->
  trans (pre ++ rest_lo e s ++ rest_hi e f i ++ post) va =
    if decide (s <= va < f) then None else trans (pre ++ e :: post) va.
Proof.
  intros H Hs Hf. unfold trans. rewrite !find_addr_app.
  assert (forall x, x ∈ pre -> end_ x <= start e) as Hpre.
  { intros x Hx. apply ents_app in H as (mid & H1 & H2 & _). destruct (ents_in _ _ _ _ H1 Hx) as (_ & _ & ?). lia. }
  assert (forall x, x ∈ post -> end_ e <= start x) as Hpost.
  { intros x Hx. apply ents_app in H as (mid & _ & _ & _ & H2). destruct (ents_in _ _ _ _ H2 Hx) as (? & _). lia. }
  case_decide as Hva.
  - rewrite (find_addr_out pre), (find_addr_out post);
      [|intros x Hx [? ?]; specialize (Hpost x Hx); lia|intros x Hx [? ?]; specialize (Hpre x Hx); lia].
    unfold rest_lo, rest_hi. rewrite find_addr_out; [rewrite find_addr_out; [done|]|];
      (intros x Hx [C1 C2]; destruct (_ <? _); [apply list_elem_of_singleton in Hx; subst x; cbn in *; lia|by apply not_elem_of_nil in Hx]).
  - destruct (find_addr pre va) as [x|]; [done|]. cbn [find_addr]. unfold rest_lo, rest_hi.
    destruct (Z.leb_spec (start e) va), (Z.ltb_spec va (end_ e)); cbn [andb];
      destruct (Z.ltb_spec (start e) s), (Z.ltb_spec f (end_ e)); cbn [find_addr lower upper set_end start end_];
      repeat (match goal with |- context [?a <=? va] => destruct (Z.leb_spec a va) | |- context [va <? ?a] => destruct (Z.ltb_spec va a) end; cbn [andb]);
      try lia; try done; cbn; do 4 f_equal; lia.
Qed.
Definition uncovered (l : list vm_map_entry) (s f : Z) : Prop := forall e va, e ∈ l -> s <= va < f -> ~ covers e va.

Lemma uncovered_trans l s f va : uncovered l s f -> s <= va < f -> trans l va = None.
Proof. intros H Hva. apply trans_none, find_addr_out. intros e He. by apply H. Qed.

(** What [munmap_loop] establishes for the map [mi], which was [m]. *)
Definition unmapped ext dead v mi m (s f : Z) v' : Prop :=
  vinv ext dead v' /\ frame v v' /\ fresh v <= fresh v' /\ v_pmaps (view (mach v')) = v_pmaps (view (mach v)) /\
  (forall k, ~ in_range (pmap m) s f k -> v_maps (view (mach v')) !! k = v_maps (view (mach v)) !! k) /\
  exists m', maps v' = <[mi := m']> (maps v) /\ pmap m' = pmap m /\
    forall va, trans (entries m') va = if decide (s <= va < f) then None else trans (entries m) va.

Lemma unmapped_refl ext dead v mi m s f :
  vinv ext dead v -> maps v !! mi = Some m -> uncovered (entries m) s f -> unmapped ext dead v mi m s f v.
Proof.
  intros I Hm Hu. unfold unmapped. split_and!; try done; [apply frame_refl|]. exists m. rewrite insert_id by done. split_and!; try done.
  intros va. case_decide; [by apply (uncovered_trans _ s f)|done].
Qed.

Lemma unmapped_step ext dead v v1 mi m m1 s f rs re v2 :
  frame v v1 -> fresh v <= fresh v1 -> maps v1 = <[mi := m1]> (maps v) -> pmap m1 = pmap m -> s <= rs -> re <= f ->
  v_maps (view (mach v1)) = unmap (pmap m) rs re (v_maps (view (mach v))) -> v_pmaps (view (mach v1)) = v_pmaps (view (mach v)) ->
  (forall va, trans (entries m1) va = if decide (rs <= va < re) then None else trans (entries m) va) ->
  unmapped ext dead v1 mi m1 s f v2 -> unmapped ext dead v mi m s f v2.
Proof.
  intros F1 Hf Em Ep Hrs Hre Ev Epm Ht (I2 & F2 & Hf2 & E1 & E2 & m2 & E3 & E4 & E5). unfold unmapped. split_and!; try done.
  - by apply (frame_trans v v1 v2).
  - lia.
  - congruence.
  - intros k Hk. rewrite E2 by (by rewrite Ep). rewrite Ev. apply option_eq. intros x. rewrite unmap_lookup. split; [by intros []|].
    intros Hx. split; [done|]. intros [R1 R2]. apply Hk. split; [done|lia].
  - exists m2. rewrite E3, Em, insert_insert_eq. split_and!; [done|congruence|]. intros va. rewrite E5, Ht. repeat case_decide; try done; lia.
Qed.

(** What is left of an entry, and the entries around it. *)
Lemma uncovered_rest pre e post lo hi s f i :
  ents_ok lo hi (pre ++ e :: post) -> uncovered pre s f ->
  uncovered (pre ++ rest_lo e (Z.max s (start e)) ++ rest_hi e (Z.min f (end_ e)) i) s f.
Proof.
  intros H Hu x va Hx Hva [C1 C2]. unfold rest_lo, rest_hi in Hx. apply elem_of_app in Hx as [Hx|[Hx|Hx]%elem_of_app]; [by apply (Hu x va)|..].
  - destruct (Z.ltb_spec (start e) (Z.max s (start e))); [|by apply not_elem_of_nil in Hx]. apply list_elem_of_singleton in Hx. subst x. cbn in *. lia.
  - destruct (Z.ltb_spec (Z.min f (end_ e)) (end_ e)); [|by apply not_elem_of_nil in Hx]. apply list_elem_of_singleton in Hx. subst x. cbn in *. lia.
Qed.

Lemma uncovered_above l lo hi s f : ents_ok lo hi l -> f <= lo -> uncovered l s f.
Proof. intros H Hf x va Hx Hva [C1 C2]. destruct (ents_in _ _ _ _ H Hx). lia. Qed.

Lemma uncovered_app l1 l2 s f : uncovered l1 s f -> uncovered l2 s f -> uncovered (l1 ++ l2) s f.
Proof. intros H1 H2 x va [Hx|Hx]%elem_of_app; [by apply H1|by apply H2]. Qed.

Lemma aligned_max a b : page_aligned_p a = true -> page_aligned_p b = true -> page_aligned_p (Z.max a b) = true.
Proof. intros. by destruct (Z.max_spec a b) as [[_ ->]|[_ ->]]. Qed.

Lemma aligned_min a b : page_aligned_p a = true -> page_aligned_p b = true -> page_aligned_p (Z.min a b) = true.
Proof. intros. by destruct (Z.min_spec a b) as [[_ ->]|[_ ->]]. Qed.

Lemma munmap_loop_spec ext dead mi s f (post : list vm_map_entry) : forall fuel v m pre e,
  vinv ext dead v -> dead <> Some mi -> maps v !! mi = Some m -> entries m = pre ++ e :: post ->
  page_aligned_p s = true -> page_aligned_p f = true -> s < f -> uncovered pre s f -> s < end_ e -> (length post < fuel)%nat ->
  runs (munmap_loop fuel v mi (eid e) s f) (unmapped ext dead v mi m s f).
Proof.
  induction post as [post IH] using (well_founded_induction (Wf_nat.well_founded_ltof _ length)).
  intros fuel v m pre e I Hd Hm El Hs Hf Hsf Hu He Hfuel. destruct fuel as [|fuel]; [lia|].
  destruct (vinv_ents _ _ _ _ _ I Hm) as [Hok _]. pose proof Hok as [M1 M2 M3 M4]. pose proof M1 as M1'. rewrite El in M1'.
  destruct (M2 e) as [A1 A2 _ _ _]; [rewrite El; set_solver|]. destruct (ents_in _ e _ _ M1' ltac:(set_solver)) as (L1 & L2 & L3).
  cbn [munmap_loop]. rewrite (get_map_ok v mi m Hm). cbn [mbind outcome_bind]. rewrite (get_ent_mid m pre e post M3 El). cbn [mbind outcome_bind].
  destruct (Z.ltb_spec s (end_ e)); [|lia]. cbn [andb]. apply ents_app in M1' as M1''. destruct M1'' as (mid & _ & J2 & J3 & J4).
  destruct (Z.ltb_spec (start e) f) as [Hlt|Hge].
  2: { apply runs_ok, unmapped_refl; try done. rewrite El. apply uncovered_app; [done|]. apply (uncovered_above _ f (vm_map_end m)); [|lia]. done. }
  eapply runs_bind; [apply (destroy_range_spec ext dead v mi m pre e post _ _ I Hd Hm El); [by apply aligned_max|by apply aligned_min|lia..]|].
  intros v1 (I1 & Hfr & F1 & (n & i & Hi & Em) & Ev & Epm). set (m1 := set_entries _ _ m) in Em.
  pose proof (uncovered_rest pre e post _ _ s f i M1' Hu) as Hu1. rewrite El, (next_ent_mid pre post e) by (by rewrite <- El).
  assert (forall va, trans (entries m1) va = if decide (Z.max s (start e) <= va < Z.min f (end_ e)) then None else trans (entries m) va) as Ht.
  { intros va. rewrite El. apply (trans_cut pre e post _ _ _ _ i va M1'); lia. }
  assert (maps v1 !! mi = Some m1) as Hm1 by (by rewrite Em, lookup_insert_eq).
  destruct post as [|x post]; cbn [head].
  - apply runs_ok. apply (unmapped_step ext dead v v1 mi m m1 s f (Z.max s (start e)) (Z.min f (end_ e))); try done; try lia.
    apply unmapped_refl; try done. cbn [m1 entries set_entries]. by rewrite app_nil_r.
  - eapply runs_mono; [apply (IH post ltac:(unfold Wf_nat.ltof; cbn; lia) fuel v1 m1 (pre ++ rest_lo e (Z.max s (start e)) ++ rest_hi e (Z.min f (end_ e)) i) x); try done|].
    + cbn [m1 entries set_entries]. by rewrite <- !app_assoc.
    + destruct J4 as (? & ? & _). lia.
    + cbn in Hfuel. lia.
    + intros v2. apply (unmapped_step ext dead v v1 mi m m1 s f (Z.max s (start e)) (Z.min f (end_ e))); try done; lia.
Qed.
Definition vm_inv v : Prop := vinv (fun _ => 0) None v.


Lemma munmap_spec v mi m s n :
  vm_inv v -> maps v !! mi = Some m -> 0 <= s -> 0 <= n -> s + n < 2 ^ word_bits ->
  (do_munmap v mi s n = Ok (EINVAL, v) /\
     (n = 0 \/ page_aligned_p s = false \/ page_aligned_p n = false \/ trans (entries m) s = None)) \/
  runs (do_munmap v mi s n) (fun r => r.1 = 0 /\ unmapped (fun _ => 0) None v mi m s (s + n) r.2).
Proof.
  intros I Hm Hs Hn Hw. destruct (vinv_ents _ _ _ _ _ I Hm) as [Hok _]. unfold do_munmap.
  destruct (Z.eqb_spec n 0); [left; split; [done|by left]|].
  destruct (page_aligned_p s) eqn:As; [|left; split; [done|by right; left]].
  destruct (page_aligned_p n) eqn:An; [|left; split; [done|by right; right; left]]. cbn [negb orb].
  rewrite wrap_small by (unfold in_word; lia). rewrite (get_map_ok v mi m Hm). cbn [mbind outcome_bind]. unfold vm_map_find_entry.
  destruct (find_addr (entries m) s) as [e|] eqn:E; [|left; split; [done|right; right; right; by apply trans_none]]. right.
  apply (find_addr_spec _ s _ _ e (mo_ents _ Hok)) in E as [Hin [C1 C2]]. apply list_elem_of_split in Hin as (pre & post & El).
  eapply runs_bind; [|intros v' Hv'; apply runs_ok; split; [done|exact Hv']].
  apply (munmap_loop_spec (fun _ => 0) None mi s (s + n) post _ v m pre e I); try done.
  - apply aligned_mod in As, An. apply aligned_mod. by rewrite Z.add_mod, As, An by lia.
  - lia.
  - intros x va Hx Hva [D1 D2]. pose proof (mo_ents _ Hok) as H. rewrite El in H. apply ents_app in H as (mid & H1 & H2 & _).
    destruct (ents_in _ _ _ _ H1 Hx) as (_ & _ & ?). lia.
  - rewrite El, length_app. cbn. lia.
Qed.

(** ** New entries *)

Lemma map_ok_insert m pre post e :
  map_ok m -> entries m = pre ++ post -> ents_ok (vm_map_start m) (start e) pre -> ents_ok (end_ e) (vm_map_end m) post ->
  start e < end_ e -> ent_ok e -> (forall x, x ∈ entries m -> eid x <> eid e) -> pmap m <> pmap_kernel ->
  map_ok (set_entries (pre ++ e :: post) (nentries m + 1) m).
Proof.
  intros [M1 M2 M3 M4 M5] El J1 J2 Hs He Hid Hk. rewrite El in *. split; cbn [entries nentries set_entries].
  - apply ents_app. exists (start e). split; [done|]. cbn. split_and!; try done; lia.
  - intros x [Hx|[-> |Hx]%elem_of_cons]%elem_of_app; [apply M2; set_solver|done|apply M2; set_solver].
  - rewrite fmap_app, fmap_cons in *. apply NoDup_app in M3 as (N1 & N2 & N3).
    assert (forall l : list vm_map_entry, (forall x, x ∈ l -> eid x <> eid e) -> eid e ∉ eid <$> l) as Hn.
    { intros l Hl (x & E & Hx)%list_elem_of_fmap. by apply (Hl x Hx). }
    apply NoDup_app. split_and!; try done.
    + intros x Hx [-> |Hx']%elem_of_cons; [|by apply (N2 x)]. revert Hx. apply Hn. intros y Hy. apply Hid. set_solver.
    + apply NoDup_cons. split; [|done]. apply Hn. intros y Hy. apply Hid. set_solver.
  - rewrite M4, !length_app. cbn [length]. lia.
  - done.
Qed.

Lemma insert_gap m after pre post e :
  map_ok m -> entries m = pre ++ post -> after = eid <$> last pre ->
  vm_map_insert_after m after e = set_entries (pre ++ e :: post) (nentries m + 1) m.
Proof.
  intros [M1 M2 M3 M4] El ->. unfold vm_map_insert_after. destruct (last pre) as [x|] eqn:E; cbn.
  - apply last_Some in E as [l ->]. rewrite El, <- app_assoc in *. cbn [app] in *. rewrite (insert_after_mid l post x M3).
    by rewrite <- app_assoc.
  - apply last_None in E. subst pre. by rewrite El.
Qed.

Lemma trans_insert pre post e lo hi va :
  ents_ok lo hi (pre ++ e :: post) ->
  trans (pre ++ e :: post) va =
    if decide (start e <= va < end_ e) then Some (object e, offset e + (va - start e), prot e, flags e) else trans (pre ++ post) va.
Proof.
  intros H. unfold trans. rewrite !find_addr_app. cbn [find_addr]. apply ents_app in H as (mid & H1 & H2 & H3 & H4). case_decide as Hva.
  - rewrite (find_addr_out pre).
    + destruct (Z.leb_spec (start e) va), (Z.ltb_spec va (end_ e)); try lia. done.
    + intros x Hx [C1 C2]. destruct (ents_in _ _ _ _ H1 Hx) as (_ & _ & ?). lia.
  - destruct (Z.leb_spec (start e) va), (Z.ltb_spec va (end_ e)); try lia; done.
Qed.

Definition sharing (fl : Z) : Z := Z.land fl (Z.lor VM_SHARED VM_PRIVATE).
Definition entry_flags (fl : Z) : Z := if flag_on fl VM_SHARED then VM_ENT_SHARED else VM_ENT_PRIVATE.

Lemma insert_spec ext dead v mi m e n fl :
  vinv (bump ext (object e) 1) dead v -> (forall i, 0 <= ext i) -> maps v !! mi = Some m -> is_Some (objs v !! object e) ->
  (forall x, x ∈ entries m -> eid x <> eid e) -> eid e < fresh v -> offset e = 0 -> 0 <= prot e <= 7 ->
  page_aligned_p (start e) = true -> page_aligned_p n = true -> 0 < n -> 0 <= start e -> end_ e = start e + n ->
  start e + n < 2 ^ word_bits -> vm_map_end m + n < 2 ^ word_bits -> sharing fl <> 3 -> pmap m <> pmap_kernel ->
  (vm_map_insert v mi e fl = Ok (ENOMEM, e, v) /\
     ((forall a, Z.max (start e) (vm_map_start m) <= a -> a + n <= vm_map_end m -> ~ free_range (entries m) a n) \/
      flag_on fl VM_FIXED = true /\ (start e < vm_map_start m \/ ~ free_range (entries m) (start e) n))) \/
  exists a m', let e' := Entry (eid e) (object e) 0 (prot e) (entry_flags fl) a (a + n) in
    vm_map_insert v mi e fl = Ok (0, e', set_map mi m' v) /\ vinv ext dead (set_map mi m' v) /\
    Z.max (start e) (vm_map_start m) <= a /\ a + n <= vm_map_end m /\ free_range (entries m) a n /\
    (forall a', Z.max (start e) (vm_map_start m) <= a' < a -> ~ free_range (entries m) a' n) /\
    (flag_on fl VM_FIXED = true -> a = start e) /\ pmap m' = pmap m /\ e' ∈ entries m' /\
    forall va, trans (entries m') va =
      if decide (a <= va < a + n) then Some (object e, va - a, prot e, entry_flags fl) else trans (entries m) va.
Proof.
  intros I Hext Hm Ho Hid Hfr Hoff Hpr Ha Hn Hpos H0 Hend Hw He Hsh Hk. destruct (vinv_ents _ _ _ _ _ I Hm) as [Hok Hids].
  unfold vm_map_insert. rewrite (get_map_ok v mi m Hm). cbn [mbind outcome_bind]. rewrite Hend.
  replace (start e + n - start e) with n by lia. rewrite wrap_small by (unfold in_word; lia).
  destruct (findspace_spec m (start e) n Hok Ha Hn Hpos H0 Hw He) as [[-> Hno]|(a & after & -> & A1 & A2 & A3 & A4 & A5 & pre & post & El & Eaf & G1 & G2)].
  { left. split; [done|by left]. }
  cbn [mbind outcome_bind]. destruct (map_bounds m) as (B1 & B2 & B3).
  destruct (flag_on fl VM_FIXED && negb (a =? start e)) eqn:Hfx.
  { left. split; [done|]. right. apply andb_true_iff in Hfx as [Hfx Hne]. split; [done|]. destruct (Z.eqb_spec a (start e)); [done|].
    destruct (Z.lt_ge_cases (start e) (vm_map_start m)); [by left|]. right. apply A5. lia. }
  right. change (Z.land fl (Z.lor VM_SHARED VM_PRIVATE)) with (sharing fl). change (Z.lor VM_SHARED VM_PRIVATE) with 3.
  destruct (Z.eqb_spec (sharing fl) 3); [done|]. cbn [negb assert mbind outcome_bind]. rewrite wrap_small by (unfold in_word; lia). rewrite Hoff.
  set (e' := Entry (eid e) (object e) 0 (prot e) (entry_flags fl) a (a + n)). exists a, (set_entries (pre ++ e' :: post) (nentries m + 1) m).
  change (Entry (eid e) (object e) 0 (prot e) _ a (a + n)) with e'. rewrite (insert_gap m after pre post e' Hok El Eaf).
  assert (map_ok (set_entries (pre ++ e' :: post) (nentries m + 1) m)) as Hok'.
  { apply map_ok_insert; try done; [cbn; lia|]. split; cbn; try done; [|lia]. apply aligned_mod in A1, Hn. apply aligned_mod.
    by rewrite Z.add_mod, A1, Hn by lia. }
  cbn zeta. split_and!; try done.
  - refine (vinv_entries _ ext dead v mi m _ I Hm _ Hok' _ _ Hext _); try done.
    + intros x. cbn [entries set_entries]. intros [Hx|[-> |Hx]%elem_of_cons]%elem_of_app; [apply Hids; rewrite El; set_solver|done|apply Hids; rewrite El; set_solver].
    + intros i. cbn [entries set_entries]. rewrite El, !cnt_app, cnt_cons. cbn [object e']. unfold bump. repeat case_decide; try lia; congruence.
    + intros va x Hx Hc _. exists x. split_and!; try done. cbn [entries set_entries]. rewrite El in Hx. set_solver.
  - intros Hf. rewrite Hf in Hfx. cbn in Hfx. destruct (Z.eqb_spec a (start e)); done.
  - cbn. set_solver.
  - intros va. cbn [entries set_entries]. rewrite (trans_insert pre post e' _ _ va (mo_ents _ Hok')). cbn. rewrite El.
    case_decide; [do 4 f_equal; lia|done].
Qed.
(** Why [vm_map_alloc_entry] refuses a request before it looks for a gap. *)
Definition refused m (addr n fl error : Z) : Prop :=
  (flag_on fl VM_ANON = false /\ error = ENOTSUP) \/
  (error = EINVAL /\ (page_aligned_p addr = false \/ n = 0 \/
     addr <> 0 /\ ~ (vm_map_start m <= addr /\ addr + n <= vm_map_end m))).

(** Why there is no place for a request. *)
Definition no_room m (addr n fl : Z) : Prop :=
  (forall a, Z.max addr (vm_map_start m) <= a -> a + n <= vm_map_end m -> ~ free_range (entries m) a n) \/
  flag_on fl VM_FIXED = true /\ (addr < vm_map_start m \/ ~ free_range (entries m) addr n).

(** The address [a] is the lowest with room for [n] bytes, from the hint [addr] on. *)
Definition first_fit m (addr n a : Z) : Prop :=
  Z.max addr (vm_map_start m) <= a /\ a + n <= vm_map_end m /\ free_range (entries m) a n /\
  forall a', Z.max addr (vm_map_start m) <= a' < a -> ~ free_range (entries m) a' n.

Lemma alloc_entry_spec v mi m addr n pr fl :
  vm_inv v -> maps v !! mi = Some m -> 0 <= addr -> page_aligned_p n = true -> 0 <= n -> 0 <= pr <= 7 ->
  addr + n < 2 ^ word_bits -> vm_map_end m + n < 2 ^ word_bits -> sharing fl <> 3 -> pmap m <> pmap_kernel ->
  (exists error, vm_map_alloc_entry v mi addr n pr fl = Ok (error, None, v) /\ refused m addr n fl error) \/
  (exists v', vm_map_alloc_entry v mi addr n pr fl = Ok (ENOMEM, None, v') /\ no_room m addr n fl /\
     vm_inv v' /\ maps v' = maps v /\ frame v v' /\ v_maps (view (mach v')) = v_maps (view (mach v))) \/
  exists a m' i (o : Z) v', let e := Entry i o 0 pr (entry_flags fl) a (a + n) in
    vm_map_alloc_entry v mi addr n pr fl = Ok (0, Some e, v') /\ first_fit m addr n a /\ e ∈ entries m' /\
    (flag_on fl VM_FIXED = true -> a = addr) /\ vm_inv v' /\ mach v' = mach v /\ maps v' = <[mi := m']> (maps v) /\ pmap m' = pmap m /\
    objs v !! o = None /\ objs v' = <[o := Object [] 0 VM_ANONYMOUS 1]> (objs v) /\
    forall va, trans (entries m') va = if decide (a <= va < a + n) then Some (o, va - a, pr, entry_flags fl) else trans (entries m) va.
Proof.
  intros I Hm Ha Hn Hn0 Hpr Hw He Hsh Hk. destruct (vinv_ents _ _ _ _ _ I Hm) as [Hok Hids]. unfold vm_map_alloc_entry, refused.
  rewrite (get_map_ok v mi m Hm). cbn [mbind outcome_bind].
  destruct (flag_on fl VM_ANON); [|left; exists ENOTSUP; split; [done|by left]]. cbn [negb].
  destruct (page_aligned_p addr) eqn:Aa; [|left; exists EINVAL; split; [done|right; split; [done|by left]]]. cbn [negb].
  destruct (Z.eqb_spec n 0); [left; exists EINVAL; split; [done|right; split; [done|by right; left]]|].
  rewrite !wrap_small by (unfold in_word; lia).
  destruct (negb (addr =? 0) && negb (vm_map_contains_p m addr (addr + n))) eqn:Hc.
  { left. exists EINVAL. split; [done|]. right. split; [done|]. right. right. unfold vm_map_contains_p in Hc. lia. }
  clear Hc. right. destruct (vm_object_alloc v VM_ANONYMOUS) as [i v1] eqn:Ealloc.
  destruct (object_alloc_spec _ _ v VM_ANONYMOUS i v1 I Ealloc eq_refl) as (Ei & E1 & Hnone & Hr & I1). clear Ealloc. subst v1.
  unfold vm_map_entry_alloc. rewrite Aa. assert (page_aligned_p (addr + n) = true) as ->.
  { apply aligned_mod in Aa, Hn. apply aligned_mod. by rewrite Z.add_mod, Aa, Hn by lia. }
  cbn [andb assert mbind outcome_bind]. cbn [mach objs maps fresh].
  set (e := Entry (fresh v + 1) i 0 pr VM_ENT_SHARED addr (addr + n)). set (v2 := Vm _ _ _ (fresh v + 1 + 1)).
  assert (vinv (bump (fun _ => 0) (object e) 1) None v2) as I2 by (apply (vinv_fresh _ _ _ (fresh v + 1 + 1)) in I1; [done|cbn; lia]).
  assert (is_Some (objs v2 !! object e)) as [o Ho] by (cbn; by rewrite lookup_insert_eq).
  assert (maps v2 !! mi = Some m) as Hm2 by done.
  assert (forall x, x ∈ entries m -> eid x <> eid e) as Hid.
  { intros x Hx. destruct (Hids x Hx). cbn. lia. }
  destruct (insert_spec (fun _ => 0) None v2 mi m e n fl I2 (fun _ => Z.le_refl 0) Hm2 (ex_intro _ o Ho) Hid ltac:(cbn; lia)
    eq_refl Hpr Aa Hn ltac:(lia) Ha eq_refl Hw He Hsh Hk) as [[-> Hno]|(a & m' & Hins)].
  - left. cbn [mbind outcome_bind]. change (negb (ENOMEM =? 0)) with true. cbn match.
    destruct (object_drop_spec _ None v2 (object e) o I2 Ho) as (v' & E & I' & Em & _ & Ev & _ & F); [rewrite bump_eq; lia|].
    unfold vm_map_entry_free. rewrite E. cbn [mbind outcome_bind]. exists v'. split_and!; try done.
    + apply (vinv_ext _ (fun _ => 0)) in I'; [done|]. intros j. unfold bump. case_decide; lia.
    + apply (frame_alloc v v2 v' i _ Hnone eq_refl eq_refl F).
      destruct (objs v' !! i) as [o'|] eqn:Hj; [|done]. exfalso. destruct (vi_obj _ _ _ I' i o' Hj) as (_ & _ & R1 & R2).
      rewrite Em in R1. change (maps v2) with (maps v) in R1. rewrite Hr in R1. unfold bump in R1. rewrite !decide_True in R1 by done. lia.
  - right. cbn zeta in Hins. destruct Hins as (-> & I3 & F1 & F2 & F3 & F4 & F5 & F6 & F7 & F8). cbn [mbind outcome_bind].
    exists a, m', (fresh v + 1), i. eexists. split; [done|]. split; [by split_and!|]. by split_and!.
Qed.
(** C35: In the map of a process, for a length rounded up to pages that can be added to the
    hint and to the end of the map without a wrap-around, and a protection up to 7, mmap
    either refuses the request for one of the
    stated reasons, and nothing changes; or reports that there is no room, with all
    address spaces and the contents of all objects unchanged; or it returns the lowest
    address from the hint on at which the length fits (the hint itself if the address is
    fixed), and exactly the addresses of the new range now stand for the offsets of a new
    anonymous object without pages. *)
Theorem do_mmap_correct v mi m addr length pr fl n :
  vm_inv v -> maps v !! mi = Some m -> 0 <= addr -> 0 <= length -> length + PAGESIZE <= 2 ^ word_bits -> 0 <= pr <= 7 ->
  n = ceil_to length PAGESIZE -> addr + n < 2 ^ word_bits -> vm_map_end m + n < 2 ^ word_bits -> pmap m <> pmap_kernel ->
  (exists error, do_mmap v mi addr length pr fl = Ok (error, MAP_FAILED, v) /\
     (refused m addr n fl error \/ error = EINVAL /\ (sharing fl = 0 \/ sharing fl = 3))) \/
  (exists v', do_mmap v mi addr length pr fl = Ok (ENOMEM, MAP_FAILED, v') /\ no_room m addr n fl /\
     vm_inv v' /\ maps v' = maps v /\ frame v v' /\ v_maps (view (mach v')) = v_maps (view (mach v))) \/
  exists a m' (o : Z) v', do_mmap v mi addr length pr fl = Ok (0, a, v') /\ first_fit m addr n a /\
    (flag_on fl VM_FIXED = true -> a = addr) /\ vm_inv v' /\ mach v' = mach v /\ maps v' = <[mi := m']> (maps v) /\ pmap m' = pmap m /\
    objs v !! o = None /\ objs v' = <[o := Object [] 0 VM_ANONYMOUS 1]> (objs v) /\
    forall va, trans (entries m') va = if decide (a <= va < a + n) then Some (o, va - a, pr, entry_flags fl) else trans (entries m) va.
Proof.
  intros I Hm Ha Hl Hlw Hpr -> Hw He Hk. unfold do_mmap. rewrite roundup_spec by (unfold in_word, PAGESIZE in *; lia).
  destruct (ceil_to_spec length PAGESIZE ltac:(done)) as [Hc1 Hc2].
  change (Z.land fl (Z.lor VM_SHARED VM_PRIVATE)) with (sharing fl). change (Z.lor VM_SHARED VM_PRIVATE) with 3.
  destruct (Z.eqb_spec (sharing fl) 3); [left; exists EINVAL; split; [done|right; split; [done|by right]]|].
  destruct (Z.eqb_spec (sharing fl) 0); [left; exists EINVAL; split; [done|right; split; [done|by left]]|].
  destruct (alloc_entry_spec v mi m addr (ceil_to length PAGESIZE) pr fl I Hm Ha) as [(error & -> & R)|[(v' & -> & R)|(a & m' & i & o & v' & H)]];
    try done; try lia.
  - by apply aligned_mod.
  - left. exists error. split; [done|by left].
  - right. left. by exists v'.
  - right. right. cbn zeta in H. destruct H as (-> & H1 & _ & H). cbn [mbind outcome_bind]. by exists a, m', o, v'.
Qed.

(** ** Page faults *)

Lemma add_page_inv ext dead v i o h off pg d :
  vinv ext dead v -> objs v !! i = Some o -> hw_ok h -> view h = set_data (<[pg := d]> (v_data (view (mach v)))) (view (mach v)) ->
  v_data (view (mach v)) !! pg = None -> page_aligned_p off = true -> 0 <= off < 2 ^ word_bits - PAGESIZE ->
  (forall q, (off, q) ∉ vo_pages o) ->
  exists o', vm_object_add_page (set_mach h v) i off pg = Ok (Vm h (<[i := o']> (objs v)) (maps v) (fresh v)) /\
    vo_pages o' ≡ₚ (off, pg) :: vo_pages o /\ vo_pager o' = vo_pager o /\ vo_refs o' = vo_refs o /\
    vinv ext dead (Vm h (<[i := o']> (objs v)) (maps v) (fresh v)).
Proof.
  intros I Hi Hh V Hnone Ha Hoff Hq. destruct (vi_obj _ _ _ I i o Hi) as (_ & [O1 O2 O3] & Hr & Hr').
  unfold vm_object_add_page, get_obj. cbn [objs set_mach]. rewrite Hi. cbn [mbind outcome_bind].
  destruct (insert_page_spec (vo_pages o) off pg 0 O1 Hq) as (l & -> & Hl & HP); [lia|done|lia|]. cbn [mbind outcome_bind].
  eexists. split; [done|]. cbn [vo_pages set_pages vo_pager vo_refs]. split_and!; try done.
  assert (forall j ob a, objs v !! j = Some ob -> (a, pg) ∉ vo_pages ob) as Hfresh.
  { intros j ob a Hj Hin. destruct (vi_obj _ _ _ I j ob Hj) as (_ & [_ _ H] & _). destruct (H a pg Hin). congruence. }
  assert (forall x, x ∈ l <-> x = (off, pg) \/ x ∈ vo_pages o) as Hin by (intros x; rewrite HP; apply elem_of_cons).
  apply (vinv_obj ext ext dead v h i o); try done; rewrite ?V; cbn [v_data v_pmaps v_maps set_data set_pages vo_pages vo_refs]; try done.
  - intros j ob a q Hj _ Hx. destruct (vi_obj _ _ _ I j ob Hj) as (_ & [_ _ H] & _). rewrite lookup_insert_is_Some'. right. by apply (H a).
  - split; cbn; [done|rewrite HP; cbn; lia|]. intros a q Hx. apply Hin in Hx as [[= -> ->]|Hx]; [by rewrite lookup_insert_eq|].
    rewrite lookup_insert_is_Some'. right. by apply (O3 a).
  - apply (vi_ext _ _ _ I).
  - intros a a' q Hx Hx'. apply Hin in Hx as [E|Hx], Hx' as [E'|Hx'].
    + congruence.
    + injection E as -> ->. by apply (Hfresh i o) in Hx'.
    + injection E' as -> ->. by apply (Hfresh i o) in Hx.
    + by apply (vi_page _ _ _ I i i o o a a' q).
  - intros j ob a a' q Hj Hne Hx Hx'. apply Hin in Hx as [[= -> ->]|Hx]; [by apply (Hfresh j ob a')|].
    apply Hne. symmetry. by apply (vi_page _ _ _ I i j o ob a a' q).
  - intros a q k pr Hx _. apply Hin. by right.
Qed.

Lemma enter_inv ext dead v h mi m e o va pg :
  vinv ext dead v -> maps v !! mi = Some m -> e ∈ entries m -> covers e va -> page_aligned_p va = true ->
  objs v !! object e = Some o -> (offset e + (va - start e), pg) ∈ vo_pages o -> hw_ok h ->
  view h = set_maps (<[(pmap m, va) := (pg, prot e)]> (v_maps (view (mach v)))) (view (mach v)) -> vinv ext dead (set_mach h v).
Proof.
  intros [I1 I2 I3 I4 I5 I6 I7 I8] Hm He Hc Ha Ho Hpg Hh V. split; cbn [set_mach mach objs maps fresh]; rewrite ?V; try done.
  intros pm va' pg' pr. cbn [v_maps set_maps]. rewrite lookup_insert_Some. intros [[[= <- <-] [= <- <-]]|[_ H]]; [|by apply I8].
  exists mi, m, e, o. by split_and!.
Qed.

(** What is mapped at an address of an entry is the page of its object. *)
Lemma mapped_page ext dead v mi m e o va pg pr :
  vinv ext dead v -> maps v !! mi = Some m -> e ∈ entries m -> covers e va -> objs v !! object e = Some o ->
  v_maps (view (mach v)) !! (pmap m, va) = Some (pg, pr) -> (offset e + (va - start e), pg) ∈ vo_pages o.
Proof.
  intros I Hm He Hc Ho Hk. destruct (vi_coh _ _ _ I _ _ _ _ Hk) as (i & m1 & e1 & o1 & J1 & J2 & J3 & J4 & J5 & J6 & J7 & _).
  assert (i = mi) as -> by (by apply (vi_pmap _ _ _ I i mi m1 m)). assert (m1 = m) as -> by congruence.
  destruct (vinv_ents _ _ _ _ _ I Hm) as [Hok _]. assert (e1 = e) as -> by (by apply (covers_unique _ e1 e va _ _ (mo_ents _ Hok))).
  congruence.
Qed.
Definition page_of (va : Z) : Z := va / PAGESIZE * PAGESIZE.

Definition denied (pr ty : Z) : bool :=
  (pr =? VM_PROT_NONE) || negb (flag_on pr VM_PROT_WRITE) && (ty =? VM_PROT_WRITE) ||
  negb (flag_on pr VM_PROT_READ) && (ty =? VM_PROT_READ).

Lemma page_covers e va : ent_ok e -> covers e va ->
  covers e (page_of va) /\ page_of va + PAGESIZE <= end_ e /\ page_aligned_p (page_of va) = true /\
  page_aligned_p (offset e + (page_of va - start e)) = true /\ 0 <= offset e + (page_of va - start e) <= page_of va.
Proof.
  intros [E1 E2 E3 E4 E5] [C1 C2]. unfold page_of, PAGESIZE. apply aligned_mod in E1, E2, E3. rewrite !aligned_mod.
  pose proof (Z.div_mod va 4096 ltac:(lia)). pose proof (Z.mod_pos_bound va 4096 ltac:(lia)).
  pose proof (Z.div_mod (start e) 4096 ltac:(lia)) as D1. pose proof (Z.div_mod (end_ e) 4096 ltac:(lia)) as D2.
  pose proof (Z.div_mod (offset e) 4096 ltac:(lia)) as D3. unfold covers.
  assert (start e / 4096 <= va / 4096) by (apply Z.div_le_mono; lia). split_and!; lia.
Qed.

(** The part of [vm_page_fault] that enters the page. *)
Lemma enter_spec ext dead v mi m e o va pg :
  vinv ext dead v -> dead <> Some mi -> maps v !! mi = Some m -> e ∈ entries m -> covers e va -> objs v !! object e = Some o ->
  (offset e + (page_of va - start e), pg) ∈ vo_pages o ->
  runs (h ← pmap_enter (mach v) (pmap m) (page_of va) pg (prot e); Ok (0, set_mach h v)) (fun r => r.1 = 0 /\ vinv ext dead r.2 /\
    objs r.2 = objs v /\ maps r.2 = maps v /\
    view (mach r.2) = set_maps (<[(pmap m, page_of va) := (pg, prot e)]> (v_maps (view (mach v)))) (view (mach v))).
Proof.
  intros I Hd Hm He Hc Ho Hpg. destruct (vinv_ents _ _ _ _ _ I Hm) as [Hok _]. destruct (mo_each _ Hok e He) as [A1 A2 A3 A4 A5] eqn:X. clear X.
  destruct (page_covers e va (mo_each _ Hok e He) Hc) as (P1 & P2 & P3 & P4 & P5). destruct (ents_in _ e _ _ (mo_ents _ Hok) He) as (L1 & L2 & L3).
  destruct (vi_obj _ _ _ I _ _ Ho) as (_ & [O1 O2 O3] & _).
  destruct (user_bounds m (mo_user _ Hok e He)) as [U1 U2].
  destruct (enter_law (mach v) (pmap m) (page_of va) pg (prot e) (vi_hw _ _ _ I) (vi_live _ _ _ I mi m Hm Hd) (mo_user _ Hok e He) P3)
    as [[-> | ->]|(h & -> & Hh & V)]; try done.
  - unfold covers in P1. lia.
  - by apply (O3 _ _ Hpg).
  - intros [pg' pr'] Hx. cbn. apply (pages_fun (vo_pages o) (offset e + (page_of va - start e)) pg' pg 0 O1); [|done].
    by apply (mapped_page ext dead v mi m e o (page_of va) pg' pr').
  - by left; left.
  - by left; right.
  - apply runs_ok. cbn. split_and!; try done. by apply (enter_inv ext dead v h mi m e o (page_of va) pg).
Qed.

Lemma fault_spec v mi m va ty :
  vm_inv v -> maps v !! mi = Some m ->
  match find_addr (entries m) va with
  | None => vm_page_fault v mi va ty = Ok (EFAULT, v)
  | Some e =>
      if denied (prot e) ty then vm_page_fault v mi va ty = Ok (EACCES, v)
      else
        let off := offset e + (page_of va - start e) in
        let mapped pg := <[(pmap m, page_of va) := (pg, prot e)]> (v_maps (view (mach v))) in
        exists o, objs v !! object e = Some o /\
          match find_page (vo_pages o) off, vo_pager o with
          | Some pg, _ => runs (vm_page_fault v mi va ty) (fun r => r.1 = 0 /\ vm_inv r.2 /\ objs r.2 = objs v /\ maps r.2 = maps v /\
              view (mach r.2) = set_maps (mapped pg) (view (mach v)))
          | None, VM_DUMMY => vm_page_fault v mi va ty = Ok (EFAULT, v)
          | None, VM_ANONYMOUS => runs (vm_page_fault v mi va ty) (fun r => r.1 = 0 /\ vm_inv r.2 /\ maps r.2 = maps v /\
              exists pg o', v_data (view (mach v)) !! pg = None /\ vo_pages o' ≡ₚ (off, pg) :: vo_pages o /\ vo_pager o' = vo_pager o /\
                objs r.2 = <[object e := o']> (objs v) /\
                view (mach r.2) = HView (<[pg := zero_page]> (v_data (view (mach v)))) (v_pmaps (view (mach v))) (mapped pg))
          end
  end.
Proof.
  intros I Hm. destruct (vinv_ents _ _ _ _ _ I Hm) as [Hok Hids]. unfold vm_page_fault. rewrite (get_map_ok v mi m Hm). cbn [mbind outcome_bind].
  unfold vm_map_find_entry. destruct (find_addr (entries m) va) as [e|] eqn:Ef; [|done].
  apply (find_addr_spec _ va _ _ e (mo_ents _ Hok)) in Ef as [He Hc]. unfold denied.
  destruct (prot e =? VM_PROT_NONE); cbn [orb]; [done|].
  destruct (negb (flag_on (prot e) VM_PROT_WRITE) && (ty =? VM_PROT_WRITE)); cbn [orb]; [done|].
  destruct (negb (flag_on (prot e) VM_PROT_READ) && (ty =? VM_PROT_READ)); cbn [orb]; [done|].
  destruct (Hids e He) as [_ [o Ho]]. exists o. split; [done|]. pose proof Hc as [C1 C2].
  destruct (page_covers e va (mo_each _ Hok e He) Hc) as (P1 & P2 & P3 & P4 & P5). destruct (ents_in _ e _ _ (mo_ents _ Hok) He) as (L1 & L2 & L3).
  destruct (map_bounds m) as (B1 & B2 & _). destruct (vi_obj _ _ _ I _ _ Ho) as (_ & [O1 O2 O3] & _).
  destruct (Z.leb_spec (start e) va); [|lia]. destruct (Z.ltb_spec va (end_ e)); [|lia]. cbn [andb assert mbind outcome_bind].
  unfold get_obj. rewrite Ho. cbn [mbind outcome_bind].
  assert (wrap (Z.land va (- PAGESIZE)) = page_of va) as ->.
  { change PAGESIZE with (2 ^ 12). rewrite land_neg_pow2 by lia. apply wrap_small. unfold in_word, page_of, covers in *. change PAGESIZE with (2 ^ 12) in *. lia. }
  unfold covers in P1. rewrite (wrap_small (page_of va - start e)) by (unfold in_word; lia). rewrite wrap_small by (unfold in_word, PAGESIZE in *; lia).
  unfold vm_object_find_page. destruct (find_page (vo_pages o) (offset e + (page_of va - start e))) as [pg|] eqn:Efp.
  - cbn [mbind outcome_bind]. apply (find_page_spec _ _ _ 0 O1) in Efp. by apply (enter_spec (fun _ => 0) None v mi m e o va pg).
  - destruct (vo_pager o) eqn:Epg; cbn [pgr_fault]; [done|].
    unfold anon_pager_fault. destruct (page_alloc_law (mach v) (vi_hw _ _ _ I)) as [->|(pg & h1 & d & -> & Hh1 & Hn & V1)]; [by left; left|].
    cbn [mbind outcome_bind]. destruct (zero_page_law h1 pg Hh1) as (h2 & -> & Hh2 & V2); [rewrite V1; cbn; by rewrite lookup_insert_eq|].
    cbn [mbind outcome_bind]. rewrite V1 in V2. cbn [v_data set_data v_pmaps v_maps] in V2. rewrite insert_insert_eq in V2.
    destruct (add_page_inv _ _ v (object e) o h2 (offset e + (page_of va - start e)) pg zero_page I Ho Hh2 V2 Hn P4) as (o' & -> & HP & Eo & _ & I2).
    + unfold PAGESIZE in *. lia.
    + by apply find_page_none.
    + cbn [mbind outcome_bind]. eapply runs_mono.
      * apply (enter_spec (fun _ => 0) None _ mi m e o' va pg I2); try done; [cbn; by rewrite lookup_insert_eq|]. rewrite HP. by left.
      * intros [x v']. cbn [fst snd]. intros (R1 & R2 & R3 & R4 & R5). split_and!; try done. exists pg, o'. cbn [mach objs] in *.
        rewrite V2 in R5. split_and!; try done. congruence.
Qed.
Lemma find_page_addr m va : map_ok m -> find_addr (entries m) (page_of va) = find_addr (entries m) va.
Proof.
  intros [M1 M2 _ _]. apply option_eq. intros e. rewrite !(find_addr_spec _ _ _ _ e M1). split; intros [He Hc]; (split; [done|]).
  - destruct (M2 e He) as [E1 E2 _ _ _]. apply aligned_mod in E1, E2. unfold covers, page_of, PAGESIZE in *.
    pose proof (Z.div_mod va 4096 ltac:(lia)). pose proof (Z.mod_pos_bound va 4096 ltac:(lia)).
    pose proof (Z.div_mod (end_ e) 4096 ltac:(lia)). lia.
  - by apply page_covers; [apply M2|].
Qed.

(** C11: A page fault is refused if the address stands for nothing or its protection does not
    allow the access, and nothing changes.  Otherwise, unless memory runs out, the page of the
    object at the offset of the address is mapped, with the protection of the entry.  If the object has
    no page there yet, an anonymous object gets a page of zeros, while a dummy object
    reports a fault; nothing else changes. *)
Theorem vm_page_fault_correct v mi m va ty :
  vm_inv v -> maps v !! mi = Some m ->
  match trans (entries m) (page_of va) with
  | None => vm_page_fault v mi va ty = Ok (EFAULT, v)
  | Some (i, off, pr, _) =>
      if denied pr ty then vm_page_fault v mi va ty = Ok (EACCES, v)
      else
        let mapped pg := <[(pmap m, page_of va) := (pg, pr)]> (v_maps (view (mach v))) in
        exists o, objs v !! i = Some o /\
          match find_page (vo_pages o) off, vo_pager o with
          | Some pg, _ => runs (vm_page_fault v mi va ty) (fun r => r.1 = 0 /\ vm_inv r.2 /\ objs r.2 = objs v /\ maps r.2 = maps v /\
              view (mach r.2) = set_maps (mapped pg) (view (mach v)))
          | None, VM_DUMMY => vm_page_fault v mi va ty = Ok (EFAULT, v)
          | None, VM_ANONYMOUS => runs (vm_page_fault v mi va ty) (fun r => r.1 = 0 /\ vm_inv r.2 /\ maps r.2 = maps v /\
              exists pg o', v_data (view (mach v)) !! pg = None /\ vo_pages o' ≡ₚ (off, pg) :: vo_pages o /\ vo_pager o' = vo_pager o /\
                objs r.2 = <[i := o']> (objs v) /\
                view (mach r.2) = HView (<[pg := zero_page]> (v_data (view (mach v)))) (v_pmaps (view (mach v))) (mapped pg))
          end
  end.
Proof.
  intros I Hm. destruct (vinv_ents _ _ _ _ _ I Hm) as [Hok _]. pose proof (fault_spec v mi m va ty I Hm) as H. unfold trans.
  rewrite find_page_addr by done. by destruct (find_addr (entries m) va) as [e|].
Qed.

(** ** Copies *)

(** All objects are still there with their contents. *)
Definition grows v v' : Prop :=
  forall i o, objs v !! i = Some o ->
    exists o', objs v' !! i = Some o' /\ vo_pages o' = vo_pages o /\ vo_pager o' = vo_pager o /\
      forall off pg, (off, pg) ∈ vo_pages o -> v_data (view (mach v')) !! pg = v_data (view (mach v)) !! pg.

Lemma grows_refl v : grows v v.
Proof. intros i o H. by exists o. Qed.

Lemma grows_trans v1 v2 v3 : grows v1 v2 -> grows v2 v3 -> grows v1 v3.
Proof.
  intros G1 G2 i o1 H1. destruct (G1 i o1 H1) as (o2 & H2 & E1 & E2 & E3), (G2 i o2 H2) as (o3 & H3 & D1 & D2 & D3).
  exists o3. split_and!; [done|congruence..|]. intros off pg Hin. rewrite (D3 off pg) by congruence. by apply (E3 off).
Qed.

(** What an object holds at an offset. *)
Definition content v (i off : Z) : option (list Z) :=
  match objs v !! i with
  | None => None
  | Some o => match find_page (vo_pages o) off with None => None | Some pg => v_data (view (mach v)) !! pg end
  end.

Lemma grows_content v v' i o off : grows v v' -> objs v !! i = Some o -> pages_ok 0 (vo_pages o) -> content v' i off = content v i off.
Proof.
  intros G Hi Hp. destruct (G i o Hi) as (o' & Hi' & E1 & _ & E2). unfold content. rewrite Hi, Hi', E1.
  destruct (find_page (vo_pages o) off) as [pg|] eqn:E; [|done]. apply (find_page_spec _ _ _ 0 Hp) in E. by apply (E2 off).
Qed.

Lemma pages_before l1 off pg l2 a q : forall lo, pages_ok lo (l1 ++ (off, pg) :: l2) -> (a, q) ∈ l1 -> a < off.
Proof.
  induction l1 as [|[o r] l1 IH]; intros lo H Hin; [by apply not_elem_of_nil in Hin|]. destruct H as (H1 & H2 & H3 & H4).
  apply elem_of_cons in Hin as [[= -> ->]|Hin]; [|by apply (IH (o + 1))].
  destruct (pages_lt _ (o + 1) off pg H4); [set_solver|]. lia.
Qed.

Lemma copy_page_spec ext dead v new on off pg d :
  vinv ext dead v -> objs v !! new = Some on -> v_data (view (mach v)) !! pg = Some d -> page_aligned_p off = true ->
  0 <= off < 2 ^ word_bits - PAGESIZE -> (forall q, (off, q) ∉ vo_pages on) ->
  runs ('(npg, h) ← vm_page_alloc1 (mach v);
        match npg with
        | None => Fault NoMemory
        | Some npg => h ← pmap_copy_page h pg npg; vm_object_add_page (set_mach h v) new off npg
        end)
    (fun v' => vinv ext dead v' /\ exists npg on' h, v_data (view (mach v)) !! npg = None /\
      v' = Vm h (<[new := on']> (objs v)) (maps v) (fresh v) /\
      view h = set_data (<[npg := d]> (v_data (view (mach v)))) (view (mach v)) /\
      vo_pages on' ≡ₚ (off, npg) :: vo_pages on /\ vo_pager on' = vo_pager on /\ vo_refs on' = vo_refs on).
Proof.
  intros I Hn Hd Ha Ho Hq. destruct (page_alloc_law (mach v) (vi_hw _ _ _ I)) as [->|(npg & h1 & d1 & -> & Hh1 & Hnone & V1)]; [by left; left|].
  cbn [mbind outcome_bind]. destruct (copy_page_law h1 pg npg d Hh1) as (h2 & -> & Hh2 & V2).
  { rewrite V1. cbn. rewrite lookup_insert_ne by congruence. done. } { rewrite V1. cbn. by rewrite lookup_insert_eq. }
  cbn [mbind outcome_bind]. rewrite V1 in V2. cbn [v_data set_data v_pmaps v_maps] in V2. rewrite insert_insert_eq in V2.
  destruct (add_page_inv ext dead v new on h2 off npg d I Hn Hh2 V2 Hnone Ha Ho Hq) as (on' & -> & HP & E1 & E2 & I2).
  apply runs_ok. split; [done|]. by exists npg, on', h2.
Qed.

(** Copies of the pages [l] at the same offsets, in the pages [ps]. *)
Definition copied (d d' : gmap Z (list Z)) (l : list (Z * Z)) (ps : list Z) : Prop :=
  Forall2 (fun x pg => d' !! pg = d !! x.2) l ps.

Lemma copied_base d1 d d' l ps :
  copied d1 d' l ps -> (forall off pg, (off, pg) ∈ l -> d1 !! pg = d !! pg) -> copied d d' l ps.
Proof.
  intros H Hd. induction H as [|[off pg] q l ps E H IH]; constructor.
  - cbn in *. rewrite E. apply (Hd off). by left.
  - apply IH. intros a r Hin. apply (Hd a). by right.
Qed.

Lemma clone_pages_spec ext dead new (l : list (Z * Z)) : forall v seen on,
  vinv ext dead v -> objs v !! new = Some on -> pages_ok 0 (seen ++ l) ->
  (forall off pg, (off, pg) ∈ l -> is_Some (v_data (view (mach v)) !! pg)) ->
  (forall off pg, (off, pg) ∈ vo_pages on -> exists q, (off, q) ∈ seen) ->
  runs (clone_pages v new l) (fun v' => vinv ext dead v' /\ maps v' = maps v /\ fresh v' = fresh v /\
    v_maps (view (mach v')) = v_maps (view (mach v)) /\ v_pmaps (view (mach v')) = v_pmaps (view (mach v)) /\
    (forall pg x, v_data (view (mach v)) !! pg = Some x -> v_data (view (mach v')) !! pg = Some x) /\
    exists on' ps, objs v' = <[new := on']> (objs v) /\ vo_pager on' = vo_pager on /\ vo_refs on' = vo_refs on /\
      vo_pages on' ≡ₚ vo_pages on ++ zip l.*1 ps /\ copied (v_data (view (mach v))) (v_data (view (mach v'))) l ps).
Proof.
  induction l as [|[off pg] l IH]; intros v seen on I Hn Hp Hd Hseen; cbn [clone_pages].
  { apply runs_ok. split_and!; try done. exists on, []. rewrite insert_id by done. split_and!; try done; [by rewrite app_nil_r|constructor]. }
  destruct (Hd off pg ltac:(by left)) as [d Hpg]. destruct (pages_lt _ _ off pg Hp) as [P1 P2]; [set_solver|].
  assert (forall q, (off, q) ∉ vo_pages on) as Hq.
  { intros q Hin. destruct (Hseen off q Hin) as [q' Hin']. pose proof (pages_before _ _ _ _ _ _ _ Hp Hin'). lia. }
  pose proof (copy_page_spec ext dead v new on off pg d I Hn Hpg P2 P1 Hq) as HC.
  destruct (vm_page_alloc1 (mach v)) as [[[npg0|] h0]|f]; cbn [mbind outcome_bind] in *; [|by left; left|].
  2: { destruct HC as [[[= ->]|[= ->]]|(? & [=] & _)]; [by left; left|by left; right]. }
  destruct (pmap_copy_page h0 pg npg0) as [h1|f]; cbn [mbind outcome_bind] in *.
  2: { destruct HC as [[[= ->]|[= ->]]|(? & [=] & _)]; [by left; left|by left; right]. }
  eapply runs_bind; [exact HC|]. cbn beta. intros v1 (I1 & npg & on1 & h & Hnone & E1 & V1 & HP1 & Ep1 & Er1).
  assert (forall q x, v_data (view (mach v)) !! q = Some x -> v_data (view (mach v1)) !! q = Some x) as Hmono.
  { intros q x Hx. rewrite E1. cbn. rewrite V1. cbn. rewrite lookup_insert_ne by congruence. done. }
  eapply runs_mono; [apply (IH v1 (seen ++ [(off, pg)]) on1 I1)|].
  - rewrite E1. cbn. by rewrite lookup_insert_eq.
  - by rewrite <- app_assoc.
  - intros a q Hin. destruct (Hd a q ltac:(by right)) as [x Hx]. exists x. by apply Hmono.
  - intros a q. rewrite HP1, elem_of_cons. intros [[= -> ->]|Hin]; [exists pg; set_solver|]. destruct (Hseen a q Hin) as [q' ?]. exists q'. set_solver.
  - intros v' (I' & Em & Ef & Ev & Epm & Hm' & on' & ps & Eo & Ep & Er & HP & Hc). rewrite E1 in Em, Ef, Ev, Epm, Eo. cbn [mach objs maps fresh] in *.
    rewrite V1 in Ev, Epm. split_and!; try done; [intros; by apply Hm', Hmono|]. exists on', (npg :: ps). split_and!.
    + by rewrite Eo, insert_insert_eq.
    + congruence.
    + congruence.
    + rewrite HP, HP1. cbn. by rewrite Permutation_middle.
    + constructor; [cbn|].
      * rewrite Hpg. apply Hm'. rewrite E1. cbn. rewrite V1. cbn. by rewrite lookup_insert_eq.
      * apply (copied_base _ _ _ _ _ Hc). intros a q Hin. destruct (Hd a q ltac:(by right)) as [x Hx]. rewrite Hx. by apply Hmono.
Qed.
Lemma copied_zip d d' l ps : copied d d' l ps ->
  (forall off pg, (off, pg) ∈ l -> exists pg', (off, pg') ∈ zip l.*1 ps /\ d' !! pg' = d !! pg) /\
  (forall off pg', (off, pg') ∈ zip l.*1 ps -> exists pg, (off, pg) ∈ l).
Proof.
  intros H. induction H as [|[off pg] q l ps E H [IH1 IH2]]; cbn.
  { split; intros a r Hin; by apply not_elem_of_nil in Hin. }
  split; intros a r; rewrite elem_of_cons.
  - intros [[= -> ->]|Hin]; [exists q; split; [by left|done]|]. destruct (IH1 a r Hin) as (pg' & H1 & H2). exists pg'. split; [by right|done].
  - intros [[= -> ->]|Hin]; [exists pg; by left|]. destruct (IH2 a r Hin) as [pg' ?]. exists pg'. by right.
Qed.

Lemma vinv_pager ext dead v i o t :
  vinv ext dead v -> objs v !! i = Some o -> vinv ext dead (set_obj i (Object (vo_pages o) (vo_npages o) t (vo_refs o)) v).
Proof.
  intros I Hi. destruct (vi_obj _ _ _ I i o Hi) as (_ & [O1 O2 O3] & O4 & O5). apply (vinv_obj ext ext dead v (mach v) i o); try done.
  - apply (vi_hw _ _ _ I).
  - intros j ob off pg Hj _ Hin. destruct (vi_obj _ _ _ I j ob Hj) as (_ & [_ _ H] & _). by apply (H off).
  - apply (vi_ext _ _ _ I).
  - intros off off' pg H H'. by apply (vi_page _ _ _ I i i o o off off' pg).
  - intros j ob off off' pg Hj Hne H H'. apply Hne. symmetry. by apply (vi_page _ _ _ I i j o ob off off' pg).
Qed.

Lemma object_clone_spec ext dead v i o :
  vinv ext dead v -> objs v !! i = Some o -> ext (fresh v) = 0 ->
  runs (vm_object_clone v i) (fun r => r.1 = fresh v /\ vinv (bump ext (fresh v) 1) dead r.2 /\ maps r.2 = maps v /\
    fresh r.2 = fresh v + 1 /\ v_maps (view (mach r.2)) = v_maps (view (mach v)) /\ v_pmaps (view (mach r.2)) = v_pmaps (view (mach v)) /\
    grows v r.2 /\ objs v !! fresh v = None /\ is_Some (objs r.2 !! fresh v) /\
    forall off, content r.2 (fresh v) off = content v i off).
Proof.
  intros I Hi Hext. destruct (vi_obj _ _ _ I i o Hi) as (Hlt & [O1 O2 O3] & _). unfold vm_object_clone.
  destruct (vm_object_alloc v VM_DUMMY) as [new v1] eqn:Ealloc.
  destruct (object_alloc_spec ext dead v VM_DUMMY new v1 I Ealloc) as (Ei & E1 & Hnone & Hr & I1); [by injection Ealloc as <- _|].
  clear Ealloc. subst new v1. unfold get_obj. cbn [objs]. rewrite (lookup_insert_ne _ (fresh v) i) by lia. rewrite Hi. cbn [mbind outcome_bind].
  rewrite lookup_insert_eq. cbn [mbind outcome_bind].
  pose proof (vinv_pager _ _ _ (fresh v) (Object [] 0 VM_DUMMY 1) (vo_pager o) I1 ltac:(cbn; by rewrite lookup_insert_eq)) as I2.
  unfold set_obj in *. cbn [vo_pages vo_npages vo_refs mach objs maps fresh] in *. rewrite insert_insert_eq in I2 |- *. clear I1.
  set (v2 := Vm _ _ _ (fresh v + 1)) in *.
  eapply runs_bind; [apply (clone_pages_spec _ dead (fresh v) (vo_pages o) v2 [] (Object [] 0 (vo_pager o) 1) I2); try done|].
  - cbn. by rewrite lookup_insert_eq.
  - intros off pg Hin. by apply not_elem_of_nil in Hin.
  - intros v' (I' & Em & Ef & Ev & Epm & Hm' & on' & ps & Eo & Ep & Er & HP & Hc). apply runs_ok. cbn [fst snd v2 mach objs maps fresh vo_pages app] in *.
    rewrite insert_insert_eq in Eo. split_and!; try done.
    + intros j oj Hj. exists oj. rewrite Eo, lookup_insert_ne by congruence. split_and!; try done. intros off pg Hin.
      destruct (vi_obj _ _ _ I j oj Hj) as (_ & [_ _ H] & _). destruct (H off pg Hin) as [x Hx]. rewrite Hx. by apply Hm'.
    + by rewrite Eo, lookup_insert_eq.
    + intros off. unfold content. rewrite Eo, lookup_insert_eq, Hi. destruct (copied_zip _ _ _ _ Hc) as [C1 C2].
      destruct (vi_obj _ _ _ I' (fresh v) on') as (_ & [P1 _ _] & _); [by rewrite Eo, lookup_insert_eq|].
      destruct (find_page (vo_pages o) off) as [pg|] eqn:Efp.
      * apply (find_page_spec _ _ _ 0 O1) in Efp. destruct (C1 off pg Efp) as (pg' & Hin & Ed).
        assert (find_page (vo_pages on') off = Some pg') as -> by (apply (find_page_spec _ _ _ 0 P1); by rewrite HP). done.
      * destruct (find_page (vo_pages on') off) as [pg'|] eqn:Efp'; [|done]. exfalso. apply (find_page_spec _ _ _ 0 P1) in Efp'.
        rewrite HP in Efp'. destruct (C2 off pg' Efp') as [pg Hin]. by apply (find_page_none _ _ Efp pg).
Qed.
Definition no_ext : Z -> Z := fun _ => 0.

Lemma grows_refs v i o n : objs v !! i = Some o -> grows v (set_obj i (set_refs n o) v).
Proof.
  intros Hi j oj Hj. cbn [objs set_obj mach]. destruct (decide (j = i)) as [->|Hne].
  - rewrite lookup_insert_eq. assert (oj = o) as -> by congruence. by exists (set_refs n o).
  - rewrite lookup_insert_ne by done. by exists oj.
Qed.

Lemma content_pages ext dead v i : vinv ext dead v -> is_Some (objs v !! i) -> exists o, objs v !! i = Some o /\ pages_ok 0 (vo_pages o).
Proof. intros I [o Ho]. destruct (vi_obj _ _ _ I i o Ho) as (_ & [O _ _] & _). eauto. Qed.

(** The entry [ent] of a clone, in [v'], for the entry [it] of the parent, in [v]. *)
Record copy_of v v' (it ent : vm_map_entry) : Prop := {
  cp_range : start ent = start it /\ end_ ent = end_ it;
  cp_rest : offset ent = offset it /\ prot ent = prot it /\ flags ent = flags it;
  cp_live : is_Some (objs v' !! object ent);
  cp_obj : if flag_on (flags it) VM_ENT_SHARED then object ent = object it
           else objs v !! object ent = None /\ forall off, content v' (object ent) off = content v (object it) off;
}.

Lemma copy_of_grows ext dead v0 v v' it ent : vinv ext dead v -> grows v v' -> copy_of v0 v it ent -> copy_of v0 v' it ent.
Proof.
  intros I G [C1 C2 C3 C4]. destruct (content_pages _ _ _ _ I C3) as (o & Ho & Hp). split; try done.
  - destruct (G _ _ Ho) as (o' & -> & _). by eexists.
  - destruct (flag_on _ _); [done|]. destruct C4 as [C4 C5]. split; [done|]. intros off. by rewrite (grows_content v v' _ o off).
Qed.

Lemma clone_object_spec dead v it :
  vinv no_ext dead v -> is_Some (objs v !! object it) ->
  runs (if flag_on (flags it) VM_ENT_SHARED then v ← vm_object_hold v (object it); Ok (object it, v) else vm_object_clone v (object it))
    (fun r => vinv (bump no_ext r.1 1) dead r.2 /\ maps r.2 = maps v /\ fresh v <= fresh r.2 /\
      v_maps (view (mach r.2)) = v_maps (view (mach v)) /\ v_pmaps (view (mach r.2)) = v_pmaps (view (mach v)) /\ grows v r.2 /\
      is_Some (objs r.2 !! r.1) /\
      if flag_on (flags it) VM_ENT_SHARED then r.1 = object it
      else objs v !! r.1 = None /\ forall off, content r.2 r.1 off = content v (object it) off).
Proof.
  intros I [o Ho]. destruct (flag_on (flags it) VM_ENT_SHARED).
  - eapply runs_bind; [apply (object_hold_spec no_ext dead v (object it) o I Ho)|]. intros v' [-> I']. apply runs_ok. cbn [fst snd].
    split_and!; try done; [by apply grows_refs|]. cbn. by rewrite lookup_insert_eq.
  - eapply runs_mono; [by apply (object_clone_spec no_ext dead v (object it) o I Ho)|].
    intros [i v']. cbn [fst snd]. intros (-> & I' & R). destruct R as (R1 & R2 & R3 & R4 & R5 & R6 & R7 & R8). split_and!; try done. lia.
Qed.

Lemma clone_append dead v new mn ent (mid : Z) :
  vinv (bump no_ext (object ent) 1) dead v -> maps v !! new = Some mn -> ents_ok (vm_map_start mn) mid (entries mn) ->
  mid <= start ent -> start ent < end_ ent -> end_ ent <= vm_map_end mn -> ent_ok ent -> eid ent < fresh v ->
  (forall x, x ∈ entries mn -> eid x <> eid ent) -> is_Some (objs v !! object ent) -> pmap mn <> pmap_kernel ->
  vinv no_ext dead (set_map new (set_entries (entries mn ++ [ent]) (nentries mn + 1) mn) v).
Proof.
  intros I Hm He H1 H2 H3 Hok Hid Hfr Ho Hk. destruct (vinv_ents _ _ _ _ _ I Hm) as [M Hids].
  refine (vinv_entries _ no_ext dead v new mn _ I Hm _ _ _ _ (fun _ => Z.le_refl 0) _); try done.
  - apply map_ok_insert; try done; [by rewrite app_nil_r|]. clear -He H1. revert He. generalize (vm_map_start mn).
    induction (entries mn) as [|x l IH]; intros lo; cbn; [lia|]. intros (? & ? & ?). split_and!; auto.
  - intros x. cbn [entries set_entries]. intros [Hx| ->%list_elem_of_singleton]%elem_of_app; [by apply Hids|done].
  - intros i. cbn [entries set_entries]. rewrite cnt_app, cnt_cons. unfold bump, no_ext. change (cnt i []) with 0.
    repeat case_decide; try lia; congruence.
  - intros va x Hx Hc _. exists x. split_and!; try done. cbn. set_solver.
Qed.
Lemma ents_grow l : forall lo hi hi', ents_ok lo hi l -> hi <= hi' -> ents_ok lo hi' l.
Proof. induction l as [|x l IH]; intros lo hi hi'; cbn; [lia|]. intros (? & ? & ?) ?. split_and!; try done. by apply (IH _ hi). Qed.

Lemma ents_snoc l e : forall lo mid, ents_ok lo mid l -> mid <= start e -> start e < end_ e -> ents_ok lo (end_ e) (l ++ [e]).
Proof. intros lo mid H1 H2 H3. apply ents_app. exists mid. split; [done|]. cbn. lia. Qed.

Lemma vm_map_end_pmap m m' : pmap m = pmap m' -> vm_map_end m = vm_map_end m'.
Proof. unfold vm_map_end. by intros ->. Qed.

(** What the loop over the entries of the parent keeps: [seen] has been copied. *)
Record cloning v0 v new mn (seen : list vm_map_entry) (mid : Z) : Prop := {
  cl_inv : vinv no_ext None v;
  cl_map : maps v !! new = Some mn;
  cl_ents : ents_ok (vm_map_start mn) mid (entries mn);
  cl_grows : grows v0 v;
  cl_copies : Forall2 (copy_of v0 v) seen (entries mn);
  cl_user : pmap mn <> pmap_kernel;
}.

Lemma clone_step_spec v0 v new mn seen (mid : Z) it :
  vinv no_ext None v0 -> cloning v0 v new mn seen mid -> ent_ok it -> is_Some (objs v0 !! object it) ->
  mid <= start it -> start it < end_ it -> end_ it <= vm_map_end mn ->
  runs (clone_entry v new it)
    (fun v' => exists mn', cloning v0 v' new mn' (seen ++ [it]) (end_ it) /\ pmap mn' = pmap mn /\ maps v' = <[new := mn']> (maps v) /\
      v_maps (view (mach v')) = v_maps (view (mach v)) /\ v_pmaps (view (mach v')) = v_pmaps (view (mach v))).
Proof.
  intros I0 [C1 C2 C3 C4 C5 C6] Hok Ho H1 H2 H3. destruct (content_pages _ _ _ _ I0 Ho) as (o & Hio & Hp).
  destruct (C4 _ _ Hio) as (o' & Ho' & _). unfold clone_entry. eapply runs_bind; [apply (clone_object_spec None v it C1); by eexists|].
  intros [obj v1]. cbn [fst snd]. intros (I1 & Em & Hf & E1 & E2 & G & Hl & R). unfold vm_map_entry_alloc.
  destruct Hok as [K1 K2 K3 K4 K5]. rewrite K1, K2. cbn [andb assert mbind outcome_bind]. unfold get_map. cbn [maps].
  assert (maps v1 !! new = Some mn) as Hn by congruence. rewrite Hn. cbn [mbind outcome_bind]. apply runs_ok.
  set (ent := set_offset _ _). set (v2 := Vm (mach v1) (objs v1) (maps v1) (fresh v1 + 1)).
  assert (grows v v2) as G2 by done. exists (set_entries (entries mn ++ [ent]) (nentries mn + 1) mn).
  split_and!; try done; [|by cbn; rewrite Em]. split.
  - apply (clone_append None v2 new mn ent mid); try done; [apply vinv_fresh; [done|lia]|cbn; lia|].
    intros x Hx. destruct (vinv_ents _ _ _ _ _ C1 C2) as [_ Hids]. destruct (Hids x Hx) as [Hlt _]. subst ent. cbn. lia.
  - cbn. by rewrite lookup_insert_eq.
  - cbn [entries set_entries]. by apply (ents_snoc _ ent _ mid).
  - by apply (grows_trans _ v).
  - cbn [entries set_entries]. apply Forall2_app; [|constructor; [|done]].
    + eapply Forall2_impl; [apply C5|]. intros x y. by apply (copy_of_grows no_ext None v0 v).
    + split; try done. cbn [ent object flags]. destruct (flag_on (flags it) VM_ENT_SHARED); [done|]. destruct R as [R1 R2]. split.
      * destruct (objs v0 !! obj) as [ob|] eqn:E; [|done]. destruct (C4 _ _ E) as (ob' & E' & _). congruence.
      * intros off. transitivity (content v1 obj off); [done|]. rewrite R2. by rewrite (grows_content v0 v _ o off).
  - done.
Qed.

Lemma clone_entries_spec v0 new l : forall v mn seen (mid : Z),
  vinv no_ext None v0 -> cloning v0 v new mn seen mid -> (forall e, e ∈ l -> ent_ok e /\ is_Some (objs v0 !! object e)) ->
  ents_ok mid (vm_map_end mn) l ->
  runs (clone_entries v new l) (fun v' => exists mn', cloning v0 v' new mn' (seen ++ l) (vm_map_end mn) /\ pmap mn' = pmap mn /\
    maps v' = <[new := mn']> (maps v) /\
    v_maps (view (mach v')) = v_maps (view (mach v)) /\ v_pmaps (view (mach v')) = v_pmaps (view (mach v))).
Proof.
  induction l as [|it l IH]; intros v mn seen mid I0 C Hl He; cbn [clone_entries].
  - apply runs_ok. exists mn. rewrite app_nil_r, insert_id by apply (cl_map _ _ _ _ _ _ C). split_and!; try done.
    destruct C as [C1 C2 C3 C4 C5 C6]. split; try done. by apply (ents_grow _ _ mid).
  - destruct He as (H1 & H2 & H3). destruct (Hl it ltac:(by left)) as [Hok Ho]. pose proof (ents_le _ _ _ H3) as Hle.
    eapply runs_bind; [by apply (clone_step_spec v0 v new mn seen mid it)|]. intros v' (mn' & C' & Ep & Em & E1 & E2).
    eapply runs_mono; [apply (IH v' mn' (seen ++ [it]) (end_ it) I0 C')|].
    + intros e Hin. apply Hl. by right.
    + by rewrite (vm_map_end_pmap mn' mn Ep).
    + intros v'' (mn'' & C'' & Ep' & Em' & E1' & E2'). exists mn''. rewrite <- app_assoc in C''. cbn [app] in C''.
      rewrite (vm_map_end_pmap mn' mn Ep) in C''. split_and!; [done|congruence| |congruence..]. by rewrite Em', Em, insert_insert_eq.
Qed.
Lemma no_map ext dead v : vinv ext dead v -> maps v !! fresh v = None.
Proof. intros I. destruct (maps v !! fresh v) as [m|] eqn:E; [|done]. destruct (vi_map _ _ _ I _ _ E) as (_ & ? & _). lia. Qed.

Lemma map_ok_empty pm : map_ok (Map [] 0 pm).
Proof.
  split; try done; [|by intros e ?%not_elem_of_nil|constructor|by intros e ?%not_elem_of_nil]. cbn [ents_ok entries]. destruct (map_bounds (Map [] 0 pm)). lia.
Qed.

Lemma map_new_spec ext v :
  vinv ext None v ->
  runs (vm_map_new v) (fun r => exists pm, r.1 = fresh v /\ vinv ext None r.2 /\ pm <> pmap_kernel /\ pm ∉ v_pmaps (view (mach v)) /\
    (forall va, v_maps (view (mach v)) !! (pm, va) = None) /\
    maps r.2 = <[fresh v := Map [] 0 pm]> (maps v) /\ objs r.2 = objs v /\
    view (mach r.2) = HView (v_data (view (mach v))) ({[pm]} ∪ v_pmaps (view (mach v))) (v_maps (view (mach v)))).
Proof.
  intros I. pose proof (no_map _ _ _ I) as Hn. pose proof I as [I1 I2 I3 I4 I5 I6 I7 I8]. unfold vm_map_new.
  destruct (new_law (mach v) I1) as [[E|E]|(pm & h & E & Hh & Hk & Hp & Hno & V)]; rewrite E; [by left; left|by left; right|].
  apply runs_ok. exists pm. split_and!; try done. split; cbn [mach objs maps fresh fst snd]; try done; rewrite ?V; cbn [v_data v_pmaps v_maps].
  - intros i m. rewrite lookup_insert_Some. intros [[<- <-]|[Hne H]].
    + split_and!; [apply map_ok_empty|lia|by intros e ?%not_elem_of_nil].
    + destruct (I2 i m H) as (? & ? & H3). split_and!; [done|lia|]. intros e He. destruct (H3 e He). split; [lia|done].
  - intros i m. rewrite lookup_insert_Some. intros [[<- <-]|[Hne H]] Hd; [set_solver|]. pose proof (I3 i m H Hd). set_solver.
  - intros i j m m'. rewrite !lookup_insert_Some. intros [[<- <-]|[Hne H]] [[<- <-]|[Hne' H']] E'; try done.
    + exfalso. apply Hp. cbn in E'. rewrite E'. by apply (I3 j).
    + exfalso. apply Hp. cbn in E'. rewrite <- E'. by apply (I3 i).
    + by apply (I4 i j m m').
  - intros i o H. destruct (I5 i o H) as (? & ? & ? & ?). split_and!; try done; try lia. by rewrite refs_new.
  - intros pm' va pg pr H. destruct (I8 pm' va pg pr H) as (i & m & e & o & J1 & J). exists i, m, e, o.
    rewrite lookup_insert_ne by congruence. done.
Qed.

(** What an address stands for in a clone, in [v'], and in its parent, in [v]. *)
Definition copied_addr v v' (t t' : option (Z * Z * Z * Z)) : Prop :=
  match t, t' with
  | None, None => True
  | Some (i, off, pr, fl), Some (i', off', pr', fl') => off' = off /\ pr' = pr /\ fl' = fl /\
      if flag_on fl VM_ENT_SHARED then i' = i
      else objs v !! i' = None /\ forall a, content v' i' a = content v i a
  | _, _ => False
  end.

Lemma copies_trans v v' l l' va : Forall2 (copy_of v v') l l' -> copied_addr v v' (trans l va) (trans l' va).
Proof.
  unfold trans. induction 1 as [|e e' l l' [[Es Ee] [Eo [Ep Ef]] _ Eob] _ IH]; [done|]. cbn [find_addr]. rewrite Es, Ee.
  destruct ((start e <=? va) && (va <? end_ e)); [|done]. cbn. rewrite Eo, Ep, Ef, Es. by split_and!.
Qed.

Lemma map_clone_spec v mi m :
  vm_inv v -> maps v !! mi = Some m -> pmap m <> pmap_kernel ->
  runs (vm_map_clone v mi) (fun r => exists m', vm_inv r.2 /\ maps v !! r.1 = None /\ maps r.2 = <[r.1 := m']> (maps v) /\
    Forall2 (copy_of v r.2) (entries m) (entries m') /\ grows v r.2 /\
    v_maps (view (mach r.2)) = v_maps (view (mach v)) /\ forall va, v_maps (view (mach v)) !! (pmap m', va) = None).
Proof.
  intros I Hm Hk. unfold vm_map_clone. eapply runs_bind; [by apply (map_new_spec no_ext)|]. intros [new v1]. cbn [fst snd].
  intros (pm & -> & I1 & Hpm & _ & Hno & Em & Eo & V). unfold get_map. rewrite Em, lookup_insert_ne, Hm
    by (intros E; pose proof (no_map _ _ _ I); congruence). cbn [mbind outcome_bind].
  destruct (vinv_ents _ _ _ _ _ I Hm) as [M Hids].
  assert (vm_map_end (Map [] 0 pm) = vm_map_end m /\ vm_map_start (Map [] 0 pm) = vm_map_start m) as [B1 B2].
  { unfold vm_map_end, vm_map_start. cbn [pmap]. by rewrite !(proj2 (Z.eqb_neq _ _)) by done. }
  assert (grows v v1) as G. { intros i o Hi. exists o. rewrite Eo, V. by split_and!. }
  eapply runs_bind; [apply (clone_entries_spec v (fresh v) (entries m) v1 (Map [] 0 pm) [] (vm_map_start m) I)|].
  - split; try done; [by rewrite Em, lookup_insert_eq|cbn; lia].
  - intros e He. split; [by apply (mo_each _ M)|by apply Hids].
  - rewrite B1. apply (mo_ents _ M).
  - intros v' (m' & [C1 C2 C3 C4 C5 C6] & Ep & Em' & E1 & E2). apply runs_ok. exists m'. cbn [fst snd]. rewrite V in E1. split_and!; try done.
    + apply (no_map _ _ _ I).
    + by rewrite Em', Em, insert_insert_eq.
    + rewrite Ep. done.
Qed.

(** C12: A clone of the address space of a process is a new address space with an empty page
    table, in which every address has the offset, protection and sharing that it has in
    the parent.  A shared address stands for the same object, a private one for a new
    object with the same contents.  The parent, all other address spaces, all page tables
    and the contents of all existing objects are unchanged. *)
Theorem vm_map_clone_correct v mi m :
  vm_inv v -> maps v !! mi = Some m -> pmap m <> pmap_kernel ->
  runs (vm_map_clone v mi) (fun r => exists m', vm_inv r.2 /\ maps v !! r.1 = None /\ maps r.2 = <[r.1 := m']> (maps v) /\
    (forall va, copied_addr v r.2 (trans (entries m) va) (trans (entries m') va)) /\ grows v r.2 /\
    v_maps (view (mach r.2)) = v_maps (view (mach v)) /\ forall va, v_maps (view (mach v)) !! (pmap m', va) = None).
Proof.
  intros I Hm Hk. eapply runs_mono; [by apply map_clone_spec|]. intros [new v'] (m' & H1 & H2 & H3 & H4 & H5 & H6 & H7). exists m'. split_and!; try done.
  intros va. by apply copies_trans.
Qed.

(** ** Deletion *)

Lemma vinv_pmap_gone ext v mi m h :
  vinv ext None v -> maps v !! mi = Some m -> hw_ok h ->
  view h = HView (v_data (view (mach v))) (v_pmaps (view (mach v)) ∖ {[pmap m]}) (filter (fun x => x.1.1 <> pmap m) (v_maps (view (mach v)))) ->
  vinv ext (Some mi) (set_mach h v).
Proof.
  intros [I1 I2 I3 I4 I5 I6 I7 I8] Hm Hh V. split; cbn [set_mach mach objs maps fresh]; rewrite ?V; try done; cbn [v_data v_pmaps v_maps].
  - intros i m' H Hne. apply elem_of_difference. split; [by apply (I3 i)|]. intros E%elem_of_singleton. apply Hne. f_equal.
    symmetry. by apply (I4 i mi m' m).
  - intros pm va pg pr [H _]%map_lookup_filter_Some. by apply I8.
Qed.

Lemma destroy_all_spec ext dead mi l : forall v m,
  vinv ext dead v -> maps v !! mi = Some m -> entries m = l -> (forall va, v_maps (view (mach v)) !! (pmap m, va) = None) ->
  exists v' m', destroy_all v mi l = Ok v' /\ vinv ext dead v' /\ maps v' = <[mi := m']> (maps v) /\ entries m' = [] /\ pmap m' = pmap m /\
    v_maps (view (mach v')) = v_maps (view (mach v)) /\ v_pmaps (view (mach v')) = v_pmaps (view (mach v)) /\ frame v v'.
Proof.
  induction l as [|e l IH]; intros v m I Hm El Hno; cbn [destroy_all].
  - exists v, m. rewrite insert_id by done. split_and!; try done. apply frame_refl.
  - destruct (destroy_spec ext dead v mi m [] e l I Hm El (fun va _ => Hno va)) as (v1 & -> & I1 & _ & Em & E1 & E2 & F).
    cbn [mbind outcome_bind app] in *. set (m1 := set_entries _ _ m) in Em.
    destruct (IH v1 m1 I1) as (v2 & m2 & -> & I2 & Em2 & Hn & Hp & D1 & D2 & F2); [by rewrite Em, lookup_insert_eq|done|by rewrite E1|].
    exists v2, m2. split_and!; try done; [by rewrite Em2, Em, insert_insert_eq|congruence..|by apply (frame_trans v v1)].
Qed.

Lemma vinv_del_map ext v mi m :
  vinv ext (Some mi) v -> maps v !! mi = Some m -> entries m = [] ->
  vinv ext None (Vm (mach v) (objs v) (delete mi (maps v)) (fresh v)).
Proof.
  intros [I1 I2 I3 I4 I5 I6 I7 I8] Hm El. split; cbn [mach objs maps fresh]; try done.
  - intros i m'. rewrite lookup_delete_Some. intros [_ H]. by apply I2.
  - intros i m'. rewrite lookup_delete_Some. intros [Hne H] _. apply (I3 i m' H). congruence.
  - intros i j m1 m2. rewrite !lookup_delete_Some. intros [_ H1] [_ H2]. by apply I4.
  - intros i o H. destruct (I5 i o H) as (? & ? & ? & ?). split_and!; try done; try lia. rewrite (refs_delete _ mi m) in * by done.
    rewrite El in *. change (cnt i []) with 0 in *. lia.
  - intros pm va pg pr H. destruct (I8 pm va pg pr H) as (i & m' & e & o & J1 & J2 & J3 & J). exists i, m', e, o.
    rewrite lookup_delete_ne; [done|]. intros <-. assert (m' = m) as -> by congruence. rewrite El in J3. by apply not_elem_of_nil in J3.
Qed.

Lemma map_delete_spec v mi m :
  vm_inv v -> maps v !! mi = Some m -> pmap m <> pmap_kernel ->
  exists v', vm_map_delete v mi = Ok v' /\ vm_inv v' /\ maps v' = delete mi (maps v) /\ frame v v' /\
    v_pmaps (view (mach v')) = v_pmaps (view (mach v)) ∖ {[pmap m]} /\
    v_maps (view (mach v')) = filter (fun x => x.1.1 <> pmap m) (v_maps (view (mach v))).
Proof.
  intros I Hm Hk. unfold vm_map_delete, get_map. rewrite Hm. cbn [mbind outcome_bind].
  destruct (delete_law (mach v) (pmap m) (vi_hw _ _ _ I)) as (h & -> & Hh & V); [by apply (vi_live _ _ _ I mi)|done|].
  cbn [mbind outcome_bind]. pose proof (vinv_pmap_gone _ v mi m h I Hm Hh V) as I1.
  destruct (destroy_all_spec _ _ mi (entries m) (set_mach h v) m I1 Hm eq_refl) as (v2 & m2 & -> & I2 & Em & Hn & Hp & D1 & D2 & F).
  { intros va. cbn [mach set_mach]. rewrite V. cbn. apply map_lookup_filter_None. right. intros x _ []. done. }
  cbn [mbind outcome_bind]. eexists. split; [done|]. split_and!.
  - apply (vinv_del_map _ v2 mi m2); try done. by rewrite Em, lookup_insert_eq.
  - cbn. by rewrite Em, delete_insert_eq.
  - apply (frame_trans v (set_mach h v)); [apply frame_same; [done|cbn; by rewrite V]|].
    apply (frame_trans _ v2); [done|by apply frame_same].
  - cbn [mach]. rewrite D2. cbn. by rewrite V.
  - cbn [mach]. rewrite D1. cbn. by rewrite V.
Qed.

(** C36: Deleting the address space of a process always succeeds.  It goes with its page table,
    all other address spaces and page tables stay, and so do the contents of the
    objects that other address spaces have, while all other objects go.  No page is lost:
    what is allocated afterwards is in an object or was in no object before. *)
Theorem vm_map_delete_correct v mi m :
  vm_inv v -> maps v !! mi = Some m -> pmap m <> pmap_kernel ->
  exists v', vm_map_delete v mi = Ok v' /\ vm_inv v' /\ maps v' = delete mi (maps v) /\ frame v v' /\
    (forall i, is_Some (objs v' !! i) -> exists j m' e, j <> mi /\ maps v !! j = Some m' /\ e ∈ entries m' /\ object e = i) /\
    v_pmaps (view (mach v')) = v_pmaps (view (mach v)) ∖ {[pmap m]} /\
    v_maps (view (mach v')) = filter (fun x => x.1.1 <> pmap m) (v_maps (view (mach v))).
Proof.
  intros I Hm Hk. destruct (map_delete_spec v mi m I Hm Hk) as (v' & E & I' & Em & F & D1 & D2). exists v'. split_and!; try done.
  intros i [o Ho]. destruct (vi_obj _ _ _ I' i o Ho) as (_ & _ & R1 & R2). rewrite Em in R1.
  destruct (refs_pos (delete mi (maps v)) i) as (j & m' & e & J1 & J2 & J3); [lia|].
  apply lookup_delete_Some in J1 as [? J1]. exists j, m', e. by split_and!.
Qed.

(** ** Resizing *)

Definition gap_end m (post : list vm_map_entry) : Z := match post with next :: _ => start next | [] => vm_map_end m end.

Lemma map_ok_resize m pre e post f :
  map_ok m -> entries m = pre ++ e :: post -> page_aligned_p f = true -> start e < f <= Z.max (end_ e) (gap_end m post) ->
  map_ok (set_entries (pre ++ set_end f e :: post) (nentries m) m).
Proof.
  intros [M1 M2 M3 M4 M5] El Ha Hf. rewrite El in *. split; cbn [entries nentries set_entries].
  - change (vm_map_start (set_entries _ _ m)) with (vm_map_start m). change (vm_map_end (set_entries _ _ m)) with (vm_map_end m).
    apply ents_app in M1 as (mid & J1 & J2 & J3 & J4). apply ents_app. exists mid. split; [done|]. cbn. split_and!; try done; [lia|].
    clear -Hf J4 HA. unfold gap_end in Hf. destruct post as [|x post]; cbn in *; [lia|]. destruct J4 as (? & ? & ?). split_and!; try done. lia.
  - intros x [Hx|[-> |Hx]%elem_of_cons]%elem_of_app; [apply M2; set_solver| |apply M2; set_solver].
    destruct (M2 e ltac:(set_solver)). by split.
  - rewrite fmap_app, fmap_cons in *. done.
  - rewrite M4, !length_app. done.
  - intros _ _. apply (M5 e). set_solver.
Qed.

Lemma vinv_resize ext dead v mi m pre e post f :
  vinv ext dead v -> maps v !! mi = Some m -> entries m = pre ++ e :: post -> page_aligned_p f = true ->
  start e < f <= Z.max (end_ e) (gap_end m post) -> (forall va, f <= va < end_ e -> v_maps (view (mach v)) !! (pmap m, va) = None) ->
  vinv ext dead (set_map mi (set_entries (pre ++ set_end f e :: post) (nentries m) m) v).
Proof.
  intros I Hm El Ha Hf Hno. destruct (vinv_ents _ _ _ _ _ I Hm) as [M Hids].
  refine (vinv_entries ext ext dead v mi m _ I Hm _ (map_ok_resize _ _ _ _ _ M El Ha Hf) _ _ (vi_ext _ _ _ I) _); [done|..]; rewrite El in *;
    cbn [entries set_entries].
  - intros x [Hx|[-> |Hx]%elem_of_cons]%elem_of_app; [apply Hids; set_solver|apply (Hids e); set_solver|apply Hids; set_solver].
  - intros i. rewrite !cnt_app, !cnt_cons. cbn [set_end object]. lia.
  - intros va x Hx Hc [y Hy]. apply elem_of_app in Hx as [Hx|[-> |Hx]%elem_of_cons]; [exists x; split_and!; try done; set_solver| |
      exists x; split_and!; try done; set_solver].
    exists (set_end f e). split_and!; try done; [set_solver|]. unfold covers in *. cbn. destruct (decide (va < f)); [lia|].
    rewrite Hno in Hy by lia. done.
Qed.

Lemma refs_one M k m e k' m' e' :
  refs M (object e) = 1 -> M !! k = Some m -> e ∈ entries m -> M !! k' = Some m' -> e' ∈ entries m' -> object e' = object e -> k' = k /\ e' = e.
Proof.
  intros Hr Hk He Hk' He' Eo. pose proof (refs_delete M k m (object e) Hk) as Hd. pose proof (cnt_in e _ He). pose proof (refs_nonneg (delete k M) (object e)).
  destruct (decide (k' = k)) as [->|Hne].
  - split; [done|]. assert (m' = m) as -> by congruence. assert (cnt (object e) (entries m) = 1) as Hc by lia. unfold cnt in Hc.
    assert (e ∈ filter (fun x => object x = object e) (entries m)) as H1 by (by apply list_elem_of_filter).
    assert (e' ∈ filter (fun x => object x = object e) (entries m)) as H2 by (by apply list_elem_of_filter).
    destruct (filter _ (entries m)) as [|x [|y l]]; cbn in Hc; [lia| |lia]. apply list_elem_of_singleton in H1, H2. congruence.
  - exfalso. assert (delete k M !! k' = Some m') as H' by (by rewrite lookup_delete_ne). pose proof (refs_in _ _ _ _ H' He') as Hp. rewrite Eo in Hp. lia.
Qed.

Lemma find_page_filter off len l a : pages_ok 0 l ->
  find_page (filter (fun x => ~ within off len x) l) a = if decide (off <= a < off + len) then None else find_page l a.
Proof.
  intros H. apply option_eq. intros pg. rewrite (find_page_spec _ a pg 0 (pages_filter _ l 0 H)), list_elem_of_filter. unfold within. cbn [fst].
  case_decide; [naive_solver|]. rewrite (find_page_spec l a pg 0 H). naive_solver.
Qed.

(** The pages of the object [i] in a range of offsets go, with the machine [h]. *)
Section remove.
Context (ext : Z -> Z) (dead : option Z) (v : vm) (i : Z) (o : vm_object) (off len n : Z) (h : hw).
Hypothesis I : vinv ext dead v.
Hypothesis Hi : objs v !! i = Some o.
Hypothesis Hkept : forall pg, (forall a, (a, pg) ∈ vo_pages o -> ~ off <= a < off + len) -> v_data (view h) !! pg = v_data (view (mach v)) !! pg.
Hypothesis Hgone : forall a pg, (a, pg) ∈ vo_pages o -> off <= a < off + len -> v_data (view h) !! pg = None.

Let l := filter (fun x => ~ within off len x) (vo_pages o).
Let v' := set_obj i (set_pages l n o) (set_mach h v).

Lemma removed_kept a pg : (a, pg) ∈ l -> (a, pg) ∈ vo_pages o /\ v_data (view h) !! pg = v_data (view (mach v)) !! pg.
Proof.
  intros [Hn Hin]%list_elem_of_filter. split; [done|]. apply Hkept. intros a' Ha'.
  by destruct (vi_page _ _ _ I i i o o a' a pg Hi Hi Ha' Hin) as [_ ->].
Qed.

Lemma removed_other j ob a pg : objs v !! j = Some ob -> j <> i -> (a, pg) ∈ vo_pages ob -> v_data (view h) !! pg = v_data (view (mach v)) !! pg.
Proof. intros Hj Hne Hin. apply Hkept. intros a' Ha'. exfalso. apply Hne. by apply (vi_page _ _ _ I j i ob o a a' pg). Qed.

Lemma removed_content j a : content v' j a = if decide (j = i /\ off <= a < off + len) then None else content v j a.
Proof.
  unfold content. cbn [objs set_obj set_mach mach v']. destruct (decide (j = i)) as [->|Hne].
  - destruct (vi_obj _ _ _ I _ _ Hi) as (_ & [O1 _ _] & _). rewrite lookup_insert_eq, Hi. cbn [vo_pages set_pages]. unfold l.
    rewrite find_page_filter by done. destruct (decide (off <= a < off + len)); [rewrite decide_True by done; done|rewrite decide_False by naive_solver].
    destruct (find_page (vo_pages o) a) as [pg|] eqn:E; [|done]. apply (find_page_spec _ _ _ 0 O1) in E. apply (removed_kept a).
    apply list_elem_of_filter. done.
  - rewrite lookup_insert_ne, (decide_False (P := j = i /\ _)) by naive_solver. destruct (objs v !! j) as [ob|] eqn:Hj; [|done].
    destruct (find_page (vo_pages ob) a) as [pg|] eqn:E; [|done]. destruct (vi_obj _ _ _ I _ _ Hj) as (_ & [Oi _ _] & _).
    apply (find_page_spec _ _ _ 0 Oi) in E. by apply (removed_other j ob a).
Qed.

Lemma removed_stray pg : stray v' pg -> stray v pg.
Proof.
  intros [[d H1] H2]. cbn [objs set_obj set_mach mach v'] in *.
  assert (forall a, (a, pg) ∉ vo_pages o) as Hno.
  { intros a Hin. destruct (decide (off <= a < off + len)) as [Hr|Hr]; [rewrite (Hgone a pg Hin Hr) in H1; done|].
    apply (H2 i (set_pages l n o) a); [by rewrite lookup_insert_eq|]. apply list_elem_of_filter. done. }
  split; [rewrite <- Hkept; [by eexists|]; intros a Ha; by apply Hno in Ha|]. intros j ob a Hj. destruct (decide (j = i)) as [->|Hne].
  - assert (ob = o) as -> by congruence. apply Hno.
  - apply (H2 j ob a). by rewrite lookup_insert_ne.
Qed.

Lemma removed_inv :
  hw_ok h -> v_pmaps (view h) = v_pmaps (view (mach v)) -> v_maps (view h) = v_maps (view (mach v)) -> n = Z.of_nat (length l) ->
  (forall a pg k pr, (a, pg) ∈ vo_pages o -> off <= a < off + len -> v_maps (view (mach v)) !! k <> Some (pg, pr)) -> vinv ext dead v'.
Proof.
  intros Hh E1 E2 Hn Hno. destruct (vi_obj _ _ _ I i o Hi) as (_ & [O1 O2 O3] & Hr & Hr').
  apply (vinv_obj ext ext dead v h i o); try done; cbn [vo_pages vo_refs set_pages].
  - intros j ob a pg Hj Hne Hin. destruct (vi_obj _ _ _ I j ob Hj) as (_ & [_ _ H] & _). rewrite (removed_other j ob a) by done. by apply (H a).
  - split; cbn [vo_pages vo_npages set_pages]; [by apply pages_filter|done|]. intros a pg [Hin ->]%removed_kept. by apply (O3 a).
  - apply (vi_ext _ _ _ I).
  - intros a a' pg [Ha _]%removed_kept [Ha' _]%removed_kept. by apply (vi_page _ _ _ I i i o o a a' pg).
  - intros j ob a a' pg Hj Hne [Ha _]%removed_kept Ha'. apply Hne. by apply (vi_page _ _ _ I j i ob o a' a pg).
  - intros a pg k pr Hin Hmap. apply list_elem_of_filter. split; [|done]. intros Hw'. by apply (Hno a pg k pr Hin Hw').
Qed.
End remove.

Definition cleared v v' (i off len : Z) : Prop :=
  (forall j a, content v' j a = if decide (j = i /\ off <= a < off + len) then None else content v j a) /\
  forall pg, stray v' pg -> stray v pg.

Lemma object_remove_spec ext dead v i o off len :
  vinv ext dead v -> objs v !! i = Some o -> page_aligned_p off = true -> page_aligned_p len = true -> 0 <= off -> 0 <= len -> off + len < 2 ^ word_bits ->
  (forall a pg k pr, (a, pg) ∈ vo_pages o -> off <= a < off + len -> v_maps (view (mach v)) !! k <> Some (pg, pr)) ->
  exists v', vm_object_remove_pages v i off len = Ok v' /\ vinv ext dead v' /\ maps v' = maps v /\
    v_maps (view (mach v')) = v_maps (view (mach v)) /\ cleared v v' i off len.
Proof.
  intros I Hi A1 A2 H0 Hl Hw Hno. destruct (vi_obj _ _ _ I i o Hi) as (_ & [O1 O2 O3] & Hr & Hr').
  unfold vm_object_remove_pages, get_obj. rewrite Hi. cbn [mbind outcome_bind]. rewrite A1, A2. cbn [andb assert mbind outcome_bind].
  destruct (remove_pages_spec off len (vo_pages o) (mach v) (vo_npages o) 0 (vi_hw _ _ _ I) O1) as (h & -> & Hh & E1 & E2 & E3 & E4);
    [apply wrap_small; unfold in_word; lia|done| |done|].
  { intros a a' pg Ha Ha'. by apply (vi_page _ _ _ I i i o o a a' pg). }
  cbn [mbind outcome_bind]. eexists. split; [done|]. split; [apply removed_inv; try done; lia|]. split_and!; try done. split.
  - intros j a. by apply (removed_content ext dead).
  - intros pg. by apply (removed_stray v).
Qed.

Lemma unmap_empty pm s f t : f <= s -> unmap pm s f t = t.
Proof. intros H. apply map_filter_id. intros k x _ [_ Hk]. lia. Qed.

Lemma shrink_pages_spec v mi m e f :
  vm_inv v -> maps v !! mi = Some m -> e ∈ entries m -> page_aligned_p f = true -> start e < f < end_ e ->
  offset e = 0 -> refs (maps v) (object e) = 1 ->
  exists v', (h ← pmap_remove (mach v) (pmap m) f (end_ e);
           vm_object_remove_pages (set_mach h v) (object e) (wrap (f - start e)) (wrap (end_ e - f))) = Ok v' /\
    vm_inv v' /\ maps v' = maps v /\ v_maps (view (mach v')) = unmap (pmap m) f (end_ e) (v_maps (view (mach v))) /\
    cleared v v' (object e) (f - start e) (end_ e - f).
Proof.
  intros I Hm He Ha Hf H0 Hr. destruct (vinv_ents _ _ _ _ _ I Hm) as [M Hids].
  destruct (mo_each _ M e He) as [E1 E2 E3 E4 E5]. destruct (ents_in _ e _ _ (mo_ents _ M) He) as (L1 & L2 & L3). destruct (map_bounds m) as (B1 & B2 & _).
  destruct (user_bounds m (mo_user _ M e He)) as [U1 U2].
  destruct (remove_law (mach v) (pmap m) f (end_ e) (vi_hw _ _ _ I)) as (h & -> & Hh & V); try done;
    [by apply (vi_live _ _ _ I mi)|by apply (mo_user _ M e)|lia..|].
  cbn [mbind outcome_bind]. rewrite !wrap_small by (unfold in_word; lia).
  assert (vm_inv (set_mach h v)) as I1. { apply vinv_mach; try done; rewrite V; try done. apply map_filter_subseteq. }
  destruct (Hids e He) as [_ [o Ho]]. apply aligned_mod in E1, E2, Ha.
  destruct (object_remove_spec _ _ _ (object e) o (f - start e) (end_ e - f) I1 Ho) as (v' & -> & I2 & Em & D1 & D2 & D3);
    [by apply aligned_mod; rewrite Zminus_mod, Ha, E1|by apply aligned_mod; rewrite Zminus_mod, E2, Ha|lia..| |].
  - intros a pg [pm va] pr Hin Hrng Hmap. destruct (vi_coh _ _ _ I1 pm va pg pr Hmap) as (mi' & m' & e' & ob & J1 & J2 & J3 & J4 & J5 & J6 & J7 & J8).
    destruct (vi_page _ _ _ I1 _ _ _ _ _ _ _ J6 Ho J7 Hin) as [Eob Eoff]. cbn [maps set_mach] in J1.
    destruct (refs_one (maps v) mi m e mi' m' e' Hr Hm He J1 J3 Eob) as [-> ->]. assert (m' = m) as -> by congruence.
    cbn [mach set_mach] in Hmap. rewrite V in Hmap. cbn in Hmap. apply map_lookup_filter_Some in Hmap as [_ Hmap]. apply Hmap. split; cbn; [done|lia].
  - exists v'. split_and!; try done; [by rewrite D1; cbn; rewrite V|]. split.
    + intros i a. rewrite D2. unfold content. cbn [objs set_mach mach]. by rewrite V.
    + intros pg Hs. destruct (D3 pg Hs) as [S1 S2]. cbn [set_mach mach] in S1. rewrite V in S1. done.
Qed.
Definition resize_map m pre e post f : vm_map := set_entries (pre ++ set_end f e :: post) (nentries m) m.

Lemma resize_spec v mi m pre e post f :
  vm_inv v -> maps v !! mi = Some m -> entries m = pre ++ e :: post -> page_aligned_p f = true -> start e < f ->
  offset e = 0 -> refs (maps v) (object e) = 1 ->
  (end_ e <= f /\ gap_end m post < f /\ vm_map_entry_resize v mi (eid e) f = Ok (ENOMEM, v)) \/
  f <= Z.max (end_ e) (gap_end m post) /\ exists v', vm_map_entry_resize v mi (eid e) f = Ok (0, v') /\ vm_inv v' /\
    maps v' = <[mi := resize_map m pre e post f]> (maps v) /\
    v_maps (view (mach v')) = unmap (pmap m) f (end_ e) (v_maps (view (mach v))) /\
    cleared v v' (object e) (f - start e) (end_ e - f).
Proof.
  intros I Hm El Ha Hs H0 Hr. destruct (vinv_ents _ _ _ _ _ I Hm) as [M _]. pose proof (mo_ids _ M) as Hnd. rewrite El in Hnd.
  unfold vm_map_entry_resize, get_map, get_ent. rewrite Hm. cbn [mbind outcome_bind]. rewrite El, (find_ent_mid _ _ _ Hnd).
  cbn [mbind outcome_bind]. rewrite Ha. cbn [assert mbind outcome_bind]. destruct (Z.leb_spec (start e) f); [|lia]. cbn [assert mbind outcome_bind].
  rewrite (next_ent_mid _ _ _ Hnd), (update_ent_mid _ _ _ Hnd).
  assert (match head post with Some next => start next | None => vm_map_end m end = gap_end m post) as -> by (by destruct post).
  destruct (Z.eqb_spec (start e) f); [lia|]. destruct (Z.leb_spec (end_ e) f) as [Hge|Hlt]; cbn [andb].
  - destruct (Z.ltb_spec (gap_end m post) f) as [Hg|Hg]; [by left|right]. split; [lia|]. cbn [mbind outcome_bind]. eexists. split; [done|].
    split; [apply (vinv_resize _ _ v mi m pre e post f); try done; lia|]. split; [done|]. rewrite unmap_empty by lia. split; [done|]. split; [|done].
    intros j a. rewrite decide_False by lia. done.
  - right. split; [lia|]. destruct (shrink_pages_spec v mi m e f I Hm) as (v' & E & I' & Em & Ev & Hc); try done; [rewrite El; set_solver|].
    rewrite E. cbn [mbind outcome_bind]. eexists. split; [done|]. split.
    + apply (vinv_resize _ _ v' mi m pre e post f); try done; [by rewrite Em|lia|]. intros va Hva. rewrite Ev.
      apply map_lookup_filter_None. right. intros x _ Hn. apply Hn. by split.
    + split; [cbn; by rewrite Em|]. done.
Qed.

(** The data segment: [e] is the only entry of its object, and ends at the page boundary
    after the break, with at least one page. *)
Record sbrk_ok v (p : sbrk) m pre e post : Prop := {
  sb_entry : p_sbrk p = Some (eid e);
  sb_map : maps v !! p_uspace p = Some m;
  sb_mid : entries m = pre ++ e :: post;
  sb_offset : offset e = 0;
  sb_refs : refs (maps v) (object e) = 1;
  sb_end : start e <= p_sbrk_end p /\ end_ e = Z.max (ceil_to (p_sbrk_end p) PAGESIZE) (start e + PAGESIZE);
}.

Lemma refs_resize (M : gmap Z vm_map) mi m pre e post f i : M !! mi = Some m -> entries m = pre ++ e :: post ->
  refs (<[mi := resize_map m pre e post f]> M) i = refs M i.
Proof.
  intros Hm El. rewrite (refs_insert _ _ m) by done. unfold resize_map. cbn [entries set_entries]. rewrite El, !cnt_app, !cnt_cons. cbn [set_end object]. lia.
Qed.

(** C37: For a process whose data segment is still mapped, with an object of its own from
    offset 0 on, and a new break that is not negative nor in the last page of all addresses, the break moves by the increment: the request is refused if the break would be before
    the data segment, or if the pages up to it do not fit before the next entry, and
    nothing changes.  Otherwise the old break is returned, the data segment ends at the
    first page boundary from the new break on, the pages behind it are unmapped and
    freed, all other contents are unchanged, and the segment is well formed again. *)
Theorem sbrk_resize_correct v p m pre e post inc brk f :
  vm_inv v -> sbrk_ok v p m pre e post -> brk = p_sbrk_end p + inc -> 0 <= brk -> brk + PAGESIZE <= 2 ^ word_bits ->
  f = Z.max (ceil_to brk PAGESIZE) (start e + PAGESIZE) ->
  (brk < start e /\ sbrk_resize v p inc = Ok (EINVAL, 0, p, v)) \/
  (start e <= brk /\ end_ e <= f /\ gap_end m post < f /\ sbrk_resize v p inc = Ok (ENOMEM, 0, p, v)) \/
  start e <= brk /\ f <= Z.max (end_ e) (gap_end m post) /\
    exists v' p', sbrk_resize v p inc = Ok (0, p_sbrk_end p, p', v') /\ p_sbrk_end p' = brk /\ vm_inv v' /\
      sbrk_ok v' p' (resize_map m pre e post f) pre (set_end f e) post /\
      maps v' = <[p_uspace p := resize_map m pre e post f]> (maps v) /\
      v_maps (view (mach v')) = unmap (pmap m) f (end_ e) (v_maps (view (mach v))) /\
      cleared v v' (object e) (f - start e) (end_ e - f).
Proof.
  intros I [S1 S2 S3 S4 S5 [S6 S7]] -> H0 Hw Hf. destruct (vinv_ents _ _ _ _ _ I S2) as [M _]. assert (e ∈ entries m) as He by (rewrite S3; set_solver).
  destruct (ents_in _ e _ _ (mo_ents _ M) He) as (L1 & L2 & L3). destruct (map_bounds m) as (B1 & B2 & _). destruct (mo_each _ M e He) as [E1 _ _ _ _].
  pose proof (mo_ids _ M) as Hnd. rewrite S3 in Hnd. unfold sbrk_resize, get_map, get_ent. rewrite S1, S2. cbn [mbind outcome_bind].
  rewrite S3, (find_ent_mid _ _ _ Hnd). cbn [mbind outcome_bind]. rewrite (wrap_small (p_sbrk_end p + inc)) by (unfold in_word, PAGESIZE in *; lia).
  destruct (Z.ltb_spec (p_sbrk_end p + inc) (start e)) as [Hlt|Hge]; [by left|right].
  destruct (ceil_to_spec (p_sbrk_end p + inc) PAGESIZE ltac:(done)) as [C1 C2]. rewrite (wrap_small (start e + PAGESIZE)) by (unfold in_word, PAGESIZE in *; lia).
  assert (align (p_sbrk_end p + inc) PAGESIZE = ceil_to (p_sbrk_end p + inc) PAGESIZE) as ->.
  { apply (align_spec _ 12); [done|unfold in_word, PAGESIZE in *; lia|change (2 ^ 12) with PAGESIZE; lia]. }
  rewrite <- Hf. assert (page_aligned_p f = true) as Hfa.
  { apply aligned_mod in E1. apply aligned_mod. rewrite Hf. destruct (Z.max_spec (ceil_to (p_sbrk_end p + inc) PAGESIZE) (start e + PAGESIZE)) as [[_ ->]|[_ ->]];
      [by rewrite Z.add_mod, E1 by done|done]. }
  assert (start e < f) as Hsf by (unfold PAGESIZE in *; lia).
  destruct (resize_spec v (p_uspace p) m pre e post f I S2 S3 Hfa Hsf S4 S5) as [(G1 & G2 & ->)|(G1 & v' & -> & I' & Em & Ev & Hc)]; [by left|right].
  cbn [mbind outcome_bind]. split_and!; [done..|]. eexists v', _. split; [done|]. split_and!; try done. split; cbn; try done.
  - by rewrite Em, lookup_insert_eq.
  - by rewrite Em, (refs_resize _ _ m).
Qed.
(** The first page of the data segment. *)
Lemma sbrk_attach_spec v p m :
  vm_inv v -> p_sbrk p = None -> maps v !! p_uspace p = Some m -> free_range (entries m) SBRK_START PAGESIZE ->
  vm_map_start m <= SBRK_START -> SBRK_START + PAGESIZE <= vm_map_end m -> vm_map_end m + PAGESIZE < 2 ^ word_bits -> pmap m <> pmap_kernel ->
  exists v' p' m' pre e post, sbrk_attach v p = Ok (p', v') /\ vm_inv v' /\ sbrk_ok v' p' m' pre e post /\
    p_uspace p' = p_uspace p /\ p_sbrk_end p' = SBRK_START /\ maps v' = <[p_uspace p := m']> (maps v).
Proof.
  intros I Hp Hm Hfr B1 B2 B3 Hk. destruct (vinv_ents _ _ _ _ _ I Hm) as [M Hids]. unfold sbrk_attach. rewrite Hp. cbn [bool_decide assert mbind outcome_bind].
  destruct (vm_object_alloc v VM_ANONYMOUS) as [i v1] eqn:Ealloc.
  destruct (object_alloc_spec _ _ v VM_ANONYMOUS i v1 I Ealloc eq_refl) as (Ei & E1 & Hnone & Hr & I1). clear Ealloc. subst v1.
  destruct (map_bounds m) as (_ & B4 & _). rewrite wrap_small by (unfold in_word, SBRK_START, PAGESIZE in *; lia).
  unfold vm_map_entry_alloc. change (page_aligned_p SBRK_START && page_aligned_p (SBRK_START + PAGESIZE)) with true. cbn [assert mbind outcome_bind].
  cbn [mach objs maps fresh]. set (e := Entry (fresh v + 1) i 0 _ VM_ENT_PRIVATE SBRK_START (SBRK_START + PAGESIZE)). set (v2 := Vm _ _ _ (fresh v + 1 + 1)).
  assert (vinv (bump (fun _ => 0) (object e) 1) None v2) as I2 by (apply (vinv_fresh _ _ _ (fresh v + 1 + 1)) in I1; [done|cbn; lia]).
  assert (forall x, x ∈ entries m -> eid x <> eid e) as Hid. { intros x Hx. destruct (Hids x Hx). cbn. lia. }
  destruct (insert_spec (fun _ => 0) None v2 (p_uspace p) m e PAGESIZE VM_FIXED I2 (fun _ => Z.le_refl 0) Hm) as [[_ Hno]|(a & m' & Hins)]; try done;
    [cbn; by rewrite lookup_insert_eq|cbn; lia|cbn; lia|..].
  - exfalso. cbn [start e] in Hno. destruct Hno as [Hno|[_ [Hno|Hno]]]; [|lia|done]. apply (Hno SBRK_START); [lia|done|done].
  - cbn zeta in Hins. destruct Hins as (-> & I3 & _ & _ & _ & _ & F5 & F6 & F7 & _). cbn [start e eid object] in *. specialize (F5 eq_refl) as ->.
    cbn [mbind outcome_bind]. change (negb (0 =? 0)) with false. cbn match. apply list_elem_of_split in F7 as (pre & post & El).
    eexists _, _, m', pre, _, post. split; [done|]. split; [done|]. split_and!; try done. split; try done.
    + cbn [maps set_map p_uspace]. by rewrite lookup_insert_eq.
    + cbn [maps set_map object]. destruct (vi_obj _ _ _ I3 i (Object [] 0 VM_ANONYMOUS 1)) as (_ & _ & R & _); [cbn; by rewrite lookup_insert_eq|].
      cbn [vo_refs maps set_map] in R. lia.
Qed.

(** ** Histories *)

(** What processes and the kernel ask for, by the address of the map. *)
Inductive vm_event :=
| EvNew
| EvMmap (mi addr length pr fl : Z)
| EvMunmap (mi s n : Z)
| EvFault (mi va ty : Z)
| EvClone (mi : Z)
| EvDelete (mi : Z).

(** Requests are made for existing address spaces; those of processes for their own. *)
Definition on_map v (mi : Z) (k : outcome vm) : outcome vm := match maps v !! mi with Some _ => k | None => Ok v end.
Definition on_user v (mi : Z) (k : outcome vm) : outcome vm :=
  match maps v !! mi with Some m => if pmap m =? pmap_kernel then Ok v else k | None => Ok v end.

Definition vm_do v (ev : vm_event) : outcome vm :=
  match ev with
  | EvNew => '(_, v) ← vm_map_new v; Ok v
  | EvMmap mi addr length pr fl => on_user v mi ('(_, _, v) ← do_mmap v mi addr length pr fl; Ok v)
  | EvMunmap mi s n => on_user v mi ('(_, v) ← do_munmap v mi s n; Ok v)
  | EvFault mi va ty => on_map v mi ('(_, v) ← vm_page_fault v mi va ty; Ok v)
  | EvClone mi => on_user v mi ('(_, v) ← vm_map_clone v mi; Ok v)
  | EvDelete mi => on_user v mi (vm_map_delete v mi)
  end.

Fixpoint vm_run v (l : list vm_event) : outcome vm :=
  match l with [] => Ok v | ev :: l => v ← vm_do v ev; vm_run v l end.

(** Sizes that do not wrap around, and protections that are a combination of the three. *)
Definition ev_ok (ev : vm_event) : Prop :=
  match ev with
  | EvMmap _ addr length pr _ => 0 <= addr /\ 0 <= length /\ length + PAGESIZE <= 2 ^ word_bits /\ 0 <= pr <= 7 /\
      addr + ceil_to length PAGESIZE < 2 ^ word_bits /\ USER_SPACE_END + ceil_to length PAGESIZE < 2 ^ word_bits
  | EvMunmap _ s n => 0 <= s /\ 0 <= n /\ s + n < 2 ^ word_bits
  | _ => True
  end.

(** The kernel's address space alone. *)
Definition vm_init (h : hw) : vm := Vm h ∅ {[0 := Map [] 0 pmap_kernel]} 1.

Lemma vm_init_inv h : hw_ok h -> pmap_kernel ∈ v_pmaps (view h) -> v_maps (view h) = ∅ -> vm_inv (vm_init h).
Proof.
  intros Hh Hk Hv. split; cbn; try done.
  - intros i m [<- <-]%lookup_singleton_Some. split_and!; [apply map_ok_empty|lia|by intros e ?%not_elem_of_nil].
  - intros i m [<- <-]%lookup_singleton_Some _. done.
  - intros i j m m' [<- <-]%lookup_singleton_Some [<- <-]%lookup_singleton_Some. done.
  - rewrite Hv. done.
Qed.

Lemma mmap_inv v mi m addr length pr fl :
  vm_inv v -> maps v !! mi = Some m -> pmap m <> pmap_kernel -> ev_ok (EvMmap mi addr length pr fl) ->
  runs (do_mmap v mi addr length pr fl) (fun r => vm_inv r.2).
Proof.
  intros I Hm Hk (Ha & Hl & Hlw & Hpr & Hw & He). unfold do_mmap. rewrite roundup_spec by (unfold in_word, PAGESIZE in *; lia).
  destruct (ceil_to_spec length PAGESIZE ltac:(done)) as [Hc1 Hc2]. fold (sharing fl). change (Z.lor VM_SHARED VM_PRIVATE) with 3.
  destruct (Z.eqb_spec (sharing fl) 3); [by apply runs_ok|]. destruct (Z.eqb_spec (sharing fl) 0); [by apply runs_ok|].
  assert (vm_map_end m = USER_SPACE_END) as Hend. { unfold vm_map_end. by destruct (Z.eqb_spec (pmap m) pmap_kernel). }
  destruct (alloc_entry_spec v mi m addr (ceil_to length PAGESIZE) pr fl I Hm Ha) as [(error & -> & R)|[(v' & -> & _ & R & _)|(a & m' & i & o & v' & H)]];
    try done; try lia; try (by apply runs_ok).
  - by apply aligned_mod.
  - cbn zeta in H. destruct H as (-> & _ & _ & _ & I' & _). by apply runs_ok.
Qed.

Lemma fault_inv v mi m va ty : vm_inv v -> maps v !! mi = Some m -> runs (vm_page_fault v mi va ty) (fun r => vm_inv r.2).
Proof.
  intros I Hm. pose proof (fault_spec v mi m va ty I Hm) as H. destruct (find_addr (entries m) va) as [e|]; [|rewrite H; by apply runs_ok].
  destruct (denied (prot e) ty); [rewrite H; by apply runs_ok|]. cbn zeta in H. destruct H as (o & _ & H).
  destruct (find_page (vo_pages o) _), (vo_pager o); try (rewrite H; by apply runs_ok); (eapply runs_mono; [exact H|]; naive_solver).
Qed.

Lemma vm_do_inv v ev : vm_inv v -> ev_ok ev -> runs (vm_do v ev) vm_inv.
Proof.
  intros I Hev. destruct ev as [|mi addr length pr fl|mi s n|mi va ty|mi|mi]; cbn [vm_do]; unfold on_user, on_map;
    try (destruct (maps v !! mi) as [m|] eqn:Hm; [|by apply runs_ok]); try (destruct (Z.eqb_spec (pmap m) pmap_kernel) as [|Hk]; [by apply runs_ok|]).
  - eapply runs_bind; [by apply (map_new_spec no_ext)|]. intros [? v'] (pm & _ & I' & _). by apply runs_ok.
  - eapply runs_bind; [by apply (mmap_inv v mi m)|]. intros [[? ?] v'] I'. by apply runs_ok.
  - destruct Hev as (H1 & H2 & H3). destruct (munmap_spec v mi m s n I Hm H1 H2 H3) as [[-> _]|H]; [by apply runs_ok|].
    eapply runs_bind; [exact H|]. intros [? v'] [_ [I' _]]. by apply runs_ok.
  - eapply runs_bind; [by apply (fault_inv v mi m)|]. intros [? v'] I'. by apply runs_ok.
  - eapply runs_bind; [by apply (map_clone_spec v mi m)|]. intros [? v'] (m' & I' & _). by apply runs_ok.
  - destruct (map_delete_spec v mi m I Hm Hk) as (v' & -> & I' & _). by apply runs_ok.
Qed.

Lemma vm_run_inv evs : forall v, vm_inv v -> Forall ev_ok evs -> runs (vm_run v evs) vm_inv.
Proof.
  induction evs as [|ev evs IH]; intros v I Hev; cbn [vm_run]; [by apply runs_ok|]. apply Forall_cons in Hev as [Hev Hevs].
  eapply runs_bind; [by apply vm_do_inv|]. auto.
Qed.

(** C3: Address spaces are created, cloned and deleted, and processes map, unmap and touch
    memory in them, in any order, from an empty system on; the calls of mmap and munmap have
    arguments whose sums do not wrap around and protections up to 7, as [ev_ok] says.  Then no
    assertion of this code fails and no invalid structure is accessed: unless memory runs
    out, the history completes, every reference counter is the number of entries for the object, no page
    is in two objects or at two offsets, entries are sorted and apart, and every page
    table entry maps the page, with the protection, that the address space has there. *)
Theorem vm_run_consistent h evs :
  hw_ok h -> pmap_kernel ∈ v_pmaps (view h) -> v_maps (view h) = ∅ -> Forall ev_ok evs -> runs (vm_run (vm_init h) evs) vm_inv.
Proof. intros H1 H2 H3. apply vm_run_inv. by apply vm_init_inv. Qed.
End vm.

(** ** A machine *)

(** Four pages, as many physical maps as needed, and tables without levels. *)
Record table_hw := TableHw {
  tv : hview;
  tnext : Z;
  tpmap : Z;
}.

Record table_ok (h : table_hw) : Prop := {
  to_next pg : is_Some (v_data (tv h) !! pg) -> pg < tnext h;
  to_pmap pm : pm ∈ v_pmaps (tv h) -> pm < tpmap h;
  to_maps pm va : is_Some (v_maps (tv h) !! (pm, va)) -> pm < tpmap h;
  to_kernel : pmap_kernel < tpmap h;
}.

Definition with_tv (h : table_hw) (w : hview) : table_hw := TableHw w (tnext h) (tpmap h).

#[export] Program Instance table_machine `{Arch} : VmHw := {|
  hw := table_hw;
  hw_ok := table_ok;
  view := tv;
  vm_page_alloc1 h :=
    if tnext h <? 4 then Ok (Some (tnext h), TableHw (set_data (<[tnext h := [7]]> (v_data (tv h))) (tv h)) (tnext h + 1) (tpmap h))
    else Ok (None, h);
  vm_page_free h pg := Ok (with_tv h (set_data (delete pg (v_data (tv h))) (tv h)));
  pmap_zero_page h pg := Ok (with_tv h (set_data (<[pg := zero_page]> (v_data (tv h))) (tv h)));
  pmap_copy_page h src dst :=
    match v_data (tv h) !! src with Some d => Ok (with_tv h (set_data (<[dst := d]> (v_data (tv h))) (tv h))) | None => Fault BadAccess end;
  pmap_enter h pm va pg pr := Ok (with_tv h (set_maps (<[(pm, va) := (pg, pr)]> (v_maps (tv h))) (tv h)));
  pmap_remove h pm s e :=
    _ ← assert (s <? e);
    Ok (with_tv h (set_maps (unmap pm s e (v_maps (tv h))) (tv h)));
  pmap_new h := Ok (tpmap h, TableHw (HView (v_data (tv h)) ({[tpmap h]} ∪ v_pmaps (tv h)) (v_maps (tv h))) (tnext h) (tpmap h + 1));
  pmap_delete h pm :=
    Ok (with_tv h (HView (v_data (tv h)) (v_pmaps (tv h) ∖ {[pm]}) (filter (fun x => x.1.1 <> pm) (v_maps (tv h)))));
|}.
Next Obligation.
  intros HA h [K1 K2 K3 K4]. destruct (tnext h <? 4); [right|by left]. do 3 eexists. split; [done|]. split; [|split; [|done]].
  - split; cbn; try done. intros pg. destruct (decide (pg = tnext h)) as [->|]; [lia|]. rewrite lookup_insert_ne by done. intros ?%K1. lia.
  - destruct (v_data (tv h) !! tnext h) eqn:E; [|done]. specialize (K1 (tnext h) ltac:(by eexists)). lia.
Qed.
Next Obligation.
  intros HA h pg [K1 K2 K3 K4] _ _. eexists. split; [done|]. split; [|done]. split; cbn; try done.
  intros q [d [_ Hd]%lookup_delete_Some]. apply K1. by eexists.
Qed.
Next Obligation.
  intros HA h pg [K1 K2 K3 K4] Hp. eexists. split; [done|]. split; [|done]. split; cbn; try done.
  intros q. destruct (decide (q = pg)) as [->|]; [intros _; by apply K1|]. rewrite lookup_insert_ne by done. apply K1.
Qed.
Next Obligation.
  intros HA h src dst d [K1 K2 K3 K4] E Hp. cbn. rewrite E. eexists. split; [done|]. split; [|done]. split; cbn; try done.
  intros q. destruct (decide (q = dst)) as [->|]; [intros _; by apply K1|]. rewrite lookup_insert_ne by done. apply K1.
Qed.
Next Obligation.
  intros HA h pm va pg pr [K1 K2 K3 K4] Hpm _ _ _ _ _ _. right. eexists. split; [done|]. split; [|done]. split; cbn; try done.
  intros pm' va'. destruct (decide ((pm', va') = (pm, va))) as [[= -> ->]|]; [intros _; by apply K2|]. rewrite lookup_insert_ne by done. apply K3.
Qed.
Next Obligation.
  intros HA h pm s e [K1 K2 K3 K4] _ _ _ _ Hlt _ _. cbn. destruct (Z.ltb_spec s e); [|lia]. cbn [assert mbind outcome_bind]. eexists. split; [done|]. split; [|done]. split; cbn; try done.
  intros pm' va' [x [Hx _]%map_lookup_filter_Some]. apply (K3 pm' va'). by eexists.
Qed.
Next Obligation.
  intros HA h [K1 K2 K3 K4]. right. exists (tpmap h). eexists. split; [done|]. split_and!; [|lia| | |done].
  - split; cbn; try done; [intros pm Hpm|intros pm va Hx|lia].
    + apply elem_of_union in Hpm as [->%elem_of_singleton|Hpm]; [lia|]. apply K2 in Hpm. lia.
    + apply K3 in Hx. lia.
  - intros Hpm%K2. lia.
  - intros va. destruct (v_maps (tv h) !! (tpmap h, va)) eqn:E; [|done]. specialize (K3 (tpmap h) va ltac:(by eexists)). lia.
Qed.
Next Obligation.
  intros HA h pm [K1 K2 K3 K4] _ _. eexists. split; [done|]. split; [|done]. split; cbn; try done.
  - intros q [Hq _]%elem_of_difference. by apply K2.
  - intros pm' va' [x [Hx _]%map_lookup_filter_Some]. apply (K3 pm' va'). by eexists.
Qed.

Definition table0 : table_hw := TableHw (HView ∅ {[pmap_kernel]} ∅) 0 1.

Lemma table0_ok : table_ok table0.
Proof.
  split; cbn; [intros pg [d E]|intros pm ->%elem_of_singleton|intros pm va [x E]|]; try done; by rewrite lookup_empty in E.
Qed.

(** A process on a 32-bit machine that maps two pages and writes to the first. *)
#[local] Existing Instance mips.

Definition after (evs : list vm_event) : vm := match vm_run (vm_init (table0 : hw)) evs with Ok v => v | Fault _ => vm_init (table0 : hw) end.

Lemma after_inv evs : Forall ev_ok evs -> vm_inv (after evs).
Proof.
  intros H. assert (vm_inv (vm_init (table0 : hw))) as I by (by apply vm_init_inv; [apply table0_ok|cbn; set_solver|]).
  destruct (vm_run_inv evs _ I H) as [[E|E]|(v & E & Hv)]; unfold after; by rewrite E.
Qed.

#[local] Opaque after.

Definition demo_evs : list vm_event :=
  [EvNew; EvMmap 1 0 0x1800 (Z.lor VM_PROT_READ VM_PROT_WRITE) (Z.lor VM_ANON VM_PRIVATE); EvFault 1 0x400123 VM_PROT_WRITE].

Lemma demo_ok : Forall ev_ok demo_evs.
Proof. repeat constructor; done. Qed.

Definition demo_map : vm_map := Map [Entry 3 2 0 3 VM_ENT_PRIVATE 0x400000 0x402000] 1 1.

Lemma demo_maps : maps (after demo_evs) !! 1 = Some demo_map.
Proof. vm_compute. reflexivity. Qed.

Lemma demo_map_ok : map_ok demo_map.
Proof. exact (proj1 (vinv_ents _ _ _ _ _ (after_inv _ demo_ok) demo_maps)). Qed.

Definition code {A B} (r : outcome (A * B)) : option A := match r with Ok (c, _) => Some c | Fault _ => None end.

Lemma code_runs {A B} (r : outcome (A * B)) c (P : A * B -> Prop) : code r = Some c -> runs r P -> exists b, r = Ok (c, b) /\ P (c, b).
Proof. intros Hc [[-> | ->]|([a b] & -> & H)]; [done..|]. injection Hc as ->. by exists b. Qed.

Lemma vm_map_findspace_witness :
  exists a, vm_map_findspace demo_map 0 0x3000 = Ok (0, a) /\ 0x402000 <= a /\ free_range (entries demo_map) a 0x3000.
Proof.
  destruct (vm_map_findspace_correct demo_map 0 0x3000 demo_map_ok) as [[E _]|(a & E & _ & _ & _ & F & _)]; try done.
  exists a. split_and!; try done. vm_compute in E. by injection E as <-.
Defined.


Lemma do_mmap_witness :
  exists v, do_mmap (after demo_evs) 1 0x400000 0x1000 VM_PROT_READ (Z.lor VM_ANON VM_SHARED) = Ok (0, 0x402000, v) /\ vm_inv v.
Proof.
  assert (code (do_mmap (after demo_evs) 1 0x400000 0x1000 VM_PROT_READ (Z.lor VM_ANON VM_SHARED)) = Some (0, 0x402000)) as C by (vm_compute; reflexivity).
  destruct (do_mmap_correct (after demo_evs) 1 demo_map 0x400000 0x1000 VM_PROT_READ (Z.lor VM_ANON VM_SHARED) 0x1000 (after_inv _ demo_ok) demo_maps)
    as [(err & E & _)|[(v & E & _)|(a & m & o & v & E & _ & _ & I & _)]]; [done..| | |]; rewrite E in C; [discriminate C..|].
  injection C as ->. exists v. exact (conj E I).
Defined.

Lemma vm_page_fault_witness :
  exists v, vm_page_fault (after demo_evs) 1 0x401fff VM_PROT_READ = Ok (0, v) /\ vm_inv v.
Proof.
  assert (code (vm_page_fault (after demo_evs) 1 0x401fff VM_PROT_READ) = Some 0) as C by (vm_compute; reflexivity).
  pose proof (vm_page_fault_correct (after demo_evs) 1 demo_map 0x401fff VM_PROT_READ (after_inv _ demo_ok) demo_maps) as H.
  assert (trans (entries demo_map) (page_of 0x401fff) = Some (2, 0x1000, 3, 2)) as E1 by (vm_compute; reflexivity). rewrite E1 in H.
  change (denied 3 VM_PROT_READ) with false in H. cbn zeta in H. cbn match in H. destruct H as (o & _ & H).
  destruct (find_page (vo_pages o) 0x1000) as [pg|], (vo_pager o); try (rewrite H in C; discriminate C);
    destruct (code_runs _ _ _ C H) as (v & E & _ & I & _); exists v; exact (conj E I).
Defined.

Lemma vm_map_clone_witness :
  exists v, vm_map_clone (after demo_evs) 1 = Ok (4, v) /\ vm_inv v.
Proof.
  assert (code (vm_map_clone (after demo_evs) 1) = Some 4) as C by (vm_compute; reflexivity).
  destruct (code_runs _ _ _ C (vm_map_clone_correct (after demo_evs) 1 demo_map (after_inv _ demo_ok) demo_maps ltac:(done))) as (v & E & m' & I & _).
  exists v. exact (conj E I).
Defined.

Lemma vm_map_delete_witness :
  exists v, vm_map_delete (after demo_evs) 1 = Ok v /\ vm_inv v /\ maps v !! 1 = None.
Proof.
  destruct (vm_map_delete_correct (after demo_evs) 1 demo_map (after_inv _ demo_ok) demo_maps ltac:(done)) as (v & E & I & Em & _).
  exists v. split_and!; [exact E|exact I|]. rewrite Em. apply lookup_delete_eq.
Defined.

Lemma vm_run_witness : runs (vm_run (vm_init (table0 : hw)) demo_evs) vm_inv.
Proof. apply vm_run_consistent; [apply table0_ok|cbn; set_solver|done|apply demo_ok]. Defined.

(** A process with a data segment. *)
Definition brk_run (inc : Z) : outcome (Z * Z * sbrk * vm) := '(p, v) ← sbrk_attach (after [EvNew]) (Sbrk 1 None 0); sbrk_resize v p inc.

Lemma sbrk_resize_witness :
  exists v p v' p', sbrk_attach (after [EvNew]) (Sbrk 1 None 0) = Ok (p, v) /\ sbrk_resize v p 0x2345 = Ok (0, SBRK_START, p', v') /\ vm_inv v'.
Proof.
  assert (option_map fst (code (brk_run 0x2345)) = Some (0, SBRK_START)) as C by (vm_compute; reflexivity).
  assert (vm_inv (after [EvNew])) as I0 by (apply after_inv; repeat constructor).
  assert (maps (after [EvNew]) !! 1 = Some (Map [] 0 1)) as Hm by (vm_compute; reflexivity).
  destruct (sbrk_attach_spec (after [EvNew]) (Sbrk 1 None 0) _ I0 eq_refl Hm) as (v & p & m & pre & e & post & E & I & S & _ & Hb & _);
    [by intros x ?%not_elem_of_nil|done..|]. exists v, p. unfold brk_run in C. rewrite E in C. cbn [mbind outcome_bind] in C.
  destruct (sbrk_resize_correct v p m pre e post 0x2345 _ (Z.max (ceil_to (p_sbrk_end p + 0x2345) PAGESIZE) (start e + PAGESIZE)) I S eq_refl) as [[_ R]|[(_ & _ & _ & R)|(_ & _ & v' & p' & R & _ & I' & _)]];
    [by rewrite Hb|by rewrite Hb|reflexivity|..]; rewrite R in C; [discriminate C..|].
  exists v', p'. cbn in C. injection C as Hb'. split_and!; [exact E| |exact I']. rewrite R. by rewrite Hb'.
Defined.

(** ** Requests that wrap around *)

Definition failed {A} (r : outcome A) : option fault := match r with Ok _ => None | Fault f => Some f end.

Lemma failed_eq {A} (r : outcome A) f : failed r = Some f -> r = Fault f.
Proof. destruct r; [done|]. by intros [= ->]. Qed.

(** A mapping longer than the address space is accepted, as the end of the gap wraps around;
    the entry ends before it starts. *)
Lemma mmap_wraps :
  exists v m e, do_mmap (after [EvNew]) 1 0 0xfffff000 VM_PROT_READ (Z.lor VM_ANON VM_PRIVATE) = Ok (0, 0x400000, v) /\
    maps v !! 1 = Some m /\ e ∈ entries m /\ end_ e < start e.
Proof.
  set (r := do_mmap _ _ _ _ _ _). assert (code r = Some (0, 0x400000)) as C by (vm_compute; reflexivity).
  assert ((match r with Ok (_, v) => maps v !! 1 | Fault _ => None end) = Some (Map [Entry 3 2 0 1 2 0x400000 0x3ff000] 1 1)) as M by (vm_compute; reflexivity).
  destruct r as [[c v]|f]; [|discriminate C]. injection C as ->. exists v, (Map [Entry 3 2 0 1 2 0x400000 0x3ff000] 1 1), (Entry 3 2 0 1 2 0x400000 0x3ff000).
  split_and!; [reflexivity|exact M|by left|done].
Qed.

(** A length for which the end of the range wraps around makes an assertion of the kernel fail. *)
Lemma munmap_wraps : do_munmap (after demo_evs) 1 0x401000 0xfffff800 = Ok (EINVAL, after demo_evs) /\
  do_munmap (after [EvNew; EvMmap 1 0 0x3000 VM_PROT_READ (Z.lor VM_ANON VM_PRIVATE)]) 1 0x402000 0xfffff000 = Fault AssertFailed.
Proof. split; [reflexivity|]. apply failed_eq. vm_compute. reflexivity. Qed.

(** A decrement below address 0 is not refused: the break is beyond the segment afterwards. *)
Lemma sbrk_wraps :
  exists p v, brk_run (- 0x8000001) = Ok (0, SBRK_START, p, v) /\ p_sbrk_end p = 0xffffffff /\
    (entries <$> maps v !! 1) = Some [Entry 3 2 0 3 VM_ENT_PRIVATE SBRK_START (SBRK_START + PAGESIZE)].
Proof.
  assert (code (brk_run (- 0x8000001)) = Some (0, SBRK_START, Sbrk 1 (Some 3) 0xffffffff)) as C by (vm_compute; reflexivity).
  assert ((match brk_run (- 0x8000001) with Ok (_, v) => entries <$> maps v !! 1 | Fault _ => None end) =
    Some [Entry 3 2 0 3 VM_ENT_PRIVATE SBRK_START (SBRK_START + PAGESIZE)]) as M by (vm_compute; reflexivity).
  destruct (brk_run (- 0x8000001)) as [[c v]|f]; [|discriminate C]. injection C as ->. exists (Sbrk 1 (Some 3) 0xffffffff), v.
  split_and!; [reflexivity..|exact M].
Qed.

(** A process that unmaps its data segment and moves the break: the entry is gone. *)
Lemma sbrk_dangling :
  ('(p, v) ← sbrk_attach (after [EvNew]) (Sbrk 1 None 0);
   '(_, v) ← do_munmap v 1 SBRK_START PAGESIZE;
   sbrk_resize v p 1) = Fault BadAccess.
Proof. apply failed_eq. vm_compute. reflexivity. Qed.
