(* ===== verification/Pmap.v ===== *)
(** * Page tables of MIPS (sys/mips/pmap.c, include/mips/pmap.h, tlb.h, mips.h)

    A physical map is a two-level page table: a directory of 1024 words, and tables of 1024
    words for the parts of the address space that have been used, all in page frames
    reached through the window [KSEG0].  Pages know the places where they are mapped by
    lists of [pv_entry] structures.  The code runs on the page allocator of Physmem.v.
    This file has the code, the invariant of directories, tables and lists, and what
    reading and writing an entry does under it: a mapping is read back by a walk through
    the tables as it was entered, and tables, directories and pages of different owners stay
    apart.  PmapHw.v has the operations on the maps of processes, PmapKernel.v those on
    the map of the kernel.

    Page frames are known by their physical address, their contents are 32-bit words.  The
    translation buffer is not modelled, and a pointer that is null is an access that
    fails. *)

From S2P Require Import Prelude Bitstr Machine Physmem.

#[local] Existing Instance mips.

(** ** Words of the tables *)

Definition PTE_SW_READ : Z := 2 ^ 29.
Definition PTE_SW_WRITE : Z := 2 ^ 30.
Definition PTE_SW_NOEXEC : Z := 2 ^ 31.
Definition PTE_SW_FLAGS : Z := Z.lor PTE_SW_READ (Z.lor PTE_SW_WRITE PTE_SW_NOEXEC).
Definition PTE_PFN_MASK : Z := 0x03ffffc0.
Definition PTE_PFN_SHIFT : Z := 6.
Definition PTE_CACHE_WRITE_THROUGH : Z := 0.
Definition PTE_CACHE_UNCACHED : Z := 2 * 2 ^ 3.
Definition PTE_CACHE_WRITE_BACK : Z := 3 * 2 ^ 3.
Definition PTE_DIRTY : Z := 4.
Definition PTE_VALID : Z := 2.
Definition PTE_GLOBAL : Z := 1.
Definition PTE_KERNEL : Z := Z.lor PTE_GLOBAL (Z.lor PTE_VALID (Z.lor PTE_DIRTY (Z.lor PTE_SW_READ PTE_SW_WRITE))).
Definition PTE_PROT_MASK : Z := Z.lor PTE_VALID (Z.lor PTE_DIRTY PTE_SW_FLAGS).

Definition PTE_PFN (addr : Z) : Z := Z.land (Z.shiftr addr PTE_PFN_SHIFT) PTE_PFN_MASK.
Definition PTE_PFN_OF (pte : Z) : Z := Z.shiftr (Z.land pte PTE_PFN_MASK) PTE_PFN_SHIFT.
Definition PDE_VALID : Z := PTE_VALID.

Definition PT_ENTRIES : Z := 1024.
Definition PTE_INDEX (x : Z) : Z := Z.shiftr (Z.land x 0x003ff000) 12.
Definition PDE_INDEX (x : Z) : Z := Z.shiftr (Z.land x 0xffc00000) 22.

Definition PMAP_KERNEL_BEGIN : Z := 0xc0000000.
Definition PMAP_KERNEL_END : Z := 0xffffe000.
Definition PMAP_USER_BEGIN : Z := 0x00001000.
Definition PMAP_USER_END : Z := 0x80000000.

Definition MAX_ASID : Z := 0xff.

Definition MIPS_KSEG0_TO_PHYS (x : Z) : Z := Z.land x 0x1fffffff.
Definition MIPS_PHYS_TO_KSEG0 (x : Z) : Z := Z.lor x 0x80000000.

Definition PMAP_NOCACHE : Z := 2 ^ 24.
Definition PMAP_WRITE_THROUGH : Z := 2 * 2 ^ 24.
Definition PMAP_CACHE_MASK : Z := 7 * 2 ^ 24.

Definition vm_prot_map : list Z :=
  [PTE_SW_NOEXEC;
   Z.lor PTE_VALID (Z.lor PTE_SW_READ PTE_SW_NOEXEC);
   Z.lor PTE_VALID (Z.lor PTE_DIRTY (Z.lor PTE_SW_WRITE PTE_SW_NOEXEC));
   Z.lor PTE_VALID (Z.lor PTE_DIRTY (Z.lor PTE_SW_READ (Z.lor PTE_SW_WRITE PTE_SW_NOEXEC)));
   PTE_VALID;
   Z.lor PTE_VALID PTE_SW_READ;
   Z.lor PTE_VALID (Z.lor PTE_DIRTY PTE_SW_WRITE);
   Z.lor PTE_VALID (Z.lor PTE_DIRTY (Z.lor PTE_SW_READ PTE_SW_WRITE))].

Definition PT_BASE (pde : Z) : Z := uwrap 32 (Z.shiftl (Z.shiftr pde PTE_PFN_SHIFT) 12).
Definition PTE_FRAME_ADDR (pte : Z) : Z := PTE_PFN_OF pte * PAGESIZE.
Definition PAGE_OFFSET (x : Z) : Z := Z.land x (PAGESIZE - 1).

(** ** State *)

(** [pv_id] is the address of the structure. *)
Record pv_entry := Pv {
  pv_id : Z;
  pv_pmap : Z;
  pv_va : Z;
}.

#[export] Instance pv_entry_eq_dec : EqDecision pv_entry.
Proof. solve_decision. Defined.

Record pmap_t := Pmap {
  asid : Z;
  pde : Z;
  pte_pages : list Z;
  pv_list : list pv_entry;
}.

(** [page_pvs] has the lists [pv_list] of the pages. *)
Record machine := Machine {
  phys : physmem;
  ram : gmap Z (list Z);
  pmaps : gmap Z pmap_t;
  page_pvs : gmap Z (list pv_entry);
  asid_used : list Z;
  fresh : Z;
  curpmap : option Z;
  vm_kernel_end : Z;
}.

Implicit Types (mc : machine) (P : pmap_t) (pm va pg : Z).

Definition set_phys m mc := Machine m (ram mc) (pmaps mc) (page_pvs mc) (asid_used mc) (fresh mc) (curpmap mc) (vm_kernel_end mc).
Definition set_ram r mc := Machine (phys mc) r (pmaps mc) (page_pvs mc) (asid_used mc) (fresh mc) (curpmap mc) (vm_kernel_end mc).
Definition set_pmap pm P mc :=
  Machine (phys mc) (ram mc) (<[pm := P]> (pmaps mc)) (page_pvs mc) (asid_used mc) (fresh mc) (curpmap mc) (vm_kernel_end mc).
Definition del_pmap pm mc :=
  Machine (phys mc) (ram mc) (delete pm (pmaps mc)) (page_pvs mc) (asid_used mc) (fresh mc) (curpmap mc) (vm_kernel_end mc).
Definition set_page_pvs l mc := Machine (phys mc) (ram mc) (pmaps mc) l (asid_used mc) (fresh mc) (curpmap mc) (vm_kernel_end mc).
Definition set_asids l mc := Machine (phys mc) (ram mc) (pmaps mc) (page_pvs mc) l (fresh mc) (curpmap mc) (vm_kernel_end mc).
Definition set_fresh n mc := Machine (phys mc) (ram mc) (pmaps mc) (page_pvs mc) (asid_used mc) n (curpmap mc) (vm_kernel_end mc).
Definition set_cur c mc := Machine (phys mc) (ram mc) (pmaps mc) (page_pvs mc) (asid_used mc) (fresh mc) c (vm_kernel_end mc).
Definition set_kernel_end e mc := Machine (phys mc) (ram mc) (pmaps mc) (page_pvs mc) (asid_used mc) (fresh mc) (curpmap mc) e.

Definition some_of {A} (x : option A) : outcome A := match x with Some a => Ok a | None => Fault BadAccess end.

Definition get_pmap mc pm : outcome pmap_t := some_of (pmaps mc !! pm).
Definition get_page mc pg : outcome vm_page := arr_get (pages (phys mc)) pg.
Definition pvs mc pg : list pv_entry := default [] (page_pvs mc !! pg).

(** The list of a page, of which Physmem.v knows whether it is empty. *)
Definition set_pvs mc pg (l : list pv_entry) : outcome machine :=
  m ← upd_page (phys mc) pg (fun p => Page (paddr p) (flags p) (pg_size p) (match l with [] => true | _ => false end));
  Ok (set_page_pvs (<[pg := l]> (page_pvs mc)) (set_phys m mc)).

Definition set_pg_flags mc pg (f : Z -> Z) : outcome machine :=
  m ← upd_page (phys mc) pg (fun p => set_flags (f (flags p)) p);
  Ok (set_phys m mc).

Definition remove_pv (l : list pv_entry) (x : pv_entry) : outcome (list pv_entry) :=
  if decide (x ∈ l) then Ok (filter (fun y => y <> x) l) else Fault BadAccess.

(** A word of a table at an address in [KSEG0]. *)
Definition word_get mc (a i : Z) : outcome Z :=
  l ← some_of (ram mc !! MIPS_KSEG0_TO_PHYS a);
  arr_get l i.

Definition word_set mc (a i w : Z) : outcome machine :=
  l ← some_of (ram mc !! MIPS_KSEG0_TO_PHYS a);
  l ← arr_set l i w;
  Ok (set_ram (<[MIPS_KSEG0_TO_PHYS a := l]> (ram mc)) mc).

Definition PG_KSEG0_ADDR (p : vm_page) : Z := MIPS_PHYS_TO_KSEG0 (paddr p).
Definition PDE_OF mc P va : outcome Z := word_get mc (pde P) (PDE_INDEX va).
Definition PTE_OF mc (pde va : Z) : outcome Z := word_get mc (PT_BASE pde) (PTE_INDEX va).

(** ** Helper functions *)

Definition is_valid_pde (pde : Z) : bool := flag_on pde PDE_VALID.
Definition empty_pte pm : Z := if pm =? pmap_kernel then PTE_GLOBAL else 0.

Definition user_addr_p (addr : Z) : bool := (PMAP_USER_BEGIN <=? addr) && (addr <? PMAP_USER_END).
Definition kern_addr_p (addr : Z) : bool := (PMAP_KERNEL_BEGIN <=? addr) && (addr <? PMAP_KERNEL_END).

Definition pmap_start P : Z := if negb (asid P =? 0) then PMAP_USER_BEGIN else PMAP_KERNEL_BEGIN.
Definition pmap_end P : Z := if negb (asid P =? 0) then PMAP_USER_END else PMAP_KERNEL_END.
Definition pmap_address_p P va : bool := (pmap_start P <=? va) && (va <? pmap_end P).
Definition pmap_contains_p P (start fin : Z) : bool := (pmap_start P <=? start) && (fin <=? pmap_end P).

Definition pmap_user mc : option Z := curpmap mc.

Definition pmap_lookup mc (addr : Z) : option Z :=
  if kern_addr_p addr then Some pmap_kernel
  else if user_addr_p addr then pmap_user mc
  else None.

(** ** Address space identifiers *)

Definition alloc_asid mc : outcome (Z * machine) :=
  free ← bit_ffc (asid_used mc) MAX_ASID;
  if free <? 0 then panic
  else
    l ← bit_set (asid_used mc) free;
    Ok (free, set_asids l mc).

Definition free_asid mc (a : Z) : outcome machine :=
  l ← bit_clear (asid_used mc) a;
  Ok (set_asids l mc).

(** ** Physical-to-virtual entries *)

Definition pv_add mc pm va pg : outcome machine :=
  P ← get_pmap mc pm;
  let pv := Pv (fresh mc) pm va in
  mc ← set_pvs (set_fresh (fresh mc + 1) mc) pg (pvs mc pg ++ [pv]);
  Ok (set_pmap pm (Pmap (asid P) (pde P) (pte_pages P) (pv_list P ++ [pv])) mc).

Definition pv_find mc pm va pg : option pv_entry :=
  snd <$> list_find (fun pv => pv_pmap pv = pm /\ pv_va pv = va) (pvs mc pg).

Definition pv_unlink mc pm pg (pv : pv_entry) : outcome machine :=
  l ← remove_pv (pvs mc pg) pv;
  mc ← set_pvs mc pg l;
  P ← get_pmap mc pm;
  l ← remove_pv (pv_list P) pv;
  Ok (set_pmap pm (Pmap (asid P) (pde P) (pte_pages P) l) mc).

Definition pv_remove mc pm va pg : outcome machine :=
  match pv_find mc pm va pg with
  | None => Fault AssertFailed
  | Some pv => pv_unlink mc pm pg pv
  end.

(** ** Page table entries *)

Definition pmap_zero_page mc pg : outcome machine :=
  p ← get_page mc pg;
  Ok (set_ram (<[MIPS_KSEG0_TO_PHYS (PG_KSEG0_ADDR p) := zero_page]> (ram mc)) mc).

Definition pmap_copy_page mc (src dst : Z) : outcome machine :=
  p ← get_page mc src;
  q ← get_page mc dst;
  d ← some_of (ram mc !! MIPS_KSEG0_TO_PHYS (PG_KSEG0_ADDR p));
  Ok (set_ram (<[MIPS_KSEG0_TO_PHYS (PG_KSEG0_ADDR q) := d]> (ram mc)) mc).

Definition pmap_pagealloc mc : outcome (Z * machine) :=
  '(pg, m) ← vm_page_alloc (phys mc) 1;
  match pg with
  | None => Fault NoMemory
  | Some pg => mc ← pmap_zero_page (set_phys m mc) pg; Ok (pg, mc)
  end.

Fixpoint fill_table (n : nat) mc (a i w : Z) : outcome machine :=
  match n with
  | O => Ok mc
  | S n => mc ← word_set mc a i w; fill_table n mc a (i + 1) w
  end.

Definition pmap_add_pde mc pm va : outcome (Z * machine) :=
  P ← get_pmap mc pm;
  old ← PDE_OF mc P va;
  _ ← assert (negb (is_valid_pde old));
  '(pg, mc) ← pmap_pagealloc mc;
  p ← get_page mc pg;
  let new := Z.lor (PTE_PFN (PG_KSEG0_ADDR p)) PTE_KERNEL in
  mc ← word_set mc (pde P) (PDE_INDEX va) new;
  let mc := set_pmap pm (Pmap (asid P) (pde P) (pte_pages P ++ [pg]) (pv_list P)) mc in
  (* Must initialize to PTE_GLOBAL, look at comment in update_wired_pde! *)
  mc ← fill_table (Z.to_nat PT_ENTRIES) mc (PT_BASE new) 0 PTE_GLOBAL;
  Ok (new, mc).

Definition pmap_pte_read mc pm va : outcome Z :=
  P ← get_pmap mc pm;
  d ← PDE_OF mc P va;
  if negb (is_valid_pde d) then Ok 0 else PTE_OF mc d va.

Definition cache_bits (cflags : Z) : Z :=
  let c := Z.land cflags PMAP_CACHE_MASK in
  if c =? PMAP_NOCACHE then PTE_CACHE_UNCACHED
  else if c =? PMAP_WRITE_THROUGH then PTE_CACHE_WRITE_THROUGH
  else PTE_CACHE_WRITE_BACK.

Definition pmap_pte_write mc pm va (pte cflags : Z) : outcome machine :=
  let pte := Z.lor pte (cache_bits cflags) in
  P ← get_pmap mc pm;
  d ← PDE_OF mc P va;
  '(d, mc) ← (if negb (is_valid_pde d) then pmap_add_pde mc pm va else Ok (d, mc));
  word_set mc (PT_BASE d) (PTE_INDEX va) pte.

(** ** Switching *)

Definition pmap_activate mc (umap : option Z) : machine := set_cur umap mc.

(** ** Wired memory *)

Definition pmap_kenter mc va (pa pr cflags : Z) : outcome machine :=
  P ← get_pmap mc pmap_kernel;
  _ ← assert (page_aligned_p pa && page_aligned_p va);
  _ ← assert (pmap_address_p P va);
  _ ← assert (negb (pa =? 0));
  w ← arr_get vm_prot_map pr;
  let pte := Z.lor w PTE_GLOBAL in
  pmap_pte_write mc pmap_kernel va (Z.lor (PTE_PFN pa) pte) cflags.

Fixpoint kremove_loop (n : nat) mc va : outcome machine :=
  match n with
  | O => Ok mc
  | S n => mc ← pmap_pte_write mc pmap_kernel va PTE_GLOBAL 0; kremove_loop n mc (va + PAGESIZE)
  end.

Definition pmap_kremove mc va (size : Z) : outcome machine :=
  P ← get_pmap mc pmap_kernel;
  _ ← assert (page_aligned_p va && page_aligned_p size);
  _ ← assert (pmap_contains_p P va (wrap (va + size)));
  kremove_loop (Z.to_nat (size / PAGESIZE)) mc va.

(** ** Pageable memory *)

Definition pmap_extract_nolock mc pm va : outcome (option Z) :=
  P ← get_pmap mc pm;
  if negb (pmap_address_p P va) then Ok None
  else
    pte ← pmap_pte_read mc pm va;
    let pa := PTE_FRAME_ADDR pte in
    if pa =? 0 then Ok None else Ok (Some (Z.lor pa (PAGE_OFFSET va))).

Definition pmap_extract mc pm va : outcome (option Z) := pmap_extract_nolock mc pm va.
Definition pmap_kextract mc va : outcome (option Z) := pmap_extract mc pmap_kernel va.

Definition pmap_enter mc pm va pg (pr cflags : Z) : outcome machine :=
  p ← get_page mc pg;
  let pa := paddr p in
  P ← get_pmap mc pm;
  _ ← assert (page_aligned_p va);
  _ ← assert (pmap_address_p P va);
  let kern_mapping := pm =? pmap_kernel in
  (* Mark user pages as non-referenced & non-modified. *)
  let mask := if kern_mapping then Z.lor PTE_VALID (Z.lor PTE_DIRTY PTE_SW_FLAGS) else PTE_SW_FLAGS in
  w ← arr_get vm_prot_map pr;
  let pte := Z.lor (Z.land w mask) (empty_pte pm) in
  mc ← (match pv_find mc pm va pg with None => pv_add mc pm va pg | Some _ => Ok mc end);
  mc ← set_pg_flags mc pg (fun f => if kern_mapping then flag_set f (Z.lor PG_MODIFIED PG_REFERENCED)
                                    else flag_clr f (Z.lor PG_MODIFIED PG_REFERENCED));
  pmap_pte_write mc pm va (Z.lor (PTE_PFN pa) pte) cflags.

Fixpoint remove_loop (n : nat) mc pm va : outcome machine :=
  match n with
  | O => Ok mc
  | S n =>
      found ← pmap_extract_nolock mc pm va;
      mc ← (match found with
            | Some pa =>
                pg ← some_of (vm_page_find (phys mc) pa);
                mc ← pv_remove mc pm va pg;
                pmap_pte_write mc pm va (empty_pte pm) 0
            | None => Ok mc
            end);
      remove_loop n mc pm (va + PAGESIZE)
  end.

Definition pmap_remove mc pm (start fin : Z) : outcome machine :=
  P ← get_pmap mc pm;
  _ ← assert (page_aligned_p start && page_aligned_p fin && (start <? fin));
  _ ← assert (pmap_contains_p P start fin);
  remove_loop (Z.to_nat ((fin - start) / PAGESIZE)) mc pm start.

Fixpoint protect_loop (n : nat) mc pm va (w : Z) : outcome machine :=
  match n with
  | O => Ok mc
  | S n =>
      pte ← pmap_pte_read mc pm va;
      mc ← (if pte =? 0 then Ok mc else pmap_pte_write mc pm va (Z.lor (flag_clr pte PTE_PROT_MASK) w) 0);
      protect_loop n mc pm (va + PAGESIZE) w
  end.

Definition pmap_protect mc pm (start fin pr : Z) : outcome machine :=
  P ← get_pmap mc pm;
  _ ← assert (page_aligned_p start && page_aligned_p fin && (start <? fin));
  _ ← assert (pmap_contains_p P start fin);
  w ← arr_get vm_prot_map pr;
  protect_loop (Z.to_nat ((fin - start) / PAGESIZE)) mc pm start w.

(** The loop over the list of the page; each round removes its first entry. *)
Fixpoint page_remove_loop (fuel : nat) mc pg : outcome machine :=
  match pvs mc pg with
  | [] => Ok mc
  | pv :: _ =>
      match fuel with
      | O => Fault OutOfFuel
      | S fuel =>
          mc ← pv_unlink mc (pv_pmap pv) pg pv;
          mc ← pmap_pte_write mc (pv_pmap pv) (pv_va pv) (empty_pte (pv_pmap pv)) 0;
          page_remove_loop fuel mc pg
      end
  end.

Definition pmap_page_remove mc pg : outcome machine := page_remove_loop (length (pvs mc pg)) mc pg.

(** ** Referenced and modified pages *)

Fixpoint modify_flags mc (l : list pv_entry) (set clr : Z) : outcome machine :=
  match l with
  | [] => Ok mc
  | pv :: l =>
      P ← get_pmap mc (pv_pmap pv);
      d ← PDE_OF mc P (pv_va pv);
      _ ← assert (is_valid_pde d);
      pte ← PTE_OF mc d (pv_va pv);
      mc ← word_set mc (PT_BASE d) (PTE_INDEX (pv_va pv)) (flag_clr (Z.lor pte set) clr);
      modify_flags mc l set clr
  end.

Definition pmap_modify_flags mc pg (set clr : Z) : outcome machine := modify_flags mc (pvs mc pg) set clr.

Definition pmap_is_referenced mc pg : outcome bool := p ← get_page mc pg; Ok (flag_on (flags p) PG_REFERENCED).
Definition pmap_is_modified mc pg : outcome bool := p ← get_page mc pg; Ok (flag_on (flags p) PG_MODIFIED).

Definition pmap_clear_referenced mc pg : outcome (bool * machine) :=
  prev ← pmap_is_referenced mc pg;
  mc ← set_pg_flags mc pg (fun f => flag_clr f PG_REFERENCED);
  mc ← pmap_modify_flags mc pg 0 PTE_VALID;
  Ok (prev, mc).

Definition pmap_clear_modified mc pg : outcome (bool * machine) :=
  prev ← pmap_is_modified mc pg;
  mc ← set_pg_flags mc pg (fun f => flag_clr f PG_MODIFIED);
  mc ← pmap_modify_flags mc pg 0 PTE_DIRTY;
  Ok (prev, mc).

Definition pmap_set_referenced mc pg : outcome machine :=
  mc ← set_pg_flags mc pg (fun f => flag_set f PG_REFERENCED);
  pmap_modify_flags mc pg PTE_VALID 0.

Definition pmap_set_modified mc pg : outcome machine :=
  mc ← set_pg_flags mc pg (fun f => flag_set f PG_MODIFIED);
  pmap_modify_flags mc pg PTE_DIRTY 0.

Definition pmap_emulate_bits mc pm va (pr : Z) : outcome (Z * machine) :=
  found ← pmap_extract_nolock mc pm va;
  match found with
  | None => Ok (EFAULT, mc)
  | Some pa =>
      pte ← pmap_pte_read mc pm va;
      if flag_on pr VM_PROT_READ && negb (flag_on pte PTE_SW_READ) then Ok (EACCES, mc)
      else if flag_on pr VM_PROT_WRITE && negb (flag_on pte PTE_SW_WRITE) then Ok (EACCES, mc)
      else if flag_on pr VM_PROT_EXEC && flag_on pte PTE_SW_NOEXEC then Ok (EACCES, mc)
      else
        match vm_page_find (phys mc) pa with
        | None => Fault AssertFailed
        | Some pg =>
            (* Kernel non-pageable memory? *)
            match pvs mc pg with
            | [] => Ok (EINVAL, mc)
            | _ =>
                mc ← pmap_set_referenced mc pg;
                mc ← (if flag_on pr VM_PROT_WRITE then pmap_set_modified mc pg else Ok mc);
                Ok (0, mc)
            end
        end
  end.

(** ** Physical maps *)

(** The new map is not reachable before its directory is set. *)
Definition pmap_new mc : outcome (Z * machine) :=
  let pm := fresh mc in
  '(a, mc) ← alloc_asid (set_fresh (fresh mc + 1) mc);
  '(pg, mc) ← pmap_pagealloc mc;
  p ← get_page mc pg;
  Ok (pm, set_pmap pm (Pmap a (PG_KSEG0_ADDR p) [] []) mc).

(** The kernel's map gets the directory that the boot code has set up. *)
Definition init_pmap mc (kernel_pmap_pde : Z) : outcome machine :=
  '(a, mc) ← alloc_asid mc;
  Ok (set_pmap pmap_kernel (Pmap a kernel_pmap_pde [] []) mc).

Fixpoint delete_pvs mc pm (l : list pv_entry) : outcome machine :=
  match l with
  | [] => Ok mc
  | pv :: l =>
      found ← pmap_extract_nolock mc pm (pv_va pv);
      pa ← some_of found;
      pg ← some_of (vm_page_find (phys mc) pa);
      mc ← pv_unlink mc pm pg pv;
      delete_pvs mc pm l
  end.

Fixpoint free_pages mc (l : list Z) : outcome machine :=
  match l with
  | [] => Ok mc
  | pg :: l => m ← vm_page_free (phys mc) pg; free_pages (set_phys m mc) l
  end.

Definition pmap_delete mc pm : outcome machine :=
  _ ← assert (negb (pm =? pmap_kernel));
  P ← get_pmap mc pm;
  mc ← delete_pvs mc pm (pv_list P);
  mc ← free_pages mc (pte_pages P);
  pg ← some_of (vm_page_find (phys mc) (MIPS_KSEG0_TO_PHYS (pde P)));
  m ← vm_page_free (phys mc) pg;
  mc ← free_asid (set_phys m mc) (asid P);
  Ok (del_pmap pm mc).

Definition L1_SPACE_SIZE : Z := PAGESIZE * PAGESIZE / 4.

Fixpoint grow_loop (fuel : nat) mc va (maxkvaddr : Z) : outcome machine :=
  if va <? maxkvaddr then
    match fuel with
    | O => Fault OutOfFuel
    | S fuel =>
        P ← get_pmap mc pmap_kernel;
        d ← PDE_OF mc P va;
        mc ← (if negb (is_valid_pde d) then '(_, mc) ← pmap_add_pde mc pmap_kernel va; Ok mc else Ok mc);
        grow_loop fuel mc (wrap (va + L1_SPACE_SIZE)) maxkvaddr
    end
  else Ok mc.

Definition roundup2 (x m : Z) : Z := wrap (Z.lor (wrap (x - 1)) (m - 1) + 1).

Definition pmap_growkernel mc (maxkvaddr : Z) : outcome machine :=
  _ ← assert (vm_kernel_end mc <? maxkvaddr);
  let maxkvaddr := roundup2 maxkvaddr L1_SPACE_SIZE in
  mc ← grow_loop (Z.to_nat PT_ENTRIES) mc (vm_kernel_end mc) maxkvaddr;
  Ok (set_kernel_end maxkvaddr mc).

(** ** Bits of the words *)

Lemma aligned_div a : page_aligned_p a = true -> a = a / 2 ^ 12 * 2 ^ 12.
Proof.
  intros H. apply (is_aligned_pow2 _ 12) in H; [|lia]. pose proof (Z.div_mod a (2 ^ 12) ltac:(lia)). lia.
Qed.

Lemma aligned_mul f : page_aligned_p (f * 2 ^ 12) = true.
Proof. apply (is_aligned_pow2 _ 12); [lia|]. apply Z.mod_mul. lia. Qed.

Lemma pfn_spec f : 0 <= f < 2 ^ 20 -> PTE_PFN (f * 2 ^ 12) = f * 2 ^ 6.
Proof.
  intros Hf. unfold PTE_PFN, PTE_PFN_MASK, PTE_PFN_SHIFT. rewrite Z.shiftr_div_pow2 by lia.
  replace (f * 2 ^ 12 / 2 ^ 6) with (f * 2 ^ 6) by (change (2 ^ 12) with (2 ^ 6 * 2 ^ 6); rewrite Z.mul_assoc, Z.div_mul; lia).
  change 0x03ffffc0 with (Z.shiftl (Z.ones 20) 6). rewrite <- Z.shiftl_mul_pow2 by lia. rewrite <- Z.shiftl_land. f_equal.
  rewrite Z.land_ones by lia. apply Z.mod_small. lia.
Qed.

Lemma mul_low_bits f n k : 0 <= f < 2 ^ n -> 0 <= n -> k < 6 \/ n + 6 <= k -> Z.testbit (f * 2 ^ 6) k = false.
Proof.
  intros Hf Hn [Hk|Hk]; [by apply Z.mul_pow2_bits_low|]. rewrite Z.mul_pow2_bits by lia.
  destruct (decide (f = 0)) as [->|]; [apply Z.testbit_0_l|]. apply Z.bits_above_log2; [lia|].
  assert (Z.log2 f < n) by (apply Z.log2_lt_pow2; lia). lia.
Qed.

Lemma frame_spec f x : 0 <= f < 2 ^ 20 -> Z.land x PTE_PFN_MASK = 0 -> PTE_FRAME_ADDR (Z.lor (PTE_PFN (f * 2 ^ 12)) x) = f * 2 ^ 12.
Proof.
  intros Hf Hx. unfold PTE_FRAME_ADDR, PTE_PFN_OF. rewrite pfn_spec by done. rewrite Z.land_lor_distr_l, Hx, Z.lor_0_r.
  change PTE_PFN_MASK with (Z.shiftl (Z.ones 20) 6). rewrite <- Z.shiftl_mul_pow2, <- Z.shiftl_land by lia.
  unfold PTE_PFN_SHIFT. rewrite Z.shiftr_shiftl_l by lia. change (6 - 6) with 0. rewrite Z.shiftl_0_r, Z.land_ones, Z.mod_small by lia. done.
Qed.

Lemma flag_pfn f x k : 0 <= f < 2 ^ 20 -> 0 <= k < 6 \/ 26 <= k -> flag_on (Z.lor (PTE_PFN (f * 2 ^ 12)) x) (2 ^ k) = flag_on x (2 ^ k).
Proof.
  intros Hf Hk. rewrite !flag_on_bit by lia. rewrite Z.lor_spec, pfn_spec by done. rewrite (mul_low_bits f 20) by lia. done.
Qed.

Lemma pt_base_spec f : 0 <= f < 2 ^ 20 -> PT_BASE (Z.lor (PTE_PFN (f * 2 ^ 12)) PTE_KERNEL) = f * 2 ^ 12.
Proof.
  intros Hf. unfold PT_BASE, PTE_PFN_SHIFT, uwrap. rewrite pfn_spec by done. rewrite <- Z.land_ones by lia.
  rewrite Z.shiftr_lor, Z.shiftl_lor, Z.land_lor_distr_l. change (Z.land (Z.shiftl (Z.shiftr PTE_KERNEL 6) 12) (Z.ones 32)) with 0.
  rewrite Z.lor_0_r, Z.shiftr_div_pow2, Z.div_mul, Z.shiftl_mul_pow2, Z.land_ones by lia. apply Z.mod_small. lia.
Qed.

(** Frames within the window [KSEG0] *)
Definition frame_ok (a : Z) : Prop := page_aligned_p a = true /\ 0 < a < 2 ^ 29.

Lemma kseg0_val a : 0 <= a < 2 ^ 29 -> MIPS_PHYS_TO_KSEG0 a = a + 2 ^ 31.
Proof.
  intros Ha. unfold MIPS_PHYS_TO_KSEG0. rewrite Z.lor_comm. change 0x80000000 with (1 * 2 ^ 31). rewrite lor_low by lia. lia.
Qed.

Lemma kseg0_phys a : 0 <= a < 2 ^ 29 -> MIPS_KSEG0_TO_PHYS (MIPS_PHYS_TO_KSEG0 a) = a.
Proof.
  intros Ha. rewrite kseg0_val by done. unfold MIPS_KSEG0_TO_PHYS. change 0x1fffffff with (Z.ones 29). rewrite Z.land_ones by lia.
  change (2 ^ 31) with (4 * 2 ^ 29). rewrite Z.mod_add by lia. apply Z.mod_small. lia.
Qed.

Definition pde_of (t : Z) : Z := Z.lor (PTE_PFN (MIPS_PHYS_TO_KSEG0 t)) PTE_KERNEL.

Lemma pde_of_base t : frame_ok t -> PT_BASE (pde_of t) = MIPS_PHYS_TO_KSEG0 t.
Proof.
  intros [Ha Ht]. unfold pde_of. rewrite kseg0_val by lia. rewrite (aligned_div t Ha). change (2 ^ 31) with (2 ^ 19 * 2 ^ 12).
  rewrite <- Z.mul_add_distr_r. apply pt_base_spec. pose proof (aligned_div t Ha). assert (0 <= t / 2 ^ 12 < 2 ^ 17) by (split; lia). lia.
Qed.

Lemma pde_of_valid t : frame_ok t -> is_valid_pde (pde_of t) = true.
Proof.
  intros [Ha Ht]. unfold pde_of, is_valid_pde, PDE_VALID. rewrite kseg0_val by lia. rewrite (aligned_div t Ha). change (2 ^ 31) with (2 ^ 19 * 2 ^ 12).
  rewrite <- Z.mul_add_distr_r. change PTE_VALID with (2 ^ 1). rewrite flag_pfn; [done| |lia].
  pose proof (aligned_div t Ha). assert (0 <= t / 2 ^ 12 < 2 ^ 17) by (split; lia). lia.
Qed.

Lemma pde_index_spec va : 0 <= va < 2 ^ 32 -> PDE_INDEX va = va / 2 ^ 22.
Proof.
  intros H. unfold PDE_INDEX. rewrite Z.shiftr_land. change (Z.shiftr 0xffc00000 22) with (Z.ones 10).
  rewrite Z.land_ones, Z.shiftr_div_pow2 by lia. apply Z.mod_small. split; [apply Z.div_pos; lia|apply Z.div_lt_upper_bound; lia].
Qed.

Lemma pte_index_spec va : PTE_INDEX va = (va / 2 ^ 12) `mod` 2 ^ 10.
Proof.
  unfold PTE_INDEX. rewrite Z.shiftr_land. change (Z.shiftr 0x003ff000 12) with (Z.ones 10). by rewrite Z.land_ones, Z.shiftr_div_pow2 by lia.
Qed.

Lemma index_inj va va' : 0 <= va < 2 ^ 32 -> 0 <= va' < 2 ^ 32 -> page_aligned_p va = true -> page_aligned_p va' = true ->
  PDE_INDEX va = PDE_INDEX va' -> PTE_INDEX va = PTE_INDEX va' -> va = va'.
Proof.
  intros H H' A A'. rewrite !pde_index_spec, !pte_index_spec by done. intros E1 E2. rewrite (aligned_div va A), (aligned_div va' A').
  f_equal. change (2 ^ 22) with (2 ^ 12 * 2 ^ 10) in E1. rewrite <- !Z.div_div in E1 by lia.
  pose proof (Z.div_mod (va / 2 ^ 12) (2 ^ 10) ltac:(lia)). pose proof (Z.div_mod (va' / 2 ^ 12) (2 ^ 10) ltac:(lia)). lia.
Qed.

(** ** What the page allocator leaves alone *)

(** The addresses of pages and their lists of mappings. *)
Definition kept (m m' : physmem) : Prop :=
  seglist m' = seglist m /\ length (pages m') = length (pages m) /\
  forall i p', pget m' i = Some p' -> exists p, pget m i = Some p /\ paddr p' = paddr p /\ pv_empty p' = pv_empty p.

Lemma kept_refl m : kept m m.
Proof. split_and!; try done. intros i p H. by exists p. Qed.

Lemma kept_trans m1 m2 m3 : kept m1 m2 -> kept m2 m3 -> kept m1 m3.
Proof.
  intros (A1 & A2 & A3) (B1 & B2 & B3). split_and!; [congruence..|]. intros i p3 H3. destruct (B3 i p3 H3) as (p2 & H2 & ? & ?).
  destruct (A3 i p2 H2) as (p1 & H1 & ? & ?). exists p1. split_and!; congruence.
Qed.

Lemma kept_lists m m' : seglist m' = seglist m -> pages m' = pages m -> kept m m'.
Proof. intros E1 E2. split_and!; [done|by rewrite E2|]. intros i p. unfold pget. rewrite E2. intros H. by exists p. Qed.

Lemma kept_page m m' i p : kept m m' -> pget m i = Some p -> exists p', pget m' i = Some p' /\ paddr p' = paddr p /\ pv_empty p' = pv_empty p.
Proof.
  intros (_ & Hl & K) Hp. destruct (same_len_dom m m' i Hl ltac:(by eexists)) as [p' Hp']. destruct (K i p' Hp') as (q & Hq & E1 & E2).
  exists p'. split_and!; congruence.
Qed.

(** A change of a page that leaves these alone *)
Definition mild (f : vm_page -> vm_page) : Prop := forall p, paddr (f p) = paddr p /\ pv_empty (f p) = pv_empty p.

Lemma upd_page_kept m i f m' : upd_page m i f = Ok m' -> mild f -> kept m m'.
Proof.
  intros E Hf. assert (exists p, pget m i = Some p) as [p Hp].
  { unfold upd_page, arr_get in E. unfold pget. destruct (0 <=? i); [|discriminate E].
    destruct (pages m !! Z.to_nat i) as [p|]; [by exists p|discriminate E]. }
  destruct (upd_page_spec m i p f Hp) as (m1 & E1 & (S1 & _) & L1 & G1). assert (m1 = m') as -> by congruence.
  split_and!; try done. intros j q Hq. rewrite G1 in Hq. case_decide; [|by exists q]. subst. injection Hq as <-. exists p. split; [done|]. apply Hf.
Qed.

Lemma upd_pages_kept f (n : nat) : forall m i m', upd_pages m i n f = Ok m' -> mild f -> kept m m'.
Proof.
  induction n as [|n IH]; intros m i m' E Hf; cbn in E; outcome_inv; [apply kept_refl|].
  eapply kept_trans; [by eapply upd_page_kept|by eapply IH].
Qed.

Lemma fl_remove_kept m fl i m' : fl_remove m fl i = Ok m' -> kept m m'.
Proof. unfold fl_remove. intros E. outcome_inv. by apply kept_lists. Qed.
Lemma fl_insert_head_kept m fl i m' : fl_insert_head m fl i = Ok m' -> kept m m'.
Proof. unfold fl_insert_head. intros E. outcome_inv. by apply kept_lists. Qed.
Lemma count_add_kept m fl d m' : count_add m fl d = Ok m' -> kept m m'.
Proof. unfold count_add. intros E. outcome_inv. by apply kept_lists. Qed.

(** Follows the steps of a finished computation back to its start. *)
Ltac kept_tac :=
  match goal with
  | |- kept ?m ?m => apply kept_refl
  | H : upd_page ?v _ _ = Ok ?m |- kept _ ?m => apply (kept_trans _ v); [clear H; kept_tac|apply (upd_page_kept _ _ _ _ H); by intros ?]
  | H : upd_pages ?v _ _ _ = Ok ?m |- kept _ ?m => apply (kept_trans _ v); [clear H; kept_tac|apply (upd_pages_kept _ _ _ _ _ H); by intros ?]
  | H : fl_remove ?v _ _ = Ok ?m |- kept _ ?m => apply (kept_trans _ v); [clear H; kept_tac|apply (fl_remove_kept _ _ _ _ H)]
  | H : fl_insert_head ?v _ _ = Ok ?m |- kept _ ?m => apply (kept_trans _ v); [clear H; kept_tac|apply (fl_insert_head_kept _ _ _ _ H)]
  | H : count_add ?v _ _ = Ok ?m |- kept _ ?m => apply (kept_trans _ v); [clear H; kept_tac|apply (count_add_kept _ _ _ _ H)]
  | H : kept ?v ?m |- kept _ ?m => apply (kept_trans _ v); [clear H; kept_tac|exact H]
  end.

Lemma split_page_kept m fl m' : pm_split_page m fl = Ok m' -> kept m m'.
Proof. unfold pm_split_page. intros E. outcome_inv. kept_tac. Qed.

Lemma take_page_kept m fl pg m' : pm_take_page m fl = Ok (pg, m') -> kept m m'.
Proof. unfold pm_take_page. intros E. outcome_inv. kept_tac. Qed.

Lemma split_down_kept (fuel : nat) : forall m fl n m', split_down fuel m fl n = Ok m' -> kept m m'.
Proof.
  induction fuel as [|fuel IH]; intros m fl n m' E; cbn in E; destruct (n <? fl); outcome_inv; [kept_tac..| |kept_tac].
  apply IH in E. apply split_page_kept in E0. kept_tac.
Qed.

Lemma page_alloc_kept m n r m' : vm_page_alloc m n = Ok (r, m') -> kept m m'.
Proof.
  unfold vm_page_alloc. intros E. outcome_inv. destruct (PM_NQUEUES <=? _); outcome_inv; [kept_tac|].
  destruct v2 as [pg m2]. outcome_inv. apply split_down_kept in E2. apply take_page_kept in E3. kept_tac.
Qed.

Lemma merge_buddies_kept m a b pg m' : pm_merge_buddies m a b = Ok (pg, m') -> kept m m'.
Proof. unfold pm_merge_buddies. intros E. outcome_inv. destruct (b <? a); outcome_inv; kept_tac. Qed.

Lemma merge_loop_kept sg (fuel : nat) : forall m pg r m', merge_loop fuel m sg pg = Ok (r, m') -> kept m m'.
Proof.
  induction fuel as [|fuel IH]; intros m pg r m' E; cbn in E; outcome_inv. destruct v as [buddy|]; outcome_inv; [|kept_tac].
  destruct v3 as [pg' m3]. apply IH in E. repeat match goal with H : pm_merge_buddies _ _ _ = _ |- _ => apply merge_buddies_kept in H end. kept_tac.
Qed.

Lemma release_pages_kept (n : nat) : forall m pg m', release_pages m pg n = Ok m' -> kept m m'.
Proof. induction n as [|n IH]; intros m pg m' E; cbn in E; outcome_inv; [kept_tac|]. apply IH in E. kept_tac. Qed.

Lemma page_free_kept m pg m' : vm_page_free m pg = Ok m' -> kept m m'.
Proof.
  unfold vm_page_free, vm_page_free_nolock. intros E. outcome_inv. revert E.
  assert (forall sgs m, free_in_segs m sgs pg v = Ok m' -> kept m m') as H; [|apply H].
  induction sgs as [|sg sgs IH]; intros m1 E; cbn in E; [outcome_inv|]. destruct (_ && _); [|by apply IH].
  unfold pm_free_from_seg in E. outcome_inv. destruct (negb _); outcome_inv. destruct v1 as [pg' m2]. outcome_inv.
  apply merge_loop_kept in E2. apply release_pages_kept in E. kept_tac.
Qed.

(** ** Single pages *)

Notation blocks := (gmap Z (nat * bstate)).
Implicit Types (m : physmem) (B : blocks) (p : vm_page).

(** The page [pg] at the address [a] is handed out. *)
Definition held m B pg a : Prop := B !! pg = Some (0%nat, BUsed) /\ exists p, pget m pg = Some p /\ paddr p = a.

Lemma held_seg m B pg a : pm_inv m B -> held m B pg a ->
  exists sg, sg ∈ seglist m /\ in_seg sg pg 1 /\ a = seg_start sg + (pg - seg_pages sg) * PAGESIZE.
Proof.
  intros I (Hb & p & Hp & Ha). destruct (pm_block _ _ I _ _ _ Hb) as ((sg & Hsg & _ & Hin) & _). change (bsize 0) with 1 in Hin.
  exists sg. split_and!; try done. rewrite <- Ha. by apply (so_paddr _ _ (pm_segs _ _ I) sg pg p).
Qed.

Lemma held_inj m B pg pg' a : pm_inv m B -> held m B pg a -> held m B pg' a -> pg = pg'.
Proof.
  intros I H H'. destruct (held_seg m B pg a I H) as (sg & Hsg & Hin & E), (held_seg m B pg' a I H') as (sg' & Hsg' & Hin' & E').
  pose proof (pm_segs _ _ I) as [S1 S2 S3]. unfold in_seg in *.
  destruct (decide (sg = sg')) as [->|Hne]; [unfold PAGESIZE in *; lia|]. destruct (S3 sg sg' Hsg Hsg' Hne) as [Ha _].
  destruct (S1 sg Hsg) as (_ & _ & _ & F), (S1 sg' Hsg') as (_ & _ & _ & F'). unfold PAGESIZE in *. lia.
Qed.

Lemma held_fun m B pg a b : held m B pg a -> held m B pg b -> a = b.
Proof. intros (_ & p & Hp & Ha) (_ & q & Hq & Hb). congruence. Qed.

Lemma held_kept m B m' B' pg a : kept m m' -> held m B pg a -> B' !! pg = Some (0%nat, BUsed) -> held m' B' pg a.
Proof. intros K (_ & p & Hp & Ha) Hb. destruct (kept_page m m' pg p K Hp) as (p' & Hp' & E & _). split; [done|]. exists p'. split; congruence. Qed.

Lemma find_held m B pg a off : pm_inv m B -> held m B pg a -> 0 <= off < PAGESIZE -> vm_page_find m (a + off) = Some pg.
Proof.
  intros I H Hoff. destruct (held_seg m B pg a I H) as (sg & Hsg & Hin & E). destruct (so_size _ _ (pm_segs _ _ I) sg Hsg) as (_ & _ & _ & F).
  unfold vm_page_find. rewrite (find_in_segs_spec m sg (a + off) (seglist m) (pm_segs _ _ I) Hsg (fun _ H' => H')) by (unfold in_seg, PAGESIZE in *; lia).
  f_equal. rewrite E. replace (seg_start sg + (pg - seg_pages sg) * PAGESIZE + off - seg_start sg) with (off + (pg - seg_pages sg) * PAGESIZE) by lia.
  rewrite Z.div_add, Z.div_small by (unfold PAGESIZE in *; lia). lia.
Qed.

Lemma alloc1_spec m B : pm_inv m B ->
  vm_page_alloc m 1 = Ok (None, m) \/
  exists pg m' B' a, vm_page_alloc m 1 = Ok (Some pg, m') /\ pm_inv m' B' /\ kept m m' /\ held m' B' pg a /\
    (forall p, pget m' pg = Some p -> pv_empty p = true) /\ (forall k, B !! pg <> Some (k, BUsed)) /\
    forall h k, h <> pg -> B' !! h = Some (k, BUsed) <-> B !! h = Some (k, BUsed).
Proof.
  intros I. change 1 with (bsize 0). destruct (page_alloc_spec m B 0 I ltac:(lia)) as [[E _]|(pg & m' & B1 & E & [R1 R2] & Hb & I')]; [by left|right].
  pose proof (page_alloc_kept _ _ _ _ E) as K.
  assert ((<[pg := (0%nat, BUsed)]> B1) !! pg = Some (0%nat, BUsed)) as Hb' by apply lookup_insert_eq.
  destruct (pm_block _ _ I' _ _ _ Hb') as (_ & (p & Hp & _) & _). destruct (R2 pg 0%nat Hb) as (h & k & Hh & Hlo & Hhi). pose proof (bsize_pos k).
  change (bsize 0) with 1 in Hhi.
  exists pg, m', (<[pg := (0%nat, BUsed)]> B1), (paddr p). split_and!; try done.
  - split; [done|]. by exists p.
  - intros p' Hp'. assert (p' = p) as -> by congruence. destruct K as (_ & _ & K). destruct (K pg p Hp) as (q & Hq & _ & ->).
    destruct (pm_block _ _ I _ _ _ Hh) as (_ & _ & HP). destruct (HP pg ltac:(lia)) as (q' & Hq' & [_ Hv]). congruence.
  - intros k' Hu. destruct (decide (h = pg)) as [->|Hne]; [congruence|]. pose proof (bsize_pos k').
    destruct (pm_apart _ _ I _ _ _ _ _ _ Hh Hu Hne); lia.
  - intros h' k' Hne. rewrite lookup_insert_ne by done. by apply R1.
Qed.

Lemma free1_spec m B pg a : pm_inv m B -> held m B pg a -> (forall p, pget m pg = Some p -> pv_empty p = true) ->
  exists m' B', vm_page_free m pg = Ok m' /\ pm_inv m' B' /\ kept m m' /\
    forall h k, B' !! h = Some (k, BUsed) <-> B !! h = Some (k, BUsed) /\ h <> pg.
Proof.
  intros I (Hb & p & Hp & Ha) Hv. destruct (page_free_spec m B pg 0 I Hb) as (m' & B' & E & I' & HU & _).
  { intros i q Hi. change (bsize 0) with 1 in Hi. assert (i = pg) as -> by lia. apply Hv. }
  pose proof (page_free_kept _ _ _ E). by exists m', B'.
Qed.

(** A change of a page that is handed out *)
Lemma upd_held m B pg a f : pm_inv m B -> held m B pg a ->
  (forall p, paddr (f p) = paddr p /\ pg_size (f p) = pg_size p /\
     flag_on (flags (f p)) PG_ALLOCATED = flag_on (flags p) PG_ALLOCATED /\ flag_on (flags (f p)) PG_MANAGED = flag_on (flags p) PG_MANAGED) ->
  exists m' p, upd_page m pg f = Ok m' /\ pm_inv m' B /\ pget m pg = Some p /\ seglist m' = seglist m /\
    forall j, pget m' j = if decide (j = pg) then Some (f p) else pget m j.
Proof.
  intros I (Hb & p & Hp & _) Hf. destruct (upd_page_spec m pg p f Hp) as (m' & E & (S1 & S2 & S3) & L & G). exists m', p. split_and!; try done.
  destruct (Hf p) as (F1 & F2 & F3 & F4). destruct I as [I1 I2 I3 I4 I5 I6]. split.
  - by rewrite S2, S3.
  - rewrite S1. destruct I2 as [T1 T2 T3]. split; [by rewrite L| |done]. intros sg i q Hsg Hin Hq. rewrite G in Hq. case_decide; [|by apply T2].
    subst i. injection Hq as <-. rewrite F1. by apply (T2 sg pg p).
  - intros h k st Hh. destruct (I3 h k st Hh) as (J1 & (q & Hq & Hs) & J3). split; [by rewrite S1|]. split.
    + destruct (decide (h = pg)) as [->|Hne]; [|exists q; by rewrite G, decide_False]. exists (f p). rewrite G, decide_True by done. split; [done|].
      rewrite F2. congruence.
    + intros i Hi. destruct (J3 i Hi) as (q' & Hq' & Hst). rewrite G. case_decide; [|by exists q']. subst i. exists (f p). split; [done|].
      assert (h = pg) as ->. { destruct (decide (h = pg)); [done|]. change (bsize 0) with 1 in *. destruct (I4 _ _ _ _ _ _ Hh Hb ltac:(done)) as [?|H']; [lia|].
        change (bsize 0) with 1 in H'. lia. }
      assert (st = BUsed) as -> by congruence. assert (q' = p) as -> by congruence. cbn in *. congruence.
  - done.
  - intros i q Hq. rewrite G in Hq. case_decide; [|by apply I5]. subst i. injection Hq as <-. rewrite F4. by apply I5.
  - by rewrite S1.
Qed.

(** ** Directories and tables *)

(** Who uses a page frame: the contents of an object, the directory of a map, or the table of
    a map for an index of its directory. *)
Inductive owner := OData | ODir (pm : Z) | OTab (pm i : Z).

Implicit Types (own : gmap Z owner) (o : owner).

Definition of_kernel o : bool := match o with OData => false | ODir pm => pm =? pmap_kernel | OTab pm _ => pm =? pmap_kernel end.

(** The tables of the kernel that were set up at boot time are not pages of the allocator. *)
Record tables own B mc : Prop := {
  tb_phys : pm_inv (phys mc) B;
  tb_frame pg p : pget (phys mc) pg = Some p -> frame_ok (paddr p) /\ is_Some (ram mc !! paddr p);
  tb_own a o : own !! a = Some o -> frame_ok a /\
    ((exists pg, held (phys mc) B pg a) \/ of_kernel o = true /\ forall pg p, pget (phys mc) pg = Some p -> paddr p <> a);
  tb_dir pm P : pmaps mc !! pm = Some P -> exists d dir, pde P = MIPS_PHYS_TO_KSEG0 d /\ own !! d = Some (ODir pm) /\
    ram mc !! d = Some dir /\ length dir = 1024%nat /\
    forall i w, dir !! i = Some w -> is_valid_pde w = true ->
      exists t tab, w = pde_of t /\ own !! t = Some (OTab pm (Z.of_nat i)) /\ ram mc !! t = Some tab /\ length tab = 1024%nat;
  tb_pages pm P : pmaps mc !! pm = Some P -> pm <> pmap_kernel ->
    NoDup (pte_pages P) /\ forall pg, pg ∈ pte_pages P -> exists a i, held (phys mc) B pg a /\ own !! a = Some (OTab pm i);
  tb_id pm P : pmaps mc !! pm = Some P -> pm < fresh mc;
  tb_bits : wf_bits (asid_used mc) MAX_ASID;
  tb_asid pm P : pmaps mc !! pm = Some P -> 0 <= asid P < MAX_ASID /\ bget (asid_used mc) (asid P) = true /\ (asid P = 0 <-> pm = pmap_kernel);
  tb_asids pm pm' P P' : pmaps mc !! pm = Some P -> pmaps mc !! pm' = Some P' -> asid P = asid P' -> pm = pm';
  tb_kernel : is_Some (pmaps mc !! pmap_kernel);
}.

Definition word_va va : Prop := 0 <= va < 2 ^ 32.

Lemma index_range va : word_va va -> 0 <= PDE_INDEX va < 1024 /\ 0 <= PTE_INDEX va < 1024.
Proof.
  intros H. rewrite pde_index_spec, pte_index_spec by done. split; [|apply Z.mod_pos_bound; lia].
  unfold word_va in H. split; [apply Z.div_pos; lia|apply Z.div_lt_upper_bound; lia].
Qed.

Lemma word_get_ok mc a i l x : 0 <= a < 2 ^ 29 -> ram mc !! a = Some l -> 0 <= i -> l !! Z.to_nat i = Some x ->
  word_get mc (MIPS_PHYS_TO_KSEG0 a) i = Ok x.
Proof.
  intros Ha Hl Hi Hx. unfold word_get. rewrite kseg0_phys, Hl by done. cbn [some_of mbind outcome_bind]. by apply arr_get_ok.
Qed.

Lemma word_set_ok mc a i l w : 0 <= a < 2 ^ 29 -> ram mc !! a = Some l -> 0 <= i < Z.of_nat (length l) ->
  word_set mc (MIPS_PHYS_TO_KSEG0 a) i w = Ok (set_ram (<[a := <[Z.to_nat i := w]> l]> (ram mc)) mc).
Proof.
  intros Ha Hl Hi. unfold word_set. rewrite kseg0_phys, Hl by done. cbn [some_of mbind outcome_bind].
  rewrite arr_set_ok by lia. done.
Qed.

Lemma frame_range a : frame_ok a -> 0 <= a < 2 ^ 29.
Proof. intros [_ H]. lia. Qed.

(** The two steps of a walk through the tables *)
Record walk own mc pm P va (d : Z) (dir : list Z) (w : Z) : Prop := {
  wk_pde : pde P = MIPS_PHYS_TO_KSEG0 d;
  wk_frame : frame_ok d;
  wk_own : own !! d = Some (ODir pm);
  wk_dir : ram mc !! d = Some dir;
  wk_len : length dir = 1024%nat;
  wk_word : dir !! Z.to_nat (PDE_INDEX va) = Some w;
  wk_get : PDE_OF mc P va = Ok w;
  wk_valid : is_valid_pde w = true -> exists t tab x, w = pde_of t /\ frame_ok t /\ own !! t = Some (OTab pm (PDE_INDEX va)) /\
    ram mc !! t = Some tab /\ length tab = 1024%nat /\ tab !! Z.to_nat (PTE_INDEX va) = Some x /\ PTE_OF mc w va = Ok x;
}.

Lemma walk_ok own B mc pm P va : tables own B mc -> pmaps mc !! pm = Some P -> word_va va -> exists d dir w, walk own mc pm P va d dir w.
Proof.
  intros T HP Hva. destruct (tb_dir _ _ _ T pm P HP) as (d & dir & E1 & E2 & E3 & E4 & E5). destruct (index_range va Hva) as [H1 H2].
  destruct (lookup_lt_is_Some_2 dir (Z.to_nat (PDE_INDEX va)) ltac:(lia)) as [w Hw]. pose proof (tb_own _ _ _ T d _ E2) as [Hd _].
  exists d, dir, w. split; try done.
  - unfold PDE_OF. rewrite E1. apply (word_get_ok mc d _ dir); try done; [by apply frame_range|lia].
  - intros Hv. destruct (E5 _ _ Hw Hv) as (t & tab & -> & F1 & F2 & F3). rewrite Z2Nat.id in F1 by lia.
    pose proof (tb_own _ _ _ T t _ F1) as [Ht _]. destruct (lookup_lt_is_Some_2 tab (Z.to_nat (PTE_INDEX va)) ltac:(lia)) as [x Hx].
    exists t, tab, x. split_and!; try done; try apply Ht.
    unfold PTE_OF. rewrite pde_of_base by done. apply (word_get_ok mc t _ tab); try done; [by apply frame_range|lia].
Qed.

Lemma read_walk own mc pm P va d dir w : pmaps mc !! pm = Some P -> walk own mc pm P va d dir w ->
  pmap_pte_read mc pm va = if is_valid_pde w then PTE_OF mc w va else Ok 0.
Proof.
  intros HP W. unfold pmap_pte_read, get_pmap. rewrite HP. cbn [some_of mbind outcome_bind]. rewrite (wk_get _ _ _ _ _ _ _ _ W).
  cbn [mbind outcome_bind]. by destruct (is_valid_pde w).
Qed.

(** Two memories have the same words of the directory and of the table for an address. *)
Definition same_words own mc mc' pm va : Prop := forall a o l, own !! a = Some o -> ram mc !! a = Some l ->
  (o = ODir pm -> exists l', ram mc' !! a = Some l' /\ l' !! Z.to_nat (PDE_INDEX va) = l !! Z.to_nat (PDE_INDEX va)) /\
  (o = OTab pm (PDE_INDEX va) -> exists l', ram mc' !! a = Some l' /\ l' !! Z.to_nat (PTE_INDEX va) = l !! Z.to_nat (PTE_INDEX va)).

Lemma read_same own B mc mc' pm P P' va : tables own B mc -> pmaps mc !! pm = Some P -> pmaps mc' !! pm = Some P' -> pde P' = pde P -> word_va va ->
  same_words own mc mc' pm va -> pmap_pte_read mc' pm va = pmap_pte_read mc pm va.
Proof.
  intros T HP HP' Epde Hva Hr. destruct (walk_ok own B mc pm P va T HP Hva) as (d & dir & w & W). destruct (index_range va Hva) as [H1 H2].
  rewrite (read_walk own mc pm P va d dir w HP W). destruct W as [W1 W2 W3 W4 W5 W6 W7 W8].
  unfold pmap_pte_read, get_pmap. rewrite HP'. cbn [some_of mbind outcome_bind].
  destruct (proj1 (Hr d _ _ W3 W4) eq_refl) as (dir' & D1 & D2).
  assert (PDE_OF mc' P' va = Ok w) as ->.
  { unfold PDE_OF. rewrite Epde, W1. apply (word_get_ok mc' d _ dir'); [by apply frame_range|done|lia|congruence]. }
  cbn [mbind outcome_bind]. destruct (is_valid_pde w); [|done]. cbn [negb]. destruct (W8 eq_refl) as (t & tab & x & -> & F1 & F2 & F3 & F4 & F5 & ->).
  destruct (proj2 (Hr t _ _ F2 F3) eq_refl) as (tab' & D3 & D4).
  unfold PTE_OF. rewrite pde_of_base by done. apply (word_get_ok mc' t _ tab'); [by apply frame_range|done|lia|congruence].
Qed.

(** A frame that is not a directory gets other words. *)
Lemma tables_write own B mc a l : tables own B mc ->
  match own !! a with Some (ODir _) => False | Some (OTab _ _) => length l = 1024%nat | _ => True end ->
  tables own B (set_ram (<[a := l]> (ram mc)) mc).
Proof.
  intros [T1 T2 T3 T4 T5 T6 T7 T8 T9 T10] Hl. split; cbn [phys ram pmaps fresh asid_used set_ram]; try done.
  - intros pg p Hp. destruct (T2 pg p Hp) as [? Hs]. split; [done|]. destruct (decide (paddr p = a)) as [->|]; [by rewrite lookup_insert_eq|by rewrite lookup_insert_ne].
  - intros pm P HP. destruct (T4 pm P HP) as (d & dir & E1 & E2 & E3 & E4 & E5). exists d, dir. split_and!; try done.
    + rewrite lookup_insert_ne; [done|]. intros ->. by rewrite E2 in Hl.
    + intros i w Hw Hv. destruct (E5 i w Hw Hv) as (t & tab & -> & F1 & F2 & F3). destruct (decide (t = a)) as [->|Hne].
      * exists a, l. rewrite lookup_insert_eq. by rewrite F1 in Hl.
      * exists t, tab. by rewrite lookup_insert_ne.
Qed.

(** A directory gets the word of a table. *)
Lemma tables_dir own B mc d dir i t tab pm P : tables own B mc -> pmaps mc !! pm = Some P -> pde P = MIPS_PHYS_TO_KSEG0 d -> own !! d = Some (ODir pm) ->
  ram mc !! d = Some dir -> own !! t = Some (OTab pm (Z.of_nat i)) -> ram mc !! t = Some tab -> length tab = 1024%nat -> length dir = 1024%nat ->
  tables own B (set_ram (<[d := <[i := pde_of t]> dir]> (ram mc)) mc).
Proof.
  intros T HP Hd Hod Hrd Hot Hrt Hlt Hlen. pose proof T as [T1 T2 T3 T4 T5 T6 T7 T8 T9 T10]. split; cbn [phys ram pmaps fresh asid_used set_ram]; try done.
  - intros pg p Hp. destruct (T2 pg p Hp) as [? Hs]. split; [done|]. destruct (decide (paddr p = d)) as [->|]; [by rewrite lookup_insert_eq|by rewrite lookup_insert_ne].
  - assert (forall t' pm' i', own !! t' = Some (OTab pm' i') -> t' <> d) as Hne by (intros t' pm' i' Ht' ->; congruence).
    intros pm' P' HP'. destruct (T4 pm' P' HP') as (d' & dir' & E1 & E2 & E3 & E4 & E5). destruct (decide (d' = d)) as [->|Hd'].
    + assert (pm' = pm) as -> by congruence. assert (dir' = dir) as -> by congruence. exists d, (<[i := pde_of t]> dir). rewrite lookup_insert_eq.
      split_and!; try done; [by rewrite length_insert|]. intros j w Hw Hv. destruct (decide (j = i)) as [->|Hj].
      * assert (i < length dir)%nat as Hi by (apply lookup_lt_Some in Hw; by rewrite length_insert in Hw).
        rewrite list_lookup_insert_eq in Hw by done. injection Hw as <-. exists t, tab. rewrite lookup_insert_ne by (symmetry; by eapply Hne). done.
      * rewrite list_lookup_insert_ne in Hw by done. destruct (E5 j w Hw Hv) as (t' & tab' & -> & F1 & F2 & F3). exists t', tab'.
        rewrite lookup_insert_ne by (symmetry; by eapply Hne). done.
    + exists d', dir'. rewrite lookup_insert_ne by done. split_and!; try done. intros j w Hw Hv. destruct (E5 j w Hw Hv) as (t' & tab' & -> & F1 & F2 & F3).
      exists t', tab'. rewrite lookup_insert_ne by (symmetry; by eapply Hne). done.
Qed.

(** The page allocator works: the pages that have an owner are still handed out. *)
Lemma tables_phys own B B' mc m : tables own B mc -> pm_inv m B' -> kept (phys mc) m ->
  (forall pg a o, own !! a = Some o -> held (phys mc) B pg a -> held m B' pg a) -> tables own B' (set_phys m mc).
Proof.
  intros [T1 T2 T3 T4 T5 T6 T7 T8 T9 T10] I K Hh. split; cbn [phys ram pmaps fresh asid_used set_phys]; try done.
  - intros pg p Hp. destruct K as (_ & _ & K). destruct (K pg p Hp) as (q & Hq & -> & _). by apply T2 in Hq.
  - intros a o Ho. destruct (T3 a o Ho) as [Hf [[pg H]|[Hk H]]]; split; try done; [left; exists pg; by apply (Hh pg a o)|right]. split; [done|].
    intros pg p Hp. destruct K as (_ & _ & K). destruct (K pg p Hp) as (q & Hq & -> & _). by apply H in Hq.
  - intros pm P HP Hk. destruct (T5 pm P HP Hk) as [Hn H]. split; [done|]. intros pg Hpg. destruct (H pg Hpg) as (a & i & J1 & J2).
    exists a, i. split; [by apply (Hh pg a (OTab pm i))|done].
Qed.

Lemma tables_own own B mc a o pg : tables own B mc -> own !! a = None -> frame_ok a -> held (phys mc) B pg a -> tables (<[a := o]> own) B mc.
Proof.
  intros [T1 T2 T3 T4 T5 T6 T7 T8 T9 T10] Ha Hf Hh. assert (forall b x, own !! b = Some x -> (<[a := o]> own) !! b = Some x) as Hs.
  { intros b x Hb. rewrite lookup_insert_ne; [done|congruence]. }
  split; try done.
  - intros b x. rewrite lookup_insert_Some. intros [[<- <-]|[_ Hb]]; [|by apply T3]. split; [done|]. left. by exists pg.
  - intros pm P HP. destruct (T4 pm P HP) as (d & dir & E1 & E2 & E3 & E4 & E5). exists d, dir. split_and!; auto. intros i w Hw Hv.
    destruct (E5 i w Hw Hv) as (t & tab & ? & ? & ? & ?). exists t, tab. split_and!; auto.
  - intros pm P HP Hk. destruct (T5 pm P HP Hk) as [Hn H]. split; [done|]. intros pg' Hpg. destruct (H pg' Hpg) as (b & i & J1 & J2). exists b, i. auto.
Qed.

(** The page that was handed out belonged to nobody. *)
Lemma fresh_frame own B mc m B' pg a : tables own B mc -> pm_inv m B' -> kept (phys mc) m -> held m B' pg a ->
  (forall k, B !! pg <> Some (k, BUsed)) -> (forall h k, h <> pg -> B' !! h = Some (k, BUsed) <-> B !! h = Some (k, BUsed)) -> own !! a = None.
Proof.
  intros T I K Hh Hnot Hu. destruct (own !! a) as [o|] eqn:Ho; [exfalso|done]. destruct (tb_own _ _ _ T a o Ho) as [_ [[pg' H']|[_ H']]].
  - assert (pg' <> pg) as Hne by (intros ->; destruct H' as [Hb _]; by apply (Hnot 0%nat)).
    apply Hne. apply (held_inj m B' pg' pg a I); [|done]. apply (held_kept (phys mc) B); try done. apply Hu; [done|]. by destruct H'.
  - destruct Hh as (_ & p & Hp & Ha). destruct K as (_ & _ & K). destruct (K pg p Hp) as (q & Hq & E & _). apply (H' pg q Hq). congruence.
Qed.

Lemma fill_table_spec (w : Z) (n : nat) : forall mc (a i : Z) (tab : list Z), 0 <= a < 2 ^ 29 -> ram mc !! a = Some tab -> 0 <= i -> i + Z.of_nat n <= Z.of_nat (length tab) ->
  exists tab' : list Z, fill_table n mc (MIPS_PHYS_TO_KSEG0 a) i w = Ok (set_ram (<[a := tab']> (ram mc)) mc) /\ length tab' = length tab /\
    forall j, tab' !! j = if decide (Z.to_nat i <= j < Z.to_nat i + n)%nat then Some w else tab !! j.
Proof.
  induction n as [|n IH]; intros mc a i tab Ha Ht Hi Hn; cbn [fill_table].
  - exists tab. rewrite insert_id by done. destruct mc. split_and!; try done. intros j. rewrite decide_False by lia. done.
  - rewrite (word_set_ok mc a i tab) by (try done; lia). cbn [mbind outcome_bind].
    destruct (IH (set_ram (<[a := <[Z.to_nat i := w]> tab]> (ram mc)) mc) a (i + 1) (<[Z.to_nat i := w]> tab)) as (tab' & -> & Hl & Hj);
      [done|cbn; by rewrite lookup_insert_eq|lia|rewrite length_insert; lia|].
    exists tab'. rewrite length_insert in Hl. cbn [ram set_ram]. rewrite insert_insert_eq. split_and!; try done. intros j. rewrite Hj.
    repeat case_decide; try lia; try done.
    + assert (j = Z.to_nat i) as -> by lia. rewrite list_lookup_insert_eq by lia. done.
    + rewrite list_lookup_insert_ne by lia. done.
Qed.

Lemma get_page_held mc B pg a : held (phys mc) B pg a -> exists p, get_page mc pg = Ok p /\ pget (phys mc) pg = Some p /\ paddr p = a.
Proof. intros (_ & p & Hp & Ha). exists p. split; [|done]. by apply pget_get. Qed.

Lemma pagealloc_spec own B mc : tables own B mc ->
  pmap_pagealloc mc = Fault NoMemory \/
  exists pg a m B', pmap_pagealloc mc = Ok (pg, set_ram (<[a := zero_page]> (ram mc)) (set_phys m mc)) /\ own !! a = None /\ frame_ok a /\
    kept (phys mc) m /\ held m B' pg a /\ (forall p, pget m pg = Some p -> pv_empty p = true) /\
    (forall h k, B !! h = Some (k, BUsed) -> B' !! h = Some (k, BUsed) /\ h <> pg) /\
    forall o, tables (<[a := o]> own) B' (set_ram (<[a := zero_page]> (ram mc)) (set_phys m mc)).
Proof.
  intros T. unfold pmap_pagealloc. destruct (alloc1_spec (phys mc) B (tb_phys _ _ _ T)) as [-> |(pg & m & B' & a & -> & I & K & Hh & Hv & Hnot & Hu)]; [by left|right].
  cbn [mbind outcome_bind]. pose proof (fresh_frame own B mc m B' pg a T I K Hh Hnot Hu) as Hfr.
  assert (forall h k, B !! h = Some (k, BUsed) -> B' !! h = Some (k, BUsed) /\ h <> pg) as Hkeep.
  { intros h k Hb. assert (h <> pg) as Hne by (intros ->; by apply (Hnot k)). split; [by apply Hu|done]. }
  assert (tables own B' (set_phys m mc)) as T1. { apply (tables_phys own B); try done. intros h b o _ Hb. apply (held_kept (phys mc) B); try done. apply Hkeep. by destruct Hb. }
  destruct (get_page_held (set_phys m mc) B' pg a Hh) as (p & Hg & Hp & Ha). pose proof (tb_frame _ _ _ T1 pg p Hp) as [Hf _]. rewrite Ha in Hf.
  unfold pmap_zero_page. rewrite Hg. cbn [mbind outcome_bind]. unfold PG_KSEG0_ADDR. rewrite Ha, kseg0_phys by (by apply frame_range).
  exists pg, a, m, B'. split_and!; try done; try apply Hf. intros o. apply (tables_own _ _ _ a o pg); try done.
  apply (tables_write own B' (set_phys m mc)); [done|]. by rewrite Hfr.
Qed.

(** There is a table for an address. *)
Definition has_table mc pm va : Prop := exists P w, pmaps mc !! pm = Some P /\ PDE_OF mc P va = Ok w /\ is_valid_pde w = true.

(** What a change of the tables of [pm] leaves alone *)
Record extends own B mc pm own' B' mc' : Prop := {
  ex_pmap : exists P P', pmaps mc !! pm = Some P /\ pmaps mc' = <[pm := P']> (pmaps mc) /\ asid P' = asid P /\ pde P' = pde P /\ pv_list P' = pv_list P;
  ex_rest : page_pvs mc' = page_pvs mc /\ fresh mc' = fresh mc /\ asid_used mc' = asid_used mc;
  ex_misc : curpmap mc' = curpmap mc /\ vm_kernel_end mc' = vm_kernel_end mc;
  ex_kept : kept (phys mc) (phys mc');
  ex_held pg k : B !! pg = Some (k, BUsed) -> B' !! pg = Some (k, BUsed);
  ex_data a : own' !! a = Some OData <-> own !! a = Some OData;
  ex_ram a : own !! a = Some OData -> ram mc' !! a = ram mc !! a;
  ex_free a o : own !! a = Some o -> own' !! a = Some o;
  ex_table pm' va : word_va va -> has_table mc pm' va -> has_table mc' pm' va;
}.

Lemma extends_trans own B mc pm own1 B1 mc1 own2 B2 mc2 :
  extends own B mc pm own1 B1 mc1 -> extends own1 B1 mc1 pm own2 B2 mc2 -> extends own B mc pm own2 B2 mc2.
Proof.
  intros [(P & P1 & E1 & E2 & E3 & E4 & E5) (R1 & R2 & R3) [C1 C1'] K1 H1 D1 M1 O1 W1] [(P1' & P2 & F1 & F2 & F3 & F4 & F5) (S1 & S2 & S3) [C2 C2'] K2 H2 D2 M2 O2 W2].
  rewrite E2, lookup_insert_eq in F1. injection F1 as <-. split.
  - exists P, P2. rewrite F2, E2, insert_insert_eq. split_and!; congruence.
  - split_and!; congruence.
  - split; congruence.
  - by apply (kept_trans _ (phys mc1)).
  - auto.
  - intros a. by rewrite D2, D1.
  - intros a Ha. rewrite M2 by (by apply D1). by apply M1.
  - auto.
  - auto.
Qed.

(** What an address is mapped to, with the protection *)
Definition pte_prot (w : Z) : Z :=
  Z.lor (if flag_on w PTE_SW_READ then VM_PROT_READ else 0)
    (Z.lor (if flag_on w PTE_SW_WRITE then VM_PROT_WRITE else 0) (if flag_on w PTE_SW_NOEXEC then 0 else VM_PROT_EXEC)).

(** A word stands for nothing if it has no address and the memory unit does not use it. *)
Definition entry (w : Z) : option (Z * Z) :=
  if (PTE_FRAME_ADDR w =? 0) && negb (flag_on w PTE_VALID) then None else Some (PTE_FRAME_ADDR w, pte_prot w).

Definition mapped mc pm va : option (Z * Z) := match pmap_pte_read mc pm va with Ok w => entry w | Fault _ => None end.

Lemma kseg0_inj a b : 0 <= a < 2 ^ 29 -> 0 <= b < 2 ^ 29 -> MIPS_PHYS_TO_KSEG0 a = MIPS_PHYS_TO_KSEG0 b -> a = b.
Proof. intros Ha Hb E. rewrite <- (kseg0_phys a), <- (kseg0_phys b) by done. by f_equal. Qed.

Lemma pde_of_inj a b : frame_ok a -> frame_ok b -> pde_of a = pde_of b -> a = b.
Proof. intros Ha Hb E. apply kseg0_inj; try (by apply frame_range). by rewrite <- !pde_of_base, E. Qed.

(** A map gets a table. *)
Lemma tables_pmap own B mc pm P pg a i : tables own B mc -> pmaps mc !! pm = Some P -> held (phys mc) B pg a -> own !! a = Some (OTab pm i) ->
  (pm <> pmap_kernel -> forall pg', pg' ∈ pte_pages P -> pg' <> pg) -> tables own B (set_pmap pm (Pmap (asid P) (pde P) (pte_pages P ++ [pg]) (pv_list P)) mc).
Proof.
  intros [T1 T2 T3 T4 T5 T6 T7 T8 T9 T10] HP Hh Ho Hn. set (P' := Pmap _ _ _ _).
  assert (forall pm1 P1, <[pm := P']> (pmaps mc) !! pm1 = Some P1 -> exists P2, pmaps mc !! pm1 = Some P2 /\ asid P1 = asid P2 /\ pde P1 = pde P2) as Hs.
  { intros pm1 P1. rewrite lookup_insert_Some. intros [[<- <-]|[_ H]]; [by exists P|by exists P1]. }
  split; cbn [phys ram pmaps fresh asid_used set_pmap]; try done.
  - intros pm1 P1 (P2 & H2 & _ & E)%Hs. rewrite E. by apply T4.
  - intros pm1 P1. rewrite lookup_insert_Some. intros [[<- <-]|[_ H]] Hk; [|by apply T5]. destruct (T5 pm P HP Hk) as [N1 N2]. cbn [pte_pages P']. split.
    + apply NoDup_app. split_and!; [done| |apply NoDup_singleton]. intros x Hx ->%list_elem_of_singleton. by apply (Hn Hk pg).
    + intros pg' [Hpg| ->%list_elem_of_singleton]%elem_of_app; [by apply N2|]. by exists a, i.
  - intros pm1 P1 (P2 & H2 & _)%Hs. by apply (T6 pm1 P2).
  - intros pm1 P1 (P2 & H2 & E & _)%Hs. rewrite E. by apply T8.
  - intros pm1 pm2 P1 P2 (Q1 & H1 & E1 & _)%Hs (Q2 & H2 & E2 & _)%Hs E. apply (T9 pm1 pm2 Q1 Q2); congruence.
  - destruct (decide (pmap_kernel = pm)) as [<-|]; [by rewrite lookup_insert_eq|by rewrite lookup_insert_ne].
Qed.

(** The state after [pmap_add_pde]: the table at [a] is new. *)
Section add_pde.
Context own B mc pm P va (d : Z) (dir : list Z) (w a : Z) m (B' : blocks) pg (tab : list Z).
Hypothesis T : tables own B mc.
Hypothesis HP : pmaps mc !! pm = Some P.
Hypothesis Hva : word_va va.
Hypothesis W : walk own mc pm P va d dir w.
Hypothesis Hw : is_valid_pde w = false.
Hypothesis Ha : own !! a = None.
Hypothesis Hf : frame_ok a.
Hypothesis HK : kept (phys mc) m.
Hypothesis HH : forall h k, B !! h = Some (k, BUsed) -> B' !! h = Some (k, BUsed) /\ h <> pg.
Hypothesis Hl : length tab = 1024%nat.
Hypothesis Htab : forall j : nat, (j < 1024)%nat -> tab !! j = Some PTE_GLOBAL.

Let own1 := <[a := OTab pm (PDE_INDEX va)]> own.
Let P1 := Pmap (asid P) (pde P) (pte_pages P ++ [pg]) (pv_list P).
Let dir1 := <[Z.to_nat (PDE_INDEX va) := pde_of a]> dir.
Let mc1 := set_ram (<[a := tab]> (<[d := dir1]> (<[a := zero_page]> (ram mc)))) (set_pmap pm P1 (set_ram (<[d := dir1]> (<[a := zero_page]> (ram mc)))
  (set_ram (<[a := zero_page]> (ram mc)) (set_phys m mc)))).

Hypothesis T1 : tables own1 B' mc1.

Lemma add_pde_ne : d <> a.
Proof. intros ->. destruct W. congruence. Qed.

Lemma add_pde_ram b o : own !! b = Some o -> o <> ODir pm -> ram mc1 !! b = ram mc !! b.
Proof.
  intros Hb Ho. destruct W. cbn. rewrite !lookup_insert_ne; congruence.
Qed.

Lemma add_pde_word : PDE_OF mc1 P1 va = Ok (pde_of a).
Proof.
  destruct (index_range va Hva) as [H1 H2]. pose proof add_pde_ne as Hne. destruct W as [W1 W2 W3 W4 W5 W6 W7 W8]. unfold PDE_OF. cbn [pde P1]. rewrite W1.
  apply (word_get_ok mc1 d _ dir1); [by apply frame_range|cbn; by rewrite lookup_insert_ne, lookup_insert_eq by done|lia|].
  unfold dir1. rewrite list_lookup_insert_eq by lia. done.
Qed.

Lemma add_pde_table pm' va' : word_va va' -> has_table mc pm' va' -> has_table mc1 pm' va'.
Proof.
  intros Hva' (P' & w' & HP' & Hw' & Hv). destruct (index_range va Hva) as [H1 _], (index_range va' Hva') as [H1' _]. pose proof add_pde_ne as Hne.
  destruct (walk_ok own B mc pm' P' va' T HP' Hva') as (d' & dir' & w2 & [W1 W2 W3 W4 W5 W6 W7 _]). assert (w2 = w') as -> by congruence.
  destruct (decide (pm' = pm)) as [->|Hpm].
  - assert (P' = P) as -> by congruence. assert (d' = d) as -> by (apply kseg0_inj; [by apply frame_range|apply frame_range, W|]; destruct W; congruence).
    assert (dir' = dir) as -> by (destruct W; congruence). exists P1, w'. split; [cbn; by rewrite lookup_insert_eq|]. split; [|done]. unfold PDE_OF. cbn [pde P1]. rewrite W1.
    apply (word_get_ok mc1 d _ dir1); [by apply frame_range|cbn; by rewrite lookup_insert_ne, lookup_insert_eq by done|lia|]. unfold dir1.
    rewrite list_lookup_insert_ne; [done|]. intros Ei. assert (PDE_INDEX va = PDE_INDEX va') as Ei' by lia. destruct W as [_ _ _ V4 _ V6 _ _]. rewrite Ei' in V6. congruence.
  - exists P', w'. split; [cbn; by rewrite lookup_insert_ne|]. split; [|done]. unfold PDE_OF. rewrite W1. apply (word_get_ok mc1 d' _ dir'); [by apply frame_range| |lia|done].
    rewrite (add_pde_ram d' (ODir pm')); [done|done|congruence].
Qed.

Lemma add_pde_extends : extends own B mc pm own1 B' mc1.
Proof.
  split; cbn; try done.
  - exists P, P1. by split_and!.
  - intros h k Hb. by apply HH.
  - intros b. unfold own1. destruct (decide (b = a)) as [->|]; [rewrite lookup_insert_eq; split; congruence|by rewrite lookup_insert_ne].
  - intros b Hb. by apply (add_pde_ram b OData).
  - intros b o Hb. unfold own1. rewrite lookup_insert_ne; congruence.
  - intros pm' va' Hva' Ht. by apply add_pde_table.
Qed.

Lemma add_pde_same pm' P' va' : pmaps mc !! pm' = Some P' -> word_va va' -> pm' <> pm \/ PDE_INDEX va' <> PDE_INDEX va ->
  pmap_pte_read mc1 pm' va' = pmap_pte_read mc pm' va'.
Proof.
  intros HP' Hva' Hd. destruct (index_range va Hva) as [H1 _], (index_range va' Hva') as [H1' _]. pose proof add_pde_ne as Hne.
  assert (exists P2, pmaps mc1 !! pm' = Some P2 /\ pde P2 = pde P') as (P2 & HP2 & Epde).
  { cbn. destruct (decide (pm' = pm)) as [->|]; [rewrite lookup_insert_eq; exists P1; by assert (P' = P) as -> by congruence|rewrite lookup_insert_ne by done; by exists P']. }
  apply (read_same own B mc mc1 pm' P' P2); try done. intros b o l Hb Hr. destruct (decide (b = d)) as [->|Hbd].
  - assert (l = dir) as -> by (destruct W; congruence). assert (o = ODir pm) as -> by (destruct W; congruence). split; [|done]. intros [= ->].
    exists dir1. cbn. rewrite lookup_insert_ne, lookup_insert_eq by done. split; [done|]. unfold dir1. rewrite list_lookup_insert_ne by lia. done.
  - assert (ram mc1 !! b = Some l) as Hr' by (cbn; rewrite !lookup_insert_ne by congruence; done). split; intros _; by exists l.
Qed.

Lemma add_pde_new va' : word_va va' -> PDE_INDEX va' = PDE_INDEX va -> pmap_pte_read mc pm va' = Ok 0 /\ pmap_pte_read mc1 pm va' = Ok PTE_GLOBAL.
Proof.
  intros Hva' Ei. destruct (index_range va' Hva') as [_ H2]. pose proof add_pde_ne as Hne. split.
  - destruct (walk_ok own B mc pm P va' T HP Hva') as (d' & dir' & w' & W'). rewrite (read_walk own mc pm P va' d' dir' w' HP W').
    assert (w' = w) as ->; [|by rewrite Hw]. destruct W as [V1 V2 V3 V4 V5 V6 V7 V8], W' as [W1 W2 W3 W4 W5 W6 W7 W8].
    unfold PDE_OF in *. rewrite Ei in W7. congruence.
  - assert (pmaps mc1 !! pm = Some P1) as HP1 by (cbn; by rewrite lookup_insert_eq).
    destruct (walk_ok own1 B' mc1 pm P1 va' T1 HP1 Hva') as (d' & dir' & w' & W'). rewrite (read_walk own1 mc1 pm P1 va' d' dir' w' HP1 W').
    assert (w' = pde_of a) as ->. { pose proof add_pde_word as E. destruct W' as [W1 W2 W3 W4 W5 W6 W7 W8]. unfold PDE_OF in *. rewrite Ei in W7. congruence. }
    destruct W' as [W1 W2 W3 W4 W5 W6 W7 W8]. rewrite pde_of_valid in * by done. destruct (W8 eq_refl) as (t & tab' & x & Et & F1 & F2 & F3 & F4 & F5 & ->).
    assert (t = a) as -> by (symmetry; by apply pde_of_inj). cbn in F3. rewrite lookup_insert_eq in F3. injection F3 as <-. rewrite Htab in F5 by lia. congruence.
Qed.

Lemma add_pde_mapped pm' P' va' : pmaps mc !! pm' = Some P' -> word_va va' -> mapped mc1 pm' va' = mapped mc pm' va'.
Proof.
  intros HP' Hva'. unfold mapped. destruct (decide (pm' = pm /\ PDE_INDEX va' = PDE_INDEX va)) as [[-> Ei]|Hn].
  - destruct (add_pde_new va' Hva' Ei) as [-> ->]. done.
  - rewrite (add_pde_same pm' P' va'); try done. destruct (decide (pm' = pm)); [right|by left]. intros Ei. by apply Hn.
Qed.
End add_pde.

Lemma add_pde_spec own B mc pm P va d dir w : tables own B mc -> pmaps mc !! pm = Some P -> word_va va -> walk own mc pm P va d dir w ->
  is_valid_pde w = false ->
  pmap_add_pde mc pm va = Fault NoMemory \/
  exists a mc' own' B' P', pmap_add_pde mc pm va = Ok (pde_of a, mc') /\ tables own' B' mc' /\ extends own B mc pm own' B' mc' /\ frame_ok a /\
    pmaps mc' !! pm = Some P' /\ PDE_OF mc' P' va = Ok (pde_of a) /\
    forall pm' P' va', pmaps mc !! pm' = Some P' -> word_va va' -> mapped mc' pm' va' = mapped mc pm' va'.
Proof.
  intros T HP Hva W Hw. destruct (index_range va Hva) as [H1 H2]. unfold pmap_add_pde, get_pmap. rewrite HP. cbn [some_of mbind outcome_bind].
  rewrite (wk_get _ _ _ _ _ _ _ _ W). cbn [mbind outcome_bind]. rewrite Hw. cbn [negb assert mbind outcome_bind].
  destruct (pagealloc_spec own B mc T) as [-> |(pg & a & m & B' & -> & Ha & Hf & HK & Hh & Hv & HH & HT)]; [by left|right]. cbn [mbind outcome_bind].
  set (mcA := set_ram _ (set_phys m mc)) in *. destruct (get_page_held mcA B' pg a Hh) as (p & -> & _ & Epa). cbn [mbind outcome_bind].
  unfold PG_KSEG0_ADDR. rewrite Epa. fold (pde_of a). assert (d <> a) as Hne by (intros ->; rewrite (wk_own _ _ _ _ _ _ _ _ W) in Ha; done).
  assert (ram mcA !! d = Some dir) as Hrd by (cbn; rewrite lookup_insert_ne by done; apply (wk_dir _ _ _ _ _ _ _ _ W)).
  rewrite (wk_pde _ _ _ _ _ _ _ _ W). pose proof (frame_range d (wk_frame _ _ _ _ _ _ _ _ W)) as Hdr.
  rewrite (word_set_ok mcA d _ dir _ Hdr Hrd) by (rewrite (wk_len _ _ _ _ _ _ _ _ W); lia). cbn [mbind outcome_bind].
  rewrite pde_of_base by done. set (own1 := <[a := OTab pm (PDE_INDEX va)]> own). set (dir1 := <[_ := pde_of a]> dir).
  assert (own1 !! a = Some (OTab pm (PDE_INDEX va))) as Hoa by apply lookup_insert_eq.
  assert (tables own1 B' (set_ram (<[d := dir1]> (ram mcA)) mcA)) as TB.
  { apply (tables_dir own1 B' mcA d dir (Z.to_nat (PDE_INDEX va)) a zero_page pm P (HT _)); try done.
    - apply (wk_pde _ _ _ _ _ _ _ _ W).
    - unfold own1. rewrite lookup_insert_ne by done. apply (wk_own _ _ _ _ _ _ _ _ W).
    - rewrite Z2Nat.id by lia. done.
    - cbn. by rewrite lookup_insert_eq.
    - apply (wk_len _ _ _ _ _ _ _ _ W). }
  set (mcB := set_ram _ mcA) in *. rewrite <- (wk_pde _ _ _ _ _ _ _ _ W). set (P1 := Pmap (asid P) _ _ _).
  assert (tables own1 B' (set_pmap pm P1 mcB)) as TC.
  { apply (tables_pmap own1 B' mcB pm P pg a (PDE_INDEX va)); try done. intros Hk pg' Hpg'.
    destruct (proj2 (tb_pages _ _ _ T pm P HP Hk) pg' Hpg') as (b & i & [Hb _] & _). by apply (HH pg' 0%nat). }
  destruct (fill_table_spec PTE_GLOBAL 1024 (set_pmap pm P1 mcB) a 0 zero_page) as (tab & Ef & Hl & Htab); [by apply frame_range| |lia|done|].
  { cbn. rewrite lookup_insert_ne, lookup_insert_eq by done. done. }
  change (Z.to_nat PT_ENTRIES) with 1024%nat. rewrite Ef. cbn [mbind outcome_bind].
  assert (forall j : nat, (j < 1024)%nat -> tab !! j = Some PTE_GLOBAL) as Htab' by (intros j Hj; rewrite Htab, decide_True by (cbn; lia); done).
  assert (tables own1 B' (set_ram (<[a := tab]> (ram (set_pmap pm P1 mcB))) (set_pmap pm P1 mcB))) as TD by (apply tables_write; [done|by rewrite Hoa]).
  eexists a, _, own1, B', P1. split; [done|]. split; [exact TD|]. split_and!; try done.
  - by eapply add_pde_extends.
  - cbn. by rewrite lookup_insert_eq.
  - by eapply add_pde_word.
  - intros pm' P' va' HP' Hva'. by eapply add_pde_mapped.
Qed.

Definition page_va va : Prop := word_va va /\ page_aligned_p va = true.

Lemma pte_set_spec own B mc pm P va d dir w x : tables own B mc -> pmaps mc !! pm = Some P -> page_va va -> walk own mc pm P va d dir w -> is_valid_pde w = true ->
  exists mc', word_set mc (PT_BASE w) (PTE_INDEX va) x = Ok mc' /\ tables own B mc' /\ extends own B mc pm own B mc' /\ pmaps mc' = pmaps mc /\
    forall pm' P' va', pmaps mc !! pm' = Some P' -> page_va va' ->
      pmap_pte_read mc' pm' va' = if decide (pm' = pm /\ va' = va) then Ok x else pmap_pte_read mc pm' va'.
Proof.
  intros T HP [Hva Hal] W Hw. destruct (index_range va Hva) as [H1 H2]. destruct (wk_valid _ _ _ _ _ _ _ _ W Hw) as (t & tab & y & -> & F1 & F2 & F3 & F4 & F5 & F6).
  rewrite pde_of_base by done. pose proof (frame_range t F1) as Ht. rewrite (word_set_ok mc t _ tab _ Ht F3) by lia.
  set (tab1 := <[_ := x]> tab). set (mc' := set_ram _ mc). exists mc'. split; [done|].
  assert (tables own B mc') as T' by (apply tables_write; [done|]; rewrite F2; unfold tab1; by rewrite length_insert).
  assert (forall b o, own !! b = Some o -> o <> OTab pm (PDE_INDEX va) -> ram mc' !! b = ram mc !! b) as Hram.
  { intros b o Hb Ho. cbn. rewrite lookup_insert_ne; congruence. }
  split_and!; try done.
  - split; try done; [exists P, P; cbn; by rewrite insert_id|apply kept_refl|intros b Hb; by apply (Hram b OData)|].
    intros pm' va' Hva' (P' & w' & HP' & Hw' & Hv). exists P', w'. split; [done|]. split; [|done]. destruct (index_range va' Hva') as [H1' _].
    destruct (walk_ok own B mc pm' P' va' T HP' Hva') as (d' & dir' & w2 & [W1 W2 W3 W4 W5 W6 W7 _]). assert (w2 = w') as -> by congruence.
    unfold PDE_OF. rewrite W1. apply (word_get_ok mc' d' _ dir'); [by apply frame_range|by rewrite (Hram d' (ODir pm'))|lia|done].
  - intros pm' P' va' HP' [Hva' Hal']. destruct (index_range va' Hva') as [H1' H2']. case_decide as Hd.
    + destruct Hd as [-> ->]. destruct (walk_ok own B mc' pm P va T' HP Hva) as (d' & dir' & w' & W'). rewrite (read_walk own mc' pm P va d' dir' w' HP W').
      assert (w' = pde_of t) as ->.
      { destruct W as [V1 V2 V3 V4 V5 V6 V7 V8], W' as [W1 W2 W3 W4 W5 W6 W7 W8]. assert (d' = d) as -> by (apply kseg0_inj; try apply frame_range; congruence).
        rewrite (Hram d _ V3) in W4 by done. congruence. }
      rewrite Hw. destruct (wk_valid _ _ _ _ _ _ _ _ W' Hw) as (t' & tab' & x' & Et & G1 & G2 & G3 & G4 & G5 & ->).
      assert (t' = t) as -> by (symmetry; by apply pde_of_inj). cbn in G3. rewrite lookup_insert_eq in G3. injection G3 as <-.
      unfold tab1 in G5. rewrite list_lookup_insert_eq in G5 by lia. congruence.
    + apply (read_same own B mc mc' pm' P' P'); try done. intros b o l Hb Hr. split; intros ->.
      * exists l. by rewrite (Hram b _ Hb).
      * destruct (decide (b = t)) as [->|Hne]; [|exists l; cbn; by rewrite lookup_insert_ne].
        rewrite F2 in Hb. injection Hb as <- Ei. assert (l = tab) as -> by congruence. exists tab1. cbn. rewrite lookup_insert_eq. split; [done|].
        unfold tab1. rewrite list_lookup_insert_ne; [done|]. intros E. apply Hd. split; [done|]. apply index_inj; try done. lia.
Qed.

Lemma pte_write_spec own B mc pm P va w cflags : tables own B mc -> pmaps mc !! pm = Some P -> page_va va ->
  (mapped mc pm va = None /\ ~ has_table mc pm va /\ pmap_pte_write mc pm va w cflags = Fault NoMemory) \/
  exists mc' own' B', pmap_pte_write mc pm va w cflags = Ok mc' /\ tables own' B' mc' /\ extends own B mc pm own' B' mc' /\
    forall pm' P' va', pmaps mc !! pm' = Some P' -> page_va va' ->
      mapped mc' pm' va' = if decide (pm' = pm /\ va' = va) then entry (Z.lor w (cache_bits cflags)) else mapped mc pm' va'.
Proof.
  intros T HP Hva. unfold pmap_pte_write, get_pmap. rewrite HP. cbn [some_of mbind outcome_bind]. set (x := Z.lor w _).
  destruct (walk_ok own B mc pm P va T HP (proj1 Hva)) as (d & dir & w0 & W). rewrite (wk_get _ _ _ _ _ _ _ _ W). cbn [mbind outcome_bind].
  destruct (is_valid_pde w0) eqn:Hw; cbn [negb].
  - right. cbn [mbind outcome_bind]. destruct (pte_set_spec own B mc pm P va d dir w0 x T HP Hva W Hw) as (mc' & -> & T' & X & _ & R).
    exists mc', own, B. split_and!; try done. intros pm' P' va' HP' Hva'. unfold mapped. rewrite (R pm' P' va' HP' Hva'). by case_decide.
  - assert (mapped mc pm va = None) as Hnone by (unfold mapped; by rewrite (read_walk own mc pm P va d dir w0 HP W), Hw).
    destruct (add_pde_spec own B mc pm P va d dir w0 T HP (proj1 Hva) W Hw) as [-> |(a & mc1 & own1 & B1 & P1 & -> & T1 & X1 & Hf & HP1 & HD & M1)]; [left|right].
    { split_and!; try done. intros (P' & w' & HP' & Hw' & Hv). assert (P' = P) as -> by congruence. pose proof (wk_get _ _ _ _ _ _ _ _ W). congruence. }
    cbn [mbind outcome_bind]. destruct (walk_ok own1 B1 mc1 pm P1 va T1 HP1 (proj1 Hva)) as (d1 & dir1 & w1 & W1).
    assert (w1 = pde_of a) as ->. { pose proof (wk_get _ _ _ _ _ _ _ _ W1). congruence. }
    destruct (pte_set_spec own1 B1 mc1 pm P1 va d1 dir1 _ x T1 HP1 Hva W1 (pde_of_valid a Hf)) as (mc' & -> & T' & X & _ & R).
    exists mc', own1, B1. split_and!; try done; [by apply (extends_trans own B mc pm own1 B1 mc1)|]. intros pm' P' va' HP' Hva'.
    rewrite <- (M1 pm' P' va' HP' (proj1 Hva')). destruct (ex_pmap _ _ _ _ _ _ _ X1) as (Q & Q' & _ & EQ & _).
    assert (exists P2, pmaps mc1 !! pm' = Some P2) as [P2 HP2].
    { rewrite EQ. destruct (decide (pm' = pm)) as [->|]; [rewrite lookup_insert_eq; by eexists|rewrite lookup_insert_ne by done; by eexists]. }
    unfold mapped. rewrite (R pm' P2 va' HP2 Hva'). by case_decide.
Qed.

(** ** The lists of mappings *)

(** What is not the page tables changes. *)
Record quiet mc mc' : Prop := {
  qt_ram : ram mc' = ram mc;
  qt_page pg p' : pget (phys mc') pg = Some p' -> exists p, pget (phys mc) pg = Some p /\ paddr p' = paddr p;
  qt_page' pg p : pget (phys mc) pg = Some p -> exists p', pget (phys mc') pg = Some p' /\ paddr p' = paddr p;
  qt_pmap pm P' : pmaps mc' !! pm = Some P' ->
    exists P, pmaps mc !! pm = Some P /\ asid P' = asid P /\ pde P' = pde P /\ pte_pages P' = pte_pages P;
  qt_pmap' pm P : pmaps mc !! pm = Some P -> exists P', pmaps mc' !! pm = Some P' /\ asid P' = asid P /\ pde P' = pde P;
  qt_fresh : fresh mc <= fresh mc';
  qt_asid : asid_used mc' = asid_used mc;
}.

Lemma quiet_refl mc : quiet mc mc.
Proof. split; eauto; lia. Qed.

Lemma quiet_trans mc1 mc2 mc3 : quiet mc1 mc2 -> quiet mc2 mc3 -> quiet mc1 mc3.
Proof.
  intros [A1 A2 A3 A4 A5 A6 A7] [B1 B2 B3 B4 B5 B6 B7]. split; try congruence; try lia.
  - intros pg p3 K3. destruct (B2 pg p3 K3) as (p2 & K2 & ?), (A2 pg p2 K2) as (p1 & K1 & ?). exists p1. split; congruence.
  - intros pg p1 K1. destruct (A3 pg p1 K1) as (p2 & K2 & ?), (B3 pg p2 K2) as (p3 & K3 & ?). exists p3. split; congruence.
  - intros pm P3 K3. destruct (B4 pm P3 K3) as (P2 & K2 & ? & ? & ?), (A4 pm P2 K2) as (P1 & K1 & ? & ? & ?). exists P1. split_and!; congruence.
  - intros pm P1 K1. destruct (A5 pm P1 K1) as (P2 & K2 & ? & ?), (B5 pm P2 K2) as (P3 & K3 & ? & ?). exists P3. split_and!; congruence.
Qed.

Lemma quiet_held mc mc' B pg a : quiet mc mc' -> held (phys mc) B pg a -> held (phys mc') B pg a.
Proof. intros Q (Hb & p & Hp & Ha). split; [done|]. destruct (qt_page' _ _ Q pg p Hp) as (p' & H1 & H2). exists p'. split; congruence. Qed.

Lemma quiet_tables own B mc mc' : tables own B mc -> pm_inv (phys mc') B -> quiet mc mc' -> tables own B mc'.
Proof.
  intros [T1 T2 T3 T4 T5 T6 T7 T8 T9 T10] I Q. pose proof (fun pg a => quiet_held mc mc' B pg a Q) as Hh. destruct Q as [Er Hp Hp' HP HP' Ef Ea].
  split; rewrite ?Er, ?Ea; try done.
  - intros pg p' H. destruct (Hp pg p' H) as (p & Hq & ->). by apply (T2 pg).
  - intros a o Ho. destruct (T3 a o Ho) as [Hf [[pg H]|[Ho' H]]]; split; try done; [left; exists pg; by apply Hh|right]. split; [done|].
    intros pg p' H'. destruct (Hp pg p' H') as (p & Hq & ->). by apply (H pg).
  - intros pm P' H. destruct (HP pm P' H) as (P & Hq & _ & -> & _). by apply T4.
  - intros pm P' H Hn. destruct (HP pm P' H) as (P & Hq & _ & _ & ->). destruct (T5 pm P Hq Hn) as [N1 N2]. split; [done|]. intros pg Hpg.
    destruct (N2 pg Hpg) as (a & i & J1 & J2). exists a, i. split; [by apply Hh|done].
  - intros pm P' H. destruct (HP pm P' H) as (P & Hq & _). pose proof (T6 pm P Hq). lia.
  - intros pm P' H. destruct (HP pm P' H) as (P & Hq & -> & _). by apply T8.
  - intros pm pm' P' Q' H H' E. destruct (HP pm P' H) as (P & Hq & E1 & _), (HP pm' Q' H') as (Q & Hq' & E2 & _). apply (T9 pm pm' P Q); congruence.
  - destruct T10 as [P HK]. destruct (HP' _ _ HK) as (P' & H' & _). by exists P'.
Qed.

Lemma quiet_mapped mc mc' pm P va : quiet mc mc' -> pmaps mc !! pm = Some P -> mapped mc' pm va = mapped mc pm va.
Proof.
  intros Q HP. destruct (qt_pmap' _ _ Q pm P HP) as (P' & HP' & _ & E). unfold mapped, pmap_pte_read, get_pmap, PDE_OF, PTE_OF, word_get.
  by rewrite HP, HP', (qt_ram _ _ Q); cbn [some_of mbind outcome_bind]; rewrite E.
Qed.

Notation mappings := (gmap (Z * Z) (Z * Z)).

(** The lists of the pages and of the maps hold one entry for each mapping. *)
Record links mc (t : mappings) : Prop := {
  lk_page pg pv : pv ∈ pvs mc pg -> exists pr, t !! (pv_pmap pv, pv_va pv) = Some (pg, pr);
  lk_has pm va pg pr : t !! (pm, va) = Some (pg, pr) -> exists pv, pv ∈ pvs mc pg /\ pv_pmap pv = pm /\ pv_va pv = va;
  lk_one pg pv pv' : pv ∈ pvs mc pg -> pv' ∈ pvs mc pg -> pv_pmap pv = pv_pmap pv' -> pv_va pv = pv_va pv' -> pv = pv';
  lk_list pm P pv : pmaps mc !! pm = Some P -> pv ∈ pv_list P <-> pv_pmap pv = pm /\ exists pg, pv ∈ pvs mc pg;
  lk_nodup pm P : pmaps mc !! pm = Some P -> NoDup (pv_list P);
  lk_empty pg p : pget (phys mc) pg = Some p -> pv_empty p = match pvs mc pg with [] => true | _ => false end;
  lk_id pg pv : pv ∈ pvs mc pg -> pv_id pv < fresh mc;
}.

Lemma links_same mc mc' t : links mc t -> page_pvs mc' = page_pvs mc -> fresh mc <= fresh mc' ->
  (forall pg p', pget (phys mc') pg = Some p' -> exists p, pget (phys mc) pg = Some p /\ pv_empty p' = pv_empty p) ->
  (forall pm P', pmaps mc' !! pm = Some P' -> exists P, pmaps mc !! pm = Some P /\ pv_list P' = pv_list P) -> links mc' t.
Proof.
  intros [L1 L2 L3 L4 L5 L6 L7] E Ef Hp HP. assert (forall pg, pvs mc' pg = pvs mc pg) as Ep by (intros pg; unfold pvs; by rewrite E).
  split.
  - intros pg pv. rewrite Ep. apply L1.
  - intros pm va pg pr. rewrite Ep. apply L2.
  - intros pg pv pv'. rewrite Ep. apply L3.
  - intros pm P' pv H. destruct (HP pm P' H) as (P & Hq & ->). rewrite (L4 pm P pv Hq). by setoid_rewrite Ep.
  - intros pm P' H. destruct (HP pm P' H) as (P & Hq & ->). by apply (L5 pm).
  - intros pg p' H. destruct (Hp pg p' H) as (p & Hq & ->). rewrite Ep. by apply L6.
  - intros pg pv. rewrite Ep. intros H. pose proof (L7 pg pv H). lia.
Qed.

Lemma extends_links own B mc pm own' B' mc' t : extends own B mc pm own' B' mc' -> links mc t -> links mc' t.
Proof.
  intros [(P & P' & E1 & E2 & _ & _ & E3) (R1 & R2 & _) _ (_ & _ & K) _ _ _ _ _] L. apply (links_same mc); try done; [lia| |].
  - intros pg p' H. destruct (K pg p' H) as (p & Hp & _ & E). by exists p.
  - intros pm1 P1. rewrite E2, lookup_insert_Some. intros [[<- <-]|[_ H]]; [by exists P|by exists P1].
Qed.

Lemma pvs_set mc pg l pg' m : pvs (set_page_pvs (<[pg := l]> (page_pvs mc)) (set_phys m mc)) pg' = if decide (pg' = pg) then l else pvs mc pg'.
Proof. unfold pvs. cbn. case_decide; [subst; by rewrite lookup_insert_eq|by rewrite lookup_insert_ne]. Qed.

Lemma set_pvs_spec own B mc pg a l : tables own B mc -> held (phys mc) B pg a ->
  exists m, set_pvs mc pg l = Ok (set_page_pvs (<[pg := l]> (page_pvs mc)) (set_phys m mc)) /\ pm_inv m B /\
    (forall j p', pget m j = Some p' -> exists p, pget (phys mc) j = Some p /\ paddr p' = paddr p /\
       pv_empty p' = if decide (j = pg) then match l with [] => true | _ => false end else pv_empty p) /\
    quiet mc (set_page_pvs (<[pg := l]> (page_pvs mc)) (set_phys m mc)).
Proof.
  intros T Hh. unfold set_pvs. destruct (upd_held (phys mc) B pg a (fun p => Page (paddr p) (flags p) (pg_size p) (match l with [] => true | _ => false end)) (tb_phys _ _ _ T) Hh)
    as (m & p & -> & I & Hp & Hs & G); [done|]. cbn [mbind outcome_bind]. exists m. split_and!; try done.
  - intros j p' H. rewrite G in H. case_decide; [subst; injection H as <-; by exists p|by exists p'].
  - split; cbn; try done; try lia; eauto.
    + intros j p' H. rewrite G in H. case_decide; [subst; injection H as <-; by exists p|by exists p'].
    + intros j q H. rewrite G. case_decide; [subst; eexists; split; [done|]; cbn; congruence|by exists q].
Qed.

Lemma quiet_list mc pm P l : pmaps mc !! pm = Some P -> quiet mc (set_pmap pm (Pmap (asid P) (pde P) (pte_pages P) l) mc).
Proof.
  intros HP. split; cbn; try done; try lia; eauto.
  - intros pm' P'. rewrite lookup_insert_Some. intros [[<- <-]|[_ H]]; [by exists P|by exists P'].
  - intros pm' P' H. destruct (decide (pm' = pm)) as [->|]; [rewrite lookup_insert_eq; assert (P' = P) as -> by congruence; by eexists|rewrite lookup_insert_ne by done; by eexists].
Qed.

Lemma set_fresh_tables own B mc n : tables own B mc -> fresh mc <= n -> tables own B (set_fresh n mc) /\ quiet mc (set_fresh n mc).
Proof. intros T Hn. assert (quiet mc (set_fresh n mc)) as Q by (split; cbn; eauto). split; [|done]. by apply (quiet_tables own B mc); [|apply T|]. Qed.

Lemma pv_add_spec own B mc t pm P va pg a pr : tables own B mc -> links mc t -> pmaps mc !! pm = Some P -> held (phys mc) B pg a -> t !! (pm, va) = None ->
  exists mc', pv_add mc pm va pg = Ok mc' /\ tables own B mc' /\ quiet mc mc' /\ links mc' (<[(pm, va) := (pg, pr)]> t).
Proof.
  intros T L HP Hh Ht. unfold pv_add, get_pmap. rewrite HP. cbn [some_of mbind outcome_bind]. set (pv := Pv (fresh mc) pm va).
  destruct (set_fresh_tables own B mc (fresh mc + 1) T ltac:(lia)) as [T0 Q0]. set (mc0 := set_fresh _ mc) in *.
  destruct (set_pvs_spec own B mc0 pg a (pvs mc pg ++ [pv]) T0 Hh) as (m & -> & I & Hm & Q1). cbn [mbind outcome_bind]. set (mc1 := set_page_pvs _ _) in *.
  assert (pmaps mc1 !! pm = Some P) as HP1 by done. eexists. split; [done|]. set (mc' := set_pmap _ _ mc1).
  assert (quiet mc mc') as Q by (apply (quiet_trans _ mc1); [by apply (quiet_trans _ mc0)|by apply quiet_list]).
  split; [by apply (quiet_tables own B mc)|]. split; [done|].
  assert (forall pg', pvs mc' pg' = if decide (pg' = pg) then pvs mc pg ++ [pv] else pvs mc pg') as Ep by (intros pg'; apply (pvs_set mc0)).
  assert (forall pg' x, x ∈ pvs mc' pg' <-> x ∈ pvs mc pg' \/ pg' = pg /\ x = pv) as Hin.
  { intros pg' x. rewrite Ep. case_decide; [subst; rewrite elem_of_app, list_elem_of_singleton|]; naive_solver. }
  destruct L as [L1 L2 L3 L4 L5 L6 L7]. assert (forall pg' x, x ∈ pvs mc pg' -> x <> pv) as Hfr by (intros pg' x Hx ->; apply L7 in Hx; cbn in Hx; lia).
  split.
  - intros pg' x [Hx|[-> ->]]%Hin; [|cbn; rewrite lookup_insert_eq; by eexists]. destruct (L1 pg' x Hx) as [r Hr]. exists r. rewrite lookup_insert_ne by congruence. done.
  - intros pm' va' pg' r. rewrite lookup_insert_Some. intros [[[= <- <-] [= <- <-]]|[_ H]]; [exists pv; split; [apply Hin; by right|done]|].
    destruct (L2 _ _ _ _ H) as (x & Hx & ?). exists x. split; [apply Hin; by left|done].
  - assert (forall pg' x, x ∈ pvs mc pg' -> pv_pmap x = pm -> pv_va x = va -> False) as Hno.
    { intros pg' x Hx E1 E2. destruct (L1 pg' x Hx) as [r Hr]. congruence. }
    intros pg' x y [Hx|[-> ->]]%Hin [Hy|[Hpg ->]]%Hin E1 E2; [by apply (L3 pg')|exfalso; by apply (Hno pg' x)|exfalso; by apply (Hno pg y)|done].
  - intros pm' P' x. cbn. rewrite lookup_insert_Some. intros [[<- <-]|[Hne H]]; cbn [pv_list].
    + rewrite elem_of_app, list_elem_of_singleton, (L4 pm P x HP). setoid_rewrite Hin. naive_solver.
    + rewrite (L4 pm' P' x H). setoid_rewrite Hin. split; [naive_solver|]. intros (E & pg' & [Hx|[-> ->]]); [by eauto|]. by cbn in E.
  - intros pm' P'. cbn. rewrite lookup_insert_Some. intros [[<- <-]|[Hne H]]; cbn [pv_list]; [|by apply (L5 pm')].
    apply NoDup_app. split_and!; [by apply (L5 pm)| |apply NoDup_singleton]. intros x Hx ->%list_elem_of_singleton. apply (L4 pm P pv HP) in Hx as [_ [pg' Hx]]. by apply (Hfr pg' pv).
  - intros pg' p' H. destruct (Hm pg' p' H) as (p & Hp & _ & E). rewrite E, Ep. case_decide; [done|]. by apply L6.
  - intros pg' x [Hx|[-> ->]]%Hin; [apply L7 in Hx|]; cbn; lia.
Qed.

Lemma remove_pv_spec l x : x ∈ l -> remove_pv l x = Ok (filter (fun y => y <> x) l).
Proof. intros H. unfold remove_pv. by rewrite decide_True. Qed.

Lemma pv_unlink_spec own B mc t pm P pg a pv : tables own B mc -> links mc t -> pmaps mc !! pm = Some P -> held (phys mc) B pg a -> pv ∈ pvs mc pg -> pv_pmap pv = pm ->
  exists mc', pv_unlink mc pm pg pv = Ok mc' /\ tables own B mc' /\ quiet mc mc' /\ links mc' (delete (pm, pv_va pv) t) /\
    pvs mc' pg = filter (fun y => y <> pv) (pvs mc pg) /\ exists P', pmaps mc' !! pm = Some P' /\ pv_list P' = filter (fun y => y <> pv) (pv_list P).
Proof.
  intros T L HP Hh Hpv Epm. unfold pv_unlink, get_pmap. rewrite remove_pv_spec by done. cbn [mbind outcome_bind]. set (l := filter _ (pvs mc pg)).
  destruct (set_pvs_spec own B mc pg a l T Hh) as (m & -> & I & Hm & Q1). cbn [mbind outcome_bind]. set (mc1 := set_page_pvs _ _) in *.
  assert (pmaps mc1 !! pm = Some P) as HP1 by done. rewrite HP1. cbn [some_of mbind outcome_bind].
  assert (pv ∈ pv_list P) as Hpl by (apply (lk_list _ _ L pm P pv HP); eauto). rewrite remove_pv_spec by done. cbn [mbind outcome_bind].
  eexists. split; [done|]. set (mc' := set_pmap _ _ mc1). assert (quiet mc mc') as Q by (apply (quiet_trans _ mc1); [done|by apply quiet_list]).
  split; [by apply (quiet_tables own B mc)|]. split; [done|].
  assert (forall pg', pvs mc' pg' = if decide (pg' = pg) then l else pvs mc pg') as Ep by (intros pg'; apply (pvs_set mc)).
  split; [|split; [by rewrite Ep, decide_True|exists (Pmap (asid P) (pde P) (pte_pages P) (filter (fun y => y <> pv) (pv_list P))); cbn; by rewrite lookup_insert_eq]].
  destruct L as [L1 L2 L3 L4 L5 L6 L7]. destruct (L1 pg pv Hpv) as [r Hr]. rewrite Epm in Hr.
  assert (forall pg', pv ∈ pvs mc pg' -> pg' = pg) as Hpg by (intros pg' H; destruct (L1 pg' pv H) as [r' Hr']; congruence).
  assert (forall pg' x, x ∈ pvs mc' pg' <-> x ∈ pvs mc pg' /\ x <> pv) as Hin.
  { intros pg' x. rewrite Ep. case_decide as Hd; [subst pg'; unfold l; rewrite list_elem_of_filter; naive_solver|]. split; [|naive_solver]. intros Hx. split; [done|].
    intros ->. by apply Hpg in Hx. }
  split.
  - intros pg' x [Hx Hne]%Hin. destruct (L1 pg' x Hx) as [r' Hr']. exists r'. rewrite lookup_delete_ne; [done|]. intros [= E1 E2].
    assert (pg' = pg) as -> by congruence. apply Hne. apply (L3 pg); congruence.
  - intros pm' va' pg' r'. rewrite lookup_delete_Some. intros [Hne H]. destruct (L2 _ _ _ _ H) as (x & Hx & E1 & E2). exists x. split; [|done].
    apply Hin. split; [done|]. intros ->. congruence.
  - intros pg' x y [Hx _]%Hin [Hy _]%Hin. by apply (L3 pg').
  - intros pm' P' x. cbn. rewrite lookup_insert_Some. intros [[<- <-]|[Hne H]]; cbn [pv_list].
    + rewrite list_elem_of_filter, (L4 pm P x HP). setoid_rewrite Hin. naive_solver.
    + rewrite (L4 pm' P' x H). setoid_rewrite Hin. split; [|naive_solver]. intros (E & pg' & Hx). split; [done|]. exists pg'. split; [done|]. congruence.
  - intros pm' P'. cbn. rewrite lookup_insert_Some. intros [[<- <-]|[Hne H]]; cbn [pv_list]; [|by apply (L5 pm')]. apply NoDup_filter. by apply (L5 pm).
  - intros pg' p' H. destruct (Hm pg' p' H) as (p & Hp & _ & E). rewrite E, Ep. case_decide; [done|]. by apply L6.
  - intros pg' x [Hx _]%Hin. apply L7 in Hx. done.
Qed.
