(* ===== verification/PmapHw.v ===== *)
(** * The page tables as the machine of address spaces (sys/mips/pmap.c)

    The operations of Pmap.v with the buddy allocator of Physmem.v implement the class
    [VmHw] of Machine.v: the relation [rep] says which abstract state page tables, lists
    of mappings and page frames stand for, each operation that address spaces call takes
    related states to related states, and so the theorems of VmMap.v hold of the code
    that runs on this hardware. *)

From S2P Require Import Prelude Bitstr Machine Physmem Pmap.

#[local] Existing Instance mips.

Implicit Types (mc : machine) (pm va pg : Z) (P : pmap_t) (m : physmem) (B : blocks) (p : vm_page) (own : gmap Z owner) (o : owner).

(** ** The abstract machine *)

Definition user_va va : Prop := page_aligned_p va = true /\ PMAP_USER_BEGIN <= va < PMAP_USER_END.

Lemma user_page va : user_va va -> page_va va.
Proof. intros [H1 H2]. split; [|done]. unfold word_va, PMAP_USER_BEGIN, PMAP_USER_END in *. lia. Qed.

(** The machine, with the frames [own] and the blocks [B], stands for the abstract one. *)
Record rep own B mc (gv : hview) : Prop := {
  rp_tables : tables own B mc;
  rp_data pg d : v_data gv !! pg = Some d <-> exists a, held (phys mc) B pg a /\ own !! a = Some OData /\ ram mc !! a = Some d;
  rp_pmaps pm : pm ∈ v_pmaps gv <-> is_Some (pmaps mc !! pm);
  rp_maps pm P va : pmaps mc !! pm = Some P -> pm <> pmap_kernel -> user_va va ->
    match v_maps gv !! (pm, va) with
    | None => mapped mc pm va = None
    | Some (pg, pr) => exists a, held (phys mc) B pg a /\ mapped mc pm va = Some (a, pr)
    end;
  rp_dom pm va pg pr : v_maps gv !! (pm, va) = Some (pg, pr) ->
    pm <> pmap_kernel /\ is_Some (pmaps mc !! pm) /\ user_va va /\ is_Some (v_data gv !! pg);
  rp_links : links mc (v_maps gv);
}.

Lemma rep_held own B mc gv pg : rep own B mc gv -> is_Some (v_data gv !! pg) -> exists a, held (phys mc) B pg a /\ own !! a = Some OData /\ frame_ok a.
Proof.
  intros R [d Hd]. apply (rp_data _ _ _ _ R) in Hd as (a & H1 & H2 & _). exists a. split_and!; try done; by apply (tb_own _ _ _ (rp_tables _ _ _ _ R) a _ H2).
Qed.

(** Mapped pages have addresses. *)
Lemma rep_frame own B mc gv pm va pg pr a : rep own B mc gv -> v_maps gv !! (pm, va) = Some (pg, pr) -> held (phys mc) B pg a -> frame_ok a /\ (a =? 0) = false.
Proof.
  intros R E Hh. destruct (rp_dom _ _ _ _ R _ _ _ _ E) as (_ & _ & _ & Hd). destruct (rep_held own B mc gv pg R Hd) as (b & Hb & _ & Hf).
  assert (b = a) as -> by (by eapply held_fun). split; [done|]. apply Z.eqb_neq. destruct Hf. lia.
Qed.

(** A page is unmapped if its list is empty. *)
Lemma rep_unmapped own B mc gv pg p : rep own B mc gv -> (forall k pr, v_maps gv !! k <> Some (pg, pr)) -> pget (phys mc) pg = Some p -> pv_empty p = true.
Proof.
  intros R Hno Hp. rewrite (lk_empty _ _ (rp_links _ _ _ _ R) pg p Hp). destruct (pvs mc pg) as [|pv l] eqn:E; [done|].
  destruct (lk_page _ _ (rp_links _ _ _ _ R) pg pv) as [pr H]; [rewrite E; by left|]. by apply Hno in H.
Qed.

(** What every operation keeps of the pages and of the maps *)
Record follows own B mc own' B' mc' : Prop := {
  fw_held pg a : own !! a = Some OData -> held (phys mc) B pg a -> held (phys mc') B' pg a;
  fw_data a : own' !! a = Some OData <-> own !! a = Some OData;
  fw_ram a : own !! a = Some OData -> ram mc' !! a = ram mc !! a;
  fw_pmaps pm : is_Some (pmaps mc' !! pm) <-> is_Some (pmaps mc !! pm);
}.

Lemma follows_trans own B mc own1 B1 mc1 own2 B2 mc2 :
  follows own B mc own1 B1 mc1 -> follows own1 B1 mc1 own2 B2 mc2 -> follows own B mc own2 B2 mc2.
Proof.
  intros [F1 F2 F3 F4] [G1 G2 G3 G4]. split.
  - intros pg a Ha H. apply G1; [by apply F2|auto].
  - intros a. by rewrite G2, F2.
  - intros a Ha. rewrite G3 by (by apply F2). by apply F3.
  - intros pm. by rewrite G4, F4.
Qed.

Lemma quiet_follows own B mc mc' : quiet mc mc' -> follows own B mc own B mc'.
Proof.
  intros Q. split; try done; [intros pg a _; by apply quiet_held|by rewrite (qt_ram _ _ Q)|]. intros pm. split.
  - intros [P' H]. destruct (qt_pmap _ _ Q pm P' H) as (P & ? & _). by exists P.
  - intros [P H]. destruct (qt_pmap' _ _ Q pm P H) as (P' & ? & _). by exists P'.
Qed.

Lemma extends_follows own B mc pm own' B' mc' : extends own B mc pm own' B' mc' -> follows own B mc own' B' mc'.
Proof.
  intros [(P & P' & E1 & E2 & _) _ _ K Hb Hd Hr _ _]. split; try done.
  - intros pg a _ H. apply (held_kept (phys mc) B); try done. apply Hb. by destruct H.
  - intros pm'. rewrite E2. destruct (decide (pm' = pm)) as [->|]; [rewrite lookup_insert_eq, E1|by rewrite lookup_insert_ne]. split; by eexists.
Qed.

(** The pages that hold data are the same ones. *)
Lemma same_data own B mc own' B' mc' pg d : tables own B mc -> tables own' B' mc' ->
  (forall pg a, own !! a = Some OData -> held (phys mc) B pg a -> held (phys mc') B' pg a) -> (forall a, own' !! a = Some OData <-> own !! a = Some OData) ->
  (forall a, own !! a = Some OData -> ram mc' !! a = ram mc !! a) ->
  (exists a, held (phys mc) B pg a /\ own !! a = Some OData /\ ram mc !! a = Some d) <->
  (exists a, held (phys mc') B' pg a /\ own' !! a = Some OData /\ ram mc' !! a = Some d).
Proof.
  intros T T' F1 F2 F3. split; intros (a & H1 & H2 & H3); exists a.
  - split_and!; [auto|by apply F2|by rewrite F3].
  - apply F2 in H2. rewrite F3 in H3 by done. split_and!; try done. destruct (tb_own _ _ _ T a _ H2) as [_ [[pg' H']|[? _]]]; [|done].
    rewrite (held_inj _ _ pg pg' a (tb_phys _ _ _ T') H1) by auto. done.
Qed.

Lemma rep_follows own B mc own' B' mc' gv t : rep own B mc gv -> follows own B mc own' B' mc' -> tables own' B' mc' -> links mc' t ->
  (forall pm P va, pmaps mc !! pm = Some P -> pm <> pmap_kernel -> user_va va ->
     match t !! (pm, va) with
     | None => mapped mc' pm va = None
     | Some (pg, pr) => exists a, held (phys mc) B pg a /\ mapped mc' pm va = Some (a, pr)
     end) ->
  (forall pm va pg pr, t !! (pm, va) = Some (pg, pr) -> pm <> pmap_kernel /\ is_Some (pmaps mc !! pm) /\ user_va va /\ is_Some (v_data gv !! pg)) ->
  rep own' B' mc' (set_maps t gv).
Proof.
  intros R [F1 F2 F3 F4] T L Hm Hd. pose proof R as [R1 R2 R3 R4 R5 R6]. split; cbn [set_maps v_data v_pmaps v_maps]; try done.
  - intros pg d. rewrite R2. apply same_data; auto.
  - intros pm. by rewrite F4, R3.
  - intros pm P va HP Hk Hva. assert (exists Q, pmaps mc !! pm = Some Q) as [Q HQ] by (apply F4; by exists P).
    pose proof (Hm pm Q va HQ Hk Hva) as H. destruct (t !! (pm, va)) as [[pg pr]|] eqn:E; [|done]. destruct H as (a & H1 & H2). exists a. split; [|done].
    destruct (Hd pm va pg pr E) as (_ & _ & _ & Hp). destruct (rep_held own B mc gv pg R Hp) as (b & Hb & Ho & _). assert (b = a) as -> by (by eapply held_fun). auto.
  - intros pm va pg pr H. destruct (Hd pm va pg pr H) as (? & H2 & ? & ?). do 2 (split; [done || by apply F4|]). done.
Qed.

(** ** Pages *)

Lemma mapped_eq mc mc' pm va : ram mc' = ram mc -> pmaps mc' !! pm = pmaps mc !! pm -> mapped mc' pm va = mapped mc pm va.
Proof. intros E1 E2. unfold mapped, pmap_pte_read, get_pmap, PDE_OF, PTE_OF, word_get. by rewrite E1, E2. Qed.

Lemma set_maps_id gv : set_maps (v_maps gv) gv = gv.
Proof. by destruct gv. Qed.

Lemma rep_write own B mc gv pg a l : rep own B mc gv -> held (phys mc) B pg a -> own !! a = Some OData ->
  rep own B (set_ram (<[a := l]> (ram mc)) mc) (set_data (<[pg := l]> (v_data gv)) gv).
Proof.
  intros [R1 R2 R3 R4 R5 R6] Hh Ho. set (mc' := set_ram _ mc). assert (tables own B mc') as T by (apply tables_write; [done|by rewrite Ho]).
  assert (forall pg' a', held (phys mc) B pg' a' -> a' = a <-> pg' = pg) as Hinj.
  { intros pg' a' H. split; [|intros ->; destruct H as (_ & p & ? & ?), Hh as (_ & q & ? & ?); congruence].
    intros ->. by apply (held_inj (phys mc) B pg' pg a (tb_phys _ _ _ R1)). }
  split; cbn [set_data v_data v_pmaps v_maps]; try done.
  - intros pg' d. rewrite lookup_insert_Some, R2. split.
    + intros [[<- <-]|[Hne (b & H1 & H2 & H3)]]; [exists a; cbn; by rewrite lookup_insert_eq|]. exists b. split_and!; try done. cbn.
      rewrite lookup_insert_ne; [done|]. intros ->. apply Hne. symmetry. by apply (Hinj pg' b).
    + intros (b & H1 & H2 & H3). cbn in H3, H1. apply lookup_insert_Some in H3 as [[<- <-]|[Hne H3]]; [left; split; [|done]; symmetry; by apply (Hinj _ a)|].
      right. split; [|by exists b]. intros <-. apply Hne. symmetry. by apply (Hinj pg).
  - intros pm P va HP Hk Hva. assert (mapped mc' pm va = mapped mc pm va) as ->; [|by apply (R4 pm P va)].
    unfold mapped. rewrite (read_same own B mc mc' pm P P va); try done; [by apply user_page|]. intros b o' l' Hb Hr. split; intros ->; exists l'; cbn; rewrite lookup_insert_ne by congruence; done.
  - intros pm va pg' pr H. destruct (R5 pm va pg' pr H) as (? & ? & ? & ?). do 3 (split; [done|]). rewrite lookup_insert_is_Some'. by right.
  - apply (links_same mc); cbn; try done; try lia; eauto.
Qed.

Lemma rep_zero own B mc gv pg : rep own B mc gv -> is_Some (v_data gv !! pg) ->
  exists mc', pmap_zero_page mc pg = Ok mc' /\ rep own B mc' (set_data (<[pg := zero_page]> (v_data gv)) gv).
Proof.
  intros R H. destruct (rep_held own B mc gv pg R H) as (a & Hh & Ho & Hf). destruct (get_page_held mc B pg a Hh) as (p & E & _ & Ha).
  unfold pmap_zero_page. rewrite E. cbn [mbind outcome_bind]. unfold PG_KSEG0_ADDR. rewrite Ha, kseg0_phys by (by apply frame_range).
  eexists. split; [done|]. by apply rep_write.
Qed.

Lemma rep_copy own B mc gv src dst d : rep own B mc gv -> v_data gv !! src = Some d -> is_Some (v_data gv !! dst) ->
  exists mc', pmap_copy_page mc src dst = Ok mc' /\ rep own B mc' (set_data (<[dst := d]> (v_data gv)) gv).
Proof.
  intros R Hs Hd. destruct (rep_held own B mc gv dst R Hd) as (b & Hb & Ho & Hf). apply (rp_data _ _ _ _ R) in Hs as (a & Ha & Hoa & Hr).
  destruct (get_page_held mc B src a Ha) as (p & Ep & _ & Epa), (get_page_held mc B dst b Hb) as (q & Eq & _ & Eqa).
  unfold pmap_copy_page. rewrite Ep, Eq. cbn [mbind outcome_bind]. unfold PG_KSEG0_ADDR.
  rewrite Epa, Eqa, !kseg0_phys by (apply frame_range; by apply (tb_own _ _ _ (rp_tables _ _ _ _ R) _ OData)). rewrite Hr. cbn [some_of mbind outcome_bind].
  eexists. split; [done|]. by apply rep_write.
Qed.

(** The frame of a page that is given back has no owner. *)
Lemma tables_free own B B' mc m pg a : tables own B mc -> held (phys mc) B pg a ->
  (forall pm, own !! a = Some (ODir pm) -> pmaps mc !! pm = None) -> (forall pm i, own !! a = Some (OTab pm i) -> pmaps mc !! pm = None) ->
  pm_inv m B' -> kept (phys mc) m -> (forall h k, B' !! h = Some (k, BUsed) <-> B !! h = Some (k, BUsed) /\ h <> pg) ->
  tables (delete a own) B' (set_phys m mc).
Proof.
  intros [T1 T2 T3 T4 T5 T6 T7 T8 T9 T10] Hh Hnd Hnt I K HB. assert (forall pg' b, held (phys mc) B pg' b -> b <> a -> held m B' pg' b) as Hk.
  { intros pg' b H Hne. apply (held_kept (phys mc) B); try done. apply HB. destruct H as (Hb & q & Hq & Eq). split; [done|]. intros ->.
    destruct Hh as (_ & p & Hp & Ep). congruence. }
  assert (forall b x, own !! b = Some x -> b <> a -> delete a own !! b = Some x) as Hs by (intros b x Hb Hne; by rewrite lookup_delete_ne).
  split; cbn [phys ram pmaps fresh asid_used set_phys]; try done.
  - intros pg' p Hp. destruct K as (_ & _ & K). destruct (K pg' p Hp) as (q & Hq & -> & _). by apply T2 in Hq.
  - intros b o. rewrite lookup_delete_Some. intros [Hne Ho]. destruct (T3 b o Ho) as [Hf [[pg' H]|[Hko H]]]; split; try done; [left; exists pg'; by apply Hk|right].
    split; [done|]. intros pg' p Hp. destruct K as (_ & _ & K). destruct (K pg' p Hp) as (q & Hq & -> & _). by apply H in Hq.
  - intros pm P HP. destruct (T4 pm P HP) as (d & dir & E1 & E2 & E3 & E4 & E5). exists d, dir. split_and!; try done.
    + apply Hs; [done|]. intros ->. by rewrite (Hnd pm E2) in HP.
    + intros i w Hw Hv. destruct (E5 i w Hw Hv) as (t & tab & ? & Ht & ? & ?). exists t, tab. split_and!; try done. apply Hs; [done|]. intros ->. by rewrite (Hnt _ _ Ht) in HP.
  - intros pm P HP Hkn. destruct (T5 pm P HP Hkn) as [Hn H]. split; [done|]. intros pg' Hpg. destruct (H pg' Hpg) as (b & i & J1 & J2). exists b, i.
    assert (b <> a) by (intros ->; by rewrite (Hnt _ _ J2) in HP). split; [by apply Hk|by apply Hs].
Qed.

Lemma rep_alloc own B mc gv : rep own B mc gv ->
  vm_page_alloc (phys mc) 1 = Ok (None, phys mc) \/
  exists pg m own' B' d, vm_page_alloc (phys mc) 1 = Ok (Some pg, m) /\ v_data gv !! pg = None /\
    rep own' B' (set_phys m mc) (set_data (<[pg := d]> (v_data gv)) gv) /\ (forall p, pget m pg = Some p -> ram mc !! paddr p = Some d).
Proof.
  intros R. pose proof R as [R1 R2 R3 R4 R5 R6]. destruct (alloc1_spec (phys mc) B (tb_phys _ _ _ R1)) as [E|(pg & m & B' & a & E & I & K & Hh & Hv & Hnot & Hu)]; [by left|right].
  pose proof (fresh_frame own B mc m B' pg a R1 I K Hh Hnot Hu) as Hfr. set (mc' := set_phys m mc).
  assert (forall h, B !! h = Some (0%nat, BUsed) -> B' !! h = Some (0%nat, BUsed) /\ h <> pg) as Hkeep.
  { intros h Hb. assert (h <> pg) as Hne by (intros ->; by apply (Hnot 0%nat)). split; [by apply Hu|done]. }
  assert (tables own B' mc') as T1. { apply (tables_phys own B); try done. intros h b o _ Hb. apply (held_kept (phys mc) B); try done. apply Hkeep. by destruct Hb. }
  destruct (get_page_held mc' B' pg a Hh) as (p & _ & Hp & Ha). pose proof (tb_frame _ _ _ T1 pg p Hp) as [Hf [d Hd]]. rewrite Ha in Hf, Hd. cbn in Hd.
  assert (tables (<[a := OData]> own) B' mc') as T2 by (by apply (tables_own _ _ _ a OData pg)).
  assert (forall pg' b, held (phys mc) B pg' b -> held m B' pg' b) as Hk by (intros pg' b H; apply (held_kept (phys mc) B); try done; apply Hkeep; by destruct H).
  exists pg, m, (<[a := OData]> own), B', d. split_and!; try done.
  - destruct (v_data gv !! pg) as [d'|] eqn:E'; [|done]. apply R2 in E' as (b & [Hb _] & _). by apply (Hnot 0%nat) in Hb.
  - split; cbn [set_data v_data v_pmaps v_maps]; try done.
    + intros pg' d'. rewrite lookup_insert_Some, R2. split.
      * intros [[<- <-]|[Hne (b & H1 & H2 & H3)]]; [exists a; by rewrite lookup_insert_eq|]. exists b. rewrite lookup_insert_ne by congruence. split_and!; try done. by apply Hk.
      * intros (b & H1 & H2 & H3). apply lookup_insert_Some in H2 as [[<- _]|[Hne H2]]; [left; split; [by apply (held_inj m B' pg pg' a)|cbn in H3; congruence]|].
        right. assert (pg <> pg') by (intros <-; destruct H1 as (_ & q & ? & ?), Hh as (_ & q' & ? & ?); cbn in *; congruence). split; [done|]. exists b. split_and!; try done.
        destruct (tb_own _ _ _ R1 b _ H2) as [_ [[pg2 H']|[? _]]]; [|done]. rewrite (held_inj m B' pg' pg2 b I H1) by auto. done.
    + intros pm P va HP Hn Hva. pose proof (R4 pm P va HP Hn Hva) as H. rewrite (mapped_eq mc) by done. destruct (v_maps gv !! (pm, va)) as [[pg' pr]|]; [|done].
      destruct H as (b & H1 & H2). exists b. split; [by apply Hk|done].
    + intros pm va pg' pr H. destruct (R5 pm va pg' pr H) as (? & ? & ? & ?). do 3 (split; [done|]). rewrite lookup_insert_is_Some'. by right.
    + apply (links_same mc); cbn; try done; try lia; eauto. intros pg' p' H. destruct K as (_ & _ & K). destruct (K pg' p' H) as (q & Hq & _ & ?). by exists q.
  - intros q Hq. assert (q = p) as -> by (cbn in Hp; congruence). by rewrite Ha.
Qed.

Lemma rep_free own B mc gv pg : rep own B mc gv -> is_Some (v_data gv !! pg) -> (forall k pr, v_maps gv !! k <> Some (pg, pr)) ->
  exists m own' B', vm_page_free (phys mc) pg = Ok m /\ rep own' B' (set_phys m mc) (set_data (delete pg (v_data gv)) gv).
Proof.
  intros R Hpg Hno. destruct (rep_held own B mc gv pg R Hpg) as (a & Hh & Ho & Hf). pose proof (rep_unmapped own B mc gv pg) as Hun.
  pose proof R as [R1 R2 R3 R4 R5 R6].
  destruct (free1_spec (phys mc) B pg a (tb_phys _ _ _ R1) Hh) as (m & B' & -> & I & K & Hu); [intros p Hp; by apply (Hun p R)|].
  exists m, (delete a own), B'. split; [done|]. assert (tables (delete a own) B' (set_phys m mc)) as T by (apply (tables_free own B B' mc m pg); congruence || done).
  assert (forall pg' b, held (phys mc) B pg' b -> pg' <> pg -> held m B' pg' b) as Hk by (intros pg' b H Hne; apply (held_kept (phys mc) B); try done; apply Hu; by destruct H).
  split; cbn [set_data v_data v_pmaps v_maps]; try done.
  - intros pg' d'. rewrite lookup_delete_Some, R2. split.
    + intros (Hne & b & H1 & H2 & H3). exists b. split; [by apply Hk|]. split; [|done]. rewrite lookup_delete_ne; [done|]. intros <-. apply Hne. by apply (held_inj (phys mc) B pg pg' a (tb_phys _ _ _ R1)).
    + intros (b & H1 & H2 & H3). apply lookup_delete_Some in H2 as [Hne H2]. cbn in H1. assert (pg' <> pg) as Hpn by (destruct H1 as [H1 _]; by apply Hu in H1 as [_ H1]). split; [done|]. exists b. split_and!; try done.
      destruct (tb_own _ _ _ R1 b _ H2) as [_ [[pg2 H']|[? _]]]; [|done]. rewrite (held_inj m B' pg' pg2 b I H1); [done|]. apply Hk; [done|]. intros ->.
      destruct H' as (_ & q & ? & ?), Hh as (_ & q' & ? & ?). congruence.
  - intros pm P va HP Hn Hva. pose proof (R4 pm P va HP Hn Hva) as H. rewrite (mapped_eq mc) by done. destruct (v_maps gv !! (pm, va)) as [[pg' pr]|] eqn:E; [|done].
    destruct H as (b & H1 & H2). exists b. split; [|done]. apply Hk; [done|]. intros ->. by apply Hno in E.
  - intros pm va pg' pr H. destruct (R5 pm va pg' pr H) as (? & ? & ? & ?). do 3 (split; [done|]). rewrite lookup_delete_ne; [done|]. intros <-. by apply Hno in H.
  - apply (links_same mc); cbn; try done; try lia; eauto. intros pg' p' H. destruct K as (_ & _ & K). destruct (K pg' p' H) as (q & Hq & _ & ?). by exists q.
Qed.

(** ** Mappings *)

Lemma page_offset va : PAGE_OFFSET va = va `mod` PAGESIZE.
Proof. unfold PAGE_OFFSET. change (PAGESIZE - 1) with (Z.ones 12). by rewrite Z.land_ones by lia. Qed.

(** The first address of the page of [va] *)
Definition page_of va : Z := va - va `mod` PAGESIZE.

Lemma page_of_spec va : page_aligned_p (page_of va) = true /\ page_of va = va / 2 ^ 12 * 2 ^ 12.
Proof.
  assert (page_of va = va / 2 ^ 12 * 2 ^ 12) as E. { unfold page_of. change PAGESIZE with (2 ^ 12). pose proof (Z.div_mod va (2 ^ 12) ltac:(lia)). lia. }
  rewrite E. split; [apply aligned_mul|done].
Qed.

Lemma index_page va : word_va va -> PDE_INDEX (page_of va) = PDE_INDEX va /\ PTE_INDEX (page_of va) = PTE_INDEX va.
Proof.
  intros H. destruct (page_of_spec va) as [_ E]. assert (0 <= page_of va < 2 ^ 32) as H'.
  { rewrite E. unfold word_va in H. pose proof (Z.div_mod va (2 ^ 12) ltac:(lia)). pose proof (Z.mod_pos_bound va (2 ^ 12) ltac:(lia)).
    assert (0 <= va / 2 ^ 12) by (apply Z.div_pos; lia). lia. }
  rewrite !pde_index_spec, !pte_index_spec, E by done. rewrite Z.div_mul by lia. split; [|done].
  change (2 ^ 22) with (2 ^ 12 * 2 ^ 10). rewrite <- !Z.div_div, Z.div_mul by lia. done.
Qed.

Lemma user_asid own B mc pm P : tables own B mc -> pmaps mc !! pm = Some P -> pm <> pmap_kernel -> (asid P =? 0) = false.
Proof. intros T HP Hk. apply Z.eqb_neq. intros E. apply Hk. by apply (tb_asid _ _ _ T pm P HP). Qed.

Lemma user_addr own B mc pm P va : tables own B mc -> pmaps mc !! pm = Some P -> pm <> pmap_kernel ->
  pmap_address_p P va = true <-> PMAP_USER_BEGIN <= va < PMAP_USER_END.
Proof.
  intros T HP Hk. unfold pmap_address_p, pmap_start, pmap_end. rewrite (user_asid own B mc pm P T HP Hk). cbn [negb].
  rewrite andb_true_iff, Z.leb_le, Z.ltb_lt. done.
Qed.

Lemma pte_read_page mc pm va : word_va va -> pmap_pte_read mc pm (page_of va) = pmap_pte_read mc pm va.
Proof. intros H. destruct (index_page va H) as [E1 E2]. unfold pmap_pte_read, PDE_OF, PTE_OF. by rewrite E1, E2. Qed.

(** A mapped address is translated. *)
Lemma extract_spec own B mc pm P va : tables own B mc -> pmaps mc !! pm = Some P -> pmap_address_p P va = true -> word_va va ->
  pmap_extract_nolock mc pm va = Ok (match mapped mc pm (page_of va) with None => None | Some (a, _) => if a =? 0 then None else Some (Z.lor a (PAGE_OFFSET va)) end).
Proof.
  intros T HP Hin Hw. unfold pmap_extract_nolock, get_pmap. rewrite HP. cbn [some_of mbind outcome_bind]. rewrite Hin. cbn [negb]. unfold mapped. rewrite pte_read_page by done.
  destruct (walk_ok own B mc pm P va T HP Hw) as (d & dir & w & W). rewrite (read_walk own mc pm P va d dir w HP W).
  destruct (is_valid_pde w) eqn:E; [|done]. destruct (wk_valid _ _ _ _ _ _ _ _ W E) as (t & tab & x & _ & _ & _ & _ & _ & _ & ->).
  cbn [mbind outcome_bind]. unfold entry. destruct (PTE_FRAME_ADDR x =? 0) eqn:E0; cbn [andb]; [|by rewrite ?E0]. by destruct (flag_on x PTE_VALID); cbn [negb]; rewrite ?E0.
Qed.

Lemma extract_user own B mc pm P va : tables own B mc -> pmaps mc !! pm = Some P -> pm <> pmap_kernel -> PMAP_USER_BEGIN <= va < PMAP_USER_END ->
  pmap_extract_nolock mc pm va = Ok (match mapped mc pm (page_of va) with None => None | Some (a, _) => if a =? 0 then None else Some (Z.lor a (PAGE_OFFSET va)) end).
Proof.
  intros T HP Hk Hva. apply (extract_spec own B mc pm P); try done; [by apply (user_addr own B mc pm)|]. unfold word_va, PMAP_USER_BEGIN, PMAP_USER_END in *. lia.
Qed.

Lemma page_of_user va : user_va va -> page_of va = va /\ PAGE_OFFSET va = 0.
Proof.
  intros [H _]. apply (is_aligned_pow2 _ 12) in H; [|lia]. rewrite page_offset. unfold page_of. change PAGESIZE with (2 ^ 12). rewrite H. split; [lia|done].
Qed.

Lemma extract_rep own B mc gv pm P va : rep own B mc gv -> pmaps mc !! pm = Some P -> pm <> pmap_kernel -> user_va va ->
  match v_maps gv !! (pm, va) with
  | None => pmap_extract_nolock mc pm va = Ok None
  | Some (pg, pr) => exists a, held (phys mc) B pg a /\ pmap_extract_nolock mc pm va = Ok (Some a) /\ vm_page_find (phys mc) a = Some pg
  end.
Proof.
  intros R HP Hk Hva. pose proof (rp_maps _ _ _ _ R pm P va HP Hk Hva) as H. rewrite (extract_user own B mc pm P va (rp_tables _ _ _ _ R) HP Hk (proj2 Hva)).
  destruct (page_of_user va Hva) as [-> ->]. destruct (v_maps gv !! (pm, va)) as [[pg pr]|] eqn:E; [|by rewrite H]. destruct H as (a & Hh & ->).
  destruct (rep_frame own B mc gv pm va pg pr a R E Hh) as [_ ->]. exists a. split; [done|]. rewrite Z.lor_0_r. split; [done|]. replace a with (a + 0) by lia. by apply (find_held _ B); [apply (rp_tables _ _ _ _ R)| |unfold PAGESIZE; lia].
Qed.

Definition mild_flags (f : Z -> Z) : Prop := forall x, flag_on (f x) PG_ALLOCATED = flag_on x PG_ALLOCATED /\ flag_on (f x) PG_MANAGED = flag_on x PG_MANAGED.

Lemma low_clear k i : Z.land k 3 = 0 -> 0 <= i < 2 -> Z.testbit k i = false.
Proof.
  intros H Hi. assert (Z.testbit (Z.land k (Z.ones 2)) i = false) as E by (change (Z.ones 2) with 3; by rewrite H, Z.bits_0).
  by rewrite Z.land_spec, Z.ones_spec_low, andb_true_r in E by lia.
Qed.

Lemma mild_clr k : Z.land k 3 = 0 -> mild_flags (fun x => flag_clr x k).
Proof.
  intros H x. pose proof (fun i => low_clear k i H) as Hb. unfold PG_ALLOCATED, PG_MANAGED. change 1 with (2 ^ 0). change 2 with (2 ^ 1). rewrite !flag_on_bit by lia. unfold flag_clr.
  rewrite !Z.land_spec, !Z.lnot_spec, !Hb by lia. by rewrite !andb_true_r.
Qed.

Lemma mild_set k : Z.land k 3 = 0 -> mild_flags (fun x => flag_set x k).
Proof.
  intros H x. pose proof (fun i => low_clear k i H) as Hb. unfold PG_ALLOCATED, PG_MANAGED. change 1 with (2 ^ 0). change 2 with (2 ^ 1). rewrite !flag_on_bit by lia. unfold flag_set.
  rewrite !Z.lor_spec, !Hb by lia. by rewrite !orb_false_r.
Qed.

Lemma set_flags_spec own B mc pg a f t : tables own B mc -> held (phys mc) B pg a -> mild_flags f -> links mc t ->
  exists mc', set_pg_flags mc pg f = Ok mc' /\ tables own B mc' /\ quiet mc mc' /\ links mc' t /\ pmaps mc' = pmaps mc /\ page_pvs mc' = page_pvs mc /\
    (forall j p, pget (phys mc) j = Some p -> pget (phys mc') j = Some (if decide (j = pg) then set_flags (f (flags p)) p else p)).
Proof.
  intros T Hh Hf L. unfold set_pg_flags. destruct (upd_held (phys mc) B pg a (fun p => set_flags (f (flags p)) p) (tb_phys _ _ _ T) Hh) as (m & p & -> & I & Hp & Hs & G).
  { intros p. destruct (Hf (flags p)) as [F1 F2]. by destruct p. }
  cbn [mbind outcome_bind]. eexists. split; [done|]. set (mc' := set_phys m mc). assert (quiet mc mc') as Q.
  { split; cbn; try done; try lia; eauto.
    - intros j p' H. rewrite G in H. case_decide; [subst; injection H as <-; exists p; by destruct p|by exists p'].
    - intros j q H. rewrite G. case_decide; [subst; eexists; split; [done|]; assert (q = p) as -> by congruence; by destruct p|by exists q]. }
  split; [by apply (quiet_tables own B mc)|]. split; [done|]. split; [|split_and!; try done].
  - apply (links_same mc); cbn; try done; try lia; eauto. intros j p' H. rewrite G in H. case_decide; [subst; injection H as <-; exists p; by destruct p|by exists p'].
  - intros j q Hq. cbn. rewrite G. case_decide; [subst|done]. by assert (q = p) as -> by congruence.
Qed.

Lemma links_prot mc (t : mappings) k pg pr pr' : links mc t -> t !! k = Some (pg, pr') -> links mc (<[k := (pg, pr)]> t).
Proof.
  intros [L1 L2 L3 L4 L5 L6 L7] Hk. split; try done.
  - intros pg' pv H. destruct (L1 pg' pv H) as [r Hr]. destruct (decide ((pv_pmap pv, pv_va pv) = k)) as [E|Hne].
    + exists pr. rewrite E, lookup_insert_eq. rewrite E in Hr. congruence.
    + exists r. by rewrite lookup_insert_ne by done.
  - intros pm va pg' r. rewrite lookup_insert_Some. intros [[E [= <- <-]]|[_ H]]; [|by apply (L2 _ _ _ r)]. rewrite E in Hk. by apply (L2 pm va pg pr').
Qed.

Lemma pv_find_some mc t pm va pg pr : links mc t -> t !! (pm, va) = Some (pg, pr) ->
  exists pv, pv_find mc pm va pg = Some pv /\ pv ∈ pvs mc pg /\ pv_pmap pv = pm /\ pv_va pv = va.
Proof.
  intros L H. destruct (lk_has _ _ L pm va pg pr H) as (pv & Hpv & E1 & E2). unfold pv_find.
  destruct (list_find_elem_of (fun pv => pv_pmap pv = pm /\ pv_va pv = va) (pvs mc pg) pv Hpv (conj E1 E2)) as [[i x] E]. rewrite E. exists x.
  apply list_find_Some in E as (Hi & [F1 F2] & _). split; [done|]. split; [by eapply list_elem_of_lookup_2|done].
Qed.

Lemma pv_find_none mc t pm va pg : links mc t -> t !! (pm, va) = None -> pv_find mc pm va pg = None.
Proof.
  intros L H. unfold pv_find. destruct (list_find _ _) as [[i x]|] eqn:E; [|done]. apply list_find_Some in E as (Hi & [F1 F2] & _).
  destruct (lk_page _ _ L pg x) as [r Hr]; [by eapply list_elem_of_lookup_2|]. congruence.
Qed.

Lemma entry_addr a x : page_aligned_p a = true -> 0 < a < 2 ^ 32 -> Z.land x PTE_PFN_MASK = 0 -> entry (Z.lor (PTE_PFN a) x) = Some (a, pte_prot x).
Proof.
  intros Hal Hr Hx. pose proof (aligned_div a Hal) as E. assert (0 <= a / 2 ^ 12 < 2 ^ 20) as Hd by lia.
  unfold entry, pte_prot. rewrite E, frame_spec by done. rewrite <- E. rewrite (proj2 (Z.eqb_neq a 0)) by lia. cbn [andb]. f_equal. f_equal.
  rewrite E at 1 2 3. unfold PTE_SW_READ, PTE_SW_WRITE, PTE_SW_NOEXEC. by rewrite !flag_pfn by lia.
Qed.

Lemma entry_pfn a x : frame_ok a -> Z.land x PTE_PFN_MASK = 0 -> entry (Z.lor (PTE_PFN a) x) = Some (a, pte_prot x).
Proof. intros [Hal Hr]. apply entry_addr; [done|lia]. Qed.

Lemma cache_cases cflags : cache_bits cflags = 0 \/ cache_bits cflags = 16 \/ cache_bits cflags = 24.
Proof. unfold cache_bits. destruct (_ =? _); [auto|]. destruct (_ =? _); auto. Qed.

(** The word that [pmap_enter] writes for a user map *)
Lemma entry_user a pr cflags : frame_ok a -> 0 <= pr <= 7 ->
  exists w, arr_get vm_prot_map pr = Ok w /\ entry (Z.lor (Z.lor (PTE_PFN a) (Z.lor (Z.land w PTE_SW_FLAGS) 0)) (cache_bits cflags)) = Some (a, pr).
Proof.
  intros Hf Hpr. assert (pr ∈ (Z.of_nat <$> seq 0 8)) as H.
  { apply list_elem_of_fmap. exists (Z.to_nat pr). split; [lia|]. apply elem_of_seq. lia. }
  cbn in H. destruct (cache_cases cflags) as [-> |[-> | ->]];
    repeat (apply elem_of_cons in H as [-> |H]; [eexists; split; [reflexivity|]; rewrite <- Z.lor_assoc; by rewrite entry_pfn|]); by apply not_elem_of_nil in H.
Qed.

Lemma entry_empty pm cflags : entry (Z.lor (empty_pte pm) (cache_bits cflags)) = None.
Proof. unfold empty_pte. destruct (pm =? pmap_kernel); by destruct (cache_cases cflags) as [-> |[-> | ->]]. Qed.

Lemma rep_enter own B mc gv pm va pg pr cflags : rep own B mc gv -> pm ∈ v_pmaps gv -> pm <> pmap_kernel -> user_va va -> is_Some (v_data gv !! pg) -> 0 <= pr <= 7 ->
  (forall x, v_maps gv !! (pm, va) = Some x -> x.1 = pg) ->
  pmap_enter mc pm va pg pr cflags = Fault NoMemory \/
  exists mc' own' B', pmap_enter mc pm va pg pr cflags = Ok mc' /\ rep own' B' mc' (set_maps (<[(pm, va) := (pg, pr)]> (v_maps gv)) gv).
Proof.
  intros R Hpm Hk Hva Hpg Hpr Hsame. pose proof R as [R1 R2 R3 R4 R5 R6]. destruct (rep_held own B mc gv pg R Hpg) as (a & Hh & Ho & Hf).
  apply R3 in Hpm as [P HP]. destruct (get_page_held mc B pg a Hh) as (p & Eg & _ & Ea). destruct (entry_user a pr cflags Hf Hpr) as (w & Ew & Een).
  unfold pmap_enter. rewrite Eg. cbn [mbind outcome_bind]. unfold get_pmap. rewrite HP. cbn [some_of mbind outcome_bind]. rewrite (proj1 Hva). cbn [assert mbind outcome_bind].
  rewrite (proj2 (user_addr own B mc pm P va R1 HP Hk) (proj2 Hva)). cbn [assert mbind outcome_bind]. unfold empty_pte. rewrite (proj2 (Z.eqb_neq _ _) Hk), Ew. cbn [mbind outcome_bind].
  set (t' := <[(pm, va) := (pg, pr)]> (v_maps gv)).
  assert (exists mc1, (match pv_find mc pm va pg with None => pv_add mc pm va pg | Some _ => Ok mc end) = Ok mc1 /\ tables own B mc1 /\ quiet mc mc1 /\ links mc1 t') as (mc1 & -> & T1 & Q1 & L1).
  { destruct (v_maps gv !! (pm, va)) as [[pg' pr']|] eqn:E.
    - assert (pg' = pg) as -> by apply (Hsame _ eq_refl). destruct (pv_find_some mc _ pm va pg pr' R6 E) as (pv & -> & _). exists mc.
      split_and!; try done; [apply quiet_refl|by apply (links_prot mc _ _ pg pr pr')].
    - rewrite (pv_find_none mc _ pm va pg R6 E). by apply (pv_add_spec own B mc (v_maps gv) pm P va pg a pr). }
  cbn [mbind outcome_bind]. destruct (set_flags_spec own B mc1 pg a (fun f => flag_clr f (Z.lor PG_MODIFIED PG_REFERENCED)) t' T1 (quiet_held _ _ _ _ _ Q1 Hh) (mild_clr (Z.lor PG_MODIFIED PG_REFERENCED) eq_refl) L1)
    as (mc2 & -> & T2 & Q2 & L2 & _). cbn [mbind outcome_bind]. rewrite Ea.
  pose proof (quiet_trans _ _ _ Q1 Q2) as Q. destruct (qt_pmap' _ _ Q pm P HP) as (P2 & HP2 & _).
  destruct (pte_write_spec own B mc2 pm P2 va (Z.lor (PTE_PFN a) (Z.lor (Z.land w PTE_SW_FLAGS) 0)) cflags T2 HP2 (user_page va Hva)) as [(_ & _ & ->)|(mc3 & own' & B' & -> & T3 & X & M)]; [by left|right].
  exists mc3, own', B'. split; [done|]. apply (rep_follows own B mc); try done.
  - apply (follows_trans _ _ _ own B mc2); [by apply quiet_follows|by apply (extends_follows _ _ _ pm)].
  - by apply (extends_links own B mc2 pm own' B').
  - intros pm' P' va' HP' Hk' Hva'. destruct (qt_pmap' _ _ Q pm' P' HP') as (P'' & HP'' & _). rewrite (M pm' P'' va' HP'' (user_page va' Hva')). unfold t'. case_decide as Hd.
    + destruct Hd as [-> ->]. rewrite lookup_insert_eq. exists a. by rewrite Een.
    + rewrite lookup_insert_ne by naive_solver. rewrite (quiet_mapped mc mc2 pm' P') by done. by apply (R4 pm' P').
  - intros pm' va' pg' pr'. unfold t'. rewrite lookup_insert_Some. intros [[[= <- <-] [= <- <-]]|[_ H]]; [|by apply (R5 _ _ _ pr')]. do 2 (split; [done || by exists P|]). done.
Qed.

(** ** Ranges *)

Lemma unmap_step pm va (e : Z) (t : mappings) : (forall va' x, t !! (pm, va') = Some x -> page_aligned_p va' = true) -> page_aligned_p va = true -> va + PAGESIZE <= e ->
  unmap pm va e t = unmap pm (va + PAGESIZE) e (delete (pm, va) t).
Proof.
  intros Hal Hva He. apply map_eq. intros [pm' va']. apply option_eq. intros x. unfold unmap. rewrite !map_lookup_filter_Some, lookup_delete_Some. unfold in_range. cbn [fst snd].
  unfold PAGESIZE in *. split; intros [H1 H2].
  - split; [split; [|done]|].
    + intros [= -> ->]. apply H2. lia.
    + intros [-> H3]. apply H2. lia.
  - destruct H1 as [Hne H1]. split; [done|]. intros [-> H3]. apply H2. split; [done|]. assert (va' <> va) by congruence.
    pose proof (aligned_div va Hva). pose proof (aligned_div va' (Hal va' x H1)). lia.
Qed.

Lemma rep_aligned own B mc gv pm va x : rep own B mc gv -> v_maps gv !! (pm, va) = Some x -> page_aligned_p va = true.
Proof. intros R H. destruct x as [pg pr]. destruct (rp_dom _ _ _ _ R pm va pg pr H) as (_ & _ & [? _] & _). done. Qed.

(** One mapping is removed. *)
Lemma rep_unlink own B mc gv pm va pg pr pv : rep own B mc gv -> v_maps gv !! (pm, va) = Some (pg, pr) -> pv ∈ pvs mc pg -> pv_pmap pv = pm -> pv_va pv = va ->
  exists mc' own' B', (mc1 ← pv_unlink mc pm pg pv; pmap_pte_write mc1 pm va (empty_pte pm) 0) = Ok mc' /\ rep own' B' mc' (set_maps (delete (pm, va) (v_maps gv)) gv) /\
    pvs mc' pg = filter (fun y => y <> pv) (pvs mc pg).
Proof.
  intros R E Hpv F1 F2. pose proof R as [R1 R2 R3 R4 R5 R6]. destruct (R5 pm va pg pr E) as (Hk & [P HP] & Hva & _).
  pose proof (R4 pm P va HP Hk Hva) as Hm. rewrite E in Hm. destruct Hm as (a & Hh & Hm).
  destruct (pv_unlink_spec own B mc (v_maps gv) pm P pg a pv R1 R6 HP Hh Hpv F1) as (mc1 & -> & T1 & Q & L1 & Ep & _). rewrite F2 in L1. cbn [mbind outcome_bind].
  destruct (qt_pmap' _ _ Q pm P HP) as (P1 & HP1 & _).
  destruct (pte_write_spec own B mc1 pm P1 va (empty_pte pm) 0 T1 HP1 (user_page va Hva)) as [(Hn & _)|(mc2 & own' & B' & -> & T2 & X & M)].
  { rewrite (quiet_mapped mc mc1 pm P) in Hn by done. congruence. }
  exists mc2, own', B'. split; [done|]. split; [|unfold pvs; destruct (ex_rest _ _ _ _ _ _ _ X) as [-> _]; exact Ep]. apply (rep_follows own B mc); try done.
  - apply (follows_trans _ _ _ own B mc1); [by apply quiet_follows|by apply (extends_follows _ _ _ pm)].
  - by apply (extends_links own B mc1 pm own' B').
  - intros pm' P' va' HP' Hk' Hva'. destruct (qt_pmap' _ _ Q pm' P' HP') as (P'' & HP'' & _). rewrite (M pm' P'' va' HP'' (user_page va' Hva')). case_decide as Hd.
    + destruct Hd as [-> ->]. rewrite lookup_delete_eq. apply entry_empty.
    + rewrite lookup_delete_ne by naive_solver. rewrite (quiet_mapped mc mc1 pm' P') by done. by apply (R4 pm' P').
  - intros pm' va' pg' pr'. rewrite lookup_delete_Some. intros [_ H]. by apply (R5 _ _ _ pr').
Qed.

Lemma rep_remove_page own B mc gv pm va pg pr : rep own B mc gv -> v_maps gv !! (pm, va) = Some (pg, pr) ->
  exists mc' own' B', (mc1 ← pv_remove mc pm va pg; pmap_pte_write mc1 pm va (empty_pte pm) 0) = Ok mc' /\ rep own' B' mc' (set_maps (delete (pm, va) (v_maps gv)) gv).
Proof.
  intros R E. unfold pv_remove. destruct (pv_find_some mc _ pm va pg pr (rp_links _ _ _ _ R) E) as (pv & -> & Hpv & F1 & F2).
  destruct (rep_unlink own B mc gv pm va pg pr pv R E Hpv F1 F2) as (mc' & own' & B' & -> & R' & _). by exists mc', own', B'.
Qed.

Lemma user_step va (n : nat) : user_va va -> va + PAGESIZE + PAGESIZE * Z.of_nat n <= PMAP_USER_END -> n <> 0%nat -> user_va (va + PAGESIZE).
Proof.
  intros [H1 H2] H Hn. split; [|unfold PAGESIZE in *; lia]. apply (is_aligned_pow2 _ 12) in H1; [|lia]. apply (is_aligned_pow2 _ 12); [lia|].
  change PAGESIZE with (1 * 2 ^ 12). by rewrite Z.mod_add by lia.
Qed.

Lemma remove_loop_spec pm (n : nat) : pm <> pmap_kernel -> forall own B mc gv va, rep own B mc gv -> is_Some (pmaps mc !! pm) ->
  (n <> 0%nat -> user_va va) -> va + PAGESIZE * Z.of_nat n <= PMAP_USER_END ->
  exists mc' own' B', remove_loop n mc pm va = Ok mc' /\ rep own' B' mc' (set_maps (unmap pm va (va + PAGESIZE * Z.of_nat n) (v_maps gv)) gv).
Proof.
  intros Hk. induction n as [|n IH]; intros own B mc gv va R [P HP] Hva Hn; cbn [remove_loop].
  - exists mc, own, B. split; [done|]. assert (unmap pm va (va + PAGESIZE * Z.of_nat 0) (v_maps gv) = v_maps gv) as ->; [|by rewrite set_maps_id].
    apply map_filter_id. intros [pm' va'] x _. unfold in_range. cbn. lia.
  - specialize (Hva ltac:(done)). pose proof (extract_rep own B mc gv pm P va R HP Hk Hva) as Hx.
    rewrite (unmap_step pm va (va + PAGESIZE * Z.of_nat (S n)) (v_maps gv)) by (try apply Hva; try (intros va' x; by apply (rep_aligned own B mc gv pm)); unfold PAGESIZE in *; lia).
    replace (va + PAGESIZE * Z.of_nat (S n)) with (va + PAGESIZE + PAGESIZE * Z.of_nat n) in * by lia.
    destruct (v_maps gv !! (pm, va)) as [[pg pr]|] eqn:E.
    + destruct Hx as (a & Hh & -> & Ef). cbn [mbind outcome_bind]. rewrite Ef. cbn [some_of mbind outcome_bind].
      destruct (rep_remove_page own B mc gv pm va pg pr R E) as (mc1 & own1 & B1 & E1 & R1). rewrite E1. cbn [mbind outcome_bind].
      destruct (IH own1 B1 mc1 _ (va + PAGESIZE) R1) as (mc2 & own2 & B2 & E2 & R2); [|intros H; by apply (user_step va n)|lia|].
      { apply (rp_pmaps _ _ _ _ R1). cbn. apply (rp_pmaps _ _ _ _ R). by exists P. }
      exists mc2, own2, B2. split; [done|exact R2].
    + rewrite Hx. cbn [mbind outcome_bind]. rewrite delete_id by done. apply (IH own B mc gv (va + PAGESIZE) R); [by exists P|intros H; by apply (user_step va n)|lia].
Qed.

Lemma rep_remove own B mc gv pm (s e : Z) : rep own B mc gv -> pm ∈ v_pmaps gv -> pm <> pmap_kernel -> page_aligned_p s = true -> page_aligned_p e = true ->
  s < e -> PMAP_USER_BEGIN <= s -> e <= PMAP_USER_END ->
  exists mc' own' B', pmap_remove mc pm s e = Ok mc' /\ rep own' B' mc' (set_maps (unmap pm s e (v_maps gv)) gv).
Proof.
  intros R Hpm Hk Hs He Hlt H1 H2. pose proof Hpm as [P HP]%(rp_pmaps _ _ _ _ R). unfold pmap_remove, get_pmap. rewrite HP, Hs, He, (proj2 (Z.ltb_lt s e) Hlt).
  cbn [some_of mbind outcome_bind assert andb]. unfold pmap_contains_p, pmap_start, pmap_end. rewrite (user_asid own B mc pm P (rp_tables _ _ _ _ R) HP Hk). cbn [negb].
  rewrite (proj2 (Z.leb_le _ _) H1), (proj2 (Z.leb_le _ _) H2). cbn [assert mbind outcome_bind andb].
  pose proof (aligned_div s Hs) as Es. pose proof (aligned_div e He) as Ee.
  assert ((e - s) / PAGESIZE = e / 2 ^ 12 - s / 2 ^ 12) as En. { rewrite Es at 1. rewrite Ee at 1. rewrite <- Z.mul_sub_distr_r. change PAGESIZE with (2 ^ 12). by rewrite Z.div_mul by lia. }
  destruct (remove_loop_spec pm (Z.to_nat ((e - s) / PAGESIZE)) Hk own B mc gv s R) as (mc' & own' & B' & E & R'); [by exists P|intros _; split; [done|lia]|rewrite En; unfold PAGESIZE in *; lia|].
  exists mc', own', B'. split; [done|]. rewrite En in R'. replace (s + PAGESIZE * Z.of_nat (Z.to_nat (e / 2 ^ 12 - s / 2 ^ 12))) with e in R'; [done|]. unfold PAGESIZE in *. lia.
Qed.

(** All mappings of a page are removed. *)
Lemma page_remove_spec pg (fuel : nat) : forall own B mc gv, rep own B mc gv -> (length (pvs mc pg) <= fuel)%nat ->
  exists mc' own' B', page_remove_loop fuel mc pg = Ok mc' /\ rep own' B' mc' (set_maps (filter (fun x => x.2.1 <> pg) (v_maps gv)) gv).
Proof.
  induction fuel as [|fuel IH]; intros own B mc gv R Hl; cbn [page_remove_loop]; destruct (pvs mc pg) as [|pv l] eqn:E; cbn in Hl; try lia.
  1, 2: exists mc, own, B; split; [done|]; rewrite map_filter_id; [by rewrite set_maps_id|]; intros [pm va] [pg' pr] H; cbn; intros ->;
    destruct (lk_has _ _ (rp_links _ _ _ _ R) pm va pg pr H) as (pv & Hpv & _); rewrite E in Hpv; by apply not_elem_of_nil in Hpv.
  assert (pv ∈ pvs mc pg) as Hpv by (rewrite E; left). destruct (lk_page _ _ (rp_links _ _ _ _ R) pg pv Hpv) as [pr H].
  destruct (rep_unlink own B mc gv _ _ pg pr pv R H Hpv eq_refl eq_refl) as (mc1 & own1 & B1 & E1 & R1 & Ep). apply bind_ok in E1 as (mc0 & E0 & E1). rewrite E0. cbn [mbind outcome_bind]. rewrite E1. cbn [mbind outcome_bind].
  destruct (IH own1 B1 mc1 _ R1) as (mc2 & own2 & B2 & E2 & R2).
  { rewrite Ep, E, filter_cons_False by (intros Hn; by apply Hn). pose proof (length_filter (fun y => y <> pv) l). lia. }
  exists mc2, own2, B2. split; [done|]. cbn [set_maps v_maps] in R2. rewrite map_filter_delete_not in R2; [done|]. cbn. intros x Hx. rewrite H in Hx. injection Hx as <-. naive_solver.
Qed.

(** ** Physical maps *)

Lemma tables_asids own B mc l : tables own B mc -> wf_bits l MAX_ASID -> (forall pm P, pmaps mc !! pm = Some P -> bget l (asid P) = true) -> tables own B (set_asids l mc).
Proof.
  intros [T1 T2 T3 T4 T5 T6 T7 T8 T9 T10] Hl Hb. split; cbn [phys ram pmaps fresh asid_used set_asids]; try done. intros pm P HP. destruct (T8 pm P HP) as (? & _ & ?).
  do 2 (split; [done || by apply (Hb pm P)|]). done.
Qed.

(** A map with an empty directory *)
Lemma tables_new own B mc pm d (x : Z) : tables own B mc -> pmaps mc !! pm = None -> pm < fresh mc -> pm <> pmap_kernel -> own !! d = Some (ODir pm) -> ram mc !! d = Some zero_page ->
  0 < x < MAX_ASID -> bget (asid_used mc) x = true -> (forall pm' P', pmaps mc !! pm' = Some P' -> asid P' <> x) ->
  tables own B (set_pmap pm (Pmap x (MIPS_PHYS_TO_KSEG0 d) [] []) mc).
Proof.
  intros [T1 T2 T3 T4 T5 T6 T7 T8 T9 T10] Hpm Hf Hk Ho Hd Hx Hb Hun. split; cbn [phys ram pmaps fresh asid_used set_pmap]; try done.
  - intros pm' P'. rewrite lookup_insert_Some. intros [[<- <-]|[_ H]]; [|by apply T4]. exists d, zero_page. cbn [pde]. split_and!; try done.
    intros i w Hw. apply lookup_replicate in Hw as [-> _]. done.
  - intros pm' P'. rewrite lookup_insert_Some. intros [[<- <-]|[_ H]] Hk'; [|by apply T5]. cbn. split; [apply NoDup_nil_2|]. intros pg H. by apply not_elem_of_nil in H.
  - intros pm' P'. rewrite lookup_insert_Some. intros [[<- _]|[_ H]]; [done|by apply (T6 pm' P')].
  - intros pm' P'. rewrite lookup_insert_Some. intros [[<- <-]|[_ H]]; [|by apply T8]. cbn. split_and!; try done; lia.
  - intros pm1 pm2 P1 P2. rewrite !lookup_insert_Some. intros [[<- <-]|[_ H1]] [[<- <-]|[_ H2]]; cbn [asid]; [done|intros E; by apply Hun in H2|intros E; by apply Hun in H1|by apply T9].
  - by rewrite lookup_insert_ne.
Qed.

Lemma alloc_asid_spec own B mc : tables own B mc ->
  alloc_asid mc = Fault PanicCalled \/
  exists x l, alloc_asid mc = Ok (x, set_asids l mc) /\ tables own B (set_asids l mc) /\ 0 < x < MAX_ASID /\ bget l x = true /\ (forall pm P, pmaps mc !! pm = Some P -> asid P <> x).
Proof.
  intros T. unfold alloc_asid, bit_ffc. destruct (bit_ffc_from_spec (asid_used mc) MAX_ASID 0 (tb_bits _ _ _ T) ltac:(lia)) as (r & -> & Hr). cbn [mbind outcome_bind].
  destruct Hr as [[-> _]|(Hr & Hf & _)]; [by left|right]. rewrite (proj2 (Z.ltb_ge r 0)) by lia.
  destruct (bit_set_spec (asid_used mc) MAX_ASID r (tb_bits _ _ _ T) Hr) as (l & -> & Hw & _ & Hb). cbn [mbind outcome_bind]. exists r, l. split; [done|].
  assert (forall pm P, pmaps mc !! pm = Some P -> asid P <> r) as Hun. { intros pm P HP E. destruct (tb_asid _ _ _ T pm P HP) as (_ & H & _). congruence. }
  assert (0 < r < MAX_ASID) as Hr0. { destruct (tb_kernel _ _ _ T) as [K HK]. pose proof (Hun _ _ HK) as Hn. destruct (tb_asid _ _ _ T _ K HK) as (_ & _ & H). rewrite (proj2 H eq_refl) in Hn. lia. }
  split_and!; try done; try lia; [|rewrite Hb, Z.eqb_refl by lia; done]. apply tables_asids; try done. intros pm P HP. destruct (tb_asid _ _ _ T pm P HP) as (? & H & _).
  rewrite Hb, H by lia. apply orb_true_r.
Qed.

Lemma links_new mc mc' t pm P : links mc t -> page_pvs mc' = page_pvs mc -> fresh mc <= fresh mc' ->
  (forall pg p', pget (phys mc') pg = Some p' -> exists p, pget (phys mc) pg = Some p /\ pv_empty p' = pv_empty p) ->
  (forall va, t !! (pm, va) = None) -> pv_list P = [] -> pmaps mc' = <[pm := P]> (pmaps mc) -> links mc' t.
Proof.
  intros L E Ef Hp Hno HP EP. assert (links (set_pmap pm P mc) t) as L'; [|apply (links_same (set_pmap pm P mc)); try done; rewrite EP; cbn; eauto].
  destruct L as [L1 L2 L3 L4 L5 L6 L7]. split; cbn; try done.
  - intros pm' P' pv. rewrite lookup_insert_Some. intros [[<- <-]|[_ H]]; [|by apply L4]. rewrite HP. split; [by intros H%not_elem_of_nil|].
    intros (Epm & pg & Hpv). apply L1 in Hpv as [pr Hpv]. by rewrite Epm, Hno in Hpv.
  - intros pm' P'. rewrite lookup_insert_Some. intros [[<- <-]|[_ H]]; [|by apply (L5 pm')]. rewrite HP. apply NoDup_nil_2.
Qed.

Lemma rep_new own B mc gv : rep own B mc gv ->
  exhausted (pmap_new mc) \/
  exists pm mc' own' B', pmap_new mc = Ok (pm, mc') /\ pm <> pmap_kernel /\ pm ∉ v_pmaps gv /\ (forall va, v_maps gv !! (pm, va) = None) /\
    rep own' B' mc' (HView (v_data gv) ({[pm]} ∪ v_pmaps gv) (v_maps gv)).
Proof.
  intros R. pose proof R as [R1 R2 R3 R4 R5 R6]. unfold pmap_new. set (pm := fresh mc).
  assert (pmaps mc !! pm = None) as Hpm. { destruct (pmaps mc !! pm) as [P|] eqn:E; [|done]. pose proof (tb_id _ _ _ R1 pm P E). lia. }
  assert (pm <> pmap_kernel) as Hk. { destruct (tb_kernel _ _ _ R1) as [K HK]. congruence. }
  destruct (set_fresh_tables own B mc (fresh mc + 1) R1 ltac:(lia)) as [T0 _]. set (mc0 := set_fresh _ mc) in *.
  destruct (alloc_asid_spec own B mc0 T0) as [-> |(x & l & -> & T1 & Hx & Hxl & Hun)]; [by left; right|]. cbn [mbind outcome_bind]. set (mc1 := set_asids l mc0) in *.
  destruct (pagealloc_spec own B mc1 T1) as [-> |(pg & a & m & B' & -> & Ha & Hf & HK & Hh & Hv & HH & HT)]; [by left; left|right]. cbn [mbind outcome_bind].
  set (mc2 := set_ram _ (set_phys m mc1)) in *. destruct (get_page_held mc2 B' pg a Hh) as (p & -> & _ & Ea). cbn [mbind outcome_bind]. unfold PG_KSEG0_ADDR. rewrite Ea.
  assert (forall va, v_maps gv !! (pm, va) = None) as Hnm. { intros va. destruct (v_maps gv !! (pm, va)) as [[pg' pr]|] eqn:E; [|done]. apply R5 in E as (_ & [P E] & _). congruence. }
  set (own' := <[a := ODir pm]> own). set (mc3 := set_pmap pm _ mc2). eexists pm, mc3, own', B'. do 2 (split; [done|]). split; [intros [P HP]%R3; congruence|]. split; [done|].
  assert (tables own' B' mc3) as T3.
  { apply tables_new; try done; [apply HT|cbn; lia|unfold own'; by rewrite lookup_insert_eq|cbn; by rewrite lookup_insert_eq]. }
  assert (forall b o, own !! b = Some o -> own' !! b = Some o /\ ram mc3 !! b = ram mc !! b) as Hb.
  { intros b o Hb. assert (b <> a) by congruence. unfold own'. cbn. by rewrite !lookup_insert_ne. }
  assert (forall pg' b, held (phys mc) B pg' b -> held m B' pg' b) as Hk2. { intros pg' b H. apply (held_kept (phys mc) B); try done. destruct H as [H _]. by apply HH. }
  split; cbn [v_data v_pmaps v_maps]; try done.
  - intros pg' d. rewrite R2. apply same_data; try done; [intros pg2 b _; apply Hk2| |intros b H; by apply (Hb b OData)]. intros b. unfold own'. rewrite lookup_insert_Some. split; [naive_solver|].
    intros H. right. split; [congruence|done].
  - intros pm'. rewrite elem_of_union, elem_of_singleton, R3. cbn. rewrite lookup_insert_is_Some'. naive_solver.
  - intros pm' P va. cbn. rewrite lookup_insert_Some. intros [[<- <-]|[Hne HP]] Hk' Hva.
    + rewrite Hnm. unfold mapped, pmap_pte_read, get_pmap. cbn. rewrite lookup_insert_eq. cbn [some_of mbind outcome_bind]. unfold PDE_OF. cbn [pde].
      destruct (index_range va (proj1 (user_page va Hva))). rewrite (word_get_ok mc3 a _ zero_page 0); try done; [by apply frame_range|cbn; by rewrite lookup_insert_eq|lia|].
      apply lookup_replicate_2. change (Z.to_nat (PAGESIZE / 4)) with 1024%nat. lia.
    + assert (mapped mc3 pm' va = mapped mc pm' va) as ->.
      { unfold mapped. rewrite (read_same own B mc mc3 pm' P P va); try done; [cbn; by rewrite lookup_insert_ne|by apply user_page|]. intros b o lb Ho Hr. destruct (Hb b o Ho) as [_ Eb]. split; intros ->; exists lb; by rewrite Eb. }
      pose proof (R4 pm' P va HP Hk' Hva) as H. destruct (v_maps gv !! (pm', va)) as [[pg' pr]|]; [|done]. destruct H as (b & H1 & H2). exists b. split; [by apply Hk2|done].
  - intros pm' va pg' pr H. destruct (R5 pm' va pg' pr H) as (? & ? & ? & ?). split; [done|]. split; [cbn; rewrite lookup_insert_is_Some'; by right|done].
  - apply (links_new mc _ _ pm (Pmap x (MIPS_PHYS_TO_KSEG0 a) [] [])); try done; [cbn; lia|]. intros pg' p' H. destruct HK as (_ & _ & K). destruct (K pg' p' H) as (q & Hq & _ & ?). by exists q.
Qed.

Lemma filter_ne (l : list pv_entry) (x : pv_entry) : (forall y, y ∈ l -> y <> x) -> filter (fun y => y <> x) l = l.
Proof.
  induction l as [|y l IH]; intros H; [done|]. rewrite filter_cons_True by (apply H; by left). f_equal. apply IH. intros z Hz. apply H. by right.
Qed.

Lemma delete_pvs_spec own B pm (l : list pv_entry) : pm <> pmap_kernel -> forall mc (t : mappings) P, tables own B mc -> links mc t -> pmaps mc !! pm = Some P -> pv_list P = l ->
  (forall va pg pr, t !! (pm, va) = Some (pg, pr) -> user_va va /\ exists a, (a =? 0) = false /\ held (phys mc) B pg a /\ mapped mc pm va = Some (a, pr)) ->
  exists mc', delete_pvs mc pm l = Ok mc' /\ tables own B mc' /\ quiet mc mc' /\ links mc' (filter (fun x => x.1.1 <> pm) t).
Proof.
  intros Hk. induction l as [|pv l IH]; intros mc t P T L HP El Ht; cbn [delete_pvs].
  - exists mc. do 2 (split; [done|]). split; [apply quiet_refl|]. rewrite map_filter_id; [done|]. intros [pm' va] [pg pr] H. cbn. intros ->.
    destruct (lk_has _ _ L pm va pg pr H) as (pv & Hpv & E & _). assert (pv ∈ pv_list P) as Hin by (apply (lk_list _ _ L pm P pv HP); eauto). rewrite El in Hin. by apply not_elem_of_nil in Hin.
  - assert (pv ∈ pv_list P) as Hin by (rewrite El; left). apply (lk_list _ _ L pm P pv HP) in Hin as (Epm & pg & Hpv). destruct (lk_page _ _ L pg pv Hpv) as [pr Hpr]. rewrite Epm in Hpr.
    destruct (Ht _ _ _ Hpr) as (Hva & a & Ha & Hh & Hm). rewrite (extract_user own B mc pm P (pv_va pv) T HP Hk (proj2 Hva)). destruct (page_of_user _ Hva) as [-> ->]. rewrite Hm, Ha, Z.lor_0_r.
    cbn [some_of mbind outcome_bind]. rewrite <- (Z.add_0_r a), (find_held (phys mc) B pg a 0 (tb_phys _ _ _ T) Hh ltac:(unfold PAGESIZE; lia)). cbn [some_of mbind outcome_bind].
    destruct (pv_unlink_spec own B mc t pm P pg a pv T L HP Hh Hpv Epm) as (mc1 & -> & T1 & Q1 & L1 & _ & P1 & HP1 & El1). cbn [mbind outcome_bind].
    pose proof (lk_nodup _ _ L pm P HP) as Hnd. rewrite El in Hnd, El1. apply NoDup_cons in Hnd as [Hni Hnd].
    assert (pv_list P1 = l) as El2. { rewrite El1, filter_cons_False by (intros H; by apply H). apply filter_ne. intros x Hx ->. done. }
    destruct (IH mc1 _ P1 T1 L1 HP1 El2) as (mc2 & -> & T2 & Q2 & L2).
    { intros va' pg' pr'. rewrite lookup_delete_Some. intros [_ H]. destruct (Ht _ _ _ H) as (Hva' & a' & Ha' & Hh' & Hm'). split; [done|]. exists a'. split; [done|]. split; [by apply (quiet_held mc)|].
      by rewrite (quiet_mapped mc mc1 pm P). }
    exists mc2. do 2 (split; [done|]). split; [by apply (quiet_trans _ mc1)|]. rewrite map_filter_delete_not in L2; [done|]. cbn. naive_solver.
Qed.

Lemma tables_del own B mc pm : tables own B mc -> pm <> pmap_kernel -> tables own B (del_pmap pm mc).
Proof.
  intros [T1 T2 T3 T4 T5 T6 T7 T8 T9 T10] Hk. assert (forall pm' P, delete pm (pmaps mc) !! pm' = Some P -> pmaps mc !! pm' = Some P) as Hs by (intros pm' P; rewrite lookup_delete_Some; tauto).
  split; cbn [phys ram pmaps fresh asid_used del_pmap]; eauto. by rewrite lookup_delete_ne.
Qed.

(** The owners of frames that stay while the tables of [pm] go *)
Definition others pm o : Prop := forall i, o <> OTab pm i.

Record freed pm own B m own' B' m' : Prop := {
  fd_kept : kept m m';
  fd_sub a o : own' !! a = Some o -> own !! a = Some o;
  fd_own a o : own !! a = Some o -> others pm o -> own' !! a = Some o;
  fd_held pg a o : held m B pg a -> own !! a = Some o -> others pm o -> held m' B' pg a;
}.

Lemma free_page_spec own B mc pm pg a : tables own B mc -> pmaps mc !! pm = None -> held (phys mc) B pg a -> (exists i, own !! a = Some (OTab pm i)) \/ own !! a = Some (ODir pm) ->
  (forall p, pget (phys mc) pg = Some p -> pv_empty p = true) ->
  exists m B', vm_page_free (phys mc) pg = Ok m /\ tables (delete a own) B' (set_phys m mc) /\ kept (phys mc) m /\ (forall pg' b, held (phys mc) B pg' b -> pg' <> pg -> held m B' pg' b).
Proof.
  intros T Hpm Hh Ho Hv. destruct (free1_spec (phys mc) B pg a (tb_phys _ _ _ T) Hh Hv) as (m & B' & -> & I & K & Hu). exists m, B'. split; [done|]. split_and!; try done.
  - apply (tables_free own B B' mc m pg a); try done; naive_solver.
  - intros pg' b H Hne. apply (held_kept (phys mc) B); try done. apply Hu. by destruct H.
Qed.

Lemma free_pages_spec pm (l : list Z) : forall own B mc, tables own B mc -> pmaps mc !! pm = None -> NoDup l ->
  (forall pg, pg ∈ l -> (exists a i, held (phys mc) B pg a /\ own !! a = Some (OTab pm i)) /\ (forall p, pget (phys mc) pg = Some p -> pv_empty p = true)) ->
  exists m own' B', free_pages mc l = Ok (set_phys m mc) /\ tables own' B' (set_phys m mc) /\ freed pm own B (phys mc) own' B' m.
Proof.
  induction l as [|pg l IH]; intros own B mc T Hpm Hnd Hl; cbn [free_pages].
  - exists (phys mc), own, B. split; [by destruct mc|]. split; [by destruct mc|]. split; try done. apply kept_refl.
  - apply NoDup_cons in Hnd as [Hni Hnd]. destruct (Hl pg ltac:(by left)) as [(a & i & Hh & Ho) Hv].
    destruct (free_page_spec own B mc pm pg a T Hpm Hh ltac:(eauto) Hv) as (m1 & B1 & -> & T1 & K1 & Hk1). cbn [mbind outcome_bind].
    assert (forall pg' b, held (phys mc) B pg' b -> pg' <> pg -> b <> a) as Hne. { intros pg' b H Hn ->. by apply Hn, (held_inj (phys mc) B pg' pg a (tb_phys _ _ _ T)). }
    destruct (IH (delete a own) B1 (set_phys m1 mc) T1 Hpm Hnd) as (m2 & own2 & B2 & -> & T2 & [F1 F2 F3 F4]).
    { intros pg' Hpg'. assert (pg' <> pg) as Hn by congruence. destruct (Hl pg' ltac:(by right)) as [(b & j & Hb & Hob) Hvb]. split.
      - exists b, j. split; [by apply Hk1|]. rewrite lookup_delete_ne; [done|]. intros <-. by eapply Hne.
      - intros p' Hp'. destruct K1 as (_ & _ & K1). destruct (K1 pg' p' Hp') as (q & Hq & _ & ->). by apply Hvb. }
    exists m2, own2, B2. split; [done|]. split; [done|]. cbn in F1, F4. split.
    + by apply (kept_trans _ m1).
    + intros b o H. apply F2 in H. by apply lookup_delete_Some in H as [_ H].
    + intros b o Hb Hot. apply F3; [|done]. rewrite lookup_delete_ne; [done|]. intros <-. rewrite Ho in Hb. injection Hb as <-. by apply (Hot i).
    + intros pg' b o H Hb Hot. assert (b <> a) as Hba by (intros ->; rewrite Ho in Hb; injection Hb as <-; by apply (Hot i)).
      apply (F4 pg' b o); [apply Hk1; [done|]|by rewrite lookup_delete_ne|done]. intros ->. apply Hba. destruct H as (_ & q & ? & ?), Hh as (_ & q' & ? & ?). congruence.
Qed.

Lemma free_pages_phys (l : list Z) : forall mc1 mc2 mc', phys mc1 = phys mc2 -> free_pages mc1 l = Ok mc' -> free_pages mc2 l = Ok (set_phys (phys mc') mc2).
Proof.
  induction l as [|pg l IH]; intros mc1 mc2 mc' E; cbn [free_pages].
  - intros [= <-]. rewrite E. by destruct mc2.
  - rewrite <- E. destruct (vm_page_free (phys mc1) pg) as [m|]; [|done]. cbn [mbind outcome_bind]. intros H. by apply (IH _ (set_phys m mc2)) in H.
Qed.

(** The pages of tables and directories are not mapped by users. *)
Lemma table_unmapped own B mc gv pg a o p : rep own B mc gv -> held (phys mc) B pg a -> own !! a = Some o -> o <> OData -> pget (phys mc) pg = Some p -> pv_empty p = true.
Proof.
  intros R Hh Ho Hn. apply (rep_unmapped own B mc gv pg p R). intros [pm va] pr H. destruct (rp_dom _ _ _ _ R pm va pg pr H) as (_ & _ & _ & Hd).
  destruct (rep_held own B mc gv pg R Hd) as (b & (_ & q & ? & ?) & Hb & _). destruct Hh as (_ & q' & ? & ?). congruence.
Qed.

Lemma links_del mc mc' t pm : links mc t -> page_pvs mc' = page_pvs mc -> fresh mc' = fresh mc -> kept (phys mc) (phys mc') -> pmaps mc' = delete pm (pmaps mc) -> links mc' t.
Proof.
  intros L E1 E2 (_ & _ & K) E3. apply (links_same mc); try done; [lia| |].
  - intros pg p' H. destruct (K pg p' H) as (q & Hq & _ & ?). by exists q.
  - intros pm' P'. rewrite E3, lookup_delete_Some. intros [_ H]. by exists P'.
Qed.

(** What [pmap_delete] does once the lists of mappings are empty *)
Lemma free_map_spec own B mc0 mc gv pm P0 P : rep own B mc0 gv -> pmaps mc0 !! pm = Some P0 -> pm <> pmap_kernel -> tables own B mc -> quiet mc0 mc -> pmaps mc !! pm = Some P ->
  (forall pg p o a, held (phys mc) B pg a -> own !! a = Some o -> o <> OData -> pget (phys mc) pg = Some p -> pv_empty p = true) ->
  exists m l own' B', (mc1 ← free_pages mc (pte_pages P); pg ← some_of (vm_page_find (phys mc1) (MIPS_KSEG0_TO_PHYS (pde P)));
                 m ← vm_page_free (phys mc1) pg; mc2 ← free_asid (set_phys m mc1) (asid P); Ok (del_pmap pm mc2)) = Ok (del_pmap pm (set_asids l (set_phys m mc))) /\
    tables own' B' (del_pmap pm (set_asids l (set_phys m mc))) /\ kept (phys mc) m /\ (forall a, own' !! a = Some OData <-> own !! a = Some OData) /\
    (forall pg a, held (phys mc) B pg a -> own !! a = Some OData -> held m B' pg a).
Proof.
  intros R HP0 Hk T Q HP Hv. pose proof (tables_del own B mc pm T Hk) as Td. assert (pmaps (del_pmap pm mc) !! pm = None) as Hn by apply lookup_delete_eq.
  destruct (tb_pages _ _ _ T pm P HP Hk) as [Hnd Hpg].
  destruct (free_pages_spec pm (pte_pages P) own B (del_pmap pm mc) Td Hn Hnd) as (m1 & own1 & B1 & E1 & T1 & [F1 F2 F3 F4]).
  { intros pg H. destruct (Hpg pg H) as (a & i & Hh & Ho). split; [by exists a, i|]. intros p Hp. by apply (Hv pg p (OTab pm i) a). }
  apply (free_pages_phys _ _ mc) in E1; [|done]. rewrite E1. cbn [mbind outcome_bind]. change (phys (set_phys (phys (set_phys m1 (del_pmap pm mc))) mc)) with m1.
  destruct (tb_dir _ _ _ T pm P HP) as (d & dir & Ed & Hod & _). pose proof (tb_own _ _ _ T d _ Hod) as [Hfd [[pgd Hd]|[Hko _]]]; [|by apply Z.eqb_eq in Hko].
  assert (held m1 B1 pgd d) as Hd1 by (by apply (F4 pgd d (ODir pm))). rewrite Ed, kseg0_phys by (by apply frame_range).
  rewrite <- (Z.add_0_r d), (find_held m1 B1 pgd d 0 (tb_phys _ _ _ T1) Hd1 ltac:(unfold PAGESIZE; lia)). cbn [some_of mbind outcome_bind].
  destruct (free_page_spec own1 B1 (set_phys m1 (del_pmap pm mc)) pm pgd d T1 Hn Hd1) as (m2 & B2 & E2 & T2 & K2 & Hk2); [right; by apply F3| |].
  { intros p' Hp'. destruct F1 as (_ & _ & K). destruct (K pgd p' Hp') as (q & Hq & _ & ->). by apply (Hv pgd q (ODir pm) d). }
  cbn in E2. rewrite E2. cbn [mbind outcome_bind]. unfold free_asid. cbn [asid_used set_phys]. destruct (tb_asid _ _ _ T pm P HP) as (Hx & _).
  destruct (bit_clear_spec (asid_used mc) MAX_ASID (asid P) (tb_bits _ _ _ T) Hx) as (l & -> & Hw & _ & Hl). cbn [mbind outcome_bind].
  exists m2, l, (delete d own1), B2. split; [done|]. assert (forall a, own !! a = Some OData -> a <> d) as Hda by congruence. split_and!.
  - apply (tables_asids _ _ _ l T2 Hw). intros pm' P' H. cbn in H. apply lookup_delete_Some in H as [Hne H]. destruct (tb_asid _ _ _ T pm' P' H) as (? & Hb & _).
    rewrite Hl, Hb, andb_true_r by lia. apply negb_true_iff, Z.eqb_neq. intros E. apply Hne. by apply (tb_asids _ _ _ T pm pm' P P').
  - by apply (kept_trans _ m1).
  - intros a. rewrite lookup_delete_Some. split; [intros [_ H]; by apply F2|]. intros H. split; [symmetry; by apply Hda|]. by apply F3.
  - intros pg a H Ho. apply Hk2; [by apply (F4 pg a OData)|]. intros ->. apply (Hda a Ho). destruct H as (_ & q & ? & ?), Hd as (_ & q' & ? & ?). congruence.
Qed.

Lemma rep_delete own B mc gv pm : rep own B mc gv -> pm ∈ v_pmaps gv -> pm <> pmap_kernel ->
  exists mc' own' B', pmap_delete mc pm = Ok mc' /\ rep own' B' mc' (HView (v_data gv) (v_pmaps gv ∖ {[pm]}) (filter (fun x => x.1.1 <> pm) (v_maps gv))).
Proof.
  intros R Hpm Hk. pose proof R as [R1 R2 R3 R4 R5 R6]. apply R3 in Hpm as [P HP]. unfold pmap_delete, get_pmap. rewrite (proj2 (Z.eqb_neq _ _) Hk), HP. cbn [negb assert some_of mbind outcome_bind].
  destruct (delete_pvs_spec own B pm (pv_list P) Hk mc (v_maps gv) P R1 R6 HP eq_refl) as (mc1 & -> & T1 & Q & L1).
  { intros va pg pr H. destruct (R5 pm va pg pr H) as (_ & _ & Hva & _). split; [done|]. pose proof (R4 pm P va HP Hk Hva) as H'. rewrite H in H'.
    destruct H' as (a & Hh & Hm). exists a. split; [by apply (rep_frame own B mc gv pm va pg pr a R H)|done]. }
  cbn [mbind outcome_bind]. destruct (qt_pmap' _ _ Q pm P HP) as (P1 & HP1 & Ea & Ed). destruct (qt_pmap _ _ Q pm P1 HP1) as (P' & HP' & _ & _ & Ept).
  assert (P' = P) as -> by congruence. rewrite <- Ept, <- Ed, <- Ea.
  destruct (free_map_spec own B mc mc1 gv pm P P1 R HP Hk T1 Q HP1) as (m & l & own' & B' & -> & T2 & K & Ho & Hh).
  { intros pg p o a Hh Ho Hn Hp. rewrite (lk_empty _ _ L1 pg p Hp). destruct (pvs mc1 pg) as [|pv l] eqn:E; [done|]. destruct (lk_page _ _ L1 pg pv) as [pr H]; [rewrite E; by left|].
    apply map_lookup_filter_Some in H as [H _]. destruct (R5 _ _ _ _ H) as (_ & _ & _ & Hd). destruct (rep_held own B mc gv pg R Hd) as (b & Hb & Hob & _).
    apply (quiet_held mc mc1) in Hb; [|done]. destruct Hb as (_ & q & ? & ?), Hh as (_ & q' & ? & ?). congruence. }
  set (mc' := del_pmap pm (set_asids l (set_phys m mc1))) in *. exists mc', own', B'. split; [done|].
  assert (forall pm' P', delete pm (pmaps mc1) !! pm' = Some P' -> pm' <> pm /\ exists P0, pmaps mc !! pm' = Some P0) as Hs.
  { intros pm' P'. rewrite lookup_delete_Some. intros [Hne H]. split; [done|]. destruct (qt_pmap _ _ Q pm' P' H) as (P0 & ? & _). by exists P0. }
  assert (forall pg a, own !! a = Some OData -> held (phys mc) B pg a -> held m B' pg a) as Hh' by (intros pg a H1 H2; apply Hh; [by apply (quiet_held mc)|done]).
  split; cbn [v_data v_pmaps v_maps]; try done.
  - intros pg d. rewrite R2. apply same_data; try done. intros a _. cbn. by rewrite (qt_ram _ _ Q).
  - intros pm'. rewrite elem_of_difference, elem_of_singleton, R3. cbn. split.
    + intros [[P0 H] Hne]. destruct (qt_pmap' _ _ Q pm' P0 H) as (P2 & H2 & _). rewrite lookup_delete_ne by done. by exists P2.
    + intros [P2 H]. apply Hs in H as [Hne [P0 H]]. split; [by exists P0|done].
  - intros pm' P2 va H Hk' Hva. pose proof H as [Hne [P0 H0]]%Hs. cbn in H. rewrite lookup_delete_ne in H by done. pose proof (R4 pm' P0 va H0 Hk' Hva) as Hm.
    assert (mapped mc' pm' va = mapped mc pm' va) as ->. { rewrite <- (quiet_mapped mc mc1 pm' P0 va Q H0). apply mapped_eq; [done|]. cbn. by rewrite lookup_delete_ne. }
    rewrite map_lookup_filter. destruct (v_maps gv !! (pm', va)) as [[pg pr]|] eqn:E; [|done]. cbn. rewrite option_guard_True by done. destruct Hm as (a & Hha & Hma). exists a. split; [|done].
    apply Hh'; [|done]. destruct (R5 pm' va pg pr E) as (_ & _ & _ & Hd). destruct (rep_held own B mc gv pg R Hd) as (b & (_ & q & ? & ?) & Hob & _). destruct Hha as (_ & q' & ? & ?). congruence.
  - intros pm' va pg pr. rewrite map_lookup_filter_Some. cbn [fst]. intros [H Hne]. destruct (R5 _ _ _ _ H) as (? & [P0 HP0] & ? & ?). split; [done|]. split; [|done].
    destruct (qt_pmap' _ _ Q pm' P0 HP0) as (P2 & HP2 & _). exists P2. cbn. by rewrite lookup_delete_ne.
  - by apply (links_del mc1 _ _ pm).
Qed.

(** ** The instance *)

(** A machine with the abstract state it stands for, which the operations carry along. *)
Definition mips_hw : Type := machine * hview.

Definition mips_ok (h : mips_hw) : Prop := exists own B, rep own B h.1 h.2.

Definition hw_alloc (h : mips_hw) : outcome (option Z * mips_hw) :=
  '(pg, m) ← vm_page_alloc (phys h.1) 1;
  match pg with
  | None => Ok (None, h)
  | Some pg =>
      p ← get_page (set_phys m h.1) pg;
      Ok (Some pg, (set_phys m h.1, set_data (<[pg := default [] (ram h.1 !! paddr p)]> (v_data h.2)) h.2))
  end.

Definition hw_free (h : mips_hw) pg : outcome mips_hw :=
  m ← vm_page_free (phys h.1) pg;
  Ok (set_phys m h.1, set_data (delete pg (v_data h.2)) h.2).

Definition hw_zero (h : mips_hw) pg : outcome mips_hw :=
  mc ← pmap_zero_page h.1 pg;
  Ok (mc, set_data (<[pg := zero_page]> (v_data h.2)) h.2).

Definition hw_copy (h : mips_hw) (src dst : Z) : outcome mips_hw :=
  mc ← pmap_copy_page h.1 src dst;
  Ok (mc, set_data (<[dst := default [] (v_data h.2 !! src)]> (v_data h.2)) h.2).

Definition hw_enter (h : mips_hw) pm va pg (pr : Z) : outcome mips_hw :=
  mc ← pmap_enter h.1 pm va pg pr 0;
  Ok (mc, set_maps (<[(pm, va) := (pg, pr)]> (v_maps h.2)) h.2).

Definition hw_remove (h : mips_hw) pm (s e : Z) : outcome mips_hw :=
  mc ← pmap_remove h.1 pm s e;
  Ok (mc, set_maps (unmap pm s e (v_maps h.2)) h.2).

Definition hw_new (h : mips_hw) : outcome (Z * mips_hw) :=
  '(pm, mc) ← pmap_new h.1;
  Ok (pm, (mc, HView (v_data h.2) ({[pm]} ∪ v_pmaps h.2) (v_maps h.2))).

Definition hw_delete (h : mips_hw) pm : outcome mips_hw :=
  mc ← pmap_delete h.1 pm;
  Ok (mc, HView (v_data h.2) (v_pmaps h.2 ∖ {[pm]}) (filter (fun x => x.1.1 <> pm) (v_maps h.2))).

Lemma space_user va : page_aligned_p va = true -> USER_SPACE_BEGIN <= va < USER_SPACE_END -> user_va va.
Proof. intros H1 H2. split; [done|]. cbn in H2. unfold PMAP_USER_BEGIN, PMAP_USER_END. lia. Qed.

#[export] Instance mips_machine : @VmHw mips.
Proof.
  refine {| hw := mips_hw; hw_ok := mips_ok; view := snd; Machine.vm_page_alloc1 := hw_alloc; Machine.vm_page_free := hw_free; Machine.pmap_zero_page := hw_zero;
            Machine.pmap_copy_page := hw_copy; Machine.pmap_enter := hw_enter; Machine.pmap_remove := hw_remove; Machine.pmap_new := hw_new; Machine.pmap_delete := hw_delete |}.
  - intros [mc gv] (own & B & R). unfold hw_alloc. cbn [fst snd] in *. destruct (rep_alloc own B mc gv R) as [-> |(pg & m & own' & B' & d & -> & Hn & R' & Hd)]; [by left|right].
    cbn [mbind outcome_bind]. assert (is_Some (v_data (set_data (<[pg := d]> (v_data gv)) gv) !! pg)) as Hs by (cbn; rewrite lookup_insert_eq; by eexists).
    destruct (rep_held own' B' (set_phys m mc) _ pg R' Hs) as (a & Hh & _). destruct (get_page_held (set_phys m mc) B' pg a Hh) as (p & -> & Hp & _).
    cbn [mbind outcome_bind]. rewrite (Hd p Hp). eexists pg, _, d. split; [done|]. split; [by exists own', B'|done].
  - intros [mc gv] pg (own & B & R) Hpg Hno. cbn [fst snd] in *. destruct (rep_free own B mc gv pg R Hpg Hno) as (m & own' & B' & E & R'). unfold hw_free. cbn [fst snd].
    rewrite E. eexists. split; [done|]. split; [by exists own', B'|done].
  - intros [mc gv] pg (own & B & R) Hpg. cbn [fst snd] in *. destruct (rep_zero own B mc gv pg R Hpg) as (mc' & E & R'). unfold hw_zero. cbn [fst snd]. rewrite E.
    eexists. split; [done|]. split; [by exists own, B|done].
  - intros [mc gv] src dst d (own & B & R) Hs Hd. cbn [fst snd] in *. destruct (rep_copy own B mc gv src dst d R Hs Hd) as (mc' & E & R'). unfold hw_copy. cbn [fst snd]. rewrite E, Hs.
    eexists. split; [done|]. split; [by exists own, B|done].
  - intros [mc gv] pm va pg pr (own & B & R) Hpm Hk Hal Hva Hpg Hpr Hs. cbn [fst snd] in *. unfold hw_enter. cbn [fst snd].
    destruct (rep_enter own B mc gv pm va pg pr 0 R Hpm Hk (space_user va Hal Hva) Hpg Hpr Hs) as [-> |(mc' & own' & B' & -> & R')]; [by left; left|right].
    eexists. split; [done|]. split; [by exists own', B'|done].
  - intros [mc gv] pm s e (own & B & R) Hpm Hk Hs He Hlt H1 H2. cbn [fst snd] in *. unfold hw_remove. cbn [fst snd]. cbn in H1, H2.
    destruct (rep_remove own B mc gv pm s e R Hpm Hk Hs He Hlt) as (mc' & own' & B' & -> & R'); [unfold PMAP_USER_BEGIN; lia|unfold PMAP_USER_END; lia|].
    eexists. split; [done|]. split; [by exists own', B'|done].
  - intros [mc gv] (own & B & R). cbn [fst snd] in *. unfold hw_new. cbn [fst snd]. destruct (rep_new own B mc gv R) as [[-> | ->]|(pm & mc' & own' & B' & -> & Hk & Hn & Hm & R')]; [by left; left|by left; right|right].
    eexists pm, _. split; [done|]. split; [by exists own', B'|done].
  - intros [mc gv] pm (own & B & R) Hpm Hk. cbn [fst snd] in *. destruct (rep_delete own B mc gv pm R Hpm Hk) as (mc' & own' & B' & E & R'). unfold hw_delete. cbn [fst snd]. rewrite E.
    eexists. split; [done|]. split; [by exists own', B'|done].
Defined.

(** ** Referenced and modified pages *)

(** What [pmap_modify_flags] does to the word of a mapping *)
Definition new_bits (set clr w : Z) : Z := flag_clr (Z.lor w set) clr.

Lemma new_bits_high set clr w k : 0 <= set < 8 -> 0 <= clr < 8 -> 3 <= k -> Z.testbit (new_bits set clr w) k = Z.testbit w k.
Proof.
  intros Hs Hc Hk. assert (forall x, 0 <= x < 8 -> Z.testbit x k = false) as Hx.
  { intros x Hx. rewrite <- (Z.mod_small x (2 ^ 3)) by lia. by apply Z.mod_pow2_bits_high. }
  unfold new_bits, flag_clr. rewrite Z.land_spec, Z.lnot_spec, Z.lor_spec, (Hx set), (Hx clr), orb_false_r by lia. apply andb_true_r.
Qed.

Lemma new_bits_twice set clr w : new_bits set clr (new_bits set clr w) = new_bits set clr w.
Proof.
  unfold new_bits, flag_clr. apply Z.bits_inj_iff'. intros k Hk. rewrite !Z.land_spec, !Z.lnot_spec, !Z.lor_spec, !Z.land_spec, !Z.lnot_spec, !Z.lor_spec by done.
  by destruct (Z.testbit w k), (Z.testbit set k), (Z.testbit clr k).
Qed.

Lemma entry_bits set clr w a pr : 0 <= set < 8 -> 0 <= clr < 8 -> a <> 0 -> entry w = Some (a, pr) -> entry (new_bits set clr w) = Some (a, pr).
Proof.
  intros Hs Hc Ha. assert (forall k, 3 <= k -> flag_on (new_bits set clr w) (2 ^ k) = flag_on w (2 ^ k)) as Hb.
  { intros k Hk. rewrite !flag_on_bit by lia. by apply new_bits_high. }
  assert (PTE_FRAME_ADDR (new_bits set clr w) = PTE_FRAME_ADDR w) as Ef.
  { unfold PTE_FRAME_ADDR, PTE_PFN_OF. do 2 f_equal. apply Z.bits_inj_iff'. intros k Hk. rewrite !Z.land_spec. destruct (decide (3 <= k)); [by rewrite new_bits_high|].
    assert (k = 0 \/ k = 1 \/ k = 2) as [-> |[-> | ->]] by lia; change (Z.testbit PTE_PFN_MASK _) with false; by rewrite !andb_false_r. }
  assert (pte_prot (new_bits set clr w) = pte_prot w) as Ep by (unfold pte_prot, PTE_SW_READ, PTE_SW_WRITE, PTE_SW_NOEXEC; by rewrite !Hb by lia).
  unfold entry. rewrite Ef, Ep. destruct ((PTE_FRAME_ADDR w =? 0) && _); [done|]. intros [= -> <-]. by rewrite (proj2 (Z.eqb_neq _ _) Ha).
Qed.

Lemma word_set_ram mc a i w mc' : word_set mc a i w = Ok mc' -> exists r, mc' = set_ram r mc.
Proof. unfold word_set. intros H. outcome_inv. by eexists. Qed.

Definition at_pv pm va (pv : pv_entry) : Prop := pv_pmap pv = pm /\ pv_va pv = va.
#[local] Instance at_pv_dec pm va pv : Decision (at_pv pm va pv).
Proof. unfold at_pv. apply _. Defined.

Lemma mapped_read mc pm va x : mapped mc pm va = Some x -> exists w, pmap_pte_read mc pm va = Ok w /\ entry w = Some x.
Proof. unfold mapped. destruct (pmap_pte_read mc pm va) as [w|]; [|done]. by exists w. Qed.

Lemma entry_some w a pr : entry w = Some (a, pr) -> PTE_FRAME_ADDR w = a /\ pte_prot w = pr.
Proof. unfold entry. destruct (_ && _); naive_solver. Qed.

Lemma mapped_walk own B mc pm P va x : tables own B mc -> pmaps mc !! pm = Some P -> page_va va -> mapped mc pm va = Some x ->
  exists d dir w y, walk own mc pm P va d dir w /\ is_valid_pde w = true /\ PTE_OF mc w va = Ok y /\ pmap_pte_read mc pm va = Ok y /\ entry y = Some x.
Proof.
  intros T HP Hva Hm. destruct (mapped_read mc pm va x Hm) as (y & E & Ey). destruct (walk_ok own B mc pm P va T HP (proj1 Hva)) as (d & dir & w & W).
  exists d, dir, w, y. split; [done|]. pose proof E as E'. rewrite (read_walk own mc pm P va d dir w HP W) in E'. destruct (is_valid_pde w); [done|]. injection E' as <-. done.
Qed.

Lemma modify_flags_spec own B set clr (l : list pv_entry) : 0 <= set < 8 -> 0 <= clr < 8 -> forall mc, tables own B mc ->
  (forall pv, pv ∈ l -> page_va (pv_va pv) /\ is_Some (pmaps mc !! pv_pmap pv) /\ exists a pr, a <> 0 /\ mapped mc (pv_pmap pv) (pv_va pv) = Some (a, pr)) ->
  exists r, modify_flags mc l set clr = Ok (set_ram r mc) /\ tables own B (set_ram r mc) /\ (forall a, own !! a = Some OData -> r !! a = ram mc !! a) /\
    forall pm P va, pmaps mc !! pm = Some P -> page_va va -> pmap_pte_read (set_ram r mc) pm va =
      if decide (Exists (at_pv pm va) l) then w ← pmap_pte_read mc pm va; Ok (new_bits set clr w) else pmap_pte_read mc pm va.
Proof.
  intros Hs Hc. induction l as [|pv l IH]; intros mc T Hl; cbn [modify_flags].
  - exists (ram mc). assert (set_ram (ram mc) mc = mc) as -> by (by destruct mc). done.
  - destruct (Hl pv ltac:(by left)) as (Hva & [P HP] & ax & prx & Ha & Hx). destruct (mapped_walk own B mc _ P _ _ T HP Hva Hx) as (d & dir & w & y & W & Hw & Ey & Er & En).
    unfold get_pmap. rewrite HP. cbn [some_of mbind outcome_bind]. rewrite (wk_get _ _ _ _ _ _ _ _ W). cbn [mbind outcome_bind]. rewrite Hw. cbn [assert mbind outcome_bind]. rewrite Ey. cbn [mbind outcome_bind].
    fold (new_bits set clr y). destruct (pte_set_spec own B mc _ P _ d dir w (new_bits set clr y) T HP Hva W Hw) as (mc1 & E1 & T1 & X & _ & M). rewrite E1. cbn [mbind outcome_bind].
    destruct (word_set_ram _ _ _ _ _ E1) as [r1 ->]. assert (forall pm P va, pmaps mc !! pm = Some P -> page_va va -> mapped (set_ram r1 mc) pm va = mapped mc pm va) as Hsame.
    { intros pm' P' va' HP' Hva'. unfold mapped. rewrite (M pm' P' va' HP' Hva'). case_decide as Hd; [|done]. destruct Hd as [-> ->]. rewrite Er, En. by apply entry_bits. }
    destruct (IH (set_ram r1 mc) T1) as (r & E & T2 & D & M2).
    { intros pv' Hpv'. destruct (Hl pv' ltac:(by right)) as (? & [P' HP'] & ?). do 2 (split; [done || by exists P'|]). by rewrite (Hsame _ P'). }
    change (set_ram r (set_ram r1 mc)) with (set_ram r mc) in *. exists r. rewrite E. split; [done|]. split; [done|]. split.
    + intros b Hb. rewrite (D b Hb). by apply (ex_ram _ _ _ _ _ _ _ X).
    + intros pm' P' va' HP' Hva'. rewrite (M2 pm' P' va' HP' Hva'), (M pm' P' va' HP' Hva').
      destruct (decide (pm' = pv_pmap pv /\ va' = pv_va pv)) as [[-> ->]|Hne].
      * rewrite (decide_True (P := Exists _ (pv :: l))) by (by left). rewrite Er. cbn [mbind outcome_bind]. case_decide; [by rewrite new_bits_twice|done].
      * destruct (decide (Exists (at_pv pm' va') l)) as [He|He]; [rewrite decide_True by (by right); done|]. rewrite decide_False; [done|]. intros [[E2 E3]|H]%Exists_cons; [by apply Hne|done].
Qed.

(** The words of all mappings of a page get the bits; what is mapped stays. *)
Lemma rep_modify own B mc gv pg set clr : 0 <= set < 8 -> 0 <= clr < 8 -> rep own B mc gv ->
  exists r, pmap_modify_flags mc pg set clr = Ok (set_ram r mc) /\ rep own B (set_ram r mc) gv /\
    forall pm P va, pmaps mc !! pm = Some P -> pm <> pmap_kernel -> user_va va ->
      match v_maps gv !! (pm, va) with
      | Some (pg', _) => pmap_pte_read (set_ram r mc) pm va = if decide (pg' = pg) then w ← pmap_pte_read mc pm va; Ok (new_bits set clr w) else pmap_pte_read mc pm va
      | None => pmap_pte_read (set_ram r mc) pm va = pmap_pte_read mc pm va
      end.
Proof.
  intros Hs Hc R. pose proof R as [R1 R2 R3 R4 R5 R6]. unfold pmap_modify_flags.
  destruct (modify_flags_spec own B set clr (pvs mc pg) Hs Hc mc R1) as (r & E & T & D & M).
  { intros pv Hpv. destruct (lk_page _ _ R6 pg pv Hpv) as [pr H]. destruct (R5 _ _ _ _ H) as (Hk & [P HP] & Hva & _). split; [by apply user_page|]. split; [by exists P|].
    pose proof (R4 _ P _ HP Hk Hva) as Hm. rewrite H in Hm. destruct Hm as (a & Hh & ->). exists a, pr. split; [|done]. by apply Z.eqb_neq, (rep_frame own B mc gv _ _ _ _ _ R H). }
  assert (forall pm va, Exists (at_pv pm va) (pvs mc pg) <-> exists pr, v_maps gv !! (pm, va) = Some (pg, pr)) as Hex.
  { intros pm va. rewrite Exists_exists. split; [intros (pv & Hpv & <- & <-); by apply (lk_page _ _ R6)|]. intros [pr H]. destruct (lk_has _ _ R6 _ _ _ _ H) as (pv & ? & ?). by exists pv. }
  exists r. split; [done|]. split.
  - rewrite <- (set_maps_id gv). apply (rep_follows own B mc); try done.
    + apply (links_same mc); cbn; try done; try lia; eauto.
    + intros pm P va HP Hk Hva. assert (mapped (set_ram r mc) pm va = mapped mc pm va) as ->; [|by apply (R4 pm P)].
      pose proof (R4 pm P va HP Hk Hva) as Hm. unfold mapped at 1. rewrite (M pm P va HP (user_page va Hva)). case_decide as Hd; [|done]. apply Hex in Hd as [pr H]. rewrite H in Hm. destruct Hm as (a & Hh & Hm).
      rewrite Hm. destruct (mapped_read mc pm va _ Hm) as (w & -> & En). apply (entry_bits _ _ _ a pr); try done. by apply Z.eqb_neq, (rep_frame own B mc gv _ _ _ _ _ R H).
  - intros pm P va HP Hk Hva. rewrite (M pm P va HP (user_page va Hva)). destruct (v_maps gv !! (pm, va)) as [[pg' pr]|] eqn:E'.
    + destruct (decide (pg' = pg)) as [->|Hne]; [rewrite decide_True by (apply Hex; by exists pr); done|]. rewrite decide_False; [done|]. rewrite Hex. intros [pr' H]. congruence.
    + rewrite decide_False; [done|]. rewrite Hex. intros [pr' H]. congruence.
Qed.

Lemma page_user va : PMAP_USER_BEGIN <= va < PMAP_USER_END -> user_va (page_of va).
Proof.
  intros H. destruct (page_of_spec va) as [H1 H2]. split; [done|]. rewrite H2. unfold PMAP_USER_BEGIN, PMAP_USER_END in *.
  pose proof (Z.div_mod va (2 ^ 12) ltac:(lia)). pose proof (Z.mod_pos_bound va (2 ^ 12) ltac:(lia)). lia.
Qed.

Lemma lor_offset a va : page_aligned_p a = true -> Z.lor a (PAGE_OFFSET va) = a + va `mod` PAGESIZE.
Proof.
  intros H. rewrite page_offset. rewrite (aligned_div a H). change PAGESIZE with (2 ^ 12). apply lor_low; [lia|]. apply Z.mod_pos_bound. lia.
Qed.

Lemma quiet_read mc mc' pm P va : quiet mc mc' -> pmaps mc !! pm = Some P -> pmap_pte_read mc' pm va = pmap_pte_read mc pm va.
Proof.
  intros Q HP. destruct (qt_pmap' _ _ Q pm P HP) as (P' & HP' & _ & E). unfold pmap_pte_read, get_pmap, PDE_OF, PTE_OF, word_get.
  by rewrite HP, HP', (qt_ram _ _ Q); cbn [some_of mbind outcome_bind]; rewrite E.
Qed.

(** The word of an address, whose page gets bits *)
Definition marked gv pg set clr pm va (w : Z) : Z :=
  match v_maps gv !! (pm, va) with Some (pg', _) => if decide (pg' = pg) then new_bits set clr w else w | None => w end.

(** A page and all its mappings get bits. *)
Lemma rep_mark own B mc gv pg a f set clr : rep own B mc gv -> held (phys mc) B pg a -> mild_flags f -> 0 <= set < 8 -> 0 <= clr < 8 ->
  exists mc', (mc1 ← set_pg_flags mc pg f; pmap_modify_flags mc1 pg set clr) = Ok mc' /\ rep own B mc' gv /\ held (phys mc') B pg a /\
    pvs mc' pg = pvs mc pg /\
    (forall pm P va w, pmaps mc !! pm = Some P -> pm <> pmap_kernel -> user_va va -> pmap_pte_read mc pm va = Ok w -> pmap_pte_read mc' pm va = Ok (marked gv pg set clr pm va w)) /\
    (forall p, pget (phys mc) pg = Some p -> pget (phys mc') pg = Some (set_flags (f (flags p)) p)).
Proof.
  intros R Hh Hf Hs Hc. pose proof R as [R1 R2 R3 R4 R5 R6]. destruct (set_flags_spec own B mc pg a f (v_maps gv) R1 Hh Hf R6) as (mc1 & -> & T1 & Q & L1 & EP & Ev & Hp).
  cbn [mbind outcome_bind]. assert (rep own B mc1 gv) as Ra.
  { rewrite <- (set_maps_id gv). apply (rep_follows own B mc); try done; [by apply quiet_follows|]. intros pm P va HP Hk Hva. rewrite (quiet_mapped mc mc1 pm P) by done. by apply (R4 pm P). }
  destruct (rep_modify own B mc1 gv pg set clr Hs Hc Ra) as (r & -> & Rb & M). eexists. split; [done|]. split; [done|]. split; [by apply (quiet_held mc mc1)|].
  split; [unfold pvs; cbn; by rewrite Ev|]. split.
  - intros pm P va w HP Hk Hva Ew. pose proof (M pm P va) as HM. rewrite EP in HM. specialize (HM HP Hk Hva).
    rewrite (quiet_read mc mc1 pm P va Q HP), Ew in HM. unfold marked. destruct (v_maps gv !! (pm, va)) as [[pg' pr]|]; [|done]. rewrite HM. by case_decide.
  - intros p H. cbn. by rewrite (Hp pg p H), decide_True.
Qed.

(** Hardware lets an access pass if the word of the page is valid and, for a store, dirty. *)
Definition tlb_access mc pm va (write : bool) : option Z :=
  match pmap_pte_read mc pm va with
  | Ok w => if flag_on w PTE_VALID && (negb write || flag_on w PTE_DIRTY) then Some (Z.lor (PTE_FRAME_ADDR w) (PAGE_OFFSET va)) else None
  | Fault _ => None
  end.

(** The protection of the mapping does not allow an access. *)
Definition refused (pr access : Z) : bool :=
  (flag_on access VM_PROT_READ && negb (flag_on pr VM_PROT_READ)) || (flag_on access VM_PROT_WRITE && negb (flag_on pr VM_PROT_WRITE)) ||
  (flag_on access VM_PROT_EXEC && negb (flag_on pr VM_PROT_EXEC)).

Lemma pte_prot_flags w : flag_on (pte_prot w) VM_PROT_READ = flag_on w PTE_SW_READ /\ flag_on (pte_prot w) VM_PROT_WRITE = flag_on w PTE_SW_WRITE /\
  flag_on (pte_prot w) VM_PROT_EXEC = negb (flag_on w PTE_SW_NOEXEC).
Proof. unfold pte_prot. by destruct (flag_on w PTE_SW_READ), (flag_on w PTE_SW_WRITE), (flag_on w PTE_SW_NOEXEC). Qed.

(** The bits that an access sets in the words of a page *)
Definition access_bits (write : bool) : Z := if write then Z.lor PTE_VALID PTE_DIRTY else PTE_VALID.

Lemma marked_twice gv pg pm va w : marked gv pg PTE_DIRTY 0 pm va (marked gv pg PTE_VALID 0 pm va w) = marked gv pg (access_bits true) 0 pm va w.
Proof. unfold marked. destruct (v_maps gv !! (pm, va)) as [[pg' pr]|]; [|done]. case_decide; [|done]. unfold new_bits, flag_clr, access_bits. by rewrite !Z.land_m1_r, Z.lor_assoc. Qed.

(** The words of all user memory after an access to a page *)
Definition words_marked mc gv pg (write : bool) mc' : Prop :=
  forall pm P va w, pmaps mc !! pm = Some P -> pm <> pmap_kernel -> user_va va -> pmap_pte_read mc pm va = Ok w -> pmap_pte_read mc' pm va = Ok (marked gv pg (access_bits write) 0 pm va w).

Lemma emulate_marks own B mc gv pg a write : rep own B mc gv -> held (phys mc) B pg a ->
  exists mc' p, (mc1 ← pmap_set_referenced mc pg; mc2 ← (if write : bool then pmap_set_modified mc1 pg else Ok mc1); Ok (0, mc2)) = Ok (0, mc') /\ rep own B mc' gv /\
    held (phys mc') B pg a /\ words_marked mc gv pg write mc' /\
    pget (phys mc') pg = Some p /\ flag_on (flags p) PG_REFERENCED = true /\ (write = true -> flag_on (flags p) PG_MODIFIED = true).
Proof.
  intros R Hh. pose proof Hh as (_ & p & Hp & _).
  destruct (rep_mark own B mc gv pg a (fun f => flag_set f PG_REFERENCED) PTE_VALID 0 R Hh (mild_set PG_REFERENCED eq_refl) ltac:(done) ltac:(done)) as (mc1 & E1 & R1 & H1 & _ & M1 & F1).
  unfold pmap_set_referenced. rewrite E1. cbn [mbind outcome_bind]. specialize (F1 p Hp).
  assert (flag_on (flag_set (flags p) PG_REFERENCED) PG_REFERENCED = true) as Hr by (apply (flag_set_eq 2); lia). destruct write; cbn [mbind outcome_bind].
  - destruct (rep_mark own B mc1 gv pg a (fun f => flag_set f PG_MODIFIED) PTE_DIRTY 0 R1 H1 (mild_set PG_MODIFIED eq_refl) ltac:(done) ltac:(done)) as (mc2 & E2 & R2 & H2 & _ & M2 & F2).
    unfold pmap_set_modified. rewrite E2. cbn [mbind outcome_bind].
    eexists mc2, _. split; [done|]. split; [done|]. split; [done|]. split; [|split; [by apply F2|]].
    + intros pm P va w HP Hk Hva Ew. assert (exists P1, pmaps mc1 !! pm = Some P1) as [P1 HP1] by (apply (rp_pmaps _ _ _ _ R1), (rp_pmaps _ _ _ _ R); by exists P).
      rewrite <- marked_twice. apply (M2 pm P1); try done. by apply (M1 pm P).
    + split; [|intros _; apply (flag_set_eq 3); lia]. cbn [flags set_flags]. by rewrite (flag_set_ne 2 3) by lia.
  - eexists mc1, _. split; [done|]. split; [done|]. split; [done|]. split; [exact M1|]. split; [by apply F1|done].
Qed.

Lemma access_bits_on write w : flag_on (new_bits (access_bits write) 0 w) PTE_VALID = true /\ (write = true -> flag_on (new_bits (access_bits write) 0 w) PTE_DIRTY = true).
Proof.
  split; [|intros ->]; [change PTE_VALID with (2 ^ 1)|change PTE_DIRTY with (2 ^ 2)]; rewrite flag_on_bit by lia; unfold new_bits, flag_clr;
    rewrite Z.land_m1_r, Z.lor_spec; [destruct write|]; apply orb_true_r.
Qed.

Lemma rep_emulate own B mc gv pm P va access : rep own B mc gv -> pmaps mc !! pm = Some P -> pm <> pmap_kernel -> PMAP_USER_BEGIN <= va < PMAP_USER_END ->
  match v_maps gv !! (pm, page_of va) with
  | None => pmap_emulate_bits mc pm va access = Ok (EFAULT, mc)
  | Some (pg, pr) =>
      if refused pr access then pmap_emulate_bits mc pm va access = Ok (EACCES, mc)
      else exists mc' a p, pmap_emulate_bits mc pm va access = Ok (0, mc') /\ rep own B mc' gv /\ held (phys mc') B pg a /\
        tlb_access mc' pm va (flag_on access VM_PROT_WRITE) = Some (a + va `mod` PAGESIZE) /\ words_marked mc gv pg (flag_on access VM_PROT_WRITE) mc' /\
        pget (phys mc') pg = Some p /\ flag_on (flags p) PG_REFERENCED = true /\ (flag_on access VM_PROT_WRITE = true -> flag_on (flags p) PG_MODIFIED = true)
  end.
Proof.
  intros R HP Hk Hva. pose proof R as [R1 R2 R3 R4 R5 R6]. pose proof (page_user va Hva) as Hpu. assert (word_va va) as Hw by (unfold word_va, PMAP_USER_BEGIN, PMAP_USER_END in *; lia).
  unfold pmap_emulate_bits. rewrite (extract_user own B mc pm P va R1 HP Hk Hva). cbn [mbind outcome_bind]. pose proof (R4 pm P _ HP Hk Hpu) as Hm.
  destruct (v_maps gv !! (pm, page_of va)) as [[pg pr]|] eqn:E; [|by rewrite Hm]. destruct Hm as (a & Hh & Hm). rewrite Hm. destruct (mapped_read mc pm _ _ Hm) as (w & Ew & En).
  destruct (rep_frame own B mc gv _ _ _ _ _ R E Hh) as [[Hal _] Ha0]. rewrite Ha0.
  rewrite <- (pte_read_page mc pm va Hw), Ew. cbn [mbind outcome_bind]. assert (PTE_FRAME_ADDR w = a /\ pte_prot w = pr) as [Ea Epr] by (by apply entry_some).
  destruct (pte_prot_flags w) as (P1 & P2 & P3). rewrite Epr in P1, P2, P3. unfold refused. rewrite P1, P2, P3, negb_involutive.
  destruct (flag_on access VM_PROT_READ && negb (flag_on w PTE_SW_READ)); [done|]. destruct (flag_on access VM_PROT_WRITE && negb (flag_on w PTE_SW_WRITE)); [done|].
  destruct (flag_on access VM_PROT_EXEC && flag_on w PTE_SW_NOEXEC); [done|]. cbn [orb].
  pose proof (Z.mod_pos_bound va PAGESIZE ltac:(done)) as Hmod. rewrite lor_offset, (find_held _ B pg a _ (tb_phys _ _ _ R1) Hh Hmod) by done.
  assert (pvs mc pg <> []) as Hne. { destruct (lk_has _ _ R6 _ _ _ _ E) as (pv & Hpv & _). intros Hn. rewrite Hn in Hpv. by apply not_elem_of_nil in Hpv. }
  destruct (pvs mc pg) as [|pv0 l0]; [done|]. destruct (emulate_marks own B mc gv pg a (flag_on access VM_PROT_WRITE) R Hh) as (mc' & p & -> & R' & Hh' & M & Hp & F).
  exists mc', a, p. split; [done|]. do 2 (split; [done|]). split; [|done].
  pose proof (M pm P _ w HP Hk Hpu Ew) as Ew'. unfold marked in Ew'. rewrite E, decide_True in Ew' by done. destruct (access_bits_on (flag_on access VM_PROT_WRITE) w) as [V1 V2].
  unfold tlb_access. rewrite <- (pte_read_page mc' pm va Hw), Ew', V1.
  assert (negb (flag_on access VM_PROT_WRITE) || flag_on (new_bits (access_bits (flag_on access VM_PROT_WRITE)) 0 w) PTE_DIRTY = true) as -> by (destruct (flag_on access VM_PROT_WRITE); [by rewrite V2|done]).
  cbn [andb]. f_equal. rewrite <- (lor_offset a) by done. f_equal. eapply entry_some, (entry_bits _ _ _ a pr); [by destruct (flag_on access VM_PROT_WRITE)|done|by apply Z.eqb_neq|done].
Qed.

(** ** Clients *)

(** The calls of the rest of the kernel, whose arguments may depend on earlier results *)
Inductive pmap_call :=
  | CAlloc
  | CFree (pg : Z)
  | CZero (pg : Z)
  | CCopy (src dst : Z)
  | CEnter (pm va pg pr cflags : Z)
  | CRemove (pm s e : Z)
  | CPageRemove (pg : Z)
  | CClearReferenced (pg : Z)
  | CClearModified (pg : Z)
  | CEmulate (pm va access : Z)
  | CNew
  | CDelete (pm : Z).

Definition no_result (r : outcome machine) : outcome (option Z * machine) := mc ← r; Ok (None, mc).

Definition do_call mc (c : pmap_call) : outcome (option Z * machine) :=
  match c with
  | CAlloc => '(pg, m) ← vm_page_alloc (phys mc) 1; Ok (pg, set_phys m mc)
  | CFree pg => m ← vm_page_free (phys mc) pg; Ok (None, set_phys m mc)
  | CZero pg => no_result (pmap_zero_page mc pg)
  | CCopy src dst => no_result (pmap_copy_page mc src dst)
  | CEnter pm va pg pr cflags => no_result (pmap_enter mc pm va pg pr cflags)
  | CRemove pm s e => no_result (pmap_remove mc pm s e)
  | CPageRemove pg => no_result (pmap_page_remove mc pg)
  | CClearReferenced pg => '(b, mc) ← pmap_clear_referenced mc pg; Ok (Some (Z.b2z b), mc)
  | CClearModified pg => '(b, mc) ← pmap_clear_modified mc pg; Ok (Some (Z.b2z b), mc)
  | CEmulate pm va access => '(err, mc) ← pmap_emulate_bits mc pm va access; Ok (Some err, mc)
  | CNew => '(pm, mc) ← pmap_new mc; Ok (Some pm, mc)
  | CDelete pm => no_result (pmap_delete mc pm)
  end.

Definition user_pmap (gv : hview) pm : Prop := pm ∈ v_pmaps gv /\ pm <> pmap_kernel.
Definition has_page (gv : hview) pg : Prop := is_Some (v_data gv !! pg).

(** What a caller has to see to *)
Definition allowed (gv : hview) (c : pmap_call) : Prop :=
  match c with
  | CAlloc | CNew => True
  | CFree pg => has_page gv pg /\ forall k pr, v_maps gv !! k <> Some (pg, pr)
  | CZero pg | CPageRemove pg | CClearReferenced pg | CClearModified pg => has_page gv pg
  | CCopy src dst => has_page gv src /\ has_page gv dst
  | CEnter pm va pg pr _ => user_pmap gv pm /\ user_va va /\ has_page gv pg /\ 0 <= pr <= 7 /\ forall x, v_maps gv !! (pm, va) = Some x -> x.1 = pg
  | CRemove pm s e => user_pmap gv pm /\ page_aligned_p s = true /\ page_aligned_p e = true /\ s < e /\ PMAP_USER_BEGIN <= s /\ e <= PMAP_USER_END
  | CEmulate pm va _ => user_pmap gv pm /\ PMAP_USER_BEGIN <= va < PMAP_USER_END
  | CDelete pm => user_pmap gv pm
  end.

(** What a call answers and does, in terms of pages and mappings *)
Definition emulate_result (gv : hview) pm va (access : Z) : Z :=
  match v_maps gv !! (pm, page_of va) with
  | None => EFAULT
  | Some (_, pr) => if refused pr access then EACCES else 0
  end.

Inductive effect (gv : hview) : pmap_call -> option Z -> hview -> Prop :=
  | eff_none : effect gv CAlloc None gv
  | eff_alloc pg d : v_data gv !! pg = None -> effect gv CAlloc (Some pg) (set_data (<[pg := d]> (v_data gv)) gv)
  | eff_free pg : effect gv (CFree pg) None (set_data (delete pg (v_data gv)) gv)
  | eff_zero pg : effect gv (CZero pg) None (set_data (<[pg := zero_page]> (v_data gv)) gv)
  | eff_copy src dst d : v_data gv !! src = Some d -> effect gv (CCopy src dst) None (set_data (<[dst := d]> (v_data gv)) gv)
  | eff_enter pm va pg pr cflags : effect gv (CEnter pm va pg pr cflags) None (set_maps (<[(pm, va) := (pg, pr)]> (v_maps gv)) gv)
  | eff_remove pm s e : effect gv (CRemove pm s e) None (set_maps (unmap pm s e (v_maps gv)) gv)
  | eff_page_remove pg : effect gv (CPageRemove pg) None (set_maps (filter (fun x => x.2.1 <> pg) (v_maps gv)) gv)
  | eff_clear_ref pg r : effect gv (CClearReferenced pg) r gv
  | eff_clear_mod pg r : effect gv (CClearModified pg) r gv
  | eff_emulate pm va access : effect gv (CEmulate pm va access) (Some (emulate_result gv pm va access)) gv
  | eff_new pm : pm <> pmap_kernel -> pm ∉ v_pmaps gv -> (forall va, v_maps gv !! (pm, va) = None) ->
      effect gv CNew (Some pm) (HView (v_data gv) ({[pm]} ∪ v_pmaps gv) (v_maps gv))
  | eff_delete pm : effect gv (CDelete pm) None (HView (v_data gv) (v_pmaps gv ∖ {[pm]}) (filter (fun x => x.1.1 <> pm) (v_maps gv))).

Definition represents mc gv : Prop := exists own B, rep own B mc gv.

Lemma rep_clear own B mc gv pg set clr f : rep own B mc gv -> has_page gv pg -> mild_flags f -> 0 <= set < 8 -> 0 <= clr < 8 ->
  exists p mc', get_page mc pg = Ok p /\ (mc1 ← set_pg_flags mc pg f; pmap_modify_flags mc1 pg set clr) = Ok mc' /\ represents mc' gv.
Proof.
  intros R Hpg Hf Hs Hc. destruct (rep_held own B mc gv pg R Hpg) as (a & Hh & _). destruct (get_page_held mc B pg a Hh) as (p & Ep & _).
  destruct (rep_mark own B mc gv pg a f set clr R Hh Hf Hs Hc) as (mc' & E & R' & _). exists p, mc'. split_and!; try done. by exists own, B.
Qed.

Lemma call_refines mc gv c : represents mc gv -> allowed gv c ->
  exhausted (do_call mc c) \/ exists r mc' gv', do_call mc c = Ok (r, mc') /\ effect gv c r gv' /\ represents mc' gv'.
Proof.
  intros (own & B & R) Hc. destruct c; cbn [do_call allowed] in *.
  - right. destruct (rep_alloc own B mc gv R) as [-> |(pg & m & own' & B' & d & -> & Hn & R' & _)]; cbn [mbind outcome_bind].
    + exists None, mc, gv. split; [by destruct mc|]. split; [constructor|by exists own, B].
    + eexists (Some pg), _, _. split; [done|]. split; [by apply (eff_alloc gv pg d)|by exists own', B'].
  - right. destruct Hc as [H1 H2]. destruct (rep_free own B mc gv pg R H1 H2) as (m & own' & B' & -> & R'). eexists None, _, _. split; [done|]. split; [constructor|by exists own', B'].
  - right. destruct (rep_zero own B mc gv pg R Hc) as (mc' & -> & R'). eexists None, mc', _. split; [done|]. split; [constructor|by exists own, B].
  - right. destruct Hc as [[d H1] H2]. destruct (rep_copy own B mc gv src dst d R H1 H2) as (mc' & -> & R'). eexists None, mc', _. split; [done|]. split; [by constructor|by exists own, B].
  - destruct Hc as ([H1 H2] & H3 & H4 & H5 & H6). destruct (rep_enter own B mc gv pm va pg pr cflags R H1 H2 H3 H4 H5 H6) as [-> |(mc' & own' & B' & -> & R')]; [by left; left|right].
    eexists None, mc', _. split; [done|]. split; [constructor|by exists own', B'].
  - right. destruct Hc as ([H1 H2] & H3 & H4 & H5 & H6 & H7). destruct (rep_remove own B mc gv pm s e R H1 H2 H3 H4 H5 H6 H7) as (mc' & own' & B' & -> & R').
    eexists None, mc', _. split; [done|]. split; [constructor|by exists own', B'].
  - right. destruct (page_remove_spec pg (length (pvs mc pg)) own B mc gv R ltac:(done)) as (mc' & own' & B' & E & R'). unfold pmap_page_remove. rewrite E.
    eexists None, mc', _. split; [done|]. split; [constructor|by exists own', B'].
  - right. destruct (rep_clear own B mc gv pg 0 PTE_VALID (fun f => flag_clr f PG_REFERENCED) R Hc (mild_clr PG_REFERENCED eq_refl) ltac:(done) ltac:(done)) as (p & mc' & Ep & E & R').
    unfold pmap_clear_referenced, pmap_is_referenced. rewrite Ep. cbn [mbind outcome_bind]. apply bind_ok in E as (mc1 & -> & E). cbn [mbind outcome_bind]. rewrite E.
    eexists _, mc', gv. split; [done|]. split; [constructor|done].
  - right. destruct (rep_clear own B mc gv pg 0 PTE_DIRTY (fun f => flag_clr f PG_MODIFIED) R Hc (mild_clr PG_MODIFIED eq_refl) ltac:(done) ltac:(done)) as (p & mc' & Ep & E & R').
    unfold pmap_clear_modified, pmap_is_modified. rewrite Ep. cbn [mbind outcome_bind]. apply bind_ok in E as (mc1 & -> & E). cbn [mbind outcome_bind]. rewrite E.
    eexists _, mc', gv. split; [done|]. split; [constructor|done].
  - right. destruct Hc as [[H1 H2] H3]. apply (rp_pmaps _ _ _ _ R) in H1 as [P HP]. pose proof (rep_emulate own B mc gv pm P va access R HP H2 H3) as H. pose proof (eff_emulate gv pm va access) as He.
    unfold emulate_result in He. destruct (v_maps gv !! (pm, page_of va)) as [[pg pr]|]; [|rewrite H; eexists _, mc, gv; split; [done|]; split; [done|by exists own, B]].
    destruct (refused pr access); [rewrite H; eexists _, mc, gv; split; [done|]; split; [done|by exists own, B]|].
    destruct H as (mc' & a & p & -> & R' & _). eexists _, mc', gv. split; [done|]. split; [done|by exists own, B].
  - destruct (rep_new own B mc gv R) as [[-> | ->]|(pm & mc' & own' & B' & -> & Hk & Hn & Hm & R')]; [by left; left|by left; right|right].
    eexists (Some pm), mc', _. split; [done|]. split; [by constructor|by exists own', B'].
  - right. destruct Hc as [H1 H2]. destruct (rep_delete own B mc gv pm R H1 H2) as (mc' & own' & B' & -> & R'). eexists None, mc', _. split; [done|]. split; [constructor|by exists own', B'].
Qed.

(** A client makes calls and sees their results. *)
Inductive client := Done | Call (c : pmap_call) (k : option Z -> client).

Fixpoint run_client mc (cl : client) : outcome machine :=
  match cl with
  | Done => Ok mc
  | Call c k => '(r, mc) ← do_call mc c; run_client mc (k r)
  end.

(** The client makes no call that is not allowed, whatever the answers. *)
Fixpoint careful (gv : hview) (cl : client) : Prop :=
  match cl with
  | Done => True
  | Call c k => allowed gv c /\ forall r gv', effect gv c r gv' -> careful gv' (k r)
  end.

Inductive ends (gv : hview) : client -> hview -> Prop :=
  | end_done : ends gv Done gv
  | end_call c k r gv1 gv2 : effect gv c r gv1 -> ends gv1 (k r) gv2 -> ends gv (Call c k) gv2.

Lemma client_refines cl : forall mc gv, represents mc gv -> careful gv cl ->
  exhausted (run_client mc cl) \/ exists mc' gv', run_client mc cl = Ok mc' /\ ends gv cl gv' /\ represents mc' gv'.
Proof.
  induction cl as [|c k IH]; intros mc gv R Hc; cbn [run_client].
  - right. exists mc, gv. split; [done|]. split; [constructor|done].
  - destruct Hc as [Ha Hk]. destruct (call_refines mc gv c R Ha) as [[-> | ->]|(r & mc1 & gv1 & -> & E1 & R1)]; [by left; left|by left; right|]. cbn [mbind outcome_bind].
    destruct (IH r mc1 gv1 R1 (Hk r gv1 E1)) as [?|(mc2 & gv2 & E2 & F2 & R2)]; [by left|right]. exists mc2, gv2. split; [done|]. split; [by eapply end_call|done].
Qed.

(** ** A machine *)

(** Four free pages, and the kernel's directory elsewhere *)
Definition boot_machine : machine :=
  Machine (sample_mem BFree) (list_to_map ((fun a => (a, zero_page)) <$> [0x1000; 0x4000; 0x5000; 0x6000; 0x7000])) {[pmap_kernel := Pmap 0 (MIPS_PHYS_TO_KSEG0 0x1000) [] []]} ∅
    (1 :: replicate 31 0) 1 None 0xc0000000.

Lemma boot_init : init_pmap (Machine (phys boot_machine) (ram boot_machine) ∅ ∅ (replicate 32 0) 1 None 0xc0000000) (MIPS_PHYS_TO_KSEG0 0x1000) = Ok boot_machine.
Proof. reflexivity. Qed.

Definition boot_own : gmap Z owner := {[0x1000 := ODir pmap_kernel]}.
Definition boot_view : hview := HView ∅ {[pmap_kernel]} ∅.

Lemma boot_page pg p : pget (sample_mem BFree) pg = Some p -> paddr p ∈ [0x4000; 0x5000; 0x6000; 0x7000] /\ pv_empty p = true.
Proof. intros H. apply sample_get in H as [[_ ->]|[[_ ->]|[[_ ->]|[_ ->]]]]; (split; [|done]); cbn; set_solver. Qed.

Lemma boot_tables : tables boot_own (sample_blocks BFree) boot_machine.
Proof.
  assert (forall pm P, pmaps boot_machine !! pm = Some P -> pm = pmap_kernel /\ P = Pmap 0 (MIPS_PHYS_TO_KSEG0 0x1000) [] []) as HP by (intros pm P; unfold boot_machine; cbn [pmaps]; rewrite lookup_singleton_Some; naive_solver).
  split.
  - apply sample_inv. by left.
  - intros pg p H. apply boot_page in H as [H _]. repeat (apply elem_of_cons in H as [-> |H]; [by split_and!; try (by eexists)|]). by apply not_elem_of_nil in H.
  - intros a o. unfold boot_own. intros H. apply lookup_singleton_Some in H as [<- <-]. split; [done|]. right. split; [done|]. intros pg p H E. apply boot_page in H as [H _]. rewrite E in H. set_solver.
  - intros pm P [-> ->]%HP. exists 0x1000, zero_page. split_and!; try done. intros i w H. apply lookup_replicate in H as [-> _]. done.
  - intros pm P [-> ->]%HP Hk. done.
  - intros pm P [-> _]%HP. done.
  - split; [done|]. constructor; [lia|]. apply Forall_replicate. lia.
  - intros pm P [-> ->]%HP. done.
  - intros pm pm' P P' [-> _]%HP [-> _]%HP. done.
  - by eexists.
Qed.

Lemma boot_rep : rep boot_own (sample_blocks BFree) boot_machine boot_view.
Proof.
  split.
  - apply boot_tables.
  - intros pg d. cbn. rewrite lookup_empty. split; [done|]. intros (a & [H _] & _). unfold sample_blocks in H. apply lookup_singleton_Some in H as [_ H]. done.
  - intros pm. unfold boot_view. cbn [v_pmaps]. rewrite elem_of_singleton. split; [intros ->; by eexists|]. unfold boot_machine. cbn [pmaps]. intros [P H]. by apply lookup_singleton_Some in H as [<- _].
  - intros pm P va H Hk. unfold boot_machine in H. cbn [pmaps] in H. apply lookup_singleton_Some in H as [<- _]. done.
  - done.
  - assert (forall pg, pvs boot_machine pg = []) as Ep by done. split; try (intros pg pv H; rewrite Ep in H; by apply not_elem_of_nil in H); try done.
    + intros pg pv pv' H. rewrite Ep in H. by apply not_elem_of_nil in H.
    + intros pm P pv H. unfold boot_machine in H. cbn [pmaps] in H. apply lookup_singleton_Some in H as [<- <-]. cbn. split; [by intros ?%not_elem_of_nil|]. intros (_ & pg & H). by apply not_elem_of_nil in H.
    + intros pm P H. unfold boot_machine in H. cbn [pmaps] in H. apply lookup_singleton_Some in H as [<- <-]. apply NoDup_nil_2.
    + intros pg p H. by apply boot_page in H as [_ ->].
Qed.

(** ** Theorems *)

(** C2: The page tables implement the abstract machine of mappings: for every client that
    keeps to the rules, whatever it makes of the results, every call on the page tables,
    the lists of mappings and the page allocator answers as the specification says and
    leads to a state that stands for the specified one; no assertion fails.  The only
    ways out are a lack of pages or of address space identifiers. *)
Theorem pmap_refines cl mc gv : represents mc gv -> careful gv cl ->
  exhausted (run_client mc cl) \/ exists mc' gv', run_client mc cl = Ok mc' /\ ends gv cl gv' /\ represents mc' gv'.
Proof. exact (client_refines cl mc gv). Qed.

(** A client that maps a page, touches it and cleans up. *)
Definition sample_client : client :=
  Call CNew (fun r => match r with
    | Some pm => Call CAlloc (fun r => match r with
        | Some pg => Call (CZero pg) (fun _ => Call (CEnter pm 0x400000 pg 3 0) (fun _ => Call (CEmulate pm 0x400010 2) (fun _ =>
            Call (CRemove pm 0x400000 0x401000) (fun _ => Call (CDelete pm) (fun _ => Done)))))
        | None => Done
        end)
    | None => Done
    end).

Lemma sample_careful : careful boot_view sample_client.
Proof.
  cbn [sample_client careful]. split; [done|]. intros r gv1 E1. inversion E1; subst; clear E1. cbn [careful]. split; [done|]. intros r gv2 E2.
  inversion E2; subst; clear E2; [done|]. cbn [careful]. split.
  { cbn [allowed]. unfold has_page. cbn [set_data set_maps v_data]. rewrite lookup_insert_eq. by eexists. }
  intros r gv3 E3. inversion E3; subst; clear E3. assert (user_pmap (HView ∅ ({[pm]} ∪ v_pmaps boot_view) (v_maps boot_view)) pm) as Hu by (split; [cbn [set_data set_maps v_pmaps]; set_solver|done]).
  cbn [careful]. split.
  { split; [done|]. split; [done|]. split; [unfold has_page; cbn [set_data set_maps v_data]; rewrite lookup_insert_eq; by eexists|]. split; [lia|]. done. }
  intros r gv4 E4. inversion E4; subst; clear E4. cbn [careful]. split; [done|]. intros r gv5 E5. inversion E5; subst; clear E5. cbn [careful]. split; [done|].
  intros r gv6 E6. inversion E6; subst; clear E6. cbn [careful]. split; [done|]. done.
Qed.

Lemma pmap_refines_witness : exists mc' gv', run_client boot_machine sample_client = Ok mc' /\ ends boot_view sample_client gv' /\ represents mc' gv'.
Proof.
  destruct (pmap_refines sample_client boot_machine boot_view) as [[E|E]|H]; [by exists boot_own, (sample_blocks BFree); apply boot_rep|apply sample_careful| | |exact H];
    apply (f_equal is_ok) in E; vm_compute in E; done.
Defined.

(** C38: A fault on a user address that is not mapped is reported as such; one that the
    protection of the mapping forbids is refused, and nothing changes.  Otherwise the
    access is going to pass: the memory unit finds the page at the address with the right
    offset, the page is marked as referenced, and as modified for a store, and every mapping
    stays.  In the words of all the mappings of the page the bit [PTE_VALID] gets set, for a
    store [PTE_DIRTY] too, in no other word of user memory does any bit change, and for a
    load no word gets [PTE_DIRTY]. *)
Theorem pmap_emulate_bits_correct mc gv pm va access : represents mc gv -> user_pmap gv pm -> PMAP_USER_BEGIN <= va < PMAP_USER_END ->
  match v_maps gv !! (pm, page_of va) with
  | None => pmap_emulate_bits mc pm va access = Ok (EFAULT, mc)
  | Some (pg, pr) =>
      if refused pr access then pmap_emulate_bits mc pm va access = Ok (EACCES, mc)
      else exists mc' p, pmap_emulate_bits mc pm va access = Ok (0, mc') /\ represents mc' gv /\ pget (phys mc') pg = Some p /\
        tlb_access mc' pm va (flag_on access VM_PROT_WRITE) = Some (paddr p + va `mod` PAGESIZE) /\
        flag_on (flags p) PG_REFERENCED = true /\ (flag_on access VM_PROT_WRITE = true -> flag_on (flags p) PG_MODIFIED = true) /\
        forall pm' va' w, user_pmap gv pm' -> user_va va' -> pmap_pte_read mc pm' va' = Ok w ->
          pmap_pte_read mc' pm' va' = Ok (if decide (fst <$> v_maps gv !! (pm', va') = Some pg) then Z.lor w (access_bits (flag_on access VM_PROT_WRITE)) else w)
  end.
Proof.
  intros (own & B & R) [Hpm Hk] Hva. apply (rp_pmaps _ _ _ _ R) in Hpm as [P HP]. pose proof (rep_emulate own B mc gv pm P va access R HP Hk Hva) as H.
  destruct (v_maps gv !! (pm, page_of va)) as [[pg pr]|]; [|done]. destruct (refused pr access); [done|].
  destruct H as (mc' & a & p & E & R' & (_ & q & Hq & Ea) & Ht & M & Hp & F1 & F2). assert (q = p) as -> by congruence. exists mc', p. rewrite Ea. split_and!; try done; [by exists own, B|].
  intros pm' va' w [Hpm' Hk'] Hva' Ew. apply (rp_pmaps _ _ _ _ R) in Hpm' as [P' HP']. rewrite (M pm' P' va' w HP' Hk' Hva' Ew). f_equal. unfold marked.
  destruct (v_maps gv !! (pm', va')) as [[pg' pr']|]; cbn; [|done]. unfold new_bits, flag_clr. rewrite Z.land_m1_r. destruct (decide (pg' = pg)); case_decide; congruence.
Qed.

(** Extraction answers with the physical address, inside the page that the address is
    mapped to, and the page can be found from it. *)
Theorem pmap_extract_correct mc gv pm va : represents mc gv -> user_pmap gv pm -> PMAP_USER_BEGIN <= va < PMAP_USER_END ->
  match v_maps gv !! (pm, page_of va) with
  | None => pmap_extract mc pm va = Ok None
  | Some (pg, _) => exists p, pget (phys mc) pg = Some p /\ pmap_extract mc pm va = Ok (Some (paddr p + va `mod` PAGESIZE)) /\
      vm_page_find (phys mc) (paddr p + va `mod` PAGESIZE) = Some pg
  end.
Proof.
  intros (own & B & R) [Hpm Hk] Hva. apply (rp_pmaps _ _ _ _ R) in Hpm as [P HP]. pose proof (page_user va Hva) as Hpu. unfold pmap_extract.
  rewrite (extract_user own B mc pm P va (rp_tables _ _ _ _ R) HP Hk Hva). pose proof (rp_maps _ _ _ _ R pm P _ HP Hk Hpu) as Hm.
  destruct (v_maps gv !! (pm, page_of va)) as [[pg pr]|] eqn:E; [|by rewrite Hm]. destruct Hm as (a & Hh & ->). pose proof Hh as (_ & p & Hp & Ea). exists p. split; [done|].
  destruct (rep_frame own B mc gv _ _ _ _ _ R E Hh) as [[Hal _] ->].
  rewrite lor_offset, Ea by done. split; [done|]. apply (find_held _ B); [apply (rp_tables _ _ _ _ R)|done|]. by apply Z.mod_pos_bound.
Qed.

(** A map with a page of user memory *)
Definition demo_from mc : outcome (Z * Z * machine) :=
  '(pm, mc) ← pmap_new mc;
  '(pg, m) ← vm_page_alloc (phys mc) 1;
  pg ← some_of pg;
  mc ← pmap_enter (set_phys m mc) pm 0x400000 pg 3 0;
  Ok (pm, pg, mc).

Definition demo_user_map : outcome (Z * Z * machine) := demo_from boot_machine.

Lemma demo_spec own B mc0 : rep own B mc0 boot_view -> is_ok (demo_from mc0) = true ->
  exists pm pg mc gv, demo_from mc0 = Ok (pm, pg, mc) /\ represents mc gv /\ user_pmap gv pm /\ v_maps gv !! (pm, 0x400000) = Some (pg, 3).
Proof.
  intros R. unfold demo_from. destruct (rep_new _ _ _ _ R) as [[-> | ->]|(pm & mc1 & own1 & B1 & -> & Hk & Hn & Hm & R1)]; [done..|]. cbn [mbind outcome_bind].
  destruct (rep_alloc _ _ _ _ R1) as [-> |(pg & m & own2 & B2 & d & -> & Hp & R2 & _)]; [done|]. cbn [some_of mbind outcome_bind].
  destruct (rep_enter _ _ _ _ pm 0x400000 pg 3 0 R2) as [-> |(mc3 & own3 & B3 & -> & R3)]; try done.
  { cbn [set_data v_pmaps]. set_solver. } { cbn [set_data v_data]. rewrite lookup_insert_eq. by eexists. }
  intros _. eexists pm, pg, mc3, _. split; [done|]. split; [by exists own3, B3|]. split; [split; [cbn [set_data set_maps v_pmaps]; set_solver|done]|]. cbn [set_maps v_maps]. by rewrite lookup_insert_eq.
Qed.

Lemma demo_rep : exists pm pg mc gv, demo_user_map = Ok (pm, pg, mc) /\ represents mc gv /\ user_pmap gv pm /\ v_maps gv !! (pm, 0x400000) = Some (pg, 3).
Proof. apply (demo_spec _ _ _ boot_rep). vm_compute. reflexivity. Qed.

Lemma pmap_emulate_bits_witness : exists pm pg mc mc' p, demo_user_map = Ok (pm, pg, mc) /\ pmap_emulate_bits mc pm 0x400010 VM_PROT_WRITE = Ok (0, mc') /\
  tlb_access mc' pm 0x400010 true = Some (paddr p + 16).
Proof.
  assert (PMAP_USER_BEGIN <= 0x400010 < PMAP_USER_END) as Hva by (vm_compute; split; congruence).
  destruct demo_rep as (pm & pg & mc & gv & E & R & Hu & Hm). pose proof (pmap_emulate_bits_correct mc gv pm 0x400010 VM_PROT_WRITE R Hu Hva) as H.
  change (page_of 0x400010) with 0x400000 in H. rewrite Hm in H. destruct H as (mc' & p & E' & _ & _ & Ht & _). exists pm, pg, mc, mc', p. exact (conj E (conj E' Ht)).
Defined.

Lemma pmap_extract_witness : exists pm pg mc p, demo_user_map = Ok (pm, pg, mc) /\ pget (phys mc) pg = Some p /\ pmap_extract mc pm 0x400010 = Ok (Some (paddr p + 16)).
Proof.
  assert (PMAP_USER_BEGIN <= 0x400010 < PMAP_USER_END) as Hva by (vm_compute; split; congruence).
  destruct demo_rep as (pm & pg & mc & gv & E & R & Hu & Hm). pose proof (pmap_extract_correct mc gv pm 0x400010 R Hu Hva) as H.
  change (page_of 0x400010) with 0x400000 in H. rewrite Hm in H. destruct H as (p & Hp & E' & _). exists pm, pg, mc, p. exact (conj E (conj Hp E')).
Defined.

(** [pmap_protect] takes the words of pages that are not mapped, which are not zero, for mappings:
    the page at address zero becomes readable. *)
Lemma protect_opens_frame_zero :
  ('(pm, _, mc) ← demo_user_map; mc ← pmap_protect mc pm 0x401000 0x402000 VM_PROT_READ; Ok (tlb_access mc pm 0x401000 false)) = Ok (Some 0).
Proof. vm_compute. reflexivity. Qed.

(** A store through one mapping of a page makes a read-only mapping of it writable. *)
Lemma store_opens_readonly :
  ('(pm, pg, mc) ← demo_user_map; mc ← pmap_enter mc pm 0x401000 pg VM_PROT_READ 0; '(_, mc) ← pmap_emulate_bits mc pm 0x400000 VM_PROT_WRITE;
   Ok (tlb_access mc pm 0x401000 true)) = Ok (Some 0x6000).
Proof. vm_compute. reflexivity. Qed.
