(* ===== verification/PmapKernel.v ===== *)
(** * Kernel memory in the page tables (sys/mips/pmap.c)

    The operations on the map of the kernel: [pmap_kenter], [pmap_kremove], [pmap_kextract]
    and [pmap_growkernel].  The results: what was entered is translated, nothing else is
    touched, and addresses below the end of kernel memory have tables, so that entering
    a page there cannot fail. *)

From S2P Require Import Prelude Bitstr Machine Physmem Pmap PmapHw.

#[local] Existing Instance mips.

Implicit Types (mc : machine) (pm va pg : Z) (P : pmap_t) (m : physmem) (B : blocks) (p : vm_page) (own : gmap Z owner) (o : owner).

Definition kern_va va : Prop := PMAP_KERNEL_BEGIN <= va < PMAP_KERNEL_END.

Lemma kern_word va : kern_va va -> word_va va.
Proof. unfold kern_va, word_va, PMAP_KERNEL_BEGIN, PMAP_KERNEL_END. lia. Qed.

Lemma kern_page va : kern_va va -> kern_va (page_of va) /\ page_aligned_p (page_of va) = true.
Proof.
  unfold kern_va. intros H. destruct (page_of_spec va) as [H1 H2]. split; [|done]. rewrite H2. unfold PMAP_KERNEL_BEGIN, PMAP_KERNEL_END in *.
  pose proof (Z.div_mod va (2 ^ 12) ltac:(lia)). pose proof (Z.mod_pos_bound va (2 ^ 12) ltac:(lia)). lia.
Qed.

Lemma kern_addr own B mc P va : tables own B mc -> pmaps mc !! pmap_kernel = Some P -> pmap_address_p P va = true <-> kern_va va.
Proof.
  intros T HP. destruct (tb_asid _ _ _ T _ P HP) as (_ & _ & H). unfold pmap_address_p, pmap_start, pmap_end, kern_va. rewrite (proj2 H eq_refl).
  cbn. rewrite andb_true_iff, Z.leb_le, Z.ltb_lt. done.
Qed.

(** Everything but the map of the kernel stays. *)
Record keeps own B mc own' B' mc' : Prop := {
  kp_extends : extends own B mc pmap_kernel own' B' mc';
  kp_other pm P va : pm <> pmap_kernel -> pmaps mc !! pm = Some P -> page_va va -> mapped mc' pm va = mapped mc pm va;
}.

Lemma keeps_pmap own B mc own' B' mc' pm P : keeps own B mc own' B' mc' -> pmaps mc !! pm = Some P -> exists P', pmaps mc' !! pm = Some P'.
Proof.
  intros [X _] HP. destruct (ex_pmap _ _ _ _ _ _ _ X) as (Q & Q' & _ & E & _). rewrite E.
  destruct (decide (pm = pmap_kernel)) as [->|]; [rewrite lookup_insert_eq|rewrite lookup_insert_ne by done]; eauto.
Qed.

Lemma keeps_trans own B mc own1 B1 mc1 own2 B2 mc2 : keeps own B mc own1 B1 mc1 -> keeps own1 B1 mc1 own2 B2 mc2 -> keeps own B mc own2 B2 mc2.
Proof.
  intros K1 K2. split; [by apply (extends_trans _ _ _ _ own1 B1 mc1); [apply K1|apply K2]|]. intros pm P va Hk HP Hva.
  destruct (keeps_pmap _ _ _ _ _ _ pm P K1 HP) as [P1 HP1]. rewrite (kp_other _ _ _ _ _ _ K2 pm P1) by done. by apply (kp_other _ _ _ _ _ _ K1 pm P).
Qed.

Lemma keeps_refl own B mc : tables own B mc -> keeps own B mc own B mc.
Proof.
  intros T. split; [|done]. destruct (tb_kernel _ _ _ T) as [P HP]. split; try done; [|apply kept_refl]. exists P, P. by rewrite insert_id.
Qed.

(** User maps do not notice. *)
Lemma keeps_rep own B mc own' B' mc' gv : rep own B mc gv -> tables own' B' mc' -> keeps own B mc own' B' mc' -> rep own' B' mc' gv.
Proof.
  intros R T [X K]. rewrite <- (set_maps_id gv). apply (rep_follows own B mc); try done; [by apply (extends_follows _ _ _ pmap_kernel)| | |].
  - apply (extends_links own B mc pmap_kernel own' B'); [done|]. apply R.
  - intros pm P va HP Hk Hva. rewrite (K pm P) by (done || by apply user_page). by apply (rp_maps _ _ _ _ R pm P).
  - apply R.
Qed.

(** ** Entering and removing pages *)

Lemma kwrite_spec own B mc va w cflags : tables own B mc -> kern_va va -> page_aligned_p va = true ->
  (~ has_table mc pmap_kernel va /\ pmap_pte_write mc pmap_kernel va w cflags = Fault NoMemory) \/
  exists mc' own' B', pmap_pte_write mc pmap_kernel va w cflags = Ok mc' /\ tables own' B' mc' /\ keeps own B mc own' B' mc' /\
    forall va', page_va va' -> mapped mc' pmap_kernel va' = if decide (va' = va) then entry (Z.lor w (cache_bits cflags)) else mapped mc pmap_kernel va'.
Proof.
  intros T Hva Hal. destruct (tb_kernel _ _ _ T) as [P HP]. destruct (pte_write_spec own B mc pmap_kernel P va w cflags T HP (conj (kern_word va Hva) Hal)) as [(_ & H1 & H2)|(mc' & own' & B' & E & T' & X & M)].
  - by left.
  - right. exists mc', own', B'. split_and!; try done.
    + split; [done|]. intros pm Q va' Hk HQ Hva'. rewrite (M pm Q va' HQ Hva'). by rewrite decide_False by naive_solver.
    + intros va' Hva'. rewrite (M pmap_kernel P va' HP Hva'). destruct (decide (va' = va)); [by rewrite decide_True|by rewrite decide_False by naive_solver].
Qed.

Lemma entry_kernel a pr cflags : page_aligned_p a = true -> 0 < a < 2 ^ 32 -> 0 <= pr <= 7 ->
  exists w, arr_get vm_prot_map pr = Ok w /\ entry (Z.lor (Z.lor (PTE_PFN a) (Z.lor w PTE_GLOBAL)) (cache_bits cflags)) = Some (a, pr).
Proof.
  intros Ha Hr Hpr. assert (pr ∈ (Z.of_nat <$> seq 0 8)) as H.
  { apply list_elem_of_fmap. exists (Z.to_nat pr). split; [lia|]. apply elem_of_seq. lia. }
  cbn in H. destruct (cache_cases cflags) as [-> |[-> | ->]];
    repeat (apply elem_of_cons in H as [-> |H]; [eexists; split; [reflexivity|]; rewrite <- Z.lor_assoc; by rewrite entry_addr|]); by apply not_elem_of_nil in H.
Qed.

Lemma kenter_spec own B mc va pa pr cflags : tables own B mc -> kern_va va -> page_aligned_p va = true -> page_aligned_p pa = true -> 0 < pa < 2 ^ 32 -> 0 <= pr <= 7 ->
  (~ has_table mc pmap_kernel va /\ pmap_kenter mc va pa pr cflags = Fault NoMemory) \/
  exists mc' own' B', pmap_kenter mc va pa pr cflags = Ok mc' /\ tables own' B' mc' /\ keeps own B mc own' B' mc' /\
    forall va', page_va va' -> mapped mc' pmap_kernel va' = if decide (va' = va) then Some (pa, pr) else mapped mc pmap_kernel va'.
Proof.
  intros T Hva Hal Hpa Hr Hpr. destruct (tb_kernel _ _ _ T) as [P HP]. destruct (entry_kernel pa pr cflags Hpa Hr Hpr) as (w & Ew & En).
  unfold pmap_kenter, get_pmap. rewrite HP, Hpa, Hal. cbn [some_of mbind outcome_bind assert andb]. rewrite (proj2 (kern_addr own B mc P va T HP) Hva), (proj2 (Z.eqb_neq pa 0)) by lia.
  cbn [negb assert mbind outcome_bind]. rewrite Ew. cbn [mbind outcome_bind].
  destruct (kwrite_spec own B mc va (Z.lor (PTE_PFN pa) (Z.lor w PTE_GLOBAL)) cflags T Hva Hal) as [?|(mc' & own' & B' & E & T' & K & M)]; [by left|right].
  exists mc', own', B'. split_and!; try done. intros va' Hva'. by rewrite (M va' Hva'), En.
Qed.

(** Enough tables for a range *)
Definition tables_upto mc (s e : Z) : Prop := forall va, s <= va < e -> has_table mc pmap_kernel va.

Lemma keeps_table own B mc own' B' mc' va : keeps own B mc own' B' mc' -> word_va va -> has_table mc pmap_kernel va -> has_table mc' pmap_kernel va.
Proof. intros [X _]. by apply (ex_table _ _ _ _ _ _ _ X). Qed.

Lemma keeps_upto own B mc own' B' mc' (s e : Z) : keeps own B mc own' B' mc' -> PMAP_KERNEL_BEGIN <= s -> e <= 2 ^ 32 -> tables_upto mc s e -> tables_upto mc' s e.
Proof. intros K Hs He H va Hva. apply (keeps_table own B mc own' B' mc' va K); [unfold word_va, PMAP_KERNEL_BEGIN in *; lia|by apply H]. Qed.

Lemma aligned_step va : page_aligned_p va = true -> page_aligned_p (va + PAGESIZE) = true.
Proof.
  intros H. apply (is_aligned_pow2 _ 12) in H; [|lia]. apply (is_aligned_pow2 _ 12); [lia|]. change PAGESIZE with (1 * 2 ^ 12). by rewrite Z.mod_add by lia.
Qed.

(** Where there is a table, only a word of it changes. *)
Lemma kwrite_table own B mc va w cflags : tables own B mc -> kern_va va -> page_aligned_p va = true -> has_table mc pmap_kernel va ->
  exists r, pmap_pte_write mc pmap_kernel va w cflags = Ok (set_ram r mc) /\ tables own B (set_ram r mc) /\ keeps own B mc own B (set_ram r mc) /\
    (forall a, own !! a = None -> r !! a = ram mc !! a) /\
    forall va', page_va va' -> mapped (set_ram r mc) pmap_kernel va' = if decide (va' = va) then entry (Z.lor w (cache_bits cflags)) else mapped mc pmap_kernel va'.
Proof.
  intros T Hva Hal (P & d0 & HP & Hd & Hv). pose proof (kern_word va Hva) as Hw. destruct (walk_ok own B mc pmap_kernel P va T HP Hw) as (d & dir & w0 & W).
  assert (w0 = d0) as -> by (pose proof (wk_get _ _ _ _ _ _ _ _ W); congruence). unfold pmap_pte_write, get_pmap. rewrite HP. cbn [some_of mbind outcome_bind].
  rewrite Hd. cbn [mbind outcome_bind]. rewrite Hv. cbn [negb mbind outcome_bind]. set (x := Z.lor w _).
  destruct (pte_set_spec own B mc pmap_kernel P va d dir d0 x T HP (conj Hw Hal) W Hv) as (mc' & E & T' & X & _ & M).
  destruct (wk_valid _ _ _ _ _ _ _ _ W Hv) as (t & tab & y & Ed & F1 & F2 & F3 & F4 & F5 & F6). destruct (index_range va Hw) as [_ Hi].
  assert (mc' = set_ram (<[t := <[Z.to_nat (PTE_INDEX va) := x]> tab]> (ram mc)) mc) as ->.
  { rewrite Ed, pde_of_base, (word_set_ok mc t _ tab) in E by (done || lia || by apply frame_range). congruence. }
  eexists. split; [exact E|]. split_and!; try done.
  - split; [done|]. intros pm Q va' Hk HQ Hva'. unfold mapped. rewrite (M pm Q va' HQ Hva'). by rewrite decide_False by naive_solver.
  - intros a Ha. rewrite lookup_insert_ne; congruence.
  - intros va' Hva'. unfold mapped. rewrite (M pmap_kernel P va' HP Hva'). destruct (decide (va' = va)); [by rewrite decide_True|by rewrite decide_False by naive_solver].
Qed.

Lemma kenter_table own B mc va pa pr cflags : tables own B mc -> kern_va va -> page_aligned_p va = true -> page_aligned_p pa = true -> 0 < pa < 2 ^ 32 -> 0 <= pr <= 7 ->
  has_table mc pmap_kernel va ->
  exists r, pmap_kenter mc va pa pr cflags = Ok (set_ram r mc) /\ tables own B (set_ram r mc) /\ keeps own B mc own B (set_ram r mc) /\
    (forall a, own !! a = None -> r !! a = ram mc !! a) /\
    forall va', page_va va' -> mapped (set_ram r mc) pmap_kernel va' = if decide (va' = va) then Some (pa, pr) else mapped mc pmap_kernel va'.
Proof.
  intros T Hva Hal Hpa Hr Hpr Ht. destruct (tb_kernel _ _ _ T) as [P HP]. destruct (entry_kernel pa pr cflags Hpa Hr Hpr) as (w & Ew & En).
  unfold pmap_kenter, get_pmap. rewrite HP, Hpa, Hal. cbn [some_of mbind outcome_bind assert andb]. rewrite (proj2 (kern_addr own B mc P va T HP) Hva), (proj2 (Z.eqb_neq pa 0)) by lia.
  cbn [negb assert mbind outcome_bind]. rewrite Ew. cbn [mbind outcome_bind].
  destruct (kwrite_table own B mc va (Z.lor (PTE_PFN pa) (Z.lor w PTE_GLOBAL)) cflags T Hva Hal Ht) as (r & E & T' & K & Hr' & M).
  exists r. split_and!; try done. intros va' Hva'. by rewrite (M va' Hva'), En.
Qed.

Lemma kremove_spec own B (n : nat) : forall mc va, tables own B mc -> PMAP_KERNEL_BEGIN <= va -> va + PAGESIZE * Z.of_nat n <= PMAP_KERNEL_END -> page_aligned_p va = true ->
  tables_upto mc va (va + PAGESIZE * Z.of_nat n) ->
  exists r, kremove_loop n mc va = Ok (set_ram r mc) /\ tables own B (set_ram r mc) /\ keeps own B mc own B (set_ram r mc) /\ (forall a, own !! a = None -> r !! a = ram mc !! a) /\
    forall va', page_va va' -> mapped (set_ram r mc) pmap_kernel va' = if decide (va <= va' < va + PAGESIZE * Z.of_nat n) then None else mapped mc pmap_kernel va'.
Proof.
  induction n as [|n IH]; intros mc va T Hva Hn Hal Ht; cbn [kremove_loop].
  - exists (ram mc). assert (set_ram (ram mc) mc = mc) as -> by (by destruct mc). split_and!; try done; [by apply keeps_refl|]. intros va' _. rewrite decide_False; [done|]. lia.
  - assert (kern_va va) as Hkv by (unfold kern_va, PAGESIZE in *; lia). destruct (kwrite_table own B mc va PTE_GLOBAL 0 T Hkv Hal) as (r1 & -> & T1 & K1 & A1 & M1); [apply Ht; unfold PAGESIZE; lia|].
    cbn [mbind outcome_bind]. destruct (IH (set_ram r1 mc) (va + PAGESIZE) T1) as (r & -> & T2 & K2 & A2 & M2); [unfold PAGESIZE; lia|lia|by apply aligned_step| |].
    { apply (keeps_upto own B mc own B); [done|unfold PAGESIZE; lia|unfold PMAP_KERNEL_END, PAGESIZE in *; lia|]. intros va' H. apply Ht. unfold PAGESIZE in *. lia. }
    change (set_ram r (set_ram r1 mc)) with (set_ram r mc) in *. exists r. split_and!; try done; [by apply (keeps_trans _ _ _ own B (set_ram r1 mc))|intros a Ha; by rewrite A2, A1|].
    intros va' Hva'. rewrite (M2 va' Hva'), (M1 va' Hva').
    pose proof (aligned_div va Hal). pose proof (aligned_div va' (proj2 Hva')). unfold PAGESIZE in *. repeat case_decide; try lia; try done.
Qed.

Lemma kextract_spec own B mc va : tables own B mc -> kern_va va ->
  pmap_kextract mc va = Ok (match mapped mc pmap_kernel (page_of va) with None => None | Some (a, _) => if a =? 0 then None else Some (Z.lor a (PAGE_OFFSET va)) end).
Proof.
  intros T Hva. destruct (tb_kernel _ _ _ T) as [P HP]. apply (extract_spec own B mc pmap_kernel P); try done; [by apply (kern_addr own B mc)|by apply kern_word].
Qed.

(** ** Growing *)

Lemma L1_space : L1_SPACE_SIZE = 2 ^ 22.
Proof. reflexivity. Qed.

Lemma roundup2_spec x : 0 < x -> x <= 2 ^ 32 - 2 ^ 22 -> roundup2 x L1_SPACE_SIZE = ceil_to x (2 ^ 22).
Proof.
  intros H1 H2. rewrite L1_space. unfold roundup2. rewrite (wrap_small (x - 1)) by (unfold in_word; cbn; lia). pose proof (Z.div_mod (x - 1) (2 ^ 22) ltac:(lia)) as E.
  pose proof (Z.mod_pos_bound (x - 1) (2 ^ 22) ltac:(lia)) as Hm. assert (Z.lor (x - 1) (2 ^ 22 - 1) = (x - 1) / 2 ^ 22 * 2 ^ 22 + (2 ^ 22 - 1)) as ->.
  { rewrite <- (lor_low _ (2 ^ 22 - 1) 22) by lia. apply Z.bits_inj_iff'. intros k Hk. change (2 ^ 22 - 1) with (Z.ones 22). rewrite !Z.lor_spec. destruct (decide (k < 22)).
    - rewrite Z.ones_spec_low by lia. by rewrite !orb_true_r.
    - rewrite Z.ones_spec_high by lia. rewrite !orb_false_r. rewrite <- Z.shiftr_div_pow2, <- Z.shiftl_mul_pow2 by lia. rewrite Z.shiftl_spec, Z.shiftr_spec by lia. f_equal. lia. }
  unfold ceil_to. assert ((x + (2 ^ 22 - 1)) / 2 ^ 22 = (x - 1) / 2 ^ 22 + 1) as Ec.
  { replace (x + (2 ^ 22 - 1)) with (x - 1 + 1 * 2 ^ 22) by lia. apply Z.div_add. lia. }
  rewrite wrap_small; [|unfold in_word; cbn; lia]. lia.
Qed.

Lemma table_index mc pm va va' : PDE_INDEX va = PDE_INDEX va' -> has_table mc pm va -> has_table mc pm va'.
Proof. intros E (P & w & HP & Hw & Hv). exists P, w. split_and!; try done. unfold PDE_OF in *. by rewrite <- E. Qed.

Lemma table_dec own B mc va P : tables own B mc -> pmaps mc !! pmap_kernel = Some P -> word_va va -> exists w, PDE_OF mc P va = Ok w /\ (is_valid_pde w = true <-> has_table mc pmap_kernel va).
Proof.
  intros T HP Hva. destruct (walk_ok own B mc pmap_kernel P va T HP Hva) as (d & dir & w & W). exists w. split; [apply W|]. split.
  - intros H. exists P, w. split_and!; try done. apply W.
  - intros (P' & w' & HP' & Hw' & Hv). assert (P' = P) as -> by congruence. pose proof (wk_get _ _ _ _ _ _ _ _ W). congruence.
Qed.

(** One round of [pmap_growkernel] *)
Lemma grow_step own B mc va P : tables own B mc -> pmaps mc !! pmap_kernel = Some P -> word_va va ->
  let r := (d ← PDE_OF mc P va; if negb (is_valid_pde d) then '(_, mc) ← pmap_add_pde mc pmap_kernel va; Ok mc else Ok mc) in
  r = Fault NoMemory \/
  exists mc' own' B', r = Ok mc' /\ tables own' B' mc' /\ keeps own B mc own' B' mc' /\ has_table mc' pmap_kernel va /\
    forall va', page_va va' -> mapped mc' pmap_kernel va' = mapped mc pmap_kernel va'.
Proof.
  intros T HP Hva. destruct (walk_ok own B mc pmap_kernel P va T HP Hva) as (d & dir & w & W). cbn zeta. rewrite (wk_get _ _ _ _ _ _ _ _ W). cbn [mbind outcome_bind].
  destruct (is_valid_pde w) eqn:Hw; cbn [negb].
  - right. exists mc, own, B. split_and!; try done; [by apply keeps_refl|]. exists P, w. split_and!; try done. apply W.
  - destruct (add_pde_spec own B mc pmap_kernel P va d dir w T HP Hva W Hw) as [-> |(a & mc1 & own1 & B1 & P1 & -> & T1 & X1 & Hf & HP1 & HD & M1)]; [by left|right]. cbn [mbind outcome_bind].
    exists mc1, own1, B1. split_and!; try done.
    + split; [done|]. intros pm Q va' _ HQ [Hva' _]. by apply (M1 pm Q).
    + exists P1, (pde_of a). split_and!; try done. by apply pde_of_valid.
    + intros va' [Hva' _]. by apply (M1 pmap_kernel P).
Qed.

Lemma grow_loop_spec (top : Z) (fuel : nat) : top <= 2 ^ 32 - 2 ^ 22 -> top `mod` 2 ^ 22 = 0 -> forall own B mc va, tables own B mc -> PMAP_KERNEL_BEGIN <= va -> top - va <= 2 ^ 22 * Z.of_nat fuel ->
  grow_loop fuel mc va top = Fault NoMemory \/
  exists mc' own' B', grow_loop fuel mc va top = Ok mc' /\ tables own' B' mc' /\ keeps own B mc own' B' mc' /\ tables_upto mc' va top /\
    forall va', page_va va' -> mapped mc' pmap_kernel va' = mapped mc pmap_kernel va'.
Proof.
  intros Htop Hmod. induction fuel as [|fuel IH]; intros own B mc va T Hva Hf; cbn [grow_loop].
  - rewrite (proj2 (Z.ltb_ge va top)) by lia. right. exists mc, own, B. split_and!; try done; [by apply keeps_refl|]. intros x Hx. lia.
  - destruct (Z.ltb_spec va top) as [Hlt|Hge]; [|right; exists mc, own, B; split_and!; try done; [by apply keeps_refl|intros x Hx; lia]].
    destruct (tb_kernel _ _ _ T) as [P HP]. assert (word_va va) as Hw by (unfold word_va, PMAP_KERNEL_BEGIN in *; lia). pose proof (grow_step own B mc va P T HP Hw) as H. cbn zeta in H.
    unfold get_pmap. rewrite HP. cbn [some_of mbind outcome_bind]. destruct (PDE_OF mc P va) as [d|]; cbn [mbind outcome_bind] in *; [|destruct H as [H|(? & ? & ? & H & _)]; [by left|done]].
    destruct H as [-> |(mc1 & own1 & B1 & -> & T1 & K1 & Ht & M1)]; [by left|]. cbn [mbind outcome_bind].
    rewrite L1_space, wrap_small by (unfold in_word, PMAP_KERNEL_BEGIN in *; cbn; lia).
    destruct (IH own1 B1 mc1 (va + 2 ^ 22) T1) as [-> |(mc2 & own2 & B2 & -> & T2 & K2 & H2 & M2)]; [lia|lia|by left|right].
    exists mc2, own2, B2. split_and!; try done; [by apply (keeps_trans _ _ _ own1 B1 mc1)| |intros va' Hva'; by rewrite M2, M1].
    intros x Hx. destruct (decide (va + 2 ^ 22 <= x)); [apply H2; lia|]. assert (word_va x) as Hwx by (unfold word_va in *; lia).
    pose proof (Z.div_mod x (2 ^ 22) ltac:(lia)). pose proof (Z.div_mod va (2 ^ 22) ltac:(lia)). pose proof (Z.mod_pos_bound x (2 ^ 22) ltac:(lia)). pose proof (Z.mod_pos_bound va (2 ^ 22) ltac:(lia)).
    pose proof (Z.div_mod top (2 ^ 22) ltac:(lia)). destruct (decide (x / 2 ^ 22 = va / 2 ^ 22)) as [E|E].
    + apply (table_index mc2 _ va); [by rewrite !pde_index_spec, E by done|]. apply (keeps_table own1 B1 mc1 own2 B2); done.
    + apply (table_index mc2 _ (va + 2 ^ 22)); [|apply H2; lia]. rewrite !pde_index_spec by (unfold word_va in *; lia). replace (va + 2 ^ 22) with (va + 1 * 2 ^ 22) by lia. rewrite Z.div_add by lia. lia.
Qed.

Lemma tables_kend own B mc (e : Z) : tables own B mc -> tables own B (set_kernel_end e mc).
Proof. intros [T1 T2 T3 T4 T5 T6 T7 T8 T9 T10]. by split. Qed.

Lemma rep_kend own B mc gv (e : Z) : rep own B mc gv -> rep own B (set_kernel_end e mc) gv.
Proof. intros [R1 R2 R3 R4 R5 R6]. split; try done; [by apply tables_kend|]. by apply (links_same mc); cbn; try done; eauto. Qed.

(** The end of kernel memory grows to a multiple of what a table maps. *)
Lemma growkernel_spec own B mc (top : Z) : tables own B mc -> PMAP_KERNEL_BEGIN <= vm_kernel_end mc -> vm_kernel_end mc < top -> top <= 2 ^ 32 - 2 ^ 22 ->
  let e := ceil_to top (2 ^ 22) in
  pmap_growkernel mc top = Fault NoMemory \/
  exists mc' own' B', pmap_growkernel mc top = Ok mc' /\ tables own' B' mc' /\ vm_kernel_end mc' = e /\ tables_upto mc' (vm_kernel_end mc) e /\
    exists mc1, mc' = set_kernel_end e mc1 /\ keeps own B mc own' B' mc1 /\ forall va', page_va va' -> mapped mc' pmap_kernel va' = mapped mc pmap_kernel va'.
Proof.
  intros T Hb Hlt Htop e. unfold pmap_growkernel. rewrite (proj2 (Z.ltb_lt _ _) Hlt). cbn [assert mbind outcome_bind]. rewrite roundup2_spec by (unfold PMAP_KERNEL_BEGIN in *; lia). fold e.
  destruct (ceil_to_spec top (2 ^ 22) ltac:(lia)) as [He Hm]. fold e in He, Hm. pose proof (ceil_to_least top (2 ^ 22) (2 ^ 32 - 2 ^ 22) ltac:(lia) Htop eq_refl) as Hle. fold e in Hle.
  destruct (grow_loop_spec e (Z.to_nat PT_ENTRIES) Hle Hm own B mc (vm_kernel_end mc) T Hb) as [-> |(mc1 & own1 & B1 & -> & T1 & K1 & H1 & M1)]; [|by left|right].
  { change (Z.of_nat (Z.to_nat PT_ENTRIES)) with 1024. unfold PMAP_KERNEL_BEGIN in *. lia. }
  cbn [mbind outcome_bind]. eexists _, own1, B1. split; [done|]. split; [by apply tables_kend|]. split; [done|]. split; [exact H1|]. exists mc1. by split_and!.
Qed.

(** ** Theorems *)

(** C39: A page entered in the kernel's map is found by extraction at each of its addresses,
    all other kernel addresses and all user maps stay as they are.  It can only fail for
    lack of memory, and only where there is no table yet. *)
Theorem pmap_kenter_correct mc gv va pa pr cflags : represents mc gv -> kern_va va -> page_aligned_p va = true -> page_aligned_p pa = true -> 0 < pa < 2 ^ 32 -> 0 <= pr <= 7 ->
  (~ has_table mc pmap_kernel va /\ pmap_kenter mc va pa pr cflags = Fault NoMemory) \/
  exists mc', pmap_kenter mc va pa pr cflags = Ok mc' /\ represents mc' gv /\
    forall x, kern_va x -> pmap_kextract mc' x = if decide (page_of x = va) then Ok (Some (pa + x `mod` PAGESIZE)) else pmap_kextract mc x.
Proof.
  intros (own & B & R) Hva Hal Hpa Hr Hpr. pose proof (rp_tables _ _ _ _ R) as T. destruct (kenter_spec own B mc va pa pr cflags T Hva Hal Hpa Hr Hpr) as [?|(mc' & own' & B' & E & T' & K & M)]; [by left|right].
  exists mc'. split; [done|]. split; [exists own', B'; by apply (keeps_rep own B mc)|]. intros x Hx. destruct (kern_page x Hx) as [Hp1 Hp2].
  rewrite (kextract_spec own' B' mc' x T' Hx), (kextract_spec own B mc x T Hx), (M (page_of x) (conj (kern_word _ Hp1) Hp2)). case_decide; [by rewrite (proj2 (Z.eqb_neq pa 0)), lor_offset by (done || lia)|done].
Qed.

(** C40: Growing kernel memory, to an address up to [2 ^ 32 - 2 ^ 22], moves its end to the next multiple of what a table maps, above the
    requested address, and provides every address up to there with a table, so that no
    later mapping of it can fail.  No kernel address and no user map changes what it
    stands for; the only failure is a lack of pages. *)
Theorem pmap_growkernel_correct mc gv (top : Z) : represents mc gv -> PMAP_KERNEL_BEGIN <= vm_kernel_end mc < top -> top <= 2 ^ 32 - 2 ^ 22 ->
  pmap_growkernel mc top = Fault NoMemory \/
  exists mc', pmap_growkernel mc top = Ok mc' /\ represents mc' gv /\ top <= vm_kernel_end mc' < top + 2 ^ 22 /\ vm_kernel_end mc' `mod` 2 ^ 22 = 0 /\
    tables_upto mc' (vm_kernel_end mc) (vm_kernel_end mc') /\ forall x, kern_va x -> pmap_kextract mc' x = pmap_kextract mc x.
Proof.
  intros (own & B & R) Hb Htop. pose proof (rp_tables _ _ _ _ R) as T. destruct (growkernel_spec own B mc top T ltac:(lia) ltac:(lia) Htop) as [?|(mc' & own' & B' & E & T' & He & Ht & mc1 & E1 & K & M)]; [by left|right].
  exists mc'. split; [done|]. split; [|split_and!].
  - exists own', B'. assert (tables own' B' mc1) as T1. { apply (tables_kend own' B' mc' (vm_kernel_end mc1)) in T'. rewrite E1 in T'. by destruct mc1. }
    rewrite E1. apply rep_kend. by apply (keeps_rep own B mc).
  - rewrite He. apply ceil_to_spec. lia.
  - rewrite He. apply ceil_to_spec. lia.
  - rewrite He. apply ceil_to_spec. lia.
  - by rewrite He.
  - intros x Hx. destruct (kern_page x Hx) as [Hp1 Hp2]. by rewrite (kextract_spec own' B' mc' x T' Hx), (kextract_spec own B mc x T Hx), (M (page_of x) (conj (kern_word _ Hp1) Hp2)).
Qed.

Lemma boot_represents : represents boot_machine boot_view.
Proof. exists boot_own, (sample_blocks BFree). apply boot_rep. Qed.

Lemma pmap_kenter_witness : exists mc', pmap_kenter boot_machine 0xc0001000 0x9000 3 0 = Ok mc' /\ pmap_kextract mc' 0xc0001234 = Ok (Some 0x9234).
Proof.
  assert (kern_va 0xc0001000 /\ kern_va 0xc0001234) as [Hk Hk'] by (unfold kern_va, PMAP_KERNEL_BEGIN, PMAP_KERNEL_END; lia).
  destruct (pmap_kenter_correct boot_machine boot_view 0xc0001000 0x9000 3 0 boot_represents Hk eq_refl eq_refl ltac:(lia) ltac:(lia)) as [[_ E]|(mc' & E & _ & H)].
  - apply (f_equal is_ok) in E. vm_compute in E. discriminate E.
  - exists mc'. split; [exact E|]. rewrite (H 0xc0001234 Hk'). reflexivity.
Defined.

Lemma pmap_growkernel_witness : exists mc', pmap_growkernel boot_machine 0xc0001000 = Ok mc' /\ vm_kernel_end mc' `mod` 2 ^ 22 = 0 /\ has_table mc' pmap_kernel 0xc0000000.
Proof.
  assert (PMAP_KERNEL_BEGIN <= vm_kernel_end boot_machine < 0xc0001000) as Hb by (unfold PMAP_KERNEL_BEGIN; cbn [vm_kernel_end boot_machine]; lia).
  destruct (pmap_growkernel_correct boot_machine boot_view 0xc0001000 boot_represents Hb ltac:(lia)) as [E|(mc' & E & _ & H1 & H2 & H3 & _)].
  - apply (f_equal is_ok) in E. vm_compute in E. discriminate E.
  - exists mc'. split; [exact E|]. split; [exact H2|]. apply H3. clear - H1. cbn [vm_kernel_end boot_machine]. lia.
Defined.

Lemma grow_none (fuel : nat) mc va (top : Z) : top <= va -> grow_loop fuel mc va top = Ok mc.
Proof. intros H. destruct fuel; cbn [grow_loop]; by rewrite (proj2 (Z.ltb_ge _ _) H). Qed.

(** A request near the top of the address space is rounded to zero: no table is made, and the end
    of kernel memory becomes zero. *)
Lemma growkernel_wraps mc : 0 <= vm_kernel_end mc < 0xffd00000 -> pmap_growkernel mc 0xffd00000 = Ok (set_kernel_end 0 mc).
Proof.
  intros [H1 H2]. unfold pmap_growkernel. rewrite (proj2 (Z.ltb_lt _ _) H2). cbn [assert mbind outcome_bind]. change (roundup2 0xffd00000 L1_SPACE_SIZE) with 0.
  by rewrite (grow_none (Z.to_nat PT_ENTRIES) mc _ _ H1).
Qed.
