(* ===== verification/Kmem.v ===== *)
(** * Kernel memory (sys/kern/kmem.c)

    Memory of the kernel is a range of addresses of the arena [kvspace], an arena of
    Vmem.v, behind which there are pages of the allocator of Physmem.v, entered in the
    page tables of PmapKernel.v.  The results: an allocation returns addresses that no
    other block has, backed page by page by memory that nobody else uses, and freeing it
    gives both back.  Arena, tables and page allocator stay consistent, and user maps do
    not change.

    The pool of boundary tags, of which [vmem_alloc] needs one, is not part of the
    model: [tag] says whether it has one.  The shadow memory of the address sanitizer is
    not modelled, and threads do not interfere. *)

From S2P Require Import Prelude Bitstr Vmem Machine Physmem Pmap PmapHw PmapKernel.

#[local] Existing Instance mips.

Record kmem := Kmem {
  kvspace : vmem;
  kmach : machine;
}.

Implicit Types (km : kmem) (mc : machine) (pm va pg : Z) (m : physmem) (B : blocks) (p : vm_page) (own : gmap Z owner).

Definition set_kmach mc km : kmem := Kmem (kvspace km) mc.
Definition set_kvspace (vs : vmem) km : kmem := Kmem vs (kmach km).

(** ** Addresses *)

Definition kick_swapper {A} : outcome A := panic.

Section tags.
Context (tag : bool).

(** The loop of [kva_alloc]. *)
Fixpoint kva_alloc_loop (fuel : nat) km (old size : Z) : outcome (Z * kmem) :=
  '(err, start, vs) ← vmem_alloc (kvspace km) size tag;
  let km := set_kvspace vs km in
  if err =? 0 then
    _ ← assert (negb (start =? 0));
    Ok (start, km)
  else
    match fuel with
    | O => Fault OutOfFuel
    | S fuel =>
        if old <? vm_kernel_end (kmach km) then kva_alloc_loop fuel km (vm_kernel_end (kmach km)) size
        else
          mc ← pmap_growkernel (kmach km) (wrap (old + size));
          vs ← vmem_add (kvspace km) old (wrap (vm_kernel_end mc - old));
          kva_alloc_loop fuel (Kmem vs mc) old size
    end.

Definition kva_alloc (fuel : nat) km (size : Z) : outcome (Z * kmem) :=
  _ ← assert (page_aligned_p size);
  kva_alloc_loop fuel km (vm_kernel_end (kmach km)) size.

Definition kva_free km (ptr size : Z) : outcome kmem :=
  _ ← assert (page_aligned_p ptr && page_aligned_p size);
  vs ← vmem_free (kvspace km) ptr size;
  Ok (set_kvspace vs km).

(** ** Pages *)

Fixpoint kva_map_page (n : nat) mc va (pa flags : Z) : outcome machine :=
  match n with
  | O => Ok mc
  | S n =>
      mc ← pmap_kenter mc va pa (Z.lor VM_PROT_READ VM_PROT_WRITE) flags;
      kva_map_page n mc (wrap (va + PAGESIZE)) (wrap (pa + PAGESIZE)) flags
  end.

Fixpoint map_pages mc va (pglist : list Z) : outcome machine :=
  match pglist with
  | [] => Ok mc
  | pg :: pglist =>
      p ← get_page mc pg;
      mc ← kva_map_page (Z.to_nat (pg_size p)) mc va (paddr p) 0;
      map_pages mc (wrap (va + pg_size p * PAGESIZE)) pglist
  end.

(** [bzero] on whole pages of mapped memory. *)
Fixpoint bzero_pages (n : nat) mc va : outcome machine :=
  match n with
  | O => Ok mc
  | S n =>
      found ← pmap_kextract mc va;
      pa ← some_of found;
      bzero_pages n (set_ram (<[pa := zero_page]> (ram mc)) mc) (wrap (va + PAGESIZE))
  end.

Definition M_ZERO : Z := 2.
Definition M_NOGROW : Z := 4.

Definition kva_map mc (ptr size flags : Z) : outcome machine :=
  _ ← assert (page_aligned_p ptr && page_aligned_p size);
  '(err, pglist, m) ← vm_pagelist_alloc (phys mc) (size / PAGESIZE);
  if negb (err =? 0) then kick_swapper
  else
    mc ← map_pages (set_phys m mc) ptr pglist;
    if flag_on flags M_ZERO then bzero_pages (Z.to_nat (size / PAGESIZE)) mc ptr else Ok mc.

Definition kva_find_page mc (ptr : Z) : outcome (option Z) :=
  found ← pmap_extract mc pmap_kernel ptr;
  match found with
  | Some pa => Ok (vm_page_find (phys mc) pa)
  | None => Ok None
  end.

(** The loop of [kva_unmap]: each page it finds takes it at least a page further. *)
Fixpoint find_pages (fuel : nat) mc va (fin : Z) (pglist : list Z) : outcome (list Z) :=
  if va <? fin then
    match fuel with
    | O => Fault OutOfFuel
    | S fuel =>
        found ← kva_find_page mc va;
        match found with
        | None => Fault AssertFailed
        | Some pg =>
            p ← get_page mc pg;
            find_pages fuel mc (wrap (va + pg_size p * PAGESIZE)) fin (pglist ++ [pg])
        end
    end
  else Ok pglist.

Definition kva_unmap mc (ptr size : Z) : outcome machine :=
  _ ← assert (page_aligned_p ptr && page_aligned_p size);
  pglist ← find_pages (Z.to_nat (size / PAGESIZE)) mc ptr (wrap (ptr + size)) [];
  mc ← pmap_kremove mc ptr size;
  m ← vm_pagelist_free (phys mc) pglist;
  Ok (set_phys m mc).

(** ** Memory *)

(** One thread needs at most one round to grow the arena. *)
Definition kva_rounds : nat := 1.

Definition kmem_alloc km (size flags : Z) : outcome (Z * kmem) :=
  _ ← assert (page_aligned_p size);
  _ ← assert (negb (flag_on flags M_NOGROW));
  '(va, km) ← kva_alloc kva_rounds km size;
  mc ← kva_map (kmach km) va size flags;
  Ok (va, set_kmach mc km).

Definition kmem_map_contig km (pa size flags : Z) : outcome (Z * kmem) :=
  _ ← assert (page_aligned_p pa && page_aligned_p size);
  '(va, km) ← kva_alloc kva_rounds km size;
  mc ← kva_map_page (Z.to_nat (size / PAGESIZE)) (kmach km) va pa flags;
  Ok (va, set_kmach mc km).

(** The address, zero if there are no pages, and the physical address. *)
Definition kmem_alloc_contig km (size flags : Z) : outcome (Z * Z * kmem) :=
  _ ← assert (page_aligned_p size && powerof2 size);
  '(pg, m) ← vm_page_alloc (phys (kmach km)) (size / PAGESIZE);
  let km := set_kmach (set_phys m (kmach km)) km in
  match pg with
  | None => Ok (0, 0, km)
  | Some pg =>
      p ← get_page (kmach km) pg;
      '(va, km) ← kmem_map_contig km (paddr p) size flags;
      Ok (va, paddr p, km)
  end.

Definition kmem_free km (ptr size : Z) : outcome kmem :=
  mc ← kva_unmap (kmach km) ptr size;
  vs ← vmem_free (kvspace km) ptr size;
  Ok (Kmem vs mc).
End tags.

(** ** The invariant *)

(** All addresses of the arena have tables and lie below the end of kernel memory. *)
Record kmem_ok own B km : Prop := {
  ko_tables : tables own B (kmach km);
  ko_vmem : vmem_inv (kvspace km);
  ko_quantum : vm_quantum (kvspace km) = PAGESIZE;
  ko_end : page_aligned_p (vm_kernel_end (kmach km)) = true /\ PMAP_KERNEL_BEGIN <= vm_kernel_end (kmach km) <= 2 ^ 32 - 2 ^ 22;
  ko_span s n : 0 < n -> in_span (kvspace km) s n -> PMAP_KERNEL_BEGIN <= s /\ s + n <= vm_kernel_end (kmach km);
  ko_table va : in_span (kvspace km) va 1 -> has_table (kmach km) pmap_kernel va;
}.

(** What is in use stays so, and users do not notice. *)
Record onward own B mc own' B' mc' : Prop := {
  on_rep gv : rep own B mc gv -> rep own' B' mc' gv;
  on_used h k : B !! h = Some (k, BUsed) -> B' !! h = Some (k, BUsed);
  on_own a o : own !! a = Some o -> own' !! a = Some o;
  on_table va : word_va va -> has_table mc pmap_kernel va -> has_table mc' pmap_kernel va;
}.

Lemma onward_refl own B mc : onward own B mc own B mc.
Proof. by split. Qed.

Lemma onward_trans own B mc own1 B1 mc1 own2 B2 mc2 : onward own B mc own1 B1 mc1 -> onward own1 B1 mc1 own2 B2 mc2 -> onward own B mc own2 B2 mc2.
Proof. intros [A1 A2 A3 A4] [C1 C2 C3 C4]. split; auto. Qed.

Lemma keeps_onward own B mc own' B' mc' : tables own' B' mc' -> keeps own B mc own' B' mc' -> onward own B mc own' B' mc'.
Proof.
  intros T K. pose proof (kp_extends _ _ _ _ _ _ K) as X. split.
  - intros gv R. by apply (keeps_rep own B mc).
  - intros h k. apply (ex_held _ _ _ _ _ _ _ X).
  - intros a o. apply (ex_free _ _ _ _ _ _ _ X).
  - intros va Hva. by apply (ex_table _ _ _ _ _ _ _ X).
Qed.

Lemma kend_onward own B mc (e : Z) : onward own B mc own B (set_kernel_end e mc).
Proof. split; try done. intros gv. apply rep_kend. Qed.

Lemma span_sub vm s n s' n' : in_span vm s n -> s <= s' -> s' + n' <= s + n -> in_span vm s' n'.
Proof. intros (b & H1 & H2 & H3 & H4) Hs Hn. exists b. split_and!; try done; lia. Qed.

(** ** Addresses *)

Lemma page_mod x : page_aligned_p x = true <-> x `mod` PAGESIZE = 0.
Proof. apply (is_aligned_pow2 x 12). lia. Qed.

Lemma vmem_alloc_km own B km size : kmem_ok own B km -> page_aligned_p size = true -> 0 < size < 2 ^ 32 ->
  (vmem_alloc (kvspace km) size true = Ok (ENOMEM, 0, kvspace km) /\
     forall a, in_span (kvspace km) a size -> exists x s n, a <= x < a + size /\ block (kvspace km) s n /\ s <= x < s + n) \/
  exists va vs, vmem_alloc (kvspace km) size true = Ok (0, va, vs) /\ alloc_result (kvspace km) size va vs.
Proof.
  intros K Hal Hs. assert (ceil_to size (vm_quantum (kvspace km)) = size) as E.
  { rewrite (ko_quantum _ _ _ K). apply page_mod in Hal. pose proof (ceil_to_least size PAGESIZE size ltac:(done) ltac:(lia) Hal). pose proof (ceil_to_spec size PAGESIZE ltac:(done)). lia. }
  pose proof (alloc_spec (kvspace km) size (ko_vmem _ _ _ K) ltac:(lia)) as H. cbn zeta in H. rewrite E in H. apply H. cbn. lia.
Qed.

(** A block of addresses that was free is taken. *)
Record kva_result km (size va : Z) km' : Prop := {
  kr_start : in_span (kvspace km') va size /\ page_aligned_p va = true;
  kr_disjoint s n : block (kvspace km) s n -> s + n <= va \/ va + size <= s;
  kr_blocks s n : block (kvspace km') s n <-> block (kvspace km) s n \/ (s = va /\ n = size);
}.

Lemma take_km own B km size va vs : kmem_ok own B km -> alloc_result (kvspace km) size va vs -> kmem_ok own B (set_kvspace vs km) /\ kva_result km size va (set_kvspace vs km).
Proof.
  intros [K1 K2 K3 K4 K5 K6] [A1 A2 A3 A4 A5 A6 A7]. split.
  - split; cbn [kvspace kmach set_kvspace]; try done; [congruence| |].
    + intros s n Hn H. apply K5; [done|]. by apply A7.
    + intros x H. apply K6. by apply A7.
  - split; cbn [kvspace kmach set_kvspace]; try done. split; [by apply A7|]. apply page_mod. by rewrite <- K3.
Qed.

(** The arena gets the addresses up to the new end. *)
Lemma grow_km own B km size : kmem_ok own B km -> 0 < size -> vm_kernel_end (kmach km) + size <= 2 ^ 32 - 2 ^ 22 ->
  let old := vm_kernel_end (kmach km) in
  let r := (mc ← pmap_growkernel (kmach km) (wrap (old + size)); vs ← vmem_add (kvspace km) old (wrap (vm_kernel_end mc - old)); Ok (Kmem vs mc)) in
  r = Fault NoMemory \/
  exists km' own' B', r = Ok km' /\ kmem_ok own' B' km' /\ onward own B (kmach km) own' B' (kmach km') /\ in_span (kvspace km') old size /\
    (forall s n, block (kvspace km') s n <-> block (kvspace km) s n) /\
    forall va', page_va va' -> mapped (kmach km') pmap_kernel va' = mapped (kmach km) pmap_kernel va'.
Proof.
  intros [K1 K2 K3 [K4 K4'] K5 K6] Hs Hle old. cbn zeta. fold old in K4, K4', Hle, K5 |- *. rewrite wrap_small by (unfold in_word, PMAP_KERNEL_BEGIN in *; cbn; lia).
  destruct (growkernel_spec own B (kmach km) (old + size) K1 ltac:(lia) ltac:(lia) Hle) as [-> |(mc' & own' & B' & -> & T' & He & Ht & mc1 & E1 & Kp & M)]; [by left|right].
  cbn [mbind outcome_bind]. fold old in Ht. set (e := ceil_to (old + size) (2 ^ 22)) in *. destruct (ceil_to_spec (old + size) (2 ^ 22) ltac:(lia)) as [Hc Hm]. fold e in Hc, Hm.
  pose proof (ceil_to_least (old + size) (2 ^ 22) (2 ^ 32 - 2 ^ 22) ltac:(lia) Hle eq_refl) as Hle'. fold e in Hle'. rewrite He.
  assert (old `mod` PAGESIZE = 0) as Hom by (by apply page_mod). assert (e `mod` PAGESIZE = 0) as Hem.
  { apply Z.mod_divide in Hm; [|lia]. destruct Hm as [q ->]. change (2 ^ 22) with (2 ^ 10 * PAGESIZE). rewrite Z.mul_assoc. by apply Z.mod_mul. }
  rewrite wrap_small by (unfold in_word, PMAP_KERNEL_BEGIN in *; cbn; lia).
  destruct (add_spec (kvspace km) old (e - old) K2) as (vs & -> & V1 & V2 & V3 & V4); rewrite ?K3; try done; try (unfold PMAP_KERNEL_BEGIN in *; cbn; lia).
  { rewrite Zminus_mod, Hem, Hom. done. }
  { intros s n Hn H. destruct (K5 s n Hn H). left. lia. }
  cbn [mbind outcome_bind]. exists (Kmem vs mc'), own', B'. split; [done|].
  assert (tables own' B' mc1) as T1. { apply (tables_kend own' B' mc' (vm_kernel_end mc1)) in T'. rewrite E1 in T'. by destruct mc1. }
  assert (onward own B (kmach km) own' B' mc') as On by (rewrite E1; apply (onward_trans _ _ _ own' B' mc1); [by apply keeps_onward|apply kend_onward]).
  split_and!; try done; cbn [kvspace kmach].
  - split; cbn [kvspace kmach]; rewrite ?He; try done; [congruence| | |].
    + split; [by apply page_mod|]. lia.
    + intros s n Hn H. apply V4 in H as [H|H]; [destruct (K5 s n Hn H); lia|lia].
    + intros va H. apply V4 in H as [H|H]; [|apply Ht; lia]. apply (on_table _ _ _ _ _ _ On); [|by apply K6]. destruct (K5 va 1 ltac:(lia) H). unfold word_va, PMAP_KERNEL_BEGIN in *. lia.
  - apply V4. right. lia.
Qed.

Lemma vmem_block_span (vm : vmem) s n : vmem_inv vm -> block vm s n -> 0 < n /\ in_span vm s n.
Proof.
  intros I (b & Hb & Hbusy & <- & <-). destruct (seg_size_ok vm b I Hb) as [Hbs _]. split; [lia|]. apply seg_in_span; try done. by rewrite Hbusy.
Qed.

Lemma kva_loop_ok (fuel : nat) own B km (old size : Z) va vs : kmem_ok own B km -> 0 < size -> vmem_alloc (kvspace km) size true = Ok (0, va, vs) -> alloc_result (kvspace km) size va vs ->
  kva_alloc_loop true fuel km old size = Ok (va, set_kvspace vs km).
Proof.
  intros K Hs E A. assert (va <> 0) as Hva. { destruct (ko_span _ _ _ K va size Hs (ar_span _ _ _ _ A)). unfold PMAP_KERNEL_BEGIN in *. lia. }
  destruct fuel; cbn [kva_alloc_loop]; rewrite E; cbn [mbind outcome_bind]; by rewrite (proj2 (Z.eqb_neq va 0)).
Qed.

Lemma kva_alloc_spec own B km size : kmem_ok own B km -> page_aligned_p size = true -> 0 < size -> vm_kernel_end (kmach km) + size <= 2 ^ 32 - 2 ^ 22 ->
  kva_alloc true kva_rounds km size = Fault NoMemory \/
  exists va km' own' B', kva_alloc true kva_rounds km size = Ok (va, km') /\ kmem_ok own' B' km' /\ kva_result km size va km' /\ onward own B (kmach km) own' B' (kmach km') /\
    forall va', page_va va' -> mapped (kmach km') pmap_kernel va' = mapped (kmach km) pmap_kernel va'.
Proof.
  intros K Hal Hs Hle. assert (0 < size < 2 ^ 32) as Hs' by (destruct (ko_end _ _ _ K) as [_ H]; unfold PMAP_KERNEL_BEGIN in *; lia).
  unfold kva_alloc, kva_rounds. rewrite Hal. cbn [assert mbind outcome_bind]. set (old := vm_kernel_end (kmach km)).
  destruct (vmem_alloc_km own B km size K Hal Hs') as [[E Hno]|(va & vs & E & A)].
  - pose proof (grow_km own B km size K Hs Hle) as G. cbn zeta in G. fold old in G. cbn [kva_alloc_loop]. rewrite E. cbn [mbind outcome_bind].
    change (ENOMEM =? 0) with false. assert (set_kvspace (kvspace km) km = km) as -> by (by destruct km). cbn iota. fold old. rewrite Z.ltb_irrefl.
    destruct (pmap_growkernel (kmach km) (wrap (old + size))) as [mc|f]; cbn [mbind outcome_bind] in *; [|destruct G as [[= ->]|(? & ? & ? & ? & _)]; [by left|done]].
    destruct (vmem_add (kvspace km) old (wrap (vm_kernel_end mc - old))) as [vs|f]; cbn [mbind outcome_bind] in *; [|destruct G as [[= ->]|(? & ? & ? & ? & _)]; [by left|done]].
    destruct G as [|(km1 & own1 & B1 & [= <-] & K1 & On & Hin & Hb & M)]; [done|right].
    destruct (vmem_alloc_km own1 B1 (Kmem vs mc) size K1 Hal Hs') as [[_ Hno']|(va & vs1 & E1 & A1)].
    + exfalso. destruct (Hno' old Hin) as (x & s & n & Hx & Hbl & Hsx). destruct (vmem_block_span _ s n (ko_vmem _ _ _ K)) as [Hn Hsp]; [by apply Hb|]. destruct (ko_span _ _ _ K s n Hn Hsp). lia.
    + pose proof (kva_loop_ok 0 own1 B1 (Kmem vs mc) old size va vs1 K1 Hs E1 A1) as EL. cbn [kva_alloc_loop] in EL. rewrite EL.
      destruct (take_km own1 B1 (Kmem vs mc) size va vs1 K1 A1) as [K2 [R1 R2 R3]]. exists va, (Kmem vs1 mc), own1, B1. split_and!; try done. split; try done.
      * intros s n H. apply R2. by apply Hb.
      * intros s n. by rewrite R3, Hb.
  - right. rewrite (kva_loop_ok 1 own B km old size va vs K Hs E A). destruct (take_km own B km size va vs K A) as [K' R]. exists va, (set_kvspace vs km), own, B.
    by split_and!.
Qed.

(** ** Pages *)

Lemma collect_kept (fuel : nat) : forall m fl n sums l r m', collect fuel m fl n sums l = Ok (r, m') -> kept m m'.
Proof.
  induction fuel as [|fuel IH]; intros m fl n sums l r m'; cbn [collect]; destruct (0 <? n); try done; [by intros [= _ <-]; apply kept_refl| |by intros [= _ <-]; apply kept_refl].
  intros E. outcome_inv. destruct (n <=? _); [by apply IH in E|]. destruct (n <? _).
  - outcome_inv. apply IH in E. apply (kept_trans _ v0); [by eapply split_page_kept|done].
  - outcome_inv. destruct v0 as [pg m1]. apply IH in E. apply (kept_trans _ m1); [by eapply take_page_kept|done].
Qed.

Lemma pagelist_alloc_kept m n e l m' : vm_pagelist_alloc m n = Ok (e, l, m') -> kept m m'.
Proof.
  unfold vm_pagelist_alloc. destruct (list_sums _ _ _ _ _) as [[fl sum] sums]. destruct (sum <? n); [intros [= _ _ <-]; apply kept_refl|].
  intros E. outcome_inv. destruct v as [l' m1]. injection E as <- <- <-. by eapply collect_kept.
Qed.

Lemma pagelist_free_kept (l : list Z) : forall m m', vm_pagelist_free m l = Ok m' -> kept m m'.
Proof.
  induction l as [|pg l IH]; intros m m'; cbn [vm_pagelist_free]; [intros [= <-]; apply kept_refl|]. intros E. outcome_inv. apply IH in E. apply (kept_trans _ v); [by eapply page_free_kept|done].
Qed.

(** The addresses of the pages of a block *)
Lemma block_frames m B pg k st p : pm_inv m B -> B !! pg = Some (k, st) -> pget m pg = Some p -> pg_size p = bsize k /\
  forall i, 0 <= i < bsize k -> exists q, pget m (pg + i) = Some q /\ paddr q = paddr p + i * PAGESIZE.
Proof.
  intros I Hb Hp. destruct (pm_block _ _ I _ _ _ Hb) as ((sg & Hsg & _ & Hin) & (p' & Hp' & Hsz) & Hall). assert (p' = p) as -> by congruence. split; [done|].
  intros i Hi. destruct (Hall (pg + i) ltac:(lia)) as (q & Hq & _). exists q. split; [done|]. pose proof (bsize_pos k). unfold in_seg in Hin.
  rewrite (so_paddr _ _ (pm_segs _ _ I) sg (pg + i) q), (so_paddr _ _ (pm_segs _ _ I) sg pg p); try done; unfold in_seg; lia.
Qed.

(** The pages that were handed out were mapped nowhere. *)
Lemma handed_empty m B m' B' bs pg k i p : pm_inv m B -> pm_inv m' B' -> kept m m' -> handed_out B B' bs -> (pg, k) ∈ bs -> pg <= i < pg + bsize k -> pget m' i = Some p ->
  pv_empty p = true.
Proof.
  intros I I' (Ks & Kl & K) (H1 & H2 & H3) Hin Hi Hp. destruct (K i p Hp) as (q & Hq & _ & ->).
  assert (B' !! pg = Some (k, BUsed)) as Hb' by (apply H3; by right). destruct (pm_block _ _ I' _ _ _ Hb') as ((sg & Hsg & Hu & Hin') & _). rewrite Ks in Hsg.
  destruct (pm_cover _ _ I sg i Hsg Hu) as (h & j & st & Hb & Hh). { unfold in_seg in *. lia. }
  destruct (pm_block _ _ I _ _ _ Hb) as (_ & _ & Hall). destruct (Hall i Hh) as (q' & Hq' & Hst). assert (q' = q) as -> by congruence.
  destruct st; [by destruct Hst| |done]. exfalso. assert (B' !! h = Some (j, BUsed)) as Hb2 by (apply H3; by left).
  assert (h <> pg) as Hne. { intros ->. apply (H2 pg) with j; [|done]. apply list_elem_of_fmap. by exists (pg, k). }
  destruct (pm_apart _ _ I' _ _ _ _ _ _ Hb2 Hb' Hne); lia.
Qed.

(** Page frames are handed out or taken back. *)
Lemma phys_rep own B mc m B' : tables own B mc -> pm_inv m B' -> kept (phys mc) m -> (forall pg a o, own !! a = Some o -> held (phys mc) B pg a -> held m B' pg a) ->
  tables own B' (set_phys m mc) /\ forall gv, rep own B mc gv -> rep own B' (set_phys m mc) gv.
Proof.
  intros T I K Hh. assert (tables own B' (set_phys m mc)) as T' by (by apply (tables_phys own B)). split; [done|].
  intros gv R. rewrite <- (set_maps_id gv). apply (rep_follows own B mc); try done.
  - split; try done. intros pg a Ha. by apply (Hh pg a OData).
  - apply (links_same mc); cbn; try done; try lia; eauto; [apply R|]. intros pg p' H. destruct K as (_ & _ & K). destruct (K pg p' H) as (q & Hq & _ & ?). by exists q.
  - intros pm P va HP Hk Hva. rewrite (mapped_eq mc) by done. by apply (rp_maps _ _ _ _ R pm P).
  - apply R.
Qed.

Lemma phys_onward own B mc m B' : tables own B mc -> pm_inv m B' -> kept (phys mc) m -> (forall h k, B !! h = Some (k, BUsed) -> B' !! h = Some (k, BUsed)) ->
  tables own B' (set_phys m mc) /\ onward own B mc own B' (set_phys m mc).
Proof.
  intros T I K HB. destruct (phys_rep own B mc m B' T I K) as [T' R]; [|by split].
  intros pg a o _ H. apply (held_kept (phys mc) B); try done. apply HB. by destruct H.
Qed.

(** Words of the tables of the kernel change. *)
Record retable own B mc (r : gmap Z (list Z)) : Prop := {
  rt_tables : tables own B (set_ram r mc);
  rt_keeps : keeps own B mc own B (set_ram r mc);
  rt_ram a : own !! a = None -> r !! a = ram mc !! a;
}.

Lemma set_ram_id mc : set_ram (ram mc) mc = mc.
Proof. by destruct mc. Qed.

Lemma retable_refl own B mc : tables own B mc -> retable own B mc (ram mc).
Proof. intros T. split; rewrite ?set_ram_id; try done. by apply keeps_refl. Qed.

Lemma retable_trans own B mc r1 r2 : retable own B mc r1 -> retable own B (set_ram r1 mc) r2 -> retable own B mc r2.
Proof.
  intros [T1 K1 A1] [T2 K2 A2]. split; [done|by apply (keeps_trans _ _ _ own B (set_ram r1 mc))|]. intros a Ha. rewrite A2 by done. by apply A1.
Qed.

Lemma retable_upto own B mc r (s e : Z) : retable own B mc r -> PMAP_KERNEL_BEGIN <= s -> e <= 2 ^ 32 -> tables_upto mc s e -> tables_upto (set_ram r mc) s e.
Proof. intros [_ K _]. by apply (keeps_upto own B mc own B). Qed.

Definition RW : Z := Z.lor VM_PROT_READ VM_PROT_WRITE.

(** Contiguous memory is entered. *)
Lemma map_page_spec own B flags (n : nat) : forall mc va pa, tables own B mc -> PMAP_KERNEL_BEGIN <= va -> va + PAGESIZE * Z.of_nat n <= 2 ^ 32 - 2 ^ 22 -> page_aligned_p va = true ->
  page_aligned_p pa = true -> 0 < pa -> pa + PAGESIZE * Z.of_nat n < 2 ^ 32 -> tables_upto mc va (va + PAGESIZE * Z.of_nat n) ->
  exists r, kva_map_page n mc va pa flags = Ok (set_ram r mc) /\ retable own B mc r /\
    forall va', page_va va' -> mapped (set_ram r mc) pmap_kernel va' = if decide (va <= va' < va + PAGESIZE * Z.of_nat n) then Some (pa + (va' - va), RW) else mapped mc pmap_kernel va'.
Proof.
  induction n as [|n IH]; intros mc va pa T Hva Hn Hal Hpa Hp0 Hpn Ht; cbn [kva_map_page].
  - exists (ram mc). split; [by rewrite set_ram_id|]. split; [by apply retable_refl|]. intros va' _. rewrite set_ram_id, decide_False; [done|]. lia.
  - assert (PAGESIZE * Z.of_nat (S n) = PAGESIZE + PAGESIZE * Z.of_nat n) as En by lia. rewrite En in *. clear En. assert (0 <= PAGESIZE * Z.of_nat n) as Hn0 by (unfold PAGESIZE; lia).
    assert (kern_va va) as Hkv by (unfold kern_va, PMAP_KERNEL_END, PAGESIZE in *; lia).
    destruct (kenter_table own B mc va pa RW flags T Hkv Hal Hpa ltac:(unfold PAGESIZE in *; lia) ltac:(done) ltac:(apply Ht; unfold PAGESIZE in *; lia)) as (r1 & E1 & T1 & K1 & A1 & M1).
    fold RW. rewrite E1. cbn [mbind outcome_bind]. assert (retable own B mc r1) as X1 by done.
    rewrite !wrap_small by (unfold in_word, PMAP_KERNEL_BEGIN, PAGESIZE in *; cbn; lia).
    destruct (IH (set_ram r1 mc) (va + PAGESIZE) (pa + PAGESIZE) T1) as (r & -> & X2 & M2); [unfold PAGESIZE in *; lia|lia|by apply aligned_step|by apply aligned_step|unfold PAGESIZE in *; lia|lia| |].
    { rewrite <- Z.add_assoc. apply (retable_upto own B mc); [done|unfold PAGESIZE in *; lia|lia|]. intros x Hx. apply Ht. unfold PAGESIZE in *. lia. }
    change (set_ram r (set_ram r1 mc)) with (set_ram r mc) in *. exists r. split; [done|]. split; [by apply (retable_trans _ _ _ r1)|]. intros va' Hva'. rewrite (M2 va' Hva'), (M1 va' Hva').
    pose proof (aligned_div va Hal). pose proof (aligned_div va' (proj2 Hva')). unfold PAGESIZE in *.
    repeat case_decide; try lia; try done; [do 2 f_equal; lia|subst va'; do 2 f_equal; lia].
Qed.

(** A range of addresses behind which there are the pages of some blocks *)
Fixpoint backed mc B va (bs : list (Z * nat)) : Prop :=
  match bs with
  | [] => True
  | (pg, k) :: bs =>
      B !! pg = Some (k, BUsed) /\
      (exists p, pget (phys mc) pg = Some p /\ forall i, 0 <= i < bsize k -> mapped mc pmap_kernel (va + i * PAGESIZE) = Some (paddr p + i * PAGESIZE, RW)) /\
      backed mc B (va + bsize k * PAGESIZE) bs
  end.

Lemma total_pos bs : 0 <= total_size bs.
Proof. induction bs as [|[h k] bs IH]; cbn [total_size]; [lia|]. pose proof (bsize_pos k). lia. Qed.

Lemma block_top own B mc pg k p : tables own B mc -> B !! pg = Some (k, BUsed) -> pget (phys mc) pg = Some p ->
  page_aligned_p (paddr p) = true /\ 0 < paddr p /\ paddr p + bsize k * PAGESIZE <= 2 ^ 29.
Proof.
  intros T Hb Hp. destruct (block_frames (phys mc) B pg k BUsed p (tb_phys _ _ _ T) Hb Hp) as [_ H]. pose proof (bsize_pos k). destruct (H (bsize k - 1) ltac:(lia)) as (q & Hq & Eq).
  destruct (tb_frame _ _ _ T pg p Hp) as [[H1 H2] _], (tb_frame _ _ _ T _ q Hq) as [[H3 H4] _]. split_and!; try done; [lia|]. pose proof (aligned_div _ H3) as E3. unfold PAGESIZE in *. lia.
Qed.

Lemma map_pages_spec own B (bs : list (Z * nat)) : forall mc va, tables own B mc -> (forall pg k, (pg, k) ∈ bs -> B !! pg = Some (k, BUsed)) -> PMAP_KERNEL_BEGIN <= va ->
  va + total_size bs * PAGESIZE <= 2 ^ 32 - 2 ^ 22 -> page_aligned_p va = true -> tables_upto mc va (va + total_size bs * PAGESIZE) ->
  exists r, map_pages mc va bs.*1 = Ok (set_ram r mc) /\ retable own B mc r /\ backed (set_ram r mc) B va bs /\
    forall va', page_va va' -> ~ va <= va' < va + total_size bs * PAGESIZE -> mapped (set_ram r mc) pmap_kernel va' = mapped mc pmap_kernel va'.
Proof.
  induction bs as [|[pg k] bs IH]; intros mc va T Hbs Hva Htop Hal Ht; cbn [map_pages fmap list_fmap fst].
  - exists (ram mc). rewrite set_ram_id. split; [done|]. split; [by apply retable_refl|]. done.
  - cbn [total_size] in *. pose proof (bsize_pos k) as Hk. pose proof (total_pos bs) as Hts. assert (B !! pg = Some (k, BUsed)) as Hb by (apply Hbs; left).
    destruct (pm_block _ _ (tb_phys _ _ _ T) _ _ _ Hb) as (_ & (p & Hp & Hsz) & _). unfold get_page. rewrite (pget_get _ pg p) by done. cbn [mbind outcome_bind]. rewrite Hsz.
    destruct (block_top own B mc pg k p T Hb Hp) as (P1 & P2 & P3). assert (Z.of_nat (Z.to_nat (bsize k)) = bsize k) as En by lia.
    destruct (map_page_spec own B 0 (Z.to_nat (bsize k)) mc va (paddr p) T Hva) as (r1 & -> & X1 & M1); rewrite ?En; try done; try (unfold PAGESIZE in *; lia).
    { intros x Hx. apply Ht. unfold PAGESIZE in *. lia. }
    cbn [mbind outcome_bind]. rewrite En in M1. rewrite wrap_small by (unfold in_word, PMAP_KERNEL_BEGIN, PAGESIZE in *; cbn; lia).
    assert (page_aligned_p (va + bsize k * PAGESIZE) = true) as Hal' by (apply page_mod; apply page_mod in Hal; by rewrite Z.mod_add).
    destruct (IH (set_ram r1 mc) (va + bsize k * PAGESIZE) (rt_tables _ _ _ _ X1)) as (r & -> & X2 & Hbk & M2); [|unfold PAGESIZE in *; lia|unfold PAGESIZE in *; lia|done| |].
    { intros pg' k' H. apply Hbs. by right. }
    { apply (retable_upto own B mc); [done|unfold PAGESIZE in *; lia|unfold PAGESIZE in *; lia|]. intros x Hx. apply Ht. unfold PAGESIZE in *. lia. }
    change (set_ram r (set_ram r1 mc)) with (set_ram r mc) in *. exists r. split; [done|]. split; [by apply (retable_trans _ _ _ r1)|]. split.
    + cbn [backed]. split; [done|]. split; [|done]. exists p. split; [done|]. intros i Hi. assert (page_va (va + i * PAGESIZE)) as Hpv.
      { split; [unfold word_va, PMAP_KERNEL_BEGIN, PAGESIZE in *; lia|]. apply page_mod. apply page_mod in Hal. by rewrite Z.mod_add. }
      rewrite (M2 _ Hpv), (M1 _ Hpv) by (unfold PAGESIZE in *; lia). rewrite decide_True by (unfold PAGESIZE in *; lia). do 2 f_equal. lia.
    + intros va' Hva' Hout. rewrite (M2 va' Hva'), (M1 va' Hva') by (unfold PAGESIZE in *; lia). rewrite decide_False; [done|]. unfold PAGESIZE in *. lia.
Qed.

(** The pages of the blocks belong to nobody: they are no tables, no contents of objects,
    and they are not mapped by users. *)
Definition private own m (bs : list (Z * nat)) : Prop :=
  forall pg k i q, (pg, k) ∈ bs -> 0 <= i < bsize k -> pget m (pg + i) = Some q -> own !! paddr q = None /\ pv_empty q = true.

Lemma page_seg m B pg k st i : pm_inv m B -> B !! pg = Some (k, st) -> 0 <= i < bsize k -> exists sg, sg ∈ seglist m /\ in_seg sg (pg + i) 1.
Proof. intros I Hb Hi. destruct (pm_block _ _ I _ _ _ Hb) as ((sg & Hsg & _ & Hin) & _). exists sg. split; [done|]. unfold in_seg in *. lia. Qed.

Lemma paddr_inj m B sg sg' (i j : Z) p q : pm_inv m B -> sg ∈ seglist m -> in_seg sg i 1 -> sg' ∈ seglist m -> in_seg sg' j 1 -> pget m i = Some p -> pget m j = Some q -> paddr p = paddr q -> i = j.
Proof.
  intros I Hsg Hi Hsg' Hj Hp Hq E. rewrite (so_paddr _ _ (pm_segs _ _ I) sg i p), (so_paddr _ _ (pm_segs _ _ I) sg' j q) in E by done. pose proof (pm_segs _ _ I) as [S1 S2 S3]. unfold in_seg in *.
  destruct (decide (sg = sg')) as [->|Hne]; [unfold PAGESIZE in *; lia|]. destruct (S3 sg sg' Hsg Hsg' Hne) as [Ha _].
  destruct (S1 sg Hsg) as (_ & _ & _ & F), (S1 sg' Hsg') as (_ & _ & _ & F'). unfold PAGESIZE in *. lia.
Qed.

Lemma handed_private own B mc m B' bs : tables own B mc -> pm_inv m B' -> kept (phys mc) m -> handed_out B B' bs -> private own m bs.
Proof.
  intros T I K HO pg k i q Hin Hi Hq. split; [|by apply (handed_empty (phys mc) B m B' bs pg k (pg + i) q (tb_phys _ _ _ T)); try done; lia].
  destruct (own !! paddr q) as [o|] eqn:Ho; [exfalso|done]. pose proof HO as (H1 & H2 & H3). assert (B' !! pg = Some (k, BUsed)) as Hb by (apply H3; by right).
  destruct (tb_own _ _ _ T _ o Ho) as [_ [[pg' Hh]|[_ Hno]]].
  - assert (held m B' pg' (paddr q)) as (Hb' & q' & Hq' & Eq'). { apply (held_kept (phys mc) B); try done. apply H3. left. by destruct Hh. }
    destruct (page_seg m B' pg k BUsed i I Hb Hi) as (sg & S1 & S2), (page_seg m B' pg' 0 BUsed 0 I Hb' ltac:(done)) as (sg' & S1' & S2'). rewrite Z.add_0_r in S2'.
    assert (pg' = pg + i) as -> by (by eapply (paddr_inj m B' sg' sg)). destruct (decide (pg + i = pg)) as [E|Hne].
    + rewrite E in Hb', Hh. assert (k = 0%nat) as -> by congruence. apply (H2 pg) with 0%nat; [apply list_elem_of_fmap; by exists (pg, 0%nat)|by destruct Hh].
    + change (bsize 0) with 1 in *. destruct (pm_apart _ _ I _ _ _ _ _ _ Hb' Hb Hne) as [Ha|Ha]; change (bsize 0) with 1 in Ha; lia.
  - destruct K as (_ & _ & K). destruct (K _ q Hq) as (q' & Hq' & E & _). by apply (Hno _ q' Hq').
Qed.

(** Memory that belongs to nobody is written. *)
Lemma write_unowned own B mc a l : tables own B mc -> own !! a = None ->
  let mc' := set_ram (<[a := l]> (ram mc)) mc in
  tables own B mc' /\ keeps own B mc own B mc' /\ forall va, page_va va -> mapped mc' pmap_kernel va = mapped mc pmap_kernel va.
Proof.
  intros T Ha mc'. assert (tables own B mc') as T' by (apply tables_write; [done|by rewrite Ha]).
  assert (forall pm P va, pmaps mc !! pm = Some P -> page_va va -> mapped mc' pm va = mapped mc pm va) as M.
  { intros pm P va HP [Hva _]. unfold mapped. rewrite (read_same own B mc mc' pm P P va); try done. intros b o lb Ho Hr. split; intros _; exists lb; cbn; rewrite lookup_insert_ne by congruence; done. }
  destruct (tb_kernel _ _ _ T) as [P HP]. split_and!; [done| |by intros va Hva; apply (M pmap_kernel P)]. split; [|intros pm Q va _ HQ Hva; by apply (M pm Q)].
  split; try done; [exists P, P; cbn; by rewrite insert_id|apply kept_refl|intros b Hb; cbn; rewrite lookup_insert_ne; congruence|].
  intros pm va Hva (Q & w & HQ & Hw & Hv). exists Q, w. split; [done|]. split; [|done]. destruct (walk_ok own B mc pm Q va T HQ Hva) as (d & dir & w' & [W1 W2 W3 W4 W5 W6 W7 _]).
  destruct (index_range va Hva). assert (w' = w) as -> by congruence. unfold PDE_OF. rewrite W1. apply (word_get_ok mc' d _ dir); [by apply frame_range| |lia|done]. cbn. rewrite lookup_insert_ne; congruence.
Qed.

Lemma bzero_spec own B (n : nat) : forall mc va, tables own B mc -> PMAP_KERNEL_BEGIN <= va -> va + PAGESIZE * Z.of_nat n <= 2 ^ 32 - 2 ^ 22 -> page_aligned_p va = true ->
  (forall j, 0 <= j < Z.of_nat n -> exists a pr, mapped mc pmap_kernel (va + j * PAGESIZE) = Some (a, pr) /\ (a =? 0) = false /\ own !! a = None) ->
  exists r, bzero_pages n mc va = Ok (set_ram r mc) /\ tables own B (set_ram r mc) /\ keeps own B mc own B (set_ram r mc) /\
    (forall va', page_va va' -> mapped (set_ram r mc) pmap_kernel va' = mapped mc pmap_kernel va') /\
    (forall a, r !! a = ram mc !! a \/ r !! a = Some zero_page) /\
    forall j a pr, 0 <= j < Z.of_nat n -> mapped mc pmap_kernel (va + j * PAGESIZE) = Some (a, pr) -> r !! a = Some zero_page.
Proof.
  induction n as [|n IH]; intros mc va T Hva Hn Hal Hm; cbn [bzero_pages].
  - exists (ram mc). rewrite set_ram_id. split_and!; try done; [by apply keeps_refl|auto|lia].
  - assert (kern_va va) as Hkv by (unfold kern_va, PMAP_KERNEL_END, PAGESIZE in *; lia). destruct (Hm 0 ltac:(lia)) as (a & pr & Ha & Ha0 & Ho). rewrite Z.mul_0_l, Z.add_0_r in Ha.
    assert (page_of va = va /\ PAGE_OFFSET va = 0) as [Epg Eoff]. { rewrite page_offset. unfold page_of. apply page_mod in Hal. rewrite Hal. split; [lia|done]. }
    rewrite (kextract_spec own B mc va T Hkv), Epg, Ha, Ha0, Eoff, Z.lor_0_r. cbn [some_of mbind outcome_bind]. destruct (write_unowned own B mc a zero_page T Ho) as (T1 & K1 & M1). cbn zeta in *.
    set (mc1 := set_ram (<[a := zero_page]> (ram mc)) mc) in *. rewrite wrap_small by (unfold in_word, PMAP_KERNEL_BEGIN, PAGESIZE in *; cbn; lia).
    assert (forall j, 0 <= j < Z.of_nat (S n) -> page_va (va + j * PAGESIZE)) as Hpv.
    { intros j Hj. split; [unfold word_va, PMAP_KERNEL_BEGIN, PAGESIZE in *; lia|]. apply page_mod. apply page_mod in Hal. by rewrite Z.mod_add. }
    assert (forall j, va + PAGESIZE + j * PAGESIZE = va + (j + 1) * PAGESIZE) as Ej by lia.
    destruct (IH mc1 (va + PAGESIZE) T1) as (r & -> & T2 & K2 & M2 & Hr & Hz); [unfold PAGESIZE in *; lia|lia|by apply aligned_step| |].
    { intros j Hj. rewrite Ej, (M1 _ (Hpv (j + 1) ltac:(lia))). apply Hm. lia. }
    change (set_ram r mc1) with (set_ram r mc) in *. exists r. split_and!; try done; [by apply (keeps_trans _ _ _ own B mc1)|intros va' Hva'; by rewrite M2, M1| |].
    + intros b. destruct (Hr b) as [E|E]; [|by right]. cbn in E. destruct (decide (b = a)) as [->|]; [rewrite lookup_insert_eq in E; by right|rewrite lookup_insert_ne in E by done; by left].
    + intros j b pr' Hj Hb. destruct (decide (j = 0)) as [->|].
      * rewrite Z.mul_0_l, Z.add_0_r, Ha in Hb. injection Hb as <- _. destruct (Hr a) as [E|E]; [|done]. cbn in E. by rewrite lookup_insert_eq in E.
      * apply (Hz (j - 1) b pr'); [lia|]. rewrite Ej, M1 by (apply Hpv; lia). by replace (j - 1 + 1) with j by lia.
Qed.

(** What is behind an address of the range *)
Lemma backed_at mc B (bs : list (Z * nat)) : forall va (j : Z), backed mc B va bs -> 0 <= j < total_size bs ->
  exists pg k i p, (pg, k) ∈ bs /\ B !! pg = Some (k, BUsed) /\ 0 <= i < bsize k /\ pget (phys mc) pg = Some p /\ mapped mc pmap_kernel (va + j * PAGESIZE) = Some (paddr p + i * PAGESIZE, RW).
Proof.
  induction bs as [|[pg k] bs IH]; intros va j H Hj; cbn [total_size backed] in *; [lia|]. destruct H as (Hb & (p & Hp & Hm) & H). destruct (decide (j < bsize k)).
  - exists pg, k, j, p. split_and!; try done; [by left|lia|]. apply Hm. lia.
  - destruct (IH _ (j - bsize k) H ltac:(lia)) as (pg' & k' & i & p' & H1 & H2 & H3 & H4 & H5). exists pg', k', i, p'. split; [by right|]. split_and!; try done; try lia.
    rewrite <- H5. f_equal. lia.
Qed.

Lemma backed_same mc mc' B (bs : list (Z * nat)) : forall va, backed mc B va bs -> phys mc' = phys mc ->
  (forall x, va <= x < va + total_size bs * PAGESIZE -> page_va x -> mapped mc' pmap_kernel x = mapped mc pmap_kernel x) -> page_aligned_p va = true -> 0 <= va ->
  va + total_size bs * PAGESIZE <= 2 ^ 32 -> backed mc' B va bs.
Proof.
  induction bs as [|[pg k] bs IH]; intros va H E Hm Hal H0 Htop; [done|]. cbn [backed total_size] in *. destruct H as (Hb & (p & Hp & Hpm) & H). pose proof (bsize_pos k). pose proof (total_pos bs).
  assert (forall j, page_aligned_p (va + j * PAGESIZE) = true) as Hj by (intros j; apply page_mod; apply page_mod in Hal; by rewrite Z.mod_add).
  split; [done|]. split.
  - exists p. rewrite E. split; [done|]. intros i Hi. rewrite Hm; [by apply Hpm|unfold PAGESIZE in *; lia|]. split; [unfold word_va, PAGESIZE in *; lia|done].
  - apply IH; try done; [|unfold PAGESIZE in *; lia|unfold PAGESIZE in *; lia]. intros x Hx. apply Hm. unfold PAGESIZE in *. lia.
Qed.

(** Pages that nobody has are put behind a range of addresses. *)
Record mapped_in own B mc (va size : Z) (zero : bool) B' mc' (bs : list (Z * nat)) : Prop := {
  mi_tables : tables own B' mc';
  mi_onward : onward own B mc own B' mc';
  mi_end : vm_kernel_end mc' = vm_kernel_end mc;
  mi_handed : handed_out B B' bs;
  mi_size : total_size bs * PAGESIZE = size;
  mi_backed : backed mc' B' va bs;
  mi_private : private own (phys mc') bs;
  mi_other x : page_va x -> ~ va <= x < va + size -> mapped mc' pmap_kernel x = mapped mc pmap_kernel x;
  mi_zero x : zero = true -> page_va x -> va <= x < va + size -> exists a, mapped mc' pmap_kernel x = Some (a, RW) /\ ram mc' !! a = Some zero_page;
}.

Lemma private_at own B mc va bs (j : Z) : tables own B mc -> private own (phys mc) bs -> backed mc B va bs -> 0 <= j < total_size bs ->
  exists a, mapped mc pmap_kernel (va + j * PAGESIZE) = Some (a, RW) /\ (a =? 0) = false /\ own !! a = None.
Proof.
  intros T Hpr Hbk Hj. destruct (backed_at mc B bs va j Hbk Hj) as (pg & k & i & p & H1 & H2 & H3 & H4 & H5). eexists. split; [done|].
  destruct (block_frames (phys mc) B pg k BUsed p (tb_phys _ _ _ T) H2 H4) as [_ Hf]. destruct (Hf i H3) as (q & Hq & Eq). rewrite <- Eq.
  destruct (tb_frame _ _ _ T _ q Hq) as [[_ H6] _]. split; [apply Z.eqb_neq; lia|]. by destruct (Hpr pg k i q H1 H3 Hq).
Qed.

Lemma page_steps va x : page_aligned_p va = true -> page_aligned_p x = true -> x = va + (x - va) / PAGESIZE * PAGESIZE.
Proof.
  intros Hva Hx. apply page_mod in Hva, Hx. pose proof (Z.div_mod (x - va) PAGESIZE ltac:(done)) as D. rewrite Zminus_mod, Hx, Hva in D. change ((0 - 0) `mod` PAGESIZE) with 0 in D. lia.
Qed.

Lemma kva_map_spec own B mc va size flags : tables own B mc -> PMAP_KERNEL_BEGIN <= va -> va + size <= 2 ^ 32 - 2 ^ 22 -> page_aligned_p va = true -> page_aligned_p size = true -> 0 < size ->
  tables_upto mc va (va + size) ->
  kva_map mc va size flags = Fault PanicCalled \/ exists mc' B' bs, kva_map mc va size flags = Ok mc' /\ mapped_in own B mc va size (flag_on flags M_ZERO) B' mc' bs.
Proof.
  intros T Hva Htop Hal Hsz Hs Ht. unfold kva_map. rewrite Hal, Hsz. cbn [andb assert mbind outcome_bind]. set (n := size / PAGESIZE). assert (n * PAGESIZE = size) as En.
  { apply page_mod in Hsz. pose proof (Z.div_mod size PAGESIZE ltac:(done)) as D. unfold n. clear - D Hsz. lia. }
  destruct (pagelist_alloc_spec (phys mc) B n (tb_phys _ _ _ T) ltac:(unfold PAGESIZE in *; lia)) as [[-> _]|(bs & m & B' & E & _ & I & Hts & HO)]; [by left|right]. rewrite E. cbn [mbind outcome_bind].
  pose proof (pagelist_alloc_kept _ _ _ _ _ E) as K. pose proof HO as (H1 & H2 & H3).
  destruct (phys_onward own B mc m B' T I K) as [T1 On]; [intros h k Hb; apply H3; by left|]. set (mc1 := set_phys m mc) in *. change (negb (0 =? 0)) with false. cbn iota.
  destruct (map_pages_spec own B' bs mc1 va T1) as (r & -> & X & Hbk & M); try (rewrite ?Hts, ?En; done); [intros pg k H; apply H3; by right|]. cbn [mbind outcome_bind]. rewrite Hts, En in M.
  pose proof (handed_private own B mc m B' bs T I K HO) as Hpr. pose proof (rt_tables _ _ _ _ X) as T2. pose proof (keeps_onward _ _ _ _ _ _ T2 (rt_keeps _ _ _ _ X)) as On2.
  assert (forall z : bool, (z = true -> forall x, page_va x -> va <= x < va + size -> exists a, mapped (set_ram r mc1) pmap_kernel x = Some (a, RW) /\ r !! a = Some zero_page) ->
    mapped_in own B mc va size z B' (set_ram r mc1) bs) as Hfin.
  { intros z Hz. split; try done; [by apply (onward_trans _ _ _ own B' mc1)|lia|]. intros x E1 Hx Hin. by apply (Hz E1 x). }
  destruct (flag_on flags M_ZERO); [|exists (set_ram r mc1), B', bs; split; [done|by apply Hfin]].
  assert (Z.of_nat (Z.to_nat n) = n) as Enn by (unfold PAGESIZE in *; lia).
  destruct (bzero_spec own B' (Z.to_nat n) (set_ram r mc1) va T2 Hva) as (r2 & -> & T3 & K3 & M3 & _ & Hz); rewrite ?Enn; try done; [unfold PAGESIZE in *; lia| |].
  { intros j Hj. destruct (private_at own B' (set_ram r mc1) va bs j T2 Hpr Hbk ltac:(lia)) as (a & Ha & Hna). by exists a, RW. }
  change (set_ram r2 (set_ram r mc1)) with (set_ram r2 mc1) in *. rewrite Enn in Hz. exists (set_ram r2 mc1), B', bs. split; [done|]. pose proof (keeps_onward _ _ _ _ _ _ T3 K3) as On3.
  split; try done.
  - apply (onward_trans _ _ _ own B' mc1); [done|]. by apply (onward_trans _ _ _ own B' (set_ram r mc1)).
  - lia.
  - apply (backed_same (set_ram r mc1)); try done; [intros x _ Hx; by apply M3|unfold PMAP_KERNEL_BEGIN in *; lia|rewrite Hts, En; lia].
  - intros x Hx Hout. rewrite M3 by done. by apply M.
  - intros x _ Hx Hin. rewrite (M3 x Hx). pose proof (page_steps va x Hal (proj2 Hx)) as Ex.
    assert (0 <= (x - va) / PAGESIZE < n) as Hj by (clear - En Hin; unfold PAGESIZE in *; lia).
    destruct (private_at own B' (set_ram r mc1) va bs _ T2 Hpr Hbk ltac:(rewrite Hts; exact Hj)) as (a & Ha & _). rewrite <- Ex in Ha. exists a. split; [done|]. apply (Hz ((x - va) / PAGESIZE) a RW Hj). by rewrite <- Ex.
Qed.

(** ** Memory *)

Lemma km_span own B km (va size : Z) : kmem_ok own B km -> 0 < size -> in_span (kvspace km) va size ->
  PMAP_KERNEL_BEGIN <= va /\ va + size <= 2 ^ 32 - 2 ^ 22 /\ tables_upto (kmach km) va (va + size).
Proof.
  intros K Hs Hin. destruct (ko_span _ _ _ K va size Hs Hin). destruct (ko_end _ _ _ K) as [_ He]. split_and!; try done; [lia|].
  intros x Hx. apply (ko_table _ _ _ K). by apply (span_sub _ va size); [|lia|lia].
Qed.

Lemma km_mach own B km own' B' mc' : kmem_ok own B km -> tables own' B' mc' -> vm_kernel_end mc' = vm_kernel_end (kmach km) ->
  (forall va, word_va va -> has_table (kmach km) pmap_kernel va -> has_table mc' pmap_kernel va) -> kmem_ok own' B' (set_kmach mc' km).
Proof.
  intros K T He Ht. pose proof K as [K1 K2 K3 K4 K5 K6]. split; cbn [kvspace kmach set_kmach]; rewrite ?He; try done. intros va H. apply Ht; [|by apply K6].
  destruct (K5 va 1 ltac:(lia) H), K4 as [_ K4]. unfold word_va, PMAP_KERNEL_BEGIN in *. lia.
Qed.

(** What a caller of [kmem_alloc] gets: the block of addresses at [va] backed by the blocks
    of pages [bs] *)
Record kmem_result own B km (size va : Z) (zero : bool) own' B' km' (bs : list (Z * nat)) : Prop := {
  ks_addr : kva_result km size va km';
  ks_onward : onward own B (kmach km) own' B' (kmach km');
  ks_fresh h k : (h, k) ∈ bs -> B' !! h = Some (k, BUsed) /\ forall j, B !! h <> Some (j, BUsed);
  ks_nodup : NoDup bs.*1;
  ks_size : total_size bs * PAGESIZE = size;
  ks_backed : backed (kmach km') B' va bs;
  ks_private : private own' (phys (kmach km')) bs;
  ks_other x : page_va x -> ~ va <= x < va + size -> mapped (kmach km') pmap_kernel x = mapped (kmach km) pmap_kernel x;
  ks_zero x : zero = true -> page_va x -> va <= x < va + size -> exists a, mapped (kmach km') pmap_kernel x = Some (a, RW) /\ ram (kmach km') !! a = Some zero_page;
}.

Lemma kmem_alloc_spec own B km size flags : flag_on flags M_NOGROW = false -> kmem_ok own B km -> page_aligned_p size = true -> 0 < size -> vm_kernel_end (kmach km) + size <= 2 ^ 32 - 2 ^ 22 ->
  exhausted (kmem_alloc true km size flags) \/
  exists va km' own' B' bs, kmem_alloc true km size flags = Ok (va, km') /\ kmem_ok own' B' km' /\ kmem_result own B km size va (flag_on flags M_ZERO) own' B' km' bs.
Proof.
  intros Hfl K Hal Hs Hle. unfold kmem_alloc. rewrite Hal, Hfl. cbn [negb assert mbind outcome_bind].
  destruct (kva_alloc_spec own B km size K Hal Hs Hle) as [-> |(va & km1 & own1 & B1 & -> & K1 & R1 & On1 & M1)]; [by left; left|]. cbn [mbind outcome_bind].
  destruct R1 as [[Hin Hva] R2 R3]. destruct (km_span own1 B1 km1 va size K1 Hs Hin) as (S1 & S2 & S3).
  destruct (kva_map_spec own1 B1 (kmach km1) va size flags (ko_tables _ _ _ K1) S1 S2 Hva Hal Hs S3) as [-> |(mc' & B' & bs & -> & [N1 N2 N3 N4 N5 N6 N7 N8 N9])]; [by left; right|right].
  cbn [mbind outcome_bind]. exists va, (set_kmach mc' km1), own1, B', bs. split; [done|]. split; [apply (km_mach own1 B1); try done; apply N2|]. destruct N4 as (H1 & H2 & H3). split; try done.
  - by apply (onward_trans _ _ _ own1 B1 (kmach km1)).
  - intros h k H. split; [apply H3; by right|]. intros j Hj. apply (on_used _ _ _ _ _ _ On1) in Hj. apply (H2 h) with j; [|done]. apply list_elem_of_fmap. by exists (h, k).
  - intros x Hx Hout. cbn [kmach set_kmach]. rewrite N8 by done. by apply M1.
Qed.

(** ** Freeing *)

Lemma find_block m B pg k st p : pm_inv m B -> B !! pg = Some (k, st) -> pget m pg = Some p -> vm_page_find m (paddr p) = Some pg.
Proof.
  intros I Hb Hp. pose proof (bsize_pos k). destruct (page_seg m B pg k st 0 I Hb ltac:(lia)) as (sg & Hsg & Hin). rewrite Z.add_0_r in Hin. destruct (so_size _ _ (pm_segs _ _ I) sg Hsg) as (_ & _ & _ & F).
  pose proof (so_paddr _ _ (pm_segs _ _ I) sg pg p Hsg Hin Hp) as E. unfold vm_page_find.
  rewrite (find_in_segs_spec m sg (paddr p) (seglist m) (pm_segs _ _ I) Hsg (fun _ H' => H')) by (unfold in_seg, PAGESIZE in *; lia). f_equal. rewrite E.
  replace (seg_start sg + (pg - seg_pages sg) * PAGESIZE - seg_start sg) with ((pg - seg_pages sg) * PAGESIZE) by lia. rewrite Z.div_mul by done. lia.
Qed.

Lemma find_pages_spec own B (bs : list (Z * nat)) : forall (fuel : nat) mc va (acc : list Z), tables own B mc -> backed mc B va bs -> PMAP_KERNEL_BEGIN <= va -> va + total_size bs * PAGESIZE <= 2 ^ 32 - 2 ^ 22 ->
  page_aligned_p va = true -> total_size bs <= Z.of_nat fuel -> find_pages fuel mc va (va + total_size bs * PAGESIZE) acc = Ok (acc ++ bs.*1).
Proof.
  induction bs as [|[pg k] bs IH]; intros fuel mc va acc T Hbk Hva Htop Hal Hf; cbn [total_size backed fmap list_fmap fst] in *.
  - rewrite Z.mul_0_l, Z.add_0_r, app_nil_r. destruct fuel; cbn [find_pages]; by rewrite Z.ltb_irrefl.
  - destruct Hbk as (Hb & (p & Hp & Hm) & Hbk). pose proof (bsize_pos k) as Hk. pose proof (total_pos bs) as Hts. destruct fuel as [|fuel]; [lia|]. cbn [find_pages].
    rewrite (proj2 (Z.ltb_lt _ _)) by (unfold PAGESIZE in *; lia). assert (kern_va va) as Hkv by (unfold kern_va, PMAP_KERNEL_END, PAGESIZE in *; lia).
    assert (page_of va = va /\ PAGE_OFFSET va = 0) as [Epg Eoff]. { rewrite page_offset. unfold page_of. apply page_mod in Hal. rewrite Hal. split; [lia|done]. }
    specialize (Hm 0 ltac:(lia)). rewrite !Z.mul_0_l, !Z.add_0_r in Hm. unfold kva_find_page. change (pmap_extract mc pmap_kernel va) with (pmap_kextract mc va).
    rewrite (kextract_spec own B mc va T Hkv), Epg, Hm, (proj2 (Z.eqb_neq (paddr p) 0)), Eoff, Z.lor_0_r by (destruct (block_top own B mc pg k p T Hb Hp) as (_ & H0 & _); lia).
    cbn [mbind outcome_bind]. rewrite (find_block (phys mc) B pg k BUsed p (tb_phys _ _ _ T) Hb Hp).
    unfold get_page. rewrite (pget_get _ pg p) by done. cbn [mbind outcome_bind]. destruct (block_frames (phys mc) B pg k BUsed p (tb_phys _ _ _ T) Hb Hp) as [-> _].
    rewrite wrap_small by (unfold in_word, PMAP_KERNEL_BEGIN, PAGESIZE in *; cbn; lia). replace (va + (bsize k + total_size bs) * PAGESIZE) with (va + bsize k * PAGESIZE + total_size bs * PAGESIZE) by lia.
    rewrite (IH fuel mc (va + bsize k * PAGESIZE)); [by rewrite <- app_assoc|done|done|unfold PAGESIZE in *; lia|unfold PAGESIZE in *; lia| |lia].
    apply page_mod. apply page_mod in Hal. by rewrite Z.mod_add.
Qed.

(** A page of one of the blocks *)
Definition given_back (bs : list (Z * nat)) (i : Z) : Prop := exists pg k, (pg, k) ∈ bs /\ pg <= i < pg + bsize k.

Lemma pagelist_free_spec (bs : list (Z * nat)) : forall m B, pm_inv m B -> NoDup bs.*1 -> (forall pg k, (pg, k) ∈ bs -> B !! pg = Some (k, BUsed)) ->
  (forall pg k i q, (pg, k) ∈ bs -> pg <= i < pg + bsize k -> pget m i = Some q -> pv_empty q = true) ->
  exists m' B', vm_pagelist_free m bs.*1 = Ok m' /\ pm_inv m' B' /\ kept m m' /\ (forall h j, B' !! h = Some (j, BUsed) <-> B !! h = Some (j, BUsed) /\ h ∉ bs.*1) /\
    forall i, free_at B i \/ given_back bs i -> free_at B' i.
Proof.
  induction bs as [|[pg k] bs IH]; intros m B I Hnd Hbs Hpv; cbn [vm_pagelist_free fmap list_fmap fst] in *.
  - exists m, B. split_and!; try done; [apply kept_refl| |].
    + intros h j. split; [|tauto]. intros H. split; [done|]. apply not_elem_of_nil.
    + intros i [H|(pg & k & H & _)]; [done|by apply not_elem_of_nil in H].
  - apply NoDup_cons in Hnd as [Hni Hnd]. destruct (page_free_spec m B pg k I) as (m1 & B1 & E & I1 & HU & HF); [apply Hbs; by left|intros i q; apply Hpv; by left|].
    change (vm_page_free_nolock m pg) with (vm_page_free m pg). rewrite E. cbn [mbind outcome_bind]. pose proof (page_free_kept _ _ _ E) as K1.
    destruct (IH m1 B1 I1 Hnd) as (m2 & B2 & E2 & I2 & K2 & HU2 & HF2).
    { intros pg' k' H. apply HU. split; [apply Hbs; by right|]. intros ->. apply Hni. apply list_elem_of_fmap. by exists (pg, k'). }
    { intros pg' k' i q H Hi Hq. pose proof K1 as (_ & _ & K1'). destruct (K1' i q Hq) as (q' & Hq' & _ & ->). apply (Hpv pg' k' i q'); [by right|done|done]. }
    exists m2, B2. split_and!; try done; [by apply (kept_trans _ m1)| |].
    + intros h j. rewrite HU2, HU, not_elem_of_cons. tauto.
    + intros i [H|(pg' & k' & [[= -> ->]|H]%elem_of_cons & Hi)]; apply HF2; [left; apply HF; by left|left; apply HF; by right|right; by exists pg', k'].
Qed.

Lemma pmap_kremove_spec own B mc va size : tables own B mc -> PMAP_KERNEL_BEGIN <= va -> va + size <= 2 ^ 32 - 2 ^ 22 -> page_aligned_p va = true -> page_aligned_p size = true -> 0 < size ->
  tables_upto mc va (va + size) ->
  exists r, pmap_kremove mc va size = Ok (set_ram r mc) /\ retable own B mc r /\
    forall x, page_va x -> mapped (set_ram r mc) pmap_kernel x = if decide (va <= x < va + size) then None else mapped mc pmap_kernel x.
Proof.
  intros T Hva Htop Hal Hsz Hs Ht. destruct (tb_kernel _ _ _ T) as [P HP]. destruct (tb_asid _ _ _ T _ P HP) as (_ & _ & Has). unfold pmap_kremove, get_pmap. rewrite HP, Hal, Hsz.
  cbn [some_of mbind outcome_bind andb assert]. rewrite wrap_small by (unfold in_word, PMAP_KERNEL_BEGIN in *; cbn; lia). unfold pmap_contains_p, pmap_start, pmap_end. rewrite (proj2 Has eq_refl). cbn [Z.eqb negb].
  rewrite (proj2 (Z.leb_le _ _)), (proj2 (Z.leb_le _ _)) by (unfold PMAP_KERNEL_END; lia). cbn [andb assert mbind outcome_bind].
  assert (PAGESIZE * Z.of_nat (Z.to_nat (size / PAGESIZE)) = size) as En.
  { apply page_mod in Hsz. pose proof (Z.div_mod size PAGESIZE ltac:(done)) as D. rewrite Z2Nat.id; [clear - D Hsz; lia|]. apply Z.div_pos; [lia|done]. }
  destruct (kremove_spec own B (Z.to_nat (size / PAGESIZE)) mc va T Hva) as (r & E & T' & K & A & M); rewrite ?En; try done; [unfold PMAP_KERNEL_END; lia|]. rewrite En in M. by exists r.
Qed.

(** The pages of the blocks go back to the allocator. *)
Lemma kva_unmap_spec own B mc va size bs : tables own B mc -> PMAP_KERNEL_BEGIN <= va -> va + size <= 2 ^ 32 - 2 ^ 22 -> page_aligned_p va = true -> page_aligned_p size = true -> 0 < size ->
  tables_upto mc va (va + size) -> backed mc B va bs -> total_size bs * PAGESIZE = size -> NoDup bs.*1 -> (forall pg k, (pg, k) ∈ bs -> B !! pg = Some (k, BUsed)) -> private own (phys mc) bs ->
  exists mc' B', kva_unmap mc va size = Ok mc' /\ tables own B' mc' /\ vm_kernel_end mc' = vm_kernel_end mc /\ (forall gv, rep own B mc gv -> rep own B' mc' gv) /\
    (forall h j, B' !! h = Some (j, BUsed) <-> B !! h = Some (j, BUsed) /\ h ∉ bs.*1) /\ (forall i, free_at B i \/ given_back bs i -> free_at B' i) /\
    (forall x, word_va x -> has_table mc pmap_kernel x -> has_table mc' pmap_kernel x) /\
    forall x, page_va x -> mapped mc' pmap_kernel x = if decide (va <= x < va + size) then None else mapped mc pmap_kernel x.
Proof.
  intros T Hva Htop Hal Hsz Hs Ht Hbk Hts Hnd Hbs Hpr. unfold kva_unmap. rewrite Hal, Hsz. cbn [andb assert mbind outcome_bind].
  rewrite wrap_small by (unfold in_word, PMAP_KERNEL_BEGIN in *; cbn; lia). assert (size / PAGESIZE = total_size bs) as En by (rewrite <- Hts; by apply Z.div_mul).
  assert (find_pages (Z.to_nat (size / PAGESIZE)) mc va (va + size) [] = Ok bs.*1) as ->.
  { rewrite En, <- Hts. pose proof (total_pos bs). apply (find_pages_spec own B bs (Z.to_nat (total_size bs)) mc va []); try done; lia. }
  cbn [mbind outcome_bind].
  destruct (pmap_kremove_spec own B mc va size T Hva Htop Hal Hsz Hs Ht) as (r & -> & X & M). cbn [mbind outcome_bind]. set (mc1 := set_ram r mc) in *. pose proof (rt_tables _ _ _ _ X) as T1.
  destruct (pagelist_free_spec bs (phys mc1) B (tb_phys _ _ _ T1) Hnd Hbs) as (m & B' & -> & I & K & HU & HF).
  { intros pg k i q H Hi Hq. replace i with (pg + (i - pg)) in Hq by lia. by destruct (Hpr pg k (i - pg) q H ltac:(lia) Hq). }
  cbn [mbind outcome_bind]. destruct (phys_rep own B mc1 m B' T1 I K) as [T2 R2].
  { intros pg a o Ho (Hb & p & Hp & Ea). apply (held_kept (phys mc1) B); [done|split; [done|by exists p]|]. apply HU. split; [done|]. intros Hin. apply list_elem_of_fmap in Hin as ([pg' k] & -> & Hin).
    cbn [fst] in *. pose proof (bsize_pos k). destruct (Hpr pg' k 0 p Hin ltac:(lia)) as [Hno _]; [by rewrite Z.add_0_r|]. congruence. }
  exists (set_phys m mc1), B'. pose proof (keeps_onward _ _ _ _ _ _ T1 (rt_keeps _ _ _ _ X)) as On. split_and!; try done.
  - intros gv R. apply R2. by apply (on_rep _ _ _ _ _ _ On).
  - intros x Hx H. by apply (on_table _ _ _ _ _ _ On x Hx) in H.
Qed.

Lemma kmem_free_spec own B km va size bs : kmem_ok own B km -> block (kvspace km) va size -> page_aligned_p va = true -> page_aligned_p size = true ->
  backed (kmach km) B va bs -> total_size bs * PAGESIZE = size -> NoDup bs.*1 -> (forall pg k, (pg, k) ∈ bs -> B !! pg = Some (k, BUsed)) -> private own (phys (kmach km)) bs ->
  exists km' B', kmem_free km va size = Ok km' /\ kmem_ok own B' km' /\ (forall gv, rep own B (kmach km) gv -> rep own B' (kmach km') gv) /\
    (forall s n, block (kvspace km') s n <-> block (kvspace km) s n /\ s <> va) /\
    (forall h j, B' !! h = Some (j, BUsed) <-> B !! h = Some (j, BUsed) /\ h ∉ bs.*1) /\ (forall i, free_at B i \/ given_back bs i -> free_at B' i) /\
    forall x, page_va x -> mapped (kmach km') pmap_kernel x = if decide (va <= x < va + size) then None else mapped (kmach km) pmap_kernel x.
Proof.
  intros K Hbl Hal Hsz Hbk Hts Hnd Hbs Hpr. destruct (vmem_block_span _ va size (ko_vmem _ _ _ K) Hbl) as [Hs Hin]. destruct (km_span own B km va size K Hs Hin) as (S1 & S2 & S3).
  unfold kmem_free. destruct (kva_unmap_spec own B (kmach km) va size bs (ko_tables _ _ _ K) S1 S2 Hal Hsz Hs S3 Hbk Hts Hnd Hbs Hpr) as (mc' & B' & -> & T' & He & R' & HU & HF & Ht & M).
  cbn [mbind outcome_bind]. destruct (free_spec (kvspace km) va size size (ko_vmem _ _ _ K) Hbl Hs) as (vs & -> & V1 & V2 & V3 & V4).
  { rewrite (ko_quantum _ _ _ K). apply page_mod in Hsz. pose proof (ceil_to_least size PAGESIZE size ltac:(done) ltac:(lia) Hsz). pose proof (ceil_to_spec size PAGESIZE ltac:(done)). lia. }
  cbn [mbind outcome_bind]. exists (Kmem vs mc'), B'. split; [done|]. split_and!; try done. pose proof (km_mach own B km own B' mc' K T' He Ht) as [K1 K2 K3 K4 K5 K6].
  split; cbn [kvspace kmach set_kmach] in *; try done; [congruence| |].
  - intros s n Hn H. apply K5; [done|]. by apply V4.
  - intros x H. apply K6. by apply V4.
Qed.

(** C14: On any consistent state, with a boundary tag in the pool of tags, for whole pages that
    fit between the end of kernel memory and [2 ^ 32 - 2 ^ 22], an allocation of kernel
    memory succeeds unless pages run out.  Its addresses are a new block of the arena that
    meets no other block; behind them there are, page by page, readable and writable, the
    pages of blocks that were not in use before, that belong to no object and no table, and,
    if asked for, filled with zeros.  Other kernel mappings, user maps and the contents of
    objects stay; the arena and the tables of the kernel may have grown, and the state is
    consistent again. *)
Theorem kmem_alloc_correct own B km size flags : flag_on flags M_NOGROW = false -> kmem_ok own B km -> page_aligned_p size = true -> 0 < size -> vm_kernel_end (kmach km) + size <= 2 ^ 32 - 2 ^ 22 ->
  exhausted (kmem_alloc true km size flags) \/
  exists va km' own' B' bs, kmem_alloc true km size flags = Ok (va, km') /\ kmem_ok own' B' km' /\ kmem_result own B km size va (flag_on flags M_ZERO) own' B' km' bs.
Proof. exact (kmem_alloc_spec own B km size flags). Qed.

(** C15: Kernel memory that was allocated, and whose pages nobody took, can be freed: the block
    of addresses leaves the arena's blocks in use, its addresses are no longer mapped, and
    all its pages are parts of free blocks of the page allocator.  The blocks in use, the
    other kernel mappings, user maps and the contents of objects are as before the
    allocation; what the arena and the tables have grown stays. *)
Theorem kmem_alloc_free own B km size zero own' B' va km' bs : page_aligned_p size = true ->
  kmem_ok own' B' km' -> kmem_result own B km size va zero own' B' km' bs ->
  exists km2 B2, kmem_free km' va size = Ok km2 /\ kmem_ok own' B2 km2 /\
    (forall gv, rep own B (kmach km) gv -> rep own' B2 (kmach km2) gv) /\
    (forall s n, block (kvspace km2) s n <-> block (kvspace km) s n /\ s <> va) /\
    (forall h j, B !! h = Some (j, BUsed) -> B2 !! h = Some (j, BUsed)) /\ (forall h j, h ∈ bs.*1 -> B2 !! h <> Some (j, BUsed)) /\
    (forall i, given_back bs i -> free_at B2 i) /\
    forall x, page_va x -> mapped (kmach km2) pmap_kernel x = if decide (va <= x < va + size) then None else mapped (kmach km) pmap_kernel x.
Proof.
  intros Hsz K [[[H1 H2] H3 H4] N2 N3 N4 N5 N6 N7 N8 N9]. assert (block (kvspace km') va size) as Hbl by (apply H4; by right).
  destruct (kmem_free_spec own' B' km' va size bs K Hbl H2 Hsz N6 N5 N4) as (km2 & B2 & E & K2 & R & V & U & F & M); [intros pg k H; by apply (N3 pg k)|done|].
  exists km2, B2. split_and!; try done.
  - intros gv Hr. apply R. by apply (on_rep _ _ _ _ _ _ N2).
  - intros s n. rewrite V, H4. naive_solver.
  - intros h j H. apply U. split; [by apply (on_used _ _ _ _ _ _ N2)|]. intros Hin. apply list_elem_of_fmap in Hin as ([h' k] & -> & Hin). destruct (N3 h' k Hin) as [_ Hn]. by apply (Hn j).
  - intros h j Hin H. by apply U in H as [_ H].
  - intros i Hi. apply F. by right.
  - intros x Hx. rewrite (M x Hx). case_decide; [done|]. by apply N8.
Qed.

(** ** Start *)

(** [kernel_start] is the address [__kernel_start] of the image, [fresh] names the first tag. *)
Definition init_kmem (kernel_start fresh : Z) mc : outcome kmem :=
  vs ← vmem_create PAGESIZE fresh;
  if KERNEL_SPACE_BEGIN <? kernel_start then
    vs ← vmem_add vs KERNEL_SPACE_BEGIN (wrap (kernel_start - KERNEL_SPACE_BEGIN));
    Ok (Kmem vs mc)
  else Ok (Kmem vs mc).

(** With no boundary tag in the pool [kva_alloc] grows kernel memory over and over, and
    never returns an address. *)
Lemma kva_alloc_no_tag (fuel : nat) km size r : kva_alloc false fuel km size <> Ok r.
Proof.
  unfold kva_alloc. destruct (page_aligned_p size); [|done]. cbn [assert mbind outcome_bind]. generalize (vm_kernel_end (kmach km)). revert km.
  induction fuel as [|fuel IH]; intros km old; cbn [kva_alloc_loop]; unfold vmem_alloc; destruct (0 <? align size (vm_quantum (kvspace km))); try done; cbn [assert negb mbind outcome_bind].
  change (ENOMEM =? 0) with false. cbn iota. destruct (old <? _); [apply IH|]. destruct (pmap_growkernel _ _); [|done]. cbn [mbind outcome_bind]. destruct (vmem_add _ _ _); [|done]. cbn [mbind outcome_bind]. apply IH.
Qed.

(** The arena at boot holds what is below the image, if there are tables for it. *)
Lemma init_kmem_ok own B mc (kernel_start fresh : Z) : tables own B mc -> page_aligned_p (vm_kernel_end mc) = true -> vm_kernel_end mc <= 2 ^ 32 - 2 ^ 22 ->
  page_aligned_p kernel_start = true -> KERNEL_SPACE_BEGIN <= kernel_start <= vm_kernel_end mc -> tables_upto mc KERNEL_SPACE_BEGIN kernel_start ->
  exists km, init_kmem kernel_start fresh mc = Ok km /\ kmach km = mc /\ kmem_ok own B km.
Proof.
  intros T He Hle Hal Hks Ht. cbn in Hks, Ht. unfold init_kmem. change PAGESIZE with (2 ^ 12). destruct (create_inv 12 fresh ltac:(done)) as (vs & -> & I & Hsegs & Hq & _). cbn [mbind outcome_bind].
  assert (forall s n, ~ in_span vs s n) as Hno by (intros s n (b & Hb & _); rewrite Hsegs in Hb; by apply not_elem_of_nil in Hb).
  destruct (Z.ltb_spec KERNEL_SPACE_BEGIN kernel_start) as [Hlt|Hge]; cbn in *.
  - rewrite wrap_small by (unfold in_word; cbn; lia). assert (kernel_start `mod` 4096 = 0) as Hm by (by apply page_mod).
    destruct (add_spec vs 0xc0000000 (kernel_start - 0xc0000000) I) as (vs' & -> & V1 & V2 & V3 & V4); rewrite ?Hq; try done; try (cbn; lia).
    { intros s n _ H. by apply Hno in H. }
    cbn [mbind outcome_bind]. eexists. split; [done|]. split; [done|]. split; cbn [kvspace kmach]; try done.
    + by rewrite V2, Hq.
    + unfold PMAP_KERNEL_BEGIN. split; [done|]. lia.
    + intros s n Hn H. apply V4 in H as [H|H]; [by apply Hno in H|]. unfold PMAP_KERNEL_BEGIN. lia.
    + intros va H. apply V4 in H as [H|H]; [by apply Hno in H|]. apply Ht. lia.
  - eexists. split; [done|]. split; [done|]. split; cbn [kvspace kmach]; try done.
    + unfold PMAP_KERNEL_BEGIN. split; [done|]. lia.
    + intros s n _ H. by apply Hno in H.
    + intros va H. by apply Hno in H.
Qed.

Definition boot_kmem : kmem := Kmem (Vmem 0 0 4096 12 [] (replicate 32 []) (replicate 512 []) 0) boot_machine.

Lemma boot_kmem_ok : kmem_ok boot_own (sample_blocks BFree) boot_kmem.
Proof.
  destruct (init_kmem_ok boot_own (sample_blocks BFree) boot_machine 0xc0000000 0 boot_tables) as (km & E & _ & K); try done.
  { intros va H. cbn in H. lia. }
  assert (km = boot_kmem) as <-; [|done]. vm_compute in E. injection E as <-. reflexivity.
Qed.

Lemma boot_kmem_fits : vm_kernel_end (kmach boot_kmem) + 8192 <= 2 ^ 32 - 2 ^ 22.
Proof. cbn [kmach boot_kmem vm_kernel_end boot_machine]. lia. Qed.

Lemma boot_kmem_runs : is_ok (kmem_alloc true boot_kmem 8192 M_ZERO) = true.
Proof. vm_compute. reflexivity. Qed.

Lemma kmem_alloc_witness : exists va km' own' B' bs, kmem_alloc true boot_kmem 8192 M_ZERO = Ok (va, km') /\
  kmem_result boot_own (sample_blocks BFree) boot_kmem 8192 va true own' B' km' bs.
Proof.
  destruct (kmem_alloc_correct boot_own (sample_blocks BFree) boot_kmem 8192 M_ZERO eq_refl boot_kmem_ok eq_refl eq_refl boot_kmem_fits) as [H|(va & km' & own' & B' & bs & E & _ & R)].
  - exfalso. pose proof boot_kmem_runs as Hr. destruct H as [H|H]; rewrite H in Hr; discriminate Hr.
  - exists va, km', own', B', bs. exact (conj E R).
Defined.

Lemma kmem_alloc_free_witness : exists va km' km2, kmem_alloc true boot_kmem 8192 M_ZERO = Ok (va, km') /\ kmem_free km' va 8192 = Ok km2 /\ forall n, ~ block (kvspace km2) va n.
Proof.
  destruct (kmem_alloc_spec boot_own (sample_blocks BFree) boot_kmem 8192 M_ZERO eq_refl boot_kmem_ok eq_refl eq_refl boot_kmem_fits) as [H|(va & km' & own' & B' & bs & E & K & R)].
  - exfalso. pose proof boot_kmem_runs as Hr. destruct H as [H|H]; rewrite H in Hr; discriminate Hr.
  - destruct (kmem_alloc_free boot_own (sample_blocks BFree) boot_kmem 8192 true own' B' va km' bs eq_refl K R) as (km2 & B2 & E2 & _ & _ & Hb & _). exists va, km', km2.
    split; [exact E|]. split; [exact E2|]. intros n H. apply Hb in H as [_ H]. exact (H eq_refl).
Defined.
