(* ===== verification/Trap.v ===== *)
(** * Memory faults (sys/mips/trap.c)

    The handler of exceptions that the memory unit raises, on top of everything the address
    spaces are made of: the page tables (Pmap.v), the page allocator (Physmem.v), and maps,
    entries and objects (VmMap.v).  The result: an access that the address space of a
    process allows succeeds, unless memory is exhausted, on the page that the address stands
    for, and one that it does not allow, if the memory unit stops it, is refused without any
    effect.  What the memory unit lets through without an exception is [tlb_access] of
    PmapHw.v; the lemmas at the end show where this is more, and where the handler allows
    less, than the protection of an address. *)

From S2P Require Import Prelude Machine Physmem Pmap PmapHw VmMap.

#[local] Existing Instance mips.

(** The address spaces of a kernel that runs on the page tables *)
Notation kvm := (@vm mips mips_machine).

Implicit Types (v : kvm) (m : vm_map) (mc : machine) (va : Z).

Definition machine_of v : machine := (mach v).1.
Definition set_machine mc v : kvm := set_mach (HW := mips_machine) (mc, (mach v).2) v.

(** How the handler ends: the instruction is tried again, execution goes on at
    [td_onfault], or the process gets [SIGSEGV]. *)
Inductive trap_result := Resumed | Onfault (pc : Z) | Segv.

(** The results are how the handler ends, the new value of [td_onfault], and the memory. *)
Definition trap_fault (td_onfault : Z) (user_mode : bool) v : outcome (trap_result * Z * kvm) :=
  if negb (td_onfault =? 0) then Ok (Onfault td_onfault, 0, v)
  else if user_mode then Ok (Segv, td_onfault, v)
  else panic.

(** [load] is the condition [code == EXC_TLBL], true of loads and of instruction fetches;
    [user] is the map of the running process, if it has one, [kernel] the map of the
    kernel. *)
Definition tlb_exception_handler v (user : option Z) (kernel : Z) (load : bool) vaddr (td_onfault : Z) (user_mode : bool) : outcome (trap_result * Z * kvm) :=
  match pmap_lookup (machine_of v) vaddr with
  | None => trap_fault td_onfault user_mode v
  | Some pm =>
      let access := if load then VM_PROT_READ else VM_PROT_WRITE in
      '(error, mc) ← pmap_emulate_bits (machine_of v) pm vaddr access;
      let v := set_machine mc v in
      if error =? 0 then Ok (Resumed, td_onfault, v)
      else if (error =? EACCES) || (error =? EINVAL) then trap_fault td_onfault user_mode v
      else
        km ← get_map v kernel;
        match vm_map_lookup (i ← user; m ← maps v !! i; Some (i, m)) (kernel, km) vaddr with
        | None => trap_fault td_onfault user_mode v
        | Some vmap =>
            '(error, v) ← vm_page_fault v vmap vaddr access;
            if error =? 0 then Ok (Resumed, td_onfault, v) else trap_fault td_onfault user_mode v
        end
  end.

(** The map [m] with the identifier [um] is the one of the running process. *)
Record running v (um kernel : Z) m : Prop := {
  rn_inv : vm_inv v;
  rn_map : maps v !! um = Some m;
  rn_user : pmap m <> pmap_kernel;
  rn_cur : curpmap (machine_of v) = Some (pmap m);
  rn_kernel : exists km, maps v !! kernel = Some km /\ pmap km = pmap_kernel;
}.

Lemma page_of_eq va : PmapHw.page_of va = page_of va.
Proof. unfold PmapHw.page_of, page_of. pose proof (Z.div_mod va PAGESIZE ltac:(done)). lia. Qed.

Lemma lookup_user v um kernel m va : running v um kernel m -> PMAP_USER_BEGIN <= va < PMAP_USER_END -> pmap_lookup (machine_of v) va = Some (pmap m).
Proof.
  intros R H. unfold pmap_lookup, kern_addr_p, user_addr_p, pmap_user. rewrite (rn_cur _ _ _ _ R). unfold PMAP_USER_BEGIN, PMAP_USER_END, PMAP_KERNEL_BEGIN, PMAP_KERNEL_END in *.
  rewrite (proj2 (Z.leb_gt _ _)) by lia. cbn [andb]. by rewrite (proj2 (Z.leb_le _ _)), (proj2 (Z.ltb_lt _ _)) by lia.
Qed.

Lemma lookup_map v um kernel m km va : running v um kernel m -> maps v !! kernel = Some km -> pmap km = pmap_kernel -> PMAP_USER_BEGIN <= va < PMAP_USER_END ->
  vm_map_lookup (i ← Some um; m ← maps v !! i; Some (i, m)) (kernel, km) va = if USER_SPACE_BEGIN <=? va then Some um else None.
Proof.
  intros R Hk Epm H. cbn [mbind option_bind]. rewrite (rn_map _ _ _ _ R). cbn [mbind option_bind vm_map_lookup snd fst]. unfold vm_map_address_p.
  destruct (user_bounds m (rn_user _ _ _ _ R)) as [-> ->]. unfold vm_map_start, vm_map_end. rewrite Epm, Z.eqb_refl. unfold PMAP_USER_BEGIN, PMAP_USER_END in *. cbn.
  destruct (Z.leb_spec 0x400000 va).
  - by rewrite (proj2 (Z.ltb_lt _ _)) by lia.
  - cbn [andb]. by rewrite (proj2 (Z.leb_gt _ _)) by lia.
Qed.

Lemma set_machine_id v : set_machine (machine_of v) v = v.
Proof. by destruct v as [[mc gv] os ms f]. Qed.

(** The machine changes below what the address spaces see. *)
Lemma machine_inv v mc : vm_inv v -> represents mc (mach v).2 -> vm_inv (set_machine mc v).
Proof. intros I R. by apply vinv_mach. Qed.

(** What the physical map has for an address *)
Lemma user_mapping v um kernel m va : running v um kernel m ->
  match v_maps (mach v).2 !! (pmap m, page_of va) with
  | None => True
  | Some (pg, pr) => exists e o, find_addr (entries m) va = Some e /\ prot e = pr /\ objs v !! object e = Some o /\ find_page (vo_pages o) (offset e + (page_of va - start e)) = Some pg
  end.
Proof.
  intros R. destruct (v_maps (mach v).2 !! (pmap m, page_of va)) as [[pg pr]|] eqn:E; [|done]. pose proof (rn_inv _ _ _ _ R) as I.
  destruct (vi_coh _ _ _ I _ _ _ _ E) as (i & m1 & e & o & J1 & J2 & J3 & J4 & J5 & J6 & J7 & _). assert (i = um) as -> by (by apply (vi_pmap _ _ _ I i um m1 m); [|apply R|]).
  assert (m1 = m) as -> by (pose proof (rn_map _ _ _ _ R); congruence). destruct (vinv_ents _ _ _ _ _ I J1) as [Hok _]. exists e, o.
  rewrite <- (find_page_addr m va Hok). split; [by apply (find_addr_spec _ _ _ _ e (mo_ents _ Hok))|]. split_and!; try done.
  destruct (vi_obj _ _ _ I _ _ J6) as (_ & [O1 _ _] & _). by apply (find_page_spec _ _ _ 0 O1).
Qed.

(** ** The running process stays the same *)

Lemma word_set_cur mc a i w mc' : word_set mc a i w = Ok mc' -> curpmap mc' = curpmap mc.
Proof. unfold word_set. intros H. by outcome_inv. Qed.

Lemma set_pg_flags_cur mc pg f mc' : set_pg_flags mc pg f = Ok mc' -> curpmap mc' = curpmap mc.
Proof. unfold set_pg_flags. intros H. by outcome_inv. Qed.

Lemma zero_page_cur mc pg mc' : pmap_zero_page mc pg = Ok mc' -> curpmap mc' = curpmap mc.
Proof. unfold pmap_zero_page. intros H. by outcome_inv. Qed.

Lemma pv_add_cur mc pm va pg mc' : pv_add mc pm va pg = Ok mc' -> curpmap mc' = curpmap mc.
Proof. unfold pv_add, set_pvs. intros H. by outcome_inv. Qed.

Lemma fill_table_cur (n : nat) : forall mc a i w mc', fill_table n mc a i w = Ok mc' -> curpmap mc' = curpmap mc.
Proof.
  induction n as [|n IH]; intros mc a i w mc' H; cbn [fill_table] in H; [by injection H as <-|]. outcome_inv. apply word_set_cur in E. apply IH in H. congruence.
Qed.

Lemma add_pde_cur mc pm va d mc' : pmap_add_pde mc pm va = Ok (d, mc') -> curpmap mc' = curpmap mc.
Proof.
  unfold pmap_add_pde, pmap_pagealloc. intros H. apply bind_ok in H as (P & _ & H). apply bind_ok in H as (old & _ & H). apply bind_ok in H as (u & _ & H). apply bind_ok in H as ([pg mc1] & E1 & H).
  apply bind_ok in E1 as ([[pg'|] m] & _ & E1); [|done]. apply bind_ok in E1 as (mc0 & E0 & E1). injection E1 as -> ->. apply zero_page_cur in E0.
  apply bind_ok in H as (p & _ & H). apply bind_ok in H as (mc2 & E2 & H). apply bind_ok in H as (mc3 & E3 & H). injection H as _ <-.
  apply word_set_cur in E2. apply fill_table_cur in E3. cbn in *. congruence.
Qed.

Lemma pte_write_cur mc pm va w cflags mc' : pmap_pte_write mc pm va w cflags = Ok mc' -> curpmap mc' = curpmap mc.
Proof.
  unfold pmap_pte_write. intros H. apply bind_ok in H as (P & _ & H). apply bind_ok in H as (d & _ & H). apply bind_ok in H as ([d1 mc1] & E1 & H). apply word_set_cur in H. rewrite H.
  destruct (negb (is_valid_pde d)); [by apply add_pde_cur in E1|by injection E1 as _ <-].
Qed.

Lemma enter_cur mc pm va pg pr cflags mc' : pmap_enter mc pm va pg pr cflags = Ok mc' -> curpmap mc' = curpmap mc.
Proof.
  unfold pmap_enter. intros H. apply bind_ok in H as (p & _ & H). apply bind_ok in H as (P & _ & H). apply bind_ok in H as (u1 & _ & H). apply bind_ok in H as (u2 & _ & H). apply bind_ok in H as (w & _ & H).
  apply bind_ok in H as (mc1 & E1 & H). apply bind_ok in H as (mc2 & E2 & H). apply pte_write_cur in H. apply set_pg_flags_cur in E2.
  destruct (pv_find mc pm va pg); [injection E1 as <-; congruence|apply pv_add_cur in E1; congruence].
Qed.

Lemma modify_flags_cur (l : list pv_entry) set clr : forall mc mc', modify_flags mc l set clr = Ok mc' -> curpmap mc' = curpmap mc.
Proof.
  induction l as [|pv l IH]; intros mc mc' H; cbn [modify_flags] in H; [by injection H as <-|]. outcome_inv. match goal with E : word_set _ _ _ _ = _ |- _ => apply word_set_cur in E end. apply IH in H. congruence.
Qed.

Lemma emulate_cur mc pm va access e mc' : pmap_emulate_bits mc pm va access = Ok (e, mc') -> curpmap mc' = curpmap mc.
Proof.
  assert (forall mc pg f set clr mc', (mc1 ← set_pg_flags mc pg f; pmap_modify_flags mc1 pg set clr) = Ok mc' -> curpmap mc' = curpmap mc) as Hm.
  { intros mc0 pg f set clr mc1 H. apply bind_ok in H as (mc2 & E & H). apply set_pg_flags_cur in E. apply modify_flags_cur in H. congruence. }
  unfold pmap_emulate_bits. intros H. apply bind_ok in H as ([pa|] & _ & H); [|by injection H as _ <-]. apply bind_ok in H as (w & _ & H).
  repeat (match type of H with (if ?b then _ else _) = _ => destruct b end; [by injection H as _ <-|]). destruct (vm_page_find (phys mc) pa) as [pg|]; [|done].
  destruct (pvs mc pg); [by injection H as _ <-|]. apply bind_ok in H as (mc1 & E1 & H). apply bind_ok in H as (mc2 & E2 & H). injection H as _ <-. apply Hm in E1.
  destruct (flag_on access VM_PROT_WRITE); [apply Hm in E2; congruence|injection E2 as <-; done].
Qed.

Lemma hw_alloc_cur (h h' : mips_hw) pg : hw_alloc h = Ok (pg, h') -> curpmap h'.1 = curpmap h.1.
Proof. unfold hw_alloc. intros H. apply bind_ok in H as ([[pg'|] m] & _ & H); [|by injection H as _ <-]. apply bind_ok in H as (p & _ & H). by injection H as _ <-. Qed.

Lemma hw_zero_cur (h h' : mips_hw) pg : hw_zero h pg = Ok h' -> curpmap h'.1 = curpmap h.1.
Proof. unfold hw_zero. intros H. apply bind_ok in H as (mc & E & H). injection H as <-. by apply zero_page_cur in E. Qed.

Lemma hw_enter_cur (h h' : mips_hw) pm va pg pr : hw_enter h pm va pg pr = Ok h' -> curpmap h'.1 = curpmap h.1.
Proof. unfold hw_enter. intros H. apply bind_ok in H as (mc & E & H). injection H as <-. by apply enter_cur in E. Qed.

Lemma page_fault_cur v mi va ty e v' : vm_page_fault v mi va ty = Ok (e, v') -> curpmap (machine_of v') = curpmap (machine_of v).
Proof.
  unfold vm_page_fault. intros H. apply bind_ok in H as (m & _ & H). destruct (vm_map_find_entry m va) as [en|]; [|by injection H as _ <-].
  repeat (match type of H with (if ?b then _ else _) = _ => destruct b end; [by injection H as _ <-|]). apply bind_ok in H as (u & _ & H). apply bind_ok in H as (o & _ & H).
  apply bind_ok in H as ([frame v1] & E1 & H). assert (curpmap (machine_of v1) = curpmap (machine_of v)) as Ec.
  { destruct (vm_object_find_page _ _); [by injection E1 as _ <-|]. destruct (vo_pager o); cbn [pgr_fault] in E1; [by injection E1 as _ <-|]. unfold anon_pager_fault in E1.
    apply bind_ok in E1 as ([pg h1] & Ea & E1). destruct pg as [pg|]; [|done]. apply bind_ok in E1 as (h2 & Ez & E1). apply bind_ok in E1 as (v2 & Ep & E1). injection E1 as _ <-.
    apply hw_alloc_cur in Ea. apply hw_zero_cur in Ez. unfold vm_object_add_page in Ep. apply bind_ok in Ep as (o1 & _ & Ep). apply bind_ok in Ep as (l & _ & Ep). injection Ep as <-.
    unfold machine_of. cbn. congruence. }
  destruct frame as [pg|]; [|by injection H as _ <-]. apply bind_ok in H as (h & Eh & H). injection H as _ <-. apply hw_enter_cur in Eh. unfold machine_of in *. cbn. congruence.
Qed.

(** ** Faults *)

Definition fault_type (load : bool) : Z := if load then VM_PROT_READ else VM_PROT_WRITE.

Lemma refused_denied (pr : Z) (load : bool) : PmapHw.refused pr (fault_type load) = denied pr (fault_type load).
Proof.
  unfold PmapHw.refused, denied. destruct (Z.eqb_spec pr VM_PROT_NONE) as [->|_]; [by destruct load|]. unfold fault_type.
  destruct load; cbn [andb orb]; [change (flag_on VM_PROT_READ VM_PROT_READ) with true; change (flag_on VM_PROT_READ VM_PROT_WRITE) with false; change (flag_on VM_PROT_READ VM_PROT_EXEC) with false|
    change (flag_on VM_PROT_WRITE VM_PROT_READ) with false; change (flag_on VM_PROT_WRITE VM_PROT_WRITE) with true; change (flag_on VM_PROT_WRITE VM_PROT_EXEC) with false];
    cbn; by rewrite ?andb_true_r, ?andb_false_r, ?orb_false_r.
Qed.

Section handler.
Context (um kernel : Z) (m : vm_map) (va : Z) (load : bool).
Hypothesis Hva : PMAP_USER_BEGIN <= va < PMAP_USER_END.

Let handler v := tlb_exception_handler v (Some um) kernel load va 0 true.

(** A mapped page that may be accessed *)
Lemma handler_mapped v pg pr : running v um kernel m -> v_maps (mach v).2 !! (pmap m, page_of va) = Some (pg, pr) -> denied pr (fault_type load) = false ->
  exists mc p, handler v = Ok (Resumed, 0, set_machine mc v) /\ running (set_machine mc v) um kernel m /\ pget (phys mc) pg = Some p /\
    tlb_access mc (pmap m) va (negb load) = Some (paddr p + va `mod` PAGESIZE).
Proof.
  intros R E Hd. destruct (vi_hw _ _ _ (rn_inv _ _ _ _ R)) as (own & B & Rp). pose proof (vi_live _ _ _ (rn_inv _ _ _ _ R) um m (rn_map _ _ _ _ R) ltac:(done)) as Hl.
  apply (rp_pmaps _ _ _ _ Rp) in Hl as [P HP]. pose proof (rep_emulate own B (machine_of v) (mach v).2 (pmap m) P va (fault_type load) Rp HP (rn_user _ _ _ _ R) Hva) as H.
  rewrite page_of_eq, E, refused_denied, Hd in H. destruct H as (mc & a & p & Ee & Rp' & (_ & q & Hq & Ea) & Ht & _ & Hp & _). assert (q = p) as -> by congruence.
  exists mc, p. unfold handler, tlb_exception_handler. rewrite (lookup_user v um kernel m va R Hva). change (if load then VM_PROT_READ else VM_PROT_WRITE) with (fault_type load). rewrite Ee. cbn [mbind outcome_bind].
  split; [done|]. pose proof R as [R1 R2 R3 R4 R5]. split; [|split; [done|]].
  - split; try done; [by apply machine_inv; [|exists own, B]|]. cbn. by rewrite (emulate_cur _ _ _ _ _ _ Ee).
  - rewrite Ea, <- Ht. by destruct load.
Qed.

(** A page that is not mapped *)
Lemma handler_unmapped v : running v um kernel m -> v_maps (mach v).2 !! (pmap m, page_of va) = None ->
  handler v = if USER_SPACE_BEGIN <=? va then '(error, v) ← vm_page_fault v um va (fault_type load); if error =? 0 then Ok (Resumed, 0, v) else Ok (Segv, 0, v) else Ok (Segv, 0, v).
Proof.
  intros R E. destruct (vi_hw _ _ _ (rn_inv _ _ _ _ R)) as (own & B & Rp). pose proof (vi_live _ _ _ (rn_inv _ _ _ _ R) um m (rn_map _ _ _ _ R) ltac:(done)) as Hl.
  apply (rp_pmaps _ _ _ _ Rp) in Hl as [P HP]. pose proof (rep_emulate own B (machine_of v) (mach v).2 (pmap m) P va (fault_type load) Rp HP (rn_user _ _ _ _ R) Hva) as H.
  rewrite page_of_eq, E in H. unfold handler, tlb_exception_handler. rewrite (lookup_user v um kernel m va R Hva). change (if load then VM_PROT_READ else VM_PROT_WRITE) with (fault_type load). rewrite H.
  cbn [mbind outcome_bind]. rewrite set_machine_id. change (EFAULT =? 0) with false. change ((EFAULT =? EACCES) || (EFAULT =? EINVAL)) with false. cbn iota.
  destruct (rn_kernel _ _ _ _ R) as (km & Hk & Epm). rewrite (get_map_ok v kernel km Hk). pose proof (lookup_map v um kernel m km va R Hk Epm Hva) as HL. cbn [mbind outcome_bind] in HL |- *.
  rewrite HL. by destruct (USER_SPACE_BEGIN <=? va).
Qed.

(** What the memory unit lets through is the mapped page. *)
Lemma access_mapped v pg pr a write : running v um kernel m -> v_maps (mach v).2 !! (pmap m, page_of va) = Some (pg, pr) -> tlb_access (machine_of v) (pmap m) va write = Some a ->
  exists p, pget (phys (machine_of v)) pg = Some p /\ a = paddr p + va `mod` PAGESIZE.
Proof.
  intros R E Ha. destruct (vi_hw _ _ _ (rn_inv _ _ _ _ R)) as (own & B & Rp). pose proof (vi_live _ _ _ (rn_inv _ _ _ _ R) um m (rn_map _ _ _ _ R) ltac:(done)) as Hl.
  apply (rp_pmaps _ _ _ _ Rp) in Hl as [P HP]. rewrite <- page_of_eq in E. pose proof (rp_maps _ _ _ _ Rp (pmap m) P _ HP (rn_user _ _ _ _ R) (page_user va Hva)) as H. change (view (mach v)) with (mach v).2 in H. rewrite E in H.
  destruct H as (b & Hb & H). apply mapped_read in H as (w & Ew & En). unfold tlb_access in Ha. rewrite <- pte_read_page in Ha by (unfold word_va, PMAP_USER_BEGIN, PMAP_USER_END in *; lia).
  change (mach v).1 with (machine_of v) in Ew. rewrite Ew in Ha. destruct (flag_on w PTE_VALID && _); [|done]. injection Ha as <-. apply entry_some in En as [-> _].
  destruct (rp_dom _ _ _ _ Rp _ _ _ _ E) as (_ & _ & _ & Hd). destruct (rep_held own B _ _ pg Rp Hd) as (c & Hc & _ & [Hal _]). assert (c = b) as -> by (by eapply held_fun).
  destruct Hb as (_ & p & Hp & <-). exists p. split; [done|]. by apply lor_offset.
Qed.

(** What is not mapped is not let through. *)
Lemma access_unmapped v write : running v um kernel m -> v_maps (mach v).2 !! (pmap m, page_of va) = None -> tlb_access (machine_of v) (pmap m) va write = None.
Proof.
  intros R E. destruct (vi_hw _ _ _ (rn_inv _ _ _ _ R)) as (own & B & Rp). pose proof (vi_live _ _ _ (rn_inv _ _ _ _ R) um m (rn_map _ _ _ _ R) ltac:(done)) as Hl.
  apply (rp_pmaps _ _ _ _ Rp) in Hl as [P HP]. rewrite <- page_of_eq in E. pose proof (rp_maps _ _ _ _ Rp (pmap m) P _ HP (rn_user _ _ _ _ R) (page_user va Hva)) as H. change (view (mach v)) with (mach v).2 in H. rewrite E in H.
  unfold tlb_access. rewrite <- pte_read_page by (unfold word_va, PMAP_USER_BEGIN, PMAP_USER_END in *; lia). unfold mapped in H. change (mach v).1 with (machine_of v) in H.
  destruct (pmap_pte_read (machine_of v) (pmap m) (PmapHw.page_of va)) as [w|]; [|done]. unfold entry in H. by destruct (flag_on w PTE_VALID), (PTE_FRAME_ADDR w =? 0).
Qed.

(** The processor makes the access.  The memory unit lets it through or raises an exception,
    and after the handler returned the access is made again, with at most [n] exceptions. *)
Fixpoint attempt (n : nat) v : outcome (option Z * kvm) :=
  match tlb_access (machine_of v) (pmap m) va (negb load) with
  | Some a => Ok (Some a, v)
  | None =>
      match n with
      | O => Fault OutOfFuel
      | S n =>
          '(r, _, v) ← handler v;
          match r with
          | Resumed => attempt n v
          | _ => Ok (None, v)
          end
      end
  end.

Lemma attempt_through n v a : tlb_access (machine_of v) (pmap m) va (negb load) = Some a -> attempt n v = Ok (Some a, v).
Proof. intros H. destruct n; cbn [attempt]; by rewrite H. Qed.

(** The access is made on a page. *)
Definition reaches (pg : Z) (r : option Z * kvm) : Prop :=
  running r.2 um kernel m /\ exists p, pget (phys (machine_of r.2)) pg = Some p /\ r.1 = Some (paddr p + va `mod` PAGESIZE).

Lemma attempt_mapped n v pg pr : running v um kernel m -> v_maps (mach v).2 !! (pmap m, page_of va) = Some (pg, pr) -> denied pr (fault_type load) = false ->
  exists mc a, attempt (S n) v = Ok (Some a, set_machine mc v) /\ reaches pg (Some a, set_machine mc v).
Proof.
  intros R E Hd. destruct (tlb_access (machine_of v) (pmap m) va (negb load)) as [a|] eqn:Ea.
  { destruct (access_mapped v pg pr a _ R E Ea) as (p & Hp & ->). exists (machine_of v), (paddr p + va `mod` PAGESIZE). rewrite set_machine_id. split; [by apply attempt_through|]. split; [done|]. by exists p. }
  destruct (handler_mapped v pg pr R E Hd) as (mc & p & H & R' & Hp & Ht). exists mc, (paddr p + va `mod` PAGESIZE). cbn [attempt]. rewrite Ea, H. cbn [mbind outcome_bind].
  split; [by apply attempt_through|]. split; [done|]. by exists p.
Qed.

(** After the page fault the access is made. *)
Lemma attempt_faulted n v v1 pg pr : USER_SPACE_BEGIN <= va -> running v um kernel m -> v_maps (mach v).2 !! (pmap m, page_of va) = None ->
  vm_page_fault v um va (fault_type load) = Ok (0, v1) -> vm_inv v1 -> maps v1 = maps v -> v_maps (mach v1).2 !! (pmap m, page_of va) = Some (pg, pr) -> denied pr (fault_type load) = false ->
  exists mc a, attempt (S (S n)) v = Ok (Some a, set_machine mc v1) /\ reaches pg (Some a, set_machine mc v1).
Proof.
  intros Hlo R E Ef I1 Em E1 Hd. assert (running v1 um kernel m) as R1. { destruct R as [J1 J2 J3 J4 J5]. split; rewrite ?Em; try done. by rewrite (page_fault_cur _ _ _ _ _ _ Ef). }
  set (k := S n). cbn [attempt]. rewrite (access_unmapped v _ R E), (handler_unmapped v R E), (proj2 (Z.leb_le _ _) Hlo), Ef. cbn [mbind outcome_bind]. change (0 =? 0) with true. cbn iota. cbn [mbind outcome_bind].
  by apply attempt_mapped with pr.
Qed.

Lemma attempt_refused n v v1 e : running v um kernel m -> v_maps (mach v).2 !! (pmap m, page_of va) = None -> vm_page_fault v um va (fault_type load) = Ok (e, v1) -> e <> 0 -> v1 = v ->
  attempt (S n) v = Ok (None, v).
Proof.
  intros R E Ef He ->. cbn [attempt]. rewrite (access_unmapped v _ R E), (handler_unmapped v R E), Ef. destruct (USER_SPACE_BEGIN <=? va); [|done]. cbn [mbind outcome_bind]. by rewrite (proj2 (Z.eqb_neq _ _) He).
Qed.

Lemma attempt_denied n v pg pr : running v um kernel m -> v_maps (mach v).2 !! (pmap m, page_of va) = Some (pg, pr) -> denied pr (fault_type load) = true ->
  tlb_access (machine_of v) (pmap m) va (negb load) = None -> attempt (S n) v = Ok (None, v).
Proof.
  intros R E Hd Hs. destruct (vi_hw _ _ _ (rn_inv _ _ _ _ R)) as (own & B & Rp). pose proof (vi_live _ _ _ (rn_inv _ _ _ _ R) um m (rn_map _ _ _ _ R) ltac:(done)) as Hl.
  apply (rp_pmaps _ _ _ _ Rp) in Hl as [P HP]. pose proof (rep_emulate own B (machine_of v) (mach v).2 (pmap m) P va (fault_type load) Rp HP (rn_user _ _ _ _ R) Hva) as H.
  rewrite page_of_eq, E, refused_denied, Hd in H. cbn [attempt]. rewrite Hs. unfold handler, tlb_exception_handler. rewrite (lookup_user v um kernel m va R Hva).
  change (if load then VM_PROT_READ else VM_PROT_WRITE) with (fault_type load). rewrite H. cbn [mbind outcome_bind]. by rewrite set_machine_id.
Qed.

(** An access that the memory unit stops is refused, another one is made on the page. *)
Lemma attempt_forbidden n v pg pr : running v um kernel m -> v_maps (mach v).2 !! (pmap m, page_of va) = Some (pg, pr) -> denied pr (fault_type load) = true ->
  match tlb_access (machine_of v) (pmap m) va (negb load) with
  | None => attempt (S n) v = Ok (None, v)
  | Some a => attempt (S n) v = Ok (Some a, v) /\ reaches pg (Some a, v)
  end.
Proof.
  intros R E Hd. destruct (tlb_access (machine_of v) (pmap m) va (negb load)) as [a|] eqn:Ea; [|by apply attempt_denied with pg pr].
  split; [by apply attempt_through|]. destruct (access_mapped v pg pr a _ R E Ea) as (p & Hp & ->). split; [done|]. by exists p.
Qed.
End handler.

(** C1: A process in user mode loads or stores at an address; an instruction fetch counts as a
    load, as it does in the handler.  If the address stands for nothing in the address space of
    the process, the memory unit raises an exception, the process gets a segmentation fault
    and nothing changes.  The same holds if its object can have no page there, and if its
    protection forbids the access and the memory unit stops it; it does not stop it if an
    earlier access made the entry of the page valid for this one, and then the access is made on
    the page of the address, and nothing changes either.  An access that the protection allows
    succeeds, with at most two exceptions, unless memory is exhausted: at the physical address
    of the page of the object at the offset of the address, which is the page that was
    there before or, if there was none, a page of zeros.  The invariant of all address spaces and
    page tables holds afterwards. *)
Theorem tlb_exception_correct v um kernel m va load :
  running v um kernel m -> PMAP_USER_BEGIN <= va < PMAP_USER_END ->
  let run := attempt um kernel m va load 2 v in
  match trans (entries m) (page_of va) with
  | None => run = Ok (None, v)
  | Some (i, off, pr, _) =>
      exists o, objs v !! i = Some o /\
      if denied pr (fault_type load) then
        match tlb_access (machine_of v) (pmap m) va (negb load) with
        | None => run = Ok (None, v)
        | Some a => run = Ok (Some a, v) /\ exists pg, find_page (vo_pages o) off = Some pg /\ reaches um kernel m va pg (Some a, v)
        end
      else
        match find_page (vo_pages o) off, vo_pager o with
        | Some pg, _ => runs run (fun r => reaches um kernel m va pg r /\ objs r.2 = objs v)
        | None, VM_DUMMY => run = Ok (None, v)
        | None, VM_ANONYMOUS => runs run (fun r => exists pg o', reaches um kernel m va pg r /\ objs r.2 = <[i := o']> (objs v) /\
            v_data (mach v).2 !! pg = None /\ vo_pages o' ≡ₚ (off, pg) :: vo_pages o /\ v_data (mach r.2).2 = <[pg := zero_page]> (v_data (mach v).2))
        end
  end.
Proof.
  intros R Hva run. unfold run. clear run. pose proof (rn_inv _ _ _ _ R) as I. pose proof (rn_map _ _ _ _ R) as Hm. destruct (vinv_ents _ _ _ _ _ I Hm) as [Hok _].
  pose proof (user_mapping v um kernel m va R) as Hum. pose proof (fault_spec v um m va (fault_type load) I Hm) as HF. unfold trans. rewrite find_page_addr by done.
  destruct (v_maps (mach v).2 !! (pmap m, page_of va)) as [[pg pr]|] eqn:E.
  { destruct Hum as (e & o & -> & <- & Ho & Hf). cbn [fmap option_fmap option_map]. exists o. split; [done|]. rewrite Hf. destruct (denied (prot e) (fault_type load)) eqn:Hd.
    - pose proof (attempt_forbidden um kernel m va load Hva 1 v pg (prot e) R E Hd) as H. destruct (tlb_access _ _ _ _) as [a|]; [|done]. destruct H as [H1 H2]. split; [done|]. by exists pg.
    - destruct (attempt_mapped um kernel m va load Hva 1 v pg _ R E Hd) as (mc & a & -> & Hr). by apply runs_ok. }
  destruct (find_addr (entries m) va) as [e|] eqn:Ef; [|by apply (attempt_refused um kernel m va load Hva 1 v v EFAULT)]. cbn [fmap option_fmap option_map].
  assert (exists o, objs v !! object e = Some o) as [o Ho]. { apply (find_addr_spec _ va _ _ e (mo_ents _ Hok)) in Ef as [He _]. destruct (vinv_ents _ _ _ _ _ I Hm) as [_ H]. by destruct (H e He) as [_ [o Ho]]; exists o. }
  exists o. split; [done|]. destruct (denied (prot e) (fault_type load)) eqn:Hd.
  { rewrite (access_unmapped um kernel m va load Hva v _ R E). by apply (attempt_refused um kernel m va load Hva 1 v v EACCES). }
  cbn zeta in HF. destruct HF as (o' & Ho' & HF). assert (o' = o) as -> by congruence.
  assert (USER_SPACE_BEGIN <= va) as Hlo.
  { apply (find_addr_spec _ va _ _ e (mo_ents _ Hok)) in Ef as [He [C1 _]]. destruct (ents_in _ e _ _ (mo_ents _ Hok) He) as (L1 & _). destruct (user_bounds m (rn_user _ _ _ _ R)) as [Eb _]. lia. }
  assert (forall Q, exhausted (vm_page_fault v um va (fault_type load)) -> runs (attempt um kernel m va load 2 v) Q) as Hex.
  { intros Q Hx. left. cbn [attempt]. rewrite (access_unmapped um kernel m va load Hva v _ R E), (handler_unmapped um kernel m va load Hva v R E), (proj2 (Z.leb_le _ _) Hlo). destruct Hx as [-> | ->]; [by left|by right]. }
  destruct (find_page (vo_pages o) _) as [pg|] eqn:Efp; [|destruct (vo_pager o)]; [..|].
  - destruct HF as [Hx|([e1 v1] & Ev & E0 & I1 & Eo & Em & Vw)]; [by apply Hex|]. cbn [fst snd] in *. subst e1. change (view (mach v1)) with (mach v1).2 in Vw.
    destruct (attempt_faulted um kernel m va load Hva 0 v v1 pg (prot e) Hlo R E Ev I1 Em) as (mc & a & -> & Hr); [rewrite Vw; cbn; by rewrite lookup_insert_eq|done|]. by apply runs_ok.
  - by apply (attempt_refused um kernel m va load Hva 1 v v EFAULT).
  - destruct HF as [Hx|([e1 v1] & Ev & E0 & I1 & Em & pg & o' & Hn & Hp & _ & Eo & Vw)]; [by apply Hex|]. cbn [fst snd] in *. subst e1. change (view (mach v1)) with (mach v1).2 in Vw.
    destruct (attempt_faulted um kernel m va load Hva 0 v v1 pg (prot e) Hlo R E Ev I1 Em) as (mc & a & -> & Hr); [rewrite Vw; cbn; by rewrite lookup_insert_eq|done|]. apply runs_ok.
    exists pg, o'. split; [done|]. split; [done|]. split; [done|]. split; [done|]. change (v_data (mach v1).2 = <[pg := zero_page]> (v_data (mach v).2)). by rewrite Vw.
Qed.

(** ** A process on a machine with four pages *)

Definition activate v (um : Z) : outcome kvm := m ← get_map v um; Ok (set_machine (pmap_activate (machine_of v) (Some (pmap m))) v).

Lemma activate_rep mc gv u : represents mc gv -> represents (pmap_activate mc u) gv.
Proof.
  intros (own & B & [R1 R2 R3 R4 R5 R6]). exists own, B. split; try assumption.
  - destruct R1. split; assumption.
  - destruct R6. split; assumption.
Qed.

Definition process : outcome kvm :=
  v ← vm_run (HW := mips_machine) (vm_init (HW := mips_machine) (boot_machine, boot_view)) [EvNew; EvMmap 1 0 0x1800 3 (Z.lor VM_ANON VM_PRIVATE)];
  activate v 1.

Definition process_map : vm_map := Map [Entry 3 2 0 3 VM_ENT_PRIVATE 0x400000 0x402000] 1 1.

Definition summary (r : outcome kvm) : option (option vm_map * option vm_map * option Z * option (list (Z * Z) * bool)) :=
  match r with
  | Ok v => Some (maps v !! 1, maps v !! 0, curpmap (machine_of v), (fun o => (vo_pages o, match vo_pager o with VM_ANONYMOUS => true | _ => false end)) <$> objs v !! 2)
  | Fault _ => None
  end.

Lemma process_summary : summary process = Some (Some process_map, Some (Map [] 0 0), Some 1, Some ([], true)).
Proof. vm_compute. reflexivity. Qed.

Lemma process_inv v : process = Ok v -> vm_inv v.
Proof.
  unfold process. assert (vm_inv (vm_init (HW := mips_machine) (boot_machine, boot_view))) as I.
  { apply vm_init_inv; [by exists boot_own, (sample_blocks BFree); apply boot_rep|change (pmap_kernel ∈@{gset Z} {[pmap_kernel]}); by apply elem_of_singleton|done]. }
  generalize dependent (vm_init (HW := mips_machine) (boot_machine, boot_view)). intros v0 I.
  destruct (vm_run_inv [EvNew; EvMmap 1 0 0x1800 3 (Z.lor VM_ANON VM_PRIVATE)] v0 I) as [[-> | ->]|(v1 & -> & I1)]; [by repeat constructor|done..|].
  cbn [mbind outcome_bind]. unfold activate. intros H. apply bind_ok in H as (m & _ & H). injection H as <-. apply machine_inv; [done|]. apply activate_rep. exact (vi_hw _ _ _ I1).
Qed.

Lemma process_runs : exists v o, process = Ok v /\ running v 1 0 process_map /\ objs v !! 2 = Some o /\ vo_pages o = [] /\ vo_pager o = VM_ANONYMOUS.
Proof.
  pose proof process_summary as S. pose proof process_inv as I. destruct process as [v|]; [|discriminate S]. specialize (I v eq_refl). cbn [summary] in S.
  injection S as S1 S2 S3 S4. destruct (objs v !! 2) as [o|] eqn:Ho; [|discriminate S4]. exists v, o. cbn in S4. injection S4 as E1 E2. split_and!; try done.
  - split; try done. by exists (Map [] 0 0).
  - destruct (vo_pager o); [discriminate E2|reflexivity].
Qed.

Lemma tlb_exception_witness : exists v r, process = Ok v /\ attempt 1 0 process_map 0x401010 false 2 v = Ok r /\ exists pg, reaches 1 0 process_map 0x401010 pg r.
Proof.
  assert (is_ok (v ← process; attempt 1 0 process_map 0x401010 false 2 v) = true) as C by (vm_compute; reflexivity).
  assert (PMAP_USER_BEGIN <= 0x401010 < PMAP_USER_END) as Hva by (vm_compute; split; congruence).
  destruct process_runs as (v & o & E & R & Ho & Ep & Eg). rewrite E in C. cbn [mbind outcome_bind] in C.
  pose proof (tlb_exception_correct v 1 0 process_map 0x401010 false R Hva) as H. cbn zeta in H.
  change (trans (entries process_map) (page_of 0x401010)) with (Some (2, 0x1000, 3, VM_ENT_PRIVATE)) in H. cbn iota in H.
  destruct H as (o' & Ho' & H). change (denied 3 (fault_type false)) with false in H. cbn iota in H. assert (o' = o) as -> by congruence. rewrite Ep, Eg in H. cbn [find_page] in H.
  destruct H as [[X|X]|(r & X & pg & _ & Hr & _)]; [rewrite X in C; discriminate C..|]. exists v, r. exact (conj E (conj X (ex_intro _ pg Hr))).
Defined.

Definition single (pr : Z) : outcome kvm :=
  v ← vm_run (HW := mips_machine) (vm_init (HW := mips_machine) (boot_machine, boot_view)) [EvNew; EvMmap 1 0 0x1000 pr (Z.lor VM_ANON VM_PRIVATE)];
  activate v 1.
Definition single_map (pr : Z) : vm_map := Map [Entry 3 2 0 pr VM_ENT_PRIVATE 0x400000 0x401000] 1 1.

(** A fetch from a page that may only be executed is taken for a load and refused. *)
Lemma fetch_needs_read :
  (v ← single VM_PROT_EXEC; '(r, _, _) ← tlb_exception_handler v (Some 1) 0 true 0x400000 0 true; Ok r) = Ok Segv.
Proof. vm_compute. reflexivity. Qed.

(** After a store to a page that may only be written, a load from it passes. *)
Lemma store_opens_load :
  (v ← single VM_PROT_WRITE; '(r, v) ← attempt 1 0 (single_map VM_PROT_WRITE) 0x400000 false 2 v; '(l, _) ← attempt 1 0 (single_map VM_PROT_WRITE) 0x400000 true 2 v; Ok (bool_decide (is_Some r), bool_decide (l = r))) = Ok (true, true).
Proof. vm_compute. reflexivity. Qed.
