(* ===== verification/Turnstile.v ===== *)
(** * Turnstiles and mutexes (sys/kern/turnstile.c, sys/kern/mutex.c, include/sys/mutex.h)

    A thread that finds a mutex taken blocks on a turnstile.  Like sleep queues, turnstiles
    are brought by the threads: the first thread that blocks gives its turnstile to the
    mutex, the next ones leave theirs on its free list, and [turnstile_broadcast] hands
    them back.  A turnstile keeps its threads sorted by priority, and a thread that blocks
    lends its priority to the owner of the mutex and, if that is blocked itself, to the
    owner of the mutex it waits for, and so on.

    Threads interleave at the points where they can be preempted: [frames] says for every
    thread at which of these points of [_mtx_lock] or [mtx_unlock] it is.  The results: if
    threads take mutexes in the order of a rank and do not sleep while they own one, no
    assertion fails whatever the interleaving, except the one in [sched_lend_prio] in a
    situation that is described exactly; every blocked thread is on the turnstile of a
    mutex whose owner will wake it; and it waits for a thread that can run and whose
    priority is at least its own. *)

From stdpp Require Import sorting.
From S2P Require Import Prelude Time Sched.

Definition TC_TABLESIZE : Z := 256.
Definition TC_MASK : Z := TC_TABLESIZE - 1.
Definition TC_SHIFT : Z := 8.
Definition TC_HASH (wc : Z) : Z := Z.land (Z.lxor (Z.shiftr wc TC_SHIFT) wc) TC_MASK.

Inductive ts_state_t := FREE_UNBLOCKED | FREE_BLOCKED | USED_BLOCKED.
#[export] Instance ts_state_eq_dec : EqDecision ts_state_t.
Proof. solve_decision. Defined.

(** Turnstiles, threads and mutexes are known by their addresses, 0 is the null pointer. *)
Record turnstile := Turnstile {
  ts_free : list Z;
  ts_blocked : list Z;
  ts_wchan : Z;
  ts_owner : Z;
  ts_state : ts_state_t;
}.

Definition MTX_CONTESTED : Z := 1.
Definition MTX_FLAGMASK : Z := 7.

(** [m_recursive] is the bit [LK_RECURSIVE] of [m_attr]. *)
Record mtx := Mtx {
  m_recursive : bool;
  m_count : Z;
  m_owner : Z;
}.

(** Where a thread is: before the exchange of [_mtx_lock], after it has failed, in
    [turnstile_wait], or after the exchange of [mtx_unlock] has failed. *)
Inductive frame := Trying (m waitpt : Z) | Failed (m waitpt : Z) | Waited (m waitpt : Z) | Releasing (m : Z).

Record locks := Locks {
  sch : sched;
  tss : gmap Z turnstile;
  turnstile_chains : list (list Z);
  mtxs : gmap Z mtx;
  frames : gmap Z frame;
}.

Implicit Types (k : locks) (x : turnstile) (s : sched) (t : thread) (td ts m p : Z).

Definition set_sch s k := Locks s (tss k) (turnstile_chains k) (mtxs k) (frames k).
Definition set_tss T k := Locks (sch k) T (turnstile_chains k) (mtxs k) (frames k).
Definition set_chains c k := Locks (sch k) (tss k) c (mtxs k) (frames k).
Definition set_mtxs M k := Locks (sch k) (tss k) (turnstile_chains k) M (frames k).
Definition set_frames f k := Locks (sch k) (tss k) (turnstile_chains k) (mtxs k) f.

Definition on_sch k (f : sched -> outcome sched) : outcome locks := s ← f (sch k); Ok (set_sch s k).
Definition upd_td k td (f : thread -> thread) : outcome locks := on_sch k (fun s => upd s td f).

Definition get_ts k ts : outcome turnstile := match tss k !! ts with Some x => Ok x | None => Fault BadAccess end.
Definition put_ts k ts x : locks := set_tss (<[ts := x]> (tss k)) k.
Definition get_mtx k m : outcome mtx := match mtxs k !! m with Some y => Ok y | None => Fault BadAccess end.
Definition put_mtx k m (y : mtx) : locks := set_mtxs (<[m := y]> (mtxs k)) k.
Definition put_frame k td (f : frame) : locks := set_frames (<[td := f]> (frames k)) k.
Definition drop_frame k td : locks := set_frames (delete td (frames k)) k.

Definition set_blocked (l : list Z) x := Turnstile (ts_free x) l (ts_wchan x) (ts_owner x) (ts_state x).
Definition set_wchan (w : Z) x := Turnstile (ts_free x) (ts_blocked x) w (ts_owner x) (ts_state x).
Definition set_owner (o : Z) x := Turnstile (ts_free x) (ts_blocked x) (ts_wchan x) o (ts_state x).
Definition set_state (st : ts_state_t) x := Turnstile (ts_free x) (ts_blocked x) (ts_wchan x) (ts_owner x) st.
Definition set_free (l : list Z) x := Turnstile l (ts_blocked x) (ts_wchan x) (ts_owner x) (ts_state x).

Definition is_state (st : ts_state_t) x : bool := bool_decide (ts_state x = st).

(** ** Turnstiles *)

Definition turnstile_ctor : turnstile := Turnstile [] [] 0 0 FREE_UNBLOCKED.

Definition init_turnstile : list (list Z) := replicate (Z.to_nat TC_TABLESIZE) [].

(** [ts] is the address that the pool returns. *)
Definition turnstile_alloc k ts : locks := put_ts k ts turnstile_ctor.
Definition turnstile_destroy k ts : locks := set_tss (delete ts (tss k)) k.

(** The threads of a queue up to the first one whose priority is not [over], and the rest *)
Fixpoint pass k (over : Z -> bool) (l : list Z) : outcome (list Z * list Z) :=
  match l with
  | [] => Ok ([], [])
  | td :: l' =>
      t ← thr (sch k) td;
      if over (td_prio t) then '(passed, rest) ← pass k over l'; Ok (td :: passed, rest)
      else Ok ([], l)
  end.

(** The threads before and after [td] on a queue *)
Fixpoint around (l : list Z) td : outcome (list Z * list Z) :=
  match l with
  | [] => Fault BadAccess
  | y :: l => if y =? td then Ok ([], l) else '(before, after) ← around l td; Ok (y :: before, after)
  end.

Definition adjust_thread_forward k ts td : outcome locks :=
  x ← get_ts k ts;
  _ ← assert (is_state USED_BLOCKED x);
  t ← thr (sch k) td;
  '(before, after) ← around (ts_blocked x) td;
  '(passed, rest) ← pass k (fun q => prio_gt q (td_prio t)) after;
  Ok (put_ts k ts (set_blocked (before ++ passed ++ td :: rest) x)).

Definition adjust_thread_backward k ts td : outcome locks :=
  x ← get_ts k ts;
  _ ← assert (is_state USED_BLOCKED x);
  t ← thr (sch k) td;
  '(before, after) ← around (ts_blocked x) td;
  '(passed, rest) ← pass k (fun q => prio_lt q (td_prio t)) (rev before);
  Ok (put_ts k ts (set_blocked (rev rest ++ td :: rev passed ++ after) x)).

Definition adjust_thread k ts td (oldprio : Z) : outcome locks :=
  x ← get_ts k ts;
  _ ← assert (is_state USED_BLOCKED x);
  t ← thr (sch k) td;
  _ ← assert (td_is_blocked t);
  if prio_gt (td_prio t) oldprio then adjust_thread_backward k ts td
  else if prio_lt (td_prio t) oldprio then adjust_thread_forward k ts td
  else Ok k.

Definition acquire_owner k ts : outcome Z :=
  x ← get_ts k ts;
  _ ← assert (is_state USED_BLOCKED x);
  let td := ts_owner x in
  _ ← assert (negb (td =? 0));
  t ← thr (sch k) td;
  _ ← assert (negb (td_is_sleeping t));
  Ok td.

Fixpoint propagate_loop (fuel : nat) k td (prio : Z) : outcome locks :=
  t ← thr (sch k) td;
  (* Walk through blocked threads. *)
  if prio_lt (td_prio t) prio && negb (td_is_ready t) && negb (td_is_running t) then
    match fuel with
    | O => Fault OutOfFuel
    | S fuel =>
        _ ← assert (negb (td =? thread_self (sch k)));
        _ ← assert (td_is_blocked t);
        let oldprio := td_prio t in
        k ← on_sch k (fun s => sched_lend_prio s td prio);
        let ts := td_blocked t in
        _ ← assert (negb (ts =? 0));
        x ← get_ts k ts;
        _ ← assert (is_state USED_BLOCKED x);
        (* Resort td on the blocked list if needed. *)
        k ← adjust_thread k ts td oldprio;
        td ← acquire_owner k ts;
        propagate_loop fuel k td prio
    end
  (* Possibly finish at a running/runnable thread. *)
  else if prio_lt (td_prio t) prio && (td_is_ready t || td_is_running t) then
    k ← on_sch k (fun s => sched_lend_prio s td prio);
    t ← thr (sch k) td;
    _ ← assert (td_blocked t =? 0);
    Ok k
  else Ok k.

(** A chain of owners visits every thread once at most. *)
Definition propagate_priority k td : outcome locks :=
  t ← thr (sch k) td;
  let ts := td_blocked t in
  let prio := td_prio t in
  td ← acquire_owner k ts;
  propagate_loop (S (size (threads (sch k)))) k td prio.

Definition turnstile_adjust k td (oldprio : Z) : outcome locks :=
  t ← thr (sch k) td;
  _ ← assert (td_is_blocked t);
  let ts := td_blocked t in
  _ ← assert (negb (ts =? 0));
  x ← get_ts k ts;
  _ ← assert (is_state USED_BLOCKED x);
  k ← adjust_thread k ts td oldprio;
  (* If td got higher priority and it is at the head of ts_blocked, propagate its
     priority. *)
  x ← get_ts k ts;
  if bool_decide (head (ts_blocked x) = Some td) && prio_gt (td_prio t) oldprio then propagate_priority k td
  else Ok k.

(** [sched_set_prio] (sys/kern/sched.c) with the turnstiles *)
Definition set_prio k td (prio : Z) : outcome locks :=
  k ← upd_td k td (set_td_base_prio prio);
  t ← thr (sch k) td;
  if td_is_borrowing t && prio_gt (td_prio t) prio then Ok k
  else
    let oldprio := td_prio t in
    k ← on_sch k (fun s => sched_set_active_prio s td prio);
    if td_is_blocked t && prio_ne oldprio prio then turnstile_adjust k td oldprio else Ok k.

Definition switch_away k ts (waitpt : Z) : outcome locks :=
  x ← get_ts k ts;
  _ ← assert (is_state USED_BLOCKED x);
  let td := thread_self (sch k) in
  k ← upd_td k td (fun t =>
        set_td_state TDS_BLOCKED (set_td_waitpt waitpt (set_td_wchan (ts_wchan x) (set_td_blocked ts (set_td_turnstile 0 t)))));
  k ← propagate_priority k td;
  on_sch k (fun s => '(_, s) ← sched_switch s; Ok s).

Fixpoint give_back (l : list Z) k ts : outcome locks :=
  match l with
  | [] => Ok k
  | td :: l =>
      x ← get_ts k ts;
      '(ts_for_td, k) ← match ts_free x with
        | [] =>
            _ ← assert (empty l);
            _ ← assert (is_state USED_BLOCKED x);
            _ ← assert (negb (ts_wchan x =? 0));
            c ← arr_get (turnstile_chains k) (TC_HASH (ts_wchan x));
            c ← tailq_remove c ts;
            c ← arr_set (turnstile_chains k) (TC_HASH (ts_wchan x)) c;
            Ok (ts, set_chains c (put_ts k ts (set_wchan 0 x)))
        | f :: free =>
            y ← get_ts k f;
            _ ← assert (is_state FREE_BLOCKED y);
            _ ← assert (ts_wchan y =? 0);
            Ok (f, put_ts k ts (set_free free x))
        end;
      y ← get_ts k ts_for_td;
      k ← upd_td (put_ts k ts_for_td (set_state FREE_UNBLOCKED y)) td (set_td_turnstile ts_for_td);
      give_back l k ts
  end.

Definition give_back_turnstiles k ts : outcome locks :=
  x ← get_ts k ts;
  _ ← assert (is_state USED_BLOCKED x);
  _ ← assert (ts_owner x =? thread_self (sch k));
  give_back (ts_blocked x) k ts.

(** The highest priority of the threads that are first on the turnstiles [l] *)
Fixpoint lent_prio k td (l : list Z) (prio : Z) : outcome Z :=
  match l with
  | [] => Ok prio
  | ts_owned :: l =>
      x ← get_ts k ts_owned;
      _ ← assert (ts_owner x =? td);
      match ts_blocked x with
      | [] => Fault BadAccess
      | first :: _ =>
          t ← thr (sch k) first;
          let q := td_prio t in
          lent_prio k td l (if prio_gt q prio then q else prio)
      end
  end.

Definition unlend_self k ts : outcome locks :=
  let td := thread_self (sch k) in
  x ← get_ts k ts;
  _ ← assert (ts_owner x =? td);
  let k := put_ts k ts (set_owner 0 x) in
  t ← thr (sch k) td;
  l ← tailq_remove (td_contested t) ts;
  k ← upd_td k td (set_td_contested l);
  prio ← lent_prio k td l (prio_uthread 255);
  on_sch k (fun s => sched_unlend_prio s td prio).

Fixpoint wakeup_blocked (l : list Z) k ts : outcome locks :=
  match l with
  | [] => Ok k
  | td :: l =>
      x ← get_ts k ts;
      let k := put_ts k ts (set_blocked l x) in
      t ← thr (sch k) td;
      _ ← assert (td_is_blocked t);
      k ← upd_td k td (fun t => set_td_waitpt 0 (set_td_wchan 0 (set_td_blocked 0 t)));
      k ← on_sch k (fun s => sched_wakeup s td 0);
      wakeup_blocked l k ts
  end.

Fixpoint lookup_ts (T : gmap Z turnstile) (l : list Z) (wchan : Z) : outcome (option Z) :=
  match l with
  | [] => Ok None
  | ts :: l =>
      match T !! ts with
      | Some x =>
          _ ← assert (is_state USED_BLOCKED x);
          if ts_wchan x =? wchan then Ok (Some ts) else lookup_ts T l wchan
      | None => Fault BadAccess
      end
  end.

Definition turnstile_lookup k (wchan : Z) : outcome (option Z) :=
  l ← arr_get (turnstile_chains k) (TC_HASH wchan);
  lookup_ts (tss k) l wchan.

Definition turnstile_take k (wchan : Z) : outcome (Z * locks) :=
  pd ← preempt_disabled (sch k);
  _ ← assert pd;
  found ← turnstile_lookup k wchan;
  match found with
  | Some ts => Ok (ts, k)
  | None =>
      t ← thr (sch k) (thread_self (sch k));
      let ts := td_turnstile t in
      _ ← assert (negb (ts =? 0));
      x ← get_ts k ts;
      Ok (ts, put_ts k ts (set_wchan wchan x))
  end.

Definition turnstile_give k ts : outcome locks :=
  pd ← preempt_disabled (sch k);
  _ ← assert pd;
  t ← thr (sch k) (thread_self (sch k));
  if ts =? td_turnstile t then x ← get_ts k ts; Ok (put_ts k ts (set_wchan 0 x)) else Ok k.

Definition turnstile_wait k ts (owner waitpt : Z) : outcome locks :=
  pd ← preempt_disabled (sch k);
  _ ← assert pd;
  let td := thread_self (sch k) in
  t ← thr (sch k) td;
  x ← get_ts k ts;
  k ← (if negb (ts =? td_turnstile t) then
         (* Hang off thread's turnstile from ts_free list as we're not the first thread to
            block on waiting channel. *)
         _ ← assert (is_state USED_BLOCKED x);
         k ← adjust_thread_forward (put_ts k ts (set_blocked (td :: ts_blocked x) x)) ts td;
         let nts := td_turnstile t in
         k ← upd_td k td (set_td_turnstile 0);
         _ ← assert (owner =? ts_owner x);
         _ ← assert (negb (nts =? 0));
         y ← get_ts k nts;
         _ ← assert (is_state FREE_UNBLOCKED y);
         let k := put_ts k nts (set_state FREE_BLOCKED y) in
         x ← get_ts k ts;
         Ok (put_ts k ts (set_free (nts :: ts_free x) x))
       else
         (* Provide thread's own turnstile to be used as head of list of threads blocked on
            given waiting channel. *)
         _ ← assert (empty (ts_blocked x));
         _ ← assert (empty (ts_free x));
         _ ← assert (ts_owner x =? 0);
         _ ← assert (negb (ts_wchan x =? 0));
         _ ← assert (is_state FREE_UNBLOCKED x);
         k ← upd_td k owner (fun t => set_td_contested (ts :: td_contested t) t);
         c ← arr_get (turnstile_chains k) (TC_HASH (ts_wchan x));
         c ← arr_set (turnstile_chains k) (TC_HASH (ts_wchan x)) (ts :: c);
         Ok (set_chains c (put_ts k ts (Turnstile (ts_free x) (ts_blocked x ++ [td]) (ts_wchan x) owner USED_BLOCKED))));
  switch_away k ts waitpt.

Definition turnstile_broadcast k (wchan : Z) : outcome locks :=
  pd ← preempt_disabled (sch k);
  _ ← assert pd;
  found ← turnstile_lookup k wchan;
  match found with
  | None => Fault AssertFailed
  | Some ts =>
      x ← get_ts k ts;
      _ ← assert (is_state USED_BLOCKED x);
      _ ← assert (ts_owner x =? thread_self (sch k));
      _ ← assert (negb (empty (ts_blocked x)));
      k ← give_back_turnstiles k ts;
      k ← unlend_self k ts;
      k ← wakeup_blocked (ts_blocked x) k ts;
      x ← get_ts k ts;
      _ ← assert (is_state FREE_UNBLOCKED x);
      Ok k
  end.

(** ** Mutexes *)

Definition mtx_owner (y : mtx) : Z := Z.land (m_owner y) (Z.lnot MTX_FLAGMASK).
Definition mtx_owned k (y : mtx) : bool := mtx_owner y =? thread_self (sch k).

Definition mtx_init (recursive : bool) : mtx := Mtx recursive 0 0.

(** [_mtx_lock] up to its loop *)
Definition mtx_lock k m (waitpt : Z) : outcome locks :=
  y ← get_mtx k m;
  if mtx_owned k y then
    if negb (m_recursive y) then panic else Ok (put_mtx k m (Mtx (m_recursive y) (uwrap 32 (m_count y + 1)) (m_owner y)))
  else Ok (put_frame k (thread_self (sch k)) (Trying m waitpt)).

(** Fast path: if lock has no owner then take ownership. *)
Definition mtx_try k m (waitpt : Z) : outcome locks :=
  let td := thread_self (sch k) in
  y ← get_mtx k m;
  if m_owner y =? 0 then Ok (drop_frame (put_mtx k m (Mtx (m_recursive y) (m_count y) td)) td)
  else Ok (put_frame k td (Failed m waitpt)).

(** The rest of the body of the loop, up to the switch in [turnstile_wait] *)
Definition mtx_block k m (waitpt : Z) : outcome locks :=
  let td := thread_self (sch k) in
  k ← on_sch k preempt_disable;
  '(ts, k) ← turnstile_take k m;
  y ← get_mtx k m;
  if negb (m_owner y =? 0) then
    t ← thr (sch k) td;
    (* we're the first thread to block, so lock is now being contested *)
    let k := if ts =? td_turnstile t then put_mtx k m (Mtx (m_recursive y) (m_count y) (Z.lor (m_owner y) MTX_CONTESTED)) else k in
    y ← get_mtx k m;
    turnstile_wait (put_frame k td (Waited m waitpt)) ts (mtx_owner y) waitpt
  else
    k ← turnstile_give k ts;
    on_sch (put_frame k td (Trying m waitpt)) preempt_enable.

(** The end of the body after [turnstile_wait] *)
Definition mtx_resume k m (waitpt : Z) : outcome locks :=
  on_sch (put_frame k (thread_self (sch k)) (Trying m waitpt)) preempt_enable.

(** [mtx_unlock] up to the failure of its exchange *)
Definition mtx_unlock k m : outcome locks :=
  let td := thread_self (sch k) in
  y ← get_mtx k m;
  _ ← assert (mtx_owned k y);
  if 0 <? m_count y then
    _ ← assert (m_recursive y);
    Ok (put_mtx k m (Mtx (m_recursive y) (m_count y - 1) (m_owner y)))
  (* Fast path: if lock is not contested then drop ownership. *)
  else if m_owner y =? td then Ok (put_mtx k m (Mtx (m_recursive y) (m_count y) 0))
  else Ok (put_frame k td (Releasing m)).

Definition mtx_release k m : outcome locks :=
  let td := thread_self (sch k) in
  k ← on_sch k preempt_disable;
  y ← get_mtx k m;
  let owner := m_owner y in
  let k := put_mtx k m (Mtx (m_recursive y) (m_count y) 0) in
  k ← (if flag_on owner MTX_CONTESTED then turnstile_broadcast k m else Ok k);
  on_sch (drop_frame k td) preempt_enable.

(** The running thread goes on inside [_mtx_lock] or [mtx_unlock]. *)
Definition mtx_step k : outcome locks :=
  match frames k !! thread_self (sch k) with
  | None => Ok k
  | Some (Trying m waitpt) => mtx_try k m waitpt
  | Some (Failed m waitpt) => mtx_block k m waitpt
  | Some (Waited m waitpt) => mtx_resume k m waitpt
  | Some (Releasing m) => mtx_release k m
  end.

(** ** What the turnstiles know of a thread *)

Lemma get_ts_some k ts x : tss k !! ts = Some x -> get_ts k ts = Ok x.
Proof. intros H. unfold get_ts. by rewrite H. Qed.

Lemma get_mtx_some k m (y : mtx) : mtxs k !! m = Some y -> get_mtx k m = Ok y.
Proof. intros H. unfold get_mtx. by rewrite H. Qed.

Inductive kind := Runnable | Blocked | Other.
#[export] Instance kind_eq_dec : EqDecision kind.
Proof. solve_decision. Defined.

Definition kind_of (st : thread_state_t) : kind :=
  match st with TDS_READY | TDS_RUNNING => Runnable | TDS_BLOCKED => Blocked | _ => Other end.

(** The links of a thread, its priorities, and its nesting of disabled preemption *)
Record wkey := Key {
  k_kind : kind;
  k_blocked : Z;
  k_ts : Z;
  k_contested : list Z;
  k_wchan : Z;
}.

Record pview := Prio {
  v_prio : Z;
  v_base : Z;
  v_borrow : bool;
}.

Definition key_of t : wkey := Key (kind_of (td_state t)) (td_blocked t) (td_turnstile t) (td_contested t) (td_wchan t).
Definition prio_of t : pview := Prio (td_prio t) (td_base_prio t) (td_is_borrowing t).

Definition keys s : gmap Z wkey := key_of <$> threads s.
Definition prios s : gmap Z pview := prio_of <$> threads s.
Definition nests s : gmap Z Z := td_pdnest <$> threads s.

Definition same_views s s' : Prop := keys s' = keys s /\ prios s' = prios s /\ nests s' = nests s.

Lemma keys_lookup s td t : threads s !! td = Some t -> keys s !! td = Some (key_of t).
Proof. intros H. unfold keys. by rewrite lookup_fmap, H. Qed.

Lemma prios_lookup s td t : threads s !! td = Some t -> prios s !! td = Some (prio_of t).
Proof. intros H. unfold prios. by rewrite lookup_fmap, H. Qed.

Lemma nests_lookup s td t : threads s !! td = Some t -> nests s !! td = Some (td_pdnest t).
Proof. intros H. unfold nests. by rewrite lookup_fmap, H. Qed.

Lemma keys_inv s td v : keys s !! td = Some v -> exists t, threads s !! td = Some t /\ v = key_of t.
Proof. unfold keys. rewrite lookup_fmap. intros H. apply fmap_Some in H as (t & Ht & ->). by exists t. Qed.

Lemma prios_inv s td v : prios s !! td = Some v -> exists t, threads s !! td = Some t /\ v = prio_of t.
Proof. unfold prios. rewrite lookup_fmap. intros H. apply fmap_Some in H as (t & Ht & ->). by exists t. Qed.

Lemma views_update s s' td t : threads s' = <[td := t]> (threads s) ->
  keys s' = <[td := key_of t]> (keys s) /\ prios s' = <[td := prio_of t]> (prios s) /\ nests s' = <[td := td_pdnest t]> (nests s).
Proof. intros E. unfold keys, prios, nests. rewrite E, !fmap_insert. done. Qed.

Lemma same_td_views t t' : same_td t t' -> key_of t' = key_of t /\ prio_of t' = prio_of t /\ td_pdnest t' = td_pdnest t.
Proof.
  intros (Hk & _ & Hf). unfold td_key in Hk. injection Hk as E1 E2 E3 E4 E5 E6 E7 E8 E9 E10 E11. unfold key_of, prio_of, td_is_borrowing.
  change TDF_BORROWING with (2 ^ 4). rewrite !flag_on_bit, Hf by lia. by rewrite E1, E2, E3, E6, E9, E10, E11.
Qed.

(** A map whose entries are equal except at one key *)
Lemma views_eq s s' : (forall td, option_Forall2 (fun t t' => key_of t' = key_of t /\ prio_of t' = prio_of t /\ td_pdnest t' = td_pdnest t) (threads s !! td) (threads s' !! td)) ->
  same_views s s'.
Proof.
  intros H. unfold same_views, keys, prios, nests. split_and!; apply map_eq; intros x; rewrite !lookup_fmap; destruct (H x) as [t t' (E1 & E2 & E3)|]; cbn; congruence.
Qed.

Lemma runnable_state t st : kind_of (td_state t) = Runnable -> kind_of st = Runnable ->
  key_of (set_td_state st t) = key_of t /\ prio_of (set_td_state st t) = prio_of t /\ td_pdnest (set_td_state st t) = td_pdnest t.
Proof. intros H1 H2. unfold key_of, prio_of, td_is_borrowing. cbn. by rewrite H1, H2. Qed.

Lemma self_runnable s t : sched_inv s -> threads s !! curthread s = Some t -> kind_of (td_state t) = Runnable.
Proof. intros I Ht. destruct (si_self _ I) as (t' & Ht' & [Hs|[_ Hs]]); assert (t' = t) as -> by congruence; by rewrite Hs. Qed.

Lemma idle_runnable s v : sched_inv s -> keys s !! idle_thread s = Some v -> k_kind v = Runnable.
Proof. intros I Hv. apply keys_inv in Hv as (t & Ht & ->). destruct (si_idle _ I) as (t' & Ht' & [Hs|Hs]); assert (t' = t) as -> by congruence; cbn; by rewrite Hs. Qed.

(** A switch away from a thread that is not ready changes nothing but its state. *)
Lemma switch_same s t st v s' :
  sched_inv s -> threads s !! curthread s = Some t -> switch_result s t st v s' -> (kind_of st <> Runnable -> curthread s <> idle_thread s) ->
  same_views (leave s t st) s'.
Proof.
  intros I Ht R Hst. apply views_eq. intros x. unfold leave. cbn [threads set_threads]. pose proof (self_runnable s t I Ht) as Hrun.
  destruct (decide (x = curthread s)) as [->|Hx].
  { rewrite lookup_insert_eq. destruct (sw_old _ _ _ _ _ R) as (t' & -> & _ & HS). constructor.
    destruct (same_td_views _ _ HS) as (-> & -> & ->). case_decide as Hd; [|done]. destruct Hd as [Hc Hni].
    destruct (decide (kind_of st = Runnable)) as [Hr|Hr].
    - destruct (runnable_state t st Hrun Hr) as (-> & -> & ->). by apply runnable_state.
    - exfalso. assert (requeue s t st = runq s) as Erq by (unfold requeue; rewrite decide_False; [done|]; intros [-> _]; by apply Hr).
      destruct (choose_loop (requeue s t st)) as [n|] eqn:Ec.
      + destruct (sw_some _ _ _ _ _ R n Ec) as (Hn & _ & i & q & Hi & _). rewrite Erq in Hi.
        apply (self_not_ready s (Z.of_nat i) I). apply (qo_in _ _ (si_queues _ I) _ _ _ Hi). rewrite <- Hc, Hn. set_solver.
      + destruct (sw_none _ _ _ _ _ R Ec) as [Hn _]. congruence. }
  rewrite lookup_insert_ne by done. destruct (decide (x = curthread s')) as [->|Hx'].
  - destruct (sw_new _ _ _ _ _ R Hx) as (tn & tn' & -> & -> & Hr & _ & _ & HS). constructor.
    destruct (same_td_views _ _ HS) as (-> & -> & ->). case_decide; [done|]. apply runnable_state; [by rewrite Hr|done].
  - rewrite (sw_other _ _ _ _ _ R x Hx Hx'). by destruct (threads s !! x); constructor.
Qed.

Lemma same_views_trans s1 s2 s3 : same_views s1 s2 -> same_views s2 s3 -> same_views s1 s3.
Proof. intros (E1 & E2 & E3) (F1 & F2 & F3). split_and!; congruence. Qed.

Lemma yield_same s : sched_inv s -> exists s', thread_yield s = Ok s' /\ sched_inv s' /\ same_views s s' /\ idle_thread s' = idle_thread s.
Proof.
  intros I. destruct (si_self _ I) as (t & Ht & _). destruct (yield_spec s t I Ht) as (v & s' & E & R).
  exists s'. split_and!; [done|apply (sw_inv _ _ _ _ _ R)| |apply (sw_const _ _ _ _ _ R)].
  apply (same_views_trans s (leave s t TDS_READY)); [|by apply (switch_same s t TDS_READY v)].
  apply views_eq. intros x. unfold leave. cbn. destruct (decide (x = curthread s)) as [->|Hx].
  - rewrite lookup_insert_eq, Ht. constructor. apply runnable_state; [by apply (self_runnable s)|done].
  - rewrite lookup_insert_ne by done. by destruct (threads s !! x); constructor.
Qed.

Lemma preempt_same s : sched_inv s -> exists s', sched_maybe_preempt s = Ok s' /\ sched_inv s' /\ same_views s s' /\ idle_thread s' = idle_thread s.
Proof.
  intros I. destruct (si_self _ I) as (t & Ht & _). rewrite (maybe_preempt_spec s t) by done.
  destruct (yield_same s I) as (s' & E & HH). assert (same_views s s) by done. repeat case_match; eauto 10.
Qed.

Lemma wakeup_spec s td t reason : sched_inv s -> threads s !! td = Some t -> td_state t <> TDS_READY -> td_state t <> TDS_RUNNING ->
  exists s', sched_wakeup s td reason = Ok s' /\ sched_inv s' /\ curthread s' = curthread s /\ idle_thread s' = idle_thread s /\
    keys s' = <[td := key_of (set_td_state TDS_READY t)]> (keys s) /\ prios s' = prios s /\ nests s' = nests s.
Proof.
  intros I Ht H1 H2. destruct (sched_wakeup_spec s td t reason I Ht H1 H2)
    as (s' & q & t' & E & I' & _ & _ & Hc & Hi & _ & Ht' & (Hk & _ & Hf) & _ & Hother & c & c' & Hcc & Hcc' & HS & _).
  exists s'. do 4 (split; [done|]). assert (same_views (set_threads (<[td := set_td_state TDS_READY t]> (threads s)) s) s') as (E1 & E2 & E3).
  { apply views_eq. intros x. cbn. destruct (decide (x = td)) as [->|Hx].
    - rewrite lookup_insert_eq, Ht'. constructor. unfold td_key in Hk. injection Hk as E1 E2 E3 E4 E5 E6 E7 E8 E9 E10 E11.
      unfold key_of, prio_of, td_is_borrowing. by rewrite Hf, E1, E2, E3, E6, E9, E10, E11.
    - rewrite lookup_insert_ne by done. destruct (decide (x = curthread s)) as [->|Hxc].
      + rewrite Hcc, Hcc'. constructor. by apply same_td_views.
      + rewrite Hother by done. by destruct (threads s !! x); constructor. }
  rewrite E1, E2, E3. destruct (views_update s (set_threads (<[td := set_td_state TDS_READY t]> (threads s)) s) td (set_td_state TDS_READY t) eq_refl) as (F1 & F2 & F3).
  rewrite F1, F2, F3. split_and!; [done| |]; apply insert_id; [exact (prios_lookup s td t Ht)|exact (nests_lookup s td t Ht)].
Qed.

(** ** Priorities *)

(** A thread that has left the processor but not switched yet: the state of the scheduler
    is the one of [s0] except for that. *)
Definition shade s s0 : Prop :=
  sched_inv s0 /\ (s = s0 \/ exists t0, threads s0 !! curthread s0 = Some t0 /\ curthread s0 <> idle_thread s0 /\ s = leave s0 t0 TDS_BLOCKED).

Lemma leave_other s t0 td : threads s !! curthread s = Some t0 -> sched_inv s -> leave s t0 TDS_BLOCKED = s \/ td <> curthread (leave s t0 TDS_BLOCKED) -> td <> curthread s.
Proof.
  intros Ht0 I [Hc|Hc]; [|exact Hc]. exfalso. apply (f_equal threads) in Hc. unfold leave in Hc. cbn in Hc. pose proof (self_runnable s t0 I Ht0) as Hr.
  rewrite <- Hc, lookup_insert_eq in Ht0. injection Ht0 as Ht0. rewrite <- Ht0 in Hr. done.
Qed.

(** A step that concerns another thread than the one that is leaving *)
Lemma active_spec s s0 td t p : shade s s0 -> threads s !! td = Some t -> td <> idle_thread s -> (s = s0 \/ td <> curthread s) -> 0 <= p < 256 ->
  exists s' s0', sched_set_active_prio s td p = Ok s' /\ shade s' s0' /\ (s = s0 -> s' = s0') /\ curthread s' = curthread s /\ idle_thread s' = idle_thread s /\
    threads s' = <[td := set_td_prio p t]> (threads s).
Proof.
  intros [I [->|(t0 & Ht0 & Hni & ->)]] Ht Hi Hc Hp.
  { destruct (set_active_prio_spec s0 td t p I Ht Hp Hi) as (rq & E & I'). exists (set_runq rq (set_threads (<[td := set_td_prio p t]> (threads s0)) s0)). eexists. split; [exact E|].
    split; [split; [exact I'|by left]|]. done. }
  pose proof (leave_other s0 t0 td Ht0 I Hc) as Hne.
  unfold leave in Ht. cbn in Ht. rewrite lookup_insert_ne in Ht by done.
  destruct (set_active_prio_spec s0 td t p I Ht Hp Hi) as (rq & E & I'). set (s0' := set_runq rq (set_threads (<[td := set_td_prio p t]> (threads s0)) s0)) in *.
  exists (leave s0' t0 TDS_BLOCKED), s0'. assert (sched_set_active_prio (leave s0 t0 TDS_BLOCKED) td p = Ok (leave s0' t0 TDS_BLOCKED)) as ->.
  { revert E. unfold sched_set_active_prio, s0'. assert (thr (leave s0 t0 TDS_BLOCKED) td = Ok t) as Et by (unfold thr, leave; cbn; by rewrite lookup_insert_ne, Ht).
    rewrite Et, (thr_some s0 td t Ht). cbn [mbind outcome_bind]. destruct (prio_eq (td_prio t) p).
    - intros E. injection E as E. by rewrite <- E.
    - destruct (td_is_ready t).
      + unfold runq_remove. rewrite Et, (thr_some s0 td t Ht). cbn [mbind outcome_bind]. change (runq (leave s0 t0 TDS_BLOCKED)) with (runq s0).
        destruct (arr_get (runq s0) _) as [q|]; [|done]. cbn [mbind outcome_bind]. destruct (decide (td ∈ q)); [|done]. destruct (arr_set (runq s0) _ _) as [rq1|]; [|done]. cbn [mbind outcome_bind].
        unfold upd. unfold thr. cbn. rewrite lookup_insert_ne, Ht by done. cbn. unfold runq_add, thr. cbn. rewrite !lookup_insert_eq. cbn.
        destruct (arr_get rq1 _) as [q2|]; [|done]. cbn. destruct (arr_set rq1 _ _) as [rq2|]; [|done]. cbn. intros E. injection E as E. unfold leave. cbn. subst rq2. by rewrite insert_insert_ne.
      + unfold upd. rewrite Et, (thr_some s0 td t Ht). cbn. intros E. injection E as E. unfold leave. cbn. rewrite insert_insert_ne by done. by destruct E. }
  split; [done|]. split; [split; [exact I'|]|split; [|split_and!; try done]].
  - right. exists t0. unfold s0'. cbn. by rewrite lookup_insert_ne.
  - intros Hc'. by destruct (leave_other s0 t0 (curthread s0) Ht0 I (or_introl Hc')).
  - unfold leave, s0'. cbn. by rewrite insert_insert_ne.
Qed.

Lemma upd_shade s s0 td t t' : shade s s0 -> threads s !! td = Some t -> (s = s0 \/ td <> curthread s) ->
  td_state t' = td_state t -> td_prio t' = td_prio t -> 0 <= td_base_prio t' < 256 ->
  exists s0', shade (set_threads (<[td := t']> (threads s)) s) s0' /\ (s = s0 -> set_threads (<[td := t']> (threads s)) s = s0').
Proof.
  intros [I [->|(t0 & Ht0 & Hni & ->)]] Ht Hc E1 E2 Hb.
  { exists (set_threads (<[td := t']> (threads s0)) s0). split; [|done]. split; [by apply (upd_inv s0 td t)|by left]. }
  pose proof (leave_other s0 t0 td Ht0 I Hc) as Hne. unfold leave in Ht. cbn in Ht. rewrite lookup_insert_ne in Ht by done. set (s0' := set_threads (<[td := t']> (threads s0)) s0).
  exists s0'. split; [split; [by apply (upd_inv s0 td t)|]|].
  - right. exists t0. split; [unfold s0'; cbn; by rewrite lookup_insert_ne|]. split; [done|]. unfold leave, s0'. cbn. by rewrite insert_insert_ne.
  - intros Hc'. by destruct (leave_other s0 t0 (curthread s0) Ht0 I (or_introl Hc')).
Qed.

Lemma lend_spec s s0 td t p : shade s s0 -> threads s !! td = Some t -> td <> idle_thread s -> (s = s0 \/ td <> curthread s) -> 0 <= p < td_prio t -> prio_ok t ->
  exists s' s0', sched_lend_prio s td p = Ok s' /\ shade s' s0' /\ (s = s0 -> s' = s0') /\ curthread s' = curthread s /\ idle_thread s' = idle_thread s /\
    keys s' = keys s /\ prios s' = <[td := Prio p (td_base_prio t) true]> (prios s) /\ nests s' = nests s /\ size (threads s') = size (threads s) /\
    exists t', threads s' !! td = Some t' /\ td_blocked t' = td_blocked t.
Proof.
  intros Sh Ht Hi Hc Hp [Hp1 Hp2]. unfold sched_lend_prio. rewrite (thr_some s td t Ht). cbn [mbind outcome_bind]. unfold prio_lt. assert_step lia.
  rewrite (upd_some s td t) by done. cbn [mbind outcome_bind]. set (t1 := set_td_flags _ t).
  destruct (upd_shade s s0 td t t1 Sh Ht Hc eq_refl eq_refl Hp2) as (s01 & Sh1 & Es).
  destruct (active_spec _ s01 td t1 p Sh1) as (s' & s0' & -> & Sh' & Es' & Hc' & Hi' & Hth); [apply lookup_insert_eq|done| |lia|].
  { destruct Hc as [Hc|Hc]; [by left; apply Es|by right]. }
  exists s', s0'. split; [done|]. split; [done|]. split; [by intros E; apply Es', Es|]. split; [done|]. split; [done|].
  cbn in Hth. rewrite insert_insert_eq in Hth. destruct (views_update s s' td _ Hth) as (K & P & N). rewrite K, P, N.
  split; [exact (insert_id _ _ _ (keys_lookup s td t Ht))|]. split.
  { f_equal. unfold prio_of, t1, td_is_borrowing. cbn. f_equal. change TDF_BORROWING with (2 ^ 4). by rewrite flag_set_eq. }
  split; [exact (insert_id _ _ _ (nests_lookup s td t Ht))|]. split; [rewrite Hth, map_size_insert_Some by (by eexists); done|]. exists (set_td_prio p t1). by rewrite Hth, lookup_insert_eq.
Qed.

(** The priority is given back. *)
Lemma unlend_spec s td t p : sched_inv s -> threads s !! td = Some t -> td <> idle_thread s -> td_base_prio t <= p ->
  exists s', sched_unlend_prio s td p = Ok s' /\ sched_inv s' /\ curthread s' = curthread s /\ idle_thread s' = idle_thread s /\
    keys s' = keys s /\ prios s' = <[td := Prio (td_base_prio t) (td_base_prio t) false]> (prios s) /\ nests s' = nests s.
Proof.
  intros I Ht Hi Hp. pose proof (si_prio _ I td t Ht) as [Hp1 Hp2]. unfold sched_unlend_prio. rewrite (thr_some s td t Ht). cbn [mbind outcome_bind]. unfold prio_le. rewrite (proj2 (Z.leb_le _ _) Hp).
  rewrite (upd_some s td t) by done. cbn [mbind outcome_bind]. set (t1 := set_td_flags _ t).
  destruct (upd_shade s s td t t1 (conj I (or_introl eq_refl)) Ht (or_introl eq_refl) eq_refl eq_refl Hp2) as (s01 & Sh1 & Es). rewrite Es in Sh1 |- * by done.
  destruct (active_spec s01 s01 td t1 (td_base_prio t) Sh1) as (s' & s0' & -> & Sh' & Es' & Hc' & Hi' & Hth); try done; try (rewrite <- Es by done; try done; apply lookup_insert_eq); [by left|].
  exists s'. rewrite <- Es in Hc', Hi', Hth by done. split; [done|]. split; [destruct Sh' as [I' [->|(t0 & Ht0 & Hni & E)]]; [done|by rewrite Es' in *]|]. split; [done|]. split; [done|].
  cbn in Hth. rewrite insert_insert_eq in Hth. destruct (views_update s s' td _ Hth) as (K & P & N). rewrite K, P, N.
  split; [exact (insert_id _ _ _ (keys_lookup s td t Ht))|]. split; [|exact (insert_id _ _ _ (nests_lookup s td t Ht))].
  f_equal. unfold prio_of, t1, td_is_borrowing. cbn. f_equal. change TDF_BORROWING with (2 ^ 4). by rewrite flag_clr_eq.
Qed.

(** ** Who has which turnstile *)

(** A turnstile belongs to a thread that is not blocked, to the free list of another one, or
    to a mutex. *)
Inductive holder := OfThread (td : Z) | OfFree (ts : Z) | OfMutex (m : Z).

Definition ts_lent : turnstile := Turnstile [] [] 0 0 FREE_BLOCKED.

Notation keymap := (gmap Z wkey).
Notation tsmap := (gmap Z turnstile).

Implicit Types (K : keymap) (T : tsmap) (C : list (list Z)) (o q : Z).

Definition holds K T q (h : holder) : Prop :=
  match h with
  | OfThread td => exists v, K !! td = Some v /\ k_kind v <> Blocked /\ k_ts v = q
  | OfFree ts => exists x, T !! ts = Some x /\ q ∈ ts_free x
  | OfMutex m => exists x, T !! q = Some x /\ ts_state x = USED_BLOCKED /\ ts_wchan x = m
  end.

Record ts_ok K T C : Prop := {
  so_len : length C = 256%nat;
  so_nodup i l : C !! i = Some l -> NoDup l;
  so_chain i l q : C !! i = Some l -> q ∈ l <-> exists m, holds K T q (OfMutex m) /\ TC_HASH m = Z.of_nat i;
  so_null : T !! 0 = None;
  so_holder q h h' : holds K T q h -> holds K T q h' -> h = h';
  so_mutex q q' m : holds K T q (OfMutex m) -> holds K T q' (OfMutex m) -> q = q';
  so_thread q td : holds K T q (OfThread td) -> T !! q = Some turnstile_ctor;
  so_free q ts : holds K T q (OfFree ts) -> T !! q = Some ts_lent;
  so_used q x : T !! q = Some x -> ts_state x = USED_BLOCKED ->
    ts_wchan x <> 0 /\ NoDup (ts_blocked x) /\ NoDup (ts_free x) /\ length (ts_blocked x) = S (length (ts_free x)) /\ is_Some (K !! ts_owner x);
  so_unused q x : T !! q = Some x -> ts_state x <> USED_BLOCKED -> ts_free x = [];
  so_blocked q x td : T !! q = Some x -> ts_state x = USED_BLOCKED -> td ∈ ts_blocked x <-> exists v, K !! td = Some v /\ k_blocked v = q;
  so_view td v : K !! td = Some v -> (k_kind v = Blocked <-> k_blocked v <> 0) /\
    (k_kind v = Blocked -> exists x, T !! k_blocked v = Some x /\ ts_state x = USED_BLOCKED /\ ts_wchan x = k_wchan v);
  so_contested td v : K !! td = Some v -> NoDup (k_contested v) /\
    forall q, q ∈ k_contested v <-> exists x, T !! q = Some x /\ ts_state x = USED_BLOCKED /\ ts_owner x = td;
}.

Lemma tc_hash_range m : 0 <= TC_HASH m < 256.
Proof. unfold TC_HASH. change TC_MASK with (Z.ones 8). rewrite Z.land_ones by lia. apply Z.mod_pos_bound. lia. Qed.

(** [T'] differs from [T] in the order of blocked threads at most. *)
Definition resorted T T' : Prop :=
  forall q, option_Forall2 (fun x x' => exists l, x' = set_blocked l x /\ l ≡ₚ ts_blocked x) (T !! q) (T' !! q).

Lemma resorted_refl T : resorted T T.
Proof. intros q. destruct (T !! q) as [x|]; constructor. exists (ts_blocked x). by destruct x. Qed.

Lemma resorted_trans T1 T2 T3 : resorted T1 T2 -> resorted T2 T3 -> resorted T1 T3.
Proof.
  intros H1 H2 q. specialize (H1 q). specialize (H2 q). destruct H1 as [x x' (l & -> & Hl)|]; [|by inversion H2; constructor].
  inversion H2 as [? x'' (l' & -> & Hl') E1 E2|]; subst. constructor. exists l'. split; [done|]. cbn in Hl'. by rewrite Hl'.
Qed.

Lemma resorted_put T q x (l : list Z) : T !! q = Some x -> l ≡ₚ ts_blocked x -> resorted T (<[q := set_blocked l x]> T).
Proof.
  intros Hx Hl q'. destruct (decide (q' = q)) as [->|Hne]; [rewrite lookup_insert_eq, Hx; constructor; by exists l|]. rewrite lookup_insert_ne by done. apply resorted_refl.
Qed.

Lemma resorted_get T T' q x' : resorted T T' -> T' !! q = Some x' -> exists x, T !! q = Some x /\ ts_free x' = ts_free x /\ ts_wchan x' = ts_wchan x /\ ts_owner x' = ts_owner x /\ ts_state x' = ts_state x /\ ts_blocked x' ≡ₚ ts_blocked x.
Proof. intros H E. specialize (H q). rewrite E in H. inversion H as [x ? (l & -> & Hl) E1 E2|]; subst. by exists x. Qed.

Lemma resorted_sym T T' : resorted T T' -> resorted T' T.
Proof.
  intros H q. destruct (H q) as [x x' (l & -> & Hl)|]; constructor. exists (ts_blocked x). split; [by destruct x|]. by cbn.
Qed.

Lemma ts_resorted K T T' C : resorted T T' -> ts_ok K T C -> ts_ok K T' C.
Proof.
  intros R S. pose proof (fun q x' => resorted_get T T' q x' R) as H1. pose proof (fun q x' => resorted_get T' T q x' (resorted_sym _ _ R)) as H2.
  assert (forall q h, holds K T' q h <-> holds K T q h) as Hh.
  { intros q [td|ts|m]; [done|..]; split; (intros (y & Hy & HH)); [apply H1 in Hy as (x & Hx & E1 & _)|apply H2 in Hy as (x & Hx & E1 & _)|apply H1 in Hy as (x & Hx & _ & E2 & _ & E4 & _)|apply H2 in Hy as (x & Hx & _ & E2 & _ & E4 & _)];
      exists x; [by rewrite <- E1|by rewrite <- E1|destruct HH; split_and!; congruence..]. }
  assert (forall q x, ts_state x <> USED_BLOCKED -> ts_blocked x = [] -> T !! q = Some x -> T' !! q = Some x) as Hsame.
  { intros q x _ Hb Hx. specialize (R q). rewrite Hx in R. inversion R as [? x' (l & -> & Hl) E1 E2|]; subst. f_equal. rewrite Hb in Hl. apply Permutation_nil_r in Hl as ->. destruct x. cbn in *. by subst. }
  destruct S as [S1 S2 S3 S4 S5 S6 S7 S8 S9 S10 S11 S12 S13]. split; try done.
  - intros i l q Hi. rewrite (S3 i l q Hi). by setoid_rewrite Hh.
  - destruct (T' !! 0) as [x'|] eqn:E; [|done]. apply H1 in E as (x & Hx & _). congruence.
  - intros q h h'. rewrite !Hh. apply S5.
  - intros q q' m. rewrite !Hh. apply S6.
  - intros q td. rewrite Hh. intros H. apply Hsame; [done|done|by apply (S7 q td)].
  - intros q ts. rewrite Hh. intros H. apply Hsame; [done|done|by apply (S8 q ts)].
  - intros q x' Hx' Es. apply H1 in Hx' as (x & Hx & -> & -> & -> & E4 & E5). rewrite E5. apply (S9 q); [done|congruence].
  - intros q x' Hx' Es. apply H1 in Hx' as (x & Hx & -> & _ & _ & E4 & _). apply (S10 q); [done|congruence].
  - intros q x' td Hx' Es. apply H1 in Hx' as (x & Hx & _ & _ & _ & E4 & E5). rewrite E5. apply (S11 q); [done|congruence].
  - intros td v Hv. destruct (S12 td v Hv) as [B1 B2]. split; [done|]. intros Hb. destruct (B2 Hb) as (x & Hx & F1 & F2). apply H2 in Hx as (x' & Hx' & _ & E2 & _ & E4 & _). exists x'. split_and!; congruence.
  - intros td v Hv. destruct (S13 td v Hv) as [B1 B2]. split; [done|]. intros q. rewrite B2. split; intros (x & Hx & F1 & F2); [apply H2 in Hx as (x' & Hx' & _ & _ & E3 & E4 & _)|apply H1 in Hx as (x' & Hx' & _ & _ & E3 & E4 & _)]; exists x'; split_and!; congruence.
Qed.

Section turnstiles.
Context K T C.
Hypothesis S : ts_ok K T C.

Lemma tc_chain_get m : exists l, arr_get C (TC_HASH m) = Ok l /\ C !! Z.to_nat (TC_HASH m) = Some l.
Proof. apply arr_get_in_range. rewrite (so_len _ _ _ S). pose proof (tc_hash_range m). lia. Qed.

Lemma lookup_ts_spec m (l : list Z) : (forall q, q ∈ l -> exists m, holds K T q (OfMutex m)) ->
  (exists q, q ∈ l /\ holds K T q (OfMutex m) /\ lookup_ts T l m = Ok (Some q)) \/ ((forall q, q ∈ l -> ~ holds K T q (OfMutex m)) /\ lookup_ts T l m = Ok None).
Proof.
  induction l as [|q l IH]; intros Hl; [right; split; [set_solver|done]|].
  destruct (Hl q) as (m' & x & Hx & Hst & Hm); [set_solver|]. cbn [lookup_ts]. rewrite Hx. unfold is_state. rewrite bool_decide_true by done. cbn [assert mbind outcome_bind].
  destruct (Z.eqb_spec (ts_wchan x) m) as [E|E].
  - left. exists q. split_and!; [set_solver| |done]. exists x. split_and!; congruence.
  - destruct IH as [(q' & Hq' & Ho & ->)|[Hno ->]]; [set_solver| |].
    + left. exists q'. split_and!; [set_solver|done|done].
    + right. split; [|done]. intros q' [->|Hq']%elem_of_cons; [|by apply Hno]. intros (x' & Hx' & _ & Hm'). congruence.
Qed.

(** The chain of a mutex finds its turnstile. *)
Lemma tc_chain_lookup m l : C !! Z.to_nat (TC_HASH m) = Some l ->
  (exists q, holds K T q (OfMutex m) /\ lookup_ts T l m = Ok (Some q)) \/ ((forall q, ~ holds K T q (OfMutex m)) /\ lookup_ts T l m = Ok None).
Proof.
  intros Hl. pose proof (tc_hash_range m) as Hr. destruct (lookup_ts_spec m l) as [(q & _ & Ho & E)|[Hno E]].
  - intros q Hq. apply (so_chain _ _ _ S _ _ _ Hl) in Hq as (m' & Ho & _). by exists m'.
  - left. by exists q.
  - right. split; [|done]. intros q Ho. apply (Hno q); [|done]. apply (so_chain _ _ _ S _ _ _ Hl). exists m. split; [done|]. lia.
Qed.

Lemma own_ts td v : K !! td = Some v -> k_kind v <> Blocked -> T !! k_ts v = Some turnstile_ctor /\ k_ts v <> 0 /\ k_blocked v = 0.
Proof.
  intros Hv Hk. assert (T !! k_ts v = Some turnstile_ctor) as E by (apply (so_thread _ _ _ S _ td); by exists v). split; [done|]. split.
  - intros E0. rewrite E0, (so_null _ _ _ S) in E. done.
  - destruct (so_view _ _ _ S td v Hv) as [Hb _]. destruct (decide (k_blocked v = 0)) as [|Hne]; [done|]. by apply Hb in Hne.
Qed.

(** A blocked thread with its turnstile and the owner of the mutex *)
Lemma blocked_ts td v : K !! td = Some v -> k_kind v = Blocked ->
  exists x, T !! k_blocked v = Some x /\ ts_state x = USED_BLOCKED /\ ts_wchan x = k_wchan v /\ td ∈ ts_blocked x /\ is_Some (K !! ts_owner x) /\ k_blocked v <> 0.
Proof.
  intros Hv Hk. destruct (so_view _ _ _ S td v Hv) as [Hb Hx]. destruct (Hx Hk) as (x & E & Hst & Hw). exists x. split_and!; try done.
  - apply (so_blocked _ _ _ S _ x td E Hst). by exists v.
  - by apply (so_used _ _ _ S _ x E Hst).
  - by apply Hb.
Qed.

Lemma first_blocked q x : T !! q = Some x -> ts_state x = USED_BLOCKED -> exists td l, ts_blocked x = td :: l.
Proof. intros Hx Hst. destruct (so_used _ _ _ S q x Hx Hst) as (_ & _ & _ & Hlen & _). destruct (ts_blocked x) as [|td l]; [done|by exists td, l]. Qed.

(** Some turnstiles change hands. *)
Section moves.
Context (K' : keymap) (T' : tsmap) (moved : Z -> holder -> Prop) (gone : Z -> Prop).
Hypothesis Hmove : forall q h, holds K' T' q h <-> moved q h \/ ~ gone q /\ holds K T q h.
Hypothesis Hgone : forall q h, moved q h -> gone q.
Hypothesis Hone : forall q h h', moved q h -> moved q h' -> h = h'.
Hypothesis Hnew : forall q q' m, moved q (OfMutex m) -> holds K' T' q' (OfMutex m) -> q = q'.

Lemma moves_holder q h h' : holds K' T' q h -> holds K' T' q h' -> h = h'.
Proof.
  rewrite !Hmove. intros [H|[Hn H]] [H'|[Hn' H']]; [by apply (Hone q)|by apply Hgone in H|by apply Hgone in H'|by apply (so_holder _ _ _ S q)].
Qed.

Lemma moves_mutex q q' m : holds K' T' q (OfMutex m) -> holds K' T' q' (OfMutex m) -> q = q'.
Proof.
  intros H1 H2. pose proof (proj1 (Hmove _ _) H1) as [H|[_ H]]; [by apply (Hnew q q' m)|].
  pose proof (proj1 (Hmove _ _) H2) as [H'|[_ H']]; [symmetry; by apply (Hnew q' q m)|]. by apply (so_mutex _ _ _ S q q' m).
Qed.
End moves.

(** ** The first thread blocks on a mutex *)

Section first.
Context (td o m : Z) (v v' vo : wkey) (l : list Z).
Hypothesis Hv : K !! td = Some v.
Hypothesis Hk : k_kind v <> Blocked.
Hypothesis Hm : m <> 0.
Hypothesis Hv' : k_kind v' = Blocked /\ k_blocked v' = k_ts v /\ k_contested v' = k_contested v /\ k_wchan v' = m.
Hypothesis Hno : forall q, ~ holds K T q (OfMutex m).
Hypothesis Ho : K !! o = Some vo.
Hypothesis Hot : o <> td.
Hypothesis Hl : C !! Z.to_nat (TC_HASH m) = Some l.

Let q0 := k_ts v.
Let vo' := Key (k_kind vo) (k_blocked vo) (k_ts vo) (q0 :: k_contested vo) (k_wchan vo).
Let K' := <[td := v']> (<[o := vo']> K).
Let x0 := Turnstile [] [td] m o USED_BLOCKED.
Let T' := <[q0 := x0]> T.

Lemma first_own : T !! q0 = Some turnstile_ctor /\ q0 <> 0 /\ holds K T q0 (OfThread td).
Proof. destruct (own_ts td v Hv Hk) as (E & Hn & _). split_and!; try done. by exists v. Qed.

Lemma first_key td' u : K' !! td' = Some u -> td' = td /\ u = v' \/ td' <> td /\ exists u0, K !! td' = Some u0 /\ k_kind u = k_kind u0 /\ k_blocked u = k_blocked u0 /\ k_ts u = k_ts u0 /\
  k_wchan u = k_wchan u0 /\ k_contested u = if decide (td' = o) then q0 :: k_contested u0 else k_contested u0.
Proof.
  unfold K'. destruct (decide (td' = td)) as [->|Hne]; [rewrite lookup_insert_eq; intros [= <-]; by left|rewrite lookup_insert_ne by done].
  destruct (decide (td' = o)) as [->|Hno']; [rewrite lookup_insert_eq|rewrite lookup_insert_ne by done]; [intros [= <-]; right; split; [done|]; by exists vo|].
  intros Hu. right. split; [done|]. by exists u.
Qed.

Lemma first_key_inv td' u0 : K !! td' = Some u0 -> td' <> td -> exists u, K' !! td' = Some u /\ k_kind u = k_kind u0 /\ k_blocked u = k_blocked u0 /\ k_ts u = k_ts u0.
Proof.
  intros Hu Hne. unfold K'. rewrite lookup_insert_ne by done. destruct (decide (td' = o)) as [->|Hno']; [rewrite lookup_insert_eq|rewrite lookup_insert_ne by done; by exists u0].
  assert (u0 = vo) as -> by congruence. by eexists.
Qed.

Lemma first_holds q h : holds K' T' q h <-> (q = q0 /\ h = OfMutex m) \/ ~ q = q0 /\ holds K T q h.
Proof.
  destruct first_own as (E0 & Hn0 & Hh0). destruct h as [td'|ts|m']; cbn [holds].
  - split.
    + intros (u & Hu & Hku & <-). apply first_key in Hu as [[-> ->]|(Hne & u0 & Hu0 & E1 & _ & E3 & _)]; [by destruct Hku; apply Hv'|]. right.
      assert (holds K T (k_ts u) (OfThread td')) as H by (exists u0; split_and!; congruence). split; [|done]. intros Eq. rewrite Eq in H. pose proof (so_holder _ _ _ S _ _ _ H Hh0). congruence.
    + intros [[_ [=]]|[Hne (u0 & Hu0 & Hku & <-)]]. destruct (first_key_inv td' u0 Hu0) as (u & Hu & E1 & _ & E3); [intros ->; apply Hne; unfold q0; congruence|]. exists u. split_and!; congruence.
  - unfold T'. split.
    + intros (y & Hy & Hin). destruct (decide (ts = q0)) as [->|Hne]; [rewrite lookup_insert_eq in Hy; injection Hy as <-; by apply not_elem_of_nil in Hin|rewrite lookup_insert_ne in Hy by done].
      right. assert (holds K T q (OfFree ts)) as H by (by exists y). split; [|done]. intros ->. pose proof (so_holder _ _ _ S _ _ _ H Hh0). done.
    + intros [[_ [=]]|[Hne (y & Hy & Hin)]]. exists y. split; [|done]. rewrite lookup_insert_ne; [done|]. intros <-. rewrite E0 in Hy. injection Hy as <-. by apply not_elem_of_nil in Hin.
  - unfold T'. split.
    + intros (y & Hy & E1 & E2). destruct (decide (q = q0)) as [->|Hne]; [rewrite lookup_insert_eq in Hy; injection Hy as <-; left; cbn in E2; by subst|rewrite lookup_insert_ne in Hy by done].
      right. split; [done|]. by exists y.
    + intros [[-> [= ->]]|[Hne (y & Hy & E1 & E2)]]; [exists x0; by rewrite lookup_insert_eq|]. exists y. by rewrite lookup_insert_ne.
Qed.

Lemma first_chain i l' : <[Z.to_nat (TC_HASH m) := q0 :: l]> C !! i = Some l' ->
  NoDup l' /\ forall q, q ∈ l' <-> exists m', holds K' T' q (OfMutex m') /\ TC_HASH m' = Z.of_nat i.
Proof.
  destruct first_own as (E0 & Hn0 & Hh0). pose proof (tc_hash_range m) as Hr. assert (forall m', holds K T q0 (OfMutex m') -> False) as Hq by (intros m' H; by pose proof (so_holder _ _ _ S _ _ _ H Hh0)).
  intros Hi. apply list_lookup_insert_Some in Hi as [(<- & <- & _)|[Hne Hi]].
  - split; [constructor; [|by apply (so_nodup _ _ _ S _ _ Hl)]; intros Hin; apply (so_chain _ _ _ S _ _ _ Hl) in Hin as (m' & H & _); by apply Hq in H|].
    intros q. rewrite elem_of_cons, (so_chain _ _ _ S _ _ _ Hl). split.
    + intros [->|(m' & H & E)]; [exists m; split; [apply first_holds; by left|lia]|]. exists m'. split; [|done]. apply first_holds. right. split; [|done]. intros ->. by apply Hq in H.
    + intros (m' & H & E). apply first_holds in H as [[-> _]|[_ H]]; [by left|right; by exists m'].
  - split; [by apply (so_nodup _ _ _ S _ _ Hi)|]. intros q. rewrite (so_chain _ _ _ S _ _ _ Hi). split.
    + intros (m' & H & E). exists m'. split; [|done]. apply first_holds. right. split; [|done]. intros ->. by apply Hq in H.
    + intros (m' & H & E). apply first_holds in H as [[-> [= ->]]|[_ H]]; [lia|by exists m'].
Qed.

Lemma first_ok : ts_ok K' T' (<[Z.to_nat (TC_HASH m) := q0 :: l]> C).
Proof.
  destruct first_own as (E0 & Hn0 & Hh0). destruct Hv' as (V1 & V2 & V3 & V4). pose proof S as [S1 S2 S3 S4 S5 S6 S7 S8 S9 S10 S11 S12 S13].
  assert (forall q y, T' !! q = Some y -> q = q0 /\ y = x0 \/ q <> q0 /\ T !! q = Some y) as HT.
  { intros q y. unfold T'. destruct (decide (q = q0)) as [->|Hne]; [rewrite lookup_insert_eq; intros [= <-]; by left|rewrite lookup_insert_ne by done; by right]. }
  assert (forall q y, T !! q = Some y -> y <> turnstile_ctor -> T' !! q = Some y) as HT2.
  { intros q y Hy Hne. unfold T'. rewrite lookup_insert_ne; [done|]. intros <-. congruence. }
  assert (forall td', is_Some (K !! td') -> is_Some (K' !! td')) as HK. { intros td' Hs. unfold K'. by apply lookup_insert_is_Some', or_intror, lookup_insert_is_Some', or_intror. }
  split.
  - by rewrite length_insert.
  - intros i l' Hi. by apply first_chain in Hi as [? _].
  - intros i l' q Hi. by apply first_chain in Hi as [_ Hi].
  - unfold T'. by rewrite lookup_insert_ne.
  - apply (moves_holder K' T' (fun q h => q = q0 /\ h = OfMutex m) (fun q => q = q0)); [exact first_holds|by intros ? ? [-> _]|by intros ? ? ? [_ ->] [_ ->]].
  - refine (moves_mutex K' T' (fun q h => q = q0 /\ h = OfMutex m) (fun q => q = q0) first_holds _).
    intros q q' m' [-> Em] HH. injection Em as ->. apply first_holds in HH as [[-> _]|[_ HH]]; [done|by apply Hno in HH].
  - intros q td' H. apply first_holds in H as [[_ [=]]|[Hne H]]. unfold T'. rewrite lookup_insert_ne by done. by apply (S7 q td').
  - intros q ts H. apply first_holds in H as [[_ [=]]|[Hne H]]. unfold T'. rewrite lookup_insert_ne by done. by apply (S8 q ts).
  - intros q y Hy Es. apply HT in Hy as [[-> ->]|[_ Hy]]; [|destruct (S9 q y Hy Es) as (A1 & A2 & A3 & A4 & A5); split_and!; try done; by apply HK].
    cbn. split_and!; [done|apply NoDup_singleton|constructor|done|]. apply HK. by eexists.
  - intros q y Hy Es. apply HT in Hy as [[-> ->]|[_ Hy]]; [done|by apply (S10 q)].
  - intros q y td' Hy Es. apply HT in Hy as [[-> ->]|[Hne Hy]].
    + cbn. rewrite list_elem_of_singleton. split; [intros ->; exists v'; unfold K'; by rewrite lookup_insert_eq|].
      intros (u & Hu & Eb). apply first_key in Hu as [[-> _]|(_ & u0 & Hu0 & _ & E2 & _)]; [done|]. exfalso. rewrite E2 in Eb.
      destruct (S12 td' u0 Hu0) as [A B]. destruct (B ltac:(apply A; congruence)) as (y & Hy & Hs & _). rewrite Eb, E0 in Hy. by injection Hy as <-.
    + rewrite (S11 q y td' Hy Es). split.
      * intros (u0 & Hu0 & Eb). destruct (decide (td' = td)) as [->|Hnt]; [|destruct (first_key_inv td' u0 Hu0 Hnt) as (u & Hu & _ & E2 & _); exists u; split; [done|congruence]].
        exfalso. assert (u0 = v) as -> by congruence. destruct (own_ts td v Hv Hk) as (_ & _ & E1). rewrite E1 in Eb. subst q. congruence.
      * intros (u & Hu & Eb). apply first_key in Hu as [[-> ->]|(_ & u0 & Hu0 & _ & E2 & _)]; [by destruct Hne; rewrite <- Eb, V2|]. exists u0. split; [done|congruence].
  - intros td' u Hu. apply first_key in Hu as [[-> ->]|(_ & u0 & Hu0 & E1 & E2 & E3 & E4 & _)].
    + rewrite V1, V2. split; [done|]. intros _. exists x0. unfold T'. by rewrite lookup_insert_eq.
    + rewrite E1, E2, E4. destruct (S12 td' u0 Hu0) as [A B]. split; [done|]. intros Hb. destruct (B Hb) as (y & Hy & F1 & F2). exists y. split; [|done]. apply HT2; [done|]. by intros ->.
  - intros td' u Hu. assert (forall o' (c : list Z), (NoDup c /\ forall q, q ∈ c <-> exists y, T !! q = Some y /\ ts_state y = USED_BLOCKED /\ ts_owner y = o') ->
      NoDup (if decide (o' = o) then q0 :: c else c) /\ forall q, q ∈ (if decide (o' = o) then q0 :: c else c) <-> exists y, T' !! q = Some y /\ ts_state y = USED_BLOCKED /\ ts_owner y = o') as HC.
    { intros o' c [Hn Hc]. assert (q0 ∉ c) as Hni by (rewrite Hc; intros (y & Hy & F & _); rewrite E0 in Hy; by injection Hy as <-).
      split; [case_decide; [by constructor|done]|]. intros q. split.
      - intros Hin. assert (o' = o /\ q = q0 \/ q ∈ c) as [[-> ->]|Hin'] by (case_decide; [apply elem_of_cons in Hin as [->|Hin]; [by left|by right]|by right]); [exists x0; unfold T'; by rewrite lookup_insert_eq|].
        apply Hc in Hin' as (y & Hy & F1 & F2). exists y. split; [|done]. apply HT2; [done|by intros ->].
      - intros (y & Hy & F1 & F2). apply HT in Hy as [[-> ->]|[Hne Hy]]; [cbn in F2; rewrite decide_True by done; by left|]. assert (q ∈ c) by (apply Hc; by exists y). case_decide; [by right|done]. }
    apply first_key in Hu as [[-> ->]|(_ & u0 & Hu0 & _ & _ & _ & _ & ->)]; [|by apply HC, S13]. rewrite V3. pose proof (HC td _ (S13 td v Hv)) as H. by rewrite decide_False in H.
Qed.
End first.

(** ** Another thread blocks *)

Section next.
Context (td p : Z) (v v' : wkey) (x : turnstile) (l : list Z).
Hypothesis Hv : K !! td = Some v.
Hypothesis Hk : k_kind v <> Blocked.
Hypothesis Hp : T !! p = Some x.
Hypothesis Hx : ts_state x = USED_BLOCKED.
Hypothesis Hv' : k_kind v' = Blocked /\ k_blocked v' = p /\ k_contested v' = k_contested v /\ k_wchan v' = ts_wchan x.
Hypothesis Hl : l ≡ₚ td :: ts_blocked x.

Let q0 := k_ts v.
Let x' := Turnstile (q0 :: ts_free x) l (ts_wchan x) (ts_owner x) USED_BLOCKED.
Let K' := <[td := v']> K.
Let T' := <[p := x']> (<[q0 := ts_lent]> T).

Lemma next_own : T !! q0 = Some turnstile_ctor /\ q0 <> 0 /\ holds K T q0 (OfThread td) /\ q0 <> p.
Proof. destruct (own_ts td v Hv Hk) as (E & Hn & _). split_and!; try done; [by exists v|]. unfold q0. intros E0. rewrite E0, Hp in E. injection E as ->. done. Qed.

Lemma next_ts q y : T' !! q = Some y -> q = p /\ y = x' \/ q = q0 /\ y = ts_lent \/ q <> p /\ q <> q0 /\ T !! q = Some y.
Proof.
  unfold T'. destruct (decide (q = p)) as [->|Hne]; [rewrite lookup_insert_eq; intros [= <-]; by left|rewrite lookup_insert_ne by done].
  destruct (decide (q = q0)) as [->|Hn0]; [rewrite lookup_insert_eq; intros [= <-]; right; by left|rewrite lookup_insert_ne by done]. intros Hy. by do 2 right.
Qed.

Lemma next_get q y : T !! q = Some y -> q <> q0 -> exists y', T' !! q = Some y' /\ ts_wchan y' = ts_wchan y /\ ts_owner y' = ts_owner y /\ ts_state y' = ts_state y /\
  (q <> p -> y' = y) /\ (q = p -> y' = x').
Proof.
  intros Hy Hn0. unfold T'. destruct (decide (q = p)) as [->|Hne]; [rewrite lookup_insert_eq|rewrite !lookup_insert_ne by done; by exists y]. assert (y = x) as -> by congruence. by exists x'.
Qed.

Lemma next_key td' u : K' !! td' = Some u -> td' = td /\ u = v' \/ td' <> td /\ K !! td' = Some u.
Proof. unfold K'. destruct (decide (td' = td)) as [->|Hne]; [rewrite lookup_insert_eq; intros [= <-]; by left|rewrite lookup_insert_ne by done; by right]. Qed.

Lemma next_holds q h : holds K' T' q h <-> (q = q0 /\ h = OfFree p) \/ ~ q = q0 /\ holds K T q h.
Proof.
  destruct next_own as (E0 & Hn0 & Hh0 & Hqp). destruct h as [td'|ts|m']; cbn [holds].
  - split.
    + intros (u & Hu & Hku & <-). apply next_key in Hu as [[-> ->]|[Hne Hu]]; [by destruct Hku; apply Hv'|]. right.
      assert (holds K T (k_ts u) (OfThread td')) as H by (by exists u). split; [|done]. intros Eq. rewrite Eq in H. pose proof (so_holder _ _ _ S _ _ _ H Hh0). congruence.
    + intros [[_ [=]]|[Hne (u & Hu & Hku & <-)]]. exists u. split; [|done]. unfold K'. rewrite lookup_insert_ne; [done|]. intros <-. apply Hne. unfold q0. congruence.
  - split.
    + intros (y & Hy & Hin). apply next_ts in Hy as [[-> ->]|[[_ ->]|(Hne & Hn & Hy)]]; [|by apply not_elem_of_nil in Hin|].
      * cbn in Hin. apply elem_of_cons in Hin as [->|Hin]; [by left|]. right. assert (holds K T q (OfFree p)) as H by (by exists x). split; [|by exists x]. intros ->. by pose proof (so_holder _ _ _ S _ _ _ H Hh0).
      * right. assert (holds K T q (OfFree ts)) as H by (by exists y). split; [|done]. intros ->. by pose proof (so_holder _ _ _ S _ _ _ H Hh0).
    + intros [[-> [= ->]]|[Hne (y & Hy & Hin)]]; [exists x'; unfold T'; rewrite lookup_insert_eq; split; [done|by left]|].
      destruct (decide (ts = p)) as [->|Hnp]; [exists x'; unfold T'; rewrite lookup_insert_eq; split; [done|]; right; assert (y = x) as <- by congruence; done|].
      exists y. split; [|done]. unfold T'. rewrite !lookup_insert_ne; [done| |done]. intros <-. rewrite E0 in Hy. injection Hy as <-. by apply not_elem_of_nil in Hin.
  - split.
    + intros (y & Hy & F1 & F2). apply next_ts in Hy as [[-> ->]|[[_ ->]|(Hne & Hn & Hy)]]; [|done|]; right; (split; [done|]); [by exists x|by exists y].
    + intros [[_ [=]]|[Hne (y & Hy & F1 & F2)]]. destruct (next_get q y Hy Hne) as (y' & Hy' & G1 & _ & G3 & _). exists y'. split_and!; congruence.
Qed.

Lemma next_ok : ts_ok K' T' C.
Proof.
  destruct next_own as (E0 & Hn0 & Hh0 & Hqp). destruct Hv' as (V1 & V2 & V3 & V4). pose proof S as [S1 S2 S3 S4 S5 S6 S7 S8 S9 S10 S11 S12 S13].
  destruct (S9 p x Hp Hx) as (U1 & U2 & U3 & U4 & U5). destruct (own_ts td v Hv Hk) as (_ & _ & Eb0).
  assert (p <> 0) as Hp0 by (intros ->; congruence). assert (td ∉ ts_blocked x) as Hnb. { intros H. apply (S11 p x td Hp Hx) in H as (u & Hu & Eu). assert (u = v) as -> by congruence. congruence. }
  assert (q0 ∉ ts_free x) as Hnf. { intros H. assert (holds K T q0 (OfFree p)) as H' by (by exists x). by pose proof (S5 _ _ _ H' Hh0). }
  assert (forall td', is_Some (K !! td') -> is_Some (K' !! td')) as HK. { intros td' Hs. unfold K'. by apply lookup_insert_is_Some', or_intror. }
  split; try done.
  - intros i l' q Hi. rewrite (S3 i l' q Hi). split; intros (m & H & E); exists m; (split; [|done]); [apply next_holds; right; split; [intros ->; by pose proof (S5 _ _ _ H Hh0)|done]|].
    apply next_holds in H as [[_ [=]]|[_ H]]. done.
  - unfold T'. by rewrite !lookup_insert_ne.
  - apply (moves_holder K' T' (fun q h => q = q0 /\ h = OfFree p) (fun q => q = q0)); [exact next_holds|by intros ? ? [-> _]|by intros ? ? ? [_ ->] [_ ->]].
  - refine (moves_mutex K' T' (fun q h => q = q0 /\ h = OfFree p) (fun q => q = q0) next_holds _). intros ? ? ? [_ Em]. discriminate Em.
  - intros q td' H. apply next_holds in H as [[_ [=]]|[Hne H]]. pose proof (S7 q td' H) as Hq. unfold T'. rewrite !lookup_insert_ne; [done|done|]. intros <-. rewrite Hp in Hq. injection Hq as ->. done.
  - intros q ts H. apply next_holds in H as [[-> _]|[Hne H]]; [unfold T'; rewrite lookup_insert_ne by done; by rewrite lookup_insert_eq|].
    pose proof (S8 q ts H) as Hq. unfold T'. rewrite !lookup_insert_ne; [done|done|]. intros <-. rewrite Hp in Hq. injection Hq as ->. done.
  - intros q y Hy Es. apply next_ts in Hy as [[-> ->]|[[_ ->]|(Hne & Hn & Hy)]]; [|done|destruct (S9 q y Hy Es) as (A1 & A2 & A3 & A4 & A5); split_and!; try done; by apply HK].
    cbn. split_and!; [done|rewrite Hl; by constructor|by constructor|rewrite Hl; cbn; by rewrite U4|by apply HK].
  - intros q y Hy Es. apply next_ts in Hy as [[-> ->]|[[_ ->]|(Hne & Hn & Hy)]]; [done|done|by apply (S10 q)].
  - intros q y td' Hy Es. apply next_ts in Hy as [[-> ->]|[[_ ->]|(Hne & Hn & Hy)]]; [|done|].
    + cbn. rewrite Hl, elem_of_cons, (S11 p x td' Hp Hx). unfold K'. destruct (decide (td' = td)) as [->|Hnt]; [|rewrite lookup_insert_ne by done; naive_solver].
      rewrite lookup_insert_eq. split; [intros _; by exists v'|by left].
    + rewrite (S11 q y td' Hy Es). unfold K'. destruct (decide (td' = td)) as [->|Hnt]; [|by rewrite lookup_insert_ne]. rewrite lookup_insert_eq. split.
      * intros (u & Hu & Eb). assert (u = v) as -> by congruence. rewrite Eb0 in Eb. subst q. congruence.
      * intros (u & [= <-] & Eb). congruence.
  - intros td' u Hu. apply next_key in Hu as [[-> ->]|[Hne Hu]].
    + rewrite V1, V2. split; [done|]. intros _. exists x'. unfold T'. by rewrite lookup_insert_eq.
    + destruct (S12 td' u Hu) as [A B]. split; [done|]. intros Hb. destruct (B Hb) as (y & Hy & F1 & F2).
      destruct (next_get _ y Hy) as (y' & Hy' & G1 & _ & G3 & _); [intros E; rewrite E, E0 in Hy; by injection Hy as <-|]. exists y'. split_and!; congruence.
  - assert (forall o' q, (exists y, T !! q = Some y /\ ts_state y = USED_BLOCKED /\ ts_owner y = o') <-> exists y, T' !! q = Some y /\ ts_state y = USED_BLOCKED /\ ts_owner y = o') as HC.
    { intros o' q. split; intros (y & Hy & F1 & F2).
      - destruct (next_get q y Hy) as (y' & Hy' & G1 & G2 & G3 & _); [intros E; rewrite E, E0 in Hy; by injection Hy as <-|]. exists y'. split_and!; congruence.
      - apply next_ts in Hy as [[-> ->]|[[_ ->]|(_ & _ & Hy)]]; [by exists x|done|by exists y]. }
    intros td' u Hu. apply next_key in Hu as [[-> ->]|[Hne Hu]]; [rewrite V3; destruct (S13 td v Hv) as [A B]|destruct (S13 td' u Hu) as [A B]]; (split; [done|]); intros q; rewrite B; apply HC.
Qed.
End next.

(** ** All threads are woken *)

Definition drop_contested q (v : wkey) : wkey := Key (k_kind v) (k_blocked v) (k_ts v) (filter (fun y => y <> q) (k_contested v)) (k_wchan v).

Section wake.
Context (p : Z) (x : turnstile) (K' : keymap) (T' : tsmap) (A : list (Z * Z)) (l : list Z).
Hypothesis Hp : T !! p = Some x.
Hypothesis Hx : ts_state x = USED_BLOCKED.
Hypothesis HA1 : A.*1 = ts_blocked x.
Hypothesis HA2 : A.*2 = ts_free x ++ [p].
Hypothesis Hown : ts_owner x ∉ ts_blocked x.
Hypothesis HK1 : forall td q v, (td, q) ∈ A -> K !! td = Some v -> K' !! td = Some (Key Runnable 0 q (k_contested v) 0).
Hypothesis HK2 : forall td, td ∉ ts_blocked x -> K' !! td = (fun v => if decide (td = ts_owner x) then drop_contested p v else v) <$> K !! td.
Hypothesis HT : forall q, T' !! q = if decide (q ∈ ts_free x ++ [p]) then Some turnstile_ctor else T !! q.
Hypothesis Hl : C !! Z.to_nat (TC_HASH (ts_wchan x)) = Some l.

Let C' := <[Z.to_nat (TC_HASH (ts_wchan x)) := filter (fun y => y <> p) l]> C.

Lemma wake_pair_td td q : (td, q) ∈ A -> td ∈ ts_blocked x /\ q ∈ ts_free x ++ [p].
Proof. intros H. rewrite <- HA1, <- HA2. split; apply list_elem_of_fmap; by exists (td, q). Qed.

Lemma wake_td td : td ∈ ts_blocked x -> exists q v, (td, q) ∈ A /\ K !! td = Some v /\ k_blocked v = p.
Proof.
  intros H. apply (so_blocked _ _ _ S p x td Hp Hx) in H as H'. destruct H' as (v & Hv & Eb). rewrite <- HA1 in H. apply list_elem_of_fmap in H as ([td' q] & -> & H). by exists q, v.
Qed.

Lemma wake_ts_nodup : NoDup (ts_free x ++ [p]).
Proof.
  destruct (so_used _ _ _ S p x Hp Hx) as (_ & _ & N & _). apply NoDup_app. split_and!; [done| |apply NoDup_singleton]. intros q Hq Hq'. apply list_elem_of_singleton in Hq' as ->.
  assert (holds K T p (OfFree p)) as H1 by (by exists x). assert (holds K T p (OfMutex (ts_wchan x))) as H2 by (by exists x). by pose proof (so_holder _ _ _ S _ _ _ H1 H2).
Qed.

Lemma wake_fun td td' q : (td, q) ∈ A -> (td', q) ∈ A -> td = td'.
Proof.
  intros H1 H2. apply list_elem_of_lookup in H1 as (i & Hi). apply list_elem_of_lookup in H2 as (j & Hj).
  assert (i = j) as ->. { pose proof wake_ts_nodup as N. rewrite <- HA2 in N. apply (NoDup_lookup _ i j q N); rewrite list_lookup_fmap; [by rewrite Hi|by rewrite Hj]. } congruence.
Qed.

Lemma wake_gone q : q ∈ ts_free x ++ [p] -> exists h, holds K T q h /\ (h = OfFree p \/ h = OfMutex (ts_wchan x)).
Proof. intros H. apply elem_of_app in H as [H|H]; [exists (OfFree p)|apply list_elem_of_singleton in H as ->; exists (OfMutex (ts_wchan x))]; (split; [by exists x|]); [by left|by right]. Qed.

Lemma wake_holds q h : holds K' T' q h <-> (exists td, (td, q) ∈ A /\ h = OfThread td) \/ ~ q ∈ ts_free x ++ [p] /\ holds K T q h.
Proof.
  destruct h as [td'|ts|m']; cbn [holds].
  - split.
    + intros (u & Hu & Hku & <-). destruct (decide (td' ∈ ts_blocked x)) as [Hb|Hb].
      * destruct (wake_td td' Hb) as (q & v & HA & Hv & _). rewrite (HK1 td' q v HA Hv) in Hu. injection Hu as <-. left. by exists td'.
      * right. rewrite (HK2 td' Hb) in Hu. apply fmap_Some in Hu as (v & Hv & ->). assert (holds K T (k_ts v) (OfThread td')) as H.
        { exists v. split_and!; [done| |done]. by case_decide. }
        assert (k_ts (if decide (td' = ts_owner x) then drop_contested p v else v) = k_ts v) as -> by (by case_decide). split; [|by exists v; destruct H as (v0 & Hv0 & Hk0 & _); simplify_eq].
        intros Hq. apply wake_gone in Hq as (h & Hh & Ho). pose proof (so_holder _ _ _ S _ _ _ H Hh). destruct Ho; congruence.
    + intros [(td & HA & [= ->])|[Hn (v & Hv & Hk & <-)]].
      * destruct (wake_pair_td td q HA) as [Hb _]. destruct (wake_td td Hb) as (_ & v & _ & Hv & _). eexists. by rewrite (HK1 td q v HA Hv).
      * assert (td' ∉ ts_blocked x) as Hb. { intros Hb. destruct (wake_td td' Hb) as (_ & v0 & _ & Hv0 & Eb). assert (v0 = v) as -> by congruence.
          destruct (own_ts td' v Hv Hk) as (_ & _ & E). rewrite E in Eb. subst p. by rewrite (so_null _ _ _ S) in Hp. }
        eexists. rewrite (HK2 td' Hb), Hv. cbn. split; [done|]. by case_decide.
  - split.
    + intros (y & Hy & Hin). rewrite HT in Hy. case_decide as Hd; [injection Hy as <-; by apply not_elem_of_nil in Hin|]. right.
      assert (holds K T q (OfFree ts)) as H by (by exists y). split; [|by exists y]. intros Hq. apply wake_gone in Hq as (h & Hh & Ho). pose proof (so_holder _ _ _ S _ _ _ H Hh) as E.
      destruct Ho as [-> | ->]; [|done]. injection E as ->. apply Hd, elem_of_app. right. by apply list_elem_of_singleton.
    + intros [(td & _ & [=])|[Hn (y & Hy & Hin)]]. exists y. split; [|done]. rewrite HT, decide_False; [done|]. intros Hq. apply elem_of_app in Hq as [Hq|Hq].
      * assert (holds K T ts (OfFree p)) as H by (by exists x). rewrite (so_free _ _ _ S _ _ H) in Hy. injection Hy as <-. by apply not_elem_of_nil in Hin.
      * apply list_elem_of_singleton in Hq as ->. apply Hn, elem_of_app. left. assert (y = x) as <- by congruence. done.
  - split.
    + intros (y & Hy & F1 & F2). rewrite HT in Hy. case_decide as Hd; [by injection Hy as <-|]. right. split; [done|by exists y].
    + intros [(td & _ & [=])|[Hn (y & Hy & F1 & F2)]]. exists y. by rewrite HT, decide_False.
Qed.

Lemma wake_mutex q m : holds K' T' q (OfMutex m) <-> holds K T q (OfMutex m) /\ q <> p.
Proof.
  rewrite wake_holds. split.
  - intros [(td & _ & [=])|[Hn H]]. split; [done|]. intros ->. apply Hn, elem_of_app. right. by apply list_elem_of_singleton.
  - intros [H Hne]. right. split; [|done]. intros Hq. apply elem_of_app in Hq as [Hq|Hq]; [|by apply list_elem_of_singleton in Hq].
    assert (holds K T q (OfFree p)) as H' by (by exists x). by pose proof (so_holder _ _ _ S _ _ _ H H').
Qed.

Lemma wake_chain i l' : C' !! i = Some l' -> NoDup l' /\ forall q, q ∈ l' <-> exists m, holds K' T' q (OfMutex m) /\ TC_HASH m = Z.of_nat i.
Proof.
  pose proof (tc_hash_range (ts_wchan x)) as Hr. assert (holds K T p (OfMutex (ts_wchan x))) as Hh by (by exists x). unfold C'. setoid_rewrite wake_mutex.
  intros Hi. apply list_lookup_insert_Some in Hi as [(<- & <- & _)|[Hne Hi]].
  - split; [apply NoDup_filter, (so_nodup _ _ _ S _ _ Hl)|]. intros q. rewrite list_elem_of_filter, (so_chain _ _ _ S _ _ _ Hl). naive_solver.
  - split; [apply (so_nodup _ _ _ S _ _ Hi)|]. intros q. rewrite (so_chain _ _ _ S _ _ _ Hi). split; [|naive_solver]. intros (m & H & E). exists m. split_and!; try done.
    intros ->. pose proof (so_holder _ _ _ S _ _ _ H Hh) as E'. injection E' as ->. lia.
Qed.

(** The turnstiles in use apart from [p] are the same. *)
Lemma wake_used q y : ts_state y = USED_BLOCKED -> T' !! q = Some y <-> T !! q = Some y /\ q <> p.
Proof.
  intros Hy. pose proof (wake_mutex q (ts_wchan y)) as H. split.
  - intros E. assert (holds K' T' q (OfMutex (ts_wchan y))) as H1 by (by exists y). apply H in H1 as [_ Hne]. split; [|done]. rewrite HT in E. case_decide; [by injection E as <-|done].
  - intros [E Hne]. assert (holds K T q (OfMutex (ts_wchan y))) as H1 by (by exists y). rewrite HT, decide_False; [done|]. intros Hq.
    apply elem_of_app in Hq as [Hq|Hq]; [|by apply list_elem_of_singleton in Hq]. assert (holds K T q (OfFree p)) as H' by (by exists x). by pose proof (so_holder _ _ _ S _ _ _ H1 H').
Qed.

(** A thread afterwards *)
Lemma wake_key td u : K' !! td = Some u -> exists v, K !! td = Some v /\
  (td ∈ ts_blocked x /\ k_blocked v = p /\ k_kind u = Runnable /\ k_blocked u = 0 /\ k_contested u = k_contested v \/
   td ∉ ts_blocked x /\ k_blocked v <> p /\ k_kind u = k_kind v /\ k_blocked u = k_blocked v /\ k_wchan u = k_wchan v /\
   k_contested u = if decide (td = ts_owner x) then filter (fun y => y <> p) (k_contested v) else k_contested v).
Proof.
  intros Hu. destruct (decide (td ∈ ts_blocked x)) as [Hb|Hb].
  - destruct (wake_td td Hb) as (q & v & HA & Hv & Eb). exists v. split; [done|]. left. rewrite (HK1 td q v HA Hv) in Hu. injection Hu as <-. done.
  - rewrite (HK2 td Hb) in Hu. apply fmap_Some in Hu as (v & Hv & ->). exists v. split; [done|]. right. split; [done|]. split; [|by case_decide].
    intros E. apply Hb, (so_blocked _ _ _ S p x td Hp Hx). by exists v.
Qed.

Lemma wake_dom td v : K !! td = Some v -> exists u, K' !! td = Some u /\ (td ∉ ts_blocked x -> k_blocked u = k_blocked v).
Proof.
  intros Hv. destruct (decide (td ∈ ts_blocked x)) as [Hb|Hb].
  - destruct (wake_td td Hb) as (q & v' & HA & Hv' & _). eexists. split; [by apply (HK1 td q v')|done].
  - eexists. rewrite (HK2 td Hb), Hv. split; [done|]. intros _. by case_decide.
Qed.

Lemma wake_ok : ts_ok K' T' C'.
Proof.
  pose proof S as [S1 S2 S3 S4 S5 S6 S7 S8 S9 S10 S11 S12 S13]. assert (p <> 0) as Hp0 by (intros ->; congruence).
  assert (forall q, q ∈ ts_free x ++ [p] -> is_Some (T !! q)) as Hin. { intros q Hq. apply elem_of_app in Hq as [Hq|Hq]; [exists ts_lent; apply (S8 q p); by exists x|apply list_elem_of_singleton in Hq as ->; by exists x]. }
  split.
  - unfold C'. by rewrite length_insert.
  - intros i l' Hi. by apply wake_chain in Hi as [? _].
  - intros i l' q Hi. by apply wake_chain in Hi as [_ Hi].
  - rewrite HT, decide_False; [done|]. intros H. apply Hin in H as [y Hy]. congruence.
  - refine (moves_holder K' T' (fun q h => exists td, (td, q) ∈ A /\ h = OfThread td) (fun q => q ∈ ts_free x ++ [p]) wake_holds _ _).
    + intros q h (td & HA & _). by apply (wake_pair_td td).
    + intros q h h' (td & HA & ->) (td' & HA' & ->). f_equal. by apply (wake_fun td td' q).
  - intros q q' m H1 H2. apply wake_mutex in H1 as [H1 _]. apply wake_mutex in H2 as [H2 _]. by apply (S6 q q' m).
  - intros q td H. rewrite HT. case_decide as Hd; [done|]. apply wake_holds in H as [(td' & HA & _)|[_ H]]; [by apply wake_pair_td in HA as [_ HA]|by apply (S7 q td)].
  - intros q ts H. apply wake_holds in H as [(td' & _ & [=])|[Hn H]]. rewrite HT, decide_False by done. by apply (S8 q ts).
  - intros q y Hy Es. apply (wake_used q y Es) in Hy as [Hy _]. destruct (S9 q y Hy Es) as (B1 & B2 & B3 & B4 & [v Hv]). split_and!; try done. destruct (wake_dom _ v Hv) as (u & Hu & _). by eexists.
  - intros q y Hy Es. rewrite HT in Hy. case_decide; [by injection Hy as <-|by apply (S10 q)].
  - intros q y td Hy Es. apply (wake_used q y Es) in Hy as [Hy Hne]. rewrite (S11 q y td Hy Es). split.
    + intros (v & Hv & Eb). destruct (wake_dom td v Hv) as (u & Hu & E). exists u. split; [done|]. rewrite E; [done|]. intros H. apply (S11 p x td Hp Hx) in H as (v' & Hv' & Eb'). congruence.
    + intros (u & Hu & Eb). destruct (wake_key td u Hu) as (v & Hv & [(_ & _ & _ & E & _)|(_ & _ & _ & E & _)]); [|exists v; split; congruence]. rewrite E in Eb. subst q. congruence.
  - intros td u Hu. destruct (wake_key td u Hu) as (v & Hv & [(_ & _ & E1 & E2 & _)|(_ & Hne & E1 & E2 & E3 & _)]); [rewrite E1, E2; done|].
    rewrite E1, E2, E3. destruct (S12 td v Hv) as [B1 B2]. split; [done|]. intros Hb. destruct (B2 Hb) as (y & Hy & F1 & F2). exists y. split; [|done]. by apply wake_used.
  - intros td u Hu. destruct (wake_key td u Hu) as (v & Hv & HH). destruct (S13 td v Hv) as [B1 B2].
    assert (k_contested u = if decide (td = ts_owner x) then filter (fun y => y <> p) (k_contested v) else k_contested v) as ->.
    { destruct HH as [(Hb & _ & _ & _ & E)|(_ & _ & _ & _ & _ & E)]; [|done]. rewrite decide_False; [done|]. by intros ->. }
    split; [case_decide; [by apply NoDup_filter|done]|]. intros q. split.
    + intros H. assert (q ∈ k_contested v /\ (td = ts_owner x -> q <> p)) as [H1 H2] by (case_decide; [apply list_elem_of_filter in H as [? ?]; done|done]).
      apply B2 in H1 as (y & Hy & F1 & F2). exists y. split; [|done]. apply wake_used; [done|]. split; [done|]. intros ->. apply H2; [|done]. congruence.
    + intros (y & Hy & F1 & F2). apply (wake_used q y F1) in Hy as [Hy Hne]. assert (q ∈ k_contested v) by (apply B2; by exists y). case_decide; [by apply list_elem_of_filter|done].
Qed.
End wake.

(** ** Threads come and go *)

Lemma held_exists q h : holds K T q h -> is_Some (T !! q).
Proof.
  destruct h as [td|ts|m]; intros H; [by rewrite (so_thread _ _ _ S _ _ H)|by rewrite (so_free _ _ _ S _ _ H)|]. destruct H as (x & -> & _). by eexists.
Qed.

(** The thread is in another state in which it is not blocked. *)
Lemma rekind td v v' : K !! td = Some v -> k_kind v <> Blocked -> k_kind v' <> Blocked -> k_blocked v' = k_blocked v -> k_ts v' = k_ts v -> k_contested v' = k_contested v ->
  ts_ok (<[td := v']> K) T C.
Proof.
  intros Hv H1 H2 E1 E2 E3. assert (forall td' u, <[td := v']> K !! td' = Some u -> td' = td /\ u = v' \/ td' <> td /\ K !! td' = Some u) as HK.
  { intros td' u. destruct (decide (td' = td)) as [->|Hne]; [rewrite lookup_insert_eq; intros [= <-]; by left|rewrite lookup_insert_ne by done; by right]. }
  assert (forall q h, holds (<[td := v']> K) T q h <-> holds K T q h) as Hh.
  { intros q [td'|ts|m]; [|done..]. cbn. destruct (decide (td' = td)) as [->|Hne]; [rewrite lookup_insert_eq, Hv|by rewrite lookup_insert_ne].
    split; intros (u & [= <-] & _ & <-); eexists; (split; [done|]); by rewrite ?E2. }
  destruct S as [S1 S2 S3 S4 S5 S6 S7 S8 S9 S10 S11 S12 S13]. split; try done.
  - intros q h h'. rewrite !Hh. apply S5.
  - intros q td'. rewrite Hh. apply S7.
  - intros q x Hx Es. destruct (S9 q x Hx Es) as (B1 & B2 & B3 & B4 & B5). split_and!; try done. by apply lookup_insert_is_Some', or_intror.
  - intros q x td' Hx Es. rewrite (S11 q x td' Hx Es). destruct (decide (td' = td)) as [->|Hne]; [rewrite lookup_insert_eq, Hv|by rewrite lookup_insert_ne].
    split; intros (u & [= <-] & <-); eexists; (split; [done|]); by rewrite ?E1.
  - intros td' u Hu. apply HK in Hu as [[-> ->]|[_ Hu]]; [|by apply (S12 td')]. destruct (S12 td v Hv) as [B1 _]. rewrite E1. split; [|done]. tauto.
  - intros td' u Hu. apply HK in Hu as [[-> ->]|[_ Hu]]; [|by apply (S13 td')]. rewrite E3. by apply (S13 td).
Qed.

Lemma spawn_ok td ts v : K !! td = None -> T !! ts = None -> ts <> 0 -> k_kind v <> Blocked -> k_blocked v = 0 -> k_ts v = ts -> k_contested v = [] ->
  ts_ok (<[td := v]> K) (<[ts := turnstile_ctor]> T) C.
Proof.
  intros Hn Ht H0 Hk E1 E2 E3. assert (forall q h, holds K T q h -> q <> ts) as Hne. { intros q h H ->. apply held_exists in H as [? ?]. congruence. }
  assert (forall td' u, <[td := v]> K !! td' = Some u -> td' = td /\ u = v \/ td' <> td /\ K !! td' = Some u) as HK.
  { intros td' u. destruct (decide (td' = td)) as [->|Hd]; [rewrite lookup_insert_eq; intros [= <-]; by left|rewrite lookup_insert_ne by done; by right]. }
  assert (forall q y, <[ts := turnstile_ctor]> T !! q = Some y -> q = ts /\ y = turnstile_ctor \/ q <> ts /\ T !! q = Some y) as HT.
  { intros q y. destruct (decide (q = ts)) as [->|Hd]; [rewrite lookup_insert_eq; intros [= <-]; by left|rewrite lookup_insert_ne by done; by right]. }
  assert (forall q y, T !! q = Some y -> <[ts := turnstile_ctor]> T !! q = Some y) as HT2 by (intros q y Hy; rewrite lookup_insert_ne; [done|congruence]).
  assert (forall td' u, K !! td' = Some u -> <[td := v]> K !! td' = Some u) as HK2 by (intros td' u Hu; rewrite lookup_insert_ne; [done|congruence]).
  assert (forall q h, holds (<[td := v]> K) (<[ts := turnstile_ctor]> T) q h <-> (q = ts /\ h = OfThread td) \/ ~ q = ts /\ holds K T q h) as Hh.
  { intros q [td'|ts'|m]; cbn [holds]; split.
    - intros (u & Hu & Hku & <-). apply HK in Hu as [[-> ->]|[_ Hu]]; [by left|right]. assert (holds K T (k_ts u) (OfThread td')) as H by (by exists u). split; [by apply (Hne _ _ H)|by exists u].
    - intros [[-> [= ->]]|[_ (u & Hu & HH)]]; [exists v; by rewrite lookup_insert_eq|]. exists u. by rewrite (HK2 _ _ Hu).
    - intros (y & Hy & Hin). apply HT in Hy as [[_ ->]|[_ Hy]]; [by apply not_elem_of_nil in Hin|]. right. assert (holds K T q (OfFree ts')) as H by (by exists y). split; [by apply (Hne _ _ H)|by exists y].
    - intros [[_ [=]]|[_ (y & Hy & Hin)]]. exists y. by rewrite (HT2 _ _ Hy).
    - intros (y & Hy & F1 & F2). apply HT in Hy as [[_ ->]|[Hd Hy]]; [done|]. right. split; [done|by exists y].
    - intros [[_ [=]]|[_ (y & Hy & HH)]]. exists y. by rewrite (HT2 _ _ Hy). }
  pose proof S as [S1 S2 S3 S4 S5 S6 S7 S8 S9 S10 S11 S12 S13]. split; try done.
  - intros i l q Hi. rewrite (S3 i l q Hi). split; intros (m & H & E); exists m; (split; [|done]); [apply Hh; right; split; [by apply (Hne _ _ H)|done]|by apply Hh in H as [[_ [=]]|[_ H]]].
  - by rewrite lookup_insert_ne.
  - apply (moves_holder _ _ (fun q h => q = ts /\ h = OfThread td) (fun q => q = ts)); [exact Hh|by intros ? ? [-> _]|by intros ? ? ? [_ ->] [_ ->]].
  - refine (moves_mutex _ _ (fun q h => q = ts /\ h = OfThread td) (fun q => q = ts) Hh _). intros ? ? ? [_ Em]. discriminate Em.
  - intros q td' H. apply Hh in H as [[-> _]|[Hd H]]; [by rewrite lookup_insert_eq|]. rewrite lookup_insert_ne by done. by apply (S7 q td').
  - intros q ts' H. apply Hh in H as [[_ [=]]|[Hd H]]. rewrite lookup_insert_ne by done. by apply (S8 q ts').
  - intros q y Hy Es. apply HT in Hy as [[_ ->]|[_ Hy]]; [done|]. destruct (S9 q y Hy Es) as (B1 & B2 & B3 & B4 & B5). split_and!; try done. by apply lookup_insert_is_Some', or_intror.
  - intros q y Hy Es. apply HT in Hy as [[_ ->]|[_ Hy]]; [done|by apply (S10 q)].
  - intros q y td' Hy Es. apply HT in Hy as [[_ ->]|[_ Hy]]; [done|]. rewrite (S11 q y td' Hy Es). split; intros (u & Hu & Eb); [exists u; by rewrite (HK2 _ _ Hu)|].
    apply HK in Hu as [[-> ->]|[_ Hu]]; [|by exists u]. rewrite E1 in Eb. subst q. congruence.
  - intros td' u Hu. apply HK in Hu as [[-> ->]|[_ Hu]]; [rewrite E1; done|]. destruct (S12 td' u Hu) as [B1 B2]. split; [done|]. intros Hb. destruct (B2 Hb) as (y & Hy & HH). exists y. by rewrite (HT2 _ _ Hy).
  - intros td' u Hu. assert (forall o', (exists y, T !! ts = Some y /\ ts_state y = USED_BLOCKED /\ ts_owner y = o') -> False) as Hx by (intros o' (y & Hy & _); congruence).
    apply HK in Hu as [[-> ->]|[_ Hu]].
    + rewrite E3. split; [constructor|]. intros q. split; [by intros ?%not_elem_of_nil|]. intros (y & Hy & F1 & F2). exfalso. apply HT in Hy as [[_ ->]|[_ Hy]]; [done|].
      destruct (S9 q y Hy F1) as (_ & _ & _ & _ & [w Hw]). congruence.
    + destruct (S13 td' u Hu) as [B1 B2]. split; [done|]. intros q. rewrite B2. split; intros (y & Hy & HH); [exists y; by rewrite (HT2 _ _ Hy)|]. apply HT in Hy as [[_ ->]|[_ Hy]]; [by destruct HH|by exists y].
Qed.
End turnstiles.

(** ** Mutexes and their owners *)

Notation mtxmap := (gmap Z mtx).
Implicit Types (M : mtxmap).

Definition owner_word td (c : bool) : Z := if c then Z.lor td MTX_CONTESTED else td.
Definition address td : Prop := 0 < td /\ td `mod` 8 = 0.

Lemma owner_word_add td c : address td -> owner_word td c = td + Z.b2z c.
Proof.
  intros [_ H]. destruct c; cbn [owner_word Z.b2z]; [|lia]. unfold MTX_CONTESTED. assert (td = (td / 2 ^ 3) * 2 ^ 3) as E by (pose proof (Z.div_mod td 8 ltac:(lia)); lia).
  rewrite E. apply lor_low; lia.
Qed.

Lemma owner_word_owner rc n td c : address td -> mtx_owner (Mtx rc n (owner_word td c)) = td.
Proof.
  intros H. unfold mtx_owner. cbn [m_owner]. rewrite owner_word_add by done. change (Z.lnot MTX_FLAGMASK) with (- 2 ^ 3). rewrite land_neg_pow2 by lia. destruct H as [_ H].
  pose proof (Z.div_mod td 8 ltac:(lia)). replace (td + Z.b2z c) with (Z.b2z c + td / 8 * 2 ^ 3) by lia. rewrite Z.div_add by lia. rewrite Z.div_small by (destruct c; cbn; lia). lia.
Qed.

Lemma owner_word_flag td c : address td -> flag_on (owner_word td c) MTX_CONTESTED = c.
Proof.
  intros H. rewrite owner_word_add by done. change MTX_CONTESTED with (2 ^ 0). rewrite flag_on_bit by lia. rewrite Z.bit0_odd, Z.odd_add. destruct H as [_ H].
  assert (td = 2 * (4 * (td / 8))) as -> by (pose proof (Z.div_mod td 8 ltac:(lia)); lia). rewrite Z.odd_mul. by destruct c.
Qed.

Lemma owner_word_pos td c : address td -> 0 < owner_word td c.
Proof. intros H. rewrite owner_word_add by done. destruct H, c; cbn; lia. Qed.

Lemma owner_word_inj td c td' c' : address td -> address td' -> owner_word td c = owner_word td' c' -> td = td' /\ c = c'.
Proof.
  intros H H' E. pose proof (owner_word_owner false 0 td c H) as A1. pose proof (owner_word_owner false 0 td' c' H') as A2. pose proof (owner_word_flag td c H) as B1. pose proof (owner_word_flag td' c' H') as B2.
  rewrite E in A1, B1. split; congruence.
Qed.

(** [td] owns the mutex [m]. *)
Definition owned M m td : Prop := exists y c, M !! m = Some y /\ m_owner y = owner_word td c /\ address td.

Record mtx_ok K T M : Prop := {
  mo_owner m y : M !! m = Some y -> m_owner y = 0 \/ exists td v c, K !! td = Some v /\ k_kind v <> Other /\ m_owner y = owner_word td c;
  mo_used q x : T !! q = Some x -> ts_state x = USED_BLOCKED -> exists y, M !! ts_wchan x = Some y /\ m_owner y = owner_word (ts_owner x) true;
  mo_contested m y : M !! m = Some y -> flag_on (m_owner y) MTX_CONTESTED = true -> exists q x, T !! q = Some x /\ ts_state x = USED_BLOCKED /\ ts_wchan x = m;
  mo_count m y : M !! m = Some y -> 0 <= m_count y < 2 ^ 32 /\ (m_count y <> 0 -> m_recursive y = true /\ m_owner y <> 0);
  mo_address td : is_Some (K !! td) -> address td;
  mo_null : M !! 0 = None;
}.

(** The mutex that a thread is locking *)
Definition locking (f : frame) : option Z := match f with Trying m _ | Failed m _ | Waited m _ => Some m | Releasing _ => None end.

Definition waited (f : option frame) : Z := match f with Some (Waited _ _) => 1 | _ => 0 end.

(** Mutexes are locked in the order of [rank]. *)
Record frames_ok (rank : Z -> Z) K (D : gmap Z Z) M (F : gmap Z frame) (idle : Z) : Prop := {
  fr_thread td f : F !! td = Some f -> exists v, K !! td = Some v /\ k_kind v <> Other;
  fr_nest td n : D !! td = Some n -> n = waited (F !! td);
  fr_blocked td v : K !! td = Some v -> k_kind v = Blocked -> exists w, F !! td = Some (Waited (k_wchan v) w);
  fr_order td f m : F !! td = Some f -> locking f = Some m -> is_Some (M !! m) /\ forall m', owned M m' td -> rank m' < rank m;
  fr_release td m : F !! td = Some (Releasing m) -> owned M m td /\ forall y, M !! m = Some y -> m_count y = 0;
  fr_idle : F !! idle = None /\ forall m, ~ owned M m idle;
}.

(** *** Priorities *)

Notation priomap := (gmap Z pview).
Implicit Types (P : priomap).

Definition pr P td : Z := default 0 (v_prio <$> P !! td).

(** The owner [td] may still lack the priority [p]. *)
Definition lent_but P T (td p : Z) : Prop :=
  forall q x b, T !! q = Some x -> ts_state x = USED_BLOCKED -> b ∈ ts_blocked x -> pr P (ts_owner x) <= pr P b \/ ts_owner x = td /\ p <= pr P b.

Definition sorted P (l : list Z) : Prop := StronglySorted (fun a b => pr P a <= pr P b) l.

Record base_ok P : Prop := {
  ba_prio td v : P !! td = Some v -> v_prio v <= v_base v <= 255 /\ (v_borrow v = false -> v_prio v = v_base v);
}.

Record prio_inv P T : Prop := {
  pi_base : base_ok P;
  pi_sorted q x : T !! q = Some x -> ts_state x = USED_BLOCKED -> sorted P (ts_blocked x);
  pi_lent q x b : T !! q = Some x -> ts_state x = USED_BLOCKED -> b ∈ ts_blocked x -> pr P (ts_owner x) <= pr P b;
}.

Record locks_inv (rank : Z -> Z) k : Prop := {
  li_sched : sched_inv (sch k);
  li_ts : ts_ok (keys (sch k)) (tss k) (turnstile_chains k);
  li_mtx : mtx_ok (keys (sch k)) (tss k) (mtxs k);
  li_frames : frames_ok rank (keys (sch k)) (nests (sch k)) (mtxs k) (frames k) (idle_thread (sch k));
  li_prio : prio_inv (prios (sch k)) (tss k);
}.

(** ** Sorted queues *)

Lemma sorted_app P (a b : list Z) : sorted P (a ++ b) <-> sorted P a /\ sorted P b /\ forall y z, y ∈ a -> z ∈ b -> pr P y <= pr P z.
Proof.
  induction a as [|y a IH]; cbn; [split; [intros H; split_and!; [constructor|done|by intros ? ? ?%not_elem_of_nil]|by intros (_ & H & _)]|]. unfold sorted in *. split.
  - intros H. apply StronglySorted_inv in H as [H HF]. apply IH in H as (H1 & H2 & H3). rewrite Forall_app in HF. destruct HF as [F1 F2]. split_and!; [by constructor|done|].
    intros u z [->|Hu]%elem_of_cons Hz; [|by apply H3]. rewrite Forall_forall in F2. by apply F2.
  - intros (H1 & H2 & H3). apply StronglySorted_inv in H1 as [H1 HF]. constructor; [apply IH; split_and!; try done; intros u z Hu Hz; apply H3; [by right|done]|].
    apply Forall_app. split; [done|]. apply Forall_forall. intros z Hz. apply H3; [by left|done].
Qed.

Lemma sorted_insert P td (a b : list Z) : sorted P (a ++ b) -> (forall y, y ∈ a -> pr P y <= pr P td) -> (forall y, y ∈ b -> pr P td <= pr P y) -> sorted P (a ++ td :: b).
Proof.
  intros H Ha Hb. apply sorted_app in H as (H1 & H2 & H3). apply sorted_app. split; [done|]. split; [constructor; [done|by apply Forall_forall]|].
  intros y z Hy [->|Hz]%elem_of_cons; [by apply Ha|by apply H3].
Qed.

Lemma sorted_head P td (l : list Z) z : sorted P (td :: l) -> z ∈ td :: l -> pr P td <= pr P z.
Proof. intros H [->|Hz]%elem_of_cons; [lia|]. apply StronglySorted_inv in H as [_ H]. rewrite Forall_forall in H. by apply H. Qed.

Lemma sorted_ext P P' (l : list Z) : (forall td, td ∈ l -> pr P' td = pr P td) -> sorted P l -> sorted P' l.
Proof.
  unfold sorted. induction l as [|y l IH]; intros HE H; [constructor|]. apply StronglySorted_inv in H as [H HF]. constructor; [apply IH; [intros td Htd; apply HE; by right|done]|].
  apply Forall_forall. intros z Hz. rewrite !HE by set_solver. rewrite Forall_forall in HF. by apply HF.
Qed.

(** The prefix of the threads over a priority *)
Lemma pass_spec k (over : Z -> bool) (l : list Z) : (forall td, td ∈ l -> is_Some (threads (sch k) !! td)) ->
  exists a b, pass k over l = Ok (a, b) /\ l = a ++ b /\ (forall td, td ∈ a -> over (pr (prios (sch k)) td) = true) /\ (forall td b', b = td :: b' -> over (pr (prios (sch k)) td) = false).
Proof.
  induction l as [|td l IH]; intros Hl; [exists [], []; split_and!; try done; by intros td ?%not_elem_of_nil|].
  destruct (Hl td ltac:(by left)) as [t Ht]. cbn [pass]. rewrite (thr_some _ td t Ht). cbn [mbind outcome_bind]. assert (pr (prios (sch k)) td = td_prio t) as Ep by (unfold pr; by rewrite (prios_lookup _ _ _ Ht)).
  destruct (over (td_prio t)) eqn:Eo.
  - destruct IH as (a & b & -> & -> & Ha & Hb); [intros z Hz; apply Hl; by right|]. exists (td :: a), b. split_and!; try done. intros z [->|Hz]%elem_of_cons; [by rewrite Ep|by apply Ha].
  - exists [], (td :: l). split_and!; try done; [by intros z ?%not_elem_of_nil|]. intros z b' [= -> ->]. by rewrite Ep.
Qed.

Lemma around_spec (l : list Z) td : td ∈ l -> exists a b, around l td = Ok (a, b) /\ l = a ++ td :: b /\ td ∉ a.
Proof.
  induction l as [|y l IH]; intros H; [by apply not_elem_of_nil in H|]. cbn [around]. destruct (Z.eqb_spec y td) as [->|Hne].
  - exists [], l. split_and!; try done. by intros ?%not_elem_of_nil.
  - apply elem_of_cons in H as [->|H]; [done|]. destruct (IH H) as (a & b & -> & -> & Hn). exists (y :: a), b. split_and!; try done. by intros [->|?]%elem_of_cons.
Qed.

Section adjust.
Context (k : locks) (ts td : Z) (x : turnstile).
Hypothesis Hx : tss k !! ts = Some x.
Hypothesis Hst : ts_state x = USED_BLOCKED.
Hypothesis Htd : td ∈ ts_blocked x.
Hypothesis Hthr : forall td', td' ∈ ts_blocked x -> is_Some (threads (sch k) !! td').

Let P := prios (sch k).

Lemma adjust_start : exists t, get_ts k ts = Ok x /\ assert (is_state USED_BLOCKED x) = Ok tt /\ thr (sch k) td = Ok t /\ td_prio t = pr P td.
Proof.
  destruct (Hthr td Htd) as [t Ht]. exists t. unfold get_ts, is_state. rewrite Hx, bool_decide_true, (thr_some _ _ _ Ht) by done. split_and!; try done. unfold pr, P. by rewrite (prios_lookup _ _ _ Ht).
Qed.

Lemma forward_spec : (forall a b, ts_blocked x = a ++ td :: b -> sorted P (a ++ b) /\ forall y, y ∈ a -> pr P y <= pr P td) ->
  exists l, adjust_thread_forward k ts td = Ok (put_ts k ts (set_blocked l x)) /\ l ≡ₚ ts_blocked x /\ sorted P l.
Proof.
  intros H. destruct adjust_start as (t & E1 & E2 & E3 & Ep). unfold adjust_thread_forward. rewrite E1. cbn [mbind outcome_bind]. rewrite E2. cbn [mbind outcome_bind]. rewrite E3. cbn [mbind outcome_bind].
  destruct (around_spec _ _ Htd) as (a & b & -> & El & _). cbn [mbind outcome_bind]. destruct (H a b El) as [Hs Ha].
  destruct (pass_spec k (fun q => prio_gt q (td_prio t)) b) as (c & d & -> & -> & Hc & Hd); [intros y Hy; apply Hthr; rewrite El; set_solver|]. cbn [mbind outcome_bind].
  eexists. split; [done|]. split; [rewrite El; solve_Permutation|]. rewrite app_assoc in Hs |- *. apply sorted_insert; [done| |].
  - intros y Hy. apply elem_of_app in Hy as [Hy|Hy]; [by apply Ha|]. apply Hc in Hy. unfold prio_gt in Hy. fold P in Hy. lia.
  - intros y Hy. destruct d as [|z d]; [by apply not_elem_of_nil in Hy|]. pose proof (Hd z d eq_refl) as Hz. unfold prio_gt in Hz. fold P in Hz. apply sorted_app in Hs as (_ & Hs & _). pose proof (sorted_head P z d y Hs Hy). lia.
Qed.

Lemma backward_spec : (forall a b, ts_blocked x = a ++ td :: b -> sorted P (a ++ b) /\ forall y, y ∈ b -> pr P td <= pr P y) ->
  exists l, adjust_thread_backward k ts td = Ok (put_ts k ts (set_blocked l x)) /\ l ≡ₚ ts_blocked x /\ sorted P l.
Proof.
  intros H. destruct adjust_start as (t & E1 & E2 & E3 & Ep). unfold adjust_thread_backward. rewrite E1. cbn [mbind outcome_bind]. rewrite E2. cbn [mbind outcome_bind]. rewrite E3. cbn [mbind outcome_bind].
  destruct (around_spec _ _ Htd) as (a & b & -> & El & _). cbn [mbind outcome_bind]. destruct (H a b El) as [Hs Hb].
  destruct (pass_spec k (fun q => prio_lt q (td_prio t)) (rev a)) as (c & d & -> & Er & Hc & Hd); [intros y Hy; apply Hthr; rewrite El; apply elem_of_app; left; by apply list_elem_of_In, in_rev, list_elem_of_In|]. cbn [mbind outcome_bind].
  assert (a = rev d ++ rev c) as Ea by (rewrite <- rev_app_distr, <- Er; by rewrite rev_involutive). assert (forall (z : list Z) y, y ∈ rev z <-> y ∈ z) as Hrev by (intros z y; rewrite !list_elem_of_In; symmetry; apply in_rev).
  eexists. split; [done|]. split; [rewrite El, Ea; solve_Permutation|]. rewrite Ea, <- app_assoc in Hs. apply sorted_insert; [done| |].
  - intros y Hy. apply (proj1 (Hrev _ _)) in Hy. destruct d as [|z d]; [by apply not_elem_of_nil in Hy|]. pose proof (Hd z d eq_refl) as Hz. unfold prio_lt in Hz. fold P in Hz. apply sorted_app in Hs as (Hs & _ & _). cbn [rev] in Hs.
    apply sorted_app in Hs as (_ & _ & Hs). apply elem_of_cons in Hy as [->|Hy]; [lia|]. pose proof (Hs y z (proj2 (Hrev _ _) Hy) ltac:(by left)). lia.
  - intros y Hy. apply elem_of_app in Hy as [Hy|Hy]; [|by apply Hb]. apply (proj1 (Hrev _ _)), Hc in Hy. unfold prio_lt in Hy. fold P in Hy. lia.
Qed.

(** The queue was sorted before the priority of [td] has changed. *)
Lemma adjust_spec P0 t oldprio : threads (sch k) !! td = Some t -> td_state t = TDS_BLOCKED -> NoDup (ts_blocked x) -> sorted P0 (ts_blocked x) ->
  (forall y, y <> td -> pr P y = pr P0 y) -> pr P0 td = oldprio ->
  exists l, adjust_thread k ts td oldprio = Ok (put_ts k ts (set_blocked l x)) /\ l ≡ₚ ts_blocked x /\ sorted P l.
Proof.
  intros Ht Hb Hn Hs Hne Eo. destruct adjust_start as (t' & E1 & E2 & E3 & Ep). assert (t' = t) as -> by (rewrite (thr_some _ _ _ Ht) in E3; congruence).
  unfold adjust_thread. rewrite E1. cbn [mbind outcome_bind]. rewrite E2. cbn [mbind outcome_bind]. rewrite E3. cbn [mbind outcome_bind]. unfold td_is_blocked, td_is. rewrite bool_decide_true by done. cbn [assert mbind outcome_bind].
  assert (forall a b, ts_blocked x = a ++ td :: b -> sorted P (a ++ b) /\ (forall y, y ∈ a -> pr P y <= oldprio) /\ (forall y, y ∈ b -> oldprio <= pr P y)) as HD.
  { intros a b El. rewrite El in Hs, Hn. assert (td ∉ a ++ b) as Hni. { apply NoDup_app in Hn as (_ & Ha & Hc). apply NoDup_cons in Hc as [Hc _]. intros [H|H]%elem_of_app; [|done]. apply (Ha td H). by left. }
    apply sorted_app in Hs as (S1 & S2 & S3). apply StronglySorted_inv in S2 as [S2 F]. rewrite Forall_forall in F. split_and!.
    - apply (sorted_ext P0); [intros y Hy; apply Hne; by intros ->|]. apply sorted_app. split_and!; try done. intros y z Hy Hz. apply S3; [done|by right].
    - intros y Hy. rewrite Hne, <- Eo by (intros ->; apply Hni, elem_of_app; by left). apply S3; [done|by left].
    - intros y Hy. rewrite Hne, <- Eo by (intros ->; apply Hni, elem_of_app; by right). by apply F. }
  unfold prio_gt, prio_lt. destruct (Z.ltb_spec (td_prio t) oldprio); [|destruct (Z.ltb_spec oldprio (td_prio t))].
  - apply backward_spec. intros a b El. destruct (HD a b El) as (S1 & S2 & S3). split; [done|]. intros y Hy. apply S3 in Hy. lia.
  - apply forward_spec. intros a b El. destruct (HD a b El) as (S1 & S2 & S3). split; [done|]. intros y Hy. apply S2 in Hy. lia.
  - exists (ts_blocked x). split; [|split; [done|]].
    + f_equal. assert (set_blocked (ts_blocked x) x = x) as -> by (by destruct x). unfold put_ts. rewrite insert_id by done. by destruct k.
    + apply (sorted_ext P0); [|done]. intros y _. destruct (decide (y = td)) as [->|Hd]; [lia|by apply Hne].
Qed.
End adjust.

(** ** Priority inheritance *)

Lemma mtx_resorted K T T' M : resorted T T' -> mtx_ok K T M -> mtx_ok K T' M.
Proof.
  intros R [M1 M2 M3 M4 M5 M6]. split; try done.
  - intros q x' Hx' Hst. destruct (resorted_get _ _ _ _ R Hx') as (x & Hx & _ & -> & -> & Es & _). apply (M2 q x Hx). congruence.
  - intros m y Hy Hf. destruct (M3 m y Hy Hf) as (q & x & Hx & Hst & Hm). destruct (resorted_get _ _ _ _ (resorted_sym _ _ R) Hx) as (x' & Hx' & _ & E1 & _ & E2 & _). exists q, x'. split_and!; congruence.
Qed.

Section inherit.
Context (rank : Z -> Z) (K : keymap) (C : list (list Z)) (M : mtxmap) (D : gmap Z Z) (F : gmap Z frame) (idle : Z).
Hypothesis Hf : frames_ok rank K D M F idle.

(** The chain of owners goes up in the order of the mutexes. *)
Lemma chain_step T q x v : ts_ok K T C -> mtx_ok K T M -> T !! q = Some x -> ts_state x = USED_BLOCKED -> K !! ts_owner x = Some v -> k_kind v = Blocked -> rank (ts_wchan x) < rank (k_wchan v).
Proof.
  intros S Mo Hx Hst Hv Hk. destruct (mo_used _ _ _ Mo q x Hx Hst) as (y & Hy & Ey). destruct (fr_blocked _ _ _ _ _ _ Hf _ v Hv Hk) as (w & Hw).
  apply (fr_order _ _ _ _ _ _ Hf _ _ (k_wchan v) Hw eq_refl). exists y, true. split_and!; try done. exact (mo_address _ _ _ Mo (ts_owner x) (mk_is_Some _ _ Hv)).
Qed.

Lemma owner_ok T q x : ts_ok K T C -> mtx_ok K T M -> T !! q = Some x -> ts_state x = USED_BLOCKED ->
  exists v, K !! ts_owner x = Some v /\ k_kind v <> Other /\ ts_owner x <> idle /\ ts_owner x <> 0.
Proof.
  intros S Mo Hx Hst. destruct (mo_used _ _ _ Mo q x Hx Hst) as (y & Hy & Ey). destruct (so_used _ _ _ S q x Hx Hst) as (_ & _ & _ & _ & Hs). pose proof (mo_address _ _ _ Mo _ Hs) as Ha.
  assert (ts_owner x <> 0) as H0 by (destruct Ha; lia). destruct (mo_owner _ _ _ Mo _ y Hy) as [E|(td & v & c & Hv & Hk & E)]; [pose proof (owner_word_pos _ true Ha); lia|].
  rewrite Ey in E. apply owner_word_inj in E as [E _]; [|done|apply (mo_address _ _ _ Mo); by eexists]. subst td. exists v. split_and!; try done.
  intros E. apply (proj2 (fr_idle _ _ _ _ _ _ Hf) (ts_wchan x)). rewrite <- E. by exists y, true.
Qed.

Definition above (r : Z) : keymap := filter (fun kv => k_kind kv.2 = Blocked /\ r < rank (k_wchan kv.2)) K.

Lemma above_lt r td v : K !! td = Some v -> k_kind v = Blocked -> r < rank (k_wchan v) -> (size (above (rank (k_wchan v))) < size (above r))%nat.
Proof.
  intros Hv Hk Hr. apply map_subset_size. split.
  - apply map_subseteq_spec. intros td' u Hu. apply map_lookup_filter_Some in Hu as [Hu [H1 H2]]. apply map_lookup_filter_Some. cbn in *. split_and!; try done. lia.
  - intros Hsub. rewrite map_subseteq_spec in Hsub. assert (above r !! td = Some v) as Ha by (by apply map_lookup_filter_Some). apply Hsub in Ha. apply map_lookup_filter_Some in Ha as [_ [_ Ha]]. cbn in Ha. lia.
Qed.

(** *** The priority [p] is given to [td]. *)

Section raise.
Context (P : priomap) (T : tsmap) (td p : Z) (v : pview).
Hypothesis Hv : P !! td = Some v.
Hypothesis Hlt : 0 <= p < v_prio v.
Let P' := <[td := Prio p (v_base v) true]> P.

Lemma raise_pr td' : pr P' td' = if decide (td' = td) then p else pr P td'.
Proof. unfold pr, P'. case_decide as Hd; [subst; by rewrite lookup_insert_eq|by rewrite lookup_insert_ne]. Qed.

Lemma raise_base : base_ok P -> base_ok P'.
Proof.
  intros [B]. split. intros td' u. unfold P'. destruct (decide (td' = td)) as [->|Hne]; [rewrite lookup_insert_eq; intros [= <-]; cbn|rewrite lookup_insert_ne by done; apply B].
  destruct (B td v Hv) as [? _]. split; [lia|done].
Qed.

Lemma raise_old : pr P td = v_prio v.
Proof. unfold pr. by rewrite Hv. Qed.

Lemma raise_lent td' : lent_but P T td p -> (forall q x, T !! q = Some x -> ts_state x = USED_BLOCKED -> td ∈ ts_blocked x -> ts_owner x = td') -> lent_but P' T td' p.
Proof.
  intros H Ho q x b Hx Hst Hb. rewrite !raise_pr. pose proof raise_old as E. destruct (H q x b Hx Hst Hb) as [Hle|[Ew Hle]]; repeat case_decide; subst; try (left; lia); try (right; split; [by apply (Ho q x)|lia]).
Qed.
End raise.

Lemma lent_done P T td p : lent_but P T td p -> pr P td <= p -> forall q x b, T !! q = Some x -> ts_state x = USED_BLOCKED -> b ∈ ts_blocked x -> pr P (ts_owner x) <= pr P b.
Proof. intros H Hle q x b Hx Hst Hb. destruct (H q x b Hx Hst Hb) as [?|[-> ?]]; lia. Qed.

Lemma shade_prio s s0 td t : shade s s0 -> threads s !! td = Some t -> prio_ok t.
Proof.
  intros [I [->|(t0 & Ht0 & _ & ->)]] Ht; [by apply (si_prio _ I td)|]. unfold leave in Ht. cbn in Ht. destruct (decide (td = curthread s0)) as [->|Hne].
  - rewrite lookup_insert_eq in Ht. injection Ht as <-. exact (si_prio _ I _ _ Ht0).
  - rewrite lookup_insert_ne in Ht by done. by apply (si_prio _ I td).
Qed.

(** Only priorities get higher, and queues are sorted again. *)
Record inherited k k' : Prop := {
  ih_rest : turnstile_chains k' = turnstile_chains k /\ mtxs k' = mtxs k /\ frames k' = frames k;
  ih_sch : keys (sch k') = keys (sch k) /\ nests (sch k') = nests (sch k) /\ curthread (sch k') = curthread (sch k) /\ idle_thread (sch k') = idle_thread (sch k);
  ih_ts : resorted (tss k) (tss k');
  ih_prio td : pr (prios (sch k')) td <= pr (prios (sch k)) td;
}.

Lemma inherited_refl k : inherited k k.
Proof. split; [done|done|apply resorted_refl|lia]. Qed.

Lemma inherited_trans k1 k2 k3 : inherited k1 k2 -> inherited k2 k3 -> inherited k1 k3.
Proof.
  intros [(A1 & A2 & A3) (B1 & B2 & B3 & B4) R1 H1] [(A1' & A2' & A3') (B1' & B2' & B3' & B4') R2 H2]. split; [split_and!; congruence|split_and!; congruence|by apply (resorted_trans _ (tss k2))|].
  intros td. specialize (H1 td). specialize (H2 td). lia.
Qed.

(** The state in which the owner [td] may still lack the priority [p] *)
Record lending k s0 (td p r : Z) : Prop := {
  le_shade : shade (sch k) s0;
  le_keys : keys (sch k) = K;
  le_ts : ts_ok K (tss k) C;
  le_mtx : mtx_ok K (tss k) M;
  le_idle : idle_thread (sch k) = idle;
  le_base : base_ok (prios (sch k));
  le_sorted q x : tss k !! q = Some x -> ts_state x = USED_BLOCKED -> sorted (prios (sch k)) (ts_blocked x);
  le_lent : lent_but (prios (sch k)) (tss k) td p;
  le_range : 0 <= p;
  le_td : exists v, K !! td = Some v /\ k_kind v <> Other /\ (k_kind v = Blocked -> r < rank (k_wchan v)) /\ td <> idle;
  le_self : sch k = s0 \/ exists u, K !! curthread (sch k) = Some u /\ k_kind u = Blocked /\ rank (k_wchan u) <= r;
}.

(** [td] itself gets the priority. *)
Lemma lend_step k s0 td p r t : lending k s0 td p r -> threads (sch k) !! td = Some t -> p < td_prio t -> (sch k = s0 \/ td <> curthread (sch k)) ->
  exists s' s0', sched_lend_prio (sch k) td p = Ok s' /\ shade s' s0' /\ (sch k = s0 -> s' = s0') /\ inherited k (set_sch s' k) /\ base_ok (prios s') /\
    prios s' = <[td := Prio p (td_base_prio t) true]> (prios (sch k)) /\ exists t', threads s' !! td = Some t' /\ key_of t' = key_of t /\ td_blocked t' = td_blocked t.
Proof.
  intros L Ht Hp Hs. pose proof L as [L1 L2 L3 L4 L5 L6 L7 L8 L9 (v & Hv & _ & _ & Hi) L11]. pose proof (shade_prio _ _ _ _ L1 Ht) as Hok.
  destruct (lend_spec _ s0 td t p L1 Ht ltac:(by rewrite L5) Hs ltac:(lia) Hok) as (s' & s0' & E & Sh & Es & Hc & Hid & Hk & HP & HN & _ & t' & Ht' & Eb). exists s', s0'.
  assert (prios (sch k) !! td = Some (prio_of t)) as HPt by (by apply prios_lookup). split; [done|]. split; [done|]. split; [done|]. split; [|split; [|split; [done|]]].
  - split; [done|done|apply resorted_refl|]. intros td'. cbn. rewrite HP. rewrite (raise_pr (prios (sch k)) td p (prio_of t)). case_decide as Hd; [|lia]. subst. unfold pr. rewrite HPt. cbn. lia.
  - rewrite HP. apply (raise_base (prios (sch k)) td p (prio_of t) HPt); [cbn; lia|done].
  - exists t'. split; [done|]. split; [|done]. assert (keys s' !! td = Some (key_of t)) as E2 by (rewrite Hk; by apply keys_lookup). rewrite (keys_lookup _ _ _ Ht') in E2. congruence.
Qed.

Lemma queue_threads k s0 td p r q x td' : lending k s0 td p r -> tss k !! q = Some x -> ts_state x = USED_BLOCKED -> td' ∈ ts_blocked x -> is_Some (threads (sch k) !! td').
Proof.
  intros L Hx Hst Hin. apply (so_blocked _ _ _ (le_ts _ _ _ _ _ L) q x td' Hx Hst) in Hin as (v & Hv & _). rewrite <- (le_keys _ _ _ _ _ L) in Hv. apply keys_inv in Hv as (t & Ht & _). by eexists.
Qed.

(** A blocked owner passes the priority on. *)
Lemma lend_next k s0 td p r t : lending k s0 td p r -> threads (sch k) !! td = Some t -> td_state t = TDS_BLOCKED -> p < td_prio t -> (sch k = s0 \/ td <> curthread (sch k)) ->
  exists s' s0' x l, sched_lend_prio (sch k) td p = Ok s' /\ tss k !! td_blocked t = Some x /\ ts_state x = USED_BLOCKED /\ td_blocked t <> 0 /\
    adjust_thread (set_sch s' k) (td_blocked t) td (td_prio t) = Ok (put_ts (set_sch s' k) (td_blocked t) (set_blocked l x)) /\
    (sch k = s0 -> s' = s0') /\ inherited k (put_ts (set_sch s' k) (td_blocked t) (set_blocked l x)) /\
    lending (put_ts (set_sch s' k) (td_blocked t) (set_blocked l x)) s0' (ts_owner x) p (rank (td_wchan t)) /\ r < rank (td_wchan t) /\ k_kind (key_of t) = Blocked.
Proof.
  intros L Ht Hst Hp Hs. destruct (lend_step k s0 td p r t L Ht Hp Hs) as (s' & s0' & E & Sh & Es & Ih & B & HP & t' & Ht' & Ek & Eb).
  pose proof L as [L1 L2 L3 L4 L5 L6 L7 L8 L9 (v & Hv & Hko & Hr & Hi) L11]. assert (v = key_of t) as -> by (rewrite <- L2, (keys_lookup _ _ _ Ht) in Hv; congruence).
  assert (k_kind (key_of t) = Blocked) as Hkb by (cbn; by rewrite Hst). destruct (blocked_ts K (tss k) C L3 td _ Hv Hkb) as (x & Hx & Hxs & Hw & Hin & _ & Hn0). change (k_blocked (key_of t)) with (td_blocked t) in Hx, Hn0. change (k_wchan (key_of t)) with (td_wchan t) in Hw, Hr.
  destruct (so_used _ _ _ L3 _ x Hx Hxs) as (_ & Hnd & _). assert (forall y, y <> td -> pr (prios s') y = pr (prios (sch k)) y) as Hne by (intros y Hy; rewrite HP, (raise_pr (prios (sch k)) td p (prio_of t)); by case_decide).
  assert (pr (prios (sch k)) td = td_prio t) as Ho by (unfold pr; by rewrite (prios_lookup _ _ _ Ht)). assert (td_state t' = TDS_BLOCKED) as Hst'.
  { assert (k_kind (key_of t') = Blocked) as H by (by rewrite Ek). cbn in H. by destruct (td_state t'). }
  destruct (adjust_spec (set_sch s' k) (td_blocked t) td x Hx Hxs Hin) with (P0 := prios (sch k)) (t := t') (oldprio := td_prio t) as (l & Ea & Hl & Hsl); try done.
  { intros td' H. destruct (queue_threads k s0 td p r _ x td' L Hx Hxs H) as [u Hu]. destruct Ih as [_ (K1 & _) _ _]. apply keys_lookup in Hu. cbn in K1. rewrite <- K1 in Hu. apply keys_inv in Hu as (u' & Hu' & _). by eexists. }
  { by apply L7 with (td_blocked t). }
  exists s', s0', x, l. do 5 (split; [done|]). split; [done|].
  assert (inherited k (put_ts (set_sch s' k) (td_blocked t) (set_blocked l x))) as Ih2.
  { destruct Ih as [R1 R2 R3 R4]. split; [done|done| |done]. cbn. by apply resorted_put. }
  split; [done|]. destruct (owner_ok (tss k) (td_blocked t) x L3 L4 Hx Hxs) as (vo & Hvo & Hvk & Hoi & _). split; [|split; [by apply Hr|done]]. destruct Ih as [_ (K1 & K2 & K3 & K4) _ _]. cbn in K1, K3, K4. split; cbn [sch put_ts set_tss set_sch tss]; try done.
  - congruence.
  - apply (ts_resorted _ (tss k)); [by apply resorted_put|done].
  - apply (mtx_resorted _ (tss k)); [by apply resorted_put|done].
  - congruence.
  - intros q y Hy Hys. destruct (decide (q = td_blocked t)) as [->|Hnq]; [rewrite lookup_insert_eq in Hy; by injection Hy as <-|]. rewrite lookup_insert_ne in Hy by done.
    apply (sorted_ext (prios (sch k))); [|by apply (L7 q)]. intros z Hz. apply Hne. intros ->. apply (so_blocked _ _ _ L3 q y td Hy Hys) in Hz as (u & Hu & Eu). rewrite Hv in Hu. injection Hu as <-. by apply Hnq.
  - rewrite HP. intros q y b Hy Hys Hb. assert (lent_but (<[td := Prio p (td_base_prio t) true]> (prios (sch k))) (tss k) (ts_owner x) p) as HL.
    { apply (raise_lent (prios (sch k)) (tss k) td p (prio_of t)); [by apply prios_lookup|cbn; lia|done|]. intros q' z Hz Hzs Hin'. apply (so_blocked _ _ _ L3 q' z td Hz Hzs) in Hin' as (u & Hu & Eu).
      rewrite Hv in Hu. injection Hu as <-. cbn in Eu. congruence. }
    destruct (decide (q = td_blocked t)) as [->|Hnq]; [rewrite lookup_insert_eq in Hy; injection Hy as <-|rewrite lookup_insert_ne in Hy by done; by apply (HL q)].
    apply (HL (td_blocked t) x); [done|done|]. cbn in Hb. by rewrite Hl in Hb.
  - exists vo. split_and!; try done. intros Hb. rewrite <- Hw. by apply (chain_step (tss k) (td_blocked t)).
  - destruct L11 as [Hs0|(u & Hu & Huk & Hur)]; [left; by apply Es|right]. exists u. rewrite K3. split_and!; try done. pose proof (Hr Hkb). lia.
Qed.

Lemma lending_self k s0 td p r v : lending k s0 td p r -> K !! td = Some v -> k_kind v = Blocked -> td <> curthread (sch k).
Proof.
  intros L Hv Hk ->. destruct (le_td _ _ _ _ _ L) as (v' & Hv' & _ & Hr & _). assert (v' = v) as -> by congruence. destruct (le_self _ _ _ _ _ L) as [Hs|(u & Hu & _ & Hur)].
  - destruct (le_shade _ _ _ _ _ L) as [I _]. rewrite <- Hs in I. rewrite <- (le_keys _ _ _ _ _ L) in Hv. apply keys_inv in Hv as (t & Ht & ->). pose proof (self_runnable _ t I Ht) as Hr'. cbn in Hk. congruence.
  - assert (u = v) as -> by congruence. specialize (Hr Hk). lia.
Qed.

(** An owner that can run, or that has the priority already *)
Lemma lend_last k s0 td p r t fuel : lending k s0 td p r -> threads (sch k) !! td = Some t -> td_state t <> TDS_BLOCKED \/ td_prio t <= p ->
  exists k' s0', propagate_loop fuel k td p = Ok k' /\ shade (sch k') s0' /\ (sch k = s0 -> sch k' = s0') /\ inherited k k' /\ prio_inv (prios (sch k')) (tss k').
Proof.
  intros L Ht Hcase. pose proof L as [L1 L2 L3 L4 L5 L6 L7 L8 L9 (v & Hv & Hko & Hr & Hi) L11]. assert (v = key_of t) as -> by (rewrite <- L2, (keys_lookup _ _ _ Ht) in Hv; congruence).
  assert (pr (prios (sch k)) td = td_prio t) as Ho by (unfold pr; by rewrite (prios_lookup _ _ _ Ht)).
  assert (propagate_loop fuel k td p = if prio_lt (td_prio t) p && (td_is_ready t || td_is_running t) then k ← on_sch k (fun s => sched_lend_prio s td p); t ← thr (sch k) td; _ ← assert (td_blocked t =? 0); Ok k else Ok k) as ->.
  { destruct fuel; cbn [propagate_loop]; rewrite (thr_some _ _ _ Ht); cbn [mbind outcome_bind]; unfold prio_lt, td_is_ready, td_is_running, td_is;
      (destruct (Z.ltb_spec p (td_prio t)); [|done]); cbn in Hko; destruct (td_state t); try done; cbn; destruct Hcase; try done; lia. }
  unfold prio_lt. destruct (Z.ltb_spec p (td_prio t)) as [Hp|Hp]; cbn [andb].
  2:{ exists k, s0. split_and!; try done; [apply inherited_refl|]. split; [done|done|]. apply (lent_done _ _ td p); [done|lia]. }
  assert (td_state t <> TDS_BLOCKED) as Hnb by (destruct Hcase; [done|lia]). assert (k_kind (key_of t) = Runnable) as Hrun by (cbn in Hko |- *; by destruct (td_state t)).
  assert (td_is_ready t || td_is_running t = true) as -> by (unfold td_is_ready, td_is_running, td_is; cbn in Hrun; by destruct (td_state t)).
  assert (sch k = s0 \/ td <> curthread (sch k)) as Hs. { destruct L11 as [?|(u & Hu & Huk & _)]; [by left|right]. intros ->. rewrite Hv in Hu. injection Hu as <-. congruence. }
  destruct (lend_step k s0 td p r t L Ht Hp Hs) as (s' & s0' & E & Sh & Es & Ih & B & HP & t' & Ht' & Ek & Eb). unfold on_sch. rewrite E. cbn [mbind outcome_bind].
  change (sch (set_sch s' k)) with s'. rewrite (thr_some _ _ _ Ht'). cbn [mbind outcome_bind]. destruct (so_view _ _ _ L3 td _ Hv) as [Hb _]. cbn in Hb. rewrite Eb.
  assert (td_blocked t = 0) as -> by (destruct (decide (td_blocked t = 0)) as [|Hd]; [done|apply Hb in Hd; cbn in Hrun; congruence]). cbn [Z.eqb assert mbind outcome_bind].
  exists (set_sch s' k), s0'. split_and!; try done. cbn. assert (forall q x, tss k !! q = Some x -> ts_state x = USED_BLOCKED -> td ∉ ts_blocked x) as Hni.
  { intros q x Hx Hxs H. apply (so_blocked _ _ _ L3 q x td Hx Hxs) in H as (u & Hu & Eu). rewrite Hv in Hu. injection Hu as <-. cbn in Eu. destruct (decide (td_blocked t = 0)) as [E0|Hd]; [rewrite E0 in Eu; subst q; by rewrite (so_null _ _ _ L3) in Hx|apply Hb in Hd; cbn in Hrun; congruence]. }
  split; [done|..].
  - intros q x Hx Hxs. apply (sorted_ext (prios (sch k))); [|by apply (L7 q)]. intros z Hz. rewrite HP, (raise_pr (prios (sch k)) td p (prio_of t)). case_decide; [|done]. subst. by destruct (Hni q x Hx Hxs).
  - rewrite HP. apply (lent_done _ (tss k) td p); [|rewrite (raise_pr (prios (sch k)) td p (prio_of t)); case_decide; [lia|done]].
    apply (raise_lent (prios (sch k)) (tss k) td p (prio_of t)); [by apply prios_lookup|cbn; lia|done|]. intros q x Hx Hxs H. by destruct (Hni q x Hx Hxs).
Qed.

Lemma propagate_spec fuel : forall k s0 td p r, lending k s0 td p r -> (size (above r) < fuel)%nat ->
  exists k' s0', propagate_loop fuel k td p = Ok k' /\ shade (sch k') s0' /\ (sch k = s0 -> sch k' = s0') /\ inherited k k' /\ prio_inv (prios (sch k')) (tss k').
Proof.
  induction fuel as [|fuel IH]; intros k s0 td p r L Hfuel; [lia|]. destruct (le_td _ _ _ _ _ L) as (v & Hv & Hko & Hr & Hi). rewrite <- (le_keys _ _ _ _ _ L) in Hv. apply keys_inv in Hv as (t & Ht & ->).
  destruct (decide (td_state t <> TDS_BLOCKED \/ td_prio t <= p)) as [Hd|Hd]; [by apply (lend_last k s0 td p r t)|].
  assert (td_state t = TDS_BLOCKED) as Hst by (destruct (td_state t); try done; exfalso; apply Hd; by left). assert (p < td_prio t) as Hp by (apply Z.nle_gt; intros H; apply Hd; by right).
  assert (K !! td = Some (key_of t)) as HK by (rewrite <- (le_keys _ _ _ _ _ L); by apply keys_lookup). assert (td <> curthread (sch k)) as Hself by (apply (lending_self k s0 td p r (key_of t)); [done|done|cbn; by rewrite Hst]).
  destruct (lend_next k s0 td p r t L Ht Hst Hp ltac:(by right)) as (s' & s0' & x & l & E1 & E2 & E3 & E4 & E5 & Es & Ih & L' & Hlt & Hkb).
  cbn [propagate_loop]. rewrite (thr_some _ _ _ Ht). cbn [mbind outcome_bind]. unfold prio_lt, td_is_ready, td_is_running, td_is_blocked, td_is. rewrite Hst, (proj2 (Z.ltb_lt _ _) Hp). cbn [bool_decide andb negb].
  rewrite !bool_decide_false, bool_decide_true by done. cbn [negb andb]. unfold thread_self. rewrite (proj2 (Z.eqb_neq _ _) Hself). cbn [negb assert mbind outcome_bind].
  unfold on_sch. rewrite E1. cbn [mbind outcome_bind]. rewrite (proj2 (Z.eqb_neq _ _) E4). cbn [negb assert mbind outcome_bind]. unfold get_ts at 1. cbn [tss set_sch]. rewrite E2. cbn [mbind outcome_bind].
  unfold is_state at 1. rewrite bool_decide_true by done. cbn [assert mbind outcome_bind]. rewrite E5. cbn [mbind outcome_bind]. set (k2 := put_ts _ _ _) in *.
  assert (acquire_owner k2 (td_blocked t) = Ok (ts_owner x)) as ->.
  { unfold acquire_owner. assert (get_ts k2 (td_blocked t) = Ok (set_blocked l x)) as -> by (unfold get_ts, k2; cbn; by rewrite lookup_insert_eq). cbn [mbind outcome_bind]. unfold is_state. cbn [ts_state set_blocked ts_owner]. rewrite bool_decide_true by done. cbn [assert mbind outcome_bind].
    destruct (owner_ok _ _ x (le_ts _ _ _ _ _ L) (le_mtx _ _ _ _ _ L) E2 E3) as (vo & Hvo & Hvk & _ & H0). rewrite (proj2 (Z.eqb_neq _ _) H0). cbn [negb assert mbind outcome_bind].
    rewrite <- (le_keys _ _ _ _ _ L') in Hvo. apply keys_inv in Hvo as (u & Hu & ->). rewrite (thr_some _ _ _ Hu). cbn [mbind outcome_bind]. unfold td_is_sleeping, td_is. rewrite bool_decide_false; [done|]. intros Hsl. apply Hvk. cbn. by rewrite Hsl. }
  cbn [mbind outcome_bind]. destruct (IH k2 s0' (ts_owner x) p (rank (td_wchan t)) L') as (k' & s0'' & E & Sh & Es' & Ih' & Pi).
  { pose proof (above_lt r td (key_of t) HK Hkb Hlt). cbn in H. lia. }
  exists k', s0''. split_and!; try done; [by intros H; apply Es', Es|by apply (inherited_trans k k2)].
Qed.
End inherit.

(** ** Blocking *)

Lemma inherited_inv rank k k' : inherited k k' -> sched_inv (sch k') -> prio_inv (prios (sch k')) (tss k') ->
  ts_ok (keys (sch k)) (tss k) (turnstile_chains k) -> mtx_ok (keys (sch k)) (tss k) (mtxs k) -> frames_ok rank (keys (sch k)) (nests (sch k)) (mtxs k) (frames k) (idle_thread (sch k)) -> locks_inv rank k'.
Proof.
  intros [(A1 & A2 & A3) (B1 & B2 & B3 & B4) R _] I Pi S Mo Fr. split; [done| | | |done].
  - rewrite A1, B1. by apply (ts_resorted _ (tss k)).
  - rewrite A2, B1. by apply (mtx_resorted _ (tss k)).
  - by rewrite A2, A3, B1, B2, B4.
Qed.

Lemma acquire_spec k q x v : tss k !! q = Some x -> ts_state x = USED_BLOCKED -> ts_owner x <> 0 -> keys (sch k) !! ts_owner x = Some v -> k_kind v <> Other -> acquire_owner k q = Ok (ts_owner x).
Proof.
  intros Hx Hst H0 Hv Hk. unfold acquire_owner, get_ts. rewrite Hx. cbn [mbind outcome_bind]. unfold is_state. rewrite bool_decide_true by done. cbn [assert mbind outcome_bind].
  rewrite (proj2 (Z.eqb_neq _ _) H0). cbn [negb assert mbind outcome_bind]. apply keys_inv in Hv as (u & Hu & ->). rewrite (thr_some _ _ _ Hu). cbn [mbind outcome_bind].
  unfold td_is_sleeping, td_is. rewrite bool_decide_false; [done|]. intros Hsl. apply Hk. cbn. by rewrite Hsl.
Qed.

Section block.
Context (rank : Z -> Z) (k : locks) (ts : Z) (x : turnstile) (t : thread) (w : Z).
Let td := curthread (sch k).
Let s := sch k.
Hypothesis I : sched_inv s.
Hypothesis Ht : threads s !! td = Some t.
Hypothesis Hni : td <> idle_thread s.
Hypothesis Hx : tss k !! ts = Some x.
Hypothesis Hst : ts_state x = USED_BLOCKED.
Let K1 := <[td := Key Blocked ts 0 (td_contested t) (ts_wchan x)]> (keys s).
Hypothesis HS : ts_ok K1 (tss k) (turnstile_chains k).
Hypothesis HM : mtx_ok K1 (tss k) (mtxs k).
Hypothesis HF : frames_ok rank K1 (nests s) (mtxs k) (frames k) (idle_thread s).
Hypothesis Hb : base_ok (prios s).
Hypothesis Hso : forall q y, tss k !! q = Some y -> ts_state y = USED_BLOCKED -> sorted (prios s) (ts_blocked y).
Hypothesis Hle : lent_but (prios s) (tss k) (ts_owner x) (td_prio t).

Let t0 := set_td_waitpt w (set_td_wchan (ts_wchan x) (set_td_blocked ts (set_td_turnstile 0 t))).
Let s0 := set_threads (<[td := t0]> (threads s)) s.
Let s1 := leave s0 t0 TDS_BLOCKED.

Lemma block_shade : shade s1 s0 /\ threads s1 = <[td := set_td_state TDS_BLOCKED t0]> (threads s).
Proof.
  split; [|unfold s1, leave, s0; cbn; fold td; by rewrite insert_insert_eq]. split.
  - apply (upd_inv s td t t0); try done. by destruct (si_prio _ I td t Ht).
  - right. exists t0. split_and!; [|done|done]. unfold s0. cbn. fold td. apply lookup_insert_eq.
Qed.

Lemma blocking_views : keys s1 = K1 /\ prios s1 = prios s /\ nests s1 = nests s.
Proof.
  destruct block_shade as [_ Hth]. destruct (views_update s s1 td _ Hth) as (-> & -> & ->). split; [done|]. split; [exact (insert_id _ _ _ (prios_lookup s td t Ht))|exact (insert_id _ _ _ (nests_lookup s td t Ht))].
Qed.

Lemma block_lending : lending rank K1 (turnstile_chains k) (mtxs k) (idle_thread s) (set_sch s1 k) s0 (ts_owner x) (td_prio t) (rank (ts_wchan x)).
Proof.
  destruct block_shade as [Sh _]. destruct blocking_views as (V1 & V2 & V3). destruct (owner_ok rank K1 _ _ _ _ _ HF _ ts x HS HM Hx Hst) as (vo & Hvo & Hvk & Hoi & Ho0).
  split; cbn [sch set_sch tss]; try done; try (by rewrite V2).
  - destruct (si_prio _ I td t Ht) as [? _]. lia.
  - exists vo. split_and!; try done. intros Hkb. exact (chain_step rank K1 _ _ _ _ _ HF (tss k) ts x vo HS HM Hx Hst Hvo Hkb).
  - right. exists (Key Blocked ts 0 (td_contested t) (ts_wchan x)). split_and!; [|done|cbn; lia]. apply lookup_insert_eq.
Qed.

Lemma switch_away_spec : exists k', switch_away k ts w = Ok k' /\ locks_inv rank k' /\ keys (sch k') = K1 /\ nests (sch k') = nests s /\ mtxs k' = mtxs k /\ frames k' = frames k /\
  idle_thread (sch k') = idle_thread s.
Proof.
  destruct block_shade as [Sh Hth]. destruct blocking_views as (V1 & V2 & V3). pose proof block_lending as L. destruct (owner_ok rank K1 _ _ _ _ _ HF _ ts x HS HM Hx Hst) as (vo & Hvo & Hvk & Hoi & Ho0).
  unfold switch_away, get_ts. rewrite Hx. cbn [mbind outcome_bind]. unfold is_state. rewrite bool_decide_true by done. cbn [assert mbind outcome_bind]. unfold upd_td, on_sch, thread_self. fold td. fold s. rewrite (upd_some s td t _ Ht). cbn [mbind outcome_bind].
  assert (set_threads (<[td := set_td_state TDS_BLOCKED t0]> (threads s)) s = s1) as Es1 by (unfold s1, leave, s0; cbn; fold td; by rewrite insert_insert_eq). fold t0. rewrite Es1.
  set (k1 := set_sch s1 k). unfold propagate_priority. change (sch k1) with s1. assert (threads s1 !! td = Some (set_td_state TDS_BLOCKED t0)) as Ht1 by (rewrite Hth; apply lookup_insert_eq).
  rewrite (thr_some _ _ _ Ht1). cbn [mbind outcome_bind]. change (td_blocked (set_td_state TDS_BLOCKED t0)) with ts. change (td_prio (set_td_state TDS_BLOCKED t0)) with (td_prio t).
  rewrite (acquire_spec k1 ts x vo Hx Hst Ho0) by (try done; change (keys s1 !! ts_owner x = Some vo); by rewrite V1). cbn [mbind outcome_bind].
  destruct (propagate_spec rank K1 _ _ _ _ _ HF (S (size (threads s1))) k1 s0 (ts_owner x) (td_prio t) _ L) as (k2 & s0' & -> & Sh2 & _ & Ih & Pi).
  { unfold above. pose proof (map_size_filter (M := gmap Z) (fun kv : Z * wkey => k_kind kv.2 = Blocked /\ rank (ts_wchan x) < rank (k_wchan kv.2)) K1) as Hsz. rewrite <- V1 in Hsz |- *. unfold keys in *. rewrite map_size_fmap in Hsz. lia. }
  cbn [mbind outcome_bind]. pose proof Ih as [_ (J1 & J2 & J3 & J4) _ _]. cbn [sch set_sch k1] in J1, J2, J3, J4.
  assert (exists t0', threads s0' !! curthread s0' = Some t0' /\ curthread s0' <> idle_thread s0' /\ sch k2 = leave s0' t0' TDS_BLOCKED /\ sched_inv s0') as (t0' & Ht0' & Hni' & E2 & I').
  { destruct Sh2 as [I' [E|(t0' & ? & ? & ?)]]; [|by exists t0']. exfalso. rewrite V1 in J1. assert (keys (sch k2) !! td = Some (Key Blocked ts 0 (td_contested t) (ts_wchan x))) as HK by (rewrite J1; apply lookup_insert_eq).
    apply keys_inv in HK as (u & Hu & Ek). assert (curthread s0' = td) as Ec by (rewrite <- E; exact J3). rewrite <- Ec, E in Hu. pose proof (self_runnable _ _ I' Hu) as Hr. apply (f_equal k_kind) in Ek. cbn in Ek. congruence. }
  rewrite E2. destruct (sched_switch_spec s0' t0' TDS_BLOCKED I' Ht0' ltac:(done) ltac:(done)) as (v & s' & -> & R). cbn [mbind outcome_bind].
  destruct (switch_same s0' t0' TDS_BLOCKED v s' I' Ht0' R ltac:(done)) as (W1 & W2 & W3). rewrite <- E2 in W1, W2, W3. destruct (sw_const _ _ _ _ _ R) as (Ei & _).
  exists (set_sch s' k2). split; [done|]. assert (idle_thread s0' = idle_thread (sch k2)) as Ei' by (by rewrite E2).
  destruct Ih as [(A1 & A2 & A3) _ R2 _]. cbn [sch set_sch mtxs frames]. split; [|rewrite W1, J1, V1, W3, J2, V3, A2, A3, Ei, Ei', J4; done]. split; cbn [sch set_sch tss turnstile_chains mtxs frames].
  - apply (sw_inv _ _ _ _ _ R).
  - rewrite W1, J1, V1, A1. by apply (ts_resorted _ (tss k)).
  - rewrite W1, J1, V1, A2. by apply (mtx_resorted _ (tss k)).
  - rewrite W1, J1, V1, W3, J2, V3, A2, A3, Ei, Ei', J4. done.
  - by rewrite W2.
Qed.
End block.

(** ** One thread changes its place *)

Lemma owned_insert M m0 (y : mtx) m td : owned (<[m0 := y]> M) m td <-> m = m0 /\ (exists c, m_owner y = owner_word td c /\ address td) \/ m <> m0 /\ owned M m td.
Proof.
  unfold owned. destruct (decide (m = m0)) as [->|Hne].
  - rewrite lookup_insert_eq. split; [intros (y' & c & [= <-] & H); left; split; [done|by exists c]|]. intros [[_ (c & H)]|[? _]]; [by exists y, c|done].
  - rewrite lookup_insert_ne by done. split; [by right|]. by intros [[? _]|[_ H]].
Qed.

(** Another thread than [td] sees no difference between two states. *)
Record others td K K' (D D' : gmap Z Z) M M' (F F' : gmap Z frame) : Prop := {
  ot_key o u : o <> td -> K' !! o = Some u -> k_kind u = Blocked -> exists u0, K !! o = Some u0 /\ k_kind u0 = Blocked /\ k_wchan u0 = k_wchan u;
  ot_kind o u0 : o <> td -> K !! o = Some u0 -> k_kind u0 <> Other -> exists u, K' !! o = Some u /\ k_kind u <> Other;
  ot_nest o : o <> td -> D' !! o = D !! o;
  ot_frame o : o <> td -> F' !! o = F !! o;
  ot_mtx m y : M !! m = Some y -> exists y', M' !! m = Some y';
  ot_owned o m : o <> td -> owned M' m o <-> owned M m o;
  ot_count o m y y' : o <> td -> owned M m o -> M !! m = Some y -> M' !! m = Some y' -> m_count y' = m_count y;
}.

Record frame_at (rank : Z -> Z) td v M (n : option Z) (f : option frame) : Prop := {
  fa_kind : k_kind v <> Other;
  fa_nest d : n = Some d -> d = waited f;
  fa_blocked : k_kind v = Blocked -> exists w, f = Some (Waited (k_wchan v) w);
  fa_order g m : f = Some g -> locking g = Some m -> is_Some (M !! m) /\ forall m', owned M m' td -> rank m' < rank m;
  fa_release m : f = Some (Releasing m) -> owned M m td /\ forall y, M !! m = Some y -> m_count y = 0;
}.

Lemma frames_update rank K K' D D' M M' F F' idle td v : frames_ok rank K D M F idle -> td <> idle -> others td K K' D D' M M' F F' ->
  K' !! td = Some v -> frame_at rank td v M' (D' !! td) (F' !! td) -> frames_ok rank K' D' M' F' idle.
Proof.
  intros [F1 F2 F3 F4 F5 [F6 F7]] Hi [O1 O1' O2 O3 O4 O5 O6] Hv [A1 A2 A3 A4 A5]. split.
  - intros o f. destruct (decide (o = td)) as [->|Ho]; [intros _; by exists v|]. rewrite O3 by done. intros Hf. destruct (F1 o f Hf) as (u0 & Hu0 & Hk). by apply (O1' o u0).
  - intros o n. destruct (decide (o = td)) as [->|Ho]; [apply A2|]. rewrite O2, O3 by done. apply F2.
  - intros o u Hu Hk. destruct (decide (o = td)) as [->|Ho]; [assert (u = v) as -> by congruence; by apply A3|]. destruct (O1 o u Ho Hu Hk) as (u0 & Hu0 & E1 & E2). rewrite O3, <- E2 by done. by apply (F3 o u0 Hu0).
  - intros o f m. destruct (decide (o = td)) as [->|Ho]; [apply A4|]. rewrite O3 by done. intros Hf Hl. destruct (F4 o f m Hf Hl) as [[y Hy] HO]. split; [destruct (O4 m y Hy) as [y' ->]; by eexists|]. intros m' Hm'. apply HO. by apply (O5 o).
  - intros o m. destruct (decide (o = td)) as [->|Ho]; [apply A5|]. rewrite O3 by done. intros Hf. destruct (F5 o m Hf) as [Hw Hc]. split; [by apply (O5 o)|]. intros y' Hy'. destruct Hw as (y & c & Hy & HH). rewrite (O6 o m y y' Ho) by (try done; by exists y, c). by apply Hc.
  - rewrite O3 by done. split; [done|]. intros m Hm. apply (F7 m). by apply (O5 idle).
Qed.

(** *** What holds of a thread that is in [_mtx_lock] *)

Lemma nest_spec s t n : sched_inv s -> threads s !! curthread s = Some t -> 
  exists s', upd s (curthread s) (set_td_pdnest n) = Ok s' /\ sched_inv s' /\ keys s' = keys s /\ prios s' = prios s /\ nests s' = <[curthread s := n]> (nests s) /\
    curthread s' = curthread s /\ idle_thread s' = idle_thread s /\ threads s' = <[curthread s := set_td_pdnest n t]> (threads s).
Proof.
  intros I Ht. rewrite (upd_some s _ t _ Ht). eexists. split; [done|]. split; [apply (upd_inv s _ t); try done; by destruct (si_prio _ I _ _ Ht)|].
  destruct (views_update s (set_threads (<[curthread s := set_td_pdnest n t]> (threads s)) s) _ _ eq_refl) as (-> & -> & ->).
  split; [exact (insert_id _ _ _ (keys_lookup s _ t Ht))|]. split; [exact (insert_id _ _ _ (prios_lookup s _ t Ht))|]. done.
Qed.

Lemma disable_spec s t : sched_inv s -> threads s !! curthread s = Some t -> td_pdnest t = 0 ->
  exists s', preempt_disable s = Ok s' /\ sched_inv s' /\ keys s' = keys s /\ prios s' = prios s /\ nests s' = <[curthread s := 1]> (nests s) /\
    curthread s' = curthread s /\ idle_thread s' = idle_thread s /\ threads s' = <[curthread s := set_td_pdnest 1 t]> (threads s).
Proof.
  intros I Ht Hn. destruct (nest_spec s t 1 I Ht) as (s' & E & HH). exists s'. split; [|done]. rewrite <- E. unfold preempt_disable, thread_self. rewrite !(upd_some s _ t _ Ht), Hn. done.
Qed.

Lemma enable_spec s t : sched_inv s -> threads s !! curthread s = Some t -> td_pdnest t = 1 ->
  exists s', preempt_enable s = Ok s' /\ sched_inv s' /\ keys s' = keys s /\ prios s' = prios s /\ nests s' = <[curthread s := 0]> (nests s) /\ idle_thread s' = idle_thread s.
Proof.
  intros I Ht Hn. unfold preempt_enable, thread_self. rewrite (thr_some _ _ _ Ht). cbn [mbind outcome_bind]. assert_step lia. destruct (nest_spec s t 0 I Ht) as (s1 & E & I1 & K1 & P1 & N1 & _ & Hi & _).
  rewrite (upd_some s _ t _ Ht) in E. rewrite (upd_some s _ t _ Ht), Hn. injection E as E. cbn [mbind outcome_bind]. change (1 - 1) with 0. rewrite E. destruct (preempt_same s1 I1) as (s' & -> & I' & (V1 & V2 & V3) & Hi').
  exists s'. split_and!; congruence.
Qed.

(** A step of [td] that changes neither the turnstiles nor the priorities *)
Lemma quiet_inv rank k k' td v : locks_inv rank k -> td <> idle_thread (sch k) -> sched_inv (sch k') -> keys (sch k') = keys (sch k) -> prios (sch k') = prios (sch k) ->
  tss k' = tss k -> turnstile_chains k' = turnstile_chains k -> idle_thread (sch k') = idle_thread (sch k) -> keys (sch k) !! td = Some v ->
  mtx_ok (keys (sch k)) (tss k) (mtxs k') ->
  others td (keys (sch k)) (keys (sch k)) (nests (sch k)) (nests (sch k')) (mtxs k) (mtxs k') (frames k) (frames k') ->
  frame_at rank td v (mtxs k') (nests (sch k') !! td) (frames k' !! td) -> locks_inv rank k'.
Proof.
  intros [I S Mo Fr Pi] Hi I' EK EP ET EC Ei Hv Mo' Ot Fa. split; rewrite ?EK, ?EP, ?ET, ?EC, ?Ei; try done. by apply (frames_update rank (keys (sch k)) _ (nests (sch k)) _ (mtxs k) _ (frames k) _ _ td v).
Qed.

Lemma others_frame td K (D : gmap Z Z) M (F : gmap Z frame) (n : Z) (f : frame) : others td K K D (<[td := n]> D) M M F (<[td := f]> F).
Proof. split; try done; try (intros o Ho; by rewrite lookup_insert_ne); eauto. intros o m y y' _ _ H1 H2. congruence. Qed.

(** A mutex whose owner is [td] or nobody *)
Lemma others_mtx td K (D D' : gmap Z Z) M (F F' : gmap Z frame) m (y y' : mtx) : M !! m = Some y -> (forall o, o <> td -> D' !! o = D !! o) -> (forall o, o <> td -> F' !! o = F !! o) ->
  (forall o c, address o -> o <> td -> m_owner y <> owner_word o c /\ m_owner y' <> owner_word o c) -> others td K K D D' M (<[m := y']> M) F F'.
Proof.
  intros Hy HD HF Ho. split; try done; try (by eauto).
  - intros m' z Hz. destruct (decide (m' = m)) as [->|Hne]; [rewrite lookup_insert_eq; eauto|rewrite lookup_insert_ne by done; eauto].
  - intros o m' Hne. rewrite owned_insert. split.
    + intros [[-> (c & E & H0)]|[_ H]]; [by destruct (Ho o c H0 Hne) as [_ []]|done].
    + intros H. right. split; [|done]. intros ->. destruct H as (z & c & Hz & E & H0). assert (z = y) as -> by congruence. by destruct (Ho o c H0 Hne) as [[] _].
  - intros o m' z z' Hne (z0 & c & Hz0 & E & H0) Hz. assert (z0 = z) as -> by congruence. destruct (decide (m' = m)) as [->|Hd]; [|rewrite lookup_insert_ne by done; congruence].
    assert (z = y) as -> by congruence. by destruct (Ho o c H0 Hne) as [[] _].
Qed.

Section self.
Context (rank : Z -> Z) (k : locks).
Hypothesis L : locks_inv rank k.
Let td := curthread (sch k).

Lemma self_key : exists t, threads (sch k) !! td = Some t /\ keys (sch k) !! td = Some (key_of t) /\ kind_of (td_state t) = Runnable /\ td_pdnest t = waited (frames k !! td) /\ address td.
Proof.
  destruct (si_self _ (li_sched _ _ L)) as (t & Ht & _). exists t. pose proof (keys_lookup _ _ _ Ht) as HK. split_and!; try done.
  - by apply (self_runnable (sch k)); [apply L|].
  - apply (fr_nest _ _ _ _ _ _ (li_frames _ _ L) td). by apply nests_lookup.
  - apply (mo_address _ _ _ (li_mtx _ _ L)). by exists (key_of t).
Qed.

Lemma self_busy f : frames k !! td = Some f -> td <> idle_thread (sch k).
Proof. intros Hf E. destruct (fr_idle _ _ _ _ _ _ (li_frames _ _ L)) as [Hn _]. congruence. Qed.

(** The thread gets a frame. *)
Lemma put_frame_inv f : td <> idle_thread (sch k) -> (forall m w, frames k !! td <> Some (Waited m w)) ->
  (forall m, locking f = Some m -> is_Some (mtxs k !! m) /\ forall m', owned (mtxs k) m' td -> rank m' < rank m) ->
  (forall m, f = Releasing m -> owned (mtxs k) m td /\ forall y, mtxs k !! m = Some y -> m_count y = 0) -> (forall m w, f <> Waited m w) ->
  locks_inv rank (put_frame k td f).
Proof.
  intros Hi Hw Hl Hr Hnw. destruct self_key as (t & Ht & HK & Hk & Hn & _). assert (waited (frames k !! td) = 0) as E0 by (destruct (frames k !! td) as [[]|]; try done; by edestruct Hw).
  apply (quiet_inv rank k _ td (key_of t)); try done; try apply L.
  - cbn. rewrite <- (insert_id (nests (sch k)) td (td_pdnest t)) at 2 by (by apply nests_lookup). apply others_frame.
  - cbn [frames put_frame set_frames sch mtxs]. rewrite lookup_insert_eq. split; try (cbn; rewrite Hk; done).
    + intros d Hd. rewrite (nests_lookup _ _ _ Ht) in Hd. injection Hd as <-. rewrite Hn, E0. destruct f; try done. by edestruct Hnw.
    + intros g m [= <-]. apply Hl.
    + intros m [= ->]. by apply Hr.
Qed.

(** The mutex is taken, given up, or counted. *)
Section put.
Context (m : Z) (y y' : mtx) (F' : gmap Z frame).
Hypothesis Hy : mtxs k !! m = Some y.
Hypothesis Ho : m_owner y = 0 \/ m_owner y = td \/ exists c, m_owner y = owner_word td c /\ m_owner y' = m_owner y.
Hypothesis Ho' : m_owner y' = 0 \/ m_owner y' = td \/ m_owner y' = m_owner y.

Lemma put_mtx_ok : 0 <= m_count y' < 2 ^ 32 -> (m_count y' <> 0 -> m_recursive y' = true /\ m_owner y' <> 0) -> mtx_ok (keys (sch k)) (tss k) (<[m := y']> (mtxs k)).
Proof.
  intros Hc1 Hc2. destruct self_key as (t & Ht & HK & Hk & Hn & Ha). pose proof (li_mtx _ _ L) as [M1 M2 M3 M4 M5 M6].
  assert (m_owner y' <> m_owner y -> flag_on (m_owner y) MTX_CONTESTED = false) as Hnc. { intros Hd. destruct Ho as [->|[->|(c & E & E')]]; [done|by apply (owner_word_flag td false)|congruence]. }
  split; try done.
  - intros m' z. destruct (decide (m' = m)) as [->|Hne]; [rewrite lookup_insert_eq; intros [= <-]|rewrite lookup_insert_ne by done; apply M1].
    destruct Ho' as [->|[->| ->]]; [by left| |by apply (M1 m)]. right. exists td, (key_of t), false. cbn. by rewrite Hk.
  - intros q x Hx Hst. destruct (M2 q x Hx Hst) as (z & Hz & E). destruct (decide (ts_wchan x = m)) as [Em|Hne]; [|exists z; by rewrite lookup_insert_ne].
    rewrite Em in *. assert (z = y) as -> by congruence. exists y'. rewrite lookup_insert_eq. split; [done|]. destruct (decide (m_owner y' = m_owner y)) as [->|Hd]; [done|].
    apply Hnc in Hd. rewrite E in Hd. rewrite owner_word_flag in Hd; [done|]. apply M5. by apply (so_used _ _ _ (li_ts _ _ L) q x).
  - intros m' z. destruct (decide (m' = m)) as [->|Hne]; [rewrite lookup_insert_eq; intros [= <-]|rewrite lookup_insert_ne by done; apply M3].
    destruct Ho' as [->|[->| ->]]; [done| |by apply M3]. intros Hfl. pose proof (owner_word_flag td false Ha). cbn in *. congruence.
  - intros m' z. destruct (decide (m' = m)) as [->|Hne]; [rewrite lookup_insert_eq; by intros [= <-]|rewrite lookup_insert_ne by done; apply M4].
  - rewrite lookup_insert_ne; [done|]. intros ->. congruence.
Qed.

Lemma put_mtx_others (D' : gmap Z Z) : (forall o, o <> td -> D' !! o = nests (sch k) !! o) -> (forall o, o <> td -> F' !! o = frames k !! o) ->
  others td (keys (sch k)) (keys (sch k)) (nests (sch k)) D' (mtxs k) (<[m := y']> (mtxs k)) (frames k) F'.
Proof.
  intros HD HF. destruct self_key as (t & _ & _ & _ & _ & Ha). apply (others_mtx td _ _ _ _ _ _ m y y'); try done. intros o c Hao Hne. assert (0 <> owner_word o c) as H1 by (pose proof (owner_word_pos o c Hao); lia).
  assert (forall c', owner_word td c' <> owner_word o c) as H2 by (intros c' E; apply owner_word_inj in E as [? _]; [by apply Hne|done|done]).
  pose proof (H2 false) as H3. cbn in H3. destruct Ho as [E|[E|(c' & E & E')]], Ho' as [E2|[E2|E2]]; rewrite ?E2, ?E; done || (rewrite ?E', ?E; auto).
Qed.

Lemma put_mtx_inv : td <> idle_thread (sch k) -> (forall m w, frames k !! td <> Some (Waited m w)) -> 0 <= m_count y' < 2 ^ 32 -> (m_count y' <> 0 -> m_recursive y' = true /\ m_owner y' <> 0) ->
  (forall o, o <> td -> F' !! o = frames k !! o) -> F' !! td = None -> locks_inv rank (set_frames F' (put_mtx k m y')).
Proof.
  intros Hi Hw Hc1 Hc2 HF Hf. destruct self_key as (t & Ht & HK & Hk & Hn & Ha). assert (waited (frames k !! td) = 0) as E0 by (destruct (frames k !! td) as [[]|]; try done; by edestruct Hw).
  apply (quiet_inv rank k _ td (key_of t)); try done; try apply L; cbn [mtxs set_frames put_mtx set_mtxs sch frames tss].
  - by apply put_mtx_ok.
  - by apply put_mtx_others.
  - rewrite Hf. split; try done; try (cbn; by rewrite Hk). intros d Hd. rewrite (nests_lookup _ _ _ Ht) in Hd. injection Hd as <-. cbn. by rewrite Hn, E0.
Qed.
End put.

Lemma owner_cases m y : mtxs k !! m = Some y ->
  m_owner y = 0 /\ mtx_owner y = 0 \/ exists o v c, keys (sch k) !! o = Some v /\ k_kind v <> Other /\ address o /\ m_owner y = owner_word o c /\ mtx_owner y = o /\ owned (mtxs k) m o.
Proof.
  intros Hy. destruct (mo_owner _ _ _ (li_mtx _ _ L) m y Hy) as [E|(o & v & c & Hv & Hk & E)]; [left; unfold mtx_owner; by rewrite E|right].
  assert (address o) as Ha by (apply (mo_address _ _ _ (li_mtx _ _ L)); by exists v). exists o, v, c. split_and!; try done; [|by exists y, c]. destruct y as [rc n w]. cbn in E. subst w. by apply owner_word_owner.
Qed.

Lemma mtx_owned_spec m y : mtxs k !! m = Some y -> mtx_owned k y = true <-> owned (mtxs k) m td.
Proof.
  intros Hy. destruct self_key as (t & _ & _ & _ & _ & Ha). unfold mtx_owned, thread_self. fold td. rewrite Z.eqb_eq. destruct (owner_cases m y Hy) as [[E0 ->]|(o & v & c & _ & _ & Hao & E & -> & Ho)].
  - split; [intros E; destruct Ha as [Ha _]; lia|]. intros (y' & c & Hy' & E & _). assert (y' = y) as -> by congruence. pose proof (owner_word_pos td c Ha). lia.
  - split; [by intros <-|]. intros (y' & c' & Hy' & E' & _). assert (y' = y) as -> by congruence. rewrite E in E'. by apply owner_word_inj in E' as [? _].
Qed.

Lemma mtx_lock_spec m w y : frames k !! td = None -> td <> idle_thread (sch k) -> mtxs k !! m = Some y ->
  (owned (mtxs k) m td -> m_recursive y = true /\ m_count y < 2 ^ 32 - 1) -> (~ owned (mtxs k) m td -> forall m', owned (mtxs k) m' td -> rank m' < rank m) ->
  exists k', mtx_lock k m w = Ok k' /\ locks_inv rank k'.
Proof.
  intros Hf Hi Hy Hr Ho. unfold mtx_lock, get_mtx. rewrite Hy. cbn [mbind outcome_bind]. pose proof (mtx_owned_spec m y Hy) as Hs. destruct (mtx_owned k y).
  - pose proof (proj1 Hs eq_refl) as Hw. destruct (Hr Hw) as [-> Hc]. cbn [negb]. eexists. split; [done|]. destruct (mo_count _ _ _ (li_mtx _ _ L) m y Hy) as [Hc0 _].
    rewrite (uwrap_small 32) by lia. destruct Hw as (y' & c & Hy' & E & Ha). assert (y' = y) as -> by congruence.
    apply (put_mtx_inv m y _ (frames k)); try done; try (by intros ? ?; rewrite Hf); cbn; try lia; eauto. intros _. split; [done|]. rewrite E. pose proof (owner_word_pos td c Ha). lia.
  - eexists. split; [done|]. apply put_frame_inv; try done; [by intros ? ?; rewrite Hf|]. intros m' [= <-]. split; [by eexists|]. apply Ho. intros Hw. by apply Hs in Hw.
Qed.

Lemma mtx_try_spec m w : frames k !! td = Some (Trying m w) -> exists k', mtx_try k m w = Ok k' /\ locks_inv rank k'.
Proof.
  intros Hf. pose proof (self_busy _ Hf) as Hi. destruct (fr_order _ _ _ _ _ _ (li_frames _ _ L) _ _ m Hf eq_refl) as [[y Hy] Ho]. unfold mtx_try, get_mtx. rewrite Hy. cbn [mbind outcome_bind].
  destruct (Z.eqb_spec (m_owner y) 0) as [E|E]; (eexists; split; [done|]).
  - destruct (mo_count _ _ _ (li_mtx _ _ L) m y Hy) as [Hc0 Hc]. apply (put_mtx_inv m y (Mtx (m_recursive y) (m_count y) td) (delete td (frames k))); try done; cbn; auto.
    + intros ? ?. by rewrite Hf.
    + intros Hc1. by destruct (Hc Hc1) as [_ []].
    + intros o Hne. by rewrite lookup_delete_ne.
    + by rewrite lookup_delete_eq.
  - apply put_frame_inv; try done; [intros ? ?; by rewrite Hf|]. intros m' [= <-]. split; [by exists y|done].
Qed.

Lemma mtx_resume_spec m w : frames k !! td = Some (Waited m w) -> exists k', mtx_resume k m w = Ok k' /\ locks_inv rank k'.
Proof.
  intros Hf. pose proof (self_busy _ Hf) as Hi. destruct self_key as (t & Ht & HK & Hk & Hn & Ha). rewrite Hf in Hn. pose proof (fr_order _ _ _ _ _ _ (li_frames _ _ L) _ _ m Hf eq_refl) as Ho.
  unfold mtx_resume, on_sch. cbn [sch put_frame set_frames]. destruct (enable_spec _ t (li_sched _ _ L) Ht Hn) as (s' & -> & I' & K' & P' & N' & Hi'). cbn [mbind outcome_bind]. eexists. split; [done|].
  apply (quiet_inv rank k _ td (key_of t)); try done; try apply L; cbn [mtxs set_sch put_frame set_frames sch frames].
  - rewrite N'. apply others_frame.
  - unfold thread_self. fold td. rewrite N', !lookup_insert_eq. split; try (cbn; by rewrite Hk); try done; [by intros d [= <-]|]. intros g m' [= <-] [= <-]. done.
Qed.

Lemma mtx_unlock_spec m : frames k !! td = None -> td <> idle_thread (sch k) -> owned (mtxs k) m td -> exists k', mtx_unlock k m = Ok k' /\ locks_inv rank k'.
Proof.
  intros Hf Hi Hw. pose proof Hw as (y & c & Hy & E & Ha). unfold mtx_unlock, get_mtx. rewrite Hy. cbn [mbind outcome_bind]. rewrite (proj2 (mtx_owned_spec m y Hy) Hw). cbn [assert mbind outcome_bind].
  destruct (mo_count _ _ _ (li_mtx _ _ L) m y Hy) as [Hc0 Hc]. assert (forall m w, frames k !! td <> Some (Waited m w)) as Hnw by (intros ? ?; by rewrite Hf).
  destruct (Z.ltb_spec 0 (m_count y)) as [Hp|Hp].
  - destruct (Hc ltac:(lia)) as [-> H0]. cbn [assert mbind outcome_bind]. eexists. split; [done|]. apply (put_mtx_inv m y _ (frames k)); try done; cbn; try lia; eauto.
  - unfold thread_self. fold td. destruct (Z.eqb_spec (m_owner y) td) as [E0|E0]; (eexists; split; [done|]).
    + apply (put_mtx_inv m y _ (frames k)); try done; cbn; try lia; auto.
    + apply put_frame_inv; try done. intros m' [= <-]. split; [done|]. intros y' Hy'. assert (y' = y) as -> by congruence. lia.
Qed.
End self.

(** *** A thread blocks *)

(** The threads that can own a mutex are the same. *)
Definition same_owners K K' : Prop :=
  (forall td, is_Some (K' !! td) -> is_Some (K !! td)) /\ (forall td v, K !! td = Some v -> k_kind v <> Other -> exists v', K' !! td = Some v' /\ k_kind v' <> Other).

Lemma same_owners_insert K td v v' : K !! td = Some v -> k_kind v' <> Other -> same_owners K (<[td := v']> K).
Proof.
  intros Hv Hk. split; intros o; destruct (decide (o = td)) as [->|Hne]; rewrite ?lookup_insert_eq, ?lookup_insert_ne by done; eauto.
Qed.

Lemma same_owners_trans K K1 K2 : same_owners K K1 -> same_owners K1 K2 -> same_owners K K2.
Proof. intros [A1 A2] [B1 B2]. split; [auto|]. intros td v Hv Hk. destruct (A2 td v Hv Hk) as (v1 & H1 & Hk1). by apply (B2 td v1). Qed.

Lemma mtx_first K K' T M m q o (l : list Z) y : mtx_ok K T M -> same_owners K K' -> T !! q = Some turnstile_ctor -> M !! m = Some y -> is_Some (K !! o) ->
  (forall q, ~ holds K T q (OfMutex m)) -> m_owner y = owner_word o false ->
  mtx_ok K' (<[q := Turnstile [] l m o USED_BLOCKED]> T) (<[m := Mtx (m_recursive y) (m_count y) (owner_word o true)]> M).
Proof.
  intros [M1 M2 M3 M4 M5 M6] [O1 O2] Hq Hy Ho Hno E. pose proof (M5 o Ho) as Ha. split.
  - intros m' z. destruct (decide (m' = m)) as [->|Hne]; [rewrite lookup_insert_eq; intros [= <-]|rewrite lookup_insert_ne by done; intros Hz].
    + right. destruct (M1 m y Hy) as [E0|(o' & v & c & Hv & Hk & E')]; [pose proof (owner_word_pos o false Ha) as Hpos; rewrite <- E in Hpos; lia|]. rewrite E in E'. apply owner_word_inj in E' as [<- _]; [|done|apply M5; by exists v].
      destruct (O2 o v Hv Hk) as (v' & Hv' & Hk'). by exists o, v', true.
    + destruct (M1 m' z Hz) as [E0|(o' & v & c & Hv & Hk & E')]; [by left|right]. destruct (O2 o' v Hv Hk) as (v' & Hv' & Hk'). by exists o', v', c.
  - intros q' x. destruct (decide (q' = q)) as [->|Hne]; [rewrite lookup_insert_eq; intros [= <-] _; cbn; rewrite lookup_insert_eq; eauto|rewrite lookup_insert_ne by done; intros Hx Hst].
    rewrite lookup_insert_ne; [by apply (M2 q')|]. intros Em. apply (Hno q'). by exists x.
  - intros m' z. destruct (decide (m' = m)) as [->|Hne]; [rewrite lookup_insert_eq; intros [= <-] _; exists q; rewrite lookup_insert_eq; eauto|rewrite lookup_insert_ne by done; intros Hz Hf].
    destruct (M3 m' z Hz Hf) as (q' & x & Hx & Hst & Em). exists q', x. rewrite lookup_insert_ne; [done|]. intros <-. rewrite Hq in Hx. injection Hx as <-. done.
  - intros m' z. destruct (decide (m' = m)) as [->|Hne]; [rewrite lookup_insert_eq; intros [= <-]|rewrite lookup_insert_ne by done; apply M4].
    destruct (M4 m y Hy) as [H1 H2]. split; [done|]. intros Hc. destruct (H2 Hc) as [? _]. split; [done|]. by apply Z.neq_sym, Z.lt_neq, (owner_word_pos o true).
  - intros td Htd. by apply M5, O1.
  - rewrite lookup_insert_ne; [done|]. intros ->. congruence.
Qed.

Lemma mtx_next K K' T M p q x (free l : list Z) : mtx_ok K T M -> same_owners K K' -> T !! q = Some turnstile_ctor -> T !! p = Some x -> ts_state x = USED_BLOCKED ->
  mtx_ok K' (<[p := Turnstile free l (ts_wchan x) (ts_owner x) USED_BLOCKED]> (<[q := ts_lent]> T)) M.
Proof.
  intros [M1 M2 M3 M4 M5 M6] [O1 O2] Hq Hp Hst. split; try done.
  - intros m y Hy. destruct (M1 m y Hy) as [E0|(o' & v & c & Hv & Hk & E')]; [by left|right]. destruct (O2 o' v Hv Hk) as (v' & Hv' & Hk'). by exists o', v', c.
  - intros q' x'. destruct (decide (q' = p)) as [->|Hne]; [rewrite lookup_insert_eq; intros [= <-] _; exact (M2 p x Hp Hst)|rewrite lookup_insert_ne by done].
    destruct (decide (q' = q)) as [->|Hne']; [rewrite lookup_insert_eq; by intros [= <-]|rewrite lookup_insert_ne by done]. apply M2.
  - intros m y Hy Hf. destruct (M3 m y Hy Hf) as (q' & x' & Hx' & Hst' & Em). destruct (decide (q' = p)) as [->|Hne]; [exists p; rewrite lookup_insert_eq; eexists; split; [done|]; split; [done|]; cbn; congruence|].
    exists q', x'. rewrite lookup_insert_ne by done. rewrite lookup_insert_ne; [done|]. intros <-. rewrite Hq in Hx'. injection Hx' as <-. done.
  - intros td Htd. by apply M5, O1.
Qed.

Section blocking.
Context (rank : Z -> Z) (k : locks) (m w : Z) (t : thread) (y : mtx) (s1 : sched).
Hypothesis L : locks_inv rank k.
Let td := curthread (sch k).
Let t1 := set_td_pdnest 1 t.
Hypothesis Hf : frames k !! td = Some (Failed m w).
Hypothesis Ht : threads (sch k) !! td = Some t.
Hypothesis Hrun : kind_of (td_state t) = Runnable.
Hypothesis Hy : mtxs k !! m = Some y.
Hypothesis Hord : forall m', owned (mtxs k) m' td -> rank m' < rank m.
Hypothesis Hc1 : curthread s1 = td.
Hypothesis I1 : sched_inv s1.
Hypothesis Hi1 : idle_thread s1 = idle_thread (sch k).
Hypothesis Hth1 : threads s1 = <[td := t1]> (threads (sch k)).
Hypothesis HK1 : keys s1 = keys (sch k).
Hypothesis HP1 : prios s1 = prios (sch k).
Hypothesis HN1 : nests s1 = <[td := 1]> (nests (sch k)).
Let k1 := set_sch s1 k.
Let K := keys (sch k).
Let q0 := td_turnstile t.

Lemma blocking_self : threads s1 !! td = Some t1 /\ preempt_disabled s1 = Ok true /\ tss k !! q0 = Some turnstile_ctor /\ q0 <> 0 /\ holds K (tss k) q0 (OfThread td) /\ m <> 0.
Proof.
  assert (threads s1 !! td = Some t1) as Ht1 by (rewrite Hth1; apply lookup_insert_eq). assert (k_kind (key_of t) <> Blocked) as Hb by (cbn; by rewrite Hrun).
  destruct (own_ts _ _ _ (li_ts _ _ L) td (key_of t) (keys_lookup _ _ _ Ht) Hb) as (E1 & E2 & _). split_and!; try done.
  - unfold preempt_disabled, thread_self. rewrite Hc1, (thr_some _ _ _ Ht1). done.
  - exists (key_of t). split_and!; try done. by apply keys_lookup.
  - intros E. rewrite E, (mo_null _ _ _ (li_mtx _ _ L)) in Hy. done.
Qed.

Lemma turnstile_take_spec : (exists q, holds K (tss k) q (OfMutex m) /\ turnstile_take k1 m = Ok (q, k1)) \/
  ((forall q, ~ holds K (tss k) q (OfMutex m)) /\ turnstile_take k1 m = Ok (q0, put_ts k1 q0 (set_wchan m turnstile_ctor))).
Proof.
  destruct blocking_self as (Ht1 & Epd & Eq0 & Hq0 & _). unfold turnstile_take, k1. cbn [sch set_sch]. rewrite Epd. cbn [assert mbind outcome_bind]. unfold turnstile_lookup, get_ts. cbn [sch set_sch tss turnstile_chains].
  destruct (tc_chain_get _ _ _ (li_ts _ _ L) m) as (l & -> & Hl). cbn [mbind outcome_bind]. destruct (tc_chain_lookup _ _ _ (li_ts _ _ L) m l Hl) as [(q & Ho & ->)|[Hno ->]]; cbn [mbind outcome_bind]; [left; by exists q|right].
  split; [done|]. unfold thread_self. rewrite Hc1, (thr_some _ _ _ Ht1). cbn [mbind outcome_bind]. change (td_turnstile t1) with q0. rewrite (proj2 (Z.eqb_neq _ _) Hq0). cbn [negb assert mbind outcome_bind]. by rewrite Eq0.
Qed.

Lemma frames_block (K' : keymap) (s : sched) M' v : K' !! td = Some v -> v = Key Blocked (k_blocked v) 0 (k_contested v) m -> nests s = <[td := 1]> (nests (sch k)) ->
  (forall o, o <> td -> (fun v => (k_kind v, k_wchan v)) <$> K' !! o = (fun v => (k_kind v, k_wchan v)) <$> K !! o) -> (forall m' z, mtxs k !! m' = Some z -> exists z', M' !! m' = Some z' /\ m_count z' = m_count z) -> (forall o m', owned M' m' o <-> owned (mtxs k) m' o) ->
  frames_ok rank K' (nests s) M' (<[td := Waited m w]> (frames k)) (idle_thread (sch k)).
Proof.
  intros Hv Ev HN HK HM HO. apply (frames_update rank K _ (nests (sch k)) _ (mtxs k) _ (frames k) _ _ td v); try apply L; try done.
  - by apply (self_busy rank k L (Failed m w)).
  - split; try done.
    + intros o u Ho Hu Hk. pose proof (HK o Ho) as E. rewrite Hu in E. symmetry in E. apply fmap_Some in E as (u0 & -> & E). injection E as E1 E2. exists u0. split_and!; congruence.
    + intros o u0 Ho Hu Hk. pose proof (HK o Ho) as E. rewrite Hu in E. apply fmap_Some in E as (u & -> & E). injection E as E1 E2. exists u. split; congruence.
    + intros o Ho. by rewrite HN, lookup_insert_ne.
    + intros o Ho. by rewrite lookup_insert_ne.
    + intros m' z Hz. destruct (HM m' z Hz) as (z' & Hz' & _). eauto.
    + intros o m' z z' _ _ Hz Hz'. destruct (HM m' z Hz) as (z1 & Hz1 & E). congruence.
  - rewrite HN, !lookup_insert_eq, Ev. split; try done; [by intros d [= <-]|by exists w|]. intros g m' [= <-] [= <-]. destruct (HM m y Hy) as (z' & Hz' & _). split; [by exists z'|]. intros m' Hm'. by apply Hord, HO.
Qed.

(** The mutex is owned and nobody waits for it. *)
Section nobody.
Context (o : Z) (t_o : thread) (l : list Z).
Hypothesis Hno : forall q, ~ holds K (tss k) q (OfMutex m).
Hypothesis Hto : threads s1 !! o = Some t_o.
Hypothesis Hko : kind_of (td_state t_o) <> Other.
Hypothesis Hao : address o.
Hypothesis Eo : m_owner y = owner_word o false.
Hypothesis Hot : o <> td.
Hypothesis Hl : turnstile_chains k !! Z.to_nat (TC_HASH m) = Some l.

Let s2 := set_threads (<[o := set_td_contested (q0 :: td_contested t_o) t_o]> (threads s1)) s1.
Let x0 := Turnstile [] [td] m o USED_BLOCKED.
Let M' := <[m := Mtx (m_recursive y) (m_count y) (owner_word o true)]> (mtxs k).
Let k3 := Locks s2 (<[q0 := x0]> (tss k)) (<[Z.to_nat (TC_HASH m) := q0 :: l]> (turnstile_chains k)) M' (<[td := Waited m w]> (frames k)).

Lemma first_run : turnstile_wait (put_frame (put_mtx (put_ts k1 q0 (set_wchan m turnstile_ctor)) m (Mtx (m_recursive y) (m_count y) (owner_word o true))) td (Waited m w)) q0 o w = switch_away k3 q0 w.
Proof.
  destruct blocking_self as (Ht1 & Epd & Eq0 & Hq0 & Hh0 & Hm0). pose proof (tc_hash_range m) as Hh. pose proof (lookup_lt_Some _ _ _ Hl) as Hlen.
  set (k2 := put_frame _ td _). assert (get_ts k2 q0 = Ok (set_wchan m turnstile_ctor)) as Eg by (apply get_ts_some, lookup_insert_eq).
  unfold turnstile_wait, thread_self. change (sch k2) with s1. rewrite Epd, Hc1, (thr_some _ _ _ Ht1), Eg. cbn [assert mbind outcome_bind]. change (td_turnstile t1) with q0. rewrite Z.eqb_refl.
  cbn [negb assert mbind outcome_bind ts_blocked ts_free ts_owner ts_wchan ts_state set_wchan turnstile_ctor empty is_state]. rewrite (proj2 (Z.eqb_neq m 0) Hm0), Z.eqb_refl. cbn [negb assert mbind outcome_bind].
  unfold is_state. rewrite bool_decide_true by done. unfold upd_td, on_sch. change (sch k2) with s1. rewrite (upd_some s1 o t_o _ Hto). cbn [assert mbind outcome_bind]. cbn [turnstile_chains set_sch]. change (turnstile_chains k2) with (turnstile_chains k).
  rewrite (proj2 (arr_get_ok _ _ _) (conj (proj1 Hh) Hl)). cbn [mbind outcome_bind]. rewrite arr_set_ok by lia. cbn [mbind outcome_bind app]. f_equal. unfold k3, k2, put_ts, set_chains, set_sch. cbn. f_equal. by rewrite insert_insert_eq.
Qed.

Lemma first_views : keys s2 = <[o := Key (kind_of (td_state t_o)) (td_blocked t_o) (td_turnstile t_o) (q0 :: td_contested t_o) (td_wchan t_o)]> K /\ prios s2 = prios (sch k) /\ nests s2 = <[td := 1]> (nests (sch k)) /\
  keys (sch k) !! o = Some (key_of t_o) /\ threads s2 !! td = Some t1 /\ sched_inv s2.
Proof.
  destruct blocking_self as (Ht1 & _). destruct (views_update s1 s2 o _ eq_refl) as (V1 & V2 & V3). rewrite V1, V2, V3, HK1. split; [done|]. split.
  { rewrite <- HP1. exact (insert_id _ _ _ (prios_lookup s1 o t_o Hto)). }
  split; [rewrite <- HN1; exact (insert_id _ _ _ (nests_lookup s1 o t_o Hto))|]. split; [rewrite <- HK1; by apply keys_lookup|]. split; [unfold s2; cbn; by rewrite lookup_insert_ne|].
  apply (upd_inv s1 o t_o); try done. by destruct (si_prio _ I1 _ _ Hto).
Qed.

Lemma first_owned o' m' : owned M' m' o' <-> owned (mtxs k) m' o'.
Proof.
  unfold M'. rewrite owned_insert. cbn [m_owner]. split.
  - intros [[-> (c & E & Ha)]|[_ H]]; [|done]. apply owner_word_inj in E as [<- _]; [|done|done]. by exists y, false.
  - intros H. destruct (decide (m' = m)) as [->|Hne]; [left|by right]. split; [done|]. destruct H as (y' & c & Hy' & E & Ha). assert (y' = y) as -> by congruence. rewrite Eo in E. apply owner_word_inj in E as [-> _]; [|done|done]. by exists true.
Qed.

Lemma first_spec : exists k', switch_away k3 q0 w = Ok k' /\ locks_inv rank k'.
Proof.
  destruct blocking_self as (Ht1 & Epd & Eq0 & Hq0 & Hh0 & Hm0). destruct first_views as (V1 & V2 & V3 & Hvo & Ht2 & I2).
  assert (td <> idle_thread (sch k)) as Hi by (by apply (self_busy rank k L (Failed m w))). set (v' := Key Blocked q0 0 (td_contested t) m).
  assert (<[curthread (sch k3) := Key Blocked q0 0 (td_contested t1) (ts_wchan x0)]> (keys (sch k3)) = <[td := v']> (<[o := Key (k_kind (key_of t_o)) (k_blocked (key_of t_o)) (k_ts (key_of t_o)) (q0 :: k_contested (key_of t_o)) (k_wchan (key_of t_o))]> K)) as EK.
  { cbn [sch k3]. unfold s2 at 1. cbn [curthread set_threads]. rewrite Hc1, V1. done. }
  pose proof (li_prio _ _ L) as [Pb Ps Pl]. destruct (switch_away_spec rank k3 q0 x0 t1 w) as (k' & E & L' & _); rewrite ?EK; try done; cbn [sch tss turnstile_chains mtxs frames k3]; rewrite ?V2; try done.
  - change (curthread s2) with (curthread s1). by rewrite Hc1.
  - change (curthread s1 <> idle_thread s1). by rewrite Hc1, Hi1.
  - apply lookup_insert_eq.
  - by apply (first_ok _ _ _ (li_ts _ _ L) td o m (key_of t) v' (key_of t_o) l (keys_lookup _ _ _ Ht)); [cbn; by rewrite Hrun|..].
  - apply (mtx_first K); try done; try apply L; try (by exists (key_of t_o)). apply (same_owners_trans _ (<[o := Key (kind_of (td_state t_o)) (td_blocked t_o) (td_turnstile t_o) (q0 :: td_contested t_o) (td_wchan t_o)]> K)); [by apply (same_owners_insert _ _ (key_of t_o))|].
    apply (same_owners_insert _ _ (key_of t)); [|done]. rewrite lookup_insert_ne by done. by apply keys_lookup.
  - change (idle_thread s2) with (idle_thread s1). rewrite Hi1. apply (frames_block _ s2 M' v'); try done; [apply lookup_insert_eq| | |exact first_owned].
    + intros o' Ho'. rewrite lookup_insert_ne by done. destruct (decide (o' = o)) as [->|Hne]; [rewrite lookup_insert_eq; unfold K; by rewrite Hvo|by rewrite lookup_insert_ne].
    + intros m' z Hz. unfold M'. destruct (decide (m' = m)) as [->|Hne]; [rewrite lookup_insert_eq; eexists; split; [done|]; cbn; congruence|rewrite lookup_insert_ne by done; by exists z].
  - intros q x. destruct (decide (q = q0)) as [->|Hne]; [rewrite lookup_insert_eq; intros [= <-] _; repeat constructor|rewrite lookup_insert_ne by done; apply Ps].
  - intros q x b. destruct (decide (q = q0)) as [->|Hne]; [rewrite lookup_insert_eq; intros [= <-] _ Hb|rewrite lookup_insert_ne by done; intros ? ? ?; left; by apply (Pl q)].
    right. split; [done|]. apply list_elem_of_singleton in Hb as ->. unfold pr. rewrite (prios_lookup _ _ _ Ht). cbn. lia.
  - by exists k'.
Qed.
End nobody.

(** Other threads wait for the mutex. *)
Section somebody.
Context (q : Z) (x : turnstile).
Hypothesis Hx : tss k !! q = Some x.
Hypothesis Hst : ts_state x = USED_BLOCKED.
Hypothesis Hwm : ts_wchan x = m.

Let s2 := set_threads (<[td := set_td_turnstile 0 t1]> (threads s1)) s1.
Let k3 (l : list Z) := Locks s2 (<[q := Turnstile (q0 :: ts_free x) l m (ts_owner x) USED_BLOCKED]> (<[q0 := ts_lent]> (tss k))) (turnstile_chains k) (mtxs k) (<[td := Waited m w]> (frames k)).

Lemma next_self : td ∉ ts_blocked x /\ q <> q0 /\ forall b, b ∈ ts_blocked x -> is_Some (threads s1 !! b).
Proof.
  destruct blocking_self as (Ht1 & Epd & Eq0 & Hq0 & Hh0 & Hm0). assert (k_kind (key_of t) <> Blocked) as Hb by (cbn; by rewrite Hrun). destruct (own_ts _ _ _ (li_ts _ _ L) td (key_of t) (keys_lookup _ _ _ Ht) Hb) as (_ & _ & E0). split_and!.
  - intros H. apply (so_blocked _ _ _ (li_ts _ _ L) q x td Hx Hst) in H as (v & Hv & Eb). rewrite (keys_lookup _ _ _ Ht) in Hv. injection Hv as <-. rewrite E0 in Eb. rewrite <- Eb, (so_null _ _ _ (li_ts _ _ L)) in Hx. done.
  - intros ->. rewrite Eq0 in Hx. injection Hx as <-. done.
  - intros b H. apply (so_blocked _ _ _ (li_ts _ _ L) q x b Hx Hst) in H as (v & Hv & _). rewrite <- HK1 in Hv. apply keys_inv in Hv as (tb & -> & _). by eexists.
Qed.

Lemma next_run : exists l, l ≡ₚ td :: ts_blocked x /\ sorted (prios (sch k)) l /\ turnstile_wait (put_frame k1 td (Waited m w)) q (ts_owner x) w = switch_away (k3 l) q w.
Proof.
  destruct blocking_self as (Ht1 & Epd & Eq0 & Hq0 & Hh0 & Hm0). destruct next_self as (Hnb & Hqq & Hthr). set (k2 := put_frame k1 td _). set (k4 := put_ts k2 q (set_blocked (td :: ts_blocked x) x)).
  destruct (forward_spec k4 q td (set_blocked (td :: ts_blocked x) x)) as (l & El & Hl & Hs); try done; [apply lookup_insert_eq|by left| | |].
  { intros b Hb. change (is_Some (threads s1 !! b)). apply elem_of_cons in Hb as [->|Hb]; [by exists t1|by apply Hthr]. }
  { intros a b E. cbn in E. destruct a as [|z a]; cbn in E; [injection E as E1; subst b|injection E as E1 E2; exfalso; apply Hnb; rewrite E2; set_solver]. split; [|by intros z Hz%not_elem_of_nil].
    change (sorted (prios s1) (ts_blocked x)). rewrite HP1. by apply (pi_sorted _ _ (li_prio _ _ L) q). }
  exists l. split; [done|]. split; [rewrite <- HP1; exact Hs|]. unfold turnstile_wait, thread_self. change (sch k2) with s1. rewrite Epd, Hc1, (thr_some _ _ _ Ht1), (get_ts_some k2 q x Hx). cbn [assert mbind outcome_bind]. change (td_turnstile t1) with q0.
  rewrite (proj2 (Z.eqb_neq _ _) Hqq). cbn [negb]. unfold is_state. rewrite bool_decide_true by done. cbn [assert mbind outcome_bind]. fold k4. rewrite El. cbn [mbind outcome_bind]. unfold upd_td, on_sch. set (k5 := put_ts k4 q _). change (sch k5) with s1.
  rewrite (upd_some s1 td t1 _ Ht1), Z.eqb_refl, (proj2 (Z.eqb_neq _ _) Hq0). fold s2. cbn [negb assert mbind outcome_bind]. assert (tss k5 !! q0 = Some turnstile_ctor) as E5 by (unfold k5, k4; cbn; by rewrite !lookup_insert_ne).
  rewrite (get_ts_some (set_sch s2 k5) q0 _ E5). cbn [mbind outcome_bind]. rewrite bool_decide_true by done. cbn [assert mbind outcome_bind].
  assert (tss (put_ts (set_sch s2 k5) q0 ts_lent) !! q = Some (set_blocked l x)) as E6 by (cbn; rewrite lookup_insert_ne by done; apply lookup_insert_eq). change (set_state FREE_BLOCKED turnstile_ctor) with ts_lent.
  rewrite (get_ts_some _ q _ E6). cbn [mbind outcome_bind]. f_equal. unfold k3, k5, k4, k2, put_ts, set_free, set_blocked. cbn. rewrite Hst, Hwm, insert_insert_eq. f_equal. rewrite (insert_insert_ne _ q0 q) by done. by rewrite insert_insert_eq.
Qed.

Lemma next_spec (l : list Z) : l ≡ₚ td :: ts_blocked x -> sorted (prios (sch k)) l -> exists k', switch_away (k3 l) q w = Ok k' /\ locks_inv rank k'.
Proof.
  intros Hl Hs. destruct blocking_self as (Ht1 & Epd & Eq0 & Hq0 & Hh0 & Hm0). assert (td <> idle_thread (sch k)) as Hi by (by apply (self_busy rank k L (Failed m w))). set (v' := Key Blocked q 0 (td_contested t) m).
  destruct (views_update s1 s2 td _ eq_refl) as (V1 & V2 & V3). set (t2 := set_td_turnstile 0 t1) in *. set (x' := Turnstile (q0 :: ts_free x) l m (ts_owner x) USED_BLOCKED).
  assert (prios s2 = prios (sch k)) as V2' by (rewrite V2, <- HP1; exact (insert_id _ _ _ (prios_lookup s1 td t1 Ht1))). assert (nests s2 = <[td := 1]> (nests (sch k))) as V3' by (rewrite V3, HN1; by rewrite insert_insert_eq).
  assert (<[curthread (sch (k3 l)) := Key Blocked q 0 (td_contested t2) (ts_wchan x')]> (keys (sch (k3 l))) = <[td := v']> K) as EK.
  { cbn [sch k3]. change (curthread s2) with (curthread s1). rewrite Hc1, V1, HK1. by rewrite insert_insert_eq. }
  pose proof (li_prio _ _ L) as [Pb Ps Pl]. destruct (switch_away_spec rank (k3 l) q x' t2 w) as (k' & E & L' & _); rewrite ?EK; try done; cbn [sch tss turnstile_chains mtxs frames k3]; rewrite ?V2'; try done.
  - apply (upd_inv s1 td t1); try done. by destruct (si_prio _ I1 _ _ Ht1).
  - change (threads s2 !! curthread s1 = Some t2). rewrite Hc1. apply lookup_insert_eq.
  - change (curthread s1 <> idle_thread s1). by rewrite Hc1, Hi1.
  - apply lookup_insert_eq.
  - unfold x'. rewrite <- Hwm. apply (next_ok _ _ _ (li_ts _ _ L) td q (key_of t) v' x l (keys_lookup _ _ _ Ht)); try done; cbn; by rewrite Hrun.
  - unfold x'. rewrite <- Hwm. apply (mtx_next K); try done; [apply L|]. by apply (same_owners_insert _ _ (key_of t)); [apply keys_lookup|].
  - change (idle_thread s2) with (idle_thread s1). rewrite Hi1. apply (frames_block _ s2 (mtxs k) v'); try done; [apply lookup_insert_eq| |eauto]. intros o Ho. by rewrite lookup_insert_ne.
  - intros q' z. destruct (decide (q' = q)) as [->|Hne]; [rewrite lookup_insert_eq; by intros [= <-] _|rewrite lookup_insert_ne by done].
    destruct (decide (q' = q0)) as [->|Hne']; [rewrite lookup_insert_eq; by intros [= <-]|rewrite lookup_insert_ne by done; apply Ps].
  - intros q' z b. destruct (decide (q' = q)) as [->|Hne]; [rewrite lookup_insert_eq; intros [= <-] _ Hb|rewrite lookup_insert_ne by done].
    + cbn [ts_blocked x'] in Hb. rewrite Hl in Hb. apply elem_of_cons in Hb as [->|Hb]; [right|left; by apply (Pl q x)]. split; [done|]. unfold pr. rewrite (prios_lookup _ _ _ Ht). cbn. lia.
    + destruct (decide (q' = q0)) as [->|Hne']; [rewrite lookup_insert_eq; by intros [= <-]|rewrite lookup_insert_ne by done]. intros ? ? ?. left. by apply (Pl q').
  - by exists k'.
Qed.
End somebody.

(** The mutex was released meanwhile. *)
Lemma give_spec : exists k', (k2 ← turnstile_give (put_ts k1 q0 (set_wchan m turnstile_ctor)) q0; on_sch (put_frame k2 td (Trying m w)) preempt_enable) = Ok k' /\ locks_inv rank k'.
Proof.
  destruct blocking_self as (Ht1 & Epd & Eq0 & Hq0 & Hh0 & Hm0). unfold turnstile_give, thread_self. change (sch (put_ts _ _ _)) with s1. rewrite Epd, Hc1, (thr_some _ _ _ Ht1). cbn [assert mbind outcome_bind].
  change (td_turnstile t1) with q0. rewrite Z.eqb_refl, (get_ts_some _ q0 (set_wchan m turnstile_ctor)) by apply lookup_insert_eq. cbn [mbind outcome_bind].
  set (k2 := put_ts _ q0 _). assert (k2 = k1) as ->.
  { unfold k2, put_ts, set_tss. cbn. rewrite insert_insert_eq. change (set_wchan 0 (set_wchan m turnstile_ctor)) with turnstile_ctor. rewrite insert_id by done. done. }
  unfold on_sch. change (sch (put_frame k1 td _)) with s1. destruct (enable_spec s1 t1 I1) as (s' & -> & I' & K' & P' & N' & Hi'); [by rewrite Hc1|done|]. cbn [mbind outcome_bind]. eexists. split; [done|]. rewrite Hc1 in N'.
  assert (nests s' = <[td := 0]> (nests (sch k))) as N2 by (rewrite N', HN1; by rewrite insert_insert_eq).
  apply (quiet_inv rank k _ td (key_of t)); try apply L; cbn [mtxs set_sch put_frame set_frames sch frames tss turnstile_chains k1]; try congruence.
  - by apply (self_busy rank k L (Failed m w)).
  - by apply keys_lookup.
  - rewrite N2. apply others_frame.
  - rewrite N2, !lookup_insert_eq. split; try (cbn; by rewrite Hrun); try done; [by intros d [= <-]|]. intros g m' [= <-] [= <-]. split; [by exists y|done].
Qed.
End blocking.

Lemma mtx_block_spec rank k m w : locks_inv rank k -> frames k !! curthread (sch k) = Some (Failed m w) -> exists k', mtx_block k m w = Ok k' /\ locks_inv rank k'.
Proof.
  intros L Hf. set (td := curthread (sch k)) in *. destruct (self_key rank k L) as (t & Ht & HK & Hrun & Hn & Ha). fold td in Ht, HK, Hn, Ha. rewrite Hf in Hn. destruct (fr_order _ _ _ _ _ _ (li_frames _ _ L) _ _ m Hf eq_refl) as [[y Hy] Hord].
  unfold mtx_block, on_sch. destruct (disable_spec _ t (li_sched _ _ L) Ht Hn) as (s1 & -> & I1 & HK1 & HP1 & HN1 & Hc1 & Hi1 & Hth1). cbn [mbind outcome_bind]. fold td in HN1, Hc1, Hth1. unfold thread_self. fold td.
  destruct (blocking_self rank k m t y s1 L Ht Hrun Hy Hc1 Hth1) as (Ht1 & _ & _ & _ & Hh0 & _). subst td.
  destruct (turnstile_take_spec rank k m t y s1 L Ht Hrun Hy Hc1 Hth1) as [(q & (x & Hx & Hst & Hwm) & ->)|[Hno ->]]; cbn [mbind outcome_bind]; rewrite (get_mtx_some _ m y) by done; cbn [mbind outcome_bind].
  - destruct (mo_used _ _ _ (li_mtx _ _ L) q x Hx Hst) as (y' & Hy' & Ey). rewrite Hwm in Hy'. assert (y' = y) as -> by congruence.
    assert (address (ts_owner x)) as Hao by (apply (mo_address _ _ _ (li_mtx _ _ L)); by apply (so_used _ _ _ (li_ts _ _ L) q x)). destruct (next_self rank k m w t y s1 L Ht Hrun Hy Hc1 Hth1 HK1 q x Hx Hst Hwm) as (_ & Hqq & _).
    assert (m_owner y <> 0) as H0 by (rewrite Ey; by apply Z.neq_sym, Z.lt_neq, (owner_word_pos _ true)). rewrite (proj2 (Z.eqb_neq _ _) H0). cbn [negb sch set_sch]. rewrite (thr_some _ _ _ Ht1). cbn [mbind outcome_bind].
    change (td_turnstile (set_td_pdnest 1 t)) with (td_turnstile t). rewrite (proj2 (Z.eqb_neq _ _) Hqq), (get_mtx_some _ m y) by done. cbn [mbind outcome_bind].
    assert (mtx_owner y = ts_owner x) as -> by (destruct y as [rc n wd]; cbn [m_owner] in Ey; subst wd; by apply owner_word_owner).
    destruct (next_run rank k m w t y s1 L Hf Ht Hrun Hy Hord Hc1 I1 Hi1 Hth1 HK1 HP1 HN1 q x Hx Hst Hwm) as (l & Hl & Hs & ->). by apply (next_spec rank k m w t y s1 L Hf Ht Hrun Hy Hord Hc1 I1 Hi1 Hth1 HK1 HP1 HN1 q x Hx Hst Hwm).
  - destruct (owner_cases rank k L m y Hy) as [[-> _]|(o & v & c & Hv & Hk & Hao & Eo & Em & Ho)].
    { cbn [negb Z.eqb]. by apply (give_spec rank k m w t y s1). }
    assert (c = false) as ->. { destruct c; [|done]. destruct (mo_contested _ _ _ (li_mtx _ _ L) m y Hy) as (q & x & HH); [rewrite Eo; by apply owner_word_flag|]. destruct (Hno q). by exists x. }
    assert (m_owner y <> 0) as H0 by (rewrite Eo; by apply Z.neq_sym, Z.lt_neq, (owner_word_pos _ false)). rewrite (proj2 (Z.eqb_neq _ _) H0). cbn [negb sch set_sch put_ts set_tss]. rewrite (thr_some _ _ _ Ht1). cbn [mbind outcome_bind].
    change (td_turnstile (set_td_pdnest 1 t)) with (td_turnstile t). rewrite Z.eqb_refl, (get_mtx_some _ m (Mtx (m_recursive y) (m_count y) (Z.lor (m_owner y) MTX_CONTESTED))) by apply lookup_insert_eq. cbn [mbind outcome_bind]. rewrite Eo. change (Z.lor (owner_word o false) MTX_CONTESTED) with (owner_word o true).
    rewrite owner_word_owner by done. pose proof Hv as Hv1. rewrite <- HK1 in Hv1. apply keys_inv in Hv1 as (t_o & Hto & ->). destruct (tc_chain_get _ _ _ (li_ts _ _ L) m) as (l & _ & Hl). assert (o <> curthread (sch k)) as Hot by (intros ->; apply Hord in Ho; lia).
    rewrite (first_run rank k m w t y s1 L Ht Hrun Hy Hc1 Hth1 o t_o l Hto Hl). by apply (first_spec rank k m w t y s1 L Hf Ht Hrun Hy Hord Hc1 I1 Hi1 Hth1 HK1 HP1 HN1 o t_o l Hno Hto Hk Hao Eo Hot Hl).
Qed.

(** ** Waking the threads of a turnstile *)

(** The priorities are the same. *)
Record steady s s' : Prop := {
  sy_inv : sched_inv s';
  sy_cur : curthread s' = curthread s;
  sy_idle : idle_thread s' = idle_thread s;
  sy_prios : prios s' = prios s;
  sy_nests : nests s' = nests s;
}.

Lemma steady_refl s : sched_inv s -> steady s s.
Proof. by split. Qed.

Lemma steady_trans s1 s2 s3 : steady s1 s2 -> steady s2 s3 -> steady s1 s3.
Proof. intros [A1 A2 A3 A4 A5] [B1 B2 B3 B4 B5]. split; congruence. Qed.

Lemma upd_steady s td t t' : sched_inv s -> threads s !! td = Some t -> td_state t' = td_state t -> prio_of t' = prio_of t -> td_pdnest t' = td_pdnest t ->
  steady s (set_threads (<[td := t']> (threads s)) s) /\ keys (set_threads (<[td := t']> (threads s)) s) = <[td := key_of t']> (keys s).
Proof.
  intros I Ht E1 E2 E3. destruct (views_update s (set_threads (<[td := t']> (threads s)) s) td t' eq_refl) as (V1 & V2 & V3). pose proof E2 as E4. injection E4 as E4 E5 E6. split; [|done]. split; try done.
  - apply (upd_inv s td t); try done. rewrite E5. by destruct (si_prio _ I td t Ht).
  - rewrite V2, E2. exact (insert_id _ _ _ (prios_lookup s td t Ht)).
  - rewrite V3, E3. exact (insert_id _ _ _ (nests_lookup s td t Ht)).
Qed.

(** A thread and the turnstile it gets *)
Definition with_ts q (v : wkey) : wkey := Key (k_kind v) (k_blocked v) q (k_contested v) (k_wchan v).
Definition woken (v : wkey) : wkey := Key Runnable 0 (k_ts v) (k_contested v) 0.

Section give_back.
Context (q m : Z) (bl : list Z) (o : Z) (c : list Z).
Hypothesis Hm : m <> 0.

Record giving k (l f : list Z) : Prop := {
  gb_ts : tss k !! q = Some (Turnstile f bl m o USED_BLOCKED);
  gb_len : length l = S (length f);
  gb_free g : g ∈ f -> tss k !! g = Some ts_lent;
  gb_nodup : NoDup (f ++ [q]);
  gb_nodup' : NoDup l;
  gb_thr b : b ∈ l -> is_Some (threads (sch k) !! b);
  gb_chain : turnstile_chains k !! Z.to_nat (TC_HASH m) = Some c;
  gb_in : q ∈ c;
  gb_sched : sched_inv (sch k);
}.

Record given k (l f : list Z) k' : Prop := {
  gi_rest : mtxs k' = mtxs k /\ frames k' = frames k;
  gi_chain : turnstile_chains k' = <[Z.to_nat (TC_HASH m) := filter (fun y => y <> q) c]> (turnstile_chains k);
  gi_sched : steady (sch k) (sch k');
  gi_keys b g v : (b, g) ∈ zip l (f ++ [q]) -> keys (sch k) !! b = Some v -> keys (sch k') !! b = Some (with_ts g v);
  gi_other b : b ∉ l -> keys (sch k') !! b = keys (sch k) !! b;
  gi_free g : g ∈ f -> tss k' !! g = Some turnstile_ctor;
  gi_ts : tss k' !! q = Some (Turnstile [] bl 0 o FREE_UNBLOCKED);
  gi_rest_ts g : g ∉ f -> g <> q -> tss k' !! g = tss k !! g;
}.

Lemma give_last k b : giving k [b] [] -> exists k', give_back [b] k q = Ok k' /\ given k [b] [] k'.
Proof.
  intros [G1 G2 G3 G4 G5 G6 G7 G8 G9]. pose proof (tc_hash_range m) as Hh. pose proof (lookup_lt_Some _ _ _ G7) as Hlen. destruct (G6 b ltac:(by left)) as [t Ht]. cbn [give_back]. rewrite (get_ts_some _ _ _ G1). cbn [mbind outcome_bind ts_free empty assert].
  unfold is_state. rewrite bool_decide_true by done. cbn [assert mbind outcome_bind ts_wchan]. rewrite (proj2 (Z.eqb_neq _ _) Hm), (proj2 (arr_get_ok _ _ _) (conj (proj1 Hh) G7)). cbn [negb assert mbind outcome_bind]. unfold tailq_remove. rewrite decide_True by done. cbn [mbind outcome_bind].
  rewrite arr_set_ok by lia. cbn [mbind outcome_bind]. rewrite (get_ts_some _ _ (Turnstile [] bl 0 o USED_BLOCKED)) by apply lookup_insert_eq. cbn [mbind outcome_bind]. unfold upd_td, on_sch. cbn [sch put_ts set_tss set_chains]. rewrite (upd_some _ _ t _ Ht). cbn [mbind outcome_bind].
  destruct (upd_steady (sch k) b t (set_td_turnstile q t) G9 Ht eq_refl eq_refl eq_refl) as [Sy EK]. eexists. split; [done|]. split; cbn [mtxs frames turnstile_chains tss sch set_sch put_ts set_tss set_chains]; try done.
  - intros b' g v Hz Hv. cbn in Hz. apply list_elem_of_singleton in Hz. injection Hz as -> ->. rewrite EK, lookup_insert_eq. rewrite (keys_lookup _ _ _ Ht) in Hv. by injection Hv as <-.
  - intros b' Hb. rewrite EK, lookup_insert_ne; [done|]. set_solver.
  - by intros g ?%not_elem_of_nil.
  - apply lookup_insert_eq.
  - intros g _ Hg. by rewrite !lookup_insert_ne.
Qed.

Lemma give_next k b l g f : giving k (b :: l) (g :: f) -> exists k1, give_back (b :: l) k q = give_back l k1 q /\ giving k1 l f /\ forall k', given k1 l f k' -> given k (b :: l) (g :: f) k'.
Proof.
  intros [G1 G2 G3 G4 G5 G6 G7 G8 G9]. destruct (G6 b ltac:(by left)) as [t Ht]. apply NoDup_cons in G4 as [Hg G4]. apply NoDup_cons in G5 as [Hb G5]. assert (g <> q /\ g ∉ f) as [Hgq Hgf] by set_solver.
  pose proof (G3 g ltac:(by left)) as Eg. destruct (upd_steady (sch k) b t (set_td_turnstile g t) G9 Ht eq_refl eq_refl eq_refl) as [Sy EK].
  set (s1 := set_threads (<[b := set_td_turnstile g t]> (threads (sch k))) (sch k)) in *.
  exists (set_sch s1 (put_ts (put_ts k q (Turnstile f bl m o USED_BLOCKED)) g turnstile_ctor)). split; [|split].
  - cbn [give_back]. rewrite (get_ts_some _ _ _ G1). cbn [mbind outcome_bind ts_free]. rewrite (get_ts_some _ _ _ Eg). cbn [mbind outcome_bind]. unfold is_state. rewrite bool_decide_true by done. cbn [assert mbind outcome_bind ts_wchan ts_lent Z.eqb].
    rewrite (get_ts_some _ g ts_lent) by (cbn; by rewrite lookup_insert_ne). cbn [mbind outcome_bind]. unfold upd_td, on_sch. cbn [sch put_ts set_tss]. rewrite (upd_some _ _ t _ Ht). done.
  - split; cbn [tss sch set_sch put_ts set_tss turnstile_chains]; try done.
    + rewrite lookup_insert_ne by done. apply lookup_insert_eq.
    + cbn in G2. lia.
    + intros g' Hg'. rewrite !lookup_insert_ne by (set_solver || (intros ->; apply NoDup_app in G4 as (_ & HH & _); apply (HH g' Hg'); by left)). apply G3. by right.
    + intros b' Hb'. unfold s1. cbn. apply lookup_insert_is_Some', or_intror. apply G6. by right.
    + apply Sy.
  - intros k' [A1 A2 A3 A4 A5 A6 A7 A8]. cbn [tss sch set_sch put_ts set_tss turnstile_chains mtxs frames] in *. split; try done.
    + by apply (steady_trans _ s1).
    + intros b' g' v Hz Hv. cbn in Hz. apply elem_of_cons in Hz as [Hz|Hz].
      * injection Hz as -> ->. rewrite A5, EK, lookup_insert_eq by done. rewrite (keys_lookup _ _ _ Ht) in Hv. by injection Hv as <-.
      * apply A4; [done|]. rewrite EK, lookup_insert_ne; [done|]. intros ->. apply Hb. by apply elem_of_zip_l in Hz.
    + intros b' Hb'. apply not_elem_of_cons in Hb' as [H1 H2]. rewrite A5, EK, lookup_insert_ne by done. done.
    + intros g' [->|Hg']%elem_of_cons; [|by apply A6]. rewrite A8 by done. apply lookup_insert_eq.
    + intros g' Hg' Hq. apply not_elem_of_cons in Hg' as [H1 H2]. rewrite A8, !lookup_insert_ne by done. done.
Qed.

Lemma give_back_spec l : forall k f, giving k l f -> exists k', give_back l k q = Ok k' /\ given k l f k'.
Proof.
  induction l as [|b l IH]; intros k f G; [pose proof (gb_len _ _ _ G); done|]. destruct f as [|g f].
  - pose proof (gb_len _ _ _ G) as Hlen. destruct l; [|done]. by apply give_last.
  - destruct (give_next k b l g f G) as (k1 & -> & G1 & HG). destruct (IH k1 f G1) as (k' & -> & Gk). exists k'. split; [done|]. by apply HG.
Qed.
End give_back.

Lemma wakeup_blocked_spec q l : forall k x, tss k !! q = Some x -> ts_blocked x = l -> NoDup l -> sched_inv (sch k) -> (forall b, b ∈ l -> exists v, keys (sch k) !! b = Some v /\ k_kind v = Blocked) ->
  exists s', wakeup_blocked l k q = Ok (set_sch s' (put_ts k q (set_blocked [] x))) /\ steady (sch k) s' /\ (forall b, b ∈ l -> keys s' !! b = woken <$> keys (sch k) !! b) /\ (forall b, b ∉ l -> keys s' !! b = keys (sch k) !! b).
Proof.
  induction l as [|b l IH]; intros k x Hx El Hn I Hl.
  { exists (sch k). split; [|split_and!; [by apply steady_refl|by intros b ?%not_elem_of_nil|done]]. cbn. f_equal. unfold put_ts. rewrite insert_id; [by destruct k|]. rewrite Hx. f_equal. destruct x; cbn in El |- *. by subst. }
  apply NoDup_cons in Hn as [Hb Hn]. destruct (Hl b ltac:(by left)) as (v & Hv & Hk). apply keys_inv in Hv as (t & Ht & ->). cbn in Hk. assert (td_state t = TDS_BLOCKED) as Hst by (by destruct (td_state t)).
  cbn [wakeup_blocked]. rewrite (get_ts_some _ _ _ Hx). cbn [mbind outcome_bind sch put_ts set_tss]. rewrite (thr_some _ _ _ Ht). cbn [mbind outcome_bind]. unfold td_is_blocked, td_is. rewrite bool_decide_true by done. cbn [assert mbind outcome_bind].
  set (t1 := set_td_waitpt 0 (set_td_wchan 0 (set_td_blocked 0 t))). unfold upd_td, on_sch. cbn [sch put_ts set_tss]. rewrite (upd_some _ _ t _ Ht). fold t1. cbn [mbind outcome_bind sch set_sch].
  destruct (upd_steady (sch k) b t t1 I Ht eq_refl eq_refl eq_refl) as [Sy EK]. set (s1 := set_threads (<[b := t1]> (threads (sch k))) (sch k)) in *.
  destruct (wakeup_spec s1 b t1 0 (sy_inv _ _ Sy)) as (s2 & -> & I2 & C2 & D2 & K2 & P2 & N2); [apply lookup_insert_eq|by cbn; rewrite Hst|by cbn; rewrite Hst|]. cbn [mbind outcome_bind].
  match goal with |- context [wakeup_blocked l ?kk q] => change kk with (set_sch s2 (put_ts k q (set_blocked l x))) end.
  assert (keys s2 = <[b := woken (key_of t)]> (keys (sch k))) as EK2 by (rewrite K2, EK; by rewrite insert_insert_eq).
  destruct (IH (set_sch s2 (put_ts k q (set_blocked l x))) (set_blocked l x)) as (s' & -> & Sy' & W1 & W2); [apply lookup_insert_eq|done|done|done| |].
  { intros b' Hb'. cbn [sch set_sch]. rewrite EK2, lookup_insert_ne by (intros ->; done). apply Hl. by right. }
  exists s'. cbn [sch set_sch] in *. split; [|split; [|split]].
  - f_equal. unfold put_ts, set_sch, set_tss. cbn. f_equal. by rewrite insert_insert_eq.
  - apply (steady_trans _ s1); [done|]. apply (steady_trans _ s2); [by split|done].
  - intros b' [->|Hb']%elem_of_cons; [rewrite W2 by done; rewrite EK2, lookup_insert_eq; by rewrite (keys_lookup _ _ _ Ht)|]. rewrite W1, EK2, lookup_insert_ne by (done || by intros ->). done.
  - intros b' Hb'. apply not_elem_of_cons in Hb' as [H1 H2]. by rewrite W2, EK2, lookup_insert_ne by done.
Qed.

(** *** The owner gives back the priority it has got *)

Section unlend.
Context (k : locks) (q : Z) (bl : list Z) (t : thread).
Let td := curthread (sch k).
Let P := prios (sch k).
Hypothesis I : sched_inv (sch k).
Hypothesis Ht : threads (sch k) !! td = Some t.
Hypothesis Hq : tss k !! q = Some (Turnstile [] bl 0 td FREE_UNBLOCKED).
Hypothesis Hin : q ∈ td_contested t.
Hypothesis Hfirst : forall q', q' ∈ td_contested t -> q' <> q -> exists x b l, tss k !! q' = Some x /\ ts_owner x = td /\ ts_blocked x = b :: l /\ is_Some (threads (sch k) !! b).

(** A thread is first on another turnstile of the owner. *)
Definition first_on b : Prop := exists q' x l, q' ∈ td_contested t /\ q' <> q /\ tss k !! q' = Some x /\ ts_blocked x = b :: l.

Let t1 := set_td_contested (filter (fun y => y <> q) (td_contested t)) t.
Let s1 := set_threads (<[td := t1]> (threads (sch k))) (sch k).
Let k1 := set_sch s1 (put_ts k q (Turnstile [] bl 0 0 FREE_UNBLOCKED)).

Lemma unlent_views : prios s1 = P /\ sched_inv s1 /\ keys s1 = <[td := drop_contested q (key_of t)]> (keys (sch k)) /\ nests s1 = nests (sch k) /\ threads s1 !! td = Some t1.
Proof. destruct (upd_steady (sch k) td t t1 I Ht eq_refl eq_refl eq_refl) as [[S1 S2 S3 S4 S5] EK]. split_and!; try done. apply lookup_insert_eq. Qed.

Lemma lent_prio_spec l : forall p, (forall q', q' ∈ l -> q' ∈ td_contested t /\ q' <> q) -> 
  exists p', lent_prio k1 td l p = Ok p' /\ p' <= p /\ (p' = p \/ exists b, first_on b /\ p' = pr P b) /\ forall q' x b l', q' ∈ l -> tss k !! q' = Some x -> ts_blocked x = b :: l' -> p' <= pr P b.
Proof.
  destruct unlent_views as (E1 & _). induction l as [|q' l IH]; intros p Hl; [exists p; split_and!; [done|lia|by left|by intros ? ? ? ? ?%not_elem_of_nil]|].
  destruct (Hl q' ltac:(by left)) as [H1 H2]. destruct (Hfirst q' H1 H2) as (x & b & l' & Hx & Ho & Eb & tb & Htb). cbn [lent_prio]. assert (tss k1 !! q' = Some x) as Hx1 by (cbn; by rewrite lookup_insert_ne).
  rewrite (get_ts_some _ _ _ Hx1). cbn [mbind outcome_bind]. rewrite Ho, Z.eqb_refl, Eb. cbn [assert mbind outcome_bind].
  assert (exists tb', threads s1 !! b = Some tb' /\ td_prio tb' = pr P b) as (tb' & Htb' & Ep).
  { unfold pr, P. rewrite (prios_lookup _ _ _ Htb). cbn. destruct (decide (b = td)) as [->|Hne]; [|exists tb; unfold s1; cbn; by rewrite lookup_insert_ne]. exists t1. unfold s1. cbn. rewrite lookup_insert_eq. assert (tb = t) as -> by congruence. done. }
  change (sch k1) with s1. rewrite (thr_some _ _ _ Htb'). cbn [mbind outcome_bind]. rewrite Ep. unfold prio_gt.
  destruct (IH (if pr P b <? p then pr P b else p)) as (p' & -> & Hp & Hc & Hall); [intros; apply Hl; by right|]. exists p'. split; [done|]. destruct (Z.ltb_spec (pr P b) p).
  - split; [lia|]. split; [destruct Hc as [->|Hc]; right; [exists b; split; [by exists q', x, l'|done]|done]|]. intros q2 x2 b2 l2 [->|Hin2]%elem_of_cons Hx2 Eb2; [assert (x2 = x) as -> by congruence; assert (b2 = b) as -> by congruence; lia|by apply (Hall q2 x2 b2 l2)].
  - split; [lia|]. split; [done|]. intros q2 x2 b2 l2 [->|Hin2]%elem_of_cons Hx2 Eb2; [assert (x2 = x) as -> by congruence; assert (b2 = b) as -> by congruence; lia|by apply (Hall q2 x2 b2 l2)].
Qed.

Lemma unlend_run : exists p, unlend_self k q = on_sch k1 (fun s => sched_unlend_prio s td p) /\ p <= 255 /\ (p = 255 \/ exists b, first_on b /\ p = pr P b) /\ forall b, first_on b -> p <= pr P b.
Proof.
  destruct (lent_prio_spec (filter (fun y => y <> q) (td_contested t)) 255) as (p & E & Hp & Hc & Hall); [intros q' Hq'; by apply list_elem_of_filter in Hq' as [? ?]|]. exists p. split; [|split_and!; [done|done|]].
  - unfold unlend_self, thread_self. fold td. rewrite (get_ts_some _ _ _ Hq). cbn [mbind outcome_bind ts_owner]. rewrite Z.eqb_refl. cbn [assert mbind outcome_bind sch put_ts set_tss]. rewrite (thr_some _ _ _ Ht). cbn [mbind outcome_bind].
    unfold tailq_remove. rewrite decide_True by done. cbn [mbind outcome_bind]. unfold upd_td, on_sch. cbn [sch put_ts set_tss]. rewrite (upd_some _ _ t _ Ht). cbn [mbind outcome_bind]. fold t1. fold s1.
    match goal with |- context [lent_prio ?kk td] => change kk with k1 end. change (prio_uthread 255) with 255. rewrite E. done.
  - intros b (q' & x & l & H1 & H2 & Hx & Eb). apply (Hall q' x b l); try done. by apply list_elem_of_filter.
Qed.

Lemma unlend_self_spec : td <> idle_thread (sch k) -> (forall b, first_on b -> td_base_prio t <= pr P b) ->
  exists s', unlend_self k q = Ok (set_sch s' (put_ts k q (Turnstile [] bl 0 0 FREE_UNBLOCKED))) /\ sched_inv s' /\ curthread s' = td /\ idle_thread s' = idle_thread (sch k) /\
    keys s' = <[td := drop_contested q (key_of t)]> (keys (sch k)) /\ prios s' = <[td := Prio (td_base_prio t) (td_base_prio t) false]> P /\ nests s' = nests (sch k).
Proof.
  intros Hi Hall. destruct unlend_run as (p & -> & Hp & Hc & _). destruct unlent_views as (E1 & I1 & E2 & E3 & Ht1). destruct (unlend_spec s1 td t1 p I1 Ht1 Hi) as (s' & E & I' & C' & D' & K' & P' & N').
  { destruct (si_prio _ I td t Ht) as [_ Hb]. destruct Hc as [->|(b & Hb1 & ->)]; [cbn; lia|by apply Hall]. }
  exists s'. unfold on_sch. change (sch k1) with s1. rewrite E. cbn [mbind outcome_bind]. split; [done|]. rewrite K', P', N', E1, E2, E3. done.
Qed.

(** A thread that has the priority of its other waiters must not be lent it again. *)
Lemma unlend_self_fails b : first_on b -> pr P b < td_base_prio t -> (forall b, first_on b -> td_prio t <= pr P b) -> unlend_self k q = Fault AssertFailed.
Proof.
  intros Hb Hlt Hall. destruct unlend_run as (p & -> & Hp & Hc & Hmin). destruct unlent_views as (E1 & I1 & E2 & E3 & Ht1). destruct (si_prio _ I td t Ht) as [_ Hbase]. pose proof (Hmin b Hb) as Hpb.
  unfold on_sch. change (sch k1) with s1. unfold sched_unlend_prio, prio_le. rewrite (thr_some _ _ _ Ht1). cbn [mbind outcome_bind]. change (td_base_prio t1) with (td_base_prio t). rewrite (proj2 (Z.leb_gt _ _)) by lia.
  unfold sched_lend_prio, prio_lt. rewrite (thr_some _ _ _ Ht1). cbn [mbind outcome_bind]. change (td_prio t1) with (td_prio t). rewrite (proj2 (Z.ltb_ge _ _)); [done|]. destruct Hc as [->|(b' & Hb' & ->)]; [lia|by apply Hall].
Qed.
End unlend.

(** *** A contested mutex is released *)

(** The running thread owns another mutex for which a thread above its own priority waits. *)
Definition nested_lending k m : Prop :=
  exists q x b t, tss k !! q = Some x /\ ts_state x = USED_BLOCKED /\ ts_owner x = curthread (sch k) /\ ts_wchan x <> m /\ b ∈ ts_blocked x /\
    threads (sch k) !! curthread (sch k) = Some t /\ pr (prios (sch k)) b < td_base_prio t.

#[export] Instance nested_lending_dec k m : Decision (nested_lending k m).
Proof.
  destruct (decide (map_Exists (fun _ x => ts_state x = USED_BLOCKED /\ ts_owner x = curthread (sch k) /\ ts_wchan x <> m /\
    Exists (fun b => match threads (sch k) !! curthread (sch k) with Some t => pr (prios (sch k)) b <? td_base_prio t | None => false end = true) (ts_blocked x)) (tss k))) as [H|H]; [left|right].
  - destruct H as (q & x & Hx & Hst & Ho & Hw & Hb). apply Exists_exists in Hb as (b & Hb & Hlt). destruct (threads (sch k) !! curthread (sch k)) as [t|] eqn:Ht; [|done]. exists q, x, b, t. split_and!; try done. lia.
  - intros (q & x & b & t & Hx & Hst & Ho & Hw & Hb & Ht & Hlt). apply H. exists q, x. split_and!; try done. apply Exists_exists. exists b. split; [done|]. rewrite Ht. lia.
Defined.

Section releasing.
Context (rank : Z -> Z) (k : locks) (m : Z) (t : thread) (y : mtx) (s1 : sched) (q : Z) (x : turnstile).
Hypothesis L : locks_inv rank k.
Let td := curthread (sch k).
Let t1 := set_td_pdnest 1 t.
Hypothesis Hi : td <> idle_thread (sch k).
Hypothesis Ht : threads (sch k) !! td = Some t.
Hypothesis Hrun : kind_of (td_state t) = Runnable.
Hypothesis Hy : mtxs k !! m = Some y.
Hypothesis Hc1 : curthread s1 = td.
Hypothesis I1 : sched_inv s1.
Hypothesis Hi1 : idle_thread s1 = idle_thread (sch k).
Hypothesis Hth1 : threads s1 = <[td := t1]> (threads (sch k)).
Hypothesis HK1 : keys s1 = keys (sch k).
Hypothesis HP1 : prios s1 = prios (sch k).
Hypothesis HN1 : nests s1 = <[td := 1]> (nests (sch k)).
Hypothesis Hx : tss k !! q = Some x.
Hypothesis Hst : ts_state x = USED_BLOCKED.
Hypothesis Hwm : ts_wchan x = m.
Hypothesis Hown : ts_owner x = td.
Let K := keys (sch k).
Let T := tss k.
Let S := li_ts _ _ L.
Let k1 := put_mtx (set_sch s1 k) m (Mtx (m_recursive y) (m_count y) 0).

Lemma releasing_self : td ∉ ts_blocked x.
Proof.
  intros H. apply (so_blocked _ _ _ S q x td Hx Hst) in H as (v & Hv & Eb). rewrite (keys_lookup _ _ _ Ht) in Hv. injection Hv as <-. destruct (own_ts _ _ _ S td (key_of t) (keys_lookup _ _ _ Ht)) as (_ & _ & E0); [cbn; by rewrite Hrun|].
  rewrite E0 in Eb. rewrite <- Eb, (so_null _ _ _ S) in Hx. done.
Qed.

Lemma releasing_giving c : turnstile_chains k !! Z.to_nat (TC_HASH m) = Some c -> giving q m (ts_blocked x) td c k1 (ts_blocked x) (ts_free x).
Proof.
  intros Hc. destruct (so_used _ _ _ S q x Hx Hst) as (U1 & U2 & U3 & U4 & U5). pose proof (tc_hash_range m) as Hh. split; cbn [tss sch k1 put_mtx set_mtxs set_sch turnstile_chains]; try done.
  - rewrite Hx, <- Hwm, <- Hown, <- Hst. by destruct x.
  - intros g Hg. apply (so_free _ _ _ S g q). by exists x.
  - by apply (wake_ts_nodup _ _ _ S q x).
  - intros b Hb. apply (so_blocked _ _ _ S q x b Hx Hst) in Hb as (v & Hv & _). rewrite <- HK1 in Hv. apply keys_inv in Hv as (tb & -> & _). by eexists.
  - apply (so_chain _ _ _ S _ _ _ Hc). exists m. split; [by exists x|lia].
Qed.

Lemma releasing_start : exists kg c, turnstile_chains k !! Z.to_nat (TC_HASH m) = Some c /\ given q m (ts_blocked x) td c k1 (ts_blocked x) (ts_free x) kg /\
  turnstile_broadcast k1 m = (k ← unlend_self kg q; k ← wakeup_blocked (ts_blocked x) k q; x ← get_ts k q; _ ← assert (is_state FREE_UNBLOCKED x); Ok k).
Proof.
  destruct (tc_chain_get _ _ _ S m) as (c & Ec & Hc). destruct (so_used _ _ _ S q x Hx Hst) as (U1 & _). rewrite Hwm in U1. destruct (give_back_spec q m (ts_blocked x) td c U1 (ts_blocked x) k1 (ts_free x) (releasing_giving c Hc)) as (kg & Eg & G).
  exists kg, c. split; [done|]. split; [done|]. unfold turnstile_broadcast, preempt_disabled, thread_self. change (sch k1) with s1. rewrite Hc1. assert (threads s1 !! td = Some t1) as Ht1 by (rewrite Hth1; apply lookup_insert_eq). rewrite (thr_some _ _ _ Ht1). cbn [mbind outcome_bind assert td_pdnest t1 set_td_pdnest Z.ltb].
  change (0 <? 1) with true. unfold turnstile_lookup. change (turnstile_chains k1) with (turnstile_chains k). change (tss k1) with (tss k). rewrite Ec. cbn [assert mbind outcome_bind].
  destruct (tc_chain_lookup _ _ _ S m c Hc) as [(q' & Hq' & ->)|[Hno _]]; [|destruct (Hno q); by exists x]. assert (q' = q) as -> by (apply (so_mutex _ _ _ S q' q m); [done|by exists x]). cbn [mbind outcome_bind].
  destruct (first_blocked _ _ _ S q x Hx Hst) as (b0 & l0 & Eb0). assert (empty (ts_blocked x) = false) as Ee by (by rewrite Eb0).
  unfold give_back_turnstiles, thread_self, is_state. rewrite (get_ts_some k1 q x Hx). cbn [mbind outcome_bind]. rewrite (bool_decide_true (ts_state x = USED_BLOCKED)) by done. rewrite Ee. change (sch k1) with s1. rewrite Hc1, Hown, Z.eqb_refl. cbn [negb assert mbind outcome_bind]. by rewrite Eg.
Qed.

Section given.
Context (kg : locks) (c : list Z).
Hypothesis Hc : turnstile_chains k !! Z.to_nat (TC_HASH m) = Some c.
Hypothesis G : given q m (ts_blocked x) td c k1 (ts_blocked x) (ts_free x) kg.

(** Another turnstile that is in use has not changed. *)
Lemma given_other q' x' : tss k !! q' = Some x' -> ts_state x' = USED_BLOCKED -> q' <> q -> tss kg !! q' = Some x'.
Proof.
  intros Hx' Hst' Hne. rewrite (gi_rest_ts _ _ _ _ _ _ _ _ _ G); [done| |done]. intros Hin. assert (tss k !! q' = Some ts_lent) as E by (apply (so_free _ _ _ S q' q); by exists x). rewrite Hx' in E. injection E as ->. done.
Qed.

Lemma given_self : exists tg, threads (sch kg) !! td = Some tg /\ key_of tg = key_of t /\ prio_of tg = prio_of t /\ curthread (sch kg) = td /\ idle_thread (sch kg) = idle_thread (sch k) /\ prios (sch kg) = prios (sch k) /\ nests (sch kg) = nests s1 /\ sched_inv (sch kg).
Proof.
  destruct (gi_sched _ _ _ _ _ _ _ _ _ G) as [J1 J2 J3 J4 J5]. change (sch k1) with s1 in *. assert (keys (sch kg) !! td = Some (key_of t)) as HK.
  { rewrite (gi_other _ _ _ _ _ _ _ _ _ G) by apply releasing_self. change (sch k1) with s1. rewrite HK1. by apply keys_lookup. }
  apply keys_inv in HK as (tg & Htg & Ek). exists tg. split_and!; try done; try congruence. assert (prios (sch kg) !! td = Some (prio_of t)) as HP by (rewrite J4, HP1; by apply prios_lookup). rewrite (prios_lookup _ _ _ Htg) in HP. congruence.
Qed.

Lemma given_first q' : q' ∈ td_contested t -> q' <> q -> exists x b l, tss k !! q' = Some x /\ ts_state x = USED_BLOCKED /\ tss kg !! q' = Some x /\ ts_owner x = td /\ ts_blocked x = b :: l /\ is_Some (threads (sch kg) !! b).
Proof.
  intros Hq' Hne. apply (proj2 (so_contested _ _ _ S td (key_of t) (keys_lookup _ _ _ Ht)) q') in Hq' as (x' & Hx' & Hst' & Ho'). destruct (first_blocked _ _ _ S q' x' Hx' Hst') as (b & l & Eb). exists x', b, l. split_and!; try done; [by apply given_other|].
  assert (b ∈ ts_blocked x') as Hb by (rewrite Eb; by left). apply (so_blocked _ _ _ S q' x' b Hx' Hst') in Hb as (v & Hv & _). assert (is_Some (prios (sch kg) !! b)) as HP.
  { destruct given_self as (tg & _ & _ & _ & _ & _ & -> & _). apply keys_inv in Hv as (tb & Htb & _). rewrite (prios_lookup _ _ _ Htb). by eexists. }
  destruct HP as [pv HP]. apply prios_inv in HP as (tb & -> & _). by eexists.
Qed.

Lemma given_first_on b tg : key_of tg = key_of t -> first_on kg q tg b <-> exists q' x' l, tss k !! q' = Some x' /\ ts_state x' = USED_BLOCKED /\ ts_owner x' = td /\ ts_wchan x' <> m /\ ts_blocked x' = b :: l.
Proof.
  intros Ek. assert (td_contested tg = td_contested t) as Ec by (by injection Ek). unfold first_on. rewrite Ec. split.
  - intros (q' & x' & l & H1 & H2 & Hx' & Eb). destruct (given_first q' H1 H2) as (x2 & b2 & l2 & Hx2 & Hs2 & Hg2 & Ho2 & Eb2 & _). assert (x2 = x') as -> by congruence. exists q', x', l. split_and!; try done. intros Ew. apply H2. apply (so_mutex _ _ _ S q' q m); [by exists x'|by exists x].
  - intros (q' & x' & l & Hx' & Hs' & Ho' & Hw' & Eb). exists q', x', l. assert (q' <> q) as Hne by (intros ->; congruence). split_and!; try done; [|by apply given_other]. apply (proj2 (so_contested _ _ _ S td (key_of t) (keys_lookup _ _ _ Ht)) q'). by exists x'.
Qed.
End given.

Lemma nested_first : nested_lending k m <-> exists q' x' b l, tss k !! q' = Some x' /\ ts_state x' = USED_BLOCKED /\ ts_owner x' = td /\ ts_wchan x' <> m /\ ts_blocked x' = b :: l /\ pr (prios (sch k)) b < td_base_prio t.
Proof.
  split.
  - intros (q' & x' & b & t' & H1 & H2 & H3 & H4 & H5 & H6 & H7). fold td in H6. assert (t' = t) as -> by congruence. destruct (first_blocked _ _ _ S q' x' H1 H2) as (b0 & l0 & Eb). exists q', x', b0, l0. split_and!; try done.
    pose proof (pi_sorted _ _ (li_prio _ _ L) q' x' H1 H2) as Hs. rewrite Eb in Hs, H5. pose proof (sorted_head _ _ _ _ Hs H5). lia.
  - intros (q' & x' & b & l & H1 & H2 & H3 & H4 & H5 & H6). exists q', x', b, t. split_and!; try done. rewrite H5. by left.
Qed.

Lemma broadcast_fails : nested_lending k m -> turnstile_broadcast k1 m = Fault AssertFailed.
Proof.
  intros Hn. apply nested_first in Hn as (q' & x' & b & l & H1 & H2 & H3 & H4 & H5 & H6). destruct releasing_start as (kg & c & Hc & G & ->). destruct (given_self kg c G) as (tg & Htg & Ek & Ep & Ecur & Eidle & EP & EN & Ig). assert (td_contested tg = td_contested t) as Ec by (by injection Ek).
  injection Ep as Ep1 Ep2 Ep3. rewrite (unlend_self_fails kg q (ts_blocked x) tg) with (b := b); try done; rewrite ?Ecur, ?EP; try done.
  - apply (gi_ts _ _ _ _ _ _ _ _ _ G).
  - rewrite Ec. apply (proj2 (so_contested _ _ _ S td (key_of t) (keys_lookup _ _ _ Ht)) q). by exists x.
  - rewrite Ec. intros q2 Hq2 Hne2. destruct (given_first kg c G q2 Hq2 Hne2) as (x2 & b2 & l2 & _ & _ & HH). by exists x2, b2, l2.
  - apply (given_first_on kg c G b tg Ek). by exists q', x', l.
  - congruence.
  - intros b2 Hb2. apply (given_first_on kg c G b2 tg Ek) in Hb2 as (q2 & x2 & l2 & F1 & F2 & F3 & F4 & F5). rewrite Ep1. assert (pr (prios (sch k)) td = td_prio t) as <- by (unfold pr; by rewrite (prios_lookup _ _ _ Ht)). rewrite <- F3. apply (pi_lent _ _ (li_prio _ _ L) q2 x2 b2 F1 F2). rewrite F5. by left.
Qed.

(** The state after the broadcast *)
Record released kf : Prop := {
  rl_rest : mtxs kf = <[m := Mtx (m_recursive y) (m_count y) 0]> (mtxs k) /\ frames kf = frames k;
  rl_sched : sched_inv (sch kf) /\ curthread (sch kf) = td /\ idle_thread (sch kf) = idle_thread (sch k);
  rl_nests : nests (sch kf) = nests s1;
  rl_prios : prios (sch kf) = <[td := Prio (td_base_prio t) (td_base_prio t) false]> (prios (sch k));
  rl_ok : ts_ok (keys (sch kf)) (tss kf) (turnstile_chains kf);
  rl_ts g : tss kf !! g = if decide (g ∈ ts_free x ++ [q]) then Some turnstile_ctor else tss k !! g;
  rl_woken b v : b ∈ ts_blocked x -> K !! b = Some v -> exists v', keys (sch kf) !! b = Some v' /\ k_kind v' = Runnable;
  rl_self : keys (sch kf) !! td = Some (drop_contested q (key_of t));
  rl_other b : b ∉ ts_blocked x -> b <> td -> keys (sch kf) !! b = K !! b;
}.

Lemma turnstile_broadcast_spec : ~ nested_lending k m -> exists kf, turnstile_broadcast k1 m = Ok kf /\ released kf.
Proof.
  intros Hn. destruct releasing_start as (kg & c & Hc & G & ->). destruct (given_self kg c G) as (tg & Htg & Ek & Ep & Ecur & Eidle & EP & EN & Ig). assert (td_contested tg = td_contested t) as Ec by (by injection Ek).
  pose proof releasing_self as Hnb. injection Ep as Ep1 Ep2 Ep3. destruct (so_used _ _ _ S q x Hx Hst) as (U1 & U2 & U3 & U4 & U5). pose proof (wake_ts_nodup _ _ _ S q x Hx Hst) as Hnd.
  destruct (unlend_self_spec kg q (ts_blocked x) tg) as (su & -> & Iu & Cu & Du & Ku & Pu & Nu); rewrite ?Ecur, ?EP; try done.
  { apply (gi_ts _ _ _ _ _ _ _ _ _ G). }
  { rewrite Ec. apply (proj2 (so_contested _ _ _ S td (key_of t) (keys_lookup _ _ _ Ht)) q). by exists x. }
  { rewrite Ec. intros q2 Hq2 Hne2. destruct (given_first kg c G q2 Hq2 Hne2) as (x2 & b2 & l2 & _ & _ & HH). by exists x2, b2, l2. }
  { by rewrite Eidle. }
  { intros b Hb. apply (given_first_on kg c G b tg Ek) in Hb as (q2 & x2 & l2 & F1 & F2 & F3 & F4 & F5). apply Z.nlt_ge. intros Hlt. apply Hn, nested_first. exists q2, x2, b, l2. split_and!; try done. by rewrite <- Ep2. }
  cbn [mbind outcome_bind]. rewrite Ecur, Ek in *. set (ku := set_sch su _).
  assert (forall b v, b ∈ ts_blocked x -> K !! b = Some v -> exists g, (b, g) ∈ zip (ts_blocked x) (ts_free x ++ [q]) /\ keys su !! b = Some (with_ts g v) /\ k_kind v = Blocked) as Hbk.
  { intros b v Hb Hv. assert (b <> td) as Hbt by (intros ->; done). assert (b ∈ (zip (ts_blocked x) (ts_free x ++ [q])).*1) as Hz by (rewrite fst_zip; [done|rewrite length_app; cbn; lia]). apply list_elem_of_fmap in Hz as ([b' g] & Eb' & Hz). cbn in Eb'. subst b'.
    exists g. split; [done|]. split.
    - rewrite Ku, lookup_insert_ne by done. apply (gi_keys _ _ _ _ _ _ _ _ _ G b g v Hz). change (sch k1) with s1. by rewrite HK1.
    - apply (so_blocked _ _ _ S q x b Hx Hst) in Hb as (v' & Hv' & Eb). assert (v' = v) as -> by (unfold K in Hv; congruence). apply (so_view _ _ _ S b v Hv). rewrite Eb. intros ->. by rewrite (so_null _ _ _ S) in Hx. }
  destruct (wakeup_blocked_spec q (ts_blocked x) ku (Turnstile [] (ts_blocked x) 0 0 FREE_UNBLOCKED)) as (sf & -> & [J1 J2 J3 J4 J5] & W1 & W2); try done; [apply lookup_insert_eq| |].
  { intros b Hb. pose proof Hb as Hb'. apply (so_blocked _ _ _ S q x b Hx Hst) in Hb' as (v & Hv & _). destruct (Hbk b v Hb Hv) as (g & _ & E & Hkb). exists (with_ts g v). by split. }
  cbn [mbind outcome_bind]. rewrite (get_ts_some _ q turnstile_ctor) by apply lookup_insert_eq. cbn [mbind outcome_bind]. eexists. split; [done|]. change (sch ku) with su in *.
  assert (forall g, tss (put_ts ku q turnstile_ctor) !! g = if decide (g ∈ ts_free x ++ [q]) then Some turnstile_ctor else tss k !! g) as HT.
  { intros g. cbn. destruct (decide (g = q)) as [->|Hne]; [rewrite lookup_insert_eq, decide_True by set_solver; done|rewrite !lookup_insert_ne by done]. case_decide as Hd.
    - apply (gi_free _ _ _ _ _ _ _ _ _ G). apply elem_of_app in Hd as [Hd|Hd]; [done|set_solver].
    - rewrite (gi_rest_ts _ _ _ _ _ _ _ _ _ G); [done|set_solver|done]. }
  assert (forall b, b ∉ ts_blocked x -> keys sf !! b = if decide (b = td) then Some (drop_contested q (key_of t)) else K !! b) as HKo.
  { intros b Hb. rewrite W2, Ku by done. case_decide as Hd; [subst b; apply lookup_insert_eq|]. rewrite lookup_insert_ne by done. rewrite (gi_other _ _ _ _ _ _ _ _ _ G) by done. change (sch k1) with s1. by rewrite HK1. }
  destruct (gi_rest _ _ _ _ _ _ _ _ _ G) as [R1 R2]. split; cbn [sch set_sch mtxs frames put_ts set_tss ku tss turnstile_chains]; try done; try (split_and!; congruence); try congruence.
  - rewrite (gi_chain _ _ _ _ _ _ _ _ _ G). rewrite <- Hwm in Hc |- *. apply (wake_ok _ _ _ S q x _ _ (zip (ts_blocked x) (ts_free x ++ [q])) c Hx Hst); try done.
    + rewrite fst_zip; [done|rewrite length_app; cbn; lia].
    + rewrite snd_zip; [done|rewrite length_app; cbn; lia].
    + by rewrite Hown.
    + intros b g v Hz Hv. pose proof (elem_of_zip_l _ _ _ _ Hz) as Hb. rewrite W1 by done. rewrite Ku, lookup_insert_ne by (intros ->; done). rewrite (gi_keys _ _ _ _ _ _ _ _ _ G b g v Hz); [done|]. change (sch k1) with s1. by rewrite HK1.
    + intros b Hb. rewrite HKo, Hown by done. case_decide as Hd; [subst b; by rewrite (keys_lookup _ _ _ Ht)|]. unfold K. by destruct (keys (sch k) !! b).
  - intros b v Hb Hv. destruct (Hbk b v Hb Hv) as (g & _ & E & _). rewrite W1, E by done. by eexists.
  - rewrite HKo by done. by rewrite decide_True.
  - intros b Hb Hne. rewrite HKo by done. by rewrite decide_False.
Qed.

Section done.
Context (kf : locks) (s' : sched).
Hypothesis R : released kf.
Hypothesis I' : sched_inv s'.
Hypothesis EK : keys s' = keys (sch kf).
Hypothesis EP : prios s' = prios (sch kf).
Hypothesis EN : nests s' = <[td := 0]> (nests (sch kf)).
Hypothesis Ei : idle_thread s' = idle_thread (sch kf).
Hypothesis Hmo : m_owner y = owner_word td true.
Hypothesis Hcnt : m_count y = 0.
Hypothesis Ha : address td.

Lemma released_used g z : ts_state z = USED_BLOCKED -> tss kf !! g = Some z <-> tss k !! g = Some z /\ g <> q.
Proof.
  intros Hz. rewrite (rl_ts _ R). case_decide as Hd.
  - split; [intros [= <-]; done|]. intros [Hg Hne]. apply elem_of_app in Hd as [Hd|Hd]; [|set_solver]. assert (tss k !! g = Some ts_lent) as E by (apply (so_free _ _ _ S g q); by exists x). rewrite Hg in E. by injection E as ->.
  - split; [|by intros [? _]]. intros Hg. split; [done|]. intros ->. apply Hd, elem_of_app. right. by left.
Qed.

Lemma released_mtx : mtx_ok (keys (sch kf)) (tss kf) (mtxs kf).
Proof.
  destruct (rl_rest _ R) as [-> _]. pose proof (li_mtx _ _ L) as [M1 M2 M3 M4 M5 M6].
  assert (forall o v, K !! o = Some v -> k_kind v <> Other -> exists v', keys (sch kf) !! o = Some v' /\ k_kind v' <> Other) as HO.
  { intros o v Hv Hk. destruct (decide (o ∈ ts_blocked x)) as [Hb|Hb]; [destruct (rl_woken _ R o v Hb Hv) as (v' & Hv' & E); exists v'; split; [done|congruence]|]. destruct (decide (o = td)) as [->|Hne]; [|exists v; by rewrite (rl_other _ R)].
    exists (drop_contested q (key_of t)). split; [apply (rl_self _ R)|]. cbn. by rewrite Hrun. }
  split.
  - intros m' z. destruct (decide (m' = m)) as [->|Hne]; [rewrite lookup_insert_eq; intros [= <-]; by left|rewrite lookup_insert_ne by done; intros Hz]. destruct (M1 m' z Hz) as [E|(o & v & c & Hv & Hk & E)]; [by left|right]. destruct (HO o v Hv Hk) as (v' & Hv' & Hk'). by exists o, v', c.
  - intros g z Hz Hs. apply (released_used g z Hs) in Hz as [Hz Hne]. destruct (M2 g z Hz Hs) as (y' & Hy' & E). exists y'. rewrite lookup_insert_ne; [done|]. intros Em. apply Hne. apply (so_mutex _ _ _ S g q m); [by exists z|by exists x].
  - intros m' z. destruct (decide (m' = m)) as [->|Hne]; [rewrite lookup_insert_eq; by intros [= <-]|rewrite lookup_insert_ne by done; intros Hz Hf]. destruct (M3 m' z Hz Hf) as (g & z' & Hg & Hs & Em). exists g, z'. split; [|done]. apply (released_used g z' Hs). split; [done|]. intros ->. congruence.
  - intros m' z. destruct (decide (m' = m)) as [->|Hne]; [rewrite lookup_insert_eq; intros [= <-]; cbn [m_count]; rewrite Hcnt; done|rewrite lookup_insert_ne by done; apply M4].
  - intros o Ho. apply M5. destruct (decide (o ∈ ts_blocked x)) as [Hb|Hb]; [apply (so_blocked _ _ _ S q x o Hx Hst) in Hb as (v & Hv & _); by exists v|]. destruct (decide (o = td)) as [->|Hne]; [by rewrite (keys_lookup _ _ _ Ht)|]. by rewrite (rl_other _ R) in Ho.
  - rewrite lookup_insert_ne; [done|]. intros ->. congruence.
Qed.

Lemma released_frames : frames_ok rank (keys (sch kf)) (nests s') (mtxs kf) (delete td (frames k)) (idle_thread (sch k)).
Proof.
  destruct (rl_rest _ R) as [-> _]. apply (frames_update rank K _ (nests (sch k)) _ (mtxs k) _ (frames k) _ _ td (drop_contested q (key_of t))); try apply L; try done; [|apply (rl_self _ R)|].
  - destruct (others_mtx td K (nests (sch k)) (nests s') (mtxs k) (frames k) (delete td (frames k)) m y (Mtx (m_recursive y) (m_count y) 0)) as [_ _ O2 O3 O4 O5 O6]; try done.
    + intros o Ho. by rewrite EN, (rl_nests _ R), HN1, !lookup_insert_ne.
    + intros o Ho. by rewrite lookup_delete_ne.
    + intros o c Hao Hne. split; [rewrite Hmo; intros E; apply owner_word_inj in E as [? _]; [by apply Hne|done|done]|]. cbn. pose proof (owner_word_pos o c Hao). lia.
    + split; try done.
      * intros o u Ho Hu Hb. destruct (decide (o ∈ ts_blocked x)) as [Hin|Hin]; [|rewrite (rl_other _ R) in Hu by done; by exists u].
        pose proof Hin as Hin'. apply (so_blocked _ _ _ S q x o Hx Hst) in Hin' as (v & Hv & _). destruct (rl_woken _ R o v Hin Hv) as (v' & Hv' & E). congruence.
      * intros o u0 Ho Hu Hb. destruct (decide (o ∈ ts_blocked x)) as [Hin|Hin]; [|exists u0; by rewrite (rl_other _ R)]. destruct (rl_woken _ R o u0 Hin Hu) as (v' & Hv' & E). exists v'. split; [done|congruence].
  - rewrite lookup_delete_eq, EN, lookup_insert_eq. split; try done; try (cbn; by rewrite Hrun). by intros d [= <-].
Qed.

Lemma released_prio : ~ nested_lending k m -> prio_inv (prios s') (tss kf).
Proof.
  intros Hn. rewrite EP, (rl_prios _ R). destruct (li_prio _ _ L) as [[Pb] Ps Pl]. destruct (si_prio _ (li_sched _ _ L) td t Ht) as [_ Hbase].
  assert (forall o, o <> td -> pr (<[td := Prio (td_base_prio t) (td_base_prio t) false]> (prios (sch k))) o = pr (prios (sch k)) o) as Hpr by (intros o Ho; unfold pr; by rewrite lookup_insert_ne).
  assert (forall g z, tss k !! g = Some z -> ts_state z = USED_BLOCKED -> td ∉ ts_blocked z) as Hnb.
  { intros g z Hg Hs Hin. apply (so_blocked _ _ _ S g z td Hg Hs) in Hin as (v & Hv & Eb). rewrite (keys_lookup _ _ _ Ht) in Hv. injection Hv as <-. destruct (own_ts _ _ _ S td (key_of t) (keys_lookup _ _ _ Ht)) as (_ & _ & E0); [cbn; by rewrite Hrun|].
    rewrite E0 in Eb. by rewrite <- Eb, (so_null _ _ _ S) in Hg. }
  split.
  - split. intros o v. destruct (decide (o = td)) as [->|Ho]; [rewrite lookup_insert_eq; intros [= <-]; cbn; split; [lia|done]|rewrite lookup_insert_ne by done; apply Pb].
  - intros g z Hz Hs. apply (released_used g z Hs) in Hz as [Hz _]. apply (sorted_ext (prios (sch k))); [|by apply (Ps g)]. intros o Ho. apply Hpr. intros ->. by apply (Hnb g z Hz Hs).
  - intros g z b Hz Hs Hb. apply (released_used g z Hs) in Hz as [Hz Hne]. rewrite (Hpr b) by (intros ->; by apply (Hnb g z Hz Hs)). destruct (decide (ts_owner z = td)) as [Eo|Ho]; [|rewrite Hpr by done; by apply (Pl g)].
    rewrite Eo. unfold pr at 1. rewrite lookup_insert_eq. cbn. apply Z.nlt_ge. intros Hlt. apply Hn. exists g, z, b, t. split_and!; try done. intros Ew. apply Hne. apply (so_mutex _ _ _ S g q m); [by exists z|by exists x].
Qed.

Lemma released_inv : ~ nested_lending k m -> locks_inv rank (set_sch s' (drop_frame kf td)).
Proof.
  intros Hn. destruct (rl_rest _ R) as [_ Efr]. destruct (rl_sched _ R) as (_ & _ & Eid). split; cbn [sch set_sch tss turnstile_chains mtxs frames drop_frame set_frames]; rewrite ?EK, ?Ei, ?Eid, ?Efr; try done.
  - apply (rl_ok _ R).
  - apply released_mtx.
  - apply released_frames.
  - by apply released_prio.
Qed.
End done.
End releasing.

Section release.
Context (rank : Z -> Z) (k : locks) (m : Z).
Hypothesis L : locks_inv rank k.
Hypothesis Hf : frames k !! curthread (sch k) = Some (Releasing m).

Definition contested : Prop := exists y, mtxs k !! m = Some y /\ flag_on (m_owner y) MTX_CONTESTED = true.

(** What is known when the owner comes to the broadcast *)
Lemma release_start : exists t y c s1, let td := curthread (sch k) in threads (sch k) !! td = Some t /\ kind_of (td_state t) = Runnable /\ mtxs k !! m = Some y /\ m_owner y = owner_word td c /\ m_count y = 0 /\ address td /\ td <> idle_thread (sch k) /\
  preempt_disable (sch k) = Ok s1 /\ curthread s1 = td /\ sched_inv s1 /\ idle_thread s1 = idle_thread (sch k) /\ threads s1 = <[td := set_td_pdnest 1 t]> (threads (sch k)) /\ keys s1 = keys (sch k) /\ prios s1 = prios (sch k) /\ nests s1 = <[td := 1]> (nests (sch k)).
Proof.
  destruct (self_key rank k L) as (t & Ht & HK & Hrun & Hn & Ha). rewrite Hf in Hn. destruct (fr_release _ _ _ _ _ _ (li_frames _ _ L) _ m Hf) as [(y & c & Hy & Ey & _) Hc].
  destruct (disable_spec _ t (li_sched _ _ L) Ht Hn) as (s1 & E & I1 & HK1 & HP1 & HN1 & Hc1 & Hi1 & Hth1). exists t, y, c, s1. split_and!; try done; [by apply Hc|by apply (self_busy rank k L (Releasing m))].
Qed.

Lemma release_ts y : mtxs k !! m = Some y -> m_owner y = owner_word (curthread (sch k)) true -> address (curthread (sch k)) ->
  exists q x, tss k !! q = Some x /\ ts_state x = USED_BLOCKED /\ ts_wchan x = m /\ ts_owner x = curthread (sch k).
Proof.
  intros Hy Ey Ha. destruct (mo_contested _ _ _ (li_mtx _ _ L) m y Hy) as (q & x & Hx & Hst & Hw); [rewrite Ey; by apply owner_word_flag|]. exists q, x. split_and!; try done.
  destruct (mo_used _ _ _ (li_mtx _ _ L) q x Hx Hst) as (y' & Hy' & E). rewrite Hw in Hy'. assert (y' = y) as -> by congruence. rewrite Ey in E. apply owner_word_inj in E as [? _]; [done|done|]. apply (mo_address _ _ _ (li_mtx _ _ L)). by apply (so_used _ _ _ (li_ts _ _ L) q x).
Qed.

Lemma release_waiter b t : threads (sch k) !! b = Some t -> td_state t = TDS_BLOCKED -> td_wchan t = m -> exists q x, tss k !! q = Some x /\ ts_state x = USED_BLOCKED /\ ts_wchan x = m /\ b ∈ ts_blocked x.
Proof.
  intros Ht Hb Hw. destruct (blocked_ts _ _ _ (li_ts _ _ L) b _ (keys_lookup _ _ _ Ht)) as (x & Hx & Hst & Hwx & Hin & _); [cbn; by rewrite Hb|]. cbn in Hwx, Hx. exists (td_blocked t), x. split_and!; congruence.
Qed.

(** The mutex is free and the threads that waited for it can run. *)
Definition freed k' : Prop :=
  (exists y, mtxs k' !! m = Some y /\ m_owner y = 0) /\
  forall b t, threads (sch k) !! b = Some t -> td_state t = TDS_BLOCKED -> td_wchan t = m -> exists t', threads (sch k') !! b = Some t' /\ kind_of (td_state t') = Runnable.

Lemma mtx_release_spec : ~ (contested /\ nested_lending k m) -> exists k', mtx_release k m = Ok k' /\ locks_inv rank k' /\ freed k'.
Proof.
  intros Hsafe. destruct release_start as (t & y & c & s1 & Ht & Hrun & Hy & Ey & Hcnt & Ha & Hi & Ed & Hc1 & I1 & Hi1 & Hth1 & HK1 & HP1 & HN1). unfold mtx_release, on_sch, thread_self. rewrite Ed. cbn [mbind outcome_bind]. rewrite (get_mtx_some (set_sch s1 k) m y Hy). cbn [mbind outcome_bind].
  rewrite Ey, owner_word_flag by done. assert (threads s1 !! curthread s1 = Some (set_td_pdnest 1 t)) as Ht1 by (rewrite Hth1, Hc1; apply lookup_insert_eq). destruct c; cbn [mbind outcome_bind].
  - destruct (release_ts y Hy Ey Ha) as (q & x & Hx & Hst & Hw & Ho). assert (~ nested_lending k m) as Hn by (intros H; apply Hsafe; split; [exists y; rewrite Ey, owner_word_flag by done; done|done]).
    edestruct (turnstile_broadcast_spec rank k m t y s1 q x L) as (kf & -> & R); try done. cbn [mbind outcome_bind sch drop_frame set_frames]. pose proof (rl_sched _ _ _ _ _ _ _ _ R) as (If & Ecf & _). pose proof (rl_nests _ _ _ _ _ _ _ _ R) as EN.
    assert (exists tf, threads (sch kf) !! curthread (sch kf) = Some tf /\ td_pdnest tf = 1) as (tf & Htf & Hnf).
    { destruct (si_self _ If) as (tf & Htf & _). exists tf. split; [done|]. pose proof (nests_lookup _ _ _ Htf) as E. rewrite EN, HN1, Ecf, lookup_insert_eq in E. congruence. }
    destruct (enable_spec _ tf If Htf Hnf) as (s' & -> & I' & EK & EP & EN' & Ei). cbn [mbind outcome_bind]. eexists. split; [done|]. rewrite Ecf in EN'. split; [by apply (released_inv rank k m t y s1 q x L)|].
    split; [cbn; rewrite (proj1 (rl_rest _ _ _ _ _ _ _ _ R)), lookup_insert_eq; by eexists|]. intros b tb Htb Hb Hwb. destruct (release_waiter b tb Htb Hb Hwb) as (q' & x' & Hx' & Hst' & Hw' & Hin').
    assert (q' = q) as -> by (apply (so_mutex _ _ _ (li_ts _ _ L) q' q m); [by exists x'|by exists x]). assert (x' = x) as -> by congruence. destruct (rl_woken _ _ _ _ _ _ _ _ R b _ Hin' (keys_lookup _ _ _ Htb)) as (v' & Hv' & Ekv).
    cbn. rewrite <- EK in Hv'. apply keys_inv in Hv' as (t' & Ht' & ->). by exists t'.
  - cbn [sch drop_frame set_frames put_mtx set_mtxs set_sch]. destruct (enable_spec s1 _ I1 Ht1 eq_refl) as (s' & -> & I' & EK & EP & EN & Ei). cbn [mbind outcome_bind]. eexists. split; [done|]. rewrite Hc1, HN1, insert_insert_eq in EN.
    split; [|split; [cbn; rewrite lookup_insert_eq; by eexists|]; intros b tb Htb Hb Hwb; exfalso; destruct (release_waiter b tb Htb Hb Hwb) as (q' & x' & Hx' & Hst' & Hw' & _);
      destruct (mo_used _ _ _ (li_mtx _ _ L) q' x' Hx' Hst') as (y' & Hy' & E'); rewrite Hw' in Hy'; assert (y' = y) as -> by congruence; rewrite Ey in E'; apply owner_word_inj in E' as [_ ?]; [done|done|];
      apply (mo_address _ _ _ (li_mtx _ _ L)); by apply (so_used _ _ _ (li_ts _ _ L) q' x')].
    apply (quiet_inv rank k _ (curthread (sch k)) (key_of t)); try done; try (cbn; congruence); cbn [mtxs set_frames put_mtx set_mtxs sch frames tss set_sch drop_frame].
    + by apply keys_lookup.
    + apply (put_mtx_ok rank k L m y); auto; cbn; rewrite ?Hcnt; done || lia.
    + apply (put_mtx_others rank k L m y); auto; intros o Ho; [by rewrite EN, lookup_insert_ne|by rewrite lookup_delete_ne].
    + rewrite lookup_delete_eq, EN, lookup_insert_eq. split; try done; try (cbn; by rewrite Hrun). by intros d [= <-].
Qed.

Lemma mtx_release_fails : contested -> nested_lending k m -> mtx_release k m = Fault AssertFailed.
Proof.
  intros (y0 & Hy0 & Hfl) Hn. destruct release_start as (t & y & c & s1 & Ht & Hrun & Hy & Ey & Hcnt & Ha & Hi & Ed & Hc1 & I1 & Hi1 & Hth1 & HK1 & HP1 & HN1). assert (y0 = y) as -> by congruence. rewrite Ey, owner_word_flag in Hfl by done. subst c.
  unfold mtx_release, on_sch, thread_self. rewrite Ed. cbn [mbind outcome_bind]. rewrite (get_mtx_some (set_sch s1 k) m y Hy). cbn [mbind outcome_bind]. rewrite Ey, owner_word_flag by done.
  destruct (release_ts y Hy Ey Ha) as (q & x & Hx & Hst & Hw & Ho). rewrite (broadcast_fails rank k m t y s1 q x L); done.
Qed.
End release.

(** A contested mutex is being released by a thread whose priority the waiters of another
    one have raised. *)
Definition nested_release k : Prop := exists m, frames k !! curthread (sch k) = Some (Releasing m) /\ contested k m /\ nested_lending k m.

#[export] Instance nested_release_dec k : Decision (nested_release k).
Proof.
  destruct (frames k !! curthread (sch k)) as [[m w|m w|m w|m]|] eqn:E; try (right; intros (m' & E' & _); congruence).
  destruct (decide (match mtxs k !! m with Some y => flag_on (m_owner y) MTX_CONTESTED | None => false end = true /\ nested_lending k m)) as [[Hc Hn]|H]; [left|right].
  - exists m. split; [done|]. split; [|done]. unfold contested. destruct (mtxs k !! m) as [y|]; [by exists y|done].
  - intros (m' & E' & (y & Hy & Hc) & Hn). assert (m' = m) as -> by congruence. apply H. by rewrite Hy.
Defined.

(** ** Setting a priority *)

Section set_prio.
Context (rank : Z -> Z) (k : locks) (td p : Z) (t : thread).
Hypothesis L : locks_inv rank k.
Hypothesis Ht : threads (sch k) !! td = Some t.
Hypothesis Hi : td <> idle_thread (sch k).
Hypothesis Hp : 0 <= p < 256.
Let s := sch k.
Let P := prios s.
Let t1 := set_td_base_prio p t.
Let s1 := set_threads (<[td := t1]> (threads s)) s.

(** The new priority is not below the one of a thread that waits for [td]. *)
Definition above_waiters : Prop := forall q x b, tss k !! q = Some x -> ts_state x = USED_BLOCKED -> ts_owner x = td -> b ∈ ts_blocked x -> p <= pr P b.

Lemma set_base : sched_inv s1 /\ keys s1 = keys s /\ prios s1 = <[td := Prio (td_prio t) p (td_is_borrowing t)]> P /\ nests s1 = nests s.
Proof.
  destruct (views_update s s1 td t1 eq_refl) as (V1 & V2 & V3). split; [by apply (upd_inv s td t); [apply L|..]|]. rewrite V1, V2, V3. split; [exact (insert_id _ _ _ (keys_lookup s td t Ht))|]. split; [done|exact (insert_id _ _ _ (nests_lookup s td t Ht))].
Qed.

Lemma pr_insert o v : pr (<[td := v]> P) o = if decide (o = td) then v_prio v else pr P o.
Proof. unfold pr. case_decide as Hd; [subst o; by rewrite lookup_insert_eq|by rewrite lookup_insert_ne]. Qed.

(** The thread keeps the higher priority it has been lent. *)
Lemma keep_lent : td_is_borrowing t = true -> td_prio t < p -> locks_inv rank (set_sch s1 k).
Proof.
  intros Hb Hlt. destruct set_base as (I1 & EK & EP & EN). assert (forall o, pr (prios s1) o = pr P o) as Hpr.
  { intros o. rewrite EP, pr_insert. case_decide as Hd; [|done]. subst o. unfold pr, P. by rewrite (prios_lookup s td t Ht). }
  destruct (li_prio _ _ L) as [[Pb] Ps Pl]. split; cbn [sch set_sch tss turnstile_chains mtxs frames]; rewrite ?EK, ?EN; try apply L; try done. split.
  - split. intros o v. rewrite EP. destruct (decide (o = td)) as [->|Ho]; [rewrite lookup_insert_eq; intros [= <-]; cbn; split; [lia|congruence]|rewrite lookup_insert_ne by done; apply Pb].
  - intros q x Hx Hst. apply (sorted_ext P); [done|by apply (Ps q)].
  - intros q x b Hx Hst Hin. rewrite !Hpr. by apply (Pl q x).
Qed.

(** The thread gets the priority. *)
Definition reprioritised k' : Prop := tss k' = tss k /\ turnstile_chains k' = turnstile_chains k /\ mtxs k' = mtxs k /\ frames k' = frames k /\ sched_inv (sch k') /\ keys (sch k') = keys s /\
  prios (sch k') = <[td := Prio p p (td_is_borrowing t)]> P /\ nests (sch k') = nests s /\ idle_thread (sch k') = idle_thread s /\ curthread (sch k') = curthread s.

Lemma set_active : exists s', sched_set_active_prio s1 td p = Ok s' /\ reprioritised (set_sch s' k).
Proof.
  destruct set_base as (I1 & EK & EP & EN). destruct (active_spec s1 s1 td t1 p) as (s' & s0' & E & Sh & Es & Ec & Ei & Hth); try done; [split; [done|by left]|apply lookup_insert_eq|by left|].
  exists s'. split; [done|]. cbn in Hth. rewrite insert_insert_eq in Hth. destruct (views_update s s' td _ Hth) as (V1 & V2 & V3). unfold reprioritised. cbn [sch set_sch tss turnstile_chains mtxs frames]. rewrite V1, V2, V3. split_and!; try done.
  - rewrite (Es eq_refl). apply Sh.
  - exact (insert_id _ _ _ (keys_lookup s td t Ht)).
  - exact (insert_id _ _ _ (nests_lookup s td t Ht)).
Qed.

(** All but the order of the queue of [td] and what it lends *)
Lemma reprioritised_inv k' : reprioritised k' -> above_waiters -> td_state t <> TDS_BLOCKED \/ p = td_prio t -> locks_inv rank k'.
Proof.
  intros (E1 & E2 & E3 & E4 & I' & EK & EP & EN & Ei & _) Ha Hnb. destruct (li_prio _ _ L) as [[Pb] Ps Pl]. split; rewrite ?EK, ?EN, ?Ei, ?E1, ?E2, ?E3, ?E4; try apply L; try done. rewrite EP.
  assert (forall q x o, tss k !! q = Some x -> ts_state x = USED_BLOCKED -> o ∈ ts_blocked x -> pr (<[td := Prio p p (td_is_borrowing t)]> P) o = pr P o) as Hpr.
  { intros q x o Hx Hst Ho. rewrite pr_insert. case_decide as Hd; [|done]. subst o. unfold pr, P. rewrite (prios_lookup s td t Ht). cbn. destruct Hnb as [Hnb|Hnb]; [|done]. exfalso.
    apply (so_blocked _ _ _ (li_ts _ _ L) q x td Hx Hst) in Ho as (v & Hv & Eb). rewrite (keys_lookup _ _ _ Ht) in Hv. injection Hv as <-. destruct (so_view _ _ _ (li_ts _ _ L) td _ (keys_lookup _ _ _ Ht)) as [[_ Hk] _].
    cbn in Hk, Eb. rewrite Eb in Hk. assert (q <> 0) as Hq by (intros ->; by rewrite (so_null _ _ _ (li_ts _ _ L)) in Hx). apply Hk in Hq. by destruct (td_state t). }
  split.
  - split. intros o v. destruct (decide (o = td)) as [->|Ho]; [rewrite lookup_insert_eq; intros [= <-]; cbn; split; [lia|done]|rewrite lookup_insert_ne by done; apply Pb].
  - intros q x Hx Hst. apply (sorted_ext P); [|by apply (Ps q)]. intros o Ho. by apply (Hpr q x).
  - intros q x b Hx Hst Hb. rewrite (Hpr q x b Hx Hst Hb), pr_insert. case_decide as Hd; [cbn; by apply (Ha q x)|by apply (Pl q x)].
Qed.

(** A blocked thread is moved on its queue, and lends its priority if it is the first. *)
Section adjusting.
Context (kb : locks) (q : Z) (x : turnstile) (l : list Z).
Hypothesis R : reprioritised kb.
Hypothesis Ha : above_waiters.
Hypothesis Hx : tss k !! q = Some x.
Hypothesis Hst : ts_state x = USED_BLOCKED.
Hypothesis Hin : td ∈ ts_blocked x.
Hypothesis Hl : l ≡ₚ ts_blocked x.
Let P' := <[td := Prio p p (td_is_borrowing t)]> P.
Hypothesis Hs : sorted P' l.
Let ka := put_ts kb q (set_blocked l x).

Lemma adjusting_pr o : pr P' o = if decide (o = td) then p else pr P o.
Proof. unfold P'. by rewrite pr_insert. Qed.

Lemma adjusting_ts q' z : tss ka !! q' = Some z -> ts_state z = USED_BLOCKED -> q' = q /\ z = set_blocked l x \/ q' <> q /\ tss k !! q' = Some z /\ td ∉ ts_blocked z.
Proof.
  destruct R as (E1 & _). unfold ka. cbn. rewrite E1. destruct (decide (q' = q)) as [->|Hne]; [rewrite lookup_insert_eq; intros [= <-]; by left|rewrite lookup_insert_ne by done; intros Hz Hs']. right. split_and!; try done.
  intros Hin'. apply (so_blocked _ _ _ (li_ts _ _ L) q' z td Hz Hs') in Hin' as (v & Hv & Eb). apply (so_blocked _ _ _ (li_ts _ _ L) q x td Hx Hst) in Hin as (v' & Hv' & Eb'). congruence.
Qed.

Lemma adjusting_same : resorted (tss k) (tss ka) /\ keys (sch ka) = keys s /\ prios (sch ka) = P' /\ nests (sch ka) = nests s /\ sched_inv (sch ka) /\ idle_thread (sch ka) = idle_thread s /\ mtxs ka = mtxs k /\ frames ka = frames k /\ turnstile_chains ka = turnstile_chains k.
Proof. destruct R as (E1 & E2 & E3 & E4 & I' & EK & EP & EN & Ei & _). split_and!; try done. unfold ka. cbn. rewrite E1. by apply resorted_put. Qed.

Lemma adjusting_base : base_ok P' /\ forall q' z, tss ka !! q' = Some z -> ts_state z = USED_BLOCKED -> sorted P' (ts_blocked z).
Proof.
  destruct (li_prio _ _ L) as [[Pb] Ps Pl]. split.
  - split. intros o v. unfold P'. destruct (decide (o = td)) as [->|Ho]; [rewrite lookup_insert_eq; intros [= <-]; cbn; split; [lia|done]|rewrite lookup_insert_ne by done; apply Pb].
  - intros q' z Hz Hs'. destruct (adjusting_ts q' z Hz Hs') as [[-> ->]|(_ & Hz' & Hni)]; [done|]. apply (sorted_ext P); [|by apply (Ps q')]. intros o Ho. rewrite adjusting_pr, decide_False; [done|]. intros ->. done.
Qed.

(** The owners have the priorities of all threads but [td]. *)
Lemma adjusting_lent q' z b : tss ka !! q' = Some z -> ts_state z = USED_BLOCKED -> b ∈ ts_blocked z -> b <> td -> pr P' (ts_owner z) <= pr P' b.
Proof.
  intros Hz Hs' Hb Hne. rewrite !adjusting_pr, (decide_False (P := b = td)) by done. assert (exists z', tss k !! q' = Some z' /\ ts_state z' = USED_BLOCKED /\ b ∈ ts_blocked z' /\ ts_owner z' = ts_owner z) as (z' & Hz' & Hst' & Hb' & Eo).
  { destruct (adjusting_ts q' z Hz Hs') as [[-> ->]|(_ & Hz' & _)]; [|by exists z]. exists x. cbn in Hb. rewrite Hl in Hb. done. }
  rewrite <- Eo. case_decide as Hd; [by apply (Ha q' z')|by apply (pi_lent _ _ (li_prio _ _ L) q' z')].
Qed.

Lemma adjusted_inv : pr P' (ts_owner x) <= p -> locks_inv rank ka.
Proof.
  intros Hle. destruct adjusting_same as (Rs & EK & EP & EN & I' & Ei & E3 & E4 & E2). destruct adjusting_base as [B1 B2]. split; rewrite ?EK, ?EN, ?Ei, ?E3, ?E4, ?E2; try done; [by apply (ts_resorted _ (tss k)); [|apply L]|by apply (mtx_resorted _ (tss k)); [|apply L]|apply L|].
  rewrite EP. split; [done|done|]. intros q' z b Hz Hs' Hb. destruct (decide (b = td)) as [->|Hne]; [|by apply (adjusting_lent q' z b)]. destruct (adjusting_ts q' z Hz Hs') as [[-> ->]|(_ & _ & Hni)]; [|done]. cbn. rewrite (adjusting_pr td), decide_True by done. done.
Qed.

Lemma adjusted_lends : exists k', propagate_priority ka td = Ok k' /\ locks_inv rank k'.
Proof.
  destruct adjusting_same as (Rs & EK & EP & EN & I' & Ei & E3 & E4 & E2). destruct adjusting_base as [B1 B2].
  assert (ts_ok (keys s) (tss ka) (turnstile_chains k)) as S' by (by apply (ts_resorted _ (tss k)); [|apply L]). assert (mtx_ok (keys s) (tss ka) (mtxs k)) as M' by (by apply (mtx_resorted _ (tss k)); [|apply L]). set (x' := set_blocked l x).
  assert (tss ka !! q = Some x') as Hxa by apply lookup_insert_eq. destruct (owner_ok rank (keys s) _ _ _ _ _ (li_frames _ _ L) _ q x' S' M' Hxa Hst) as (vo & Hvo & Hvk & Hoi & Ho0).
  assert (lending rank (keys s) (turnstile_chains k) (mtxs k) (idle_thread s) ka (sch ka) (ts_owner x) p (rank (ts_wchan x))) as Le.
  { split; try done; try (by rewrite EP); [split; [done|by left]| |lia| |by left].
    - intros q' z b Hz Hs' Hb. rewrite EP. destruct (decide (b = td)) as [->|Hne]; [|left; by apply (adjusting_lent q' z b)]. right. destruct (adjusting_ts q' z Hz Hs') as [[-> ->]|(_ & _ & Hni)]; [|done]. split; [done|]. rewrite adjusting_pr, decide_True by done. lia.
    - exists vo. split_and!; try done. intros Hkb. exact (chain_step rank (keys s) _ _ _ _ _ (li_frames _ _ L) (tss ka) q x' vo S' M' Hxa Hst Hvo Hkb). }
  assert (keys (sch ka) !! td = Some (key_of t)) as HKt by (rewrite EK; by apply keys_lookup). apply keys_inv in HKt as (ta & Hta & Eka). assert (prios (sch ka) !! td = Some (Prio p p (td_is_borrowing t))) as HPt by (rewrite EP; apply lookup_insert_eq).
  rewrite (prios_lookup _ _ _ Hta) in HPt. assert (td_blocked ta = q) as Eq. { apply (so_blocked _ _ _ (li_ts _ _ L) q x td Hx Hst) in Hin as (v & Hv & <-). rewrite (keys_lookup _ _ _ Ht) in Hv. injection Hv as <-. rewrite Eka. done. }
  unfold propagate_priority. rewrite (thr_some _ _ _ Hta). cbn [mbind outcome_bind]. rewrite Eq, (acquire_spec ka q x' vo Hxa Hst Ho0) by (try done; by rewrite EK). cbn [mbind outcome_bind]. change (ts_owner x') with (ts_owner x). assert (td_prio ta = p) as -> by (unfold prio_of in HPt; congruence).
  destruct (propagate_spec rank (keys s) _ _ _ _ _ (li_frames _ _ L) (Datatypes.S (size (threads (sch ka)))) ka (sch ka) (ts_owner x) p _ Le) as (k' & s0' & -> & Sh & Es & Ih & Pi).
  { unfold above. pose proof (map_size_filter (M := gmap Z) (fun kv : Z * wkey => k_kind kv.2 = Blocked /\ rank (ts_wchan x) < rank (k_wchan kv.2)) (keys s)) as Hsz. rewrite <- EK in Hsz |- *. unfold keys in *. rewrite map_size_fmap in Hsz. lia. }
  exists k'. split; [done|]. apply (inherited_inv rank ka k' Ih); rewrite ?EK, ?EN, ?Ei, ?E3, ?E4, ?E2; try done; [rewrite (Es eq_refl); apply Sh|apply L].
Qed.
End adjusting.

Lemma turnstile_adjust_spec kb : reprioritised kb -> above_waiters -> td_state t = TDS_BLOCKED -> exists k', turnstile_adjust kb td (td_prio t) = Ok k' /\ locks_inv rank k'.
Proof.
  intros R Ha Hb. pose proof R as (E1 & E2 & E3 & E4 & I' & EK & EP & EN & Ei & _). assert (keys (sch kb) !! td = Some (key_of t)) as HK by (rewrite EK; by apply keys_lookup). apply keys_inv in HK as (tb & Htb & Ek).
  assert (td_blocked tb = td_blocked t /\ kind_of (td_state tb) = Blocked) as [Eb Ekb] by (injection Ek as Ek1 Ek2 _ _ _; rewrite Hb in Ek1; done). assert (td_state tb = TDS_BLOCKED) as Hbb by (by destruct (td_state tb)).
  pose proof (prios_lookup _ _ _ Htb) as HP. rewrite EP, lookup_insert_eq in HP. assert (td_prio tb = p) as Epb by (unfold prio_of in HP; congruence).
  destruct (blocked_ts _ _ _ (li_ts _ _ L) td (key_of t) (keys_lookup _ _ _ Ht)) as (x & Hx & Hst & _ & Hin & _ & Hq0); [cbn; by rewrite Hb|]. cbn [k_blocked key_of] in Hx, Hq0. set (q := td_blocked t) in *.
  unfold turnstile_adjust. rewrite (thr_some _ _ _ Htb). cbn [mbind outcome_bind]. unfold td_is_blocked, td_is. rewrite bool_decide_true by done. cbn [assert mbind outcome_bind]. rewrite Eb, (proj2 (Z.eqb_neq _ _) Hq0). cbn [negb assert mbind outcome_bind].
  assert (tss kb !! q = Some x) as Hxb by (by rewrite E1). rewrite (get_ts_some _ _ _ Hxb). cbn [mbind outcome_bind]. unfold is_state. rewrite bool_decide_true by done. cbn [assert mbind outcome_bind].
  assert (pr P td = td_prio t) as Ept by (unfold pr, P; by rewrite (prios_lookup s td t Ht)). destruct (so_used _ _ _ (li_ts _ _ L) q x Hx Hst) as (_ & Hnd & _).
  destruct (adjust_spec kb q td x Hxb Hst Hin) with (P0 := P) (t := tb) (oldprio := td_prio t) as (l & -> & Hl & Hs); try done.
  { intros b Hbl. apply (so_blocked _ _ _ (li_ts _ _ L) q x b Hx Hst) in Hbl as (v & Hv & _). unfold s in EK. rewrite <- EK in Hv. apply keys_inv in Hv as (tb' & -> & _). by eexists. }
  { by apply (pi_sorted _ _ (li_prio _ _ L) q). }
  { intros y Hy. rewrite EP, pr_insert. by rewrite decide_False. }
  rewrite EP in Hs. cbn [mbind outcome_bind]. rewrite (get_ts_some _ q (set_blocked l x)) by apply lookup_insert_eq. cbn [mbind outcome_bind ts_blocked set_blocked]. rewrite Epb. unfold prio_gt.
  destruct (bool_decide (head l = Some td) && (p <? td_prio t)) eqn:Ec; [by apply (adjusted_lends kb q x l)|]. eexists. split; [done|]. apply (adjusted_inv kb q x l); try done. rewrite pr_insert. destruct (decide (ts_owner x = td)) as [Hd|Hd]; [apply Z.le_refl|].
  apply andb_false_iff in Ec as [Ec|Ec].
  - apply bool_decide_eq_false in Ec. destruct l as [|h l']; [rewrite <- Hl in Hin; by apply not_elem_of_nil in Hin|]. assert (h <> td) as Hh by (intros ->; done). assert (h ∈ ts_blocked x) as Hhb by (rewrite <- Hl; by left).
    pose proof (pi_lent _ _ (li_prio _ _ L) q x h Hx Hst Hhb) as H1. pose proof (sorted_head _ h l' td Hs ltac:(by rewrite Hl)) as H2. rewrite !pr_insert, decide_False, decide_True in H2 by done. cbn in H2. fold s P in H1. lia.
  - apply Z.ltb_ge in Ec. pose proof (pi_lent _ _ (li_prio _ _ L) q x td Hx Hst Hin) as H1. fold s P in H1. lia.
Qed.

Lemma set_prio_spec : td_is_borrowing t = true /\ td_prio t < p \/ above_waiters -> exists k', set_prio k td p = Ok k' /\ locks_inv rank k'.
Proof.
  intros Hc. unfold set_prio, upd_td, on_sch. rewrite (upd_some (sch k) td t _ Ht). cbn [mbind outcome_bind sch set_sch]. fold s t1 s1. rewrite (thr_some s1 td t1) by apply lookup_insert_eq. cbn [mbind outcome_bind]. unfold prio_gt.
  change (td_prio t1) with (td_prio t). change (td_is_borrowing t1) with (td_is_borrowing t). destruct (td_is_borrowing t && (td_prio t <? p)) eqn:Ek.
  { apply andb_true_iff in Ek as [Eb Ek]. eexists. split; [done|]. apply keep_lent; [done|lia]. }
  assert (above_waiters) as Ha by (destruct Hc as [[Eb Hlt]|Ha]; [rewrite Eb in Ek; cbn in Ek; lia|done]). destruct set_active as (s' & -> & R). cbn [mbind outcome_bind]. unfold td_is_blocked, td_is, prio_ne. change (td_state t1) with (td_state t).
  match goal with |- context [if _ then turnstile_adjust ?kk _ _ else _] => change kk with (set_sch s' k) end. destruct (decide (td_state t = TDS_BLOCKED)) as [Hb|Hb].
  - rewrite bool_decide_true by done. cbn [andb]. destruct (Z.eqb_spec (td_prio t) p) as [E|E]; cbn [negb]; [|by apply turnstile_adjust_spec]. eexists. split; [done|]. apply (reprioritised_inv _ R Ha). by right.
  - rewrite bool_decide_false by done. cbn [andb]. eexists. split; [done|]. apply (reprioritised_inv _ R Ha). by left.
Qed.
End set_prio.

(** ** Sequences of operations *)

(** [LCreate] is the part of [thread_create] that concerns turnstiles, [LStep] a step of the
    running thread inside [_mtx_lock] or [mtx_unlock]. *)
Inductive lock_event :=
| LCreate (td prio sq ts : Z)
| LInit (m : Z) (recursive : bool)
| LLock (m waitpt : Z)
| LUnlock (m : Z)
| LStep
| LSetPrio (td prio : Z)
| LWakeup (td reason : Z)
| LBlock (st : thread_state_t)
| LYield
| LMaybePreempt
| LClock
| LElapse (now : bintime_t).

Definition lock_step k (e : lock_event) : outcome locks :=
  match e with
  | LCreate td prio sq ts =>
      let t := set_td_turnstile ts (set_td_sleepqueue sq (new_thread prio)) in
      Ok (set_sch (set_threads (<[td := t]> (threads (sch k))) (sch k)) (turnstile_alloc k ts))
  | LInit m recursive => Ok (put_mtx k m (mtx_init recursive))
  | LLock m waitpt => mtx_lock k m waitpt
  | LUnlock m => mtx_unlock k m
  | LStep => mtx_step k
  | LSetPrio td prio => set_prio k td prio
  | LWakeup td reason => on_sch k (fun s => sched_wakeup s td reason)
  | LBlock st => on_sch k (fun s => s ← upd s (curthread s) (set_td_state st); '(_, s) ← sched_switch s; Ok s)
  | LYield => on_sch k thread_yield
  | LMaybePreempt => on_sch k sched_maybe_preempt
  | LClock => on_sch k sched_clock
  | LElapse now => on_sch k (fun s => Ok (Sched (threads s) (runq s) (curthread s) (idle_thread s) (sched_active s) (no_switch s) (cpu_intr_off s) now))
  end.

(** The running thread is not inside [_mtx_lock] or [mtx_unlock]. *)
Definition outside k : Prop := frames k !! curthread (sch k) = None /\ curthread (sch k) <> idle_thread (sch k).

(** The callers' side.  New objects have fresh addresses.  Mutexes are locked in the order
    of [rank]; those that are locked again are recursive.  A thread that owns a mutex does
    not sleep, and the idle thread takes none.  The priority of a thread is not lowered while
    others wait for its mutexes, unless it has been lent its priority. *)
Definition lock_event_ok (rank : Z -> Z) k (e : lock_event) : Prop :=
  match e with
  | LCreate td prio sq ts => threads (sch k) !! td = None /\ address td /\ 0 <= prio < 256 /\ tss k !! ts = None /\ ts <> 0
  | LInit m _ => mtxs k !! m = None /\ m <> 0
  | LLock m _ => outside k /\ exists y, mtxs k !! m = Some y /\
      (owned (mtxs k) m (curthread (sch k)) -> m_recursive y = true /\ m_count y < 2 ^ 32 - 1) /\
      (~ owned (mtxs k) m (curthread (sch k)) -> forall m', owned (mtxs k) m' (curthread (sch k)) -> rank m' < rank m)
  | LUnlock m => outside k /\ owned (mtxs k) m (curthread (sch k))
  | LSetPrio td prio => td <> idle_thread (sch k) /\ 0 <= prio < 256 /\ exists t, threads (sch k) !! td = Some t /\
      (td_is_borrowing t = true \/ prio <= td_prio t \/ forall q x, tss k !! q = Some x -> ts_state x = USED_BLOCKED -> ts_owner x <> td)
  | LWakeup td _ => exists t, threads (sch k) !! td = Some t /\ kind_of (td_state t) = Other
  | LBlock st => outside k /\ kind_of st = Other /\ forall m, ~ owned (mtxs k) m (curthread (sch k))
  | _ => True
  end.

Lemma same_inv rank k s' : locks_inv rank k -> sched_inv s' -> same_views (sch k) s' -> idle_thread s' = idle_thread (sch k) -> locks_inv rank (set_sch s' k).
Proof. intros [I S Mo Fr Pi] I' (V1 & V2 & V3) Ei. split; cbn [sch set_sch tss turnstile_chains mtxs frames]; by rewrite ?V1, ?V2, ?V3, ?Ei. Qed.

(** A thread without a frame that owns no mutex is in another state. *)
Lemma frames_free rank K D D' M F idle td v' : frames_ok rank K D M F idle -> F !! td = None -> k_kind v' <> Blocked -> (forall o, o <> td -> D' !! o = D !! o) -> (forall n, D' !! td = Some n -> n = 0) ->
  frames_ok rank (<[td := v']> K) D' M F idle.
Proof.
  intros [F1 F2 F3 F4 F5 F6] Hf Hk HD Hn. split; try done.
  - intros o f Ho. destruct (F1 o f Ho) as (v & Hv & Hkv). exists v. rewrite lookup_insert_ne; [done|]. intros ->. congruence.
  - intros o n. destruct (decide (o = td)) as [->|Ho]; [rewrite Hf; apply Hn|rewrite HD by done; apply F2].
  - intros o v. destruct (decide (o = td)) as [->|Ho]; [rewrite lookup_insert_eq; by intros [= <-] ?|rewrite lookup_insert_ne by done; apply F3].
Qed.

Lemma mtx_keys K K' T M : mtx_ok K T M -> (forall td, is_Some (K' !! td) -> address td) ->
  (forall m o v, owned M m o -> K !! o = Some v -> k_kind v <> Other -> exists v', K' !! o = Some v' /\ k_kind v' <> Other) -> mtx_ok K' T M.
Proof.
  intros [M1 M2 M3 M4 M5 M6] H1 H2. split; try done. intros m y Hy. destruct (M1 m y Hy) as [E|(o & v & c & Hv & Hk & E)]; [by left|right].
  destruct (H2 m o v) as (v' & Hv' & Hk'); try done; [exists y, c; split_and!; try done; apply M5; by exists v|]. by exists o, v', c.
Qed.

Lemma clock_same s : sched_inv s -> exists s', sched_clock s = Ok s' /\ sched_inv s' /\ same_views s s' /\ idle_thread s' = idle_thread s.
Proof.
  intros I. destruct (si_self _ I) as (t & Ht & _). unfold sched_clock, thread_self. destruct (negb _); [|exists s; done]. rewrite (upd_some s _ t _ Ht). eexists. split; [done|]. cbn zeta. destruct (si_prio _ I _ _ Ht) as [_ Hb].
  match goal with |- context [<[_ := ?u]> (threads s)] => set (t' := u) end. assert (key_of t' = key_of t /\ prio_of t' = prio_of t /\ td_pdnest t' = td_pdnest t /\ td_state t' = td_state t) as (E1 & E2 & E3 & E4).
  { unfold t'. destruct (_ <=? 0); [|done]. split_and!; try done. unfold prio_of, td_is_borrowing. cbn. f_equal. change TDF_BORROWING with (2 ^ 4). rewrite !flag_on_bit by lia. unfold flag_set. rewrite Z.lor_spec. by rewrite orb_false_r. }
  destruct (upd_steady s _ t t' I Ht E4 E2 E3) as [[J1 J2 J3 J4 J5] EK]. split_and!; try done. split_and!; [|done|done]. rewrite EK, E1. exact (insert_id _ _ _ (keys_lookup s _ t Ht)).
Qed.

Section step.
Context (rank : Z -> Z) (k : locks).
Hypothesis L : locks_inv rank k.

Lemma lock_create_inv td prio sq ts : lock_event_ok rank k (LCreate td prio sq ts) -> exists k', lock_step k (LCreate td prio sq ts) = Ok k' /\ locks_inv rank k'.
Proof.
  intros (Hn & Ha & Hp & Hts & H0). cbn [lock_step]. set (t := set_td_turnstile ts _). set (s' := set_threads _ _). eexists. split; [done|]. destruct (views_update (sch k) s' td t eq_refl) as (V1 & V2 & V3).
  assert (forall (A : Type) (f : thread -> A), (f <$> threads (sch k)) !! td = None) as HNone by (intros A f; by rewrite lookup_fmap, Hn). assert (frames k !! td = None) as Hf.
  { destruct (frames k !! td) as [f|] eqn:Hf; [|done]. destruct (fr_thread _ _ _ _ _ _ (li_frames _ _ L) td f Hf) as (v & Hv & _). unfold keys in Hv. by rewrite HNone in Hv. }
  split; cbn [sch set_sch tss turnstile_chains mtxs frames turnstile_alloc put_ts set_tss]; rewrite ?V1, ?V2, ?V3.
  - destruct (sched_step_inv (fun s _ _ => Ok s) (sch k) (Spawn td prio) (li_sched _ _ L)) as (s1 & E & I1); [done|]. cbn in E. injection E as <-. pose proof (upd_inv _ td (new_thread prio) t I1 (lookup_insert_eq _ _ _) eq_refl eq_refl Hp) as I2. cbn in I2. by rewrite insert_insert_eq in I2.
  - by apply (spawn_ok _ _ _ (li_ts _ _ L)); [apply HNone|..].
  - destruct (li_mtx _ _ L) as [M1 M2 M3 M4 M5 M6]. apply (mtx_keys (keys (sch k))).
    + split; try done; [intros q x|intros m y Hy Hfl].
      * destruct (decide (q = ts)) as [->|Hne]; [rewrite lookup_insert_eq; by intros [= <-]|rewrite lookup_insert_ne by done; apply M2].
      * destruct (M3 m y Hy Hfl) as (q & x & Hx & HH). exists q, x. rewrite lookup_insert_ne; [done|]. congruence.
    + intros o Ho. apply lookup_insert_is_Some in Ho as [<-|[_ Ho]]; [done|by apply M5].
    + intros m o v _ Hv Hk. exists v. rewrite lookup_insert_ne; [done|]. intros <-. unfold keys in Hv. by rewrite HNone in Hv.
  - apply (frames_free _ _ (nests (sch k))); try done; [apply L| |]; [intros o Ho; by rewrite lookup_insert_ne|rewrite lookup_insert_eq; by intros n [= <-]].
  - destruct (li_prio _ _ L) as [[Pb] Ps Pl]. assert (forall o, is_Some (keys (sch k) !! o) -> pr (<[td := prio_of t]> (prios (sch k))) o = pr (prios (sch k)) o) as Hpr.
    { intros o [v Hv]. unfold pr. rewrite lookup_insert_ne; [done|]. intros <-. unfold keys in Hv. by rewrite HNone in Hv. }
    assert (forall q x, <[ts := turnstile_ctor]> (tss k) !! q = Some x -> ts_state x = USED_BLOCKED -> tss k !! q = Some x) as HT by (intros q x; destruct (decide (q = ts)) as [->|Hne]; [rewrite lookup_insert_eq; by intros [= <-]|by rewrite lookup_insert_ne]).
    assert (forall q x b, tss k !! q = Some x -> ts_state x = USED_BLOCKED -> b ∈ ts_blocked x -> is_Some (keys (sch k) !! b)) as HB by (intros q x b Hx Hst Hb; apply (so_blocked _ _ _ (li_ts _ _ L) q x b Hx Hst) in Hb as (v & Hv & _); by exists v).
    split.
    + split. intros o v. destruct (decide (o = td)) as [->|Ho]; [rewrite lookup_insert_eq; intros [= <-]; cbn; split; [lia|done]|rewrite lookup_insert_ne by done; apply Pb].
    + intros q x Hx Hst. apply HT in Hx; [|done]. apply (sorted_ext (prios (sch k))); [|by apply (Ps q)]. intros o Ho. by apply Hpr, (HB q x).
    + intros q x b Hx Hst Hb. apply HT in Hx; [|done]. rewrite !Hpr; [by apply (Pl q x)|by apply (HB q x)|by apply (so_used _ _ _ (li_ts _ _ L) q x)].
Qed.

Lemma lock_init_inv m rc : lock_event_ok rank k (LInit m rc) -> exists k', lock_step k (LInit m rc) = Ok k' /\ locks_inv rank k'.
Proof.
  intros [Hn H0]. cbn [lock_step]. eexists. split; [done|]. destruct (li_mtx _ _ L) as [M1 M2 M3 M4 M5 M6]. assert (forall m' o, owned (<[m := mtx_init rc]> (mtxs k)) m' o <-> owned (mtxs k) m' o) as HO.
  { intros m' o. rewrite owned_insert. split; [intros [[_ (c & E & Ha)]|[_ ?]]; [cbn in E; pose proof (owner_word_pos o c Ha); lia|done]|]. intros H. right. split; [|done]. intros ->. destruct H as (y & c & Hy & _). congruence. }
  split; cbn [sch put_mtx set_mtxs tss turnstile_chains mtxs frames]; try apply L.
  - split; try done.
    + intros m' y. destruct (decide (m' = m)) as [->|Hne]; [rewrite lookup_insert_eq; intros [= <-]; by left|rewrite lookup_insert_ne by done; apply M1].
    + intros q x Hx Hst. destruct (M2 q x Hx Hst) as (y & Hy & E). exists y. rewrite lookup_insert_ne; [done|]. congruence.
    + intros m' y. destruct (decide (m' = m)) as [->|Hne]; [rewrite lookup_insert_eq; by intros [= <-]|rewrite lookup_insert_ne by done; apply M3].
    + intros m' y. destruct (decide (m' = m)) as [->|Hne]; [rewrite lookup_insert_eq; by intros [= <-]|rewrite lookup_insert_ne by done; apply M4].
    + by rewrite lookup_insert_ne.
  - destruct (li_frames _ _ L) as [F1 F2 F3 F4 F5 [F6 F7]]. split; try done.
    + intros td f m' Hf Hl. destruct (F4 td f m' Hf Hl) as [Hs Ho]. split; [by apply lookup_insert_is_Some', or_intror|]. intros m2 Hm2. by apply Ho, HO.
    + intros td m' Hf. destruct (F5 td m' Hf) as [Hw Hc]. split; [by apply HO|]. intros y. rewrite lookup_insert_ne; [apply Hc|]. intros <-. destruct Hw as (y' & c & Hy' & _). congruence.
    + split; [done|]. intros m' Hm'. by apply (F7 m'), HO.
Qed.

Lemma lock_wakeup_inv td reason : lock_event_ok rank k (LWakeup td reason) -> exists k', lock_step k (LWakeup td reason) = Ok k' /\ locks_inv rank k'.
Proof.
  intros (t & Ht & Hk). cbn [lock_step]. destruct (wakeup_spec (sch k) td t reason (li_sched _ _ L) Ht) as (s' & E & I' & Ec & Ei & EK & EP & EN); [intros E; by rewrite E in Hk|intros E; by rewrite E in Hk|]. unfold on_sch. rewrite E. eexists. split; [done|].
  pose proof (keys_lookup _ _ _ Ht) as HK. split; cbn [sch set_sch tss turnstile_chains mtxs frames]; rewrite ?EK, ?EP, ?EN, ?Ei; try done; try apply L.
  - apply (rekind _ _ _ (li_ts _ _ L) td (key_of t)); try done. cbn. by rewrite Hk.
  - apply (mtx_keys (keys (sch k))); [apply L| |]; intros o.
    + intros Ho. apply lookup_insert_is_Some in Ho as [<-|[_ Ho]]; apply (mo_address _ _ _ (li_mtx _ _ L)); [by exists (key_of t)|done].
    + intros o' v _ Hv Hko. destruct (decide (o' = td)) as [->|Hne]; [rewrite lookup_insert_eq; by eexists|rewrite lookup_insert_ne by done; by exists v].
  - apply (frames_free _ _ (nests (sch k))); try done; [apply L| |].
    + destruct (frames k !! td) as [f|] eqn:Hf; [|done]. destruct (fr_thread _ _ _ _ _ _ (li_frames _ _ L) td f Hf) as (v & Hv & Hko). rewrite HK in Hv. injection Hv as <-. by destruct Hko.
    + intros n Hnn. assert (frames k !! td = None) as Hf; [|by rewrite (fr_nest _ _ _ _ _ _ (li_frames _ _ L) td n Hnn), Hf].
      destruct (frames k !! td) as [f|] eqn:Hf; [|done]. destruct (fr_thread _ _ _ _ _ _ (li_frames _ _ L) td f Hf) as (v & Hv & Hko). rewrite HK in Hv. injection Hv as <-. by destruct Hko.
Qed.

Lemma block_inv st : lock_event_ok rank k (LBlock st) -> exists k', lock_step k (LBlock st) = Ok k' /\ locks_inv rank k'.
Proof.
  intros ([Hf Hi] & Hst & Hno). destruct (self_key rank k L) as (t & Ht & HK & Hrun & Hn & Ha). pose proof (li_sched _ _ L) as I. cbn [lock_step]. unfold on_sch. rewrite (leave_upd _ t) by done. cbn [mbind outcome_bind].
  destruct (sched_switch_spec (sch k) t st I Ht) as (v & s' & -> & R); [intros ->; done|by intros E|]. cbn [mbind outcome_bind]. eexists. split; [done|]. destruct (switch_same (sch k) t st v s' I Ht R ltac:(done)) as (W1 & W2 & W3). destruct (sw_const _ _ _ _ _ R) as (Ei & _).
  destruct (views_update (sch k) (leave (sch k) t st) _ _ eq_refl) as (V1 & V2 & V3). rewrite V1 in W1. rewrite V2 in W2. rewrite V3 in W3. set (v' := key_of (set_td_state st t)) in *. assert (k_kind v' <> Blocked) as Hk' by (cbn; by rewrite Hst).
  split; cbn [sch set_sch tss turnstile_chains mtxs frames]; rewrite ?W1, ?W2, ?W3, ?Ei; try apply L; [apply (sw_inv _ _ _ _ _ R)|..].
  - apply (rekind _ _ _ (li_ts _ _ L) _ (key_of t)); try done. cbn. by rewrite Hrun.
  - apply (mtx_keys (keys (sch k))); [apply L| |].
    + intros o Ho. apply lookup_insert_is_Some in Ho as [<-|[_ Ho]]; apply (mo_address _ _ _ (li_mtx _ _ L)); [by exists (key_of t)|done].
    + intros m o u Hw Hu Hk. exists u. rewrite lookup_insert_ne; [done|]. intros <-. by apply (Hno m).
  - rewrite (insert_id (nests (sch k))) by (exact (nests_lookup _ _ _ Ht)). apply (frames_free _ _ (nests (sch k))); try done; [apply L|]. intros n Hnn. by rewrite (fr_nest _ _ _ _ _ _ (li_frames _ _ L) _ n Hnn), Hf.
  - rewrite (insert_id (prios (sch k))) by (exact (prios_lookup _ _ _ Ht)). apply L.
Qed.

Lemma mtx_step_inv : ~ nested_release k -> exists k', mtx_step k = Ok k' /\ locks_inv rank k'.
Proof.
  intros Hs. unfold mtx_step, thread_self. destruct (frames k !! curthread (sch k)) as [[m w|m w|m w|m]|] eqn:Hf; [by apply mtx_try_spec|by apply mtx_block_spec|by apply mtx_resume_spec| |by exists k].
  destruct (mtx_release_spec rank k m L Hf) as (k' & E & L' & _); [intros [H1 H2]; apply Hs; by exists m|]. by exists k'.
Qed.

Lemma mtx_step_fails : nested_release k -> mtx_step k = Fault AssertFailed.
Proof. intros (m & Hf & Hc & Hn). unfold mtx_step, thread_self. rewrite Hf. by apply (mtx_release_fails rank). Qed.

(** What a thread has been lent is at least the priority of those that wait for it. *)
Lemma caller_above td prio t : threads (sch k) !! td = Some t ->
  td_is_borrowing t = true \/ prio <= td_prio t \/ (forall q x, tss k !! q = Some x -> ts_state x = USED_BLOCKED -> ts_owner x <> td) ->
  td_is_borrowing t = true /\ td_prio t < prio \/ above_waiters k td prio.
Proof.
  intros Ht Hc. assert (prio <= td_prio t -> above_waiters k td prio) as Hle.
  { intros Hp q x b Hx Hst Ho Hb. pose proof (pi_lent _ _ (li_prio _ _ L) q x b Hx Hst Hb) as H. rewrite Ho in H. unfold pr in H at 1. rewrite (prios_lookup _ _ _ Ht) in H. cbn in H. lia. }
  destruct Hc as [Hb|[Hp|Hn]]; [|by right; apply Hle|right; intros q x b Hx Hst Ho; by destruct (Hn q x)]. destruct (decide (td_prio t < prio)); [by left|right; apply Hle; lia].
Qed.

Lemma lock_step_inv e : lock_event_ok rank k e -> e <> LStep \/ ~ nested_release k -> exists k', lock_step k e = Ok k' /\ locks_inv rank k'.
Proof.
  pose proof (li_sched _ _ L) as I. destruct e as [td prio sq ts|m rc|m w|m| |td prio|td r|st| | | |now]; intros He Hn;
    try (by apply lock_create_inv || by apply lock_init_inv || by apply lock_wakeup_inv || by apply block_inv || (apply mtx_step_inv; by destruct Hn)).
  - destruct He as ([Hf Hi] & y & Hy & Hr & Ho). by apply (mtx_lock_spec rank k L m w y).
  - destruct He as ([Hf Hi] & Ho). by apply mtx_unlock_spec.
  - destruct He as (Hi & Hp & t & Ht & Hc). apply (set_prio_spec rank k td prio t); try done. by apply caller_above.
  - destruct (yield_same (sch k) I) as (s' & E & I' & V & Ei). cbn [lock_step]. unfold on_sch. rewrite E. eexists. split; [done|]. by apply same_inv.
  - destruct (preempt_same (sch k) I) as (s' & E & I' & V & Ei). cbn [lock_step]. unfold on_sch. rewrite E. eexists. split; [done|]. by apply same_inv.
  - destruct (clock_same (sch k) I) as (s' & E & I' & V & Ei). cbn [lock_step]. unfold on_sch. rewrite E. eexists. split; [done|]. by apply same_inv.
  - eexists. split; [done|]. apply same_inv; try done. by destruct I as [Q ? ? ? ? ?]; split.
Qed.
End step.

Fixpoint lock_run k (es : list lock_event) : outcome locks :=
  match es with [] => Ok k | e :: es => k ← lock_step k e; lock_run k es end.

Fixpoint lock_events_ok (rank : Z -> Z) k (es : list lock_event) : Prop :=
  match es with
  | [] => True
  | e :: es => lock_event_ok rank k e /\ forall k', lock_step k e = Ok k' -> lock_events_ok rank k' es
  end.

(** A run stops where a thread that has been lent a priority by the waiters of one mutex
    releases another contested one. *)
Definition stops_nested rank k (es : list lock_event) : Prop :=
  exists es1 es2 k1, es = es1 ++ LStep :: es2 /\ lock_run k es1 = Ok k1 /\ locks_inv rank k1 /\ nested_release k1 /\ lock_run k es = Fault AssertFailed.

Lemma lock_run_inv rank es : forall k, locks_inv rank k -> lock_events_ok rank k es ->
  (exists k', lock_run k es = Ok k' /\ locks_inv rank k') \/ stops_nested rank k es.
Proof.
  induction es as [|e es IH]; intros k L Hes; [left; by exists k|]. destruct Hes as [He Hes].
  assert ((e <> LStep \/ ~ nested_release k) \/ e = LStep /\ nested_release k) as [Hn|[-> Hn]].
  { destruct e; try (by left; left). destruct (decide (nested_release k)); [by right|left; by right]. }
  - destruct (lock_step_inv rank k L e He Hn) as (k1 & E1 & L1). cbn [lock_run]. destruct (IH k1 L1 (Hes k1 E1)) as [(k' & E & L')|(es1 & es2 & k2 & -> & E2 & L2 & H2 & Ef)].
    + left. exists k'. rewrite E1. done.
    + right. exists (e :: es1), es2, k2. split_and!; try done; cbn [lock_run app]; by rewrite E1.
  - right. exists [], es, k. split_and!; try done. cbn [lock_run lock_step]. by rewrite (mtx_step_fails rank k L Hn).
Qed.

(** ** Turnstiles do not touch mutexes *)

Definition keeps_mtxs k k' : Prop := mtxs k' = mtxs k.

Lemma on_sch_keeps k f k' : on_sch k f = Ok k' -> keeps_mtxs k k'.
Proof. unfold on_sch. intros H. outcome_inv. done. Qed.

(** Follow a successful run through its steps. *)
Ltac run := repeat (outcome_inv || case_match || (progress simplify_eq)).

Lemma forward_keeps k ts td k' : adjust_thread_forward k ts td = Ok k' -> keeps_mtxs k k'.
Proof. unfold adjust_thread_forward. intros H. run; done. Qed.

Lemma adjust_keeps k ts td o k' : adjust_thread k ts td o = Ok k' -> keeps_mtxs k k'.
Proof. unfold adjust_thread, adjust_thread_backward. intros H. run; try done. by apply forward_keeps in H. Qed.

Ltac keeps lems := repeat match goal with
  | H : on_sch _ _ = Ok _ |- _ => apply on_sch_keeps in H
  | H : adjust_thread_forward _ _ _ = Ok _ |- _ => apply forward_keeps in H
  | H : adjust_thread _ _ _ _ = Ok _ |- _ => apply adjust_keeps in H
  | H : _ = Ok _ |- _ => lems H
  end; unfold keeps_mtxs in *; cbn [mtxs put_ts set_tss set_chains set_sch put_frame drop_frame set_frames] in *; congruence.

Lemma propagate_keeps fuel : forall k td p k', propagate_loop fuel k td p = Ok k' -> keeps_mtxs k k'.
Proof. induction fuel as [|fuel IH]; intros k td p k' H; cbn [propagate_loop] in H; run; keeps ltac:(fun H => apply IH in H). Qed.

Lemma switch_away_keeps k ts w k' : switch_away k ts w = Ok k' -> keeps_mtxs k k'.
Proof. unfold switch_away, upd_td, propagate_priority. intros H. run. keeps ltac:(fun H => apply propagate_keeps in H). Qed.

Lemma wait_keeps k ts o w k' : turnstile_wait k ts o w = Ok k' -> keeps_mtxs k k'.
Proof. unfold turnstile_wait, upd_td. intros H. run; keeps ltac:(fun H => apply switch_away_keeps in H). Qed.

Lemma give_back_keeps l : forall k ts k', give_back l k ts = Ok k' -> keeps_mtxs k k'.
Proof. unfold keeps_mtxs. induction l as [|td l IH]; intros k ts k' H; cbn [give_back] in H; unfold upd_td in H; run; try done; keeps ltac:(fun H => apply IH in H). Qed.

Lemma wakeup_keeps l : forall k ts k', wakeup_blocked l k ts = Ok k' -> keeps_mtxs k k'.
Proof. unfold keeps_mtxs. induction l as [|td l IH]; intros k ts k' H; cbn [wakeup_blocked] in H; unfold upd_td in H; run; try done; keeps ltac:(fun H => apply IH in H). Qed.

Lemma broadcast_keeps k m k' : turnstile_broadcast k m = Ok k' -> keeps_mtxs k k'.
Proof.
  unfold turnstile_broadcast, give_back_turnstiles, unlend_self, upd_td. intros H. run. keeps ltac:(fun H => apply give_back_keeps in H || apply wakeup_keeps in H).
Qed.

Lemma take_keeps k m q k' : turnstile_take k m = Ok (q, k') -> keeps_mtxs k k'.
Proof. unfold turnstile_take. intros H. run; done. Qed.

Lemma give_keeps k q k' : turnstile_give k q = Ok k' -> keeps_mtxs k k'.
Proof. unfold turnstile_give. intros H. run; done. Qed.

Lemma set_prio_keeps k td p k' : set_prio k td p = Ok k' -> keeps_mtxs k k'.
Proof. unfold set_prio, turnstile_adjust, propagate_priority, upd_td. intros H. run; keeps ltac:(fun H => apply propagate_keeps in H). Qed.

(** ** Mutual exclusion *)

Section exclusive.
Context (rank : Z -> Z) (k : locks).
Hypothesis L : locks_inv rank k.
Let td := curthread (sch k).

Lemma owned_unique m o o' : owned (mtxs k) m o -> owned (mtxs k) m o' -> o = o'.
Proof. intros (y & c & Hy & E & Ha) (y' & c' & Hy' & E' & Ha'). assert (y' = y) as -> by congruence. rewrite E in E'. by apply owner_word_inj in E' as [? _]. Qed.

(** The word of the owner changes at most in the flag, or the owner is the running thread. *)
Lemma owned_put m y y' m' o : mtxs k !! m = Some y -> o <> td -> owned (mtxs k) m' o ->
  m_owner y' = m_owner y \/ m_owner y' = Z.lor (m_owner y) MTX_CONTESTED \/ m_owner y = 0 \/ owned (mtxs k) m td -> owned (<[m := y']> (mtxs k)) m' o.
Proof.
  intros Hy Ho Hm' Hc. apply owned_insert. destruct (decide (m' = m)) as [->|Hne]; [left|by right]. split; [done|]. pose proof Hm' as (z & c & Hz & E & Ha). assert (z = y) as -> by congruence. destruct Hc as [->|[->|[E0|Hw]]].
  - by exists c.
  - exists true. split; [|done]. rewrite E. destruct c; cbn; [by rewrite <- Z.lor_assoc|done].
  - rewrite E0 in E. pose proof (owner_word_pos o c Ha). lia.
  - destruct Ho. by apply (owned_unique m).
Qed.

Lemma step_owned k' m o : mtx_step k = Ok k' -> o <> td -> owned (mtxs k) m o -> owned (mtxs k') m o.
Proof.
  intros H Ho Hm. unfold mtx_step, thread_self in H. fold td in H. destruct (frames k !! td) as [[m0 w|m0 w|m0 w|m0]|] eqn:Hf; [| | | |by injection H as <-].
  - unfold mtx_try, get_mtx in H. run; [|done]. cbn. eapply owned_put; eauto. right; right; left. lia.
  - unfold mtx_block in H. run; repeat match goal with
      | H : on_sch _ _ = Ok _ |- _ => apply on_sch_keeps in H
      | H : turnstile_take _ _ = Ok _ |- _ => apply take_keeps in H
      | H : turnstile_give _ _ = Ok _ |- _ => apply give_keeps in H
      | H : turnstile_wait _ _ _ _ = Ok _ |- _ => apply wait_keeps in H
      end; unfold keeps_mtxs, get_mtx in *; cbn [mtxs put_frame set_frames put_mtx set_mtxs] in *; run.
    + match goal with H : mtxs k' = <[_ := _]> (mtxs ?l), H1 : mtxs ?l = mtxs ?v, H2 : mtxs ?v = mtxs k |- _ => rewrite H1, H2 in *; rewrite H end. eapply owned_put; eauto.
    + congruence.
    + congruence.
  - unfold mtx_resume in H. apply on_sch_keeps in H. unfold keeps_mtxs in H. cbn in H. congruence.
  - destruct (fr_release _ _ _ _ _ _ (li_frames _ _ L) _ m0 Hf) as [Hw _]. unfold mtx_release, thread_self in H. run; repeat match goal with
      | H : on_sch _ _ = Ok _ |- _ => apply on_sch_keeps in H
      | H : turnstile_broadcast _ _ = Ok _ |- _ => apply broadcast_keeps in H
      end; unfold keeps_mtxs, get_mtx in *; cbn [mtxs drop_frame set_frames put_mtx set_mtxs] in *; run.
    all: rewrite H, ?E1, E in *; eapply owned_put; eauto; congruence.
Qed.

(** New mutexes have fresh addresses, and only the owner unlocks. *)
Definition owners_unlock (e : lock_event) : Prop :=
  match e with LInit m _ => mtxs k !! m = None | LUnlock m => owned (mtxs k) m td | _ => True end.

Lemma lock_step_owned e k' m o : owners_unlock e -> lock_step k e = Ok k' -> o <> td -> owned (mtxs k) m o -> owned (mtxs k') m o.
Proof.
  intros He H Ho Hm. destruct e as [td' prio sq ts|m0 rc|m0 w|m0| |td' prio|td' r|st| | | |now]; cbn [lock_step] in H; try (apply on_sch_keeps in H; unfold keeps_mtxs in H; congruence).
  - by injection H as <-.
  - injection H as <-. cbn in He. cbn. apply owned_insert. right. split; [|done]. intros ->. destruct Hm as (y & _ & Hy & _). congruence.
  - unfold mtx_lock, get_mtx in H. run; try done. cbn. eapply owned_put; eauto.
  - cbn in He. unfold mtx_unlock, get_mtx in H. run; try done; cbn; eapply owned_put; eauto.
  - by apply step_owned.
  - apply set_prio_keeps in H. unfold keeps_mtxs in H. congruence.
Qed.
End exclusive.

(** ** Results *)

(** [b] waits for a mutex that [o] owns. *)
Definition waits_for k b o : Prop :=
  exists t q x y, threads (sch k) !! b = Some t /\ td_state t = TDS_BLOCKED /\ td_blocked t = q /\ tss k !! q = Some x /\ b ∈ ts_blocked x /\ ts_owner x = o /\
    mtxs k !! ts_wchan x = Some y /\ mtx_owner y = o /\ flag_on (m_owner y) MTX_CONTESTED = true.

Section waiting.
Context (rank : Z -> Z) (k : locks).
Hypothesis L : locks_inv rank k.

Lemma waits_step b t : threads (sch k) !! b = Some t -> td_state t = TDS_BLOCKED ->
  exists o t_o, waits_for k b o /\ threads (sch k) !! o = Some t_o /\ td_prio t_o <= td_prio t /\ kind_of (td_state t_o) <> Other /\ (td_state t_o = TDS_BLOCKED -> rank (td_wchan t) < rank (td_wchan t_o)).
Proof.
  intros Ht Hb. pose proof (li_ts _ _ L) as S. pose proof (li_mtx _ _ L) as Mo. pose proof (keys_lookup _ _ _ Ht) as HK. destruct (blocked_ts _ _ _ S b _ HK) as (x & Hx & Hst & Hw & Hin & _ & _); [cbn; by rewrite Hb|].
  destruct (owner_ok rank _ _ _ _ _ _ (li_frames _ _ L) _ _ x S Mo Hx Hst) as (vo & Hvo & Hvk & Hoi & Ho0). pose proof (mo_address _ _ _ Mo _ (mk_is_Some _ _ Hvo)) as Ha. destruct (mo_used _ _ _ Mo _ x Hx Hst) as (y & Hy & Ey).
  pose proof Hvo as Hvo'. apply keys_inv in Hvo' as (t_o & Hto & Evo). exists (ts_owner x), t_o. split_and!; try done.
  - exists t, (td_blocked t), x, y. split_and!; try done; [|rewrite Ey; by apply owner_word_flag]. destruct y as [rc n wd]. cbn [m_owner] in Ey. subst wd. by apply owner_word_owner.
  - pose proof (pi_lent _ _ (li_prio _ _ L) _ x b Hx Hst Hin) as Hle. unfold pr in Hle. by rewrite (prios_lookup _ _ _ Hto), (prios_lookup _ _ _ Ht) in Hle.
  - rewrite Evo in Hvk. exact Hvk.
  - intros Hbo. pose proof (chain_step rank _ _ _ _ _ _ (li_frames _ _ L) (tss k) _ x vo S Mo Hx Hst Hvo) as Hc. rewrite Hw, Evo in Hc. apply Hc. cbn. by rewrite Hbo.
Qed.

(** The chain of owners ends at a thread that can run. *)
Lemma waits_chain n : forall b t, (size (above rank (keys (sch k)) (rank (td_wchan t))) < n)%nat -> threads (sch k) !! b = Some t -> kind_of (td_state t) <> Other ->
  exists r t_r, rtc (waits_for k) b r /\ threads (sch k) !! r = Some t_r /\ kind_of (td_state t_r) = Runnable /\ td_prio t_r <= td_prio t.
Proof.
  induction n as [|n IH]; intros b t Hn Ht Hk; [lia|]. destruct (decide (td_state t = TDS_BLOCKED)) as [Hb|Hb]; [|exists b, t; split_and!; [apply rtc_refl|done|by destruct (td_state t)|lia]].
  destruct (waits_step b t Ht Hb) as (o & t_o & Hw & Hto & Hle & Hko & Hr). destruct (decide (td_state t_o = TDS_BLOCKED)) as [Hbo|Hbo].
  - pose proof (above_lt rank (keys (sch k)) (rank (td_wchan t)) o (key_of t_o) (keys_lookup _ _ _ Hto)) as Hlt. cbn [k_kind k_wchan key_of] in Hlt. rewrite Hbo in Hlt. specialize (Hlt eq_refl (Hr Hbo)).
    destruct (IH o t_o ltac:(lia) Hto Hko) as (r & t_r & Hc & Htr & Hkr & Hler). exists r, t_r. split_and!; try done; [by eapply rtc_l|lia].
  - exists o, t_o. split_and!; try done; [by apply rtc_once|by destruct (td_state t_o)].
Qed.
End waiting.

(** C4: Threads lock and unlock, in any interleaving at the points where they can be
    preempted, and they are created, woken, put to sleep and reprioritised on the way.  They
    lock mutexes in the order of a rank, do not sleep while they own one, and keep the other
    rules of [lock_event_ok].  Then no assertion of turnstiles, mutexes and the scheduler
    fails, every turnstile stays with one thread, free list or mutex, and every blocked
    thread is on the queue of a mutex that is marked as contested and has an owner.  There is
    one exception: the run stops, on an assertion, where a thread releases a contested mutex
    while it has been lent a priority above its own by a thread that waits for another one;
    up to there everything said before holds. *)
Theorem mutex_consistent rank k es :
  locks_inv rank k -> lock_events_ok rank k es ->
  (exists k', lock_run k es = Ok k' /\ locks_inv rank k' /\
    forall b t, threads (sch k') !! b = Some t -> td_state t = TDS_BLOCKED -> exists o, waits_for k' b o) \/
  stops_nested rank k es.
Proof.
  intros L He. destruct (lock_run_inv rank es k L He) as [(k' & E & L')|Hs]; [left|by right]. exists k'. split_and!; try done.
  intros b t Ht Hb. destruct (waits_step rank k' L' b t Ht Hb) as (o & _ & Hw & _). by exists o.
Qed.

(** C5: Priorities are inherited: from every blocked thread a chain of owners, each waiting
    for a mutex of the next, leads to a thread that is ready or running, and that thread
    has at least the priority of the blocked one.  This holds after every run in which mutexes
    are locked in the order of a rank, no owner goes to sleep, and no priority is lowered of a
    thread that others wait for and that has not been lent its priority. *)
Theorem priority_inheritance rank k es k' b t :
  locks_inv rank k -> lock_events_ok rank k es -> lock_run k es = Ok k' ->
  threads (sch k') !! b = Some t -> td_state t = TDS_BLOCKED ->
  exists r t_r, tc (waits_for k') b r /\ threads (sch k') !! r = Some t_r /\
    (td_state t_r = TDS_READY \/ td_state t_r = TDS_RUNNING) /\ prio_ge (td_prio t_r) (td_prio t) = true.
Proof.
  intros L He E Ht Hb. destruct (lock_run_inv rank es k L He) as [(k1 & E1 & L')|(es1 & es2 & k1 & _ & _ & _ & _ & E1)]; [|congruence]. assert (k1 = k') as -> by congruence. destruct (waits_step rank k' L' b t Ht Hb) as (o & t_o & Hw & Hto & Hle & Hko & _).
  destruct (waits_chain rank k' L' (S (size (above rank (keys (sch k')) (rank (td_wchan t_o))))) o t_o ltac:(lia) Hto Hko) as (r & t_r & Hc & Htr & Hkr & Hler). exists r, t_r. split_and!; try done.
  - by eapply tc_rtc_r; [apply tc_once|].
  - destruct (td_state t_r); try done; [by left|by right].
  - unfold prio_ge. apply Z.leb_le. lia.
Qed.

(** C6: Mutual exclusion: no step of the running thread takes a mutex away from another
    thread, nor gives it to a second one, as long as no mutex is initialised twice and only
    owners unlock. *)
Theorem mutex_exclusive rank k e k' m o :
  locks_inv rank k -> owners_unlock k e -> lock_step k e = Ok k' ->
  owned (mtxs k) m o -> o <> curthread (sch k) ->
  owned (mtxs k') m o /\ forall o', owned (mtxs k') m o' -> o' = o.
Proof.
  intros L He E Ho Hne. pose proof (lock_step_owned rank k L e k' m o He E Hne Ho) as Ho'. split; [done|]. intros o' H. by apply (owned_unique k' m).
Qed.

(** C7: A mutex that others wait for is released: its owner word is cleared and all threads
    that waited for it can run.  The release fails, on the assertion of [sched_lend_prio],
    exactly if the mutex is contested and another waiter of the owner has raised the
    owner's priority. *)
Theorem mtx_release_correct rank k m :
  locks_inv rank k -> frames k !! curthread (sch k) = Some (Releasing m) ->
  (contested k m /\ nested_lending k m -> mtx_release k m = Fault AssertFailed) /\
  (~ (contested k m /\ nested_lending k m) -> exists k', mtx_release k m = Ok k' /\ locks_inv rank k' /\ freed k m k').
Proof. intros L Hf. split; [intros [Hc Hn]; by apply (mtx_release_fails rank)|by apply mtx_release_spec]. Qed.

(** ** Three threads and two mutexes *)

Definition idle_td : thread := set_td_turnstile 108 (set_td_state TDS_RUNNING (new_thread 255)).

Definition lock_sched : sched := Sched {[8 := idle_td]} runq_init 8 8 true false false (Bintime 0 0).

Definition boot_locks : locks := Locks lock_sched {[108 := turnstile_ctor]} init_turnstile ∅ ∅.

Lemma lock_sched_inv : sched_inv lock_sched.
Proof.
  assert (forall td t, threads lock_sched !! td = Some t -> td = 8 /\ t = idle_td) as Hone by (cbn [threads lock_sched]; by intros td t [<- <-]%lookup_singleton_Some). split.
  - split; [done| |].
    + intros i q Hi. apply lookup_replicate in Hi as [-> _]. constructor.
    + intros i q td Hi. apply lookup_replicate in Hi as [-> _]. split; [by intros ?%not_elem_of_nil|]. intros (t & Ht & Hr & _). apply Hone in Ht as [_ ->]. done.
  - intros td t Ht. apply Hone in Ht as [_ ->]. unfold prio_ok. cbn. lia.
  - eexists. split; [apply lookup_singleton_eq|]. by left.
  - intros td t Ht _. by apply Hone in Ht as [-> _].
  - eexists. split; [apply lookup_singleton_eq|]. by right.
  - done.
Qed.

Lemma empty_turnstiles : ts_ok ∅ ∅ init_turnstile.
Proof.
  assert (forall q h, ~ holds ∅ ∅ q h) as Hno by (intros q [td|ts|m] (v & Hv & _); by rewrite lookup_empty in Hv). split; try done; try (intros; by rewrite lookup_empty in *).
  - intros i l Hi. apply lookup_replicate in Hi as [-> _]. constructor.
  - intros i l q Hi. apply lookup_replicate in Hi as [-> _]. split; [by intros ?%not_elem_of_nil|]. intros (m & H & _). by apply Hno in H.
  - intros q h h' H. by apply Hno in H.
  - intros q q' m H. by apply Hno in H.
  - intros q td H. by apply Hno in H.
  - intros q ts H. by apply Hno in H.
Qed.

Lemma boot_locks_inv rank : locks_inv rank boot_locks.
Proof.
  assert (keys lock_sched = <[8 := key_of idle_td]> ∅) as EK by (unfold keys; cbn [threads lock_sched]; by rewrite map_fmap_singleton). assert (prios lock_sched = {[8 := prio_of idle_td]}) as EP by (unfold prios; cbn [threads lock_sched]; by rewrite map_fmap_singleton).
  assert (nests lock_sched = {[8 := 0]}) as EN by (unfold nests; cbn [threads lock_sched]; by rewrite map_fmap_singleton). assert (forall q x, ({[108 := turnstile_ctor]} : tsmap) !! q = Some x -> ts_state x <> USED_BLOCKED) as HT by (by intros q x [<- <-]%lookup_singleton_Some).
  split; cbn [sch boot_locks tss turnstile_chains mtxs frames idle_thread lock_sched]; change (Sched {[8 := idle_td]} runq_init 8 8 true false false (Bintime 0 0)) with lock_sched; rewrite ?EK, ?EP, ?EN.
  - apply lock_sched_inv.
  - by apply (spawn_ok ∅ ∅ _ empty_turnstiles).
  - split; try done; [intros q x Hx Hst; by apply HT in Hx|]. intros td Htd. apply lookup_insert_is_Some in Htd as [<-|[_ [? Hv]]]; [done|by rewrite lookup_empty in Hv].
  - split; try done; [by intros td n [<- <-]%lookup_singleton_Some| |].
    + intros td v [[<- <-]|[_ Hv]]%lookup_insert_Some Hk; [done|by rewrite lookup_empty in Hv].
    + split; [done|]. intros m (y & c & Hy & _). by rewrite lookup_empty in Hy.
  - split; [split; intros td v [<- <-]%lookup_singleton_Some; cbn; split; [lia|done]| |]; intros q x; [intros Hx Hst|intros b Hx Hst]; by apply HT in Hx.
Qed.

Definition owns_below (rank : Z -> Z) M td (r : Z) : bool := forallb (fun '(m, y) => negb (mtx_owner y =? td) || (rank m <? r)) (map_to_list M).

Lemma owns_below_ok rank M td r m : owns_below rank M td r = true -> owned M m td -> rank m < r.
Proof.
  intros Hb (y & c & Hy & E & Ha). apply elem_of_map_to_list, list_elem_of_In in Hy. unfold owns_below in Hb. rewrite forallb_forall in Hb. apply Hb in Hy. assert (mtx_owner y = td) as Eo by (destruct y as [rc n wd]; cbn [m_owner] in E; subst wd; by apply owner_word_owner).
  rewrite Eo, Z.eqb_refl in Hy. cbn in Hy. lia.
Qed.

Lemma lock_ok rank k m w y : outside k -> mtxs k !! m = Some y -> owns_below rank (mtxs k) (curthread (sch k)) (rank m) = true -> lock_event_ok rank k (LLock m w).
Proof.
  intros Ho Hy Hb. split; [done|]. exists y. split; [done|]. split; [intros Hw; pose proof (owns_below_ok _ _ _ _ _ Hb Hw); lia|]. intros _ m' Hm'. by apply (owns_below_ok rank (mtxs k) (curthread (sch k))).
Qed.

Definition by_address (m : Z) : Z := m.

(** The conditions on events, on concrete states *)
Ltac lock_event_step :=
  match goal with
  | |- lock_event_ok _ _ (LLock _ _) => eapply lock_ok; [split; vm_compute; done|vm_compute; reflexivity|vm_compute; reflexivity]
  | |- lock_event_ok _ _ (LWakeup _ _) => eexists; split; [vm_compute; reflexivity|vm_compute; reflexivity]
  | |- lock_event_ok _ _ (LCreate _ _ _ _) => split_and!; (vm_compute; reflexivity) || lia || done
  | |- lock_event_ok _ _ (LInit _ _) => split; [vm_compute; reflexivity|done]
  | |- _ => done
  end.

Ltac lock_events := repeat (split; [lock_event_step|let H := fresh in intros ? H; vm_compute in H; injection H as <-]); try done.

(** Thread 16 owns the mutex 2000, thread 24 owns 1000 and waits for 2000, and thread 32 waits
    for 1000. *)
Definition chain_events : list lock_event :=
  [LInit 1000 false; LInit 2000 false; LCreate 16 200 0 116; LWakeup 16 0; LMaybePreempt; LLock 2000 0; LStep;
   LCreate 24 150 0 124; LWakeup 24 0; LMaybePreempt; LLock 1000 0; LStep; LLock 2000 0; LStep; LStep;
   LCreate 32 100 0 132; LWakeup 32 0; LMaybePreempt; LLock 1000 0; LStep; LStep].

Lemma chain_events_ok : lock_events_ok by_address boot_locks chain_events.
Proof. cbn [lock_events_ok chain_events]. lock_events. Qed.

Definition chained : locks := match lock_run boot_locks chain_events with Ok k => k | _ => boot_locks end.

Lemma chained_run : lock_run boot_locks chain_events = Ok chained.
Proof. vm_compute. reflexivity. Qed.

Lemma chained_inv : locks_inv by_address chained.
Proof.
  destruct (lock_run_inv by_address chain_events boot_locks (boot_locks_inv _) chain_events_ok) as [(k & E & L)|(es1 & es2 & k & _ & _ & _ & _ & E)]; [unfold chained; by rewrite E|].
  rewrite chained_run in E. discriminate E.
Qed.

Lemma mutex_consistent_witness : exists k, lock_run boot_locks chain_events = Ok k /\ locks_inv by_address k.
Proof.
  destruct (mutex_consistent by_address boot_locks chain_events (boot_locks_inv _) chain_events_ok) as [(k & E & L & _)|(es1 & es2 & k & _ & _ & _ & _ & E)]; [exists k; exact (conj E L)|].
  rewrite chained_run in E. discriminate E.
Defined.

(** Thread 32 waits for thread 24, which waits for thread 16; all have its priority. *)
Lemma priority_inheritance_witness : exists r t_r, tc (waits_for chained) 32 r /\ threads (sch chained) !! r = Some t_r /\ prio_ge (td_prio t_r) 100 = true.
Proof.
  destruct (threads (sch chained) !! 32) as [t|] eqn:Ht; [|vm_compute in Ht; discriminate Ht]. assert (td_state t = TDS_BLOCKED /\ td_prio t = 100) as [Hb Hp] by (vm_compute in Ht; injection Ht as <-; split; reflexivity).
  destruct (priority_inheritance by_address boot_locks chain_events chained 32 t (boot_locks_inv _) chain_events_ok chained_run Ht Hb) as (r & t_r & Hw & Hr & _ & Hle). exists r, t_r. rewrite Hp in Hle. exact (conj Hw (conj Hr Hle)).
Defined.

Lemma chained_owned : owned (mtxs chained) 2000 16 /\ owned (mtxs chained) 1000 24 /\ outside chained.
Proof. split_and!; [exists (Mtx false 0 17), true|exists (Mtx false 0 25), true|split]; try split_and!; vm_compute; done. Qed.

(** Thread 16 starts to release its mutex. *)
Definition releasing : locks := match lock_step chained (LUnlock 2000) with Ok k => k | _ => chained end.

Lemma mutex_exclusive_witness : owned (mtxs releasing) 1000 24.
Proof.
  destruct chained_owned as (H1 & H2 & H3). refine (proj1 (mutex_exclusive by_address chained (LUnlock 2000) releasing 1000 24 chained_inv _ _ H2 _)); [exact H1|vm_compute; reflexivity|vm_compute; discriminate].
Defined.

Lemma releasing_inv : locks_inv by_address releasing.
Proof. destruct chained_owned as (H1 & _ & H3). destruct (lock_step_inv by_address chained chained_inv (LUnlock 2000) (conj H3 H1) ltac:(by left)) as (k & E & L). unfold releasing. by rewrite E. Qed.

Lemma releasing_alone : ~ nested_lending releasing 2000.
Proof.
  intros (q & x & b & t & Hx & Hst & Ho & Hw & _). apply elem_of_map_to_list, list_elem_of_In in Hx. vm_compute in Hx, Ho. repeat destruct Hx as [Hx|Hx]; try (injection Hx as <- <-); try done; by apply Hw.
Qed.

Lemma mtx_release_correct_witness : exists k', mtx_release releasing 2000 = Ok k' /\ freed releasing 2000 k'.
Proof.
  destruct (mtx_release_correct by_address releasing 2000 releasing_inv ltac:(vm_compute; reflexivity)) as [_ H]. destruct H as (k' & E & _ & F); [intros [_ Hn]; exact (releasing_alone Hn)|]. exists k'. exact (conj E F).
Defined.

(** ** What modelling showed *)

(** Thread 16 owns two mutexes, and threads 24 and 32, both above it, wait for them.  It has
    the priority of thread 32; when it releases the mutex that thread 24 waits for, the
    priority of thread 32 is lent to it again, which [sched_lend_prio] does not allow. *)
Lemma nested_release_panics :
  lock_run boot_locks
    [LInit 1000 false; LInit 2000 false; LCreate 16 200 0 116; LWakeup 16 0; LMaybePreempt; LLock 1000 0; LStep; LLock 2000 0; LStep;
     LCreate 24 150 0 124; LWakeup 24 0; LMaybePreempt; LLock 2000 0; LStep; LStep;
     LCreate 32 100 0 132; LWakeup 32 0; LMaybePreempt; LLock 1000 0; LStep; LStep; LUnlock 2000; LStep] = Fault AssertFailed.
Proof. vm_compute. reflexivity. Qed.

(** [sched_set_prio] lowers the priority of an owner below the one of a thread that waits for
    it, if the owner has not been lent a priority yet. *)
Lemma set_prio_inverts :
  exists k t t', lock_run boot_locks
    [LInit 1000 false; LCreate 16 200 0 116; LWakeup 16 0; LMaybePreempt; LLock 1000 0; LStep; LCreate 24 201 0 124; LWakeup 24 0; LYield;
     LLock 1000 0; LStep; LStep; LSetPrio 16 250] = Ok k /\
    waits_for k 24 16 /\ threads (sch k) !! 16 = Some t /\ threads (sch k) !! 24 = Some t' /\ prio_lt (td_prio t) (td_prio t') = true.
Proof.
  eexists _, _, _. split; [vm_compute; reflexivity|]. split; [|split_and!; vm_compute; reflexivity].
  eexists _, _, _, _. split; [vm_compute; reflexivity|]. split_and!; try (vm_compute; reflexivity). vm_compute. by left.
Qed.
